(* ===== verification/_CoqProject ===== *)
-Q . S2P
Prelude.v
Interaction.v
Buffer.v
Platform.v
Packet.v
Codec.v
Service.v
Kex.v
UserPolicy.v
Userauth.v
Connection.v
Ident.v
TransportState.v
Transport.v
TransportSafe.v
TransportSession.v
TransportQuiet.v
TransportWire.v
TransportKex.v
Sftp.v
SftpPath.v
SftpServer.v
SftpServerSafe.v
SftpSession.v
PortableFs.v
FsBackend.v
FatfsAdapter.v
FatfsSession.v
LittlefsAdapter.v
LittlefsSession.v
ServerState.v
Server.v
ServerSafe.v
ServerFlow.v
ServerSftp.v
ServerTerminal.v
ServerRun.v
ServerTrace.v
ServerSession.v
ServerLink.v
ConfigFile.v
ConfigValues.v
ConfigMatch.v
ConfigLine.v
ConfigLoad.v
ConfigRound.v
ConfigApply.v
PasswdAuth.v
PasswdLookup.v
PasswdLogin.v
OpensshKey.v
OpensshText.v
OpensshPem.v
OpensshDer.v
OpensshRead.v
OpensshConvert.v
MbedCrypto.v
MbedPsa.v
MbedVerify.v
MbedLogin.v
MbedKdf.v
MbedBlobs.v
MbedKeys.v
MbedLife.v
