(* ===== verification/Prelude.v ===== *)
(** * emsshd: a verification development for the protocol core of EMSSHD

    EMSSHD is an SSH 2.0 and SFTP version 3 server in C for embedded and desktop
    targets.  Its core (src/core, src/sftp under the repository's root) is
    portable protocol code that calls crypto, network, file system and terminal
    backends through tables of function pointers.  This library models that core
    bottom up and proves the properties the layers above rely on.

    ** The program

    - ssh_buffer.c: bounded byte buffers with a write end and a read cursor; the
      primitive wire types (byte, boolean, 32- and 64-bit integers, strings,
      mpint, name lists).  All message code reads and writes through it.
    - ssh_packet.c: the binary packet protocol: padding, plain packets, and
      packets encrypted and authenticated under an [ssh_packet_protection_t]
      (keys, IV used as a counter, sequence number).
    - ssh_service.c, ssh_kex.c, ssh_userauth.c, ssh_connection.c: the messages of
      each protocol layer, the algorithm negotiation, and the decision about an
      authentication request.
    - sftp.c: the SFTP messages; sftp_server.c: the file requests, handles and
      path policy on top of them.
    - ssh_transport.c: version exchange, key exchange and the message loops of a
      connection; ssh_server.c: a whole connection on top of them, from the
      transport setup through authentication and the channel to an SFTP session
      or a program on a terminal.
    - platform/sshd_config_file.c: the configuration file of the daemon, read
      through the same file system table, and its transfer to the configuration of
      the server and the options of a session.
    - crypto/mbedtls/openssh_key.c: the conversion of a host key in the format of
      OpenSSH to the PKCS#1 format that the crypto library reads.
    - crypto/mbedtls/ssh_crypto_mbedtls.c: the crypto table on the PSA interface of
      mbedTLS: key exchange, key derivation, packet encryption, the host key, and the
      verification of the signatures of users.
    - platform/posix_passwd_auth.c: the callback for passwords that looks a user up in
      the passwd and shadow files.
    - platform/portable_fs.c, platform/fatfs_adapter.c, platform/littlefs_adapter.c: the
      file system table of the SFTP server on a FatFs or littlefs volume.
    - the other crypto backends, and the other adapters for files, networks, terminals and
      threads.

    ** The files

    - [Prelude]: status codes, the program monads, machine integers, byte
      regions, big-endian integers, the hint and rewrite databases and tactics.
    - [Buffer]: ssh_buffer.c.  [ssh_buffer_t] is the record [ssh_buffer], a
      buffer pointer an [option ssh_buffer], an operation a state-passing program
      [BufM].  [buf_wf] is the invariant; [Bf] the abstract byte queue; [emits],
      [parses] and [decodes] the contracts of writers and readers, bundled per
      primitive type in the class [WireFormat].
    - [Platform]: the limits of ssh_config.h and ssh_crypto.h and the crypto and
      random-number callbacks, as parameters; the classes
      [StreamCipher], [InPlaceCipher], [MacOk] and [RngOk] say what theorems need of
      them, with concrete instances.
    - [Packet]: ssh_packet.c.  The memory of the packet and the protection record
      are the state, so in-place decryption and the undoing of it are visible.
    - [Codec]: the class [Message] (what a message decoder promises), the
      programs that fill a caller's structure, and the tactics that run a
      decoder symbolically.
    - [Service], [Kex], [Userauth], [Connection]: the message files; [UserPolicy]:
      the user name patterns and lists at the front of ssh_userauth.c.
    - [Sftp]: sftp.c, with the class [RequestCodec] as the promise of a request
      decoder to the SFTP server.
    - [Interaction]: programs that call back into the platform, as finite
      interaction trees: [run] against an environment, [wp] under a monitor of the
      calls and a contract on the replies, [yields] for definite runs.
    - [Ident]: the identification lines of ssh_transport.c and ssh_server.c.
    - [TransportState]: the callbacks ([tcall], [treply]) and the session record
      of ssh_transport.h ([transport_session]); [Transport]: every operation of
      ssh_transport.c, from the loops over the network callbacks to the channel
      messages; [TransportSafe]: the contract of the callbacks, the monitor of
      the key exchange calls, the invariant [session_ok] and its proof for each
      operation; [TransportSession]: the operations as a type, their results, any
      sequence of them; [TransportQuiet]: sending never reports a timeout;
      [TransportWire]: two sessions on a byte stream (class [ByteStream]);
      [TransportKex]: the values a key exchange computes (class [KexBackend]).
    - [SftpPath]: the path normalisation of sftp_server.c; [SftpServer]: its
      handle table, policy checks, request handlers and dispatcher over file
      system callbacks; [SftpServerSafe]: the monitor of those callbacks and the
      proof for each handler; [SftpSession]: sequences of packets and the end of a
      session.
    - [PortableFs]: portable_fs.c, a table of optional entries behind the file system
      interface.  [FsBackend]: what the adapters on a library share: a heap of the
      blocks they allocate, the monitor of the objects of the library (class
      [Library]), the promise of an adapter to the SFTP server (class [FsBackend])
      and a session over any adapter that keeps it.  [FatfsAdapter],
      [LittlefsAdapter]: fatfs_adapter.c and littlefs_adapter.c, with the functions
      of ff.h and lfs.h as calls; [FatfsSession], [LittlefsSession]: that they keep
      the promise, and volumes for the examples.

    - [ServerState]: the structures of ssh_server.h, the configuration and the
      session options, and the calls of ssh_server.c ([scall], [sreply]);
      [Server]: every function of ssh_server.c.  [ssh_server_t] is the record
      [ssh_server], the channels and the user name of a running session the record
      [server_state], on which the operations are programs [SvM].  The SFTP and the
      terminal channel share the fields of [channel_flow]; the lines that are the
      same for both are one definition with a [channel_ref].
    - [ServerSafe]: the contract of the calls of the server ([sreply_good]) and
      their monitor ([conn_watch], [conn_step], [conn_permits]): what was set up,
      who was authenticated, the windows, the bytes in flight, what is open.
      [ServerFlow], [ServerSftp], [ServerTerminal], [ServerRun]: the proof for each
      function, in the order of the calls; [ServerTrace]: what the monitor counts,
      in terms of the recorded calls alone; [ServerSession]: the theorems about
      whole sessions.
    - [ServerLink]: the program put together: [link] answers the calls of the
      server with the transport and SFTP server models, over open callbacks for
      the network, the crypto backend, the file system and the terminal;
      [agrees] is the invariant between the server's monitor and the two
      sessions, [env_linked] (Interaction) the promise of the components to the
      server.

    - [ConfigFile]: sshd_config_file.c.  [ssh_sshd_config_file_t] is the record
      [ssh_sshd_config_file]; a line is a program on [parse_state], the loop over
      the file an [IO] program with the file system calls of [SftpServer].
      [ConfigMatch]: the expression of a [Match] line, taken apart in an array that
      is written on the way; [ConfigValues]: numbers and lists; [ConfigLine]: the
      invariant [config_ok]; [ConfigLoad]: the loop, against a file system that
      serves a file in pieces and against every file system; [ConfigRound]: writing
      a configuration; [ConfigApply]: the server that results.

    - [PasswdAuth]: posix_passwd_auth.c, with crypt as a parameter.  [PasswdLookup]: the
      entry of a user in the lines of a file; [PasswdLogin]: the callback on a file
      system that serves both files, and the login that results.

    - [OpensshKey]: openssh_key.c.  An output array is the memory of [OutM], a local
      array [local_array]; the large integers of mbedTLS are the record [mpi_api] of
      the functions that are called.  [OpensshText]: base64; [OpensshPem]: the markers
      and the lines of a PEM file; [OpensshDer]: the encoding, and a strict reader of
      DER as its specification; [OpensshRead]: the image of a key; [OpensshConvert]:
      what mbedTLS promises (class [MpiLaws], with an instance) and the conversion.
    - [MbedCrypto]: ssh_crypto_mbedtls.c. The functions of psa/crypto.h are the record
      [psa_api] on the state of the library; the context is the record
      [ssh_mbedtls_crypto], on which the functions that use the host key are programs.
      [MbedPsa]: what is relied on of the library (class [PsaKeys], with an instance
      that has toy algorithms): how the calls change the keys that are alive, those that
      could not be destroyed ([stuck]) told apart, and how much a call stores;
      [MbedVerify]: the blobs of keys and signatures and the verification; [MbedLogin]:
      the backend in the decision of [Userauth]; [MbedKdf]: the keys of a session;
      [MbedBlobs]: what is written; [MbedKeys], [MbedLife]: the life of keys, for each
      operation and for a session of them.

    A definition keeps the name of the C function, type or macro it models; the
    loop or the group of statements that a helper stands for is named in its
    comment.

    ** Conventions

    - A function that returns [ssh_status_t] is a [Prog S A] (or an [outcome A]
      when it changes nothing else): [Ret a] is SSH_OK with the result, [Err e] an
      early return, after which the writes already done stay visible in the
      state, and [Fault] an access outside an object.  A function that makes
      callbacks is an [IO] program of the same shape.  Theorems that a decoder or
      an operation is safe say that its outcome is never [Fault].
    - Integers are [Z]; casts and unsigned wrap-around are written out with [u8],
      [u32], [u64]; [size_t] has 64 bits.  Memory is a list of bytes with an
      explicit offset and size for each access ([mem_read], [mem_write]).
    - Pointers the callers may leave null are options.  The pointers to local
      result variables that every caller in the program passes are results of
      the function, and the test that such a pointer is null is not represented.
    - A C string is the list of its bytes before the terminator.
    - A view ([ssh_string_view_t]) carries the bytes it points to.  The buffers
      it points into are not written while it is used in the code modelled here.

    ** What the theorems show

    - [Buffer]: every sequence of buffer operations, with any arguments and going on
      after errors, keeps the invariant, stays inside the storage and, from one reset to
      the next, never changes what was written; values written are read back; what the
      readers accept is the image of what they return; mpints are canonical; the two
      name-list predicates agree with the list of comma-separated names.
    - [Packet]: padding is the least that fits; plain packets round trip and
      exactly the well-formed ones are accepted; a stream of protected packets
      sent under one protection is received in order under its copy; an accepted
      packet carries the MAC of its content and sequence number; a refused one
      leaves the protection as it was, and the packet too unless the cipher fails or
      does not undo itself, with what is left in these cases.
    - [Service], [Kex], [Userauth], [Connection], [Sftp]: each decoder accepts
      exactly the well-formed messages of its kind, on every byte string, without
      a fault, and each encoder's output is what the decoder reads.
    - [Kex]: negotiation picks, for each list, the first of the server's names
      that the client also offers.
    - [UserPolicy] and [Userauth]: the pattern matcher agrees with a glob relation
      on user names without an asterisk; the account policy and the decision about
      an authentication request are characterised for every request, and success
      implies that the configured callback accepted the password, or the key and
      a signature by a listed algorithm over the session id and the request.
    - [Sftp]: attributes round trip, the extension loop ends, encoders write one
      frame or stay within the capacity, and which decoders leave a refused
      request's id to the caller.
    - [Ident]: exactly the lines with the form of RFC 4253 are accepted, with their
      parts, and the server's own line is one of them.
    - [TransportSession]: whatever the peer sends, whatever the callbacks reply
      within their contract and in whatever order the operations are called, no
      operation leaves its arrays, each keeps the session well formed, the key
      exchange callbacks are used in turn, and the session identifier and an
      active protection are never given up.
    - [TransportWire]: on a network that cuts the stream into any pieces, what one
      session sends the other receives, payloads and channel data alike, and every
      operation returns; what the receive loop skips, refuses and reports.
    - [TransportKex]: the exchange hash, the reply, the session identifier and the
      keys of both directions are those of RFC 4253, for any crypto backend
      described by functions.
    - [SftpPath]: normalisation agrees with a specification on path segments and
      never leaves the root; [SftpSession]: every file system call of a session is
      allowed by the policy and the open modes, handles are looked up exactly, and
      what was opened is closed at the end.
    - [FatfsSession], [LittlefsSession]: in a session on such a volume every path stays
      below the prefix of the adapter (or the root of the volume), no block is used
      outside its life, the library works only on objects that are open, and at the
      end everything is closed and freed.  The examples show a write in append mode
      that overwrites, a read that makes a file longer, a policy that RMDIR evades
      and a failed close that is reported as success.

    - [ServerSession]: whatever the peer sends and the surroundings reply, a session
      makes only calls that are in order, serves nobody who was not authenticated and
      for no other user, counts the tries, keeps to the windows of both sides, hands on
      what the peer sends in order, once and as soon as it can ([server_streams_exact],
      which tells what is left at every call), and releases what it acquired; that a
      session ends is not claimed; a pass over an SFTP channel leaves no request
      unanswered; the window, the configuration and the options are characterised
      exactly. The last part shows four cases in which the code does not do what it
      means to.

    - [ServerLink]: the same for the whole program, from the bytes of the network
      to the calls of the file system: no undefined behaviour, callbacks in turn,
      no file touched before a login under the session identifier of the same
      transport session, every file closed at the end.  The example runs a client
      from its version line to the reading of a file.

    - [ConfigValues]: what a list and a number mean, for every text. [ConfigMatch]: what
      a [Match] expression of one criterion means; of several the program looks at the
      first only, against its documentation. [ConfigLoad]: loading returns, computes
      what the lines say wherever the pieces of the file end, opens and closes the file
      once, and yields numbers in range and strings that fit. [ConfigRound]: a
      configuration that can be written ([writable]) is read back. [ConfigApply]: a
      server started with the result admits only logins that the file admits.

    - [PasswdLogin]: a login with a password succeeds exactly when crypt maps it to the
      hash in the first entry of the user, and every lookup ends.

    - [OpensshText]: base64 text is the number its characters spell in base 64, for
      every text.  [OpensshDer]: what is written is what a strict reader of DER reads
      as the integers of the key, and an array that is too small is reported.
      [OpensshRead]: exactly the images of unencrypted RSA keys are accepted.
      [OpensshConvert]: whatever the text, no array is left, and success means that
      the encoding of the key in the text is returned; every such key is converted,
      to PEM when its encoding has at most 4096 bytes; the PEM file that is written is
      read back.
    - [MbedVerify], [MbedLogin]: a signature is accepted exactly when the two blobs are
      well formed ([user_key]) and mbedTLS verified it with that key over all of the data,
      and a login with a key succeeds exactly on top of that.  [MbedKdf]: the keys are
      those of RFC 4253.  [MbedBlobs]: an ECDSA signature survives its encoding.
      [MbedLife]: in every sequence of operations no array is left, and no key of the
      library outlives an operation but the host key, keys that the library failed to
      destroy, and host keys of a context that was initialised again without a free.

    ** Bounds and fuel

    [pad_loop] takes one iteration ([pad_loop_total]).  The pattern matcher's
    bound is [pattern_fuel], enough by the measure [loop_measure]; the token loops
    of [UserPolicy] are bounded by the length of the string; [skip_extensions] by
    the unread bytes over eight ([decodes_skip]).  The network loops move at least
    one byte a turn, so the bytes left bound them ([read_exact_yields],
    [write_all_yields]); the channel data loop sends at least one byte a turn; the
    other loops of the transport are bounded in the source (8, 16 and 20 turns).
    In ssh_server.c the loops over a response, a pending response, the receive
    buffer and the channel requests consume a byte or a turn of a bounded count.
    The authentication loop, the message loop and the channel requests of an
    automatic session go on as long as the peer does; they take a number of
    [rounds] and give [None] when they are still running after so many, for every
    number, so that a theorem about all [rounds] is about every prefix of a
    session.
    In sshd_config_file.c the scanning loops take a character a turn, so the length
    of the text bounds them; the loop over the file takes [rounds] as well, and more
    rounds than the file has bytes are enough ([config_load_exact]); so it is in
    posix_passwd_auth.c ([hash_loop_exact]).
    In openssh_key.c [count_bytes] takes the eight bytes of a [size_t] and
    [padding_loop] a byte a turn; the other loops are structural.  In
    ssh_crypto_mbedtls.c [derive_loop] writes a byte a turn at least, so the length of
    the key is enough ([derive_loop_run]).
    Running out of fuel is a [Fault], which the safety theorems exclude: no
    theorem assumes that a loop ended.

    ** Not modelled

    The crypto backends for OpenSSL, wolfSSL and older mbedTLS bind the primitives of
    those libraries through objects of theirs; of the backend for mbedTLS the tables of
    function pointers and their accessors are left out, and its copies of the functions
    for base64 and DER are those of [OpensshKey].  The other adapters under
    src/platform (stdio_fs.c, the network, terminal and runtime files) bind sockets, files,
    terminals and threads of an operating system.  The core sees all of them only through
    callbacks, which are parameters here; a model of them would be a model of those systems.
    FatFs, littlefs and the allocator are parameters of the adapters in the same way; the
    contents of the name buffers of a directory handle are not kept between calls.
    The applications, the tests and the vendored libraries are outside.
    Timeouts are not represented: a read that was repeated after a timeout in the
    middle of a transfer is one call ([NetReadOn]).  The trace log, and the wiping
    of buffers that are not read again, have no effect on the modelled state. *)

From stdpp Require Export base list strings numbers.
From Stdlib Require Export ZArith Lia.

#[global] Open Scope Z_scope.

(** ** Status codes

    [ssh_status_t] of include/emssh/ssh_error.h, constructor by constructor. *)
Inductive ssh_status : Type :=
| SSH_OK
| SSH_ERR_INVALID_ARGUMENT
| SSH_ERR_BUFFER_TOO_SMALL
| SSH_ERR_BUFFER_OVERFLOW
| SSH_ERR_BUFFER_UNDERFLOW
| SSH_ERR_MALFORMED_PACKET
| SSH_ERR_UNSUPPORTED
| SSH_ERR_PLATFORM
| SSH_ERR_SECURITY
| SSH_ERR_CLOSED
| SSH_ERR_NOT_FOUND
| SSH_ERR_ALREADY_EXISTS
| SSH_ERR_DIR_NOT_EMPTY
| SSH_ERR_READ_ONLY.

#[export] Instance ssh_status_eq_dec : EqDecision ssh_status.
Proof. solve_decision. Defined.

(** The integer behind each status, as the header assigns them. *)
Definition ssh_status_code (s : ssh_status) : Z :=
  match s with
  | SSH_OK => 0
  | SSH_ERR_INVALID_ARGUMENT => -1
  | SSH_ERR_BUFFER_TOO_SMALL => -2
  | SSH_ERR_BUFFER_OVERFLOW => -3
  | SSH_ERR_BUFFER_UNDERFLOW => -4
  | SSH_ERR_MALFORMED_PACKET => -5
  | SSH_ERR_UNSUPPORTED => -6
  | SSH_ERR_PLATFORM => -7
  | SSH_ERR_SECURITY => -8
  | SSH_ERR_CLOSED => -9
  | SSH_ERR_NOT_FOUND => -10
  | SSH_ERR_ALREADY_EXISTS => -11
  | SSH_ERR_DIR_NOT_EMPTY => -12
  | SSH_ERR_READ_ONLY => -13
  end.

(** ** Programs

    A C function that returns [ssh_status_t] and mutates an object of type [S]
    is a [Prog S A]: it maps the state before to an outcome and the state
    after.  [Ret a] is [SSH_OK] with the value [a] in the result parameter,
    [Err e] an early [return e] (the writes done before it stay done), and
    [Fault] an access outside an object, which C leaves undefined. *)
Inductive outcome (A : Type) : Type :=
| Ret (a : A)
| Err (e : ssh_status)
| Fault.
Arguments Ret {A} a.
Arguments Err {A} e.
Arguments Fault {A}.

Definition Prog (S A : Type) : Type := S -> outcome A * S.

#[export] Instance prog_ret {S} : MRet (Prog S) := fun A a s => (Ret a, s).
#[export] Instance prog_bind {S} : MBind (Prog S) := fun A B f p s =>
  match p s with
  | (Ret a, s') => f a s'
  | (Err e, s') => (Err e, s')
  | (Fault, s') => (Fault, s')
  end.

#[export] Instance prog_fmap {S} : FMap (Prog S) := fun A B f p s =>
  match p s with
  | (Ret a, s') => (Ret (f a), s')
  | (Err e, s') => (Err e, s')
  | (Fault, s') => (Fault, s')
  end.

(** The same for functions that change nothing but their result. *)
#[export] Instance outcome_ret : MRet outcome := fun A a => Ret a.
#[export] Instance outcome_bind : MBind outcome := fun A B f o =>
  match o with Ret a => f a | Err e => Err e | Fault => Fault end.

(** [return e;] *)
Definition fail {S A} (e : ssh_status) : Prog S A := fun s => (Err e, s).
(** An access outside an object. *)
Definition fault {S A} : Prog S A := fun s => (Fault, s).
(** [if (c) return e;] *)
Definition reject {S} (c : bool) (e : ssh_status) : Prog S unit :=
  if c then fail e else mret tt.
Definition get_state {S} : Prog S S := fun s => (Ret s, s).
Definition put_state {S} (s : S) : Prog S unit := fun _ => (Ret tt, s).

Definition ret_value {A} (o : outcome A) : option A :=
  match o with Ret a => Some a | _ => None end.

(** ** Machine integers

    Every C integer is a [Z]; the casts and the unsigned wrap-around of the
    source are written out with these functions.  [size_t] is 64 bits wide. *)
Definition UINT32_MAX : Z := 2 ^ 32 - 1.
Definition UINT64_MAX : Z := 2 ^ 64 - 1.
Definition u8 (x : Z) : Z := x mod 2 ^ 8.
Definition u32 (x : Z) : Z := x mod 2 ^ 32.
Definition u64 (x : Z) : Z := x mod 2 ^ 64.

Definition is_byte (x : Z) : Prop := 0 <= x < 256.
Definition is_u32 (x : Z) : Prop := 0 <= x < 2 ^ 32.
Definition is_u64 (x : Z) : Prop := 0 <= x < 2 ^ 64.

#[export] Instance is_byte_dec x : Decision (is_byte x).
Proof. unfold is_byte. apply _. Defined.

(** C's [a && b], [c ? 1 : 0] on [int] flags. *)
Definition int_of_bool (b : bool) : Z := if b then 1 else 0.
Definition truth (x : Z) : bool := negb (x =? 0).

(** ** Byte regions

    An object of bytes is a list; offsets and sizes are [Z] as in the source. *)
Definition zlen {A} (l : list A) : Z := Z.of_nat (length l).
Definition ztake {A} (n : Z) (l : list A) : list A := take (Z.to_nat n) l.
Definition zdrop {A} (n : Z) (l : list A) : list A := drop (Z.to_nat n) l.

(** [n] bytes of an object from offset [off]; [None] if they are not all
    inside it. *)
Definition mem_read (l : list Z) (off n : Z) : option (list Z) :=
  if (off <? 0) || (n <? 0) then None else
  let r := ztake n (zdrop off l) in
  if zlen r =? n then Some r else None.

(** The object after [bs] is stored at offset [off]; [None] if they do not fit. *)
Definition mem_write (l : list Z) (off : Z) (bs : list Z) : option (list Z) :=
  if off <? 0 then None else
  let n := zlen bs in
  if zlen (ztake n (zdrop off l)) =? n
  then Some (ztake off l ++ bs ++ zdrop (off + n) l)
  else None.

(** String literals and other NUL-terminated strings: the bytes before the
    terminator. *)
Definition cstr (s : string) : list Z :=
  map (fun c => Z.of_N (Ascii.N_of_ascii c)) (String.list_ascii_of_string s).

(** [memcmp(a, b, n) == 0] on two ranges of the same size. *)
Definition bytes_eqb (a b : list Z) : bool := bool_decide (a = b).

(** ** Scanning strings *)

(** A loop that advances a pointer to the first byte that satisfies [stop], or to
    the terminator: the bytes passed over and the pointer after the loop. *)
Fixpoint scan_until (stop : Z -> bool) (p : list Z) : list Z * list Z :=
  match p with
  | [] => ([], [])
  | b :: p' => if stop b then ([], p) else let '(tok, rest) := scan_until stop p' in (b :: tok, rest)
  end.

Fixpoint split_on (stop : Z -> bool) (l : list Z) : list (list Z) :=
  match l with
  | [] => [[]]
  | b :: l' =>
    if stop b then [] :: split_on stop l'
    else match split_on stop l' with t :: ts => (b :: t) :: ts | [] => [[b]] end
  end.

(** ** Big-endian integers

    The mathematical reading of the wire format, against which the shifts and
    masks of the source are proved. *)
Fixpoint be_bytes (n : nat) (v : Z) : list Z :=
  match n with
  | O => []
  | S m => (v / 256 ^ Z.of_nat m) mod 256 :: be_bytes m v
  end.

Definition be_value (l : list Z) : Z := fold_left (fun acc b => acc * 256 + b) l 0.

(** ** Automation

    [emssh] holds the side conditions every component meets: byte ranges and
    list lengths.  [list_lia] normalises lengths and calls [lia]. *)
Create HintDb emssh discriminated.
#[export] Hint Constants Opaque : emssh.
#[export] Hint Resolve Forall_nil_2 Forall_cons_2 Forall_app_2 : emssh.
Create Rewrite HintDb emssh_len.

Ltac list_lia :=
  unfold zlen in *;
  repeat (rewrite ?length_app, ?length_cons, ?length_nil, ?length_take, ?length_drop,
                  ?length_replicate, ?Nat2Z.inj_add in *);
  lia.

(** Case analysis on the boolean tests of the source. *)
Ltac case_bool :=
  match goal with
  | |- context [if ?b then _ else _] => destruct b eqn:?
  | H : context [if ?b then _ else _] |- _ => destruct b eqn:?
  end.

Ltac bool_lia :=
  repeat match goal with
  | H : _ && _ = true |- _ => apply andb_true_iff in H as [??]
  | H : _ || _ = false |- _ => apply orb_false_iff in H as [??]
  | H : negb _ = true |- _ => apply negb_true_iff in H
  | H : negb _ = false |- _ => apply negb_false_iff in H
  end; lia.

(** ** Lemmas: lists *)
Section lists.
Context {A : Type}.
Implicit Types l k : list A.

Lemma zlen_nonneg l : 0 <= zlen l.
Proof. unfold zlen. lia. Qed.

Lemma zlen_nil : zlen (@nil A) = 0.
Proof. reflexivity. Qed.

Lemma zlen_cons x l : zlen (x :: l) = 1 + zlen l.
Proof. list_lia. Qed.

Lemma zlen_app l k : zlen (l ++ k) = zlen l + zlen k.
Proof. list_lia. Qed.

Lemma zlen_zero_inv l : zlen l = 0 -> l = [].
Proof. destruct l; [done|]. list_lia. Qed.

Lemma ztake_app l k : ztake (zlen l) (l ++ k) = l.
Proof. unfold ztake, zlen. rewrite Nat2Z.id. apply take_app_length. Qed.

Lemma ztake_all l n : zlen l <= n -> ztake n l = l.
Proof. unfold ztake, zlen. intros. apply take_ge. lia. Qed.

Lemma zdrop_app l k : zdrop (zlen l) (l ++ k) = k.
Proof. unfold zdrop, zlen. rewrite Nat2Z.id. apply drop_app_length. Qed.

Lemma zdrop_app_add l k n : 0 <= n -> zdrop (zlen l + n) (l ++ k) = zdrop n k.
Proof.
  intros. unfold zdrop, zlen.
  replace (Z.to_nat (Z.of_nat (length l) + n)) with (length l + Z.to_nat n)%nat by lia.
  apply drop_app_add.
Qed.

Lemma zlen_ztake l n : 0 <= n -> zlen (ztake n l) = Z.min n (zlen l).
Proof. intros. unfold ztake, zlen. rewrite length_take. lia. Qed.

Lemma zlen_zdrop l n : 0 <= n -> zlen (zdrop n l) = Z.max 0 (zlen l - n).
Proof. intros. unfold zdrop, zlen. rewrite length_drop. lia. Qed.

Lemma ztake_zdrop n l : ztake n l ++ zdrop n l = l.
Proof. apply take_drop. Qed.

Lemma zdrop_zdrop l n m : 0 <= n -> 0 <= m -> zdrop n (zdrop m l) = zdrop (m + n) l.
Proof. intros. unfold zdrop. rewrite drop_drop. f_equal. lia. Qed.

Lemma zdrop_0 l : zdrop 0 l = l.
Proof. reflexivity. Qed.

(** Any list long enough splits at a given offset. *)
Lemma zsplit l n : 0 <= n <= zlen l -> exists a b, l = a ++ b /\ zlen a = n.
Proof.
  intros. exists (ztake n l), (zdrop n l). split.
  - by rewrite ztake_zdrop.
  - rewrite zlen_ztake; lia.
Qed.
End lists.

#[export] Hint Rewrite @zlen_app @zlen_cons @zlen_nil : emssh_len.
#[export] Hint Resolve zlen_nonneg : emssh.

Ltac len_lia := autorewrite with emssh_len in *; lia.

(** ** Lemmas: scanning *)
Lemma split_on_cons stop l : exists t ts, split_on stop l = t :: ts.
Proof.
  induction l as [|b l (t & ts & E)]; cbn [split_on]; [eauto|]. rewrite E. case_bool; eauto.
Qed.

Lemma scan_until_split stop p :
  let '(tok, rest) := scan_until stop p in
  split_on stop p = tok :: match rest with [] => [] | _ :: r => split_on stop r end /\
  p = tok ++ rest /\ (rest = [] \/ exists b r, rest = b :: r /\ stop b = true).
Proof.
  induction p as [|b p IH]; cbn [scan_until split_on]; [by auto|].
  destruct (stop b) eqn:E; [split_and!; eauto|].
  destruct (scan_until stop p) as [tok rest]. destruct IH as (-> & -> & Hr). by auto.
Qed.

(** ** Lemmas: regions *)
Lemma mem_read_app (w bs r : list Z) : mem_read (w ++ bs ++ r) (zlen w) (zlen bs) = Some bs.
Proof.
  pose proof (zlen_nonneg w). pose proof (zlen_nonneg bs). unfold mem_read.
  replace ((zlen w <? 0) || (zlen bs <? 0)) with false by lia.
  rewrite zdrop_app, ztake_app. by rewrite Z.eqb_refl.
Qed.

Lemma mem_write_app (w x bs r : list Z) :
  zlen x = zlen bs -> mem_write (w ++ x ++ r) (zlen w) bs = Some (w ++ bs ++ r).
Proof.
  intros Hx. pose proof (zlen_nonneg w). pose proof (zlen_nonneg bs). unfold mem_write.
  replace (zlen w <? 0) with false by lia.
  rewrite zdrop_app, <- Hx, ztake_app, Z.eqb_refl, ztake_app.
  rewrite zdrop_app_add by lia. by rewrite zdrop_app.
Qed.

(** ** Lemmas: big-endian integers *)
Lemma length_be_bytes n v : length (be_bytes n v) = n.
Proof. induction n; simpl; congruence. Qed.

Lemma zlen_be_bytes n v : zlen (be_bytes n v) = Z.of_nat n.
Proof. unfold zlen. by rewrite length_be_bytes. Qed.
#[export] Hint Rewrite zlen_be_bytes : emssh_len.

Lemma be_bytes_byte n v : Forall is_byte (be_bytes n v).
Proof.
  induction n; constructor; [|done]. apply Z.mod_pos_bound. lia.
Qed.
#[export] Hint Resolve be_bytes_byte : emssh.

Lemma be_value_snoc_acc l acc :
  fold_left (fun acc b => acc * 256 + b) l acc = acc * 256 ^ zlen l + be_value l.
Proof.
  unfold be_value. revert acc. induction l as [|b l IH]; intros acc.
  - rewrite zlen_nil. simpl. lia.
  - cbn [fold_left]. rewrite IH, (IH (0 * 256 + b)), zlen_cons.
    rewrite Z.pow_add_r by auto using zlen_nonneg with lia. lia.
Qed.

Lemma be_value_cons b l : be_value (b :: l) = b * 256 ^ zlen l + be_value l.
Proof. unfold be_value at 1. cbn [fold_left]. rewrite be_value_snoc_acc. lia. Qed.

Lemma be_value_app l k : be_value (l ++ k) = be_value l * 256 ^ zlen k + be_value k.
Proof. unfold be_value at 1. rewrite fold_left_app, be_value_snoc_acc. done. Qed.

Lemma be_value_bound l : Forall is_byte l -> 0 <= be_value l < 256 ^ zlen l.
Proof.
  induction 1 as [|b l Hb _ IH]; [by split; vm_compute|].
  rewrite be_value_cons, zlen_cons, Z.pow_add_r by auto using zlen_nonneg with lia.
  unfold is_byte in Hb. nia.
Qed.

Lemma be_value_bytes n v : 0 <= v < 256 ^ Z.of_nat n -> be_value (be_bytes n v) = v.
Proof.
  intros Hv. enough (be_value (be_bytes n v) = v mod 256 ^ Z.of_nat n) as ->
    by (by apply Z.mod_small).
  clear Hv. induction n as [|n IH]; [cbn; by rewrite Z.mod_1_r|].
  cbn [be_bytes]. rewrite be_value_cons, IH, zlen_be_bytes.
  rewrite Nat2Z.inj_succ, Z.pow_succ_r by lia.
  rewrite (Z.mul_comm 256), Z.rem_mul_r by (try apply Z.pow_nonzero; lia). lia.
Qed.

Lemma be_bytes_mod n v : be_bytes n (v mod 256 ^ Z.of_nat n) = be_bytes n v.
Proof.
  enough (forall m, (n <= m)%nat -> be_bytes n (v mod 256 ^ Z.of_nat m) = be_bytes n v) by auto.
  induction n as [|n IH]; intros m Hm; [done|]. cbn [be_bytes]. f_equal; [|apply IH; lia].
  replace (Z.of_nat m) with (Z.of_nat n + Z.of_nat (m - n)) by lia.
  rewrite Z.pow_add_r, Z.rem_mul_r by (try apply Z.pow_nonzero; try apply Z.pow_pos_nonneg; lia).
  rewrite (Z.mul_comm (256 ^ Z.of_nat n)), Z.div_add by (apply Z.pow_nonzero; lia).
  rewrite (Z.div_small (v mod _)) by (apply Z.mod_pos_bound, Z.pow_pos_nonneg; lia).
  rewrite Z.add_0_l. replace (m - n)%nat with (S (m - n - 1)) by lia.
  rewrite Nat2Z.inj_succ, Z.pow_succ_r by lia.
  rewrite Z.rem_mul_r by (try apply Z.pow_pos_nonneg; lia).
  rewrite (Z.mul_comm 256), Z.mod_add by lia. apply Z.mod_mod. lia.
Qed.

Lemma be_bytes_value l : Forall is_byte l -> be_bytes (length l) (be_value l) = l.
Proof.
  induction 1 as [|b l Hb Hl IH]; [done|]. cbn [length be_bytes]. fold (zlen l).
  pose proof (be_value_bound l Hl). unfold is_byte in Hb.
  rewrite be_value_cons. f_equal.
  - rewrite Z.div_add_l by lia. rewrite Z.div_small by done.
    rewrite Z.add_0_r. apply Z.mod_small. lia.
  - rewrite <- be_bytes_mod, Z.add_comm. fold (zlen l).
    rewrite Z.mod_add by lia. rewrite Z.mod_small by done. exact IH.
Qed.

Lemma lor_shiftl_add a b n : 0 <= n -> 0 <= b < 2 ^ n -> Z.lor (Z.shiftl a n) b = a * 2 ^ n + b.
Proof.
  intros Hn Hb. rewrite <- Z.add_nocarry_lor; [by rewrite Z.shiftl_mul_pow2|].
  apply Z.bits_inj'. intros i Hi. rewrite Z.bits_0, Z.land_spec.
  destruct (Z.lt_ge_cases i n).
  - by rewrite Z.shiftl_spec_low.
  - rewrite <- (Z.mod_small b (2 ^ n)) by done.
    by rewrite Z.mod_pow2_bits_high, andb_false_r by lia.
Qed.

Lemma land_255 x : Z.land x 255 = x mod 256.
Proof. change 255 with (Z.ones 8). by rewrite Z.land_ones. Qed.

(** ** Lemmas: programs

    One rewriting step of a sequential program, by the outcome of its head. *)
Section programs.
Context {S A B : Type}.
Implicit Types (p : Prog S A) (f : A -> Prog S B).

Lemma bind_ret p f s a s' : p s = (Ret a, s') -> (x ← p; f x) s = f a s'.
Proof. intros E. unfold mbind, prog_bind. by rewrite E. Qed.

Lemma bind_err p f s e s' : p s = (Err e, s') -> (x ← p; f x) s = (Err e, s').
Proof. intros E. unfold mbind, prog_bind. by rewrite E. Qed.

Lemma bind_fault p f s s' : p s = (Fault, s') -> (x ← p; f x) s = (Fault, s').
Proof. intros E. unfold mbind, prog_bind. by rewrite E. Qed.

(** A sequence returns only if each part did. *)
Lemma bind_ret_inv p f s b s2 :
  (x ← p; f x) s = (Ret b, s2) -> exists a s1, p s = (Ret a, s1) /\ f a s1 = (Ret b, s2).
Proof.
  unfold mbind, prog_bind. destruct (p s) as [[a|e|] s1]; intros; simplify_eq. eauto.
Qed.

Lemma bind_assoc {C} p f (g : B -> Prog S C) s :
  (y ← (x ← p; f x); g y) s = (x ← p; y ← f x; g y) s.
Proof. unfold mbind, prog_bind. by destruct (p s) as [[a|e|] s1]. Qed.

Lemma reject_false s c e : c = false -> reject (S:=S) c e s = (Ret tt, s).
Proof. by intros ->. Qed.

Lemma reject_true s c e : c = true -> reject (S:=S) c e s = (Err e, s).
Proof. by intros ->. Qed.

Lemma reject_ret_inv s c e s' : reject (S:=S) c e s = (Ret tt, s') -> c = false /\ s' = s.
Proof. destruct c; intros H; by inversion H. Qed.
End programs.

(** The result of a run, with its final state left as it is. *)
Lemma pair_fst {A B} (x : A * B) a : fst x = a -> x = (a, snd x).
Proof. by destruct x; intros <-. Qed.
