(* ===== verification/Interaction.v ===== *)
(** * Programs that make callbacks

    The file system, the policy and the network are code behind function
    pointers.  A program that calls them is a finite interaction tree: its nodes
    are the calls with their arguments, its branches the replies.  [run] executes
    a tree against an environment and records the calls; [wp] is the weakest
    precondition of a tree under a monitor, which says which calls are allowed
    given the calls before, and a contract on the replies; [run_monitored]
    carries what is proved with [wp] over to every environment that keeps the
    contract.  [IO] is the monad of such programs with a state and the outcomes
    of the prelude. *)

From S2P Require Import Prelude.

Section trees.
Context {C : Type} {R : C -> Type}.

Inductive tree (A : Type) : Type :=
| Done (a : A)
| Call (c : C) (k : R c -> tree A).

Fixpoint tree_bind {A B} (t : tree A) (f : A -> tree B) : tree B :=
  match t with
  | Done _ a => f a
  | Call _ c k => Call B c (fun r => tree_bind (k r) f)
  end.

(** ** Environments and runs *)
Definition env (W : Type) : Type := forall c : C, W -> R c * W.
Definition event : Type := {c : C & R c}.

Fixpoint run {W A} (e : env W) (t : tree A) (w : W) : A * W * list event :=
  match t with
  | Done _ a => (a, w, [])
  | Call _ c k =>
    let '(r, w1) := e c w in
    let '(a, w2, evs) := run e (k r) w1 in
    (a, w2, existT c r :: evs)
  end.

Lemma run_tree_bind {W A B} (e : env W) (t : tree A) (f : A -> tree B) w a w1 evs b w2 evs' :
  run e t w = (a, w1, evs) -> run e (f a) w1 = (b, w2, evs') -> run e (tree_bind t f) w = (b, w2, evs ++ evs').
Proof.
  revert w evs. induction t as [a'|c k IH]; intros w evs; cbn [run tree_bind].
  - by intros [= -> -> <-] ->.
  - destruct (e c w) as [r w']. destruct (run e (k r) w') as [[a' w''] evs1] eqn:E. intros [= -> -> <-] Hf.
    by rewrite (IH r w' evs1 E Hf).
Qed.
End trees.

Arguments tree C R A : clear implicits.
Arguments Done {C R A} a.
Arguments Call {C R A} c k.
Arguments env C R W : clear implicits.
Arguments event C R : clear implicits.

(** ** The monad *)
Definition IO (C : Type) (R : C -> Type) (S A : Type) : Type := S -> tree C R (outcome A * S).

Section io.
Context {C : Type} {R : C -> Type} {S : Type}.

#[export] Instance io_ret : MRet (IO C R S) := fun A a s => Done (Ret a, s).
#[export] Instance io_bind : MBind (IO C R S) := fun A B f p s =>
  tree_bind (p s) (fun '(o, s') =>
    match o with
    | Ret a => f a s'
    | Err e => Done (Err e, s')
    | Fault => Done (Fault, s')
    end).

Definition io_fail {A} (e : ssh_status) : IO C R S A := fun s => Done (Err e, s).
Definition perform (c : C) : IO C R S (R c) := fun s => Call c (fun r => Done (Ret r, s)).
Definition of_outcome {A} (o : outcome A) : IO C R S A := fun s => Done (o, s).

Definition io_get {A} (f : S -> A) : IO C R S A := fun s => Done (Ret (f s), s).
Definition io_modify (f : S -> S) : IO C R S unit := fun s => Done (Ret tt, f s).
(** [if (c) return e;] *)
Definition io_reject (c : bool) (e : ssh_status) : IO C R S unit :=
  if c then io_fail e else mret tt.

(** A chain of statements under [if (status == SSH_OK)]: the status it ends
    with, or its value. *)
Definition attempt {A} (p : IO C R S A) : IO C R S (ssh_status + A) := fun s =>
  tree_bind (p s) (fun '(o, s') =>
    match o with
    | Ret a => Done (Ret (inr a), s')
    | Err e => Done (Ret (inl e), s')
    | Fault => Done (Fault, s')
    end).

Lemma run_bind {W A B} (e : env C R W) (p : IO C R S A) (f : A -> IO C R S B) s w a s' w1 evs r w2 evs' :
  run e (p s) w = ((Ret a, s'), w1, evs) -> run e (f a s') w1 = (r, w2, evs') ->
  run e ((x ← p; f x) s) w = (r, w2, evs ++ evs').
Proof. intros Hp Hf. by apply (run_tree_bind e _ _ _ _ _ _ _ _ _ Hp). Qed.
End io.

(** ** Monitors *)
Section monitor.
Context {C : Type} {R : C -> Type} {M : Type}.
Variable step : M -> forall c, R c -> M.
Variable ok : M -> C -> Prop.
Variable good : forall c, R c -> Prop.

Fixpoint wp {A} (t : tree C R A) (Q : A -> M -> Prop) (x : M) : Prop :=
  match t with
  | Done a => Q a x
  | Call c k => ok x c /\ forall r, good c r -> wp (k r) Q (step x c r)
  end.

(** A trace the monitor accepts, and the state it leaves it in. *)
Fixpoint accepted (x : M) (evs : list (event C R)) : Prop :=
  match evs with
  | [] => True
  | existT c r :: evs' => ok x c /\ accepted (step x c r) evs'
  end.
Definition final (x : M) (evs : list (event C R)) : M :=
  fold_left (fun x ev => step x (projT1 ev) (projT2 ev)) evs x.

Definition env_good {W} (e : env C R W) : Prop := forall c w, good c (fst (e c w)).

(** An environment that keeps the contract as long as the calls are permitted and
    its world agrees with the monitor and the calls so far, and that keeps them in
    agreement. *)
Definition env_linked {W} (e : env C R W) (I : M -> list (event C R) -> W -> Prop) : Prop :=
  forall x past c w, I x past w -> ok x c ->
    let '(r, w') := e c w in good c r /\ I (step x c r) (past ++ [existT c r]) w'.

Lemma run_linked {W A} (e : env C R W) I (t : tree C R A) Q x past w :
  env_linked e I -> I x past w -> wp t Q x ->
  let '(a, w', evs) := run e t w in accepted x evs /\ Q a (final x evs) /\ I (final x evs) (past ++ evs) w'.
Proof.
  intros He. revert x past w. induction t as [a|c k IH]; intros x past w Hx Hw; cbn [run wp] in *.
  { by rewrite app_nil_r. }
  destruct Hw as [Hok Hk]. pose proof (He x past c w Hx Hok) as Hg. destruct (e c w) as [r w1]. destruct Hg as [Hg HI].
  specialize (IH r (step x c r) _ w1 HI (Hk r Hg)). destruct (run e (k r) w1) as [[a w2] evs].
  destruct IH as (Ha & HQ & Hf). split_and!; [done..|exact HQ|]. by rewrite <- app_assoc in Hf.
Qed.

Lemma run_monitored {W A} (e : env C R W) (t : tree C R A) Q x w :
  env_good e -> wp t Q x ->
  let '(a, _, evs) := run e t w in accepted x evs /\ Q a (final x evs).
Proof.
  intros He Hw. assert (env_linked e (fun _ _ _ => True)) as Hl.
  { intros y past c w1 _ _. pose proof (He c w1). by destruct (e c w1). }
  pose proof (run_linked e _ t Q x [] w Hl I Hw) as H. destruct (run e t w) as [[a w'] evs].
  by destruct H as (? & ? & _).
Qed.

Lemma wp_tree_bind {A B} (t : tree C R A) (f : A -> tree C R B) Q x :
  wp t (fun a x => wp (f a) Q x) x -> wp (tree_bind t f) Q x.
Proof.
  revert x. induction t as [a|c k IH]; intros x Hw; cbn [tree_bind wp] in *; [done|].
  destruct Hw as [Hok Hk]. split; [done|]. intros r Hr. by apply IH, Hk.
Qed.

Lemma wp_conseq {A} (t : tree C R A) (Q P : A -> M -> Prop) x :
  wp t Q x -> (forall a y, Q a y -> P a y) -> wp t P x.
Proof.
  revert x. induction t as [a|c k IH]; intros x Hw HP; cbn [wp] in *; [by apply HP|].
  destruct Hw as [Hok Hk]. split; [done|]. intros r Hr. apply IH; [by apply Hk|done].
Qed.

Context {S : Type}.
Implicit Types s : S.

Lemma wp_mbind {A B} (p : IO C R S A) (f : A -> IO C R S B) s Q x :
  wp (p s) (fun '(o, s') y =>
    match o with
    | Ret a => wp (f a s') Q y
    | Err e => Q (Err e, s') y
    | Fault => Q (Fault, s') y
    end) x -> wp ((a ← p; f a) s) Q x.
Proof.
  intros Hw. unfold mbind, io_bind. apply wp_tree_bind. eapply wp_conseq; [exact Hw|].
  by intros [[a|e|] s'] y.
Qed.

Lemma wp_attempt {A} (p : IO C R S A) s Q x :
  wp (p s) (fun '(o, s') y =>
    match o with
    | Ret a => Q (Ret (inr a), s') y
    | Err e => Q (Ret (inl e), s') y
    | Fault => Q (Fault, s') y
    end) x -> wp (attempt p s) Q x.
Proof.
  intros Hw. unfold attempt. apply wp_tree_bind. eapply wp_conseq; [exact Hw|].
  by intros [[a|e|] s'] y.
Qed.

Lemma wp_perform c s Q x :
  ok x c -> (forall r, good c r -> Q (Ret r, s) (step x c r)) -> wp (perform c s) Q x.
Proof. intros Hok Hk. by split. Qed.
End monitor.

(** ** Splitting an accepted trace *)
Section accepted.
Context {C : Type} {R : C -> Type} {M : Type} (step : M -> forall c, R c -> M) (ok : M -> C -> Prop).

Lemma accepted_app x (pre post : list (event C R)) :
  accepted step ok x (pre ++ post) <-> accepted step ok x pre /\ accepted step ok (final step x pre) post.
Proof.
  revert x. induction pre as [|[c r] pre IH]; intros x; cbn [accepted app]; [split; [done|by intros []]|].
  rewrite (IH (step x c r)). cbn. tauto.
Qed.

Lemma accepted_at x (pre post : list (event C R)) c r :
  accepted step ok x (pre ++ existT c r :: post) -> ok (final step x pre) c.
Proof. intros [_ [H _]]%accepted_app. exact H. Qed.

(** What holds at the start and is kept by every permitted call holds after every
    prefix. *)
Lemma accepted_tracks (J : list (event C R) -> M -> Prop) x evs :
  J [] x ->
  (forall pre y c r, J pre y -> ok y c -> J (pre ++ [existT c r]) (step y c r)) ->
  accepted step ok x evs -> J evs (final step x evs).
Proof.
  intros H0 Hstep. induction evs as [|[c r] evs IH] using rev_ind; [done|].
  intros [Hpre [Hok _]]%accepted_app. unfold final. rewrite fold_left_app. cbn.
  apply Hstep; [by apply IH|done].
Qed.

Lemma final_trace_app x (pre post : list (event C R)) :
  final step x (pre ++ post) = final step (final step x pre) post.
Proof. apply fold_left_app. Qed.
End accepted.

(** ** What holds of every end of a program

    Whatever the replies are, without a contract or a monitor. *)
Fixpoint all_ends {C R A} (P : A -> Prop) (t : tree C R A) : Prop :=
  match t with
  | Done a => P a
  | Call _ k => forall r, all_ends P (k r)
  end.

Lemma all_ends_run {C R W A} (e : env C R W) (P : A -> Prop) (t : tree C R A) w :
  all_ends P t -> let '(a, _, _) := run e t w in P a.
Proof.
  revert w. induction t as [a|c k IH]; intros w Ht; cbn [run all_ends] in *; [done|].
  destruct (e c w) as [r w1]. specialize (IH r w1 (Ht r)). by destruct (run e (k r) w1) as [[a w2] evs].
Qed.

(** No end of the program has the status [err]. *)
Definition never {C R S A} (err : ssh_status) (p : IO C R S A) : Prop :=
  forall s, all_ends (fun r : outcome A * S => fst r <> Err err) (p s).

Section never.
Context {C : Type} {R : C -> Type} {S : Type} (err : ssh_status).

Lemma never_bind {A B} (p : IO C R S A) (f : A -> IO C R S B) :
  never err p -> (forall a, never err (f a)) -> never err (x ← p; f x).
Proof.
  intros Hp Hf s. specialize (Hp s). unfold mbind, io_bind. revert Hp. induction (p s) as [[o s']|c k IH]; intros Hp.
  - destruct o as [a|e|]; [apply Hf| |done]. cbn in *. by intros [= ->].
  - intros r. apply IH, Hp.
Qed.

Lemma never_outcome {A} (o : outcome A) : o <> Err err -> never (R:=R) (S:=S) err (of_outcome o).
Proof. by intros Ho s. Qed.
Lemma never_ret {A} (a : A) : never (R:=R) (S:=S) err (mret a).
Proof. by apply (never_outcome (Ret a)). Qed.
Lemma never_fail {A} e : e <> err -> never (R:=R) (S:=S) (A:=A) err (io_fail e).
Proof. intros He s [= ->]. done. Qed.
Lemma never_reject c e : e <> err -> never (R:=R) (S:=S) err (io_reject c e).
Proof. intros He. destruct c; [by apply never_fail|apply never_ret]. Qed.
Lemma never_get {A} (f : S -> A) : never (R:=R) err (io_get f).
Proof. by intros s. Qed.
Lemma never_modify (f : S -> S) : never (R:=R) err (io_modify f).
Proof. by intros s. Qed.
Lemma never_perform (c : C) : never (R:=R) (S:=S) err (perform c).
Proof. by intros s r. Qed.
Lemma never_attempt {A} (p : IO C R S A) : never err p -> never err (attempt p).
Proof.
  intros Hp s. specialize (Hp s). unfold attempt. revert Hp. induction (p s) as [[o s']|c k IH]; intros Hp.
  - by destruct o.
  - intros r. apply IH, Hp.
Qed.
End never.

(** ** Definite runs

    [yields e p s w a s' w']: against the environment [e], in the world [w], the
    program returns [a] and leaves the state [s'] and the world [w'].  A statement
    that a program yields something is also a statement that it does return. *)
Definition yields {C R S W A} (e : env C R W) (p : IO C R S A) (s : S) (w : W) (a : A) (s' : S) (w' : W) : Prop :=
  exists evs, run e (p s) w = ((Ret a, s'), w', evs).

(** The program ends with the status [err]. *)
Definition fails {C R S W A} (e : env C R W) (p : IO C R S A) (s : S) (w : W) (err : ssh_status) (s' : S) (w' : W) : Prop :=
  exists evs, run e (p s) w = ((Err err, s'), w', evs).

Section yields.
Context {C : Type} {R : C -> Type} {S W : Type} (e : env C R W).

Lemma yields_ret {A} (a : A) (s : S) w : yields e (mret a) s w a s w.
Proof. by exists []. Qed.

Lemma yields_bind {A B} (p : IO C R S A) (f : A -> IO C R S B) s w a s1 w1 b s2 w2 :
  yields e p s w a s1 w1 -> yields e (f a) s1 w1 b s2 w2 -> yields e (x ← p; f x) s w b s2 w2.
Proof. intros [evs Hp] [evs' Hf]. exists (evs ++ evs'). by eapply run_bind. Qed.

Lemma fails_bind {A B} (p : IO C R S A) (f : A -> IO C R S B) s w a s1 w1 err s2 w2 :
  yields e p s w a s1 w1 -> fails e (f a) s1 w1 err s2 w2 -> fails e (x ← p; f x) s w err s2 w2.
Proof. intros [evs Hp] [evs' Hf]. exists (evs ++ evs'). by eapply run_bind. Qed.

Lemma yields_get {A} (f : S -> A) s w : yields e (io_get f) s w (f s) s w.
Proof. by exists []. Qed.
Lemma yields_modify (f : S -> S) s w : yields e (io_modify f) s w tt (f s) w.
Proof. by exists []. Qed.
Lemma yields_outcome {A} (o : outcome A) a (s : S) w : o = Ret a -> yields e (of_outcome o) s w a s w.
Proof. intros ->. by exists []. Qed.
Lemma yields_reject c err (s : S) w : c = false -> yields e (io_reject c err) s w tt s w.
Proof. intros ->. by exists []. Qed.
Lemma fails_reject {A} err (p : IO C R S A) s w : fails e (io_reject true err;; p) s w err s w.
Proof. by exists []. Qed.
Lemma yields_perform c r (s : S) w w' : e c w = (r, w') -> yields e (perform c) s w r s w'.
Proof. intros E. eexists. cbn. by rewrite E. Qed.
End yields.
