(* ===== verification/Buffer.v ===== *)
(** * Bounded buffers: src/core/ssh_buffer.c

    [ssh_buffer_t] with its writers ([ssh_buffer_put_*]) and readers
    ([ssh_buffer_get_*]), the string views they return and the two name-list
    predicates.  A buffer pointer is an [option ssh_buffer] ([None] is [NULL]);
    the storage it points to is a region of bytes, and a store or a load
    outside the region is a [Fault].  The second half of the file gives the
    contract the message codecs are proved against: [emits] for writers,
    [parses] and [decodes] for readers. *)

From S2P Require Import Prelude.

(** ** Data *)
Record ssh_buffer : Type := mk_ssh_buffer {
  buf_data : option (list Z);
  buf_capacity : Z;
  buf_len : Z;
  buf_pos : Z
}.

(** The bytes visible through [data] ([None]: a null pointer) and [len]. *)
Record ssh_string_view : Type := mk_view {
  view_data : option (list Z);
  view_len : Z
}.

#[export] Instance ssh_string_view_eq_dec : EqDecision ssh_string_view.
Proof. solve_decision. Defined.

(** A zeroed view, as [memset] leaves it. *)
Definition null_view : ssh_string_view := mk_view None 0.
Definition view_of (bs : list Z) : ssh_string_view := mk_view (Some bs) (zlen bs).
(** The bytes [data[0..len)]. *)
Definition view_bytes (v : ssh_string_view) : list Z :=
  match view_data v with Some l => ztake (view_len v) l | None => [] end.

Definition is_null {A} (p : option A) : bool := match p with None => true | Some _ => false end.

Abbreviation bufptr := (option ssh_buffer).
Abbreviation BufM := (Prog (option ssh_buffer)).

(** ** Construction and inspection *)
Definition ssh_buffer_init (buf : bufptr) (storage : option (list Z)) (capacity : Z) : bufptr :=
  match buf with
  | None => None
  | Some _ => Some (mk_ssh_buffer storage capacity 0 0)
  end.

Definition ssh_buffer_wrap (buf : bufptr) (storage : option (list Z)) (len : Z) : bufptr :=
  match buf with
  | None => None
  | Some _ => Some (mk_ssh_buffer storage len len 0)
  end.

Definition ssh_buffer_reset (buf : bufptr) : bufptr :=
  match buf with
  | None => None
  | Some b => Some (mk_ssh_buffer (buf_data b) (buf_capacity b) 0 0)
  end.

Definition ssh_buffer_len (buf : bufptr) : Z :=
  match buf with Some b => buf_len b | None => 0 end.

Definition ssh_buffer_capacity (buf : bufptr) : Z :=
  match buf with Some b => buf_capacity b | None => 0 end.

Definition ssh_buffer_remaining_read (buf : bufptr) : Z :=
  match buf with
  | None => 0
  | Some b => if buf_pos b >? buf_len b then 0 else buf_len b - buf_pos b
  end.

Definition ssh_buffer_remaining_write (buf : bufptr) : Z :=
  match buf with
  | None => 0
  | Some b => if buf_len b >? buf_capacity b then 0 else buf_capacity b - buf_len b
  end.

Definition ssh_buffer_data (buf : bufptr) : option (list Z) :=
  match buf with Some b => buf_data b | None => None end.

(** A declared but not yet initialised [ssh_buffer_t], for the locals the
    callers initialise. *)
Definition uninit_buffer : bufptr := Some (mk_ssh_buffer None 0 0 0).

(** ** Memory accesses of the writers and readers *)

(** [if (buf == NULL || buf->data == NULL) return SSH_ERR_INVALID_ARGUMENT;] *)
Definition require_live : BufM unit := fun s =>
  reject (is_null s || is_null (ssh_buffer_data s)) SSH_ERR_INVALID_ARGUMENT s.

(** [memcpy(buf->data + buf->len, bs, n); buf->len += n;] and, for one byte,
    [buf->data[buf->len++] = v;] *)
Definition store (bs : list Z) : BufM unit := fun s =>
  match s with
  | Some (mk_ssh_buffer (Some d) cap len pos) =>
    match mem_write d len bs with
    | Some d' => (Ret tt, Some (mk_ssh_buffer (Some d') cap (len + zlen bs) pos))
    | None => (Fault, s)
    end
  | _ => (Fault, s)
  end.

(** The [n] bytes at [buf->data + buf->pos], then [buf->pos += n;] *)
Definition load (n : Z) : BufM (list Z) := fun s =>
  match s with
  | Some (mk_ssh_buffer (Some d) cap len pos) =>
    match mem_read d pos n with
    | Some bs => (Ret bs, Some (mk_ssh_buffer (Some d) cap len (pos + n)))
    | None => (Fault, s)
    end
  | _ => (Fault, s)
  end.

(** [n] bytes behind a caller's pointer. *)
Definition deref (p : option (list Z)) (n : Z) : BufM (list Z) :=
  match p with
  | Some l => match mem_read l 0 n with Some bs => mret bs | None => fault end
  | None => fault
  end.

(** [if (ssh_buffer_remaining_write(buf) < n) return SSH_ERR_BUFFER_OVERFLOW;] *)
Definition require_room (n : Z) : BufM unit := fun s =>
  reject (ssh_buffer_remaining_write s <? n) SSH_ERR_BUFFER_OVERFLOW s.

(** [if (ssh_buffer_remaining_read(buf) < n) return SSH_ERR_BUFFER_UNDERFLOW;] *)
Definition require_unread (n : Z) : BufM unit := fun s =>
  reject (ssh_buffer_remaining_read s <? n) SSH_ERR_BUFFER_UNDERFLOW s.

(** ** Writers *)
Definition ssh_buffer_put_u8 (value : Z) : BufM unit :=
  require_live;; require_room 1;; store [value].

Definition ssh_buffer_put_bool (value : bool) : BufM unit :=
  ssh_buffer_put_u8 (if value then 1 else 0).

Definition ssh_buffer_put_u32 (value : Z) : BufM unit :=
  require_live;; require_room 4;;
  store [u8 (Z.land (Z.shiftr value 24) 255)];;
  store [u8 (Z.land (Z.shiftr value 16) 255)];;
  store [u8 (Z.land (Z.shiftr value 8) 255)];;
  store [u8 (Z.land value 255)].

Definition ssh_buffer_put_u64 (value : Z) : BufM unit :=
  require_live;; require_room 8;;
  store [u8 (Z.land (Z.shiftr value 56) 255)];;
  store [u8 (Z.land (Z.shiftr value 48) 255)];;
  store [u8 (Z.land (Z.shiftr value 40) 255)];;
  store [u8 (Z.land (Z.shiftr value 32) 255)];;
  store [u8 (Z.land (Z.shiftr value 24) 255)];;
  store [u8 (Z.land (Z.shiftr value 16) 255)];;
  store [u8 (Z.land (Z.shiftr value 8) 255)];;
  store [u8 (Z.land value 255)].

Definition ssh_buffer_put_bytes (data : option (list Z)) (len : Z) : BufM unit :=
  require_live;;
  reject (is_null data && negb (len =? 0)) SSH_ERR_INVALID_ARGUMENT;;
  require_room len;;
  if negb (len =? 0) then bs ← deref data len; store bs else mret tt.

Definition ssh_buffer_put_string (data : option (list Z)) (len : Z) : BufM unit :=
  reject (len >? UINT32_MAX) SSH_ERR_INVALID_ARGUMENT;;
  ssh_buffer_put_u32 (u32 len);;
  ssh_buffer_put_bytes data len.

Definition ssh_buffer_put_cstring (value : option (list Z)) : BufM unit :=
  match value with
  | None => fail SSH_ERR_INVALID_ARGUMENT
  | Some s => ssh_buffer_put_string (Some s) (zlen s)
  end.

(** [while (start < len && data[start] == 0u) ++start;] *)
Fixpoint count_leading_zeros (l : list Z) : Z :=
  match l with
  | b :: l' => if b =? 0 then 1 + count_leading_zeros l' else 0
  | [] => 0
  end.

Definition ssh_buffer_put_mpint_positive (data : option (list Z)) (len : Z) : BufM unit :=
  require_live;;
  reject ((is_null data && negb (len =? 0)) || (len >? UINT32_MAX)) SSH_ERR_INVALID_ARGUMENT;;
  bytes ← (if len =? 0 then mret [] else deref data len);
  let start := count_leading_zeros bytes in
  if start =? len then ssh_buffer_put_u32 0 else
  let encoded_len := len - start in
  let significant := zdrop start bytes in
  if negb (Z.land (hd 0 significant) 128 =? 0) then
    reject (encoded_len >=? UINT32_MAX) SSH_ERR_INVALID_ARGUMENT;;
    ssh_buffer_put_u32 (u32 (encoded_len + 1));;
    ssh_buffer_put_u8 0;;
    ssh_buffer_put_bytes (Some significant) encoded_len
  else
    ssh_buffer_put_string (Some significant) encoded_len.

(** ** Readers *)
Definition ssh_buffer_get_u8 : BufM Z :=
  require_live;; require_unread 1;;
  p ← load 1; mret (hd 0 p).

Definition ssh_buffer_get_bool : BufM bool :=
  raw ← ssh_buffer_get_u8;
  reject (negb (raw =? 0) && negb (raw =? 1)) SSH_ERR_MALFORMED_PACKET;;
  mret (negb (raw =? 0)).

Definition byte_at (p : list Z) (i : nat) : Z := nth i p 0.

Definition ssh_buffer_get_u32 : BufM Z :=
  require_live;; require_unread 4;;
  p ← load 4;
  mret (Z.lor (Z.lor (Z.lor (Z.shiftl (byte_at p 0) 24)
                            (Z.shiftl (byte_at p 1) 16))
                     (Z.shiftl (byte_at p 2) 8))
              (byte_at p 3)).

Definition ssh_buffer_get_u64 : BufM Z :=
  require_live;; require_unread 8;;
  p ← load 8;
  mret (Z.lor (Z.lor (Z.lor (Z.lor (Z.lor (Z.lor (Z.lor
          (Z.shiftl (byte_at p 0) 56)
          (Z.shiftl (byte_at p 1) 48))
          (Z.shiftl (byte_at p 2) 40))
          (Z.shiftl (byte_at p 3) 32))
          (Z.shiftl (byte_at p 4) 24))
          (Z.shiftl (byte_at p 5) 16))
          (Z.shiftl (byte_at p 6) 8))
          (byte_at p 7)).

Definition ssh_buffer_get_bytes (len : Z) : BufM (list Z) :=
  require_live;; require_unread len;;
  if negb (len =? 0) then load len else mret [].

Definition ssh_buffer_get_string_view : BufM ssh_string_view :=
  len ← ssh_buffer_get_u32;
  require_unread len;;
  bs ← load len;
  mret (mk_view (Some bs) len).

(** [ssh_buffer_remaining_read(payload)] inside a decoder. *)
Definition remaining_read : BufM Z := fun s => (Ret (ssh_buffer_remaining_read s), s).

(** ** Name lists *)
Definition COMMA : Z := 44.

Definition ssh_name_char_is_valid (c : Z) : bool :=
  (33 <=? c) && (c <=? 126) && negb (c =? COMMA).

(** The [for] loop of [ssh_name_list_is_valid] with its flag. *)
Fixpoint name_list_scan (l : list Z) (previous_was_comma : bool) : bool :=
  match l with
  | [] => true
  | b :: l' =>
    if b =? COMMA then
      if previous_was_comma then false else name_list_scan l' true
    else if negb (ssh_name_char_is_valid b) then false
    else name_list_scan l' false
  end.

Definition ssh_name_list_is_valid (v : ssh_string_view) : bool :=
  if view_len v =? 0 then true else
  if is_null (view_data v)
     || (hd 0 (view_bytes v) =? COMMA) || (List.last (view_bytes v) 0 =? COMMA)
  then false
  else name_list_scan (view_bytes v) false.

(** The [for] loop of [ssh_name_list_contains_token]: [item] is the slice from
    [start] to [i]; at a comma and at the end it is compared with the token. *)
Fixpoint contains_token_scan (item l token : list Z) : bool :=
  match l with
  | [] => bytes_eqb item token
  | b :: l' =>
    if b =? COMMA then
      if bytes_eqb item token then true else contains_token_scan [] l' token
    else contains_token_scan (item ++ [b]) l' token
  end.

Definition ssh_name_list_contains_token (v : ssh_string_view) (token : option (list Z)) : bool :=
  match token, view_data v with
  | Some t, Some _ =>
    if (zlen t =? 0) || (view_len v =? 0) then false
    else contains_token_scan [] (view_bytes v) t
  | _, _ => false
  end.

(** [view_eq]: the comparison with a string constant that ssh_service.c,
    ssh_userauth.c and ssh_connection.c each define as a static helper. *)
Definition view_eq (view : ssh_string_view) (value : option (list Z)) : bool :=
  match value, view_data view with
  | Some s, Some _ => (view_len view =? zlen s) && bytes_eqb (view_bytes view) s
  | _, _ => false
  end.

(** ** Well-formed buffers and the abstract byte queue

    The invariant: the storage exists and is at least [capacity] bytes long,
    and [pos <= len <= capacity].  Abstractly a buffer is a queue: [w] the bytes
    already read, [u] the bytes written but unread, [f] the rest of the storage;
    [Bf w u f cap] is the concrete buffer of that queue. *)
Definition buf_wf (b : ssh_buffer) : Prop :=
  exists d, buf_data b = Some d /\ Forall is_byte d /\
    0 <= buf_pos b <= buf_len b /\ buf_len b <= buf_capacity b <= zlen d.

Definition Bf (w u f : list Z) (cap : Z) : ssh_buffer :=
  mk_ssh_buffer (Some (w ++ u ++ f)) cap (zlen w + zlen u) (zlen w).

Definition room_ok (w u f : list Z) (cap : Z) : Prop :=
  zlen w + zlen u <= cap <= zlen w + zlen u + zlen f.

(** The contract of a writer: it appends exactly [bs] when they fit, and
    otherwise reports an overflow after appending a prefix of [bs]; either way
    the bytes before and the read position are untouched. *)
Record emits (p : BufM unit) (bs : list Z) : Prop := {
  emits_bytes : Forall is_byte bs;
  emits_fits w u f cap :
    room_ok w u f cap -> zlen w + zlen u + zlen bs <= cap ->
    p (Some (Bf w u f cap)) = (Ret tt, Some (Bf w (u ++ bs) (zdrop (zlen bs) f) cap));
  emits_overflow w u f cap :
    room_ok w u f cap -> cap < zlen w + zlen u + zlen bs ->
    exists k, k `prefix_of` bs /\ zlen w + zlen u + zlen k <= cap /\
      p (Some (Bf w u f cap)) =
        (Err SSH_ERR_BUFFER_OVERFLOW, Some (Bf w (u ++ k) (zdrop (zlen k) f) cap))
}.

(** A reader on its own input: it consumes [bs] (before [rest]) and returns [x]. *)
Definition parses {A} (g : BufM A) (bs rest : list Z) (x : A) : Prop :=
  forall w f cap, g (Some (Bf w (bs ++ rest) f cap)) = (Ret x, Some (Bf (w ++ bs) rest f cap)).

(** A reader on any input: it never faults, never moves past [len], leaves the
    storage alone, and when it returns [x] after consuming [u1] in front of
    [u2], [Q x u1 u2] holds. *)
Definition decodes {A} (g : BufM A) (Q : A -> list Z -> list Z -> Prop) : Prop :=
  forall w u f cap, Forall is_byte u ->
  exists o u1 u2, u = u1 ++ u2 /\
    g (Some (Bf w u f cap)) = (o, Some (Bf (w ++ u1) u2 f cap)) /\
    match o with Ret x => Q x u1 u2 | Err _ => True | Fault => False end.

(** What a pair of a writer and a reader promises to the message codecs: the
    values [ok] have the wire image [bytes], the writer emits it, the reader
    recovers the value from it, and whatever the reader accepts is the image
    of what it returns. *)
Class WireFormat {A} (put : A -> BufM unit) (get : BufM A)
    (ok : A -> Prop) (bytes : A -> list Z) : Prop := {
  wire_emits x : ok x -> emits (put x) (bytes x);
  wire_parses x rest : ok x -> parses get (bytes x) rest x;
  wire_decodes : decodes get (fun x u _ => ok x /\ u = bytes x)
}.

(** Running a writer into fresh storage, and a reader over a byte string. *)
Definition written (s : bufptr) : list Z :=
  match s with
  | Some b => match buf_data b with Some d => ztake (buf_len b) d | None => [] end
  | None => []
  end.

Definition encode_into (p : BufM unit) (storage : list Z) (capacity : Z) : outcome (list Z) :=
  match p (ssh_buffer_init uninit_buffer (Some storage) capacity) with
  | (Ret _, s) => Ret (written s)
  | (Err e, _) => Err e
  | (Fault, _) => Fault
  end.

Definition decode_from {A} (g : BufM A) (bs : list Z) : outcome A :=
  fst (g (ssh_buffer_wrap uninit_buffer (Some bs) (zlen bs))).

(** ** Lemmas on views and on the abstraction *)
Lemma view_bytes_of l : view_bytes (view_of l) = l.
Proof. unfold view_bytes, view_of. simpl. by apply ztake_all. Qed.

Lemma view_eq_spec l s : view_eq (view_of l) (Some s) = bool_decide (l = s).
Proof.
  unfold view_eq. rewrite view_bytes_of. simpl. unfold bytes_eqb.
  case_bool_decide; subst; [by rewrite Z.eqb_refl|by rewrite andb_false_r].
Qed.

Lemma view_eq_same l : view_eq (view_of l) (Some l) = true.
Proof. rewrite view_eq_spec. by apply bool_decide_true. Qed.

Lemma buf_wf_Bf b :
  buf_wf b <-> exists w u f cap,
    b = Bf w u f cap /\ room_ok w u f cap /\ Forall is_byte (w ++ u ++ f).
Proof.
  split.
  - destruct b as [d0 cap len pos]; intros (d & [= ->] & Hd & Hp & Hc); simpl in *.
    destruct (zsplit d pos) as (w & r & -> & Hw); [lia|].
    destruct (zsplit r (len - pos)) as (u & f & -> & Hu); [len_lia|].
    exists w, u, f, cap. unfold Bf, room_ok. rewrite Hw, Hu.
    split_and!; [f_equal; lia|len_lia|len_lia|done].
  - intros (w & u & f & cap & -> & [H1 H2] & H3). exists (w ++ u ++ f). simpl.
    pose proof (zlen_nonneg w). pose proof (zlen_nonneg u).
    split_and!; try done; len_lia.
Qed.

Lemma mk_Bf d cap len pos w u f :
  d = w ++ u ++ f -> len = zlen w + zlen u -> pos = zlen w ->
  mk_ssh_buffer (Some d) cap len pos = Bf w u f cap.
Proof. by intros -> -> ->. Qed.

Lemma remaining_read_Bf w u f cap : ssh_buffer_remaining_read (Some (Bf w u f cap)) = zlen u.
Proof. unfold Bf. simpl. pose proof (zlen_nonneg u). case_bool; lia. Qed.

Lemma remaining_write_Bf w u f cap :
  room_ok w u f cap ->
  ssh_buffer_remaining_write (Some (Bf w u f cap)) = cap - zlen w - zlen u.
Proof. unfold Bf, room_ok. simpl. intros. case_bool; lia. Qed.

Lemma room_ok_snoc w u f cap k :
  room_ok w u f cap -> zlen w + zlen u + zlen k <= cap ->
  room_ok w (u ++ k) (zdrop (zlen k) f) cap.
Proof.
  unfold room_ok. intros. rewrite zlen_zdrop by auto using zlen_nonneg. len_lia.
Qed.
#[export] Hint Resolve room_ok_snoc : emssh.

Lemma store_Bf w u f cap bs :
  room_ok w u f cap -> zlen w + zlen u + zlen bs <= cap ->
  store bs (Some (Bf w u f cap)) = (Ret tt, Some (Bf w (u ++ bs) (zdrop (zlen bs) f) cap)).
Proof.
  intros [??] ?. pose proof (zlen_nonneg bs).
  destruct (zsplit f (zlen bs)) as (x & r & -> & Hx); [lia|].
  unfold store, Bf at 1. rewrite <- zlen_app, (app_assoc w u), mem_write_app by done.
  replace (zdrop (zlen bs) (x ++ r)) with r by (by rewrite <- Hx, zdrop_app).
  rewrite (mk_Bf _ _ _ _ w (u ++ bs) r); [done|by rewrite <- !app_assoc|len_lia|done].
Qed.

Lemma load_Bf w bs rest f cap :
  load (zlen bs) (Some (Bf w (bs ++ rest) f cap)) = (Ret bs, Some (Bf (w ++ bs) rest f cap)).
Proof.
  unfold load, Bf at 1. rewrite <- (app_assoc bs), mem_read_app.
  rewrite (mk_Bf _ _ _ _ (w ++ bs) rest f); [done|by rewrite <- !app_assoc|len_lia|len_lia].
Qed.

Lemma require_live_Bf w u f cap :
  require_live (Some (Bf w u f cap)) = (Ret tt, Some (Bf w u f cap)).
Proof. done. Qed.

Lemma require_room_Bf w u f cap n :
  room_ok w u f cap -> zlen w + zlen u + n <= cap ->
  require_room n (Some (Bf w u f cap)) = (Ret tt, Some (Bf w u f cap)).
Proof.
  intros. unfold require_room. rewrite remaining_write_Bf by done.
  apply reject_false. lia.
Qed.

Lemma require_room_full w u f cap n :
  room_ok w u f cap -> cap < zlen w + zlen u + n ->
  require_room n (Some (Bf w u f cap)) =
    (Err SSH_ERR_BUFFER_OVERFLOW, Some (Bf w u f cap)).
Proof.
  intros. unfold require_room. rewrite remaining_write_Bf by done.
  apply reject_true. lia.
Qed.

(** A writer that checks for room and then stores. *)
Lemma emits_checked_store p bs :
  Forall is_byte bs ->
  (forall w u f cap, room_ok w u f cap -> zlen w + zlen u + zlen bs <= cap ->
    p (Some (Bf w u f cap)) = (Ret tt, Some (Bf w (u ++ bs) (zdrop (zlen bs) f) cap))) ->
  emits (require_live;; require_room (zlen bs);; p) bs.
Proof.
  intros Hb Hp. split; [done|..]; intros w u f cap Hr Hl.
  - rewrite (bind_ret _ _ _ _ _ (require_live_Bf _ _ _ _)).
    rewrite (bind_ret _ _ _ _ _ (require_room_Bf _ _ _ _ _ Hr Hl)). by apply Hp.
  - exists []. rewrite zlen_nil, app_nil_r.
    rewrite (bind_ret _ _ _ _ _ (require_live_Bf _ _ _ _)).
    rewrite (bind_err _ _ _ _ _ (require_room_full _ _ _ _ _ Hr Hl)).
    destruct Hr. split_and!; [apply prefix_nil|lia|done].
Qed.

(** ** Lemmas: writers *)
Lemma store_store w u f cap a b :
  room_ok w u f cap -> zlen w + zlen u + zlen (a ++ b) <= cap ->
  (store a;; store b) (Some (Bf w u f cap)) =
    (Ret tt, Some (Bf w (u ++ a ++ b) (zdrop (zlen (a ++ b)) f) cap)).
Proof.
  intros Hr Hl. rewrite zlen_app in Hl. pose proof (zlen_nonneg a). pose proof (zlen_nonneg b).
  rewrite (bind_ret _ _ _ _ _ (store_Bf _ _ _ _ a Hr ltac:(lia))).
  rewrite store_Bf; [|apply room_ok_snoc; [done|lia]|len_lia].
  by rewrite zdrop_zdrop, zlen_app, <- app_assoc by auto using zlen_nonneg.
Qed.

Definition store_all (bs : list (list Z)) : BufM unit :=
  foldr (fun a p => store a;; p) (mret tt) bs.

Lemma store_all_Bf bs w u f cap :
  room_ok w u f cap -> zlen w + zlen u + zlen (concat bs) <= cap ->
  store_all bs (Some (Bf w u f cap)) =
    (Ret tt, Some (Bf w (u ++ concat bs) (zdrop (zlen (concat bs)) f) cap)).
Proof.
  revert u f. induction bs as [|a bs IH]; intros u f Hr Hl; simpl in *.
  - by rewrite app_nil_r.
  - rewrite zlen_app in Hl. pose proof (zlen_nonneg a). pose proof (zlen_nonneg (concat bs)).
    rewrite (bind_ret _ _ _ _ _ (store_Bf _ _ _ _ a Hr ltac:(lia))).
    rewrite IH; [|apply room_ok_snoc; [done|lia]|len_lia].
    by rewrite zdrop_zdrop, zlen_app, <- app_assoc by auto using zlen_nonneg.
Qed.

Lemma store_last p a :
  (forall s, p s = store a s) -> forall s, p s = (store a;; mret tt) s.
Proof.
  intros Hp s. rewrite Hp. unfold mbind, prog_bind, store.
  destruct s as [[[d|] cap len pos]|]; try done. by destruct (mem_write d len a).
Qed.

Lemma emits_store_seq n p bs :
  Forall is_byte (concat bs) -> n = zlen (concat bs) -> (forall s, p s = store_all bs s) ->
  emits (require_live;; require_room n;; p) (concat bs).
Proof.
  intros Hb -> Hp. apply emits_checked_store; [done|]. intros. rewrite Hp. by apply store_all_Bf.
Qed.

Lemma shift_byte v n : 0 <= n -> u8 (Z.land (Z.shiftr v (8 * n)) 255) = (v / 256 ^ n) mod 256.
Proof.
  intros. unfold u8. change (2 ^ 8) with 256.
  rewrite land_255, Zmod_mod, Z.shiftr_div_pow2, Z.pow_mul_r by lia. done.
Qed.

Ltac unroll_stores :=
  intros s; unfold store_all; cbn [foldr]; unfold mbind, prog_bind;
  repeat match goal with
  | |- context [match store ?a ?s with _ => _ end] => destruct (store a s) as [[[]| |] ?]
  end; done.

Lemma emits_u8 v : is_byte v -> emits (ssh_buffer_put_u8 v) [v].
Proof.
  intros Hv. apply (emits_store_seq 1 _ [[v]]); [by apply Forall_singleton|done|unroll_stores].
Qed.

Lemma emits_bool b : emits (ssh_buffer_put_bool b) [int_of_bool b].
Proof. apply emits_u8. by destruct b. Qed.

Lemma emits_u32 v : emits (ssh_buffer_put_u32 v) (be_bytes 4 v).
Proof.
  pose proof (shift_byte v 3) as E3; change (8 * 3) with 24 in E3.
  pose proof (shift_byte v 2) as E2; change (8 * 2) with 16 in E2.
  pose proof (shift_byte v 1) as E1; change (8 * 1) with 8 in E1.
  pose proof (shift_byte v 0) as E0.
  change (Z.shiftr v (8 * 0)) with v in E0.
  change (be_bytes 4 v) with (concat [[(v / 256 ^ 3) mod 256]; [(v / 256 ^ 2) mod 256];
    [(v / 256 ^ 1) mod 256]; [(v / 256 ^ 0) mod 256]]).
  apply emits_store_seq; [apply (be_bytes_byte 4 v)|done|].
  rewrite <- E3, <- E2, <- E1, <- E0 by lia. unroll_stores.
Qed.

Lemma emits_u64 v : emits (ssh_buffer_put_u64 v) (be_bytes 8 v).
Proof.
  pose proof (shift_byte v 7) as E7; change (8 * 7) with 56 in E7.
  pose proof (shift_byte v 6) as E6; change (8 * 6) with 48 in E6.
  pose proof (shift_byte v 5) as E5; change (8 * 5) with 40 in E5.
  pose proof (shift_byte v 4) as E4; change (8 * 4) with 32 in E4.
  pose proof (shift_byte v 3) as E3; change (8 * 3) with 24 in E3.
  pose proof (shift_byte v 2) as E2; change (8 * 2) with 16 in E2.
  pose proof (shift_byte v 1) as E1; change (8 * 1) with 8 in E1.
  pose proof (shift_byte v 0) as E0.
  change (Z.shiftr v (8 * 0)) with v in E0.
  change (be_bytes 8 v) with (concat [[(v / 256 ^ 7) mod 256]; [(v / 256 ^ 6) mod 256];
    [(v / 256 ^ 5) mod 256]; [(v / 256 ^ 4) mod 256];
    [(v / 256 ^ 3) mod 256]; [(v / 256 ^ 2) mod 256];
    [(v / 256 ^ 1) mod 256]; [(v / 256 ^ 0) mod 256]]).
  apply emits_store_seq; [apply (be_bytes_byte 8 v)|done|].
  rewrite <- E7, <- E6, <- E5, <- E4, <- E3, <- E2, <- E1, <- E0 by lia. unroll_stores.
Qed.

Lemma emits_bind p q a b : emits p a -> emits q b -> emits (p;; q) (a ++ b).
Proof.
  intros Hp Hq. split.
  - apply Forall_app_2; [apply Hp|apply Hq].
  - intros w u f cap Hr Hl. rewrite zlen_app in Hl. pose proof (zlen_nonneg b).
    rewrite (bind_ret _ _ _ _ _ (emits_fits _ _ Hp _ _ _ _ Hr ltac:(lia))).
    rewrite (emits_fits _ _ Hq); [|apply room_ok_snoc; [done|lia]|len_lia].
    by rewrite zdrop_zdrop, zlen_app, <- app_assoc by auto using zlen_nonneg.
  - intros w u f cap Hr Hl. rewrite zlen_app in Hl.
    destruct (Z.le_gt_cases (zlen w + zlen u + zlen a) cap) as [Hfit|Hover].
    + destruct (emits_overflow _ _ Hq w (u ++ a) (zdrop (zlen a) f) cap) as (k & Hk & Hkl & Ek);
        [by apply room_ok_snoc|len_lia|].
      exists (a ++ k). rewrite (bind_ret _ _ _ _ _ (emits_fits _ _ Hp _ _ _ _ Hr Hfit)), Ek.
      rewrite zdrop_zdrop, <- (zlen_app a k), <- app_assoc by auto using zlen_nonneg.
      split_and!; [by apply prefix_app|len_lia|done].
    + destruct (emits_overflow _ _ Hp _ _ _ _ Hr Hover) as (k & Hk & Hkl & Ek).
      exists k. rewrite (bind_err _ _ _ _ _ Ek).
      split_and!; [by apply prefix_app_r|done|done].
Qed.

Lemma emits_nil : emits (mret tt) [].
Proof.
  split; [done|..]; intros w u f cap [??]; rewrite zlen_nil.
  - by rewrite app_nil_r.
  - lia.
Qed.

Lemma emits_ext p q bs : emits p bs -> (forall s, q s = p s) -> emits q bs.
Proof.
  intros Hp E. split; [apply Hp|..]; intros; rewrite E; by apply Hp.
Qed.

Lemma deref_all (l : list Z) (s : bufptr) : deref (Some l) (zlen l) s = (Ret l, s).
Proof.
  unfold deref. pose proof (mem_read_app [] l []) as E. simpl in E.
  rewrite app_nil_r, zlen_nil in E. by rewrite E.
Qed.

Lemma emits_put_bytes l :
  Forall is_byte l -> emits (ssh_buffer_put_bytes (Some l) (zlen l)) l.
Proof.
  intros Hl. split; [done|..]; intros w u f cap Hr Hc; unfold ssh_buffer_put_bytes;
    rewrite (bind_ret _ _ _ _ _ (require_live_Bf _ _ _ _)), (bind_ret _ _ _ tt _) by done.
  - rewrite (bind_ret _ _ _ _ _ (require_room_Bf _ _ _ _ _ Hr Hc)).
    destruct (zlen l =? 0) eqn:Z0; cbn [negb].
    + apply Z.eqb_eq, zlen_zero_inv in Z0 as ->. by rewrite app_nil_r.
    + rewrite (bind_ret _ _ _ _ _ (deref_all _ _)). by apply store_Bf.
  - rewrite (bind_err _ _ _ _ _ (require_room_full _ _ _ _ _ Hr Hc)).
    exists []. rewrite zlen_nil, app_nil_r. destruct Hr.
    split_and!; [apply prefix_nil|lia|done].
Qed.

(** The wire image of a string: its length, then its bytes. *)
Definition string_bytes (l : list Z) : list Z := be_bytes 4 (zlen l) ++ l.

Lemma zlen_string_bytes l : zlen (string_bytes l) = 4 + zlen l.
Proof. unfold string_bytes. len_lia. Qed.
#[export] Hint Rewrite zlen_string_bytes : emssh_len.

Lemma string_bytes_byte l : Forall is_byte l -> Forall is_byte (string_bytes l).
Proof. unfold string_bytes. auto with emssh. Qed.
#[export] Hint Resolve string_bytes_byte : emssh.

Lemma emits_reject c e p bs : c = false -> emits p bs -> emits (reject c e;; p) bs.
Proof. intros -> Hp. by apply (emits_ext p). Qed.

Lemma emits_string l :
  Forall is_byte l -> zlen l <= UINT32_MAX -> emits (ssh_buffer_put_string (Some l) (zlen l)) (string_bytes l).
Proof.
  intros Hb Hl. apply emits_reject; [lia|]. unfold string_bytes, u32.
  rewrite Z.mod_small by (unfold UINT32_MAX in Hl; pose proof (zlen_nonneg l); lia).
  apply emits_bind; [apply emits_u32|by apply emits_put_bytes].
Qed.

Lemma emits_cstring l :
  Forall is_byte l -> zlen l <= UINT32_MAX -> emits (ssh_buffer_put_cstring (Some l)) (string_bytes l).
Proof. apply emits_string. Qed.

#[export] Hint Resolve emits_u8 emits_bool emits_u32 emits_u64 emits_put_bytes emits_string
  emits_cstring emits_bind : emssh.

Lemma emits_encode_into p bs storage cap :
  emits p bs -> zlen bs <= cap <= zlen storage -> encode_into p storage cap = Ret bs.
Proof.
  intros Hp [Hc Hs]. pose proof (zlen_nonneg bs). unfold encode_into, ssh_buffer_init, uninit_buffer.
  change (mk_ssh_buffer (Some storage) cap 0 0) with (Bf [] [] storage cap).
  rewrite (emits_fits _ _ Hp) by (unfold room_ok; len_lia).
  unfold written, Bf. cbn [buf_data buf_len app]. by rewrite zlen_nil, Z.add_0_l, ztake_app.
Qed.

Lemma emits_encode_overflow p bs storage cap :
  emits p bs -> 0 <= cap <= zlen storage -> cap < zlen bs ->
  encode_into p storage cap = Err SSH_ERR_BUFFER_OVERFLOW.
Proof.
  intros Hp Hs Hc. unfold encode_into, ssh_buffer_init, uninit_buffer.
  change (mk_ssh_buffer (Some storage) cap 0 0) with (Bf [] [] storage cap).
  destruct (emits_overflow _ _ Hp [] [] storage cap) as (k & _ & _ & ->); try done;
    unfold room_ok; len_lia.
Qed.

(** ** Lemmas: readers *)
Lemma parses_ret {A} (x : A) rest : parses (mret x) [] rest x.
Proof. intros w f cap. by rewrite app_nil_r. Qed.

Lemma parses_bind {A B} (g : BufM A) (k : A -> BufM B) a b rest x y :
  parses g a (b ++ rest) x -> parses (k x) b rest y -> parses (z ← g; k z) (a ++ b) rest y.
Proof.
  intros Hg Hk w f cap. rewrite <- app_assoc, (bind_ret _ _ _ _ _ (Hg w f cap)), Hk.
  by rewrite <- app_assoc.
Qed.

(** The same with the split of the input given by an equation. *)
Lemma parses_bind_eq {A B} (g : BufM A) (k : A -> BufM B) bs a b rest x y :
  bs = a ++ b -> parses g a (b ++ rest) x -> parses (k x) b rest y ->
  parses (z ← g; k z) bs rest y.
Proof. intros ->. apply parses_bind. Qed.

Lemma parses_reject {A} c e (k : BufM A) bs rest y :
  c = false -> parses k bs rest y -> parses (reject c e;; k) bs rest y.
Proof. by intros ->. Qed.

Lemma parses_remaining {A} (k : Z -> BufM A) bs rest y :
  parses (k (zlen (bs ++ rest))) bs rest y -> parses (n ← remaining_read; k n) bs rest y.
Proof.
  intros Hk w f cap.
  erewrite bind_ret by (unfold remaining_read; by rewrite remaining_read_Bf). apply Hk.
Qed.

Lemma require_unread_Bf w u f cap n :
  n <= zlen u -> require_unread n (Some (Bf w u f cap)) = (Ret tt, Some (Bf w u f cap)).
Proof. intros. unfold require_unread. rewrite remaining_read_Bf. apply reject_false. lia. Qed.

Lemma require_unread_short w u f cap n :
  zlen u < n ->
  require_unread n (Some (Bf w u f cap)) = (Err SSH_ERR_BUFFER_UNDERFLOW, Some (Bf w u f cap)).
Proof. intros. unfold require_unread. rewrite remaining_read_Bf. apply reject_true. lia. Qed.

Lemma parses_checked_load {A} (k : list Z -> A) bs rest :
  parses (require_live;; require_unread (zlen bs);; p ← load (zlen bs); mret (k p))
    bs rest (k bs).
Proof.
  intros w f cap. rewrite (bind_ret _ _ _ _ _ (require_live_Bf _ _ _ _)).
  assert (zlen bs <= zlen (bs ++ rest)) as Hl by (pose proof (zlen_nonneg rest); len_lia).
  rewrite (bind_ret _ _ _ _ _ (require_unread_Bf _ _ _ _ _ Hl)).
  by rewrite (bind_ret _ _ _ _ _ (load_Bf _ _ _ _ _)).
Qed.

Lemma be_value_lor4 a b c d :
  Forall is_byte [a; b; c; d] ->
  Z.lor (Z.lor (Z.lor (Z.shiftl a 24) (Z.shiftl b 16)) (Z.shiftl c 8)) d = be_value [a; b; c; d].
Proof.
  rewrite !Forall_cons_iff. unfold is_byte. intros (Ha & Hb & Hc & Hd & _).
  replace (Z.shiftl a 24) with (Z.shiftl (Z.shiftl (Z.shiftl a 8) 8) 8)
    by (rewrite !Z.shiftl_shiftl by lia; done).
  replace (Z.shiftl b 16) with (Z.shiftl (Z.shiftl b 8) 8)
    by (rewrite !Z.shiftl_shiftl by lia; done).
  rewrite <- !Z.shiftl_lor, !lor_shiftl_add by lia. unfold be_value. cbn [fold_left]. lia.
Qed.

Lemma be_value_lor8 a b c d e f g h :
  Forall is_byte [a; b; c; d; e; f; g; h] ->
  Z.lor (Z.lor (Z.lor (Z.lor (Z.lor (Z.lor (Z.lor
    (Z.shiftl a 56) (Z.shiftl b 48)) (Z.shiftl c 40)) (Z.shiftl d 32))
    (Z.shiftl e 24)) (Z.shiftl f 16)) (Z.shiftl g 8)) h = be_value [a; b; c; d; e; f; g; h].
Proof.
  intros H. change [a; b; c; d; e; f; g; h] with ([a; b; c; d] ++ [e; f; g; h]) in *.
  apply Forall_app in H as [H1 H2]. rewrite be_value_app.
  pose proof (be_value_bound _ H2) as Hb. change (256 ^ zlen [e; f; g; h]) with (2 ^ 32) in *.
  rewrite <- (lor_shiftl_add (be_value [a; b; c; d])) by (try exact Hb; lia).
  rewrite <- !be_value_lor4 by done. rewrite !Z.shiftl_lor, !Z.shiftl_shiftl by lia.
  by rewrite !Z.lor_assoc.
Qed.

Lemma list_4 (p : list Z) : zlen p = 4 -> exists a b c d, p = [a; b; c; d].
Proof. destruct p as [|? [|? [|? [|? [|]]]]]; intros; try list_lia; eauto. Qed.

Lemma list_8 (p : list Z) :
  zlen p = 8 -> exists a b c d e f g h, p = [a; b; c; d; e; f; g; h].
Proof.
  destruct p as [|? [|? [|? [|? [|? [|? [|? [|? [|]]]]]]]]]; intros; try list_lia.
  by repeat eexists.
Qed.

(** The readers of fixed-size integers, on exactly the bytes they take. *)
Lemma parses_u8_raw b rest : parses ssh_buffer_get_u8 [b] rest b.
Proof. apply (parses_checked_load (hd 0)). Qed.

Lemma parses_u32_raw p rest :
  Forall is_byte p -> zlen p = 4 -> parses ssh_buffer_get_u32 p rest (be_value p).
Proof.
  intros Hb Hl. destruct (list_4 p Hl) as (a & b & c & d & ->).
  rewrite <- be_value_lor4 by done.
  apply (parses_checked_load (fun p => Z.lor (Z.lor (Z.lor (Z.shiftl (byte_at p 0) 24)
    (Z.shiftl (byte_at p 1) 16)) (Z.shiftl (byte_at p 2) 8)) (byte_at p 3)) [a; b; c; d]).
Qed.

Lemma parses_u64_raw p rest :
  Forall is_byte p -> zlen p = 8 -> parses ssh_buffer_get_u64 p rest (be_value p).
Proof.
  intros Hb Hl. destruct (list_8 p Hl) as (a & b & c & d & e & f & g & h & ->).
  rewrite <- be_value_lor8 by done.
  apply (parses_checked_load (fun p => Z.lor (Z.lor (Z.lor (Z.lor (Z.lor (Z.lor (Z.lor
    (Z.shiftl (byte_at p 0) 56) (Z.shiftl (byte_at p 1) 48)) (Z.shiftl (byte_at p 2) 40))
    (Z.shiftl (byte_at p 3) 32)) (Z.shiftl (byte_at p 4) 24)) (Z.shiftl (byte_at p 5) 16))
    (Z.shiftl (byte_at p 6) 8)) (byte_at p 7)) [a; b; c; d; e; f; g; h]).
Qed.

Lemma parses_u32 v rest : is_u32 v -> parses ssh_buffer_get_u32 (be_bytes 4 v) rest v.
Proof.
  intros Hv. rewrite <- (be_value_bytes 4 v) at 2 by exact Hv.
  apply parses_u32_raw; [apply be_bytes_byte|by rewrite zlen_be_bytes].
Qed.

Lemma parses_u64 v rest : is_u64 v -> parses ssh_buffer_get_u64 (be_bytes 8 v) rest v.
Proof.
  intros Hv. rewrite <- (be_value_bytes 8 v) at 2 by exact Hv.
  apply parses_u64_raw; [apply be_bytes_byte|by rewrite zlen_be_bytes].
Qed.

Lemma parses_bool b rest : parses ssh_buffer_get_bool [int_of_bool b] rest b.
Proof.
  apply (parses_bind _ _ [int_of_bool b] [] rest (int_of_bool b)); [apply parses_u8_raw|].
  destruct b; apply (parses_ret _ rest).
Qed.

(** A checked load of a length found in the input. *)
Lemma parses_load bs rest :
  parses (require_unread (zlen bs);; load (zlen bs)) bs rest bs.
Proof.
  intros w f cap.
  assert (zlen bs <= zlen (bs ++ rest)) as Hl by (pose proof (zlen_nonneg rest); len_lia).
  rewrite (bind_ret _ _ _ _ _ (require_unread_Bf _ _ _ _ _ Hl)). apply load_Bf.
Qed.

Lemma parses_get_bytes bs rest n :
  n = zlen bs -> parses (ssh_buffer_get_bytes n) bs rest bs.
Proof.
  intros -> w f cap. unfold ssh_buffer_get_bytes.
  rewrite (bind_ret _ _ _ _ _ (require_live_Bf _ _ _ _)).
  destruct (zlen bs =? 0) eqn:E; cbn [negb].
  - apply Z.eqb_eq, zlen_zero_inv in E as ->.
    erewrite bind_ret by (apply require_unread_Bf; rewrite zlen_nil; apply zlen_nonneg).
    by rewrite app_nil_r.
  - apply parses_load.
Qed.

Lemma parses_string l rest :
  zlen l <= UINT32_MAX -> parses ssh_buffer_get_string_view (string_bytes l) rest (view_of l).
Proof.
  intros Hl. pose proof (zlen_nonneg l). unfold UINT32_MAX in Hl.
  apply (parses_bind _ _ _ _ _ (zlen l)); [apply parses_u32; unfold is_u32; lia|].
  intros w f cap.
  assert (zlen l <= zlen (l ++ rest)) as Hr by (pose proof (zlen_nonneg rest); len_lia).
  rewrite (bind_ret _ _ _ _ _ (require_unread_Bf _ _ _ _ _ Hr)).
  by rewrite (bind_ret _ _ _ _ _ (load_Bf _ _ _ _ _)).
Qed.

#[export] Hint Resolve parses_u8_raw parses_u32 parses_u64 parses_bool parses_string
  parses_get_bytes : emssh.

Lemma parses_decode_from {A} (g : BufM A) bs x : parses g bs [] x -> decode_from g bs = Ret x.
Proof.
  intros Hg. unfold decode_from, ssh_buffer_wrap, uninit_buffer.
  replace (mk_ssh_buffer (Some bs) (zlen bs) (zlen bs) 0) with (Bf [] (bs ++ []) [] (zlen bs)).
  - by rewrite Hg.
  - unfold Bf. cbn [app]. by rewrite !app_nil_r.
Qed.

(** *** Rules for [decodes] *)
Lemma decodes_conseq {A} (g : BufM A) (Q R : A -> list Z -> list Z -> Prop) :
  decodes g Q -> (forall x u1 u2, Forall is_byte u1 -> Forall is_byte u2 -> Q x u1 u2 -> R x u1 u2) ->
  decodes g R.
Proof.
  intros Hg HR w u f cap Hu. destruct (Hg w u f cap Hu) as (o & u1 & u2 & -> & E & Ho).
  apply Forall_app in Hu as [??]. exists o, u1, u2. split_and!; [done..|]. destruct o; eauto.
Qed.

Lemma decodes_bind {A B} (g : BufM A) (k : A -> BufM B) Q R :
  decodes g Q ->
  (forall x v1 v2, Q x v1 v2 -> decodes (k x) (fun y u2 rest =>
     forall u1, Forall is_byte u1 -> Q x u1 (u2 ++ rest) -> R y (u1 ++ u2) rest)) ->
  decodes (x ← g; k x) R.
Proof.
  intros Hg Hk w u f cap Hu. destruct (Hg w u f cap Hu) as (o & u1 & u2 & -> & E & Ho).
  apply Forall_app in Hu as [Hu1 Hu2]. destruct o as [x|e|]; [..|done].
  - destruct (Hk x _ _ Ho (w ++ u1) u2 f cap Hu2) as (o & v1 & v2 & -> & E2 & Ho2).
    rewrite (bind_ret _ _ _ _ _ E), E2. exists o, (u1 ++ v1), v2.
    rewrite <- !app_assoc. split_and!; [done..|]. destruct o; eauto.
  - rewrite (bind_err _ _ _ _ _ E). exists (Err e), u1, u2. done.
Qed.

Lemma decodes_ret {A} (x : A) (Q : A -> list Z -> list Z -> Prop) :
  (forall rest, Q x [] rest) -> decodes (mret x) Q.
Proof.
  intros HQ w u f cap _. exists (Ret x), [], u. rewrite app_nil_r. split_and!; [done..|apply HQ].
Qed.

Lemma decodes_fail {A} e (Q : A -> list Z -> list Z -> Prop) : decodes (fail e) Q.
Proof. intros w u f cap _. exists (Err e), [], u. by rewrite app_nil_r. Qed.

(** After a guard its condition is false. *)
Lemma decodes_reject {A} c e (k : BufM A) Q :
  (c = false -> decodes k Q) -> decodes (reject c e;; k) Q.
Proof.
  intros Hk. destruct c.
  - intros w u f cap _. exists (Err e), [], u. by rewrite app_nil_r.
  - intros w u f cap Hu. destruct (Hk eq_refl w u f cap Hu) as (o & u1 & u2 & ? & E & ?).
    exists o, u1, u2. by rewrite (bind_ret _ _ _ tt (Some (Bf w u f cap))).
Qed.

Lemma decodes_remaining {A} (k : Z -> BufM A) Q :
  (forall n, decodes (k n) (fun y u2 rest => n = zlen (u2 ++ rest) -> Q y u2 rest)) ->
  decodes (n ← remaining_read; k n) Q.
Proof.
  intros Hk. apply (decodes_bind _ _ (fun n u1 u2 => u1 = [] /\ n = zlen u2)).
  - intros w u f cap _. exists (Ret (zlen u)), [], u. rewrite app_nil_r.
    unfold remaining_read. by rewrite remaining_read_Bf.
  - intros n _ _ _. eapply decodes_conseq; [apply Hk|]. intros y u2 rest _ _ HQ u1 _ [-> ->].
    by apply HQ.
Qed.

Lemma decodes_if {A} (c : bool) (g h : BufM A) Q :
  (c = true -> decodes g Q) -> (c = false -> decodes h Q) -> decodes (if c then g else h) Q.
Proof. destruct c; auto. Qed.

Lemma decodes_checked_load {A} (k : list Z -> A) n (Q : A -> list Z -> list Z -> Prop) :
  0 <= n -> (forall p rest, zlen p = n -> Forall is_byte p -> Q (k p) p rest) ->
  decodes (require_live;; require_unread n;; p ← load n; mret (k p)) Q.
Proof.
  intros Hn HQ w u f cap Hu. rewrite (bind_ret _ _ _ _ _ (require_live_Bf _ _ _ _)).
  destruct (Z.le_gt_cases n (zlen u)) as [Hl|Hl].
  - destruct (zsplit u n) as (p & r & -> & Hp); [lia|]. apply Forall_app in Hu as [??].
    exists (Ret (k p)), p, r. rewrite (bind_ret _ _ _ _ _ (require_unread_Bf _ _ _ _ _ Hl)).
    subst n. rewrite (bind_ret _ _ _ _ _ (load_Bf _ _ _ _ _)). split_and!; [done..|]. by apply HQ.
  - exists (Err SSH_ERR_BUFFER_UNDERFLOW), [], u.
    rewrite (bind_err _ _ _ _ _ (require_unread_short _ _ _ _ _ Hl)), app_nil_r. done.
Qed.

Lemma decodes_u8 : decodes ssh_buffer_get_u8 (fun x u1 _ => is_byte x /\ u1 = [x]).
Proof.
  apply (decodes_checked_load (hd 0)); [lia|]. intros p rest Hl Hb.
  destruct p as [|x [|]]; try list_lia. by apply Forall_cons_iff in Hb as [? _].
Qed.

Lemma decodes_u32 : decodes ssh_buffer_get_u32 (fun x u1 _ => is_u32 x /\ u1 = be_bytes 4 x).
Proof.
  apply (decodes_checked_load (fun p => Z.lor (Z.lor (Z.lor (Z.shiftl (byte_at p 0) 24)
    (Z.shiftl (byte_at p 1) 16)) (Z.shiftl (byte_at p 2) 8)) (byte_at p 3))); [lia|].
  intros p rest Hl Hb. destruct (list_4 p Hl) as (a & b & c & d & ->).
  unfold byte_at. cbn [nth]. rewrite be_value_lor4 by done. split.
  - apply (be_value_bound _ Hb).
  - symmetry. exact (be_bytes_value _ Hb).
Qed.

Lemma decodes_u64 : decodes ssh_buffer_get_u64 (fun x u1 _ => is_u64 x /\ u1 = be_bytes 8 x).
Proof.
  apply (decodes_checked_load (fun p => Z.lor (Z.lor (Z.lor (Z.lor (Z.lor (Z.lor (Z.lor
    (Z.shiftl (byte_at p 0) 56) (Z.shiftl (byte_at p 1) 48)) (Z.shiftl (byte_at p 2) 40))
    (Z.shiftl (byte_at p 3) 32)) (Z.shiftl (byte_at p 4) 24)) (Z.shiftl (byte_at p 5) 16))
    (Z.shiftl (byte_at p 6) 8)) (byte_at p 7))); [lia|].
  intros p rest Hl Hb. destruct (list_8 p Hl) as (a & b & c & d & e & f & g & h & ->).
  unfold byte_at. cbn [nth]. rewrite be_value_lor8 by done. split.
  - apply (be_value_bound _ Hb).
  - symmetry. exact (be_bytes_value _ Hb).
Qed.

Lemma decodes_bool : decodes ssh_buffer_get_bool (fun x u1 _ => u1 = [int_of_bool x]).
Proof.
  eapply decodes_bind; [apply decodes_u8|]. intros x _ _ _.
  apply decodes_reject. intros Hx. apply decodes_ret. intros rest u1 _ [_ ->].
  destruct (x =? 0) eqn:?, (x =? 1) eqn:?; simplify_eq/=; repeat f_equal; lia.
Qed.

Lemma decodes_string :
  decodes ssh_buffer_get_string_view (fun v u1 _ =>
    exists l, v = view_of l /\ u1 = string_bytes l /\ zlen l <= UINT32_MAX /\ Forall is_byte l).
Proof.
  eapply decodes_bind; [apply decodes_u32|]. intros n _ _ [Hn _] w u f cap Hu.
  unfold is_u32 in Hn. destruct (Z.le_gt_cases n (zlen u)) as [Hl|Hl].
  - destruct (zsplit u n) as (p & r & -> & Hp); [lia|]. apply Forall_app in Hu as [Hp' ?].
    exists (Ret (mk_view (Some p) n)), p, r.
    rewrite (bind_ret _ _ _ _ _ (require_unread_Bf _ _ _ _ _ Hl)). subst n.
    rewrite (bind_ret _ _ _ _ _ (load_Bf _ _ _ _ _)). split_and!; [done..|].
    intros u1 _ [_ ->]. exists p. unfold UINT32_MAX. split_and!; try done. lia.
  - exists (Err SSH_ERR_BUFFER_UNDERFLOW), [], u.
    rewrite (bind_err _ _ _ _ _ (require_unread_short _ _ _ _ _ Hl)), app_nil_r. done.
Qed.

Lemma decodes_get_bytes n :
  0 <= n ->
  decodes (ssh_buffer_get_bytes n) (fun l u1 _ => u1 = l /\ zlen l = n /\ Forall is_byte l).
Proof.
  intros Hn w u f cap Hu. unfold ssh_buffer_get_bytes.
  rewrite (bind_ret _ _ _ _ _ (require_live_Bf _ _ _ _)).
  destruct (Z.le_gt_cases n (zlen u)) as [Hl|Hl].
  - rewrite (bind_ret _ _ _ _ _ (require_unread_Bf _ _ _ _ _ Hl)).
    destruct (n =? 0) eqn:E; cbn [negb].
    + exists (Ret []), [], u. rewrite app_nil_r. split_and!; try done. rewrite zlen_nil. lia.
    + destruct (zsplit u n) as (p & r & -> & Hp); [lia|]. apply Forall_app in Hu as [??].
      exists (Ret p), p, r. subst n. by rewrite load_Bf.
  - exists (Err SSH_ERR_BUFFER_UNDERFLOW), [], u.
    rewrite (bind_err _ _ _ _ _ (require_unread_short _ _ _ _ _ Hl)), app_nil_r. done.
Qed.

(** ** The primitive wire formats *)
#[export] Instance wire_u8 : WireFormat ssh_buffer_put_u8 ssh_buffer_get_u8 is_byte (fun x => [x]).
Proof. split; [apply emits_u8|intros; apply parses_u8_raw|apply decodes_u8]. Qed.

#[export] Instance wire_bool :
  WireFormat ssh_buffer_put_bool ssh_buffer_get_bool (fun _ => True) (fun b => [int_of_bool b]).
Proof.
  split; [intros; apply emits_bool|intros; apply parses_bool|].
  eapply decodes_conseq; [apply decodes_bool|]. naive_solver.
Qed.

#[export] Instance wire_u32 : WireFormat ssh_buffer_put_u32 ssh_buffer_get_u32 is_u32 (be_bytes 4).
Proof. split; [intros; apply emits_u32|intros; by apply parses_u32|apply decodes_u32]. Qed.

#[export] Instance wire_u64 : WireFormat ssh_buffer_put_u64 ssh_buffer_get_u64 is_u64 (be_bytes 8).
Proof. split; [intros; apply emits_u64|intros; by apply parses_u64|apply decodes_u64]. Qed.

(** Strings: written from a pointer and a length, read back as a view. *)
Definition view_ok (v : ssh_string_view) : Prop :=
  exists l, v = view_of l /\ Forall is_byte l /\ zlen l <= UINT32_MAX.

#[export] Instance wire_string :
  WireFormat (fun v => ssh_buffer_put_string (view_data v) (view_len v))
    ssh_buffer_get_string_view view_ok (fun v => string_bytes (view_bytes v)).
Proof.
  split.
  - intros v (l & -> & Hb & Hl). rewrite view_bytes_of. by apply emits_string.
  - intros v rest (l & -> & Hb & Hl). rewrite view_bytes_of. by apply parses_string.
  - eapply decodes_conseq; [apply decodes_string|]. intros v u1 u2 _ _ (l & -> & -> & ? & ?).
    rewrite view_bytes_of. split; [by exists l|done].
Qed.

(** ** Properties of the buffer *)

(** *** Typed values *)
Inductive wire_value : Type :=
| VU8 (v : Z) | VBool (b : bool) | VU32 (v : Z) | VU64 (v : Z) | VString (l : list Z).

Inductive wire_type : Type := TU8 | TBool | TU32 | TU64 | TString.

Definition value_type (v : wire_value) : wire_type :=
  match v with VU8 _ => TU8 | VBool _ => TBool | VU32 _ => TU32 | VU64 _ => TU64 | VString _ => TString end.

Definition value_ok (v : wire_value) : Prop :=
  match v with
  | VU8 x => is_byte x
  | VBool _ => True
  | VU32 x => is_u32 x
  | VU64 x => is_u64 x
  | VString l => Forall is_byte l /\ zlen l <= UINT32_MAX
  end.

Definition value_bytes (v : wire_value) : list Z :=
  match v with
  | VU8 x => [x]
  | VBool b => [int_of_bool b]
  | VU32 x => be_bytes 4 x
  | VU64 x => be_bytes 8 x
  | VString l => string_bytes l
  end.

Definition values_bytes (vs : list wire_value) : list Z := concat (map value_bytes vs).

Definition put_value (v : wire_value) : BufM unit :=
  match v with
  | VU8 x => ssh_buffer_put_u8 x
  | VBool b => ssh_buffer_put_bool b
  | VU32 x => ssh_buffer_put_u32 x
  | VU64 x => ssh_buffer_put_u64 x
  | VString l => ssh_buffer_put_string (Some l) (zlen l)
  end.

Definition get_value (t : wire_type) : BufM wire_value :=
  match t with
  | TU8 => VU8 <$> ssh_buffer_get_u8
  | TBool => VBool <$> ssh_buffer_get_bool
  | TU32 => VU32 <$> ssh_buffer_get_u32
  | TU64 => VU64 <$> ssh_buffer_get_u64
  | TString => (fun v => VString (view_bytes v)) <$> ssh_buffer_get_string_view
  end.

Fixpoint put_values (vs : list wire_value) : BufM unit :=
  match vs with [] => mret tt | v :: vs' => put_value v;; put_values vs' end.

Fixpoint get_values (ts : list wire_type) : BufM (list wire_value) :=
  match ts with
  | [] => mret []
  | t :: ts' => v ← get_value t; vs ← get_values ts'; mret (v :: vs)
  end.

Lemma parses_fmap {A B} (h : A -> B) (g : BufM A) bs rest x :
  parses g bs rest x -> parses (h <$> g) bs rest (h x).
Proof. intros Hg w f cap. unfold fmap, prog_fmap. by rewrite Hg. Qed.

Lemma decodes_fmap {A B} (h : A -> B) (g : BufM A) Q R :
  decodes g Q -> (forall x u1 u2, Forall is_byte u1 -> Q x u1 u2 -> R (h x) u1 u2) ->
  decodes (h <$> g) R.
Proof.
  intros Hg HR w u f cap Hu. destruct (Hg w u f cap Hu) as (o & u1 & u2 & -> & E & Ho).
  apply Forall_app in Hu as [??].
  exists (match o with Ret x => Ret (h x) | Err e => Err e | Fault => Fault end), u1, u2.
  unfold fmap, prog_fmap. rewrite E. split_and!; [done|by destruct o|]. destruct o; eauto.
Qed.

Lemma emits_value v : value_ok v -> emits (put_value v) (value_bytes v).
Proof.
  destruct v; cbn [value_ok put_value value_bytes]; eauto with emssh.
  intros [??]. eauto with emssh.
Qed.

Lemma parses_value v rest :
  value_ok v -> parses (get_value (value_type v)) (value_bytes v) rest v.
Proof.
  destruct v; cbn [value_type get_value value_ok value_bytes]; intros H;
    try (apply parses_fmap; eauto with emssh).
  rewrite <- (view_bytes_of l) at 2.
  apply (parses_fmap (fun v => VString (view_bytes v))). by apply parses_string, H.
Qed.

Lemma decodes_value t :
  decodes (get_value t) (fun v u1 _ => value_type v = t /\ value_ok v /\ u1 = value_bytes v).
Proof.
  destruct t; (eapply decodes_fmap; [apply wire_decodes|]); cbn beta;
    [by intros ? ? _ _ [? ->]..|].
  intros v u1 u2 _ [(l & -> & Hb & Hl) ->]. rewrite view_bytes_of. done.
Qed.

Lemma emits_values vs : Forall value_ok vs -> emits (put_values vs) (values_bytes vs).
Proof. induction 1; [apply emits_nil|apply emits_bind; [by apply emits_value|done]]. Qed.

Lemma parses_values vs rest :
  Forall value_ok vs -> parses (get_values (map value_type vs)) (values_bytes vs) rest vs.
Proof.
  intros H. induction H as [|v vs Hv Hvs IH]; [apply parses_ret|].
  apply (parses_bind _ _ _ _ _ v); [by apply parses_value|].
  apply (parses_bind_eq _ _ _ (values_bytes vs) [] _ vs);
    [by rewrite app_nil_r|exact IH|apply parses_ret].
Qed.

Lemma decodes_values ts :
  decodes (get_values ts) (fun vs u1 _ =>
    map value_type vs = ts /\ Forall value_ok vs /\ u1 = values_bytes vs).
Proof.
  induction ts as [|t ts IH]; [by apply decodes_ret|]. cbn [get_values].
  eapply decodes_bind; [apply decodes_value|]. intros v _ _ _.
  eapply decodes_bind; [apply IH|]. intros vs _ _ _. apply decodes_ret.
  intros rest u2 _ (Hts & Hok & ->) u1 _ (Ht & Hv & ->). cbn [map].
  rewrite app_nil_r. split_and!; [congruence|by constructor|done].
Qed.

Lemma decodes_decode_from {A} (g : BufM A) Q bs x :
  decodes g Q -> Forall is_byte bs -> decode_from g bs = Ret x ->
  exists u1 u2, bs = u1 ++ u2 /\ Q x u1 u2.
Proof.
  intros Hg Hb. unfold decode_from, ssh_buffer_wrap, uninit_buffer.
  destruct (Hg [] bs [] (zlen bs) Hb) as (o & u1 & u2 & -> & E & Ho).
  unfold Bf at 1 in E. cbn [app] in E. rewrite app_nil_r in E. rewrite zlen_nil, Z.add_0_l in E.
  rewrite E. cbn [fst]. intros ->. eauto.
Qed.

(** A reader never faults on bytes. *)
Lemma decodes_no_fault {A} (g : BufM A) Q bs :
  decodes g Q -> Forall is_byte bs -> decode_from g bs <> Fault.
Proof.
  intros Hg Hb. unfold decode_from, ssh_buffer_wrap, uninit_buffer.
  destruct (Hg [] bs [] (zlen bs) Hb) as (o & u1 & u2 & -> & E & Ho).
  unfold Bf at 1 in E. cbn [app] in E. rewrite app_nil_r in E. rewrite zlen_nil, Z.add_0_l in E.
  rewrite E. cbn [fst]. by destruct o.
Qed.

(** Any sequence of integers, booleans and strings written with the put
    functions into storage that is large enough is read back value for value
    by the get functions, from exactly the bytes that were written. *)
Theorem buffer_values_roundtrip vs storage cap :
  Forall value_ok vs -> zlen (values_bytes vs) <= cap <= zlen storage ->
  encode_into (put_values vs) storage cap = Ret (values_bytes vs) /\
  decode_from (get_values (map value_type vs)) (values_bytes vs) = Ret vs.
Proof.
  intros Hvs Hl. split.
  - apply emits_encode_into; [by apply emits_values|done].
  - by apply parses_decode_from, parses_values.
Qed.

Lemma buffer_values_roundtrip_witness :
  decode_from (get_values [TU32; TString; TBool; TU64])
    [0; 0; 1; 44; 0; 0; 0; 2; 104; 105; 1; 0; 0; 0; 0; 255; 255; 255; 255] =
    Ret [VU32 300; VString [104; 105]; VBool true; VU64 (2 ^ 32 - 1)].
Proof.
  apply (buffer_values_roundtrip [VU32 300; VString [104; 105]; VBool true; VU64 (2 ^ 32 - 1)]
    (replicate 19 0) 19).
  - repeat constructor; cbn; unfold is_u32, is_u64, is_byte, UINT32_MAX; try lia. by vm_compute.
  - by vm_compute.
Defined.

(** The readers accept only canonical encodings: if a sequence of reads of
    given types succeeds on a byte string, the string starts with the encoding
    of the values returned, which are in the ranges of their C types, and
    the read values have the types asked for. *)
Theorem buffer_values_canonical ts bs vs :
  Forall is_byte bs -> decode_from (get_values ts) bs = Ret vs ->
  map value_type vs = ts /\ Forall value_ok vs /\ values_bytes vs `prefix_of` bs.
Proof.
  intros Hb E. destruct (decodes_decode_from _ _ _ _ (decodes_values ts) Hb E)
    as (u1 & u2 & -> & Ht & Hok & ->).
  split_and!; [done..|by apply prefix_app_r].
Qed.

Lemma buffer_values_canonical_witness :
  map value_type [VBool true; VU8 9] = [TBool; TU8] /\ Forall value_ok [VBool true; VU8 9] /\
  values_bytes [VBool true; VU8 9] `prefix_of` [1; 9; 7].
Proof.
  apply (buffer_values_canonical [TBool; TU8] [1; 9; 7]).
  - by apply (bool_decide_unpack _); vm_compute.
  - by vm_compute.
Defined.

(** *** Multiple-precision integers *)

(** The bytes of a non-negative mpint as RFC 4251 section 5 wants them: no
    unnecessary leading zero, and a zero in front of a byte above 127. *)
Definition mpint_canonical (m : list Z) : Prop :=
  match m with
  | [] => True
  | [b] => 0 < b < 128
  | b :: b' :: _ => b < 128 /\ (b = 0 -> 128 <= b')
  end.

Definition strip_zeros (l : list Z) : list Z := zdrop (count_leading_zeros l) l.

Definition mpint_bytes (l : list Z) : list Z :=
  match strip_zeros l with
  | [] => []
  | b :: m => if b <? 128 then b :: m else 0 :: b :: m
  end.

Lemma count_leading_zeros_bound l : 0 <= count_leading_zeros l <= zlen l.
Proof.
  induction l as [|b l IH]; [done|]. cbn [count_leading_zeros]. rewrite zlen_cons.
  case_bool; lia.
Qed.

Lemma strip_zeros_cons b l : strip_zeros (b :: l) = if b =? 0 then strip_zeros l else b :: l.
Proof.
  unfold strip_zeros. cbn [count_leading_zeros]. destruct (b =? 0); [|done].
  pose proof (count_leading_zeros_bound l). unfold zdrop.
  by replace (Z.to_nat (1 + count_leading_zeros l)) with (S (Z.to_nat (count_leading_zeros l))) by lia.
Qed.

Lemma strip_zeros_hd l b m : strip_zeros l = b :: m -> b <> 0.
Proof.
  induction l as [|a l IH]; [done|]. rewrite strip_zeros_cons.
  destruct (a =? 0) eqn:E; [done|]. intros [= -> ->]. lia.
Qed.

Lemma be_value_strip l : be_value (strip_zeros l) = be_value l.
Proof.
  induction l as [|b l IH]; [done|]. rewrite strip_zeros_cons.
  destruct (b =? 0) eqn:E; [|done]. rewrite IH, be_value_cons. lia.
Qed.

Lemma strip_zeros_byte l : Forall is_byte l -> Forall is_byte (strip_zeros l).
Proof. apply Forall_drop. Qed.

Lemma zlen_strip l : zlen (strip_zeros l) = zlen l - count_leading_zeros l.
Proof.
  pose proof (count_leading_zeros_bound l). unfold strip_zeros. rewrite zlen_zdrop; lia.
Qed.

Lemma mpint_bytes_value l : be_value (mpint_bytes l) = be_value l.
Proof.
  rewrite <- (be_value_strip l). unfold mpint_bytes. destruct (strip_zeros l); [done|].
  case_bool; [done|]. rewrite (be_value_cons 0). lia.
Qed.

Lemma mpint_bytes_canonical l : Forall is_byte l -> mpint_canonical (mpint_bytes l).
Proof.
  intros Hl. unfold mpint_bytes. destruct (strip_zeros l) as [|b m] eqn:E; [done|].
  pose proof (strip_zeros_hd _ _ _ E). apply strip_zeros_byte in Hl. rewrite E in Hl.
  apply Forall_cons_iff in Hl as [Hb _]. unfold is_byte in Hb.
  case_bool; [destruct m|]; cbn; lia.
Qed.

Lemma land_128 b : is_byte b -> (Z.land b 128 =? 0) = (b <? 128).
Proof.
  intros Hb. change 128 with (2 ^ 7) at 1. unfold is_byte in Hb.
  replace (Z.land b (2 ^ 7)) with (Z.b2z (Z.testbit b 7) * 2 ^ 7).
  - rewrite Z.testbit_spec' by lia. destruct (b <? 128) eqn:E.
    + rewrite Z.div_small by lia. done.
    + replace (b / 2 ^ 7) with 1; [done|]. apply (Z.div_unique_pos _ _ _ (b - 128)); lia.
  - apply Z.bits_inj'. intros n Hn. rewrite Z.land_spec, Z.pow2_bits_eqb by lia.
    destruct (Z.eqb_spec 7 n) as [<-|Hne]; [by destruct (Z.testbit b 7)|].
    rewrite andb_false_r. destruct (Z.testbit b 7); [|by rewrite Z.bits_0].
    cbn [Z.b2z]. rewrite Z.mul_1_l, Z.pow2_bits_eqb by lia. lia.
Qed.

Lemma emits_live p bs : emits p bs -> emits (require_live;; p) bs.
Proof.
  intros Hp. split; [apply Hp|..]; intros w u f cap Hr Hl;
    rewrite (bind_ret _ _ _ _ _ (require_live_Bf _ _ _ _)); by apply Hp.
Qed.

Lemma emits_mpint_encodable l :
  Forall is_byte l -> zlen l <= UINT32_MAX -> zlen (mpint_bytes l) <= UINT32_MAX ->
  emits (ssh_buffer_put_mpint_positive (Some l) (zlen l)) (string_bytes (mpint_bytes l)).
Proof.
  intros Hb Hl Hm. pose proof (zlen_nonneg l). apply emits_live, emits_reject; [cbn; lia|].
  apply (emits_ext (let start := count_leading_zeros l in
    if start =? zlen l then ssh_buffer_put_u32 0 else
    if negb (Z.land (hd 0 (strip_zeros l)) 128 =? 0) then
      reject (zlen l - start >=? UINT32_MAX) SSH_ERR_INVALID_ARGUMENT;;
      ssh_buffer_put_u32 (u32 (zlen l - start + 1));; ssh_buffer_put_u8 0;;
      ssh_buffer_put_bytes (Some (strip_zeros l)) (zlen l - start)
    else ssh_buffer_put_string (Some (strip_zeros l)) (zlen l - start))).
  2: { intros s. destruct (zlen l =? 0) eqn:E.
       - by apply Z.eqb_eq, zlen_zero_inv in E as ->.
       - by rewrite (bind_ret _ _ _ _ _ (deref_all l s)). }
  cbv zeta. rewrite <- zlen_strip. pose proof (count_leading_zeros_bound l).
  pose proof (strip_zeros_byte l Hb) as Hs. pose proof (zlen_strip l).
  unfold mpint_bytes in *. destruct (strip_zeros l) as [|b m] eqn:E.
  { rewrite zlen_nil in *. replace (_ =? _) with true by lia. apply emits_u32. }
  replace (count_leading_zeros l =? zlen l) with false
    by (pose proof (zlen_nonneg m); len_lia).
  cbn [hd]. rewrite land_128 by (by apply Forall_cons_iff in Hs as [? _]).
  destruct (b <? 128); cbn [negb].
  - apply emits_string; [done|lia].
  - rewrite (zlen_cons 0) in Hm. apply emits_reject; [lia|]. unfold u32, string_bytes. unfold UINT32_MAX in *.
    pose proof (zlen_nonneg (b :: m)).
    rewrite Z.mod_small, (zlen_cons 0), (Z.add_comm 1) by lia.
    change (0 :: b :: m) with ([0] ++ b :: m).
    apply emits_bind; [apply emits_u32|].
    apply emits_bind; [by apply emits_u8|by apply emits_put_bytes].
Qed.

(** A sign byte is written in front of a byte of at least 128. *)
Lemma zlen_mpint_bytes l : zlen (mpint_bytes l) <= 1 + zlen l.
Proof.
  pose proof (zlen_strip l). pose proof (count_leading_zeros_bound l).
  unfold mpint_bytes. destruct (strip_zeros l); [len_lia|]. case_bool; len_lia.
Qed.

Lemma emits_mpint l :
  Forall is_byte l -> zlen l < UINT32_MAX ->
  emits (ssh_buffer_put_mpint_positive (Some l) (zlen l)) (string_bytes (mpint_bytes l)).
Proof. intros Hb Hl. apply emits_mpint_encodable; [done|lia|]. pose proof (zlen_mpint_bytes l). lia. Qed.

(** The longest source whose number needs the sign byte is refused. *)
Lemma mpint_too_long l w u f cap :
  Forall is_byte l -> zlen l <= UINT32_MAX -> UINT32_MAX < zlen (mpint_bytes l) ->
  ssh_buffer_put_mpint_positive (Some l) (zlen l) (Some (Bf w u f cap)) = (Err SSH_ERR_INVALID_ARGUMENT, Some (Bf w u f cap)).
Proof.
  intros Hb Hl Hm. set (s := Some (Bf w u f cap)). unfold ssh_buffer_put_mpint_positive.
  rewrite (bind_ret _ _ s tt s) by apply require_live_Bf.
  rewrite (bind_ret _ _ s tt s) by (apply reject_false; cbn; lia). pose proof (zlen_mpint_bytes l). unfold UINT32_MAX in *.
  replace (zlen l =? 0) with false by lia. rewrite (bind_ret _ _ s l s) by apply deref_all. cbv zeta.
  change (zdrop (count_leading_zeros l) l) with (strip_zeros l). rewrite <- zlen_strip.
  pose proof (count_leading_zeros_bound l). pose proof (zlen_strip l). pose proof (strip_zeros_byte l Hb) as Hs.
  unfold mpint_bytes in Hm. destruct (strip_zeros l) as [|b m]; [rewrite zlen_nil in Hm; lia|].
  rewrite zlen_cons in *. pose proof (zlen_nonneg m). replace (_ =? _) with false by lia. cbn [hd].
  rewrite land_128 by (by apply Forall_cons_iff in Hs as [? _]). destruct (b <? 128); cbn [negb]; rewrite !zlen_cons in Hm; [lia|].
  apply bind_err, reject_true. unfold UINT32_MAX. lia.
Qed.

(** [ssh_buffer_put_mpint_positive] writes, for any big-endian byte string
    with or without leading zeros, a length-prefixed string that denotes the
    same number and is the canonical RFC 4251 encoding of it. *)
Theorem put_mpint_canonical l storage cap :
  Forall is_byte l -> zlen l < UINT32_MAX -> 5 + zlen l <= cap <= zlen storage ->
  exists m, encode_into (ssh_buffer_put_mpint_positive (Some l) (zlen l)) storage cap =
      Ret (string_bytes m) /\
    be_value m = be_value l /\ mpint_canonical m.
Proof.
  intros Hb Hl Hc. exists (mpint_bytes l). split_and!.
  - apply emits_encode_into; [by apply emits_mpint|]. rewrite zlen_string_bytes.
    pose proof (zlen_mpint_bytes l). lia.
  - apply mpint_bytes_value.
  - by apply mpint_bytes_canonical.
Qed.

Lemma put_mpint_canonical_witness :
  encode_into (ssh_buffer_put_mpint_positive (Some [0; 0; 200; 1]) 4) (replicate 16 0) 16 =
    Ret [0; 0; 0; 3; 0; 200; 1] /\
  exists m, encode_into (ssh_buffer_put_mpint_positive (Some [0; 0; 200; 1]) 4) (replicate 16 0) 16 =
      Ret (string_bytes m) /\ be_value m = 51201 /\ mpint_canonical m.
Proof.
  split; [by vm_compute|]. apply (put_mpint_canonical [0; 0; 200; 1] (replicate 16 0) 16).
  - by apply (bool_decide_unpack _); vm_compute.
  - by vm_compute.
  - by vm_compute.
Defined.

(** *** Name lists *)

(** The items of a comma-separated list. *)
Fixpoint split_commas (l : list Z) : list (list Z) :=
  match l with
  | [] => [[]]
  | b :: l' =>
    if b =? COMMA then [] :: split_commas l'
    else match split_commas l' with t :: ts => (b :: t) :: ts | [] => [[b]] end
  end.

Definition name_ok (t : list Z) : Prop :=
  t <> [] /\ Forall (fun b => ssh_name_char_is_valid b = true) t.

(** RFC 4251 section 5: empty, or non-empty names of printable US-ASCII
    characters separated by single commas. *)
Definition name_list_ok (l : list Z) : Prop := l = [] \/ Forall name_ok (split_commas l).

Lemma split_commas_cons l : exists t ts, split_commas l = t :: ts.
Proof.
  induction l as [|b l (t & ts & E)]; cbn [split_commas]; [eauto|].
  rewrite E. case_bool; eauto.
Qed.

Lemma last_cons (b : Z) l : l <> [] -> List.last (b :: l) 0 = List.last l 0.
Proof. by destruct l. Qed.

Lemma name_list_scan_spec l :
  (name_list_scan l false = true /\ List.last l 0 <> COMMA <->
     Forall (fun b => ssh_name_char_is_valid b = true) (hd [] (split_commas l)) /\
     Forall name_ok (tl (split_commas l))) /\
  (name_list_scan l true = true /\ l <> [] /\ List.last l 0 <> COMMA <->
     Forall name_ok (split_commas l)).
Proof.
  induction l as [|b l [IHf IHt]].
  { cbn. unfold name_ok, COMMA. split; [|rewrite Forall_cons_iff]; naive_solver. }
  cbn [name_list_scan split_commas]. destruct (split_commas_cons l) as (t & ts & E).
  rewrite E in *. cbn [hd tl] in IHf. destruct (b =? COMMA) eqn:Hb.
  - apply Z.eqb_eq in Hb as ->. cbn [hd tl]. split.
    + rewrite <- IHt. destruct (decide (l = [])) as [->|Hl].
      * cbn. naive_solver.
      * rewrite last_cons by done. naive_solver.
    + rewrite Forall_cons_iff. unfold name_ok at 1. naive_solver.
  - assert (List.last (b :: l) 0 <> COMMA <-> List.last l 0 <> COMMA) as ->.
    { destruct (decide (l = [])) as [->|Hl]; [cbn; unfold COMMA in *; split; lia|].
      by rewrite last_cons. }
    cbn [hd tl]. rewrite !Forall_cons_iff. unfold name_ok at 2. rewrite Forall_cons_iff.
    destruct (ssh_name_char_is_valid b); cbn [negb]; naive_solver.
Qed.

(** [ssh_name_list_is_valid] decides the RFC 4251 name-list syntax: it
    accepts the empty list and the comma-separated lists of non-empty names of
    printable characters, and nothing else. *)
Theorem name_list_is_valid_spec l :
  ssh_name_list_is_valid (view_of l) = true <-> name_list_ok l.
Proof.
  unfold ssh_name_list_is_valid, name_list_ok. rewrite view_bytes_of. cbn [view_of view_len view_data is_null].
  destruct (zlen l =? 0) eqn:E.
  { apply Z.eqb_eq, zlen_zero_inv in E. naive_solver. }
  destruct l as [|b l]; [done|]. cbn [hd orb].
  destruct (name_list_scan_spec (b :: l)) as [Hf Ht].
  assert (name_list_scan (b :: l) true = true <-> b <> COMMA /\ name_list_scan (b :: l) false = true) as Hs.
  { cbn [name_list_scan]. destruct (Z.eqb_spec b COMMA); naive_solver. }
  destruct (Z.eqb_spec b COMMA), (Z.eqb_spec (List.last (b :: l) 0) COMMA); cbn [orb]; naive_solver.
Qed.

Lemma contains_token_scan_spec item l token :
  contains_token_scan item l token = true <->
  token = item ++ hd [] (split_commas l) \/ token ∈ tl (split_commas l).
Proof.
  revert item. induction l as [|b l IH]; intros item; cbn [contains_token_scan split_commas].
  - cbn [hd tl]. unfold bytes_eqb. rewrite bool_decide_eq_true, app_nil_r, elem_of_nil. naive_solver.
  - destruct (split_commas_cons l) as (t & ts & E). rewrite E in *. cbn [hd tl] in *.
    destruct (b =? COMMA); cbn [hd tl].
    + unfold bytes_eqb. rewrite app_nil_r, elem_of_cons.
      case_bool_decide; [naive_solver|]. rewrite IH. naive_solver.
    + rewrite IH, <- app_assoc. done.
Qed.

(** [ssh_name_list_contains_token] reports exactly whether a non-empty
    token is one of the comma-separated items of the list. *)
Theorem name_list_contains_token_spec l token :
  ssh_name_list_contains_token (view_of l) (Some token) = true <->
  token <> [] /\ token ∈ split_commas l.
Proof.
  unfold ssh_name_list_contains_token. cbn [view_of view_data view_len].
  change (mk_view (Some l) (zlen l)) with (view_of l). rewrite view_bytes_of.
  destruct (zlen token =? 0) eqn:Et.
  { apply Z.eqb_eq, zlen_zero_inv in Et. naive_solver. }
  assert (token <> []) by (intros ->; done).
  destruct (zlen l =? 0) eqn:El.
  { apply Z.eqb_eq, zlen_zero_inv in El as ->. cbn. rewrite list_elem_of_singleton. naive_solver. }
  cbn [orb]. rewrite contains_token_scan_spec.
  destruct (split_commas_cons l) as (t & ts & ->). rewrite elem_of_cons. naive_solver.
Qed.

(** ** Sequences of operations

    A client's use of a buffer: any operations in any order, going on after an
    operation that reports an error. *)
Inductive buf_op : Type :=
| PutU8 (v : Z) | PutBool (b : bool) | PutU32 (v : Z) | PutU64 (v : Z)
| PutBytes (l : list Z) | PutString (l : list Z) | PutCstring (l : list Z) | PutMpint (l : list Z)
| GetU8 | GetBool | GetU32 | GetU64 | GetBytes (n : Z) | GetString
| Reset.

#[export] Instance buf_op_eq_dec : EqDecision buf_op.
Proof. solve_decision. Defined.

(** The arguments a C caller can pass: bytes, sizes that fit [size_t], and
    sources that hold as many bytes as announced. *)
Definition op_ok (o : buf_op) : Prop :=
  match o with
  | PutU8 v => is_byte v
  | PutBytes l | PutString l | PutCstring l | PutMpint l => Forall is_byte l
  | GetBytes n => 0 <= n
  | _ => True
  end.

#[export] Instance op_ok_dec o : Decision (op_ok o).
Proof. destruct o; simpl; apply _. Defined.

Definition forget {S A} (p : Prog S A) : Prog S unit := _ ← p; mret tt.

Definition run_op (o : buf_op) : BufM unit :=
  match o with
  | PutU8 v => ssh_buffer_put_u8 v
  | PutBool b => ssh_buffer_put_bool b
  | PutU32 v => ssh_buffer_put_u32 v
  | PutU64 v => ssh_buffer_put_u64 v
  | PutBytes l => ssh_buffer_put_bytes (Some l) (zlen l)
  | PutString l => ssh_buffer_put_string (Some l) (zlen l)
  | PutCstring l => ssh_buffer_put_cstring (Some l)
  | PutMpint l => ssh_buffer_put_mpint_positive (Some l) (zlen l)
  | GetU8 => forget ssh_buffer_get_u8
  | GetBool => forget ssh_buffer_get_bool
  | GetU32 => forget ssh_buffer_get_u32
  | GetU64 => forget ssh_buffer_get_u64
  | GetBytes n => forget (ssh_buffer_get_bytes n)
  | GetString => forget ssh_buffer_get_string_view
  | Reset => fun s => (Ret tt, ssh_buffer_reset s)
  end.

Fixpoint run_ops (ops : list buf_op) (s : bufptr) : list (outcome unit) * bufptr :=
  match ops with
  | [] => ([], s)
  | o :: ops' =>
    let (r, s1) := run_op o s in
    let (rs, s2) := run_ops ops' s1 in (r :: rs, s2)
  end.

(** The buffer behind a sequence of operations. *)
Definition after (ops : list buf_op) (b : ssh_buffer) : bufptr := snd (run_ops ops (Some b)).

(** One step but a reset: no fault, the invariant kept, the capacity unchanged, bytes only
    appended, the read position only advanced. *)
Definition op_step_ok (b : ssh_buffer) (r : outcome unit) (s : bufptr) : Prop :=
  r <> Fault /\ exists b', s = Some b' /\ buf_wf b' /\ buf_capacity b' = buf_capacity b /\
    written (Some b) `prefix_of` written (Some b') /\ buf_pos b <= buf_pos b'.

Lemma written_Bf w u f cap : written (Some (Bf w u f cap)) = w ++ u.
Proof. unfold written, Bf. simpl. rewrite <- zlen_app, app_assoc. apply ztake_app. Qed.

Lemma emits_step p bs b :
  emits p bs -> buf_wf b -> op_step_ok b (fst (p (Some b))) (snd (p (Some b))).
Proof.
  intros Hp (w & u & f & cap & -> & Hr & Hb)%buf_wf_Bf.
  assert (exists r k, k `prefix_of` bs /\ r <> Fault /\ zlen w + zlen u + zlen k <= cap /\
    p (Some (Bf w u f cap)) = (r, Some (Bf w (u ++ k) (zdrop (zlen k) f) cap)))
    as (r & k & [k' ->] & Hf & Hk & ->).
  { destruct (Z.le_gt_cases (zlen w + zlen u + zlen bs) cap) as [H|H].
    - exists (Ret tt), bs. rewrite (emits_fits _ _ Hp) by done. done.
    - destruct (emits_overflow _ _ Hp _ _ _ _ Hr H) as (k & Hk & Hl & E).
      exists (Err SSH_ERR_BUFFER_OVERFLOW), k. done. }
  split; [done|]. exists (Bf w (u ++ k) (zdrop (zlen k) f) cap). split_and!; try done.
  - apply buf_wf_Bf. do 4 eexists. split_and!; [done|by apply room_ok_snoc|].
    apply emits_bytes, Forall_app in Hp as [??].
    apply Forall_app in Hb as [? [??]%Forall_app].
    rewrite !Forall_app. split_and!; try done. by apply Forall_drop.
  - cbn [snd]. rewrite !written_Bf, app_assoc. by apply prefix_app_r.
Qed.

Lemma decodes_step {A} (g : BufM A) Q b :
  decodes g Q -> buf_wf b -> op_step_ok b (fst (forget g (Some b))) (snd (forget g (Some b))).
Proof.
  intros Hg (w & u & f & cap & -> & Hr & Hb)%buf_wf_Bf.
  apply Forall_app in Hb as [Hw [Hu Hf]%Forall_app].
  destruct (Hg w u f cap Hu) as (o & u1 & u2 & -> & E & Ho).
  assert (forget g (Some (Bf w (u1 ++ u2) f cap)) =
    (match o with Ret _ => Ret tt | Err e => Err e | Fault => Fault end,
     Some (Bf (w ++ u1) u2 f cap))) as ->.
  { unfold forget. destruct o; [by erewrite bind_ret|by erewrite bind_err|done]. }
  split; [by destruct o|]. exists (Bf (w ++ u1) u2 f cap). split_and!; try done.
  - apply buf_wf_Bf. do 4 eexists. split_and!; [done|unfold room_ok in *; len_lia|].
    apply Forall_app in Hu as [??]. rewrite !Forall_app. done.
  - cbn [snd]. rewrite !written_Bf, app_assoc. done.
  - cbn [buf_pos Bf]. pose proof (zlen_nonneg u1). len_lia.
Qed.

Lemma op_step_refl b e : buf_wf b -> op_step_ok b (Err e) (Some b).
Proof. intros. split; [done|]. exists b. split_and!; done. Qed.

Lemma put_string_step l b :
  Forall is_byte l -> buf_wf b ->
  op_step_ok b (fst (run_op (PutString l) (Some b))) (snd (run_op (PutString l) (Some b))).
Proof.
  intros Hl Hb. destruct (Z.le_gt_cases (zlen l) UINT32_MAX) as [H|H].
  - eapply emits_step; [by apply emits_string|done].
  - cbn [run_op]. unfold ssh_buffer_put_string.
    erewrite bind_err by (apply reject_true; lia). by apply op_step_refl.
Qed.

Lemma put_mpint_step l b :
  Forall is_byte l -> buf_wf b ->
  op_step_ok b (fst (run_op (PutMpint l) (Some b))) (snd (run_op (PutMpint l) (Some b))).
Proof.
  intros Hl Hb. cbn [run_op]. destruct (Z.le_gt_cases (zlen l) UINT32_MAX) as [H|H].
  - destruct (Z.le_gt_cases (zlen (mpint_bytes l)) UINT32_MAX) as [Hm|Hm].
    + eapply emits_step; [by apply emits_mpint_encodable|done].
    + apply op_step_refl with (e := SSH_ERR_INVALID_ARGUMENT) in Hb as Hr. apply buf_wf_Bf in Hb as (w & u & f & cap & -> & _).
      by rewrite mpint_too_long.
  - apply op_step_refl with (e := SSH_ERR_INVALID_ARGUMENT) in Hb as Hr. apply buf_wf_Bf in Hb as (w & u & f & cap & -> & _).
    unfold ssh_buffer_put_mpint_positive. rewrite (bind_ret _ _ _ _ _ (require_live_Bf _ _ _ _)).
    erewrite bind_err by (apply reject_true; cbn; lia). exact Hr.
Qed.

Lemma run_op_step o b :
  op_ok o -> o <> Reset -> buf_wf b -> op_step_ok b (fst (run_op o (Some b))) (snd (run_op o (Some b))).
Proof.
  destruct o; cbn [op_ok]; intros Ho Hne Hb;
    first
      [ by apply put_string_step
      | by apply put_mpint_step
      | solve [eapply emits_step; [|done]; cbn [run_op]; eauto with emssh]
      | solve [eapply decodes_step; [|done]; eauto using decodes_u8, decodes_bool, decodes_u32,
          decodes_u64, decodes_get_bytes, decodes_string]
      | done ].
Qed.

(** A reset keeps the storage and forgets what is in it. *)
Lemma reset_wf b :
  buf_wf b -> exists b', ssh_buffer_reset (Some b) = Some b' /\ buf_wf b' /\ buf_capacity b' = buf_capacity b /\
    written (Some b') = [] /\ buf_pos b' = 0.
Proof.
  intros (w & u & f & cap & -> & Hr & Hb)%buf_wf_Bf. exists (Bf [] [] (w ++ u ++ f) cap). split_and!; [done| |done..].
  apply buf_wf_Bf. do 4 eexists. split_and!; [done| |done]. unfold room_ok in *. rewrite !zlen_app in *. rewrite !(zlen_nil (A:=Z)). pose proof (zlen_nonneg w). pose proof (zlen_nonneg u). lia.
Qed.

(** Any operation: no fault, the invariant and the capacity kept. *)
Lemma run_op_wf o b :
  op_ok o -> buf_wf b ->
  fst (run_op o (Some b)) <> Fault /\ exists b', snd (run_op o (Some b)) = Some b' /\ buf_wf b' /\ buf_capacity b' = buf_capacity b.
Proof.
  intros Ho Hb. destruct (decide (o = Reset)) as [->|Hne].
  - destruct (reset_wf b Hb) as (b' & ? & ? & ? & _). split; [done|]. by exists b'.
  - destruct (run_op_step o b Ho Hne Hb) as (? & b' & ? & ? & ? & _). split; [done|]. by exists b'.
Qed.

Lemma after_cons o ops b b1 : snd (run_op o (Some b)) = Some b1 -> after (o :: ops) b = after ops b1.
Proof. intros E. unfold after. cbn [run_ops]. destruct (run_op o (Some b)) as [r s1]. cbn in E. subst s1. by destruct (run_ops ops (Some b1)). Qed.

Lemma run_ops_wf ops b :
  buf_wf b -> Forall op_ok ops ->
  Forall (fun r => r <> Fault) (fst (run_ops ops (Some b))) /\
  exists b', after ops b = Some b' /\ buf_wf b' /\ buf_capacity b' = buf_capacity b.
Proof.
  intros Hb Hops. revert b Hb. induction Hops as [|o ops Ho _ IH]; intros b Hb; [split; [constructor|by exists b]|].
  destruct (run_op_wf o b Ho Hb) as (Hf & b1 & E & Hb1 & Hc). destruct (IH b1 Hb1) as (Hfs & b2 & E2 & Hb2 & Hc2). split.
  - cbn [run_ops]. destruct (run_op o (Some b)) as [r s1]. cbn in Hf, E. subst s1. destruct (run_ops ops (Some b1)). by constructor.
  - exists b2. rewrite (after_cons _ _ _ _ E). split_and!; [done|done|congruence].
Qed.

Lemma after_app ops1 ops2 b b1 : after ops1 b = Some b1 -> after (ops1 ++ ops2) b = after ops2 b1.
Proof.
  unfold after. generalize (Some b) as s. induction ops1 as [|o ops1 IH]; intros s; cbn [run_ops app]; [by cbn; intros ->|].
  destruct (run_op o s) as [r s1]. specialize (IH s1). destruct (run_ops ops1 s1), (run_ops (ops1 ++ ops2) s1). apply IH.
Qed.

(** Without a reset the contents only grow. *)
Lemma run_ops_grow ops b b' :
  buf_wf b -> Forall op_ok ops -> Reset ∉ ops -> after ops b = Some b' ->
  written (Some b) `prefix_of` written (Some b') /\ buf_pos b <= buf_pos b'.
Proof.
  intros Hb Hops. revert b Hb. induction Hops as [|o ops Ho _ IH]; intros b Hb; [by intros _ [= ->]|].
  intros [Hne Hnot]%not_elem_of_cons. destruct (run_op_step o b Ho (not_eq_sym Hne) Hb) as (_ & b1 & E & Hb1 & _ & Hw & Hp).
  rewrite (after_cons _ _ _ _ E). intros E2. destruct (IH b1 Hb1 Hnot E2) as [Hw2 Hp2]. split; [by etrans|lia].
Qed.

(** ** Properties of sequences *)

(** C37: whatever writers, readers and resets are run on a well-formed buffer, in any
    order and going on after errors, no access falls outside the storage, the invariant
    [pos <= len <= capacity <= size of the storage] holds again afterwards and the
    capacity is unchanged; from any point to the end, if there is no reset in between,
    the bytes already written are not altered and the read position does not move back;
    and a reset leaves the buffer empty. *)
Theorem buffer_ops_safe ops b :
  buf_wf b -> Forall op_ok ops ->
  Forall (fun r => r <> Fault) (fst (run_ops ops (Some b))) /\
  exists b', after ops b = Some b' /\ buf_wf b' /\ buf_capacity b' = buf_capacity b /\
    (forall ops1 ops2, ops = ops1 ++ ops2 -> Reset ∉ ops2 -> exists b1, after ops1 b = Some b1 /\
       written (Some b1) `prefix_of` written (Some b') /\ buf_pos b1 <= buf_pos b') /\
    (forall ops1, ops = ops1 ++ [Reset] -> written (Some b') = [] /\ buf_pos b' = 0).
Proof.
  intros Hb Hops. destruct (run_ops_wf ops b Hb Hops) as (Hf & b' & E & Hb' & Hc). split; [done|]. exists b'. split_and!; try done.
  - intros ops1 ops2 -> Hr. apply Forall_app in Hops as [H1 H2]. destruct (run_ops_wf ops1 b Hb H1) as (_ & b1 & E1 & Hb1 & _).
    exists b1. split; [done|]. rewrite (after_app _ _ _ _ E1) in E. by eapply run_ops_grow.
  - intros ops1 ->. apply Forall_app in Hops as [H1 _]. destruct (run_ops_wf ops1 b Hb H1) as (_ & b1 & E1 & Hb1 & _).
    rewrite (after_app _ _ _ _ E1) in E. destruct (reset_wf b1 Hb1) as (b2 & Er & _ & _ & Hw & Hp).
    unfold after in E. cbn [run_ops run_op] in E. rewrite Er in E. cbn in E. by injection E as <-.
Qed.

Definition demo_ops : list buf_op := [PutU32 7; Reset; PutMpint [0; 200]; PutU8 1; GetU32; GetBool; PutU64 5].

Lemma buffer_ops_safe_witness :
  fst (run_ops demo_ops (Some (mk_ssh_buffer (Some (replicate 12 0)) 12 0 0))) =
    [Ret tt; Ret tt; Ret tt; Ret tt; Ret tt; Ret tt; Err SSH_ERR_BUFFER_OVERFLOW] /\
  exists b', after demo_ops (mk_ssh_buffer (Some (replicate 12 0)) 12 0 0) = Some b' /\ buf_wf b' /\
    [0; 0; 0; 2; 0; 200] `prefix_of` written (Some b').
Proof.
  split; [by vm_compute|].
  destruct (buffer_ops_safe demo_ops (mk_ssh_buffer (Some (replicate 12 0)) 12 0 0)) as (_ & b' & E & Hb & _ & Hgrow & _).
  - exists (replicate 12 0). split_and!; [done|by apply (bool_decide_unpack _); vm_compute|done..].
  - by apply (bool_decide_unpack _); vm_compute.
  - exists b'. split_and!; [done|done|].
    destruct (Hgrow (take 3 demo_ops) (drop 3 demo_ops)) as (b1 & E1 & Hw & _);
      [done|by apply (bool_decide_unpack _); vm_compute|].
    vm_compute in E1. injection E1 as <-. exact Hw.
Defined.
