(* ===== verification/Platform.v ===== *)
(** * Configuration and platform interfaces

    The compile-time limits of include/emssh/ssh_config.h and ssh_crypto.h and
    the crypto and random-number interfaces the protocol code calls through
    function pointers ([ssh_crypto_api_t], [ssh_rng_api_t]).  The functions
    behind the pointers are code of the backends (mbedTLS, OpenSSL, wolfSSL):
    here they are the fields of a record, so every theorem holds for all of
    them, and what a theorem needs of them is one of the classes at the end.
    A field is [None] when the pointer is null. *)

From S2P Require Import Prelude Buffer.

(** ** Limits *)
Definition EMSSH_MAX_PACKET_SIZE : Z := 35000.
Definition EMSSH_MAX_PAYLOAD_SIZE : Z := 32768.
Definition EMSSH_MAX_KEX_PUBLIC_KEY : Z := 256.
Definition EMSSH_MAX_KEX_PRIVATE_KEY : Z := 256.
Definition EMSSH_MAX_KEX_SHARED_SECRET : Z := 512.
Definition EMSSH_MAX_HOST_KEY_BLOB : Z := 512.
Definition EMSSH_MAX_SIGNATURE : Z := 512.
Definition EMSSH_MAX_EXCHANGE_HASH : Z := 64.
Definition EMSSH_MAX_CIPHER_KEY : Z := 64.
Definition EMSSH_MAX_CIPHER_IV : Z := 32.
Definition EMSSH_MAX_MAC_KEY : Z := 64.
Definition EMSSH_MAX_MAC : Z := 64.

(** ** Callbacks *)
Inductive ssh_cipher_direction : Type := SSH_CIPHER_ENCRYPT | SSH_CIPHER_DECRYPT.

(** [fill] of [ssh_rng_api_t], by the number of bytes asked: the status and the bytes
    written. *)
Definition rng_fill_fn : Type := Z -> ssh_status * list Z.

(** Algorithm, key, IV, sequence number, direction, and the data transformed
    in place. *)
Definition cipher_crypt_fn : Type :=
  ssh_string_view -> list Z -> list Z -> Z -> ssh_cipher_direction -> list Z -> ssh_status * list Z.

(** Algorithm, key, sequence number, data; the MAC written (its length is
    [*mac_len]). *)
Definition mac_compute_fn : Type :=
  ssh_string_view -> list Z -> Z -> list Z -> ssh_status * list Z.

(** Algorithm, key blob, signed data, signature. *)
Definition publickey_verify_fn : Type :=
  ssh_string_view -> list Z -> list Z -> list Z -> ssh_status.

(** The entries of [ssh_crypto_api_t] that the modelled components call. *)
Record ssh_crypto_api : Type := mk_crypto {
  cipher_crypt : option cipher_crypt_fn;
  mac_compute : option mac_compute_fn;
  publickey_verify : option publickey_verify_fn
}.

(** ** What the packet layer relies on

    [StreamCipher f]: the cipher succeeds, keeps the length and the byte range
    of the data, and each direction undoes the other for the same key, IV and
    sequence number (counter-mode ciphers, the only kind negotiated). *)
Class StreamCipher (f : cipher_crypt_fn) : Prop := {
  cipher_total alg key iv seq dir d : fst (f alg key iv seq dir d) = SSH_OK;
  cipher_length alg key iv seq dir d : zlen (snd (f alg key iv seq dir d)) = zlen d;
  cipher_byte alg key iv seq dir d :
    Forall is_byte d -> Forall is_byte (snd (f alg key iv seq dir d));
  cipher_dec_enc alg key iv seq d :
    Forall is_byte d ->
    snd (f alg key iv seq SSH_CIPHER_DECRYPT (snd (f alg key iv seq SSH_CIPHER_ENCRYPT d))) = d;
  cipher_enc_dec alg key iv seq d :
    Forall is_byte d ->
    snd (f alg key iv seq SSH_CIPHER_ENCRYPT (snd (f alg key iv seq SSH_CIPHER_DECRYPT d))) = d
}.

(** [InPlaceCipher f]: the cipher works in place on the data it is given, whether it
    succeeds or not. *)
Class InPlaceCipher (f : cipher_crypt_fn) : Prop :=
  cipher_in_place alg key iv seq dir d : zlen (snd (f alg key iv seq dir d)) = zlen d.

#[export] Instance stream_in_place f : StreamCipher f -> InPlaceCipher f.
Proof. intros H alg key iv seq dir d. apply cipher_length. Qed.

(** A counter-mode cipher treats every byte at its own position: a prefix can be
    decrypted alone, as the receiver does to learn a packet's length. *)
Class PrefixCipher (f : cipher_crypt_fn) : Prop :=
  cipher_prefix alg key iv seq dir d n :
    snd (f alg key iv seq dir (ztake n d)) = ztake n (snd (f alg key iv seq dir d)).

(** [MacOk f n]: the MAC function succeeds and writes [n] bytes. *)
Class MacOk (f : mac_compute_fn) (n : Z) : Prop := {
  mac_total alg key seq d : fst (f alg key seq d) = SSH_OK;
  mac_length alg key seq d : zlen (snd (f alg key seq d)) = n;
  mac_byte alg key seq d : Forall is_byte (snd (f alg key seq d))
}.

(** [RngOk f]: the generator succeeds and writes as many bytes as asked. *)
Class RngOk (f : rng_fill_fn) : Prop := {
  rng_total n : fst (f n) = SSH_OK;
  rng_length n : 0 <= n -> zlen (snd (f n)) = n;
  rng_byte n : Forall is_byte (snd (f n))
}.

(** ** Concrete callbacks

    The stand-ins of tests/test_packet.c in spirit: an XOR stream keyed by key,
    IV and sequence number, an additive checksum repeated [n] times, and a
    counting generator.  They show that the classes above can be met. *)
Definition xor_pad (key iv : list Z) (seq : Z) : Z :=
  Z.lxor (Z.lxor (hd 0 key mod 256) (hd 0 iv mod 256)) (seq mod 256).
Definition xor_cipher : cipher_crypt_fn := fun _ key iv seq _ d =>
  (SSH_OK, map (fun b => Z.lxor b (xor_pad key iv seq)) d).
Definition sum_mac (n : nat) : mac_compute_fn := fun _ key seq d =>
  (SSH_OK, replicate n ((hd 0 key + seq + fold_right Z.add 0 d) mod 256)).
Definition count_rng : rng_fill_fn := fun n => (SSH_OK, replicate (Z.to_nat n) 165).

Lemma lxor_byte a b : is_byte a -> is_byte b -> is_byte (Z.lxor a b).
Proof.
  unfold is_byte. intros Ha Hb.
  assert (0 <= Z.lxor a b) by (apply Z.lxor_nonneg; lia). split; [done|].
  destruct (Z.eq_dec (Z.lxor a b) 0) as [->|Hn]; [lia|].
  change 256 with (2 ^ 8). apply Z.log2_lt_pow2; [lia|].
  pose proof (Z.log2_lxor a b ltac:(lia) ltac:(lia)).
  assert (forall x, 0 <= x < 256 -> Z.log2 x < 8) as Hlog.
  { intros x Hx. destruct (Z.eq_dec x 0) as [->|]; [done|]. apply Z.log2_lt_pow2; lia. }
  pose proof (Hlog a Ha). pose proof (Hlog b Hb). lia.
Qed.

Lemma xor_pad_byte key iv seq : is_byte (xor_pad key iv seq).
Proof. unfold xor_pad. repeat apply lxor_byte; apply Z.mod_pos_bound; lia. Qed.

#[export] Instance xor_cipher_stream : StreamCipher xor_cipher.
Proof.
  assert (forall key iv seq d, map (fun b => Z.lxor b (xor_pad key iv seq))
    (map (fun b => Z.lxor b (xor_pad key iv seq)) d) = d) as Hinv.
  { intros. rewrite map_map. induction d as [|b d IH]; [done|]. cbn [map]. f_equal; [|exact IH].
    by rewrite Z.lxor_assoc, Z.lxor_nilpotent, Z.lxor_0_r. }
  split; intros; unfold xor_cipher; cbn [fst snd]; [done|..|apply Hinv|apply Hinv].
  - unfold zlen. by rewrite length_map.
  - apply Forall_map. eapply Forall_impl; [|eassumption].
    intros b Hb. by apply lxor_byte, xor_pad_byte.
Qed.

#[export] Instance sum_mac_ok n : MacOk (sum_mac n) (Z.of_nat n).
Proof.
  split; intros; unfold sum_mac; cbn [fst snd]; [done|unfold zlen; by rewrite length_replicate|].
  apply Forall_replicate. apply Z.mod_pos_bound. lia.
Qed.

#[export] Instance count_rng_ok : RngOk count_rng.
Proof.
  split; intros; unfold count_rng; cbn [fst snd]; [done|unfold zlen; rewrite length_replicate; lia|].
  apply Forall_replicate. done.
Qed.

#[export] Instance xor_prefix : PrefixCipher xor_cipher.
Proof. intros alg key iv seq dir d n. unfold xor_cipher, ztake. cbn [snd]. by rewrite firstn_map. Qed.
