(* ===== verification/Packet.v ===== *)
(** * Binary packets: src/core/ssh_packet.c

    Padding, the plain packet codec, the MAC comparison, the counter of the
    counter-mode cipher and the protected packet codec with its state
    [ssh_packet_protection_t].  The output memory of the encoders and the packet
    the decoders work on in place are part of the state, so that what a failing
    decoder leaves behind is visible.  Sizes are [size_t] with its wrap-around
    written out ([u64]) where the source adds without a check. *)

From S2P Require Import Prelude Buffer Platform.

(** ** Padding *)
Definition SSH_PACKET_MIN_PADDING : Z := 4.
Definition SSH_PACKET_MIN_BLOCK_SIZE : Z := 8.

Definition normalized_block_size (block_size : Z) : Z :=
  if block_size <? SSH_PACKET_MIN_BLOCK_SIZE then SSH_PACKET_MIN_BLOCK_SIZE else block_size.

(** [while (padding_len < SSH_PACKET_MIN_PADDING) padding_len += block_size;]
    with a bound on the iterations; [None] when it is not enough. *)
Fixpoint pad_loop (fuel : nat) (padding_len block_size : Z) : option Z :=
  if padding_len <? SSH_PACKET_MIN_PADDING then
    match fuel with
    | O => None
    | S fuel' => pad_loop fuel' (u64 (padding_len + block_size)) block_size
    end
  else Some padding_len.

(** One iteration is always enough ([pad_loop_total]). *)
Definition ssh_packet_padding_len (payload_len block_size : Z) : Z :=
  let block_size := normalized_block_size block_size in
  let total_without_padding := u64 (4 + 1 + payload_len) in
  let padding_len := block_size - total_without_padding mod block_size in
  let padding_len := if padding_len =? block_size then 0 else padding_len in
  default 0 (pad_loop 1 padding_len block_size).

Definition ssh_packet_encoded_len (payload_len block_size : Z) : Z :=
  u64 (4 + 1 + payload_len + ssh_packet_padding_len payload_len block_size).

(** ** Plain packets *)
Record ssh_packet_view : Type := mk_packet_view {
  payload : list Z;
  payload_len : Z
}.

(** Memory behind an output pointer ([None]: null). *)
Abbreviation OutM := (Prog (option (list Z))).

(** [ssh_buffer_init(&writer, out, out_capacity)] and a writer's work on it. *)
Definition with_writer {A} (capacity : Z) (p : BufM A) : OutM A := fun out =>
  let '(o, s) := p (ssh_buffer_init uninit_buffer out capacity) in
  (o, ssh_buffer_data s).

(** The padding: [rng->fill] when there is a generator, zeros otherwise. *)
Definition put_padding (rng : option rng_fill_fn) (padding_len : Z) : BufM unit :=
  match rng with
  | Some fill =>
    let '(status, bytes) := fill padding_len in
    reject (negb (bool_decide (status = SSH_OK))) SSH_ERR_PLATFORM;;
    store bytes
  | None => store (replicate (Z.to_nat padding_len) 0)
  end.

Definition ssh_packet_encode_plain (out_capacity : Z) (payload : option (list Z))
    (payload_len block_size : Z) (rng : option rng_fill_fn) : OutM Z := fun out =>
  (reject (is_null out || (is_null payload && negb (payload_len =? 0))) SSH_ERR_INVALID_ARGUMENT;;
   reject (payload_len >? EMSSH_MAX_PAYLOAD_SIZE) SSH_ERR_MALFORMED_PACKET;;
   let padding_len := ssh_packet_padding_len payload_len block_size in
   let encoded_len := u64 (4 + 1 + payload_len + padding_len) in
   reject (encoded_len >? out_capacity) SSH_ERR_BUFFER_TOO_SMALL;;
   let packet_length := u32 (1 + payload_len + padding_len) in
   with_writer out_capacity
     (ssh_buffer_put_u32 packet_length;;
      ssh_buffer_put_u8 (u8 padding_len);;
      ssh_buffer_put_bytes payload payload_len;;
      (if negb (padding_len =? 0) then put_padding rng padding_len else mret tt);;
      writer ← get_state;
      mret (ssh_buffer_len writer))) out.

Definition ssh_packet_decode_plain (packet : option (list Z)) (packet_len : Z)
    : outcome ssh_packet_view :=
  match packet with
  | None => Err SSH_ERR_INVALID_ARGUMENT
  | Some mem =>
    if packet_len <? 4 + 1 + SSH_PACKET_MIN_PADDING then Err SSH_ERR_MALFORMED_PACKET else
    if packet_len >? EMSSH_MAX_PACKET_SIZE + 4 then Err SSH_ERR_MALFORMED_PACKET else
    fst ((packet_length ← ssh_buffer_get_u32;
          reject (negb (packet_length + 4 =? packet_len)) SSH_ERR_MALFORMED_PACKET;;
          padding_len ← ssh_buffer_get_u8;
          reject (padding_len <? SSH_PACKET_MIN_PADDING) SSH_ERR_MALFORMED_PACKET;;
          reject (padding_len + 1 >? packet_length) SSH_ERR_MALFORMED_PACKET;;
          let n := packet_length - 1 - padding_len in
          match mem_read mem 5 n with
          | Some bs => mret (mk_packet_view bs n)
          | None => fault
          end)
         (ssh_buffer_wrap uninit_buffer packet packet_len))
  end.

(** ** MAC comparison and counter *)

(** The accumulating loop over [len] byte pairs; [None] when an array is shorter. *)
Fixpoint mac_diff (a b : list Z) (len : nat) (diff : Z) {struct len} : option Z :=
  match len with
  | O => Some diff
  | S n =>
    match a, b with
    | x :: a', y :: b' => mac_diff a' b' n (Z.lor diff (u8 (Z.lxor x y)))
    | _, _ => None
    end
  end.

Definition mac_matches (a b : list Z) (len : Z) : option bool :=
  diff ← mac_diff a b (Z.to_nat len) 0; Some (diff =? 0).

(** One round of the inner [for] loop of [advance_counter_be], from the last
    byte towards the first while bytes wrap to zero; the flag says whether it
    ran off the front. *)
Fixpoint increment_be (counter : list Z) : list Z * bool :=
  match counter with
  | [] => ([], true)
  | b :: rest =>
    let '(rest', carry) := increment_be rest in
    if carry then let b' := u8 (b + 1) in (b' :: rest', b' =? 0) else (b :: rest', false)
  end.

(** The counter is the first [counter_len] bytes of its array. *)
Definition advance_counter_be (counter : list Z) (counter_len blocks : Z) : list Z :=
  if counter_len =? 0 then counter else
  Nat.iter (Z.to_nat blocks) (fun c => fst (increment_be (ztake counter_len c)) ++ zdrop counter_len c)
    counter.

(** ** Protected packets *)
Record ssh_packet_protection : Type := mk_protection {
  prot_crypto : option ssh_crypto_api;
  prot_cipher_algorithm : ssh_string_view;
  prot_mac_algorithm : ssh_string_view;
  prot_cipher_key : list Z;
  prot_cipher_key_len : Z;
  prot_cipher_iv : list Z;
  prot_cipher_iv_len : Z;
  prot_mac_key : list Z;
  prot_mac_key_len : Z;
  prot_block_size : Z;
  prot_mac_len : Z;
  prot_sequence : Z;
  prot_active : bool
}.

Definition with_iv (iv : list Z) (p : ssh_packet_protection) : ssh_packet_protection :=
  mk_protection (prot_crypto p) (prot_cipher_algorithm p) (prot_mac_algorithm p)
    (prot_cipher_key p) (prot_cipher_key_len p) iv (prot_cipher_iv_len p)
    (prot_mac_key p) (prot_mac_key_len p) (prot_block_size p) (prot_mac_len p)
    (prot_sequence p) (prot_active p).

Definition with_sequence (seq : Z) (p : ssh_packet_protection) : ssh_packet_protection :=
  mk_protection (prot_crypto p) (prot_cipher_algorithm p) (prot_mac_algorithm p)
    (prot_cipher_key p) (prot_cipher_key_len p) (prot_cipher_iv p) (prot_cipher_iv_len p)
    (prot_mac_key p) (prot_mac_key_len p) (prot_block_size p) (prot_mac_len p)
    seq (prot_active p).

Definition zeros (n : Z) : list Z := replicate (Z.to_nat n) 0.

Lemma zlen_zeros n : 0 <= n -> zlen (zeros n) = n.
Proof. intros. unfold zeros, zlen. rewrite length_replicate. lia. Qed.

(** [cipher_iv] after [data_len] bytes went through the cipher. *)
Definition advance_stream_position (p : ssh_packet_protection) (data_len : Z)
    : ssh_packet_protection :=
  if (prot_cipher_iv_len p =? 0) || (data_len =? 0) then p else
  let block_len := prot_cipher_iv_len p in
  let blocks := u64 (u64 (data_len + block_len) - 1) / block_len in
  with_iv (advance_counter_be (prot_cipher_iv p) (prot_cipher_iv_len p) blocks) p.

Definition ssh_packet_protection_init : ssh_packet_protection :=
  mk_protection None null_view null_view (zeros EMSSH_MAX_CIPHER_KEY) 0
    (zeros EMSSH_MAX_CIPHER_IV) 0 (zeros EMSSH_MAX_MAC_KEY) 0
    SSH_PACKET_MIN_BLOCK_SIZE 0 0 false.

(** [memcpy(array, src, n)] into a zeroed array of [size] bytes. *)
Definition fill_array (size : Z) (src : list Z) (n : Z) : option (list Z) :=
  bs ← mem_read src 0 n; mem_write (zeros size) 0 bs.

Definition ssh_packet_protection_set (crypto : option ssh_crypto_api)
    (cipher_algorithm mac_algorithm : ssh_string_view)
    (cipher_key : option (list Z)) (cipher_key_len : Z)
    (cipher_iv : option (list Z)) (cipher_iv_len : Z)
    (mac_key : option (list Z)) (mac_key_len : Z)
    (block_size mac_len : Z) : Prog ssh_packet_protection unit :=
  match crypto with
  | None => fail SSH_ERR_INVALID_ARGUMENT
  | Some api =>
    reject (is_null (cipher_crypt api) || is_null (mac_compute api)
            || (is_null cipher_key && negb (cipher_key_len =? 0))
            || (is_null cipher_iv && negb (cipher_iv_len =? 0))
            || (is_null mac_key && negb (mac_key_len =? 0))) SSH_ERR_INVALID_ARGUMENT;;
    reject ((cipher_key_len =? 0) || (cipher_key_len >? EMSSH_MAX_CIPHER_KEY)
            || (cipher_iv_len >? EMSSH_MAX_CIPHER_IV)
            || (mac_key_len =? 0) || (mac_key_len >? EMSSH_MAX_MAC_KEY)
            || (mac_len =? 0) || (mac_len >? EMSSH_MAX_MAC)) SSH_ERR_INVALID_ARGUMENT;;
    match fill_array EMSSH_MAX_CIPHER_KEY (default [] cipher_key) cipher_key_len,
          fill_array EMSSH_MAX_CIPHER_IV (default [] cipher_iv) cipher_iv_len,
          fill_array EMSSH_MAX_MAC_KEY (default [] mac_key) mac_key_len with
    | Some key, Some iv, Some mkey =>
      put_state (mk_protection crypto cipher_algorithm mac_algorithm key cipher_key_len
        iv cipher_iv_len mkey mac_key_len (normalized_block_size block_size) mac_len 0 true)
    | _, _, _ => fault
    end
  end.

(** *** The state of the protected codec: the protection and the memory of the
    packet. *)
Record packet_io : Type := mk_packet_io { io_prot : ssh_packet_protection; io_mem : option (list Z) }.
Abbreviation PktM := (Prog packet_io).

Definition on_mem {A} (p : OutM A) : PktM A := fun s =>
  let '(o, m) := p (io_mem s) in (o, mk_packet_io (io_prot s) m).
Definition get_prot : PktM ssh_packet_protection := fun s => (Ret (io_prot s), s).
Definition set_prot (p : ssh_packet_protection) : PktM unit := fun s =>
  (Ret tt, mk_packet_io p (io_mem s)).

(** [len] bytes of the packet memory from [off]; a store of [bs] at [off]. *)
Definition mem_get (off len : Z) : PktM (list Z) := fun s =>
  match io_mem s with
  | Some m => match mem_read m off len with Some bs => (Ret bs, s) | None => (Fault, s) end
  | None => (Fault, s)
  end.
Definition mem_set (off : Z) (bs : list Z) : PktM unit := fun s =>
  match io_mem s with
  | Some m =>
    match mem_write m off bs with
    | Some m' => (Ret tt, mk_packet_io (io_prot s) (Some m'))
    | None => (Fault, s)
    end
  | None => (Fault, s)
  end.

(** [protection->crypto->mac_compute(...)] over the first [len] bytes. *)
Definition call_mac (len : Z) : PktM (ssh_status * list Z) :=
  p ← get_prot;
  d ← mem_get 0 len;
  match prot_crypto p with
  | Some api =>
    match mac_compute api with
    | Some f => mret (f (prot_mac_algorithm p) (ztake (prot_mac_key_len p) (prot_mac_key p))
                        (prot_sequence p) d)
    | None => fault
    end
  | None => fault
  end.

(** [protection->crypto->cipher_crypt(...)] in place on the first [len] bytes,
    with the given IV. *)
Definition call_cipher (iv : list Z) (dir : ssh_cipher_direction) (len : Z) : PktM ssh_status :=
  p ← get_prot;
  d ← mem_get 0 len;
  match prot_crypto p with
  | Some api =>
    match cipher_crypt api with
    | Some f =>
      let '(status, d') := f (prot_cipher_algorithm p)
        (ztake (prot_cipher_key_len p) (prot_cipher_key p))
        (ztake (prot_cipher_iv_len p) iv) (prot_sequence p) dir d in
      mem_set 0 d';; mret status
    | None => fault
    end
  | None => fault
  end.

Definition status_bad (s : ssh_status) : bool := negb (bool_decide (s = SSH_OK)).

Definition ssh_packet_encode_protected (out_capacity : Z) (payload : option (list Z))
    (payload_len : Z) (rng : option rng_fill_fn) : PktM Z :=
  p ← get_prot;
  s ← get_state;
  reject (negb (prot_active p) || is_null (io_mem s)) SSH_ERR_INVALID_ARGUMENT;;
  packet_len ← on_mem (ssh_packet_encode_plain out_capacity payload payload_len
                         (prot_block_size p) rng);
  reject (u64 (packet_len + prot_mac_len p) >? out_capacity) SSH_ERR_BUFFER_TOO_SMALL;;
  mac_result ← call_mac packet_len;
  let '(status, mac) := mac_result in
  reject (status_bad status || negb (zlen mac =? prot_mac_len p)) SSH_ERR_PLATFORM;;
  status ← call_cipher (prot_cipher_iv p) SSH_CIPHER_ENCRYPT packet_len;
  reject (status_bad status) SSH_ERR_PLATFORM;;
  set_prot (advance_stream_position p packet_len);;
  mem_set packet_len mac;;
  p' ← get_prot;
  set_prot (with_sequence (u32 (prot_sequence p' + 1)) p');;
  mret (packet_len + zlen mac).

(** The four bytes at the front of the packet as the source combines them. *)
Definition packet_length_field (d : list Z) : Z :=
  Z.lor (Z.lor (Z.lor (Z.shiftl (byte_at d 0) 24) (Z.shiftl (byte_at d 1) 16))
               (Z.shiftl (byte_at d 2) 8)) (byte_at d 3).

(** Re-encrypt with the saved IV, then [return status]. *)
Definition restore_and_fail {A} (original_iv : list Z) (encrypted_len : Z) (status : ssh_status)
    : PktM A :=
  call_cipher original_iv SSH_CIPHER_ENCRYPT encrypted_len;; fail status.

Definition ssh_packet_decode_protected (packet_len : Z) : PktM ssh_packet_view :=
  p ← get_prot;
  s ← get_state;
  reject (negb (prot_active p) || is_null (io_mem s)) SSH_ERR_INVALID_ARGUMENT;;
  reject ((packet_len <=? prot_mac_len p) || (prot_mac_len p >? EMSSH_MAX_MAC))
    SSH_ERR_MALFORMED_PACKET;;
  let encrypted_len := packet_len - prot_mac_len p in
  reject ((encrypted_len <? prot_block_size p)
          || negb (encrypted_len mod prot_block_size p =? 0)) SSH_ERR_MALFORMED_PACKET;;
  reject (encrypted_len >? EMSSH_MAX_PACKET_SIZE + 4) SSH_ERR_MALFORMED_PACKET;;
  let original_iv := prot_cipher_iv p in
  received_mac ← mem_get encrypted_len (prot_mac_len p);
  status ← call_cipher original_iv SSH_CIPHER_DECRYPT encrypted_len;
  reject (status_bad status) SSH_ERR_PLATFORM;;
  let next_iv :=
    if negb (prot_cipher_iv_len p =? 0) then
      let blocks := u64 (u64 (encrypted_len + prot_cipher_iv_len p) - 1) / prot_cipher_iv_len p in
      advance_counter_be original_iv (prot_cipher_iv_len p) blocks
    else original_iv in
  mac_result ← call_mac encrypted_len;
  let '(status, expected_mac) := mac_result in
  if status_bad status || negb (zlen expected_mac =? prot_mac_len p)
  then restore_and_fail original_iv encrypted_len SSH_ERR_PLATFORM else
  match mac_matches expected_mac received_mac (prot_mac_len p) with
  | None => fault
  | Some false => restore_and_fail original_iv encrypted_len SSH_ERR_SECURITY
  | Some true =>
    d ← mem_get 0 4;
    if negb (packet_length_field d + 4 =? encrypted_len)
    then restore_and_fail original_iv encrypted_len SSH_ERR_MALFORMED_PACKET else
    s ← get_state;
    match ssh_packet_decode_plain (io_mem s) encrypted_len with
    | Fault => fault
    | Err status => restore_and_fail original_iv encrypted_len status
    | Ret view =>
      set_prot (with_sequence (u32 (prot_sequence p + 1)) (with_iv next_iv p));;
      mret view
    end
  end.

(** ** Lemmas: padding *)
Lemma normalized_block_size_ge b : 8 <= normalized_block_size b.
Proof. unfold normalized_block_size, SSH_PACKET_MIN_BLOCK_SIZE. case_bool; lia. Qed.

(** The loop runs at most once. *)
Lemma pad_loop_total p b :
  0 <= p -> 8 <= b -> b + 4 < 2 ^ 64 ->
  pad_loop 1 p b = Some (if p <? 4 then p + b else p).
Proof.
  intros. cbn [pad_loop]. unfold SSH_PACKET_MIN_PADDING. destruct (p <? 4) eqn:E; [|done].
  unfold u64. rewrite Z.mod_small by lia. by replace (p + b <? 4) with false by lia.
Qed.

(** The mathematical padding: the distance to the next block boundary, one
    block more when that is below four. *)
Lemma padding_len_spec n b :
  0 <= n -> n + 5 < 2 ^ 64 -> normalized_block_size b + 4 < 2 ^ 64 ->
  let bs := normalized_block_size b in
  let p := ssh_packet_padding_len n b in
  4 <= p < bs + 4 /\ (5 + n + p) mod bs = 0.
Proof.
  intros Hn Hl Hb bs p. pose proof (normalized_block_size_ge b). fold bs in H, Hb.
  assert (p = let q := (- (5 + n)) mod bs in if q <? 4 then q + bs else q) as ->.
  { unfold p, ssh_packet_padding_len. fold bs. unfold u64.
    replace (4 + 1 + n) with (5 + n) by lia. rewrite (Z.mod_small (5 + n)) by lia.
    pose proof (Z.mod_pos_bound (5 + n) bs ltac:(lia)).
    replace (bs - (5 + n) mod bs =? bs) with ((5 + n) mod bs =? 0) by lia.
    destruct (Z.eqb_spec ((5 + n) mod bs) 0) as [E|E].
    - rewrite (Z_mod_zero_opp_full _ _ E). by rewrite pad_loop_total by lia.
    - rewrite (Z_mod_nz_opp_full _ _ E). rewrite pad_loop_total by lia. done. }
  cbv zeta. pose proof (Z.mod_pos_bound (- (5 + n)) bs ltac:(lia)).
  assert ((5 + n + (- (5 + n)) mod bs) mod bs = 0) as Ha
    by (rewrite Zplus_mod_idemp_r, Z.add_opp_diag_r; apply Z.mod_0_l; lia).
  destruct (_ <? 4) eqn:E; split; try lia.
  rewrite Z.add_assoc, <- Zplus_mod_idemp_r, Z.mod_same, Z.add_0_r by lia. exact Ha.
Qed.

(** ** Lemmas: plain packets *)

(** The image of a packet with the given payload and padding. *)
Definition plain_packet (payload padding : list Z) : list Z :=
  be_bytes 4 (1 + zlen payload + zlen padding) ++ [zlen padding] ++ payload ++ padding.

Lemma zlen_plain_packet pl pad : zlen (plain_packet pl pad) = 5 + zlen pl + zlen pad.
Proof. unfold plain_packet. len_lia. Qed.
#[export] Hint Rewrite zlen_plain_packet : emssh_len.

(** The length field of a packet. *)
Lemma plain_packet_length pl pad :
  zlen pl + zlen pad < 2 ^ 31 -> be_value (ztake 4 (plain_packet pl pad)) + 4 = zlen (plain_packet pl pad).
Proof.
  intros Hl. pose proof (zlen_nonneg pl). pose proof (zlen_nonneg pad). rewrite zlen_plain_packet.
  unfold plain_packet. change 4 with (Z.of_nat 4) at 1.
  rewrite <- (zlen_be_bytes 4 (1 + zlen pl + zlen pad)) at 1. rewrite ztake_app, be_value_bytes by lia. lia.
Qed.

Lemma plain_packet_byte pl pad :
  Forall is_byte pl -> Forall is_byte pad -> zlen pad < 256 -> Forall is_byte (plain_packet pl pad).
Proof.
  intros. unfold plain_packet. rewrite !Forall_app, Forall_cons_iff. pose proof (zlen_nonneg pad).
  split_and!; [apply be_bytes_byte|unfold is_byte; lia|constructor|done|done].
Qed.

(** What the generator, or its absence, writes for [n] bytes of padding. *)
Definition padding_bytes (rng : option rng_fill_fn) (n : Z) : list Z :=
  match rng with Some fill => snd (fill n) | None => zeros n end.

Definition rng_usable (rng : option rng_fill_fn) : Prop :=
  match rng with Some fill => RngOk fill | None => True end.

Lemma padding_bytes_ok rng n :
  rng_usable rng -> 0 <= n ->
  zlen (padding_bytes rng n) = n /\ Forall is_byte (padding_bytes rng n).
Proof.
  destruct rng as [fill|]; cbn [rng_usable padding_bytes]; intros Hr Hn.
  - split; [by apply rng_length|apply rng_byte].
  - unfold zeros, zlen. rewrite length_replicate. split; [lia|by apply Forall_replicate].
Qed.

Lemma put_padding_store rng n s :
  rng_usable rng -> put_padding rng n s = store (padding_bytes rng n) s.
Proof.
  destruct rng as [fill|]; cbn [rng_usable]; intros Hr; [|done].
  unfold put_padding, padding_bytes. pose proof (rng_total n) as E.
  destruct (fill n) as [st bytes]. simpl in E. by subst.
Qed.

Lemma encode_plain_ok cap pl b rng out :
  Forall is_byte pl -> zlen pl <= EMSSH_MAX_PAYLOAD_SIZE -> normalized_block_size b <= 252 ->
  rng_usable rng ->
  let pad := padding_bytes rng (ssh_packet_padding_len (zlen pl) b) in
  zlen (plain_packet pl pad) <= cap <= zlen out ->
  ssh_packet_encode_plain cap (Some pl) (zlen pl) b rng (Some out) =
    (Ret (zlen (plain_packet pl pad)),
     Some (plain_packet pl pad ++ zdrop (zlen (plain_packet pl pad)) out)).
Proof.
  intros Hb Hl Hbs Hr pad Hcap. pose proof (zlen_nonneg pl). unfold EMSSH_MAX_PAYLOAD_SIZE in Hl.
  destruct (padding_len_spec (zlen pl) b) as [Hp _]; [lia..|].
  set (p := ssh_packet_padding_len (zlen pl) b) in *.
  destruct (padding_bytes_ok rng p Hr ltac:(lia)) as [Hpl Hpb]. fold pad in Hpl, Hpb.
  rewrite zlen_plain_packet, Hpl in *.
  unfold ssh_packet_encode_plain. rewrite (bind_ret _ _ _ tt (Some out)) by done.
  rewrite (bind_ret _ _ _ tt (Some out)) by (apply reject_false; unfold EMSSH_MAX_PAYLOAD_SIZE; lia).
  fold p. cbv zeta. unfold u64, u32, u8. rewrite !Z.mod_small by lia.
  rewrite (bind_ret _ _ _ tt (Some out)) by (apply reject_false; lia).
  unfold with_writer, ssh_buffer_init, uninit_buffer.
  change (mk_ssh_buffer (Some out) cap 0 0) with (Bf [] [] out cap).
  assert (room_ok [] [] out cap) as R0 by (unfold room_ok; len_lia).
  pose proof (emits_u32 (1 + zlen pl + p)) as E1.
  pose proof (emits_bind _ _ _ _ E1 (emits_bind _ _ _ _ (emits_u8 p ltac:(unfold is_byte; lia))
    (emits_put_bytes pl Hb))) as E.
  assert (forall q : BufM Z, (ssh_buffer_put_u32 (1 + zlen pl + p);; ssh_buffer_put_u8 p;;
     ssh_buffer_put_bytes (Some pl) (zlen pl);; q) (Some (Bf [] [] out cap)) =
     q (Some (Bf [] (be_bytes 4 (1 + zlen pl + p) ++ [p] ++ pl) (zdrop (5 + zlen pl) out) cap))) as ->.
  { intros q. rewrite <- !bind_assoc. erewrite bind_ret; [reflexivity|].
    rewrite bind_assoc, (emits_fits _ _ E) by (try done; len_lia).
    do 4 f_equal. len_lia. }
  replace (negb (p =? 0)) with true by lia.
  erewrite bind_ret; last first.
  { rewrite put_padding_store by done. fold pad. apply store_Bf; rewrite ?Hpl.
    - unfold room_ok. rewrite zlen_zdrop by lia. len_lia.
    - len_lia. }
  unfold mbind, prog_bind, get_state, mret, prog_ret, Bf. cbn [ssh_buffer_len buf_len ssh_buffer_data buf_data].
  f_equal; [f_equal; len_lia|]. f_equal. unfold plain_packet. rewrite Hpl, <- !app_assoc.
  rewrite zdrop_zdrop by lia. cbn [app]. do 4 f_equal.
Qed.

(** A packet image decodes to its payload. *)
Lemma decode_plain_image pl pad :
  Forall is_byte pl -> Forall is_byte pad -> 4 <= zlen pad < 256 ->
  5 + zlen pl + zlen pad <= EMSSH_MAX_PACKET_SIZE + 4 ->
  forall rest, ssh_packet_decode_plain (Some (plain_packet pl pad ++ rest))
    (zlen (plain_packet pl pad)) = Ret (mk_packet_view pl (zlen pl)).
Proof.
  intros Hb Hpb Hp Hl rest. pose proof (zlen_nonneg pl). unfold EMSSH_MAX_PACKET_SIZE in Hl.
  unfold ssh_packet_decode_plain, SSH_PACKET_MIN_PADDING, EMSSH_MAX_PACKET_SIZE.
  rewrite zlen_plain_packet.
  replace (5 + zlen pl + zlen pad <? _) with false by lia.
  replace (5 + zlen pl + zlen pad >? _) with false by lia.
  set (n := 1 + zlen pl + zlen pad).
  assert (ssh_buffer_wrap uninit_buffer (Some (plain_packet pl pad ++ rest)) (5 + zlen pl + zlen pad) =
    Some (Bf [] ((be_bytes 4 n ++ [zlen pad]) ++ pl ++ pad) rest (5 + zlen pl + zlen pad))) as ->.
  { unfold ssh_buffer_wrap, uninit_buffer. f_equal. apply mk_Bf; [|len_lia|done].
    unfold plain_packet. fold n. by rewrite <- !app_assoc. }
  assert (parses (packet_length ← ssh_buffer_get_u32;
          reject (negb (packet_length + 4 =? 5 + zlen pl + zlen pad)) SSH_ERR_MALFORMED_PACKET;;
          padding_len ← ssh_buffer_get_u8;
          reject (padding_len <? 4) SSH_ERR_MALFORMED_PACKET;;
          reject (padding_len + 1 >? packet_length) SSH_ERR_MALFORMED_PACKET;;
          let n := packet_length - 1 - padding_len in
          match mem_read (plain_packet pl pad ++ rest) 5 n with
          | Some bs => mret (mk_packet_view bs n)
          | None => fault
          end) (be_bytes 4 n ++ [zlen pad]) (pl ++ pad) (mk_packet_view pl (zlen pl))) as E.
  { apply (parses_bind _ _ _ _ _ n); [apply parses_u32; unfold is_u32; lia|].
    apply parses_reject; [lia|]. apply (parses_bind_eq _ _ _ [zlen pad] [] _ (zlen pad));
      [done|apply parses_u8_raw|].
    apply parses_reject; [lia|]. apply parses_reject; [lia|]. cbv zeta.
    replace (n - 1 - zlen pad) with (zlen pl) by lia.
    pose proof (mem_read_app (be_bytes 4 n ++ [zlen pad]) pl (pad ++ rest)) as R.
    rewrite zlen_app, zlen_be_bytes in R. change (Z.of_nat 4 + zlen [zlen pad]) with 5 in R.
    unfold plain_packet. fold n. rewrite <- !app_assoc in R. rewrite <- !app_assoc, R.
    apply parses_ret. }
  by rewrite E.
Qed.

(** The plain decoder stays inside the length given, and whatever it accepts is a
    packet image of that length. *)
Lemma decode_plain_cases mem len :
  Forall is_byte mem -> 0 <= len <= zlen mem ->
  match ssh_packet_decode_plain (Some mem) len with Fault => False | Err _ => True | Ret v =>
  exists pl pad rest, mem = plain_packet pl pad ++ rest /\ len = zlen (plain_packet pl pad) /\
    v = mk_packet_view pl (zlen pl) /\ 4 <= zlen pad < 256 /\ len <= EMSSH_MAX_PACKET_SIZE + 4
  end.
Proof.
  intros Hb Hlen. unfold ssh_packet_decode_plain, SSH_PACKET_MIN_PADDING.
  destruct (zsplit mem len Hlen) as (pk & rest & -> & Hpk). apply Forall_app in Hb as [Hb _].
  destruct (len <? _) eqn:E1; [done|]. destruct (len >? _) eqn:E2; [done|].
  assert (ssh_buffer_wrap uninit_buffer (Some (pk ++ rest)) len = Some (Bf [] pk rest len)) as ->.
  { unfold ssh_buffer_wrap, uninit_buffer. f_equal. by apply mk_Bf. }
  destruct (decodes_u32 [] pk rest len Hb) as (o & a & b & -> & Eg & Ho). cbn [app] in Eg.
  destruct o as [n|e|]; [|by rewrite (bind_err _ _ _ _ _ Eg)|done].
  rewrite (bind_ret _ _ _ _ _ Eg). destruct Ho as [Hn ->]. apply Forall_app in Hb as [_ Hb].
  destruct (negb (n + 4 =? len)) eqn:E3; [done|].
  rewrite (bind_ret _ _ _ tt _) by done.
  destruct (decodes_u8 (be_bytes 4 n) b rest len Hb) as (o & c & r & -> & Eg2 & Ho).
  destruct o as [p|e|]; [|by rewrite (bind_err _ _ _ _ _ Eg2)|done].
  rewrite (bind_ret _ _ _ _ _ Eg2). destruct Ho as [Hp ->]. unfold is_byte in Hp.
  destruct (p <? 4) eqn:E4; [done|]. rewrite (bind_ret _ _ _ tt _) by done.
  destruct (p + 1 >? n) eqn:E5; [done|]. rewrite (bind_ret _ _ _ tt _) by done. cbv zeta.
  destruct (zsplit r (n - 1 - p)) as (pl & pad & -> & Hpl); [len_lia|].
  pose proof (mem_read_app (be_bytes 4 n ++ [p]) pl (pad ++ rest)) as R.
  rewrite zlen_app, zlen_be_bytes in R. change (Z.of_nat 4 + zlen [p]) with 5 in R.
  rewrite <- !app_assoc in R. rewrite <- !app_assoc, <- Hpl, R. cbn [fst mret prog_ret].
  assert (zlen pad = p) as Hpad by len_lia.
  exists pl, pad, rest. unfold plain_packet.
  rewrite Hpad. replace (1 + zlen pl + p) with n by lia. rewrite <- !app_assoc.
  split_and!; try done; len_lia.
Qed.

Lemma decode_plain_inv mem len v :
  Forall is_byte mem -> 0 <= len <= zlen mem -> ssh_packet_decode_plain (Some mem) len = Ret v ->
  exists pl pad rest, mem = plain_packet pl pad ++ rest /\ len = zlen (plain_packet pl pad) /\
    v = mk_packet_view pl (zlen pl) /\ 4 <= zlen pad < 256 /\ len <= EMSSH_MAX_PACKET_SIZE + 4.
Proof. intros Hb Hl E. pose proof (decode_plain_cases mem len Hb Hl) as H. by rewrite E in H. Qed.

(** ** Lemmas: MAC comparison and counter *)
Lemma lxor_byte_eq0 x y : is_byte x -> is_byte y -> u8 (Z.lxor x y) = 0 <-> x = y.
Proof.
  intros Hx Hy. unfold u8. change (2 ^ 8) with 256.
  rewrite Z.mod_small by (by apply lxor_byte). apply Z.lxor_eq_0_iff.
Qed.

Lemma mac_diff_spec a b n d :
  Forall is_byte a -> Forall is_byte b -> (n <= length a)%nat -> (n <= length b)%nat ->
  exists r, mac_diff a b n d = Some r /\ (r = 0 <-> d = 0 /\ take n a = take n b).
Proof.
  intros Ha Hb. revert a Ha b Hb d. induction n as [|n IH]; intros a Ha b Hb d Hna Hnb.
  { exists d. split; [done|]. rewrite !take_0. split; [done|by intros [? _]]. }
  destruct Ha as [|x a Hx Ha]; [simpl in Hna; lia|]. destruct Hb as [|y b Hy Hb]; [simpl in Hnb; lia|].
  simpl in Hna, Hnb. cbn [mac_diff take].
  destruct (IH a Ha b Hb (Z.lor d (u8 (Z.lxor x y)))) as (r & -> & Hr); [lia..|].
  exists r. split; [done|]. rewrite Hr, Z.lor_eq_0_iff, lxor_byte_eq0 by done. split; [by intros [[? ->] ->]|by intros [? [= -> ?]]].
Qed.

(** The comparison decides equality of two MACs of the same length. *)
Lemma mac_matches_all a b n :
  Forall is_byte a -> Forall is_byte b -> zlen a = n -> zlen b = n ->
  mac_matches a b n = Some (bool_decide (a = b)).
Proof.
  intros Ha Hb Hna Hnb. unfold mac_matches. unfold zlen in *.
  destruct (mac_diff_spec a b (Z.to_nat n) 0) as (r & -> & Hr); [done..|lia|lia|].
  rewrite !take_ge in Hr by lia. change (Some (r =? 0) = Some (bool_decide (a = b))). f_equal.
  case_bool_decide; [apply Z.eqb_eq|apply Z.eqb_neq]; naive_solver.
Qed.

Lemma increment_be_spec c :
  Forall is_byte c ->
  length (fst (increment_be c)) = length c /\ Forall is_byte (fst (increment_be c)) /\
  be_value (fst (increment_be c)) + (if snd (increment_be c) then 256 ^ zlen c else 0) =
    be_value c + 1.
Proof.
  induction 1 as [|b c Hb Hc (Hl & Hf & Hv)]; [done|]. cbn [increment_be].
  destruct (increment_be c) as [c' carry]. cbn [fst snd] in *.
  assert (zlen c' = zlen c) as Hz by (unfold zlen; by rewrite Hl).
  assert (256 ^ zlen (b :: c) = 256 * 256 ^ zlen c) as Hpow.
  { rewrite zlen_cons, Z.pow_add_r by auto using zlen_nonneg with lia. done. }
  unfold is_byte in Hb. destruct carry; cbn [fst snd length].
  - unfold u8. change (2 ^ 8) with 256. destruct (Z.eq_dec b 255) as [->|Hne].
    + change ((255 + 1) mod 256) with 0. cbn [Z.eqb]. split_and!; [by f_equal|by constructor|].
      rewrite !be_value_cons, Hz, Hpow. lia.
    + rewrite Z.mod_small by lia. replace (b + 1 =? 0) with false by lia.
      split_and!; [by f_equal|constructor; [unfold is_byte; lia|done]|].
      rewrite !be_value_cons, Hz. lia.
  - split_and!; [by f_equal|by constructor|]. rewrite !be_value_cons, Hz. lia.
Qed.

Lemma be_value_mod_carry v c (k : Z) (carry : bool) :
  0 <= v < k -> v + (if carry then k else 0) = c + 1 -> v = (c + 1) mod k.
Proof.
  intros Hv <-. destruct carry.
  - replace (v + k) with (v + 1 * k) by lia. rewrite Z.mod_add, Z.mod_small; lia.
  - rewrite Z.add_0_r, Z.mod_small; lia.
Qed.

Lemma counter_step_spec n c :
  0 <= n <= zlen c -> Forall is_byte c ->
  let c' := fst (increment_be (ztake n c)) ++ zdrop n c in
  zlen c' = zlen c /\ Forall is_byte c' /\ zdrop n c' = zdrop n c /\
  be_value (ztake n c') = (be_value (ztake n c) + 1) mod 256 ^ n.
Proof.
  intros Hn Hc c'. destruct (zsplit c n Hn) as (a & r & -> & Ha). subst n.
  unfold c'. rewrite ztake_app, zdrop_app. apply Forall_app in Hc as [Hc Hr].
  destruct (increment_be_spec a Hc) as (Hl & Hf & Hv).
  destruct (increment_be a) as [a' carry]. cbn [fst snd] in *.
  assert (zlen a' = zlen a) as Hz by (unfold zlen; by rewrite Hl).
  rewrite <- Hz, ztake_app, zdrop_app. split_and!; [len_lia|by apply Forall_app_2|done|].
  rewrite <- Hz in Hv. eapply be_value_mod_carry; [by apply be_value_bound|exact Hv].
Qed.

(** Counter arithmetic: a big-endian addition of [blocks] modulo the width,
    with the bytes behind the counter left alone. *)
Lemma advance_counter_spec c n blocks :
  0 <= n <= zlen c -> 0 <= blocks -> Forall is_byte c ->
  zlen (advance_counter_be c n blocks) = zlen c /\
  Forall is_byte (advance_counter_be c n blocks) /\
  zdrop n (advance_counter_be c n blocks) = zdrop n c /\
  be_value (ztake n (advance_counter_be c n blocks)) =
    (be_value (ztake n c) + blocks) mod 256 ^ n.
Proof.
  intros Hn Hk Hc. unfold advance_counter_be. destruct (Z.eqb_spec n 0) as [->|Hn0].
  { split_and!; try done. by rewrite Z.mod_1_r. }
  replace blocks with (Z.of_nat (Z.to_nat blocks)) at 5 by lia.
  generalize (Z.to_nat blocks) as k. clear Hk. induction k as [|k (IHl & IHb & IHd & IHv)].
  - cbn [Nat.iter Nat.recursion nat_rect]. split_and!; try done. rewrite Z.add_0_r. symmetry. apply Z.mod_small.
    pose proof (be_value_bound (ztake n c)) as B. rewrite zlen_ztake, Z.min_l in B by lia.
    apply B. by apply Forall_take.
  - change (Nat.iter (S k) ?f c) with (f (Nat.iter k f c)).
    set (x := Nat.iter k _ c) in *. cbv beta.
    destruct (counter_step_spec n x) as (? & ? & ? & ->); [lia|done|].
    rewrite IHv, Zplus_mod_idemp_l. split_and!; try congruence. f_equal. lia.
Qed.

(** ** Lemmas: protected packets *)

(** What [ssh_packet_protection_set] establishes and the codec keeps: active,
    both callbacks present, sizes inside their arrays and limits. *)
Record prot_uses (p : ssh_packet_protection) (f : cipher_crypt_fn) (g : mac_compute_fn) : Prop := {
  uses_active : prot_active p = true;
  uses_api : exists api, prot_crypto p = Some api /\ cipher_crypt api = Some f /\
    mac_compute api = Some g;
  uses_mac : 0 < prot_mac_len p <= EMSSH_MAX_MAC;
  uses_block : 8 <= prot_block_size p;
  uses_iv : 0 <= prot_cipher_iv_len p <= EMSSH_MAX_CIPHER_IV /\
    zlen (prot_cipher_iv p) = EMSSH_MAX_CIPHER_IV /\ Forall is_byte (prot_cipher_iv p);
  uses_seq : is_u32 (prot_sequence p)
}.

(** The two callbacks with the protection's own arguments. *)
Definition run_cipher (f : cipher_crypt_fn) (p : ssh_packet_protection)
    (dir : ssh_cipher_direction) (d : list Z) : list Z :=
  snd (f (prot_cipher_algorithm p) (ztake (prot_cipher_key_len p) (prot_cipher_key p))
         (ztake (prot_cipher_iv_len p) (prot_cipher_iv p)) (prot_sequence p) dir d).
Definition run_mac (g : mac_compute_fn) (p : ssh_packet_protection) (d : list Z) : list Z :=
  snd (g (prot_mac_algorithm p) (ztake (prot_mac_key_len p) (prot_mac_key p)) (prot_sequence p) d).

(** The wire image of a plain packet, and the protection after it. *)
Definition seal (f : cipher_crypt_fn) (g : mac_compute_fn) (p : ssh_packet_protection)
    (d : list Z) : list Z :=
  run_cipher f p SSH_CIPHER_ENCRYPT d ++ run_mac g p d.
Definition prot_next (p : ssh_packet_protection) (n : Z) : ssh_packet_protection :=
  with_sequence (u32 (prot_sequence p + 1)) (advance_stream_position p n).

Lemma advance_stream_sequence p n : prot_sequence (advance_stream_position p n) = prot_sequence p.
Proof. unfold advance_stream_position. by case_bool. Qed.

Lemma mem_get_front p d r n :
  n = zlen d -> mem_get 0 n (mk_packet_io p (Some (d ++ r))) = (Ret d, mk_packet_io p (Some (d ++ r))).
Proof. intros ->. unfold mem_get. cbn [io_mem].
  pose proof (mem_read_app [] d r) as E. rewrite zlen_nil in E. cbn [app] in E. by rewrite E. Qed.

Lemma mem_get_at p a d r n m :
  n = zlen a -> m = zlen d ->
  mem_get n m (mk_packet_io p (Some (a ++ d ++ r))) =
    (Ret d, mk_packet_io p (Some (a ++ d ++ r))).
Proof. intros -> ->. unfold mem_get. cbn [io_mem]. by rewrite mem_read_app. Qed.

Lemma mem_set_front p d d' r :
  zlen d' = zlen d ->
  mem_set 0 d' (mk_packet_io p (Some (d ++ r))) = (Ret tt, mk_packet_io p (Some (d' ++ r))).
Proof.
  intros. unfold mem_set. cbn [io_mem io_prot].
  pose proof (mem_write_app [] d d' r) as E. rewrite zlen_nil in E. cbn [app] in E. by rewrite E.
Qed.

Lemma mem_set_at p a d d' r n :
  n = zlen a -> zlen d' = zlen d ->
  mem_set n d' (mk_packet_io p (Some (a ++ d ++ r))) =
    (Ret tt, mk_packet_io p (Some (a ++ d' ++ r))).
Proof. intros -> ?. unfold mem_set. cbn [io_mem io_prot]. by rewrite mem_write_app. Qed.

Section protected.
Context (f : cipher_crypt_fn) (g : mac_compute_fn) (p : ssh_packet_protection)
  `{!StreamCipher f} (U : prot_uses p f g).

Lemma call_mac_uses d r n :
  n = zlen d ->
  call_mac n (mk_packet_io p (Some (d ++ r))) =
    (Ret (g (prot_mac_algorithm p) (ztake (prot_mac_key_len p) (prot_mac_key p))
            (prot_sequence p) d), mk_packet_io p (Some (d ++ r))).
Proof.
  intros Hn. destruct (uses_api _ _ _ U) as (api & Ea & _ & Em). unfold call_mac.
  rewrite (bind_ret _ _ _ p _) by done.
  rewrite (bind_ret _ _ _ _ _ (mem_get_front p d r n Hn)), Ea, Em. done.
Qed.

Lemma call_cipher_uses d r n dir :
  n = zlen d ->
  call_cipher (prot_cipher_iv p) dir n (mk_packet_io p (Some (d ++ r))) =
    (Ret SSH_OK, mk_packet_io p (Some (run_cipher f p dir d ++ r))).
Proof.
  intros Hn. destruct (uses_api _ _ _ U) as (api & Ea & Ec & _). unfold call_cipher.
  rewrite (bind_ret _ _ _ p _) by done.
  rewrite (bind_ret _ _ _ _ _ (mem_get_front p d r n Hn)), Ea, Ec. unfold run_cipher.
  pose proof (cipher_total (prot_cipher_algorithm p) (ztake (prot_cipher_key_len p) (prot_cipher_key p))
    (ztake (prot_cipher_iv_len p) (prot_cipher_iv p)) (prot_sequence p) dir d) as Hs.
  pose proof (cipher_length (prot_cipher_algorithm p) (ztake (prot_cipher_key_len p) (prot_cipher_key p))
    (ztake (prot_cipher_iv_len p) (prot_cipher_iv p)) (prot_sequence p) dir d) as Hl.
  destruct (f _ _ _ _ _ _) as [st d']. cbn [fst snd] in *. subst st.
  by rewrite (bind_ret _ _ _ _ _ (mem_set_front p d d' r Hl)).
Qed.

Lemma zlen_run_cipher dir d : zlen (run_cipher f p dir d) = zlen d.
Proof. apply cipher_length. Qed.

Lemma run_cipher_byte dir d : Forall is_byte d -> Forall is_byte (run_cipher f p dir d).
Proof. apply cipher_byte. Qed.

(** Every failing path of the decoder encrypts again what it decrypted. *)
Lemma restore_undoes d r n e :
  n = zlen d -> Forall is_byte d ->
  restore_and_fail (A:=ssh_packet_view) (prot_cipher_iv p) n e
      (mk_packet_io p (Some (run_cipher f p SSH_CIPHER_DECRYPT d ++ r))) =
    (Err e, mk_packet_io p (Some (d ++ r))).
Proof.
  intros Hn Hd. unfold restore_and_fail.
  erewrite bind_ret by (apply call_cipher_uses; by rewrite zlen_run_cipher).
  unfold fail, run_cipher. by rewrite cipher_enc_dec.
Qed.

(** The decoder up to the MAC check, on a packet [d ++ m] followed by [r]. *)
Definition after_decrypt (enc : Z) (received_mac : list Z) : PktM ssh_packet_view :=
  mac_result ← call_mac enc;
  let '(status, expected_mac) := mac_result in
  if status_bad status || negb (zlen expected_mac =? prot_mac_len p)
  then restore_and_fail (prot_cipher_iv p) enc SSH_ERR_PLATFORM else
  match mac_matches expected_mac received_mac (prot_mac_len p) with
  | None => fault
  | Some false => restore_and_fail (prot_cipher_iv p) enc SSH_ERR_SECURITY
  | Some true =>
    d ← mem_get 0 4;
    if negb (packet_length_field d + 4 =? enc)
    then restore_and_fail (prot_cipher_iv p) enc SSH_ERR_MALFORMED_PACKET else
    s ← get_state;
    match ssh_packet_decode_plain (io_mem s) enc with
    | Fault => fault
    | Err status => restore_and_fail (prot_cipher_iv p) enc status
    | Ret view => set_prot (prot_next p enc);; mret view
    end
  end.

Lemma next_iv_prot enc :
  enc <> 0 ->
  with_sequence (u32 (prot_sequence p + 1)) (with_iv
    (if negb (prot_cipher_iv_len p =? 0) then
       advance_counter_be (prot_cipher_iv p) (prot_cipher_iv_len p)
         (u64 (u64 (enc + prot_cipher_iv_len p) - 1) / prot_cipher_iv_len p)
     else prot_cipher_iv p) p) = prot_next p enc.
Proof.
  intros He. unfold prot_next, advance_stream_position.
  replace (enc =? 0) with false by lia. rewrite orb_false_r.
  destruct (prot_cipher_iv_len p =? 0); [by destruct p|done].
Qed.

Lemma decode_protected_split d m r :
  zlen m = prot_mac_len p ->
  ssh_packet_decode_protected (zlen (d ++ m)) (mk_packet_io p (Some (d ++ m ++ r))) =
  if (zlen d <=? 0) || (zlen d <? prot_block_size p) || negb (zlen d mod prot_block_size p =? 0)
     || (zlen d >? EMSSH_MAX_PACKET_SIZE + 4)
  then (Err SSH_ERR_MALFORMED_PACKET, mk_packet_io p (Some (d ++ m ++ r)))
  else after_decrypt (zlen d) m
         (mk_packet_io p (Some (run_cipher f p SSH_CIPHER_DECRYPT d ++ m ++ r))).
Proof.
  intros Hm. pose proof (uses_mac _ _ _ U) as HM. unfold ssh_packet_decode_protected.
  set (s := mk_packet_io p _).
  rewrite (bind_ret _ _ s p s), (bind_ret _ _ s s s) by done.
  rewrite (bind_ret _ _ s tt s) by (by rewrite (uses_active _ _ _ U)).
  replace (zlen (d ++ m) <=? prot_mac_len p) with (zlen d <=? 0) by (rewrite zlen_app; lia).
  replace (zlen (d ++ m) - prot_mac_len p) with (zlen d) by len_lia.
  replace (prot_mac_len p >? EMSSH_MAX_MAC) with false by lia. rewrite orb_false_r.
  destruct (zlen d <=? 0) eqn:E1; [done|]. rewrite (bind_ret _ _ s tt s) by done. cbn [orb]. cbv zeta.
  destruct (_ || _) eqn:E2 at 1; [by rewrite E2|]. rewrite E2. rewrite (bind_ret _ _ s tt s) by done.
  cbn [orb]. destruct (zlen d >? _) eqn:E3; [done|]. rewrite (bind_ret _ _ s tt s) by done.
  rewrite (bind_ret _ _ _ _ _ (mem_get_at p d m r _ _ eq_refl (eq_sym Hm))).
  rewrite (bind_ret _ _ _ _ _ (call_cipher_uses d (m ++ r) _ SSH_CIPHER_DECRYPT eq_refl)).
  rewrite (bind_ret _ _ _ tt _) by done.
  rewrite next_iv_prot by lia. done.
Qed.
End protected.

Lemma packet_length_field_app a d : 
  zlen a = 4 -> Forall is_byte a -> packet_length_field (a ++ d) = be_value a.
Proof.
  intros Hl Hb. destruct (list_4 a Hl) as (w & x & y & z & ->). by rewrite <- be_value_lor4.
Qed.

Section protected_codec.
Context (f : cipher_crypt_fn) (g : mac_compute_fn) (p : ssh_packet_protection)
  `{!StreamCipher f} (U : prot_uses p f g) `{!MacOk g (prot_mac_len p)}.

Lemma zlen_run_mac d : zlen (run_mac g p d) = prot_mac_len p.
Proof. apply mac_length. Qed.

Lemma zlen_seal d : zlen (seal f g p d) = zlen d + prot_mac_len p.
Proof. unfold seal. rewrite zlen_app, zlen_run_mac. by rewrite zlen_run_cipher. Qed.

Lemma seal_byte d : Forall is_byte d -> Forall is_byte (seal f g p d).
Proof. intros. apply Forall_app_2; [by apply run_cipher_byte|apply mac_byte]. Qed.

(** The MAC check, once the packet is decrypted to [d]. *)
Lemma after_decrypt_eq d m r :
  Forall is_byte m -> zlen m = prot_mac_len p -> Forall is_byte d -> 8 <= zlen d ->
  after_decrypt p (zlen d) m (mk_packet_io p (Some (d ++ m ++ r))) =
  if bool_decide (run_mac g p d = m) then
    if negb (be_value (ztake 4 d) + 4 =? zlen d)
    then restore_and_fail (prot_cipher_iv p) (zlen d) SSH_ERR_MALFORMED_PACKET
           (mk_packet_io p (Some (d ++ m ++ r)))
    else match ssh_packet_decode_plain (Some (d ++ m ++ r)) (zlen d) with
         | Fault => (Fault, mk_packet_io p (Some (d ++ m ++ r)))
         | Err status => restore_and_fail (prot_cipher_iv p) (zlen d) status
                           (mk_packet_io p (Some (d ++ m ++ r)))
         | Ret view => (Ret view, mk_packet_io (prot_next p (zlen d)) (Some (d ++ m ++ r)))
         end
  else restore_and_fail (prot_cipher_iv p) (zlen d) SSH_ERR_SECURITY
         (mk_packet_io p (Some (d ++ m ++ r))).
Proof.
  intros Hm Hml Hd Hd4. unfold after_decrypt.
  rewrite (bind_ret _ _ _ _ _ (call_mac_uses f g p U d (m ++ r) _ eq_refl)).
  pose proof (mac_total (prot_mac_algorithm p) (ztake (prot_mac_key_len p) (prot_mac_key p))
    (prot_sequence p) d) as Hs.
  assert (run_mac g p d = snd (g (prot_mac_algorithm p) (ztake (prot_mac_key_len p) (prot_mac_key p))
    (prot_sequence p) d)) as Er by done.
  destruct (g _ _ _ _) as [st mac]. cbn [fst snd] in *. subst st mac. change (status_bad SSH_OK) with false.
  rewrite zlen_run_mac, Z.eqb_refl. cbn [negb orb].
  rewrite mac_matches_all; [|apply mac_byte|done|apply zlen_run_mac|done].
  destruct (bool_decide (run_mac g p d = m)); [|done].
  destruct (zsplit d 4) as (a & b & -> & Ha); [lia|]. apply Forall_app in Hd as [Hda Hdb].
  rewrite <- (app_assoc a b).
  rewrite (bind_ret _ _ _ _ _ (mem_get_front p a _ 4 (eq_sym Ha))).
  pose proof (packet_length_field_app a [] Ha Hda) as Ef. rewrite app_nil_r in Ef. rewrite Ef.
  replace (ztake 4 (a ++ b)) with a by (by rewrite <- Ha, ztake_app).
  destruct (negb _); [done|]. erewrite (bind_ret get_state) by done.
  cbn [io_mem]. by destruct (ssh_packet_decode_plain _ _).
Qed.
(** The packet the encoder builds before protecting it. *)
Definition framed (pl : list Z) (rng : option rng_fill_fn) : list Z :=
  plain_packet pl (padding_bytes rng (ssh_packet_padding_len (zlen pl) (prot_block_size p))).

Definition payload_ok (pl : list Z) : Prop :=
  Forall is_byte pl /\ zlen pl <= EMSSH_MAX_PAYLOAD_SIZE.

Lemma framed_facts pl rng :
  payload_ok pl -> rng_usable rng -> prot_block_size p <= 252 ->
  let pad := padding_bytes rng (ssh_packet_padding_len (zlen pl) (prot_block_size p)) in
  4 <= zlen pad < 256 /\ Forall is_byte pad /\
  zlen (framed pl rng) mod prot_block_size p = 0 /\ 9 <= zlen (framed pl rng) <= 33028.
Proof.
  intros [Hb Hl] Hr Hbs pad. pose proof (zlen_nonneg pl). pose proof (uses_block _ _ _ U).
  unfold EMSSH_MAX_PAYLOAD_SIZE in Hl. unfold framed. fold pad. rewrite zlen_plain_packet.
  assert (normalized_block_size (prot_block_size p) = prot_block_size p) as En.
  { unfold normalized_block_size, SSH_PACKET_MIN_BLOCK_SIZE. case_bool; lia. }
  destruct (padding_len_spec (zlen pl) (prot_block_size p)) as [Hp Hm]; rewrite ?En in *; try lia.
  destruct (padding_bytes_ok rng (ssh_packet_padding_len (zlen pl) (prot_block_size p)) Hr)
    as [Hpl Hpb]; [lia|]. fold pad in Hpl, Hpb.
  rewrite Hpl. split_and!; try done; lia.
Qed.

Lemma encode_protected_eq cap pl rng out :
  payload_ok pl -> rng_usable rng -> prot_block_size p <= 252 ->
  let d := framed pl rng in
  zlen d + prot_mac_len p <= cap <= zlen out ->
  ssh_packet_encode_protected cap (Some pl) (zlen pl) rng (mk_packet_io p (Some out)) =
    (Ret (zlen (seal f g p d)),
     mk_packet_io (prot_next p (zlen d)) (Some (seal f g p d ++ zdrop (zlen (seal f g p d)) out))).
Proof.
  intros Hpl Hr Hbs d Hc. pose proof (uses_mac _ _ _ U) as HM. unfold EMSSH_MAX_MAC in HM.
  destruct (framed_facts pl rng Hpl Hr Hbs) as (Hp & Hpb & Hm & Hd). fold d in Hm, Hd.
  unfold ssh_packet_encode_protected. set (s := mk_packet_io p _).
  rewrite (bind_ret _ _ s p s), (bind_ret _ _ s s s) by done.
  rewrite (bind_ret _ _ s tt s) by (by rewrite (uses_active _ _ _ U)).
  destruct (zsplit out (zlen d)) as (o1 & o2 & -> & Ho1); [lia|].
  destruct (zsplit o2 (prot_mac_len p)) as (o3 & o4 & -> & Ho3); [len_lia|].
  assert (normalized_block_size (prot_block_size p) <= 252) as Hn
    by (unfold normalized_block_size, SSH_PACKET_MIN_BLOCK_SIZE; case_bool; lia).
  pose proof (encode_plain_ok cap pl _ rng (o1 ++ o3 ++ o4) (proj1 Hpl) (proj2 Hpl) Hn Hr) as E.
  cbv zeta in E. fold (framed pl rng) in E. fold d in E. specialize (E ltac:(lia)).
  erewrite bind_ret; last first.
  { unfold on_mem, s. cbn [io_mem io_prot]. rewrite E, <- Ho1, zdrop_app, Ho1. reflexivity. }
  rewrite (bind_ret _ _ _ tt _)
    by (apply reject_false; unfold u64; rewrite Z.mod_small by len_lia; lia).
  rewrite (bind_ret _ _ _ _ _ (call_mac_uses f g p U d (o3 ++ o4) _ eq_refl)).
  pose proof (mac_total (prot_mac_algorithm p) (ztake (prot_mac_key_len p) (prot_mac_key p))
    (prot_sequence p) d) as Hs.
  assert (run_mac g p d = snd (g (prot_mac_algorithm p) (ztake (prot_mac_key_len p) (prot_mac_key p))
    (prot_sequence p) d)) as Er by done.
  destruct (g _ _ _ _) as [st mac]. cbn [fst snd] in *. subst st mac.
  rewrite (bind_ret _ _ _ tt _) by (apply reject_false; by rewrite zlen_run_mac, Z.eqb_refl).
  rewrite (bind_ret _ _ _ _ _ (call_cipher_uses f g p U d (o3 ++ o4) _ SSH_CIPHER_ENCRYPT eq_refl)).
  rewrite (bind_ret _ _ _ tt _) by done. erewrite bind_ret by done.
  erewrite bind_ret; last first.
  { cbn [io_mem]. apply mem_set_at; [by rewrite zlen_run_cipher|by rewrite zlen_run_mac]. }
  erewrite bind_ret by done. erewrite bind_ret by done. cbn [io_prot io_mem].
  unfold mret, prog_ret. rewrite advance_stream_sequence, zlen_seal, zlen_run_mac.
  do 3 f_equal.
  unfold seal. rewrite <- app_assoc. do 2 f_equal. rewrite <- Ho1, <- Ho3, <- zlen_app, app_assoc.
  by rewrite zdrop_app.
Qed.

Lemma decode_protected_seal pl rng r :
  payload_ok pl -> rng_usable rng -> prot_block_size p <= 252 ->
  let d := framed pl rng in
  ssh_packet_decode_protected (zlen (seal f g p d)) (mk_packet_io p (Some (seal f g p d ++ r))) =
    (Ret (mk_packet_view pl (zlen pl)),
     mk_packet_io (prot_next p (zlen d)) (Some (d ++ run_mac g p d ++ r))).
Proof.
  intros Hpl Hr Hbs d. pose proof (uses_block _ _ _ U).
  destruct (framed_facts pl rng Hpl Hr Hbs) as (Hp & Hpb & Hm & Hd). fold d in Hm, Hd.
  set (pad := padding_bytes rng _) in Hp, Hpb. assert (d = plain_packet pl pad) as Ed by done.
  assert (Forall is_byte d) as Hdb by (rewrite Ed; apply plain_packet_byte; [apply Hpl|done|lia]).
  unfold seal. rewrite <- app_assoc. rewrite (decode_protected_split f g p U) by apply zlen_run_mac.
  rewrite !zlen_run_cipher by done. rewrite Hm, Z.eqb_refl. cbn [negb].
  assert (prot_block_size p <= zlen d).
  { destruct (Z.le_gt_cases (prot_block_size p) (zlen d)); [done|]. rewrite Z.mod_small in Hm; lia. }
  replace (_ || _) with false by (unfold EMSSH_MAX_PACKET_SIZE; lia).
  replace (run_cipher f p SSH_CIPHER_DECRYPT (run_cipher f p SSH_CIPHER_ENCRYPT d)) with d
    by (symmetry; by apply cipher_dec_enc).
  rewrite after_decrypt_eq by (try apply mac_byte; try apply zlen_run_mac; try done; lia).
  rewrite bool_decide_true by done.
  assert (be_value (ztake 4 d) + 4 = zlen d) as ->.
  { rewrite Ed. apply plain_packet_length. destruct Hpl as [_ Hl]. unfold EMSSH_MAX_PAYLOAD_SIZE in Hl. lia. }
  rewrite Z.eqb_refl. cbn [negb]. rewrite Ed at 1 2.
  rewrite decode_plain_image; [done|apply Hpl|done|done|].
  rewrite Ed, zlen_plain_packet in Hd. unfold EMSSH_MAX_PACKET_SIZE. lia.
Qed.
End protected_codec.

(** *** The protection after a packet *)
Lemma advance_stream_position_spec p f g n :
  prot_uses p f g -> 0 <= n < 2 ^ 63 -> prot_cipher_iv_len p <> 0 ->
  let iv := prot_cipher_iv p in
  let iv' := prot_cipher_iv (advance_stream_position p n) in
  let l := prot_cipher_iv_len p in
  zlen iv' = zlen iv /\ Forall is_byte iv' /\ zdrop l iv' = zdrop l iv /\
  be_value (ztake l iv') = (be_value (ztake l iv) + (n + l - 1) / l) mod 256 ^ l.
Proof.
  intros U Hn Hl iv iv' l. destruct (uses_iv _ _ _ U) as (Hr & Hz & Hb).
  unfold EMSSH_MAX_CIPHER_IV in *. unfold iv', advance_stream_position. fold l iv.
  fold l in Hr, Hl. fold iv in Hz, Hb.
  replace (l =? 0) with false by lia. destruct (Z.eqb_spec n 0) as [->|Hn0]; cbn [orb].
  { fold iv. split_and!; try done. replace (0 + l - 1) with (l - 1) by lia.
    rewrite (Z.div_small (l - 1)), Z.add_0_r, Z.mod_small; [done| |lia].
    pose proof (be_value_bound (ztake l iv) ltac:(by apply Forall_take)) as B.
    by rewrite zlen_ztake, Z.min_l in B by lia. }
  cbv zeta. cbn [with_iv prot_cipher_iv]. unfold u64.
  rewrite (Z.mod_small (n + l)), (Z.mod_small (n + l - 1)) by lia.
  apply advance_counter_spec; [lia| |done]. apply Z.div_pos; lia.
Qed.

Lemma prot_uses_next p f g n :
  prot_uses p f g -> 0 <= n < 2 ^ 63 -> prot_uses (prot_next p n) f g.
Proof.
  intros U Hn. assert (is_u32 (u32 (prot_sequence p + 1))) as Hs by (apply Z.mod_pos_bound; lia).
  destruct (Z.eq_dec (prot_cipher_iv_len p) 0) as [E|E].
  - unfold prot_next, advance_stream_position. rewrite E, Z.eqb_refl. cbn [orb].
    destruct U; split; done.
  - destruct (advance_stream_position_spec p f g n U Hn E) as (Hl & Hb & _ & _).
    pose proof (uses_iv _ _ _ U) as (H1 & H2 & _).
    unfold prot_next, advance_stream_position in *. destruct (_ || _); destruct U; split; try done.
    cbn [with_sequence with_iv prot_cipher_iv prot_cipher_iv_len] in *. by rewrite Hl.
Qed.

Lemma prot_next_same p n :
  prot_mac_len (prot_next p n) = prot_mac_len p /\
  prot_block_size (prot_next p n) = prot_block_size p /\
  prot_sequence (prot_next p n) = u32 (prot_sequence p + 1).
Proof. unfold prot_next, advance_stream_position. by destruct (_ || _). Qed.

(** *** Whole streams: a sender and a receiver that start from the same state *)
Fixpoint send_all (cap : Z) (msgs : list (list Z * option rng_fill_fn)) (p : ssh_packet_protection)
    : outcome (list (list Z)) * ssh_packet_protection :=
  match msgs with
  | [] => (Ret [], p)
  | (pl, rng) :: msgs' =>
    match ssh_packet_encode_protected cap (Some pl) (zlen pl) rng
            (mk_packet_io p (Some (zeros cap))) with
    | (Ret n, s) =>
      match send_all cap msgs' (io_prot s) with
      | (Ret ws, p') => (Ret (ztake n (default [] (io_mem s)) :: ws), p')
      | r => r
      end
    | (Err e, s) => (Err e, io_prot s)
    | (Fault, s) => (Fault, io_prot s)
    end
  end.

Fixpoint receive_all (packets : list (list Z)) (p : ssh_packet_protection)
    : outcome (list (list Z)) * ssh_packet_protection :=
  match packets with
  | [] => (Ret [], p)
  | w :: ws =>
    match ssh_packet_decode_protected (zlen w) (mk_packet_io p (Some w)) with
    | (Ret v, s) =>
      match receive_all ws (io_prot s) with
      | (Ret pls, p') => (Ret (payload v :: pls), p')
      | r => r
      end
    | (Err e, s) => (Err e, io_prot s)
    | (Fault, s) => (Fault, io_prot s)
    end
  end.

Lemma stream_roundtrip f g cap msgs p :
  StreamCipher f -> prot_uses p f g -> MacOk g (prot_mac_len p) -> prot_block_size p <= 252 ->
  Forall (fun m => payload_ok (fst m) /\ rng_usable (snd m)) msgs -> 33092 <= cap ->
  exists ws p', send_all cap msgs p = (Ret ws, p') /\
    receive_all ws p = (Ret (map fst msgs), p') /\ prot_uses p' f g /\
    prot_sequence p' = (prot_sequence p + zlen msgs) mod 2 ^ 32.
Proof.
  intros Hf U Hg Hbs Hms Hcap. revert p U Hg Hbs.
  induction Hms as [|[pl rng] msgs [Hpl Hr] _ IH]; intros p U Hg Hbs.
  { exists [], p. split_and!; try done. rewrite zlen_nil, Z.add_0_r, Z.mod_small; [done|].
    apply (uses_seq _ _ _ U). }
  cbn [fst snd] in Hpl, Hr. set (d := framed p pl rng).
  destruct (framed_facts f g p U pl rng Hpl Hr Hbs) as (_ & _ & _ & Hd). fold d in Hd.
  pose proof (uses_mac _ _ _ U) as HM. unfold EMSSH_MAX_MAC in HM.
  destruct (prot_next_same p (zlen d)) as (Em & Eb & Es).
  destruct (IH (prot_next p (zlen d))) as (ws & p' & Hs & Hrv & U' & Eq);
    [apply prot_uses_next; [done|lia]|by rewrite Em|by rewrite Eb|].
  exists (seal f g p d :: ws), p'. cbn [send_all receive_all map fst].
  rewrite (encode_protected_eq f g p U); [|done..|].
  2: { fold d. rewrite zlen_zeros by lia. lia. }
  fold d. cbn [io_prot io_mem]. rewrite Hs. cbn [from_option id]. rewrite ztake_app.
  pose proof (decode_protected_seal f g p U pl rng [] Hpl Hr Hbs) as E. cbv zeta in E. fold d in E.
  rewrite app_nil_r in E. rewrite E. cbn [io_prot payload]. rewrite Hrv.
  split_and!; try done. rewrite Eq, Es, zlen_cons. unfold u32.
  rewrite Zplus_mod_idemp_l. f_equal. lia.
Qed.

(** *** Lemmas: arbitrary packets *)
Lemma mem_get_short p m n k :
  zlen m < n + k -> 0 < k ->
  mem_get n k (mk_packet_io p (Some m)) = (Fault, mk_packet_io p (Some m)).
Proof.
  intros Hn Hk. unfold mem_get, mem_read. cbn [io_mem].
  destruct ((n <? 0) || (k <? 0)) eqn:E; [done|].
  rewrite zlen_ztake, zlen_zdrop by lia. pose proof (zlen_nonneg m).
  by replace (Z.min k (Z.max 0 (zlen m - n)) =? k) with false by lia.
Qed.

(** A packet that is not refused outright is [d ++ m], encrypted part and MAC,
    in memory that holds both. *)
Lemma decode_protected_cases f g p mem len o s' :
  StreamCipher f -> prot_uses p f g -> Forall is_byte mem ->
  ssh_packet_decode_protected len (mk_packet_io p (Some mem)) = (o, s') ->
  (o = Fault) \/ (exists e, o = Err e /\ s' = mk_packet_io p (Some mem)) \/
  exists d m r, mem = d ++ m ++ r /\ len = zlen (d ++ m) /\ zlen m = prot_mac_len p /\
    8 <= zlen d /\
    after_decrypt p (zlen d) m
      (mk_packet_io p (Some (run_cipher f p SSH_CIPHER_DECRYPT d ++ m ++ r))) = (o, s').
Proof.
  intros Hf U Hb E. pose proof (uses_mac _ _ _ U) as HM. pose proof (uses_block _ _ _ U) as HB.
  destruct (Z.le_gt_cases len (prot_mac_len p)) as [Hl|Hl].
  { right. left. revert E. unfold ssh_packet_decode_protected. set (s := mk_packet_io p _).
    rewrite (bind_ret _ _ s p s), (bind_ret _ _ s s s) by done.
    rewrite (bind_ret _ _ s tt s) by (by rewrite (uses_active _ _ _ U)).
    rewrite (bind_err _ _ s SSH_ERR_MALFORMED_PACKET s) by (apply reject_true; lia).
    intros [= <- <-]. eauto. }
  destruct (Z.le_gt_cases len (zlen mem)) as [Hm|Hm].
  - destruct (zsplit mem (len - prot_mac_len p)) as (d & r & -> & Hd); [lia|].
    destruct (zsplit r (prot_mac_len p)) as (m & r' & -> & Hml); [len_lia|].
    replace len with (zlen (d ++ m)) in E by len_lia.
    rewrite (decode_protected_split f g p U) in E by done.
    destruct (_ || _) eqn:Eg.
    + inversion E; subst. right. left. eauto.
    + right. right. exists d, m, r'. split_and!; try done; [len_lia|bool_lia].
  - revert E. unfold ssh_packet_decode_protected. set (s := mk_packet_io p _).
    rewrite (bind_ret _ _ s p s), (bind_ret _ _ s s s) by done.
    rewrite (bind_ret _ _ s tt s) by (by rewrite (uses_active _ _ _ U)).
    rewrite (bind_ret _ _ s tt s) by (apply reject_false; lia). cbv zeta.
    destruct (_ || _) eqn:Eg; [intros [= <- <-]; eauto|]. rewrite (bind_ret _ _ s tt s) by done.
    destruct (_ >? _) eqn:Eg2; [intros [= <- <-]; eauto|]. rewrite (bind_ret _ _ s tt s) by done.
    rewrite (bind_fault _ _ s s) by (apply mem_get_short; lia). intros [= <- _]. by left.
Qed.

(** *** Lemmas: refused packets, with any callbacks *)
Definition crypt (f : cipher_crypt_fn) (p : ssh_packet_protection) (dir : ssh_cipher_direction) (d : list Z) : ssh_status * list Z :=
  f (prot_cipher_algorithm p) (ztake (prot_cipher_key_len p) (prot_cipher_key p))
    (ztake (prot_cipher_iv_len p) (prot_cipher_iv p)) (prot_sequence p) dir d.

Section refused.
Context (f : cipher_crypt_fn) (g : mac_compute_fn) (p : ssh_packet_protection)
  `{!InPlaceCipher f} (U : prot_uses p f g).

Lemma call_cipher_any d r n dir :
  n = zlen d ->
  call_cipher (prot_cipher_iv p) dir n (mk_packet_io p (Some (d ++ r))) =
    (Ret (fst (crypt f p dir d)), mk_packet_io p (Some (snd (crypt f p dir d) ++ r))).
Proof.
  intros Hn. destruct (uses_api _ _ _ U) as (api & Ea & Ec & _). unfold call_cipher.
  rewrite (bind_ret _ _ _ p _) by done.
  rewrite (bind_ret _ _ _ _ _ (mem_get_front p d r n Hn)), Ea, Ec. unfold crypt.
  pose proof (cipher_in_place (prot_cipher_algorithm p) (ztake (prot_cipher_key_len p) (prot_cipher_key p))
    (ztake (prot_cipher_iv_len p) (prot_cipher_iv p)) (prot_sequence p) dir d) as Hl.
  destruct (f _ _ _ _ _ _) as [st d']. cbn [fst snd] in *.
  by rewrite (bind_ret _ _ _ _ _ (mem_set_front p d d' r Hl)).
Qed.

Lemma restore_any d r n e :
  n = zlen d ->
  restore_and_fail (A:=ssh_packet_view) (prot_cipher_iv p) n e (mk_packet_io p (Some (d ++ r))) =
    (Err e, mk_packet_io p (Some (snd (crypt f p SSH_CIPHER_ENCRYPT d) ++ r))).
Proof. intros Hn. unfold restore_and_fail. by erewrite bind_ret by (by apply call_cipher_any). Qed.

Lemma mem_get_state n k s : snd (mem_get n k s) = s /\ (forall e, fst (mem_get n k s) <> Err e).
Proof. unfold mem_get. destruct (io_mem s); [|done]. by destruct (mem_read _ _ _). Qed.

(** Whatever the reason, the decrypted bytes are encrypted. *)
Lemma after_decrypt_refused d r n m e s' :
  n = zlen d -> after_decrypt p n m (mk_packet_io p (Some (d ++ r))) = (Err e, s') ->
  s' = mk_packet_io p (Some (snd (crypt f p SSH_CIPHER_ENCRYPT d) ++ r)).
Proof.
  intros Hn E. revert E. unfold after_decrypt. rewrite (bind_ret _ _ _ _ _ (call_mac_uses f g p U d r n Hn)).
  destruct (g _ _ _ _) as [st mac]. set (s := mk_packet_io p (Some (d ++ r))).
  assert (forall status, restore_and_fail (A:=ssh_packet_view) (prot_cipher_iv p) n status s = (Err e, s') ->
    s' = mk_packet_io p (Some (snd (crypt f p SSH_CIPHER_ENCRYPT d) ++ r))) as Hr
    by (intros status; unfold s; rewrite restore_any by done; by intros [= _ <-]).
  destruct (_ || _); [apply Hr|]. destruct (mac_matches _ _ _) as [[]|]; [|apply Hr|done].
  unfold mbind, prog_bind. destruct (mem_get_state 0 4 s) as [Hs Hne].
  destruct (mem_get 0 4 s) as [[b|e'|] s1]; cbn [fst snd] in Hs, Hne; [subst s1|by destruct (Hne e')|done].
  destruct (negb _); [apply Hr|]. unfold get_state at 1. destruct (ssh_packet_decode_plain (io_mem s) n) as [v|e'|]; [done|apply Hr|done].
Qed.

Lemma decode_refused len mem e s' :
  ssh_packet_decode_protected len (mk_packet_io p (Some mem)) = (Err e, s') ->
  s' = mk_packet_io p (Some mem) \/
  exists d r, mem = d ++ r /\ zlen d = len - prot_mac_len p /\
    let '(status, d1) := crypt f p SSH_CIPHER_DECRYPT d in
    (status <> SSH_OK /\ e = SSH_ERR_PLATFORM /\ s' = mk_packet_io p (Some (d1 ++ r))) \/
    (status = SSH_OK /\ s' = mk_packet_io p (Some (snd (crypt f p SSH_CIPHER_ENCRYPT d1) ++ r))).
Proof.
  unfold ssh_packet_decode_protected. set (s := mk_packet_io p _).
  rewrite (bind_ret _ _ s p s), (bind_ret _ _ s s s) by done.
  rewrite (bind_ret _ _ s tt s) by (by rewrite (uses_active _ _ _ U)). pose proof (uses_mac _ _ _ U) as HM.
  destruct (_ || (prot_mac_len p >? _)) eqn:E1; [intros [= _ <-]; by left|]. rewrite (bind_ret _ _ s tt s) by done. cbv zeta.
  set (n := len - prot_mac_len p). assert (0 < n) as Hn by (unfold n; bool_lia).
  destruct (_ || negb _); [intros [= _ <-]; by left|]. rewrite (bind_ret _ _ s tt s) by done.
  destruct (n >? _); [intros [= _ <-]; by left|]. rewrite (bind_ret _ _ s tt s) by done.
  destruct (Z.le_gt_cases (n + prot_mac_len p) (zlen mem)) as [Hm|Hm];
    [|rewrite (bind_fault _ _ s s) by (apply mem_get_short; lia); by intros [=]].
  destruct (zsplit mem n) as (d & r & -> & Hd); [lia|]. intros E. right. exists d, r. split_and!; [done|done|]. clearbody n.
  destruct (mem_get_state n (prot_mac_len p) s) as [Hs Hne].
  destruct (mem_get n (prot_mac_len p) s) as [[m|e'|] s1] eqn:Eg; cbn [fst snd] in Hs, Hne;
    [subst s1; rewrite (bind_ret _ _ s m s Eg) in E|by destruct (Hne e')|by rewrite (bind_fault _ _ s s1 Eg) in E].
  rewrite (bind_ret _ _ _ _ _ (call_cipher_any d r _ SSH_CIPHER_DECRYPT (eq_sym Hd))) in E.
  pose proof (cipher_in_place (prot_cipher_algorithm p) (ztake (prot_cipher_key_len p) (prot_cipher_key p))
    (ztake (prot_cipher_iv_len p) (prot_cipher_iv p)) (prot_sequence p) SSH_CIPHER_DECRYPT d) as Hl.
  change (f _ _ _ _ _ _) with (crypt f p SSH_CIPHER_DECRYPT d) in Hl.
  destruct (crypt f p SSH_CIPHER_DECRYPT d) as [st d1]. cbn [fst snd] in *.
  destruct (decide (st = SSH_OK)) as [->|Hst].
  - rewrite (bind_ret _ _ _ tt _) in E by done. rewrite (next_iv_prot f g p U) in E by lia. right. split; [done|].
    eapply after_decrypt_refused; [|exact E]. lia.
  - rewrite (bind_err _ _ _ SSH_ERR_PLATFORM (mk_packet_io p (Some (d1 ++ r)))) in E; [injection E as <- <-; by left|].
    apply reject_true. unfold status_bad. by rewrite bool_decide_false.
Qed.
End refused.

(** A packet that fills its memory is refused without a trace, or accepted with a
    payload of bytes. *)
Lemma decode_protected_total f g p d m :
  StreamCipher f -> prot_uses p f g -> MacOk g (prot_mac_len p) -> Forall is_byte (d ++ m) ->
  zlen m = prot_mac_len p ->
  (exists e, ssh_packet_decode_protected (zlen (d ++ m)) (mk_packet_io p (Some (d ++ m))) =
     (Err e, mk_packet_io p (Some (d ++ m)))) \/
  exists pl mem', ssh_packet_decode_protected (zlen (d ++ m)) (mk_packet_io p (Some (d ++ m))) =
    (Ret (mk_packet_view pl (zlen pl)), mk_packet_io (prot_next p (zlen d)) mem') /\
    Forall is_byte pl /\ 0 < zlen d <= EMSSH_MAX_PACKET_SIZE + 4.
Proof.
  intros Hf U Hg Hb Hm. apply Forall_app in Hb as [Hd Hmb].
  pose proof (decode_protected_split f g p U d m [] Hm) as E. rewrite app_nil_r in E.
  destruct (_ || _) eqn:Ec in E; [by eauto|]. pose proof (uses_block _ _ _ U).
  rewrite E. clear E. set (c := run_cipher f p SSH_CIPHER_DECRYPT d).
  assert (zlen c = zlen d) as Hc by (by apply zlen_run_cipher).
  assert (Forall is_byte c) as Hcb by (by apply run_cipher_byte).
  pose proof (after_decrypt_eq f g p U c m []) as A. rewrite !app_nil_r, Hc in A.
  rewrite A by (try done; bool_lia). clear A.
  assert (forall e, restore_and_fail (A:=ssh_packet_view) (prot_cipher_iv p) (zlen d) e
    (mk_packet_io p (Some (c ++ m))) = (Err e, mk_packet_io p (Some (d ++ m)))) as Hr
    by (intros e; by apply (restore_undoes f g p U)).
  assert (Forall is_byte (c ++ m)) as Hmem by (by apply Forall_app_2).
  pose proof (zlen_nonneg d). pose proof (zlen_nonneg m).
  pose proof (decode_plain_cases (c ++ m) (zlen d) Hmem ltac:(len_lia)) as Hp.
  case_bool_decide; [|left; eexists; apply Hr].
  destruct (negb (be_value _ + 4 =? _)); [left; eexists; apply Hr|].
  destruct (ssh_packet_decode_plain (Some (c ++ m)) _) as [v| |] eqn:Ep; [|left; eexists; apply Hr|done].
  destruct Hp as (pl & pad & rest & Eq & _ & -> & _). right. exists pl, (Some (c ++ m)).
  split_and!; [done| |bool_lia..]. rewrite Eq in Hmem. apply Forall_app in Hmem as [Hq _]. unfold plain_packet in Hq.
  rewrite !Forall_app in Hq. by destruct Hq as (_ & _ & ? & _).
Qed.

(** ** Properties of the packet layer *)

(** [ssh_packet_padding_len] returns the least padding of at least four
    bytes that makes the whole packet a multiple of the cipher block (at least
    eight), [ssh_packet_encoded_len] the resulting size, without wrap-around
    for every payload and block size a packet can have. *)
Theorem packet_padding_minimal n b :
  0 <= n <= EMSSH_MAX_PACKET_SIZE -> 0 <= b < 2 ^ 32 ->
  let bs := normalized_block_size b in
  let p := ssh_packet_padding_len n b in
  4 <= p < bs + 4 /\ (5 + n + p) mod bs = 0 /\ ssh_packet_encoded_len n b = 5 + n + p /\
  forall q, 4 <= q -> (5 + n + q) mod bs = 0 -> p <= q.
Proof.
  intros Hn Hb bs p. unfold EMSSH_MAX_PACKET_SIZE in Hn. pose proof (normalized_block_size_ge b) as Hge.
  assert (bs < 2 ^ 32) as Hbs
    by (unfold bs, normalized_block_size, SSH_PACKET_MIN_BLOCK_SIZE; case_bool; lia).
  destruct (padding_len_spec n b) as [Hp Hm]; [fold bs; lia..|]. fold bs p in Hp, Hm, Hge.
  split_and!; try done; try lia.
  - unfold ssh_packet_encoded_len, u64. fold p. rewrite Z.mod_small; lia.
  - intros q Hq Hqm. destruct (Z.le_gt_cases p q); [done|exfalso].
    apply Z.mod_divide in Hm as [i Hi]; [|lia]. apply Z.mod_divide in Hqm as [j Hj]; [|lia].
    assert (i - j = 0 \/ 1 <= i - j) as [?|?] by nia; nia.
Qed.

Lemma packet_padding_minimal_witness :
  ssh_packet_padding_len 12 16 = 15 /\ (5 + 12 + 15) mod 16 = 0 /\
  forall q, 4 <= q -> (5 + 12 + q) mod 16 = 0 -> 15 <= q.
Proof.
  destruct (packet_padding_minimal 12 16) as (_ & H & _ & Hq); [by vm_compute..|].
  split_and!; [by vm_compute|exact H|exact Hq].
Defined.

(** A payload encoded as a plain packet, with any generator for the
    padding, fills exactly [ssh_packet_encoded_len] bytes at the front of the
    output, leaves the rest of it alone, and decodes to the same payload. *)
Theorem plain_packet_roundtrip cap pl b rng out :
  Forall is_byte pl -> zlen pl <= EMSSH_MAX_PAYLOAD_SIZE -> 0 <= b <= 252 -> rng_usable rng ->
  ssh_packet_encoded_len (zlen pl) b <= cap <= zlen out ->
  exists w, ssh_packet_encode_plain cap (Some pl) (zlen pl) b rng (Some out) =
      (Ret (zlen w), Some (w ++ zdrop (zlen w) out)) /\
    zlen w = ssh_packet_encoded_len (zlen pl) b /\
    ssh_packet_decode_plain (Some w) (zlen w) = Ret (mk_packet_view pl (zlen pl)).
Proof.
  intros Hb Hl Hbs Hr Hc. pose proof (zlen_nonneg pl). unfold EMSSH_MAX_PAYLOAD_SIZE in *.
  assert (normalized_block_size b <= 252) as Hn
    by (unfold normalized_block_size, SSH_PACKET_MIN_BLOCK_SIZE; case_bool; lia).
  destruct (padding_len_spec (zlen pl) b) as [Hp Hm]; [lia..|].
  unfold ssh_packet_encoded_len, u64 in *. rewrite Z.mod_small in * by lia.
  destruct (padding_bytes_ok rng (ssh_packet_padding_len (zlen pl) b) Hr) as [Hpl Hpb]; [lia|].
  eexists. split_and!.
  - apply encode_plain_ok; try done. rewrite zlen_plain_packet, Hpl. lia.
  - rewrite zlen_plain_packet, Hpl. lia.
  - rewrite <- (app_nil_r (plain_packet _ _)) at 1.
    apply decode_plain_image; try done; rewrite Hpl; unfold EMSSH_MAX_PACKET_SIZE; lia.
Qed.

Lemma plain_packet_roundtrip_witness :
  exists w, ssh_packet_encode_plain 32 (Some [5; 6; 7]) 3 16 (Some count_rng) (Some (zeros 32)) =
      (Ret (zlen w), Some (w ++ zdrop (zlen w) (zeros 32))) /\ zlen w = 16 /\
    ssh_packet_decode_plain (Some w) (zlen w) = Ret (mk_packet_view [5; 6; 7] 3).
Proof.
  apply (plain_packet_roundtrip 32 [5; 6; 7] 16 (Some count_rng) (zeros 32)).
  - by apply (bool_decide_unpack _); vm_compute.
  - by vm_compute.
  - by vm_compute.
  - apply count_rng_ok.
  - by vm_compute.
Defined.

(** The plain decoder accepts a packet exactly when the packet is the
    image of some payload with 4 to 255 bytes of padding and at most
    [EMSSH_MAX_PACKET_SIZE + 4] bytes, and then returns that payload: the two
    length fields are checked against the packet size and against each other. *)
Theorem decode_plain_accepts_exactly mem v :
  Forall is_byte mem ->
  ssh_packet_decode_plain (Some mem) (zlen mem) = Ret v <->
  exists pl pad, mem = plain_packet pl pad /\ 4 <= zlen pad < 256 /\
    zlen mem <= EMSSH_MAX_PACKET_SIZE + 4 /\ v = mk_packet_view pl (zlen pl).
Proof.
  intros Hb. split.
  - intros E. pose proof (zlen_nonneg mem).
    destruct (decode_plain_inv mem (zlen mem) v Hb ltac:(lia) E)
      as (pl & pad & rest & -> & Hl & -> & Hp & Hm).
    assert (rest = []) as -> by (apply zlen_zero_inv; len_lia). rewrite app_nil_r in *. eauto 6.
  - intros (pl & pad & -> & Hp & Hm & ->). rewrite <- (app_nil_r (plain_packet _ _)) at 1.
    unfold plain_packet in Hb. rewrite !Forall_app in Hb. destruct Hb as (_ & _ & ? & ?).
    apply decode_plain_image; try done. by rewrite zlen_plain_packet in Hm.
Qed.

Lemma decode_plain_accepts_exactly_witness :
  ssh_packet_decode_plain (Some [0; 0; 0; 7; 4; 8; 9; 0; 0; 0; 0]) 11 =
    Ret (mk_packet_view [8; 9] 2).
Proof.
  apply (decode_plain_accepts_exactly [0; 0; 0; 7; 4; 8; 9; 0; 0; 0; 0]).
  - by apply (bool_decide_unpack _); vm_compute.
  - exists [8; 9], [0; 0; 0; 0]. by vm_compute.
Defined.

(** A protection for the examples: a 16-byte counter one step before a carry
    into the second byte, and the last sequence number before it wraps. *)
Definition demo_api : ssh_crypto_api := mk_crypto (Some xor_cipher) (Some (sum_mac 4)) None.
Definition demo_protection : ssh_packet_protection :=
  mk_protection (Some demo_api) null_view null_view [7] 1
    (replicate 15 0 ++ [255] ++ replicate 16 0) 16 [3] 1 16 4 (2 ^ 32 - 1) true.

Lemma demo_uses : prot_uses demo_protection xor_cipher (sum_mac 4).
Proof.
  split; cbn [demo_protection prot_active prot_crypto prot_mac_len prot_block_size prot_cipher_iv_len
    prot_sequence]; unfold is_u32, EMSSH_MAX_MAC, EMSSH_MAX_CIPHER_IV; try lia; try done.
  - by exists demo_api.
  - split_and!; [lia|lia|done|by apply (bool_decide_unpack _); vm_compute].
Qed.

(** C1: any sequence of payloads sent through the protected encoder is
    received unchanged, in order, by a decoder that starts from the same state:
    after every packet both sides agree on the cipher counter and on the
    sequence number, which counts the packets modulo 2^32. *)
Theorem protected_stream_roundtrip f g cap msgs p :
  StreamCipher f -> prot_uses p f g -> MacOk g (prot_mac_len p) -> prot_block_size p <= 252 ->
  Forall (fun m => payload_ok (fst m) /\ rng_usable (snd m)) msgs -> 33092 <= cap ->
  exists ws p', send_all cap msgs p = (Ret ws, p') /\
    receive_all ws p = (Ret (map fst msgs), p') /\
    prot_sequence p' = (prot_sequence p + zlen msgs) mod 2 ^ 32.
Proof.
  intros. destruct (stream_roundtrip f g cap msgs p) as (ws & p' & ? & ? & _ & ?); eauto 6.
Qed.

Lemma protected_stream_roundtrip_witness :
  exists ws p', send_all 33092 [([1; 2; 3], None); ([4], Some count_rng)] demo_protection = (Ret ws, p') /\
    receive_all ws demo_protection = (Ret [[1; 2; 3]; [4]], p') /\ prot_sequence p' = 1.
Proof.
  apply (protected_stream_roundtrip xor_cipher (sum_mac 4) 33092
    [([1; 2; 3], None); ([4], Some count_rng)] demo_protection).
  - apply _.
  - apply demo_uses.
  - apply (sum_mac_ok 4).
  - by vm_compute.
  - repeat constructor; cbn; try apply count_rng_ok;
      first [by apply (bool_decide_unpack _); vm_compute|by vm_compute].
  - done.
Defined.

(** C33: a protected packet that the decoder refuses leaves the protection (counter and
    sequence number) as it was, and its memory too, whatever the callbacks did, but for
    two cases that are exactly told: when the decryption fails, the packet is refused with
    SSH_ERR_PLATFORM and the part before the MAC is what the failed call left; and when a
    decrypted packet is refused (its MAC differs or could not be computed, or it is
    malformed), that part is what the encryption of the decrypted bytes gives.  So with a
    cipher that succeeds and undoes itself every refused packet is unchanged, even when
    the MAC cannot be computed. *)
Theorem decode_protected_refusal_atomic f g p mem len e s' :
  InPlaceCipher f -> prot_uses p f g ->
  ssh_packet_decode_protected len (mk_packet_io p (Some mem)) = (Err e, s') ->
  (s' = mk_packet_io p (Some mem) \/
   exists d r, mem = d ++ r /\ zlen d = len - prot_mac_len p /\
     let '(status, d1) := crypt f p SSH_CIPHER_DECRYPT d in
     (status <> SSH_OK /\ e = SSH_ERR_PLATFORM /\ s' = mk_packet_io p (Some (d1 ++ r))) \/
     (status = SSH_OK /\ s' = mk_packet_io p (Some (snd (crypt f p SSH_CIPHER_ENCRYPT d1) ++ r)))) /\
  (StreamCipher f -> Forall is_byte mem -> s' = mk_packet_io p (Some mem)).
Proof.
  intros Hf U E. pose proof (decode_refused f g p U len mem e s' E) as H. split; [exact H|]. intros Hs Hb.
  destruct H as [?|(d & r & -> & _ & Hr)]; [done|]. apply Forall_app in Hb as [Hd _].
  pose proof (cipher_total (prot_cipher_algorithm p) (ztake (prot_cipher_key_len p) (prot_cipher_key p))
    (ztake (prot_cipher_iv_len p) (prot_cipher_iv p)) (prot_sequence p) SSH_CIPHER_DECRYPT d) as Ht.
  pose proof (cipher_enc_dec (prot_cipher_algorithm p) (ztake (prot_cipher_key_len p) (prot_cipher_key p))
    (ztake (prot_cipher_iv_len p) (prot_cipher_iv p)) (prot_sequence p) d Hd) as Hu.
  unfold crypt in Hr. destruct (f _ _ _ _ SSH_CIPHER_DECRYPT d) as [st d1]. cbn [fst snd] in *. subst st.
  destruct Hr as [(? & _)|[_ ->]]; [done|]. by rewrite Hu.
Qed.

(** A MAC that cannot be computed. *)
Definition no_mac : mac_compute_fn := fun _ _ _ _ => (SSH_ERR_PLATFORM, []).
Definition faulty_protection : ssh_packet_protection :=
  mk_protection (Some (mk_crypto (Some xor_cipher) (Some no_mac) None)) null_view null_view [7] 1
    (replicate 32 0) 16 [3] 1 16 4 5 true.

Lemma faulty_uses : prot_uses faulty_protection xor_cipher no_mac.
Proof.
  split; cbn [faulty_protection prot_active prot_crypto prot_mac_len prot_block_size prot_cipher_iv_len
    prot_sequence]; unfold is_u32, EMSSH_MAX_MAC, EMSSH_MAX_CIPHER_IV; try lia; try done.
  - by eexists.
  - split_and!; [lia|lia|done|by apply (bool_decide_unpack _); vm_compute].
Qed.

Lemma decode_protected_refusal_atomic_witness :
  ssh_packet_decode_protected 20 (mk_packet_io faulty_protection (Some (replicate 20 9))) =
    (Err SSH_ERR_PLATFORM, mk_packet_io faulty_protection (Some (replicate 20 9))).
Proof.
  assert (fst (ssh_packet_decode_protected 20 (mk_packet_io faulty_protection (Some (replicate 20 9)))) = Err SSH_ERR_PLATFORM) as E
    by (by vm_compute).
  destruct (decode_protected_refusal_atomic xor_cipher no_mac faulty_protection (replicate 20 9) 20 SSH_ERR_PLATFORM
    (snd (ssh_packet_decode_protected 20 (mk_packet_io faulty_protection (Some (replicate 20 9)))))) as [_ H].
  - apply _.
  - apply faulty_uses.
  - apply pair_fst. exact E.
  - rewrite <- H; [|apply _|by apply (bool_decide_unpack _); vm_compute]. apply pair_fst. exact E.
Defined.

(** C2: the decoder returns a payload only for an authentic packet: the bytes
    before the MAC decrypt to a well-formed plain packet holding that payload,
    the received MAC is the MAC of those bytes under the current sequence
    number, and the state moves on by exactly that packet. *)
Theorem decode_protected_authentic f g p mem len v s' :
  StreamCipher f -> prot_uses p f g -> MacOk g (prot_mac_len p) -> Forall is_byte mem ->
  ssh_packet_decode_protected len (mk_packet_io p (Some mem)) = (Ret v, s') ->
  exists d m r pl pad, mem = d ++ m ++ r /\ len = zlen (d ++ m) /\
    run_cipher f p SSH_CIPHER_DECRYPT d = plain_packet pl pad /\ 4 <= zlen pad < 256 /\
    m = run_mac g p (plain_packet pl pad) /\ v = mk_packet_view pl (zlen pl) /\
    s' = mk_packet_io (prot_next p (zlen d)) (Some (plain_packet pl pad ++ m ++ r)).
Proof.
  intros Hf U Hg Hb E.
  destruct (decode_protected_cases f g p mem len _ s' Hf U Hb E)
    as [?|[(e' & ? & Hs)|(d & m & r & -> & -> & Hm & Hd & E')]]; [done|done|].
  assert (Hall := Hb). apply Forall_app in Hb as [Hdb Hmr]. apply Forall_app in Hmr as [Hmb Hrb].
  rewrite <- (zlen_run_cipher f p SSH_CIPHER_DECRYPT d) in E' at 1.
  rewrite (after_decrypt_eq f g p U) in E'; [|done..|by apply run_cipher_byte|by rewrite zlen_run_cipher].
  rewrite !(zlen_run_cipher f p SSH_CIPHER_DECRYPT d) in E' by done.
  case_bool_decide as Hmac; [destruct (negb _)|];
    [|destruct (ssh_packet_decode_plain _ _) as [v'| |] eqn:Ep|]; try done;
    try (rewrite (restore_undoes f g p U) in E' by done; by inversion E').
  inversion E'; subst v' s'.
  apply decode_plain_inv in Ep as (pl & pad & rest & Eq & El & -> & Hp & _).
  2: { rewrite !Forall_app. split_and!; try done. by apply run_cipher_byte. }
  2: { pose proof (zlen_nonneg (m ++ r)). rewrite zlen_app, zlen_run_cipher by done. lia. }
  assert (run_cipher f p SSH_CIPHER_DECRYPT d = plain_packet pl pad /\ m ++ r = rest) as [Ed <-].
  { apply app_inj_1; [|done]. apply Nat2Z.inj. fold (zlen (plain_packet pl pad)).
    rewrite <- El. by apply zlen_run_cipher. }
  exists d, m, r, pl, pad. rewrite <- Ed. split_and!; try done; lia.
Qed.

Definition demo_packet : list Z :=
  [248; 248; 248; 244; 241; 249; 250; 248; 248; 248; 248; 248; 248; 248; 248; 248; 26; 26; 26; 26].

Lemma decode_protected_authentic_witness :
  fst (send_all 64 [([1; 2], None)] demo_protection) = Ret [demo_packet] /\
  exists d m r pl pad, demo_packet = d ++ m ++ r /\
    m = run_mac (sum_mac 4) demo_protection (plain_packet pl pad) /\
    mk_packet_view [1; 2] 2 = mk_packet_view pl (zlen pl).
Proof.
  split; [by vm_compute|].
  destruct (decode_protected_authentic xor_cipher (sum_mac 4) demo_protection demo_packet 20
    (mk_packet_view [1; 2] 2)
    (snd (ssh_packet_decode_protected 20 (mk_packet_io demo_protection (Some demo_packet)))))
    as (d & m & r & pl & pad & Hw & _ & _ & _ & Hm & Hv & _).
  - apply _.
  - apply demo_uses.
  - apply (sum_mac_ok 4).
  - by apply (bool_decide_unpack _); vm_compute.
  - apply pair_fst. by vm_compute.
  - exists d, m, r, pl, pad. split; [exact Hw|]. split; [exact Hm|exact Hv].
Defined.

(** A protected packet of [n] bytes advances the counter-mode IV, read as a
    big-endian number over its [iv_len] bytes, by the number of cipher blocks
    the packet fills, modulo the width of the counter, and the sequence number
    by one modulo 2^32; the unused tail of the IV array stays as it was. *)
Theorem protected_encode_advances f g p cap pl rng out :
  StreamCipher f -> prot_uses p f g -> MacOk g (prot_mac_len p) -> prot_block_size p <= 252 ->
  prot_cipher_iv_len p <> 0 -> payload_ok pl -> rng_usable rng -> 33092 <= cap <= zlen out ->
  let l := prot_cipher_iv_len p in
  exists n s', ssh_packet_encode_protected cap (Some pl) (zlen pl) rng (mk_packet_io p (Some out)) =
      (Ret (n + prot_mac_len p), s') /\
    n = ssh_packet_encoded_len (zlen pl) (prot_block_size p) /\
    be_value (ztake l (prot_cipher_iv (io_prot s'))) =
      (be_value (ztake l (prot_cipher_iv p)) + (n + l - 1) / l) mod 256 ^ l /\
    zdrop l (prot_cipher_iv (io_prot s')) = zdrop l (prot_cipher_iv p) /\
    prot_sequence (io_prot s') = (prot_sequence p + 1) mod 2 ^ 32.
Proof.
  intros Hf U Hg Hbs Hl Hpl Hr Hcap l. pose proof (uses_mac _ _ _ U) as HM. unfold EMSSH_MAX_MAC in HM.
  destruct (framed_facts f g p U pl rng Hpl Hr Hbs) as (_ & _ & _ & Hd).
  set (d := framed p pl rng) in *.
  destruct (advance_stream_position_spec p f g (zlen d) U ltac:(lia) Hl) as (_ & _ & Ht & Hv).
  exists (zlen d), (mk_packet_io (prot_next p (zlen d))
    (Some (seal f g p d ++ zdrop (zlen (seal f g p d)) out))).
  rewrite (encode_protected_eq f g p U) by (try done; fold d; lia). fold d.
  rewrite (zlen_seal f g p) by done. split_and!; try done.
  - unfold d, framed. rewrite zlen_plain_packet. pose proof (zlen_nonneg pl).
    pose proof (uses_block _ _ _ U). destruct Hpl as [_ Hpl]. unfold EMSSH_MAX_PAYLOAD_SIZE in Hpl.
    destruct (padding_len_spec (zlen pl) (prot_block_size p)) as [Hp _]; [lia|lia| |].
    { unfold normalized_block_size. case_bool; unfold SSH_PACKET_MIN_BLOCK_SIZE; lia. }
    destruct (padding_bytes_ok rng _ Hr (ltac:(lia) :
      0 <= ssh_packet_padding_len (zlen pl) (prot_block_size p))) as [-> _].
    unfold normalized_block_size, SSH_PACKET_MIN_BLOCK_SIZE in Hp.
    unfold ssh_packet_encoded_len, u64. rewrite Z.mod_small; case_bool; lia.
Qed.

Lemma protected_encode_advances_witness :
  exists n s', ssh_packet_encode_protected 33092 (Some [1; 2]) 2 None
      (mk_packet_io demo_protection (Some (zeros 33092))) = (Ret (n + 4), s') /\ n = 16 /\
    be_value (ztake 16 (prot_cipher_iv (io_prot s'))) = 256 /\ prot_sequence (io_prot s') = 0.
Proof.
  destruct (protected_encode_advances xor_cipher (sum_mac 4) demo_protection 33092 [1; 2] None
    (zeros 33092)) as (n & s' & E & Hn & Hv & _ & Hs).
  - apply _.
  - apply demo_uses.
  - apply (sum_mac_ok 4).
  - done.
  - done.
  - split; [by apply (bool_decide_unpack _); vm_compute|by vm_compute].
  - done.
  - rewrite zlen_zeros by lia. lia.
  - assert (n = 16) as -> by (rewrite Hn; by vm_compute). exists 16, s'. split; [exact E|].
    split; [done|]. split; [etransitivity; [exact Hv|by vm_compute]|rewrite Hs; by vm_compute].
Defined.

Lemma fill_array_spec size src :
  zlen src <= size ->
  exists a, fill_array size src (zlen src) = Some a /\ ztake (zlen src) a = src /\ zlen a = size /\
    (Forall is_byte src -> Forall is_byte a).
Proof.
  intros Hs. pose proof (zlen_nonneg src). unfold fill_array.
  pose proof (mem_read_app [] src []) as E. rewrite app_nil_r, zlen_nil in E. cbn [app] in E.
  rewrite E. change (mbind ?f (Some src)) with (f src). cbv beta.
  destruct (zsplit (zeros size) (zlen src)) as (x & r & Ez & Hx); [rewrite zlen_zeros; lia|].
  pose proof (mem_write_app [] x src r Hx) as W. rewrite zlen_nil in W. cbn [app] in W.
  rewrite Ez, W. exists (src ++ r). split_and!; [done|apply ztake_app| |].
  - rewrite zlen_app, <- Hx, <- zlen_app, <- Ez. rewrite zlen_zeros; lia.
  - intros Hb. apply Forall_app_2; [done|].
    assert (Forall is_byte (zeros size)) as Hz by (by apply Forall_replicate).
    rewrite Ez in Hz. by apply Forall_app in Hz as [_ ?].
Qed.

(** [ssh_packet_protection_set] checks every size against its array before
    copying: with sizes in range it installs the keys, resets the sequence
    number and establishes the invariant the codec relies on; with any size out
    of range it reports an invalid argument and leaves the protection as it
    was.  It never writes outside the arrays. *)
Theorem protection_set_establishes api f g calg malg key iv mkey b mac p :
  cipher_crypt api = Some f -> mac_compute api = Some g -> Forall is_byte iv -> 0 <= mac ->
  let '(o, p') := ssh_packet_protection_set (Some api) calg malg (Some key) (zlen key)
      (Some iv) (zlen iv) (Some mkey) (zlen mkey) b mac p in
  if bool_decide (0 < zlen key <= EMSSH_MAX_CIPHER_KEY /\ zlen iv <= EMSSH_MAX_CIPHER_IV /\
       0 < zlen mkey <= EMSSH_MAX_MAC_KEY /\ 0 < mac <= EMSSH_MAX_MAC)
  then o = Ret tt /\ prot_uses p' f g /\ prot_sequence p' = 0 /\
    ztake (prot_cipher_key_len p') (prot_cipher_key p') = key /\
    ztake (prot_cipher_iv_len p') (prot_cipher_iv p') = iv /\
    ztake (prot_mac_key_len p') (prot_mac_key p') = mkey
  else o = Err SSH_ERR_INVALID_ARGUMENT /\ p' = p.
Proof.
  intros Ef Eg Hiv Hmac. unfold ssh_packet_protection_set. rewrite Ef, Eg. cbn [is_null orb andb].
  rewrite (bind_ret _ _ p tt p) by done.
  pose proof (zlen_nonneg key). pose proof (zlen_nonneg iv). pose proof (zlen_nonneg mkey).
  case_bool_decide as Hc; unfold EMSSH_MAX_CIPHER_KEY, EMSSH_MAX_CIPHER_IV, EMSSH_MAX_MAC_KEY,
    EMSSH_MAX_MAC in Hc.
  2: { rewrite (bind_err _ _ p SSH_ERR_INVALID_ARGUMENT p); [done|].
       apply reject_true. unfold EMSSH_MAX_CIPHER_KEY, EMSSH_MAX_CIPHER_IV, EMSSH_MAX_MAC_KEY,
         EMSSH_MAX_MAC. lia. }
  rewrite (bind_ret _ _ p tt p) by (apply reject_false; unfold EMSSH_MAX_CIPHER_KEY,
    EMSSH_MAX_CIPHER_IV, EMSSH_MAX_MAC_KEY, EMSSH_MAX_MAC; lia).
  cbn [from_option id].
  destruct (fill_array_spec EMSSH_MAX_CIPHER_KEY key) as (k & -> & Ek & _); [unfold EMSSH_MAX_CIPHER_KEY; lia|].
  destruct (fill_array_spec EMSSH_MAX_CIPHER_IV iv) as (i & -> & Ei & Hil & Hib); [unfold EMSSH_MAX_CIPHER_IV; lia|].
  destruct (fill_array_spec EMSSH_MAX_MAC_KEY mkey) as (m & -> & Em & _); [unfold EMSSH_MAX_MAC_KEY; lia|].
  unfold put_state. split_and!; try done. split; cbn; try done.
  - by exists api.
  - unfold EMSSH_MAX_MAC. lia.
  - apply normalized_block_size_ge.
  - unfold EMSSH_MAX_CIPHER_IV in *. split_and!; try lia. by apply Hib.
Qed.

Lemma protection_set_establishes_witness :
  let '(o, p') := ssh_packet_protection_set (Some demo_api) null_view null_view (Some [1; 2]) 2
      (Some [3]) 1 (Some [4]) 1 16 4 ssh_packet_protection_init in
  o = Ret tt /\ prot_uses p' xor_cipher (sum_mac 4).
Proof.
  pose proof (protection_set_establishes demo_api xor_cipher (sum_mac 4) null_view null_view
    [1; 2] [3] [4] 16 4 ssh_packet_protection_init) as H.
  specialize (H eq_refl eq_refl ltac:(by apply (bool_decide_unpack _); vm_compute) ltac:(lia)).
  rewrite bool_decide_true in H by (by vm_compute).
  destruct (ssh_packet_protection_set _ _ _ _ _ _ _ _ _ _ _ _) as [o p'].
  destruct H as (? & ? & _). by split.
Defined.
