(* ===== verification/Codec.v ===== *)
(** * Message codecs: the interface and its automation

    Every SSH and SFTP message of the program is decoded by a function that
    reads a payload field by field and checks at the end that nothing is left.
    [Message] is what such a decoder promises to its callers: it recovers every
    well-formed message from its wire image, and whatever it accepts is the
    wire image of what it returns.  The tactics here discharge the promise by
    running the decoder symbolically; the component files give one instance
    per message. *)

From S2P Require Import Prelude Buffer.

(** [if (payload == NULL) return SSH_ERR_INVALID_ARGUMENT;] *)
Definition require_buffer : BufM unit := fun s => reject (is_null s) SSH_ERR_INVALID_ARGUMENT s.

(** A field written from a view. *)
Definition put_view (v : ssh_string_view) : BufM unit :=
  ssh_buffer_put_string (view_data v) (view_len v).

(** ** The interface *)
Class Message {A} (get : BufM A) (ok : A -> Prop) (bytes : A -> list Z) : Prop := {
  message_parses x : ok x -> parses get (bytes x) [] x;
  message_decodes : decodes get (fun x u1 u2 => u2 = [] /\ ok x /\ u1 = bytes x)
}.

Section message.
Context {A} (get : BufM A) (ok : A -> Prop) (bytes : A -> list Z) `{!Message get ok bytes}.

(** The two halves together: on byte strings the decoder is the inverse of the
    wire image. *)
Lemma message_exact bs x :
  Forall is_byte bs -> decode_from get bs = Ret x <-> ok x /\ bs = bytes x.
Proof.
  intros Hb. split.
  - intros E. destruct (decodes_decode_from _ _ _ _ message_decodes Hb E)
      as (u1 & u2 & -> & -> & Hx & ->). by rewrite app_nil_r.
  - intros [Hx ->]. by apply parses_decode_from, message_parses.
Qed.

Lemma message_no_fault bs : Forall is_byte bs -> decode_from get bs <> Fault.
Proof. apply (decodes_no_fault _ _ _ message_decodes). Qed.

(** A writer of the wire image and the decoder make a round trip. *)
Lemma message_roundtrip (put : BufM unit) x storage cap :
  ok x -> emits put (bytes x) -> zlen (bytes x) <= cap <= zlen storage ->
  encode_into put storage cap = Ret (bytes x) /\ decode_from get (bytes x) = Ret x.
Proof.
  intros Hx Hp Hl. split; [by apply emits_encode_into|]. by apply parses_decode_from, message_parses.
Qed.
End message.

(** ** Lemmas *)
Lemma view_ok_of l : Forall is_byte l -> zlen l <= UINT32_MAX -> view_ok (view_of l).
Proof. intros. by exists l. Qed.

Lemma view_ok_byte v : view_ok v -> Forall is_byte (view_bytes v).
Proof. intros (l & -> & ? & ?). by rewrite view_bytes_of. Qed.

Lemma view_ok_len v : view_ok v -> view_len v = zlen (view_bytes v) /\ zlen (view_bytes v) <= UINT32_MAX.
Proof. intros (l & -> & ? & ?). by rewrite view_bytes_of. Qed.

Lemma view_ok_eta v : view_ok v -> v = view_of (view_bytes v).
Proof. intros (l & -> & ? & ?). by rewrite view_bytes_of. Qed.

Lemma view_ok_of_bytes v l : view_ok v -> view_bytes v = l -> v = view_of l.
Proof. intros Hv <-. by apply view_ok_eta. Qed.

Lemma view_ok_eqb v s : view_ok v -> view_eq v (Some s) = bool_decide (view_bytes v = s).
Proof. intros (l & -> & ? & ?). by rewrite view_eq_spec, view_bytes_of. Qed.

Lemma view_ok_eq v s : view_ok v -> view_eq v (Some s) = true <-> view_bytes v = s.
Proof.
  intros (l & -> & ? & ?). rewrite view_eq_spec, view_bytes_of. by rewrite bool_decide_eq_true.
Qed.

#[export] Hint Resolve view_ok_of view_ok_byte : emssh.

Lemma emits_buffer p bs : emits p bs -> emits (require_buffer;; p) bs.
Proof.
  intros Hp. split; [apply Hp|..]; intros w u f cap Hr Hl;
    rewrite (bind_ret _ _ _ tt (Some (Bf w u f cap))) by done; by apply Hp.
Qed.

Lemma emits_view v : view_ok v -> emits (put_view v) (string_bytes (view_bytes v)).
Proof. apply (@wire_emits _ _ _ _ _ wire_string). Qed.

Lemma emits_eq p a b : emits p a -> a = b -> emits p b.
Proof. by intros ? ->. Qed.

Lemma parses_nil_r {A} (g : BufM A) bs rest x : parses g (bs ++ []) rest x -> parses g bs rest x.
Proof. by rewrite app_nil_r. Qed.

Lemma parses_buffer {A} (k : BufM A) bs rest y :
  parses k bs rest y -> parses (require_buffer;; k) bs rest y.
Proof. intros Hk w f cap. rewrite (bind_ret _ _ _ tt (Some (Bf w (bs ++ rest) f cap))) by done. apply Hk. Qed.

Lemma parses_view v rest :
  view_ok v -> parses ssh_buffer_get_string_view (string_bytes (view_bytes v)) rest v.
Proof. apply (@wire_parses _ _ _ _ _ wire_string). Qed.

Lemma parses_u8_byte b rest : parses ssh_buffer_get_u8 [b] rest b.
Proof. apply parses_u8_raw. Qed.

Lemma decodes_buffer {A} (k : BufM A) Q : decodes k Q -> decodes (require_buffer;; k) Q.
Proof.
  intros Hk w u f cap Hu. rewrite (bind_ret _ _ _ tt (Some (Bf w u f cap))) by done. by apply Hk.
Qed.

Lemma decodes_view :
  decodes ssh_buffer_get_string_view (fun v u1 _ => view_ok v /\ u1 = string_bytes (view_bytes v)).
Proof. apply (@wire_decodes _ _ _ _ _ wire_string). Qed.

(** ** Automation

    [parse_message] runs a decoder on the wire image of a message: each read is
    matched with the next field of the image, each guard is discharged by
    [parse_guard].  [decode_steps] runs a decoder on any input, leaving, for
    each way it can return, the facts the reads and guards established. *)
Ltac parse_guard := first [assumption | reflexivity | rewrite ?(zlen_nil (A:=Z)); lia].

Ltac parse_field :=
  lazymatch goal with
  | |- parses ssh_buffer_get_u8 _ _ _ => apply parses_u8_byte
  | |- parses ssh_buffer_get_bool _ _ _ => apply parses_bool
  | |- parses ssh_buffer_get_u32 _ _ _ =>
    apply parses_u32; unfold is_u32 in *; first [assumption | lia]
  | |- parses ssh_buffer_get_u64 _ _ _ =>
    apply parses_u64; unfold is_u64 in *; first [assumption | lia]
  | |- parses ssh_buffer_get_string_view (string_bytes (view_bytes _)) _ _ =>
    apply parses_view; assumption
  | |- parses (ssh_buffer_get_bytes _) _ _ _ =>
    apply parses_get_bytes; first [assumption | symmetry; assumption | lia]
  end.

Ltac parse_step :=
  cbv zeta;
  lazymatch goal with
  | |- parses (mbind (fun _ => _) require_buffer) _ _ _ => apply parses_buffer
  | |- parses (mbind (fun _ => _) (reject _ _)) _ _ _ => apply parses_reject; [try parse_guard|]
  | |- parses (mbind _ remaining_read) _ _ _ => apply parses_remaining; cbn [app]
  | |- parses (mbind _ _) (_ ++ _) _ _ => eapply parses_bind; [parse_field|]
  | |- parses (mret _) [] _ _ => apply parses_ret
  end.

Ltac parse_message := apply parses_nil_r; rewrite <- ?app_assoc; repeat parse_step.

Ltac decode_step :=
  cbv zeta;
  lazymatch goal with
  | |- decodes (mbind (fun _ => _) require_buffer) _ => apply decodes_buffer
  | |- decodes (mbind (fun _ => _) (reject _ _)) _ => apply decodes_reject; intros ?
  | |- decodes (mbind _ remaining_read) _ => apply decodes_remaining; intros ?
  | |- decodes (mbind _ ssh_buffer_get_u8) _ => eapply decodes_bind; [apply decodes_u8|intros ? ? ? _]
  | |- decodes (mbind _ ssh_buffer_get_bool) _ =>
    eapply decodes_bind; [apply decodes_bool|intros ? ? ? _]
  | |- decodes (mbind _ ssh_buffer_get_u32) _ =>
    eapply decodes_bind; [apply decodes_u32|intros ? ? ? _]
  | |- decodes (mbind _ ssh_buffer_get_u64) _ =>
    eapply decodes_bind; [apply decodes_u64|intros ? ? ? _]
  | |- decodes (mbind _ ssh_buffer_get_string_view) _ =>
    eapply decodes_bind; [apply decodes_view|intros ? ? ? _]
  | |- decodes (mbind _ (ssh_buffer_get_bytes _)) _ =>
    eapply decodes_bind; [apply decodes_get_bytes; first [lia | by vm_compute]|intros ? ? ? _]
  | |- decodes (mret _) _ => apply decodes_ret; intros
  | |- decodes (fail _) _ => apply decodes_fail
  | |- decodes (if ?c then _ else _) _ => destruct c eqn:?
  end.

(** What the guards and the final length check left behind. *)
Ltac guard_facts :=
  repeat match goal with
  | H : _ /\ _ |- _ => destruct H
  | H : context [[] ++ ?l] |- _ => rewrite (app_nil_l l) in H
  | H : _ || _ = false |- _ => apply orb_false_iff in H
  | H : negb _ = false |- _ => apply negb_false_iff in H
  | H : (_ =? _) = true |- _ => apply Z.eqb_eq in H
  | H : 0 = zlen _ |- _ => symmetry in H
  | H : zlen _ = 0 |- _ => apply zlen_zero_inv in H
  end; subst.

Ltac guards := guard_facts; guard_facts; rewrite ?app_nil_r; rewrite <- ?app_assoc.

Ltac decode_message := repeat decode_step; guards.

(** Linear goals about the lengths of decoded views. *)
Ltac view_lia :=
  repeat match goal with
  | H : view_ok ?v |- _ =>
    pose proof (view_ok_len v H); pose proof (zlen_nonneg (view_bytes v)); clear H
  end; lia.

(** ** Decoders that fill a result structure

    Some callers look at the structure after a failure, so its contents are part
    of the state: the payload and the structure. *)
Section out.
Context {T : Type}.
Abbreviation OutB := (Prog (bufptr * T)).

(** A read from the payload; a store into the structure. *)
Definition lift {A} (g : BufM A) : OutB A := fun '(s, t) =>
  let '(o, s') := g s in (o, (s', t)).
Definition set_out (f : T -> T) : OutB unit := fun '(s, t) => (Ret tt, (s, f t)).
(** [if (status != SSH_OK) return e;] after a group of reads. *)
Definition err_as {A} (e : ssh_status) (p : OutB A) : OutB A := fun st =>
  match p st with
  | (Err _, st') => (Err e, st')
  | r => r
  end.

(** The decoder as a reader that returns the structure it filled. *)
Definition run_out {A} (p : OutB A) (t : T) : BufM T := fun s =>
  match p (s, t) with
  | (Ret _, (s', t')) => (Ret t', s')
  | (Err e, (s', _)) => (Err e, s')
  | (Fault, (s', _)) => (Fault, s')
  end.

Lemma run_out_lift {A B} (g : BufM A) (k : A -> OutB B) t s :
  run_out (x ← lift g; k x) t s = (x ← g; run_out (k x) t) s.
Proof.
  unfold run_out, lift, mbind, prog_bind. by destruct (g s) as [[a|e|] s'].
Qed.

Lemma run_out_set {B} (f : T -> T) (k : OutB B) t s :
  run_out (set_out f;; k) t s = run_out k (f t) s.
Proof. done. Qed.

Lemma run_out_reject {B} c e (k : OutB B) t s :
  run_out (reject c e;; k) t s = (reject c e;; run_out k t) s.
Proof. by destruct c. Qed.

Lemma run_out_last c e t s : run_out (reject c e) t s = (reject c e;; (mret t : BufM T)) s.
Proof. by destruct c. Qed.

Lemma run_out_ret t s : run_out (mret tt) t s = (mret t : BufM T) s.
Proof. done. Qed.

(** Statements grouped under one error code. *)
Lemma run_out_assoc {A B C} (p : OutB A) (f : A -> OutB B) (k : OutB C) t s :
  run_out ((x ← p; f x);; k) t s = run_out (x ← p; (f x;; k)) t s.
Proof. unfold run_out. by rewrite bind_assoc. Qed.

Lemma run_out_skip {B} (k : OutB B) t s : run_out (mret tt;; k) t s = run_out k t s.
Proof. done. Qed.

Lemma run_out_err_as {A B} e (p : OutB A) (k : OutB B) t s :
  snd (run_out (err_as e p;; k) t s) = snd (run_out (p;; k) t s) /\
  match fst (run_out (p;; k) t s) with
  | Err _ => exists e', fst (run_out (err_as e p;; k) t s) = Err e'
  | o => fst (run_out (err_as e p;; k) t s) = o
  end.
Proof.
  unfold run_out, err_as, mbind, prog_bind.
  destruct (p (s, t)) as [[a|e'|] [s' t']]; cbn; [|by eauto|done].
  destruct (k (s', t')) as [[b|e'|] [s'' t'']]; cbn; eauto.
Qed.

(** A part of the structure that a program does not change. *)
Definition keeps {A B} (h : T -> B) (p : OutB A) : Prop :=
  forall s t, h (snd (snd (p (s, t)))) = h t.

Lemma keeps_lift {A B} (h : T -> B) (g : BufM A) : keeps h (lift g).
Proof. intros s t. unfold lift. by destruct (g s). Qed.

Lemma keeps_set {B} (h : T -> B) f : (forall t, h (f t) = h t) -> keeps h (set_out f).
Proof. intros Hf s t. apply Hf. Qed.

Lemma keeps_reject {B} (h : T -> B) c e : keeps h (reject c e).
Proof. by intros s t; destruct c. Qed.

Lemma keeps_ret {A B} (h : T -> B) (x : A) : keeps h (mret x).
Proof. done. Qed.

Lemma keeps_fail {A B} (h : T -> B) e : keeps h (fail (A:=A) e).
Proof. done. Qed.

Lemma keeps_bind {A B C} (h : T -> B) (p : OutB A) (k : A -> OutB C) :
  keeps h p -> (forall x, keeps h (k x)) -> keeps h (x ← p; k x).
Proof.
  intros Hp Hk s t. specialize (Hp s t). unfold mbind, prog_bind.
  destruct (p (s, t)) as [[a|e|] [s' t']]; cbn in *; [|done..]. by rewrite Hk.
Qed.

Lemma keeps_err_as {A B} (h : T -> B) e (p : OutB A) : keeps h p -> keeps h (err_as e p).
Proof.
  intros Hp s t. specialize (Hp s t). unfold err_as. by destruct (p (s, t)) as [[a|e'|] [s' t']].
Qed.

Lemma keeps_if {A B} (h : T -> B) (c : bool) (p q : OutB A) :
  keeps h p -> keeps h q -> keeps h (if c then p else q).
Proof. by destruct c. Qed.
End out.
Abbreviation OutB T := (Prog (bufptr * T)).

Lemma parses_ext {A} (g h : BufM A) bs rest x :
  (forall s, h s = g s) -> parses g bs rest x -> parses h bs rest x.
Proof. intros E Hg w f cap. by rewrite E. Qed.

Lemma decodes_ext {A} (g h : BufM A) Q : (forall s, h s = g s) -> decodes g Q -> decodes h Q.
Proof. intros E Hg w u f cap Hu. rewrite E. by apply Hg. Qed.

Lemma parses_err_as {T A B} e (p : OutB T A) (k : OutB T B) t bs rest x :
  parses (run_out (p;; k) t) bs rest x -> parses (run_out (err_as e p;; k) t) bs rest x.
Proof.
  intros Hp w f cap. specialize (Hp w f cap).
  pose proof (run_out_err_as e p k t (Some (Bf w (bs ++ rest) f cap))) as [Hs Ho].
  rewrite Hp in Hs, Ho. cbn [fst snd] in *. destruct (run_out (err_as e p;; k) t _) as [o s].
  cbn [fst snd] in *. by subst.
Qed.

Lemma decodes_err_as {T A B} e (p : OutB T A) (k : OutB T B) t Q :
  decodes (run_out (p;; k) t) Q -> decodes (run_out (err_as e p;; k) t) Q.
Proof.
  intros Hp w u f cap Hu. destruct (Hp w u f cap Hu) as (o & u1 & u2 & -> & E & Ho).
  pose proof (run_out_err_as e p k t (Some (Bf w (u1 ++ u2) f cap))) as [Hs Hf].
  rewrite E in Hs, Hf. cbn [fst snd] in *. destruct (run_out (err_as e p;; k) t _) as [o' s'].
  cbn [fst snd] in *. subst s'. exists o', u1, u2. split_and!; [done..|].
  destruct o; [by subst|by destruct Hf as [? ->]|done].
Qed.

(** [run_parse] and [run_decode] move [run_out] past the first statement. *)
Ltac run_step ext err :=
  let p := lazymatch goal with |- parses ?p _ _ _ => p | |- decodes ?p _ => p end in
  lazymatch p with
  | run_out (mbind ?k (lift ?g)) ?t =>
    apply (ext _ (mbind (fun x => run_out (k x) t) g)); [intros; apply run_out_lift|]
  | run_out (mbind (fun _ => ?k) (set_out ?f)) ?t =>
    apply (ext _ (run_out k (f t))); [intros; apply (run_out_set f k t)|]
  | run_out (mbind (fun _ => ?k) (reject ?c ?e)) ?t =>
    apply (ext _ (mbind (fun _ => run_out k t) (reject c e))); [intros; apply run_out_reject|]
  | run_out (mbind (fun _ => _) (err_as _ _)) _ => apply err
  | run_out (mbind (fun _ => ?k) (mbind ?f ?p)) ?t =>
    apply (ext _ (run_out (mbind (fun x => mbind (fun _ => k) (f x)) p) t));
    [intros; apply run_out_assoc|]
  | run_out (mbind (fun _ => ?k) (mret tt)) ?t =>
    apply (ext _ (run_out k t)); [intros; apply run_out_skip|]
  | run_out (reject ?c ?e) ?t =>
    apply (ext _ (mbind (fun _ => mret t) (reject c e))); [intros; apply run_out_last|]
  | run_out (set_out ?f) ?t => apply (ext _ (mret (f t))); [done|]
  | run_out (mret tt) ?t => apply (ext _ (mret t)); [intros; apply run_out_ret|]
  | run_out (fail ?e) ?t => apply (ext _ (fail e)); [done|]
  end; cbv beta.
Ltac parse_out := repeat first [run_step (@parses_ext) (@parses_err_as) | parse_step].
Ltac run_branch :=
  lazymatch goal with |- decodes (run_out (if ?c then _ else _) _) _ => destruct c eqn:? end.
Ltac decode_out :=
  repeat first [run_step (@decodes_ext) (@decodes_err_as) | run_branch | decode_step].

Ltac keeps_tac :=
  repeat first
    [ apply keeps_lift | apply keeps_reject | apply keeps_ret | apply keeps_fail
    | apply keeps_set; done | apply keeps_err_as | apply keeps_if
    | apply keeps_bind; [|intros ?] ].
