(* ===== verification/Service.v ===== *)
(** * Service requests: src/core/ssh_service.c

    SSH_MSG_SERVICE_REQUEST and SSH_MSG_SERVICE_ACCEPT, and the service the
    server supports. *)

From S2P Require Import Prelude Buffer Codec.

Definition SSH_MSG_SERVICE_REQUEST : Z := 5.
Definition SSH_MSG_SERVICE_ACCEPT : Z := 6.
Definition SSH_SERVICE_USERAUTH : list Z := cstr "ssh-userauth".
Definition SSH_SERVICE_CONNECTION : list Z := cstr "ssh-connection".

Record ssh_service_request : Type := mk_service_request { service_name : ssh_string_view }.

Definition ssh_service_request_encode (service_name : option (list Z)) : BufM unit :=
  require_buffer;;
  reject (is_null service_name) SSH_ERR_INVALID_ARGUMENT;;
  ssh_buffer_put_u8 SSH_MSG_SERVICE_REQUEST;;
  ssh_buffer_put_cstring service_name.

Definition ssh_service_request_decode : BufM ssh_service_request :=
  require_buffer;;
  message_id ← ssh_buffer_get_u8;
  reject (negb (message_id =? SSH_MSG_SERVICE_REQUEST)) SSH_ERR_MALFORMED_PACKET;;
  name ← ssh_buffer_get_string_view;
  remaining ← remaining_read;
  reject ((view_len name =? 0) || negb (remaining =? 0)) SSH_ERR_MALFORMED_PACKET;;
  mret (mk_service_request name).

Definition ssh_service_accept_encode (service_name : option (list Z)) : BufM unit :=
  require_buffer;;
  reject (is_null service_name) SSH_ERR_INVALID_ARGUMENT;;
  ssh_buffer_put_u8 SSH_MSG_SERVICE_ACCEPT;;
  ssh_buffer_put_cstring service_name.

Definition ssh_service_accept_decode : BufM ssh_service_request :=
  require_buffer;;
  message_id ← ssh_buffer_get_u8;
  reject (negb (message_id =? SSH_MSG_SERVICE_ACCEPT)) SSH_ERR_MALFORMED_PACKET;;
  name ← ssh_buffer_get_string_view;
  remaining ← remaining_read;
  reject ((view_len name =? 0) || negb (remaining =? 0)) SSH_ERR_MALFORMED_PACKET;;
  mret (mk_service_request name).

Definition ssh_service_name_is_supported (service_name : ssh_string_view) : bool :=
  view_eq service_name (Some SSH_SERVICE_USERAUTH).

(** ** The messages *)
Definition service_ok (r : ssh_service_request) : Prop :=
  view_ok (service_name r) /\ view_len (service_name r) <> 0.
Definition service_bytes (id : Z) (r : ssh_service_request) : list Z :=
  [id] ++ string_bytes (view_bytes (service_name r)).

#[export] Instance service_request_message :
  Message ssh_service_request_decode service_ok (service_bytes SSH_MSG_SERVICE_REQUEST).
Proof.
  unfold ssh_service_request_decode, service_bytes. split.
  - intros [v] [Hv Hl]. cbn [service_name] in *. parse_message.
  - decode_message. unfold service_ok. cbn [service_name]. split_and!; try done. lia.
Qed.

#[export] Instance service_accept_message :
  Message ssh_service_accept_decode service_ok (service_bytes SSH_MSG_SERVICE_ACCEPT).
Proof.
  unfold ssh_service_accept_decode, service_bytes. split.
  - intros [v] [Hv Hl]. cbn [service_name] in *. parse_message.
  - decode_message. unfold service_ok. cbn [service_name]. split_and!; try done. lia.
Qed.

Lemma emits_service put id name :
  is_byte id -> Forall is_byte name -> zlen name <= UINT32_MAX ->
  (forall s, put s = (require_buffer;; reject false SSH_ERR_INVALID_ARGUMENT;;
     ssh_buffer_put_u8 id;; ssh_buffer_put_cstring (Some name)) s) ->
  emits put (service_bytes id (mk_service_request (view_of name))).
Proof.
  intros Hid Hb Hl E. eapply emits_ext; [|exact E].
  apply emits_buffer, emits_reject; [done|]. unfold service_bytes. cbn [service_name].
  rewrite view_bytes_of. eauto with emssh.
Qed.

(** ** Properties *)

(** On every byte string the two service decoders accept exactly the
    well-formed messages of their kind (the right message number, a non-empty
    name, nothing behind it) and return the name; a service request is never
    taken for an acceptance. *)
Theorem service_decoders_exact bs r :
  Forall is_byte bs ->
  (decode_from ssh_service_request_decode bs = Ret r <->
     service_ok r /\ bs = service_bytes SSH_MSG_SERVICE_REQUEST r) /\
  (decode_from ssh_service_accept_decode bs = Ret r <->
     service_ok r /\ bs = service_bytes SSH_MSG_SERVICE_ACCEPT r) /\
  decode_from ssh_service_request_decode bs <> Fault /\
  decode_from ssh_service_accept_decode bs <> Fault.
Proof.
  intros Hb. split_and!; [by apply message_exact; [apply _|]..| |].
  - by apply (message_no_fault _ _ _ bs Hb).
  - by apply (message_no_fault _ _ _ bs Hb).
Qed.

Lemma service_decoders_exact_witness :
  decode_from ssh_service_request_decode [5; 0; 0; 0; 1; 120] =
    Ret (mk_service_request (view_of [120])).
Proof.
  apply (service_decoders_exact [5; 0; 0; 0; 1; 120]).
  - by apply (bool_decide_unpack _); vm_compute.
  - split; [split; [|done]|by vm_compute]. apply view_ok_of; [|by vm_compute].
    by apply (bool_decide_unpack _); vm_compute.
Defined.

(** A service name written by either encoder is read back by the decoder
    of the same message, and the server supports it exactly when it is
    ssh-userauth. *)
Theorem service_roundtrip name storage cap :
  Forall is_byte name -> 0 < zlen name <= UINT32_MAX -> 5 + zlen name <= cap <= zlen storage ->
  let r := mk_service_request (view_of name) in
  (encode_into (ssh_service_request_encode (Some name)) storage cap =
     Ret (service_bytes SSH_MSG_SERVICE_REQUEST r) /\
   decode_from ssh_service_request_decode (service_bytes SSH_MSG_SERVICE_REQUEST r) = Ret r) /\
  (encode_into (ssh_service_accept_encode (Some name)) storage cap =
     Ret (service_bytes SSH_MSG_SERVICE_ACCEPT r) /\
   decode_from ssh_service_accept_decode (service_bytes SSH_MSG_SERVICE_ACCEPT r) = Ret r) /\
  (ssh_service_name_is_supported (service_name r) = true <-> name = SSH_SERVICE_USERAUTH).
Proof.
  intros Hb Hl Hc r. assert (service_ok r) as Hr.
  { split; [by apply view_ok_of; [|lia]|]. cbn. lia. }
  assert (forall id, zlen (service_bytes id r) <= cap <= zlen storage) as Hlen.
  { intros id. unfold service_bytes, r. cbn [service_name]. rewrite view_bytes_of. len_lia. }
  split; [|split].
  3: { unfold r, ssh_service_name_is_supported. cbn [service_name].
       by rewrite view_eq_spec, bool_decide_eq_true. }
  all: apply (message_roundtrip _ service_ok (service_bytes _)); [done| |apply Hlen].
  all: apply emits_service; [done|done|lia|done].
Qed.

Lemma service_roundtrip_witness :
  decode_from ssh_service_accept_decode
    (service_bytes SSH_MSG_SERVICE_ACCEPT (mk_service_request (view_of SSH_SERVICE_USERAUTH))) =
    Ret (mk_service_request (view_of SSH_SERVICE_USERAUTH)).
Proof.
  apply (service_roundtrip SSH_SERVICE_USERAUTH (replicate 32 0) 32).
  - by apply (bool_decide_unpack _); vm_compute.
  - by vm_compute.
  - by vm_compute.
Defined.
