(* ===== verification/Kex.v ===== *)
(** * Key exchange messages and negotiation: src/core/ssh_kex.c

    SSH_MSG_KEXINIT with its ten name lists, the choice of algorithms from the
    client's and the server's lists, the ECDH messages and SSH_MSG_NEWKEYS. *)

From S2P Require Import Prelude Buffer Platform Codec.

Definition SSH_KEX_COOKIE_LEN : Z := 16.
Definition SSH_KEXINIT_NAMELIST_COUNT : nat := 10.
Definition SSH_MSG_KEXINIT : Z := 20.
Definition SSH_MSG_NEWKEYS : Z := 21.
Definition SSH_MSG_KEX_ECDH_INIT : Z := 30.
Definition SSH_MSG_KEX_ECDH_REPLY : Z := 31.

(** ** Data *)
Inductive ssh_kexinit_name_list_index : Type :=
| SSH_KEX_ALGORITHMS
| SSH_SERVER_HOST_KEY_ALGORITHMS
| SSH_ENCRYPTION_ALGORITHMS_CLIENT_TO_SERVER
| SSH_ENCRYPTION_ALGORITHMS_SERVER_TO_CLIENT
| SSH_MAC_ALGORITHMS_CLIENT_TO_SERVER
| SSH_MAC_ALGORITHMS_SERVER_TO_CLIENT
| SSH_COMPRESSION_ALGORITHMS_CLIENT_TO_SERVER
| SSH_COMPRESSION_ALGORITHMS_SERVER_TO_CLIENT
| SSH_LANGUAGES_CLIENT_TO_SERVER
| SSH_LANGUAGES_SERVER_TO_CLIENT.

Definition index_nat (i : ssh_kexinit_name_list_index) : nat :=
  match i with
  | SSH_KEX_ALGORITHMS => 0
  | SSH_SERVER_HOST_KEY_ALGORITHMS => 1
  | SSH_ENCRYPTION_ALGORITHMS_CLIENT_TO_SERVER => 2
  | SSH_ENCRYPTION_ALGORITHMS_SERVER_TO_CLIENT => 3
  | SSH_MAC_ALGORITHMS_CLIENT_TO_SERVER => 4
  | SSH_MAC_ALGORITHMS_SERVER_TO_CLIENT => 5
  | SSH_COMPRESSION_ALGORITHMS_CLIENT_TO_SERVER => 6
  | SSH_COMPRESSION_ALGORITHMS_SERVER_TO_CLIENT => 7
  | SSH_LANGUAGES_CLIENT_TO_SERVER => 8
  | SSH_LANGUAGES_SERVER_TO_CLIENT => 9
  end.

Record ssh_kexinit : Type := mk_kexinit {
  cookie : list Z;
  name_lists : list ssh_string_view;
  first_kex_packet_follows : bool;
  reserved : Z
}.

(** Pointers to NUL-terminated lists; [None] is a null pointer. *)
Record ssh_kexinit_algorithm_set : Type := mk_algorithm_set {
  kex_algorithms : option (list Z);
  server_host_key_algorithms : option (list Z);
  encryption_algorithms_client_to_server : option (list Z);
  encryption_algorithms_server_to_client : option (list Z);
  mac_algorithms_client_to_server : option (list Z);
  mac_algorithms_server_to_client : option (list Z);
  compression_algorithms_client_to_server : option (list Z);
  compression_algorithms_server_to_client : option (list Z);
  languages_client_to_server : option (list Z);
  languages_server_to_client : option (list Z)
}.

Record ssh_kex_negotiation : Type := mk_negotiation {
  kex_algorithm : ssh_string_view;
  server_host_key_algorithm : ssh_string_view;
  encryption_algorithm_client_to_server : ssh_string_view;
  encryption_algorithm_server_to_client : ssh_string_view;
  mac_algorithm_client_to_server : ssh_string_view;
  mac_algorithm_server_to_client : ssh_string_view;
  compression_algorithm_client_to_server : ssh_string_view;
  compression_algorithm_server_to_client : ssh_string_view;
  language_client_to_server : ssh_string_view;
  language_server_to_client : ssh_string_view
}.

Record ssh_kex_ecdh_init : Type := mk_ecdh_init { client_public_key : ssh_string_view }.

Record ssh_kex_ecdh_reply : Type := mk_ecdh_reply {
  server_host_key : ssh_string_view;
  server_public_key : ssh_string_view;
  reply_signature : ssh_string_view
}.

(** ** Name lists of the server *)
Definition default_name_lists : list (list Z) :=
  [ cstr "curve25519-sha256,ecdh-sha2-nistp256";
    cstr "ssh-ed25519,ecdsa-sha2-nistp256,rsa-sha2-256";
    cstr "aes128-ctr"; cstr "aes128-ctr";
    cstr "hmac-sha2-256"; cstr "hmac-sha2-256";
    cstr "none"; cstr "none"; []; [] ].

Definition default_name_list (i : ssh_kexinit_name_list_index) : option (list Z) :=
  default_name_lists !! index_nat i.

Definition algorithm_set_to_array (algorithms : option ssh_kexinit_algorithm_set)
    : list (option (list Z)) :=
  match algorithms with
  | None => map Some default_name_lists
  | Some a =>
    [ kex_algorithms a; server_host_key_algorithms a;
      encryption_algorithms_client_to_server a; encryption_algorithms_server_to_client a;
      mac_algorithms_client_to_server a; mac_algorithms_server_to_client a;
      compression_algorithms_client_to_server a; compression_algorithms_server_to_client a;
      languages_client_to_server a; languages_server_to_client a ]
  end.

Definition ssh_kexinit_algorithm_set_defaults : ssh_kexinit_algorithm_set :=
  mk_algorithm_set
    (default_name_list SSH_KEX_ALGORITHMS)
    (default_name_list SSH_SERVER_HOST_KEY_ALGORITHMS)
    (default_name_list SSH_ENCRYPTION_ALGORITHMS_CLIENT_TO_SERVER)
    (default_name_list SSH_ENCRYPTION_ALGORITHMS_SERVER_TO_CLIENT)
    (default_name_list SSH_MAC_ALGORITHMS_CLIENT_TO_SERVER)
    (default_name_list SSH_MAC_ALGORITHMS_SERVER_TO_CLIENT)
    (default_name_list SSH_COMPRESSION_ALGORITHMS_CLIENT_TO_SERVER)
    (default_name_list SSH_COMPRESSION_ALGORITHMS_SERVER_TO_CLIENT)
    (default_name_list SSH_LANGUAGES_CLIENT_TO_SERVER)
    (default_name_list SSH_LANGUAGES_SERVER_TO_CLIENT).

(** ** Negotiation *)
Definition cstring_to_name_list_view (value : option (list Z)) : outcome ssh_string_view :=
  let view := view_of (default [] value) in
  if ssh_name_list_is_valid view then Ret view else Err SSH_ERR_INVALID_ARGUMENT.

(** The outer [for] loop of [select_first_match]: [item] is the slice of the
    server list from [start] to [i]; at a comma and at the end the inner loop,
    which is the one of [ssh_name_list_contains_token], looks for it among the
    items of the client list. *)
Fixpoint select_scan (item server client : list Z) : option (list Z) :=
  match server with
  | [] => if contains_token_scan [] client item then Some item else None
  | b :: server' =>
    if b =? COMMA then
      if contains_token_scan [] client item then Some item else select_scan [] server' client
    else select_scan (item ++ [b]) server' client
  end.

Definition select_first_match (client : ssh_string_view) (server_list : option (list Z))
    (allow_empty : bool) : outcome ssh_string_view :=
  server ← cstring_to_name_list_view server_list;
  if negb (ssh_name_list_is_valid client) then Err SSH_ERR_MALFORMED_PACKET else
  if (view_len server =? 0) || (view_len client =? 0)
  then if allow_empty then Ret null_view else Err SSH_ERR_UNSUPPORTED
  else match select_scan [] (view_bytes server) (view_bytes client) with
       | Some item => Ret (view_of item)
       | None => Err SSH_ERR_UNSUPPORTED
       end.

Definition negotiate_one (client : ssh_kexinit) (index : ssh_kexinit_name_list_index)
    (server_list : option (list Z)) (allow_empty : bool) : outcome ssh_string_view :=
  match name_lists client !! index_nat index with
  | Some l => select_first_match l server_list allow_empty
  | None => Fault
  end.

Definition ssh_kex_negotiate (client : option ssh_kexinit)
    (server_algorithms : option ssh_kexinit_algorithm_set) : outcome ssh_kex_negotiation :=
  match client with
  | None => Err SSH_ERR_INVALID_ARGUMENT
  | Some client =>
    let server := default ssh_kexinit_algorithm_set_defaults server_algorithms in
    kex ← negotiate_one client SSH_KEX_ALGORITHMS (kex_algorithms server) false;
    hk ← negotiate_one client SSH_SERVER_HOST_KEY_ALGORITHMS (server_host_key_algorithms server) false;
    ecs ← negotiate_one client SSH_ENCRYPTION_ALGORITHMS_CLIENT_TO_SERVER
            (encryption_algorithms_client_to_server server) false;
    esc ← negotiate_one client SSH_ENCRYPTION_ALGORITHMS_SERVER_TO_CLIENT
            (encryption_algorithms_server_to_client server) false;
    mcs ← negotiate_one client SSH_MAC_ALGORITHMS_CLIENT_TO_SERVER
            (mac_algorithms_client_to_server server) false;
    msc ← negotiate_one client SSH_MAC_ALGORITHMS_SERVER_TO_CLIENT
            (mac_algorithms_server_to_client server) false;
    ccs ← negotiate_one client SSH_COMPRESSION_ALGORITHMS_CLIENT_TO_SERVER
            (compression_algorithms_client_to_server server) false;
    csc ← negotiate_one client SSH_COMPRESSION_ALGORITHMS_SERVER_TO_CLIENT
            (compression_algorithms_server_to_client server) false;
    lcs ← negotiate_one client SSH_LANGUAGES_CLIENT_TO_SERVER
            (languages_client_to_server server) true;
    lsc ← negotiate_one client SSH_LANGUAGES_SERVER_TO_CLIENT
            (languages_server_to_client server) true;
    mret (mk_negotiation kex hk ecs esc mcs msc ccs csc lcs lsc)
  end.

(** ** SSH_MSG_KEXINIT *)

(** The [for] loop of [ssh_kexinit_encode]. *)
Fixpoint put_name_lists (lists : list (option (list Z))) : BufM unit :=
  match lists with
  | [] => mret tt
  | l :: lists' =>
    let list := default [] l in
    reject (negb (ssh_name_list_is_valid (view_of list))) SSH_ERR_INVALID_ARGUMENT;;
    ssh_buffer_put_cstring (Some list);;
    put_name_lists lists'
  end.

Definition ssh_kexinit_encode (cookie : option (list Z))
    (algorithms : option ssh_kexinit_algorithm_set) (first_kex_packet_follows : bool) : BufM unit :=
  require_buffer;;
  reject (is_null cookie) SSH_ERR_INVALID_ARGUMENT;;
  let name_lists := algorithm_set_to_array algorithms in
  ssh_buffer_put_u8 SSH_MSG_KEXINIT;;
  ssh_buffer_put_bytes cookie SSH_KEX_COOKIE_LEN;;
  put_name_lists name_lists;;
  ssh_buffer_put_bool first_kex_packet_follows;;
  ssh_buffer_put_u32 0.

(** The [for] loop of [ssh_kexinit_decode]. *)
Fixpoint get_name_lists (n : nat) : BufM (list ssh_string_view) :=
  match n with
  | O => mret []
  | S n' =>
    l ← ssh_buffer_get_string_view;
    reject (negb (ssh_name_list_is_valid l)) SSH_ERR_MALFORMED_PACKET;;
    ls ← get_name_lists n';
    mret (l :: ls)
  end.

Definition ssh_kexinit_decode : BufM ssh_kexinit :=
  require_buffer;;
  message_id ← ssh_buffer_get_u8;
  reject (negb (message_id =? SSH_MSG_KEXINIT)) SSH_ERR_MALFORMED_PACKET;;
  cookie ← ssh_buffer_get_bytes SSH_KEX_COOKIE_LEN;
  lists ← get_name_lists SSH_KEXINIT_NAMELIST_COUNT;
  follows ← ssh_buffer_get_bool;
  reserved ← ssh_buffer_get_u32;
  reject (negb (reserved =? 0)) SSH_ERR_MALFORMED_PACKET;;
  remaining ← remaining_read;
  reject (negb (remaining =? 0)) SSH_ERR_MALFORMED_PACKET;;
  mret (mk_kexinit cookie lists follows reserved).

(** ** ECDH messages and SSH_MSG_NEWKEYS *)
Definition ssh_kex_ecdh_init_encode (client_public_key : option (list Z))
    (client_public_key_len : Z) : BufM unit :=
  require_buffer;;
  reject (is_null client_public_key && negb (client_public_key_len =? 0)) SSH_ERR_INVALID_ARGUMENT;;
  reject ((client_public_key_len =? 0) || (client_public_key_len >? EMSSH_MAX_KEX_PUBLIC_KEY))
    SSH_ERR_INVALID_ARGUMENT;;
  ssh_buffer_put_u8 SSH_MSG_KEX_ECDH_INIT;;
  ssh_buffer_put_string client_public_key client_public_key_len.

Definition ssh_kex_ecdh_init_decode : BufM ssh_kex_ecdh_init :=
  require_buffer;;
  message_id ← ssh_buffer_get_u8;
  reject (negb (message_id =? SSH_MSG_KEX_ECDH_INIT)) SSH_ERR_MALFORMED_PACKET;;
  key ← ssh_buffer_get_string_view;
  reject ((view_len key =? 0) || (view_len key >? EMSSH_MAX_KEX_PUBLIC_KEY)) SSH_ERR_MALFORMED_PACKET;;
  remaining ← remaining_read;
  reject (negb (remaining =? 0)) SSH_ERR_MALFORMED_PACKET;;
  mret (mk_ecdh_init key).

Definition ssh_kex_ecdh_reply_encode (server_host_key : option (list Z)) (server_host_key_len : Z)
    (server_public_key : option (list Z)) (server_public_key_len : Z)
    (signature : option (list Z)) (signature_len : Z) : BufM unit :=
  require_buffer;;
  reject ((is_null server_host_key && negb (server_host_key_len =? 0))
          || (is_null server_public_key && negb (server_public_key_len =? 0))
          || (is_null signature && negb (signature_len =? 0))) SSH_ERR_INVALID_ARGUMENT;;
  reject ((server_host_key_len =? 0) || (server_host_key_len >? EMSSH_MAX_HOST_KEY_BLOB)
          || (server_public_key_len =? 0) || (server_public_key_len >? EMSSH_MAX_KEX_PUBLIC_KEY)
          || (signature_len =? 0) || (signature_len >? EMSSH_MAX_SIGNATURE)) SSH_ERR_INVALID_ARGUMENT;;
  ssh_buffer_put_u8 SSH_MSG_KEX_ECDH_REPLY;;
  ssh_buffer_put_string server_host_key server_host_key_len;;
  ssh_buffer_put_string server_public_key server_public_key_len;;
  ssh_buffer_put_string signature signature_len.

Definition ssh_kex_ecdh_reply_decode : BufM ssh_kex_ecdh_reply :=
  require_buffer;;
  message_id ← ssh_buffer_get_u8;
  reject (negb (message_id =? SSH_MSG_KEX_ECDH_REPLY)) SSH_ERR_MALFORMED_PACKET;;
  host_key ← ssh_buffer_get_string_view;
  public_key ← ssh_buffer_get_string_view;
  signature ← ssh_buffer_get_string_view;
  reject ((view_len host_key =? 0) || (view_len host_key >? EMSSH_MAX_HOST_KEY_BLOB)
          || (view_len public_key =? 0) || (view_len public_key >? EMSSH_MAX_KEX_PUBLIC_KEY)
          || (view_len signature =? 0) || (view_len signature >? EMSSH_MAX_SIGNATURE))
    SSH_ERR_MALFORMED_PACKET;;
  remaining ← remaining_read;
  reject (negb (remaining =? 0)) SSH_ERR_MALFORMED_PACKET;;
  mret (mk_ecdh_reply host_key public_key signature).

Definition ssh_kex_newkeys_encode : BufM unit :=
  require_buffer;; ssh_buffer_put_u8 SSH_MSG_NEWKEYS.

Definition ssh_kex_newkeys_decode : BufM unit :=
  require_buffer;;
  message_id ← ssh_buffer_get_u8;
  reject (negb (message_id =? SSH_MSG_NEWKEYS)) SSH_ERR_MALFORMED_PACKET;;
  remaining ← remaining_read;
  reject (negb (remaining =? 0)) SSH_ERR_MALFORMED_PACKET;;
  mret tt.

(** ** The messages as sets of byte strings *)
Definition kexinit_ok (k : ssh_kexinit) : Prop :=
  zlen (cookie k) = SSH_KEX_COOKIE_LEN /\ Forall is_byte (cookie k) /\
  length (name_lists k) = SSH_KEXINIT_NAMELIST_COUNT /\
  Forall (fun v => view_ok v /\ ssh_name_list_is_valid v = true) (name_lists k) /\
  reserved k = 0.

Definition strings_bytes (vs : list ssh_string_view) : list Z :=
  concat (map (fun v => string_bytes (view_bytes v)) vs).

Definition kexinit_bytes (k : ssh_kexinit) : list Z :=
  [SSH_MSG_KEXINIT] ++ cookie k ++ strings_bytes (name_lists k) ++
  [int_of_bool (first_kex_packet_follows k)] ++ be_bytes 4 (reserved k).

(** A non-empty string of at most [limit] bytes. *)
Definition field_ok (limit : Z) (v : ssh_string_view) : Prop :=
  view_ok v /\ 0 < view_len v <= limit.

Definition ecdh_init_ok (m : ssh_kex_ecdh_init) : Prop :=
  field_ok EMSSH_MAX_KEX_PUBLIC_KEY (client_public_key m).
Definition ecdh_init_bytes (m : ssh_kex_ecdh_init) : list Z :=
  [SSH_MSG_KEX_ECDH_INIT] ++ string_bytes (view_bytes (client_public_key m)).

Definition ecdh_reply_ok (m : ssh_kex_ecdh_reply) : Prop :=
  field_ok EMSSH_MAX_HOST_KEY_BLOB (server_host_key m) /\
  field_ok EMSSH_MAX_KEX_PUBLIC_KEY (server_public_key m) /\
  field_ok EMSSH_MAX_SIGNATURE (reply_signature m).
Definition ecdh_reply_bytes (m : ssh_kex_ecdh_reply) : list Z :=
  [SSH_MSG_KEX_ECDH_REPLY] ++ string_bytes (view_bytes (server_host_key m)) ++
  string_bytes (view_bytes (server_public_key m)) ++ string_bytes (view_bytes (reply_signature m)).

Definition newkeys_bytes (_ : unit) : list Z := [SSH_MSG_NEWKEYS].

(** ** Lemmas: name lists on the wire *)
Lemma parses_name_lists vs rest :
  Forall (fun v => view_ok v /\ ssh_name_list_is_valid v = true) vs ->
  parses (get_name_lists (length vs)) (strings_bytes vs) rest vs.
Proof.
  intros H. induction H as [|v vs [Hv Hn] _ IH]; [apply parses_ret|].
  cbn [length get_name_lists]. apply (parses_bind _ _ _ _ _ v); [by apply parses_view|].
  apply parses_reject; [by rewrite Hn|]. apply parses_nil_r.
  eapply parses_bind; [apply IH|apply parses_ret].
Qed.

Lemma decodes_name_lists n :
  decodes (get_name_lists n) (fun vs u1 _ => length vs = n /\
    Forall (fun v => view_ok v /\ ssh_name_list_is_valid v = true) vs /\ u1 = strings_bytes vs).
Proof.
  induction n as [|n IH]; [by apply decodes_ret|]. cbn [get_name_lists].
  eapply decodes_bind; [apply decodes_view|]. intros v _ _ _. apply decodes_reject. intros Hn.
  eapply decodes_bind; [apply IH|]. intros vs _ _ _. apply decodes_ret.
  intros rest u2 _ (Hl & Hvs & ->) u1 _ (Hv & ->). rewrite app_nil_r. apply negb_false_iff in Hn.
  split_and!; [cbn; by f_equal|by constructor|done].
Qed.

#[export] Instance kexinit_message : Message ssh_kexinit_decode kexinit_ok kexinit_bytes.
Proof.
  unfold ssh_kexinit_decode, kexinit_bytes. split.
  - intros [ck ls fl rs] (Hc & Hcb & Hl & Hls & Hr). cbn [cookie name_lists first_kex_packet_follows reserved] in *.
    parse_message. rewrite <- Hl. eapply parses_bind; [by apply parses_name_lists|].
    subst rs. repeat parse_step.
  - repeat decode_step. eapply decodes_bind; [apply decodes_name_lists|]. intros ? ? ? _.
    decode_message. unfold kexinit_ok. by cbn [cookie name_lists reserved].
Qed.

#[export] Instance ecdh_init_message : Message ssh_kex_ecdh_init_decode ecdh_init_ok ecdh_init_bytes.
Proof.
  unfold ssh_kex_ecdh_init_decode, ecdh_init_bytes, ecdh_init_ok, field_ok. split.
  - intros [v] [Hv Hl]. cbn [client_public_key] in *. parse_message.
  - decode_message. cbn [client_public_key]. split_and!; try done; view_lia.
Qed.

#[export] Instance ecdh_reply_message :
  Message ssh_kex_ecdh_reply_decode ecdh_reply_ok ecdh_reply_bytes.
Proof.
  unfold ssh_kex_ecdh_reply_decode, ecdh_reply_bytes, ecdh_reply_ok, field_ok. split.
  - intros [h p s] ([Hh Hhl] & [Hp Hpl] & [Hs Hsl]).
    cbn [server_host_key server_public_key reply_signature] in *. parse_message.
  - decode_message. cbn [server_host_key server_public_key reply_signature].
    split_and!; try done; view_lia.
Qed.

#[export] Instance newkeys_message : Message ssh_kex_newkeys_decode (fun _ => True) newkeys_bytes.
Proof.
  unfold ssh_kex_newkeys_decode, newkeys_bytes. split.
  - intros [] _. parse_message.
  - decode_message. done.
Qed.

(** ** Lemmas: encoders *)
Definition lists_of (algorithms : option ssh_kexinit_algorithm_set) : list ssh_string_view :=
  map (fun l => view_of (default [] l)) (algorithm_set_to_array algorithms).

Lemma emits_name_lists ls :
  Forall (fun v => view_ok v /\ ssh_name_list_is_valid v = true)
    (map (fun l => view_of (default [] l)) ls) ->
  emits (put_name_lists ls) (strings_bytes (map (fun l => view_of (default [] l)) ls)).
Proof.
  induction ls as [|l ls IH]; intros H; [apply emits_nil|].
  cbn [map] in H. apply Forall_cons_iff in H as [[Hv Hn] H]. cbn [put_name_lists map].
  cbv zeta. apply emits_reject; [by rewrite Hn|].
  apply emits_bind; [|by apply IH]. rewrite view_bytes_of.
  pose proof (view_ok_len _ Hv) as [_ Hl]. apply view_ok_byte in Hv.
  rewrite view_bytes_of in Hv, Hl. by apply emits_cstring.
Qed.

Lemma emits_kexinit ck algorithms follows :
  let k := mk_kexinit ck (lists_of algorithms) follows 0 in
  kexinit_ok k -> emits (ssh_kexinit_encode (Some ck) algorithms follows) (kexinit_bytes k).
Proof.
  intros k (Hc & Hcb & _ & Hls & _). cbn [k cookie name_lists] in *.
  apply emits_buffer, emits_reject; [done|]. cbv zeta. unfold kexinit_bytes.
  cbn [k cookie name_lists first_kex_packet_follows reserved].
  apply emits_bind; [by apply emits_u8|].
  apply emits_bind; [rewrite <- Hc; by apply emits_put_bytes|].
  apply emits_bind; [by apply emits_name_lists|].
  apply emits_bind; [apply emits_bool|apply emits_u32].
Qed.

Lemma emits_ecdh_init m :
  ecdh_init_ok m ->
  emits (ssh_kex_ecdh_init_encode (view_data (client_public_key m)) (view_len (client_public_key m)))
    (ecdh_init_bytes m).
Proof.
  destruct m as [v]. intros [Hv Hl]. cbn [client_public_key] in *.
  assert (is_null (view_data v) = false) as Hd by (by destruct Hv as (l & -> & _)).
  apply emits_buffer, emits_reject; [by rewrite Hd|]. apply emits_reject; [lia|].
  apply emits_bind; [by apply emits_u8|by apply emits_view].
Qed.

Lemma emits_ecdh_reply m :
  ecdh_reply_ok m ->
  emits (ssh_kex_ecdh_reply_encode (view_data (server_host_key m)) (view_len (server_host_key m))
           (view_data (server_public_key m)) (view_len (server_public_key m))
           (view_data (reply_signature m)) (view_len (reply_signature m)))
    (ecdh_reply_bytes m).
Proof.
  destruct m as [h p s]. intros ([Hh Hhl] & [Hp Hpl] & [Hs Hsl]).
  cbn [server_host_key server_public_key reply_signature] in *.
  assert (forall v, view_ok v -> is_null (view_data v) = false) as Hd by (by intros v (l & -> & _)).
  apply emits_buffer, emits_reject; [by rewrite !Hd|]. apply emits_reject; [lia|].
  apply emits_bind; [by apply emits_u8|]. apply emits_bind; [by apply emits_view|].
  apply emits_bind; by apply emits_view.
Qed.

(** ** Lemmas: negotiation *)

(** The choice for one slot: the first item of the server's list that is also
    in the client's, or nothing when a list is empty and may be. *)
Definition choice_ok (server client : list Z) (allow_empty : bool) (v : ssh_string_view) : Prop :=
  (server <> [] /\ client <> [] /\ exists before item after,
     split_commas server = before ++ item :: after /\
     item ∈ split_commas client /\ Forall (fun i => i ∉ split_commas client) before /\
     v = view_of item) \/
  (allow_empty = true /\ (server = [] \/ client = []) /\ v = null_view).

Definition select_items (client : list Z) (items : list (list Z)) : option (list Z) :=
  List.find (fun i => bool_decide (i ∈ split_commas client)) items.

Lemma contains_token_items client item :
  contains_token_scan [] client item = bool_decide (item ∈ split_commas client).
Proof.
  destruct (split_commas_cons client) as (t & ts & E).
  apply eq_true_iff_eq. rewrite contains_token_scan_spec, bool_decide_eq_true, E.
  cbn [hd tl app]. by rewrite elem_of_cons.
Qed.

Lemma select_scan_items item server client t ts :
  split_commas server = t :: ts ->
  select_scan item server client = select_items client ((item ++ t) :: ts).
Proof.
  unfold select_items. revert item t ts. induction server as [|b s IH]; intros item t ts.
  - intros [= <- <-]. cbn [select_scan List.find]. by rewrite app_nil_r, contains_token_items.
  - cbn [select_scan split_commas]. destruct (split_commas_cons s) as (t' & ts' & E). rewrite E.
    destruct (b =? COMMA).
    + intros [= <- <-]. rewrite app_nil_r, contains_token_items. cbn [List.find].
      destruct (bool_decide _); [done|]. by rewrite (IH [] t' ts' E).
    + intros [= <- <-]. rewrite (IH _ _ _ E), <- app_assoc. done.
Qed.

Lemma select_items_first client items item :
  select_items client items = Some item <->
  exists before after, items = before ++ item :: after /\ item ∈ split_commas client /\
    Forall (fun i => i ∉ split_commas client) before.
Proof.
  unfold select_items. induction items as [|i items IH]; cbn [List.find].
  { split; [done|]. by intros ([|] & ? & ? & _). }
  case_bool_decide as Hi.
  - split.
    + intros [= ->]. exists [], items. split_and!; [done..|constructor].
    + intros ([|i' before] & after & [= -> Ei] & Hc & Hf); [done|].
      by apply Forall_cons_iff in Hf as [? _].
  - rewrite IH. split.
    + intros (before & after & -> & Hc & Hf). exists (i :: before), after.
      split_and!; [done..|by constructor].
    + intros ([|i' before] & after & [= -> Ei] & Hc & Hf); [done|].
      apply Forall_cons_iff in Hf as [_ ?]. eauto.
Qed.

Lemma zlen_eq0 {A} (l : list A) : (zlen l =? 0) = bool_decide (l = []).
Proof.
  case_bool_decide as H; [by subst|]. apply Z.eqb_neq. intros E. by apply H, zlen_zero_inv.
Qed.

Lemma select_first_match_ok server client allow_empty :
  ssh_name_list_is_valid (view_of (default [] server)) = true ->
  ssh_name_list_is_valid (view_of client) = true ->
  (forall v, select_first_match (view_of client) server allow_empty = Ret v <->
     choice_ok (default [] server) client allow_empty v) /\
  ((exists v, select_first_match (view_of client) server allow_empty = Ret v) \/
   select_first_match (view_of client) server allow_empty = Err SSH_ERR_UNSUPPORTED).
Proof.
  intros Hs Hc. unfold select_first_match, cstring_to_name_list_view. rewrite Hs.
  set (s := default [] server) in *. unfold mbind, outcome_bind. rewrite Hc. cbn [negb].
  rewrite !view_bytes_of. cbn [view_of view_len]. rewrite !zlen_eq0. unfold choice_ok.
  destruct (split_commas_cons s) as (t & ts & E). rewrite (select_scan_items _ _ _ _ _ E), E.
  cbn [app]. do 2 case_bool_decide; cbn [orb].
  1-3: destruct allow_empty; split; [naive_solver..|by eauto|naive_solver|by eauto].
  pose proof (select_items_first client (t :: ts)) as F.
  destruct (select_items client (t :: ts)) as [item|].
  - split; [|eauto]. intros v. specialize (F item). split.
    + intros [= <-]. left. destruct F as [(b & a & Eq & ? & ?) _]; [done|]. split_and!; try done.
      by exists b, item, a.
    + intros [(_ & _ & b & i & a & Eq & Hi & Hb & ->)|(_ & [?|?] & _)]; [|done..].
      specialize (select_items_first client (t :: ts) i) as Fi.
      destruct F as [(b' & a' & Eq' & ? & ?) _]; [done|].
      enough (select_items client (t :: ts) = Some i /\ select_items client (t :: ts) = Some item)
        as [E1 E2] by congruence.
      split; [apply Fi; eauto|]. apply select_items_first. eauto.
  - split; [|by right]. intros v. split; [done|].
    intros [(_ & _ & b & i & a & Eq & Hi & Hb & ->)|(_ & [?|?] & _)]; [|done..].
    specialize (F i). destruct F as [_ F]. discriminate F. eauto.
Qed.

Definition selected (n : ssh_kex_negotiation) (i : ssh_kexinit_name_list_index) : ssh_string_view :=
  match i with
  | SSH_KEX_ALGORITHMS => kex_algorithm n
  | SSH_SERVER_HOST_KEY_ALGORITHMS => server_host_key_algorithm n
  | SSH_ENCRYPTION_ALGORITHMS_CLIENT_TO_SERVER => encryption_algorithm_client_to_server n
  | SSH_ENCRYPTION_ALGORITHMS_SERVER_TO_CLIENT => encryption_algorithm_server_to_client n
  | SSH_MAC_ALGORITHMS_CLIENT_TO_SERVER => mac_algorithm_client_to_server n
  | SSH_MAC_ALGORITHMS_SERVER_TO_CLIENT => mac_algorithm_server_to_client n
  | SSH_COMPRESSION_ALGORITHMS_CLIENT_TO_SERVER => compression_algorithm_client_to_server n
  | SSH_COMPRESSION_ALGORITHMS_SERVER_TO_CLIENT => compression_algorithm_server_to_client n
  | SSH_LANGUAGES_CLIENT_TO_SERVER => language_client_to_server n
  | SSH_LANGUAGES_SERVER_TO_CLIENT => language_server_to_client n
  end.

(** Only the languages may stay unset. *)
Definition is_language (i : ssh_kexinit_name_list_index) : bool :=
  match i with
  | SSH_LANGUAGES_CLIENT_TO_SERVER | SSH_LANGUAGES_SERVER_TO_CLIENT => true
  | _ => false
  end.

(** The two lists a slot is chosen from. *)
Definition client_list (k : ssh_kexinit) (i : ssh_kexinit_name_list_index) : list Z :=
  default [] (view_bytes <$> name_lists k !! index_nat i).
Definition server_list (a : ssh_kexinit_algorithm_set) (i : ssh_kexinit_name_list_index)
    : option (list Z) := default None (algorithm_set_to_array (Some a) !! index_nat i).

Definition server_lists_valid (a : ssh_kexinit_algorithm_set) : Prop :=
  forall i, ssh_name_list_is_valid (view_of (default [] (server_list a i))) = true.

Lemma negotiate_slots client server :
  let one i := negotiate_one client i (server_list server i) (is_language i) in
  (forall n, ssh_kex_negotiate (Some client) (Some server) = Ret n <->
     forall i, one i = Ret (selected n i)) /\
  ((forall i, (exists v, one i = Ret v) \/ one i = Err SSH_ERR_UNSUPPORTED) ->
   (exists n, ssh_kex_negotiate (Some client) (Some server) = Ret n) \/
   ssh_kex_negotiate (Some client) (Some server) = Err SSH_ERR_UNSUPPORTED).
Proof.
  intros one. assert (ssh_kex_negotiate (Some client) (Some server) =
    kex ← one SSH_KEX_ALGORITHMS; hk ← one SSH_SERVER_HOST_KEY_ALGORITHMS;
    ecs ← one SSH_ENCRYPTION_ALGORITHMS_CLIENT_TO_SERVER;
    esc ← one SSH_ENCRYPTION_ALGORITHMS_SERVER_TO_CLIENT;
    mcs ← one SSH_MAC_ALGORITHMS_CLIENT_TO_SERVER; msc ← one SSH_MAC_ALGORITHMS_SERVER_TO_CLIENT;
    ccs ← one SSH_COMPRESSION_ALGORITHMS_CLIENT_TO_SERVER;
    csc ← one SSH_COMPRESSION_ALGORITHMS_SERVER_TO_CLIENT;
    lcs ← one SSH_LANGUAGES_CLIENT_TO_SERVER; lsc ← one SSH_LANGUAGES_SERVER_TO_CLIENT;
    mret (mk_negotiation kex hk ecs esc mcs msc ccs csc lcs lsc)) as -> by done.
  clearbody one. unfold mbind, outcome_bind, mret, outcome_ret. split.
  - intros n. split.
    + intros E. repeat (case_match; try done).
      injection E as <-. intros []; done.
    + intros H. rewrite !H. by destruct n.
  - intros H.
    repeat match goal with
    | |- context [match one ?i with _ => _ end] =>
      destruct (H i) as [[? E]|E]; rewrite E; clear E; [|by right]
    end. eauto.
Qed.

Lemma negotiate_one_eq client i s b :
  kexinit_ok client ->
  negotiate_one client i s b = select_first_match (view_of (client_list client i)) s b /\
  ssh_name_list_is_valid (view_of (client_list client i)) = true.
Proof.
  intros (_ & _ & Hl & Hv & _). unfold negotiate_one, client_list.
  destruct (lookup_lt_is_Some_2 (name_lists client) (index_nat i)) as [v E].
  { rewrite Hl. destruct i; cbn; unfold SSH_KEXINIT_NAMELIST_COUNT; lia. }
  rewrite E. cbn [fmap option_fmap option_map from_option id].
  eapply Forall_lookup_1 in Hv as [Hok Hn]; [|exact E].
  rewrite <- (view_ok_eta v Hok). by split.
Qed.

(** ** Properties *)

(** [ssh_kexinit_decode] accepts a byte string exactly when it is a KEXINIT
    message: the message number, a 16-byte cookie, ten RFC 4251 name lists, the
    guess flag, a zero reserved word and nothing more; it returns those fields
    and never reads outside the payload. *)
Theorem kexinit_decode_exact bs k :
  Forall is_byte bs ->
  (decode_from ssh_kexinit_decode bs = Ret k <-> kexinit_ok k /\ bs = kexinit_bytes k) /\
  decode_from ssh_kexinit_decode bs <> Fault.
Proof.
  intros Hb. split; [by apply message_exact; [apply _|]|by apply (message_no_fault _ _ _ bs Hb)].
Qed.

(** A client that offers one algorithm more, in front, than the server. *)
Definition demo_kexinit : ssh_kexinit :=
  mk_kexinit (replicate 16 7)
    (map view_of [cstr "x,ecdh-sha2-nistp256,curve25519-sha256"; cstr "ssh-ed25519";
       cstr "aes128-ctr"; cstr "aes128-ctr"; cstr "hmac-sha2-256"; cstr "hmac-sha2-256";
       cstr "none"; cstr "none"; []; []]) false 0.

Lemma demo_kexinit_ok : kexinit_ok demo_kexinit.
Proof.
  unfold kexinit_ok. split_and!; try done.
  - by apply (bool_decide_unpack _); vm_compute.
  - cbn [demo_kexinit name_lists map]. repeat (apply Forall_cons_2; [split; [|by vm_compute]|]);
      [..|constructor]; apply view_ok_of; first [by apply (bool_decide_unpack _); vm_compute|by vm_compute].
Qed.

Lemma kexinit_decode_exact_witness :
  decode_from ssh_kexinit_decode (kexinit_bytes demo_kexinit) = Ret demo_kexinit.
Proof.
  apply (kexinit_decode_exact (kexinit_bytes demo_kexinit) demo_kexinit).
  - by apply (bool_decide_unpack _); vm_compute.
  - split; [apply demo_kexinit_ok|done].
Defined.

(** The server's KEXINIT message, built from any algorithm set of valid
    name lists, decodes to the same cookie, lists and flag; the default lists
    are such a set. *)
Theorem kexinit_roundtrip ck algorithms follows storage cap :
  let k := mk_kexinit ck (lists_of algorithms) follows 0 in
  kexinit_ok k -> zlen (kexinit_bytes k) <= cap <= zlen storage ->
  encode_into (ssh_kexinit_encode (Some ck) algorithms follows) storage cap = Ret (kexinit_bytes k) /\
  decode_from ssh_kexinit_decode (kexinit_bytes k) = Ret k /\
  (zlen ck = SSH_KEX_COOKIE_LEN -> Forall is_byte ck -> kexinit_ok (mk_kexinit ck (lists_of None) follows 0)).
Proof.
  intros k Hk Hl. destruct (message_roundtrip ssh_kexinit_decode kexinit_ok kexinit_bytes
    (ssh_kexinit_encode (Some ck) algorithms follows) k storage cap) as [E D];
    [done|by apply emits_kexinit|done|].
  split_and!; [done|done|]. intros Hc Hb. unfold kexinit_ok. split_and!; try done.
  cbn [name_lists lists_of map algorithm_set_to_array default_name_lists].
  repeat (apply Forall_cons_2; [split; [|by vm_compute]|]); [..|constructor];
    apply view_ok_of; first [by apply (bool_decide_unpack _); vm_compute|by vm_compute].
Qed.

Lemma kexinit_roundtrip_witness :
  decode_from ssh_kexinit_decode
    (kexinit_bytes (mk_kexinit (replicate 16 1) (lists_of None) true 0)) =
  Ret (mk_kexinit (replicate 16 1) (lists_of None) true 0).
Proof.
  apply (kexinit_roundtrip (replicate 16 1) None true (replicate 300 0) 300).
  - unfold kexinit_ok. split_and!; try done.
    + by apply (bool_decide_unpack _); vm_compute.
    + cbn [name_lists lists_of map algorithm_set_to_array default_name_lists].
      repeat (apply Forall_cons_2; [split; [|by vm_compute]|]); [..|constructor];
        apply view_ok_of; first [by apply (bool_decide_unpack _); vm_compute|by vm_compute].
  - by vm_compute.
Defined.

(** The ECDH_INIT, ECDH_REPLY and NEWKEYS decoders accept exactly the
    well-formed messages of their kind, with every key, host key and signature
    non-empty and within its limit, so that the fixed arrays they are copied to
    are never overrun; the encoders produce those messages. *)
Theorem kex_messages_exact bs :
  Forall is_byte bs ->
  (forall m, decode_from ssh_kex_ecdh_init_decode bs = Ret m <->
     ecdh_init_ok m /\ bs = ecdh_init_bytes m) /\
  (forall m, decode_from ssh_kex_ecdh_reply_decode bs = Ret m <->
     ecdh_reply_ok m /\ bs = ecdh_reply_bytes m) /\
  (decode_from ssh_kex_newkeys_decode bs = Ret tt <-> bs = [SSH_MSG_NEWKEYS]) /\
  (forall m, ecdh_reply_ok m -> zlen (ecdh_reply_bytes m) <= zlen bs ->
     encode_into (ssh_kex_ecdh_reply_encode
       (view_data (server_host_key m)) (view_len (server_host_key m))
       (view_data (server_public_key m)) (view_len (server_public_key m))
       (view_data (reply_signature m)) (view_len (reply_signature m))) bs (zlen bs) =
     Ret (ecdh_reply_bytes m)) /\
  (forall m, ecdh_init_ok m -> zlen (ecdh_init_bytes m) <= zlen bs ->
     encode_into (ssh_kex_ecdh_init_encode (view_data (client_public_key m))
       (view_len (client_public_key m))) bs (zlen bs) = Ret (ecdh_init_bytes m)).
Proof.
  intros Hb. split; [|split; [|split; [|split]]].
  - intros m. by apply message_exact; [apply _|].
  - intros m. by apply message_exact; [apply _|].
  - rewrite (message_exact _ (fun _ => True) newkeys_bytes) by done. naive_solver.
  - intros m Hm Hl. apply emits_encode_into; [by apply emits_ecdh_reply|lia].
  - intros m Hm Hl. apply emits_encode_into; [by apply emits_ecdh_init|lia].
Qed.

Lemma kex_messages_exact_witness :
  decode_from ssh_kex_ecdh_init_decode [30; 0; 0; 0; 2; 9; 8] = Ret (mk_ecdh_init (view_of [9; 8])).
Proof.
  apply (kex_messages_exact [30; 0; 0; 0; 2; 9; 8]).
  - by apply (bool_decide_unpack _); vm_compute.
  - split; [split; [|by vm_compute]|by vm_compute]. apply view_ok_of; [|by vm_compute].
    by apply (bool_decide_unpack _); vm_compute.
Defined.

(** C39: negotiation over a decoded client KEXINIT and valid server lists
    returns exactly when every slot has a choice, and then each slot holds the
    first algorithm of the server's list that the client also lists (a language
    may stay unset when a side lists none); otherwise it reports
    [SSH_ERR_UNSUPPORTED]. *)
Theorem kex_negotiate_exact client server :
  kexinit_ok client -> server_lists_valid server ->
  (forall n, ssh_kex_negotiate (Some client) (Some server) = Ret n <->
     forall i, choice_ok (default [] (server_list server i)) (client_list client i)
       (is_language i) (selected n i)) /\
  ((exists n, ssh_kex_negotiate (Some client) (Some server) = Ret n) \/
   ssh_kex_negotiate (Some client) (Some server) = Err SSH_ERR_UNSUPPORTED).
Proof.
  intros Hc Hs. destruct (negotiate_slots client server) as [Hn He].
  assert (forall i, let one := negotiate_one client i (server_list server i) (is_language i) in
    (forall v, one = Ret v <-> choice_ok (default [] (server_list server i)) (client_list client i)
       (is_language i) v) /\ ((exists v, one = Ret v) \/ one = Err SSH_ERR_UNSUPPORTED)) as Hi.
  { intros i. cbv zeta. destruct (negotiate_one_eq client i (server_list server i) (is_language i) Hc)
      as [-> Hv]. by apply select_first_match_ok. }
  split.
  - intros n. rewrite Hn. split; intros H i; by apply (Hi i).
  - apply He. intros i. apply (Hi i).
Qed.

Definition demo_negotiation : ssh_kex_negotiation :=
  mk_negotiation (view_of (cstr "curve25519-sha256")) (view_of (cstr "ssh-ed25519"))
    (view_of (cstr "aes128-ctr")) (view_of (cstr "aes128-ctr"))
    (view_of (cstr "hmac-sha2-256")) (view_of (cstr "hmac-sha2-256"))
    (view_of (cstr "none")) (view_of (cstr "none")) null_view null_view.

Lemma kex_negotiate_exact_witness :
  ssh_kex_negotiate (Some demo_kexinit) (Some ssh_kexinit_algorithm_set_defaults) =
    Ret demo_negotiation /\
  forall i, choice_ok (default [] (server_list ssh_kexinit_algorithm_set_defaults i))
    (client_list demo_kexinit i) (is_language i) (selected demo_negotiation i).
Proof.
  assert (ssh_kex_negotiate (Some demo_kexinit) (Some ssh_kexinit_algorithm_set_defaults) =
    Ret demo_negotiation) as E by (by vm_compute).
  split; [exact E|].
  apply (kex_negotiate_exact demo_kexinit ssh_kexinit_algorithm_set_defaults demo_kexinit_ok);
    [|exact E].
  intros []; by vm_compute.
Defined.
