(* ===== verification/UserPolicy.v ===== *)
(** * Who may log in: the policy functions of src/core/ssh_userauth.c

    The AllowUsers list with its patterns, the root login policy and the list
    of accepted signature algorithms.  A pointer into a string is represented by
    the bytes from it to the end; the terminating NUL is the end of the list.
    Loops that are not structural take a bound on their iterations, and the
    bound each definition passes is proved to be enough. *)

From S2P Require Import Prelude Buffer Codec Service.

Definition STAR : Z := 42.
Definition QUESTION : Z := 63.
Definition AT_SIGN : Z := 64.
Definition EMSSH_PERMIT_ROOT_LOGIN_DEFAULT : Z := 0.
Definition EMSSH_PERMIT_ROOT_LOGIN_NO : Z := 1.
Definition EMSSH_PERMIT_ROOT_LOGIN_YES : Z := 2.
Definition EMSSH_PERMIT_ROOT_LOGIN_PROHIBIT_PASSWORD : Z := 3.
Definition SSH_AUTH_METHOD_NONE : list Z := cstr "none".
Definition SSH_AUTH_METHOD_PASSWORD : list Z := cstr "password".
Definition SSH_AUTH_METHOD_PUBLICKEY : list Z := cstr "publickey".

(** ** Signature algorithm lists *)
Fixpoint name_list_contains_loop (fuel : nat) (p name : list Z) : bool :=
  match p, fuel with
  | [], _ | _, O => false
  | _, S fuel' =>
    let '(token, rest) := scan_until (fun b => b =? COMMA) p in
    if (zlen token =? zlen name) && bytes_eqb token name then true
    else name_list_contains_loop fuel' (tail rest) name
  end.

Definition name_list_contains_view (name_list : option (list Z)) (name : ssh_string_view) : bool :=
  match name_list, view_data name with
  | Some l, Some _ =>
    if view_len name =? 0 then false else name_list_contains_loop (length l) l (view_bytes name)
  | _, _ => false
  end.

(** ** User name patterns *)
Definition is_separator_char (ch : Z) : bool := (ch =? 32) || (ch =? 9) || (ch =? COMMA).

Definition username_is_root (username : ssh_string_view) : bool := view_eq username (Some (cstr "root")).

(** [while (p < pattern_len && pattern[p] == '*') ++p; return p == pattern_len;] *)
Fixpoint only_stars (p : list Z) : bool :=
  match p with
  | [] => true
  | b :: p' => if b =? STAR then only_stars p' else false
  end.

(** The matching loop: [p] and [u] are the pattern and the user name from the
    current positions, [star] the positions [star_p] and [star_u] once a star
    has been met.  [None]: the bound was too small. *)
Fixpoint pattern_loop (fuel : nat) (p u : list Z) (star : option (list Z * list Z)) : option bool :=
  match u with
  | [] => Some (only_stars p)
  | c :: u' =>
    match fuel with
    | O => None
    | S fuel' =>
      let backtrack :=
        match star with
        | Some (sp, su) => pattern_loop fuel' sp (tail su) (Some (sp, tail su))
        | None => Some false
        end in
      match p with
      | b :: p' =>
        if (b =? QUESTION) || (b =? c) then pattern_loop fuel' p' u' star
        else if b =? STAR then pattern_loop fuel' p' u (Some (p', u))
        else backtrack
      | [] => backtrack
      end
    end
  end.

(** Enough iterations for any input ([pattern_loop_total]). *)
Definition pattern_fuel (pattern username : list Z) : nat :=
  S ((length username + 2) * S (length pattern)).

Definition username_pattern_matches (pattern username : list Z) : bool :=
  default false (pattern_loop (pattern_fuel pattern username) pattern username None).

(** ** The AllowUsers list *)
Fixpoint allow_users_loop (fuel : nat) (p username : list Z) : bool :=
  match p, fuel with
  | [], _ | _, O => false
  | _, S fuel' =>
    match snd (scan_until (fun b => negb (is_separator_char b)) p) with
    | [] => false
    | p =>
      let '(token, rest) := scan_until is_separator_char p in
      if zlen token =? 0 then allow_users_loop fuel' rest username else
      let '(user, host) := scan_until (fun b => b =? AT_SIGN) token in
      match host with
      | _ :: _ =>
        if zlen user =? 0 then allow_users_loop fuel' rest username
        else if username_pattern_matches user username then true
        else allow_users_loop fuel' rest username
      | [] =>
        if username_pattern_matches token username then true
        else allow_users_loop fuel' rest username
      end
    end
  end.

Definition username_allowed_by_allow_users (allow_users : option (list Z))
    (username : ssh_string_view) : bool :=
  match allow_users with
  | None | Some [] => true
  | Some l =>
    match view_data username with
    | None => false
    | Some _ =>
      if view_len username =? 0 then false
      else allow_users_loop (S (length l)) l (view_bytes username)
    end
  end.

(** ** Pattern matching as a relation *)

(** [glob p u]: [u] is an instance of the pattern [p], where a question mark
    stands for any one byte and a star for any bytes. *)
Inductive glob : list Z -> list Z -> Prop :=
| glob_nil : glob [] []
| glob_any c p u : glob p u -> glob (QUESTION :: p) (c :: u)
| glob_char c p u : c <> STAR -> glob p u -> glob (c :: p) (c :: u)
| glob_star_nil p u : glob p u -> glob (STAR :: p) u
| glob_star_cons c p u : glob (STAR :: p) u -> glob (STAR :: p) (c :: u).

Lemma glob_star_iff p u : glob (STAR :: p) u <-> exists w v, u = w ++ v /\ glob p v.
Proof.
  split.
  - remember (STAR :: p) as q eqn:E. induction 1; simplify_eq.
    + exists [], u. done.
    + destruct IHglob as (w & v & -> & ?); [done|]. exists (c :: w), v. done.
  - intros (w & v & -> & Hg). induction w as [|c w IH]; [by apply glob_star_nil|by apply glob_star_cons].
Qed.

(** One pattern byte that is not a star against one byte. *)
Definition char_match (b c : Z) : Prop := b <> STAR /\ (b = QUESTION \/ b = c).

Lemma glob_char_iff b p u :
  b <> STAR -> glob (b :: p) u <-> exists c v, u = c :: v /\ char_match b c /\ glob p v.
Proof.
  unfold char_match. intros Hb. split.
  - inversion 1; simplify_eq; eauto 8.
  - intros (c & v & -> & [_ [->| ->]] & Hg); [by apply glob_any|by apply glob_char].
Qed.

Lemma glob_nil_iff u : glob [] u <-> u = [].
Proof. split; [by inversion 1|intros ->; constructor]. Qed.

Lemma glob_only_stars p : glob p [] <-> only_stars p = true.
Proof.
  induction p as [|b p IH]; cbn [only_stars]; [split; [done|constructor]|].
  destruct (Z.eqb_spec b STAR) as [->|Hb].
  - rewrite glob_star_iff, <- IH. split.
    + intros (w & v & E & Hg). symmetry in E. by apply app_eq_nil in E as [_ ->].
    + intros Hg. by exists [], [].
  - rewrite glob_char_iff by done. naive_solver.
Qed.

(** A star-free prefix of a pattern takes exactly as many bytes as it has. *)
Lemma glob_prefix q w p v :
  Forall2 char_match q w -> glob (q ++ p) v ->
  exists w' v', v = w' ++ v' /\ length w' = length w /\ glob p v'.
Proof.
  intros Hq. revert v. induction Hq as [|b c q w [Hb Hbc] Hq IH]; intros v Hg.
  - by exists [], v.
  - cbn [app] in Hg. apply glob_char_iff in Hg as (c' & v' & -> & _ & Hg); [|done].
    destruct (IH v' Hg) as (w' & v'' & -> & Hl & Hg'). exists (c' :: w'), v''.
    split_and!; [done|cbn; by f_equal|done].
Qed.

(** ** The matching loop *)

(** Termination: a lexicographic measure of what a restart may still cost and of
    the pattern left. *)
Definition loop_measure (n : nat) (p u : list Z) (star : option (list Z * list Z)) : nat :=
  (match star with Some (_, su) => length su | None => S (length u) end * S n + length p)%nat.

Lemma pattern_loop_total n fuel p u star :
  (length p <= n)%nat ->
  match star with
  | Some (sp, su) => (length sp <= n)%nat /\ (length u <= length su)%nat
  | None => True
  end ->
  (loop_measure n p u star < fuel)%nat -> is_Some (pattern_loop fuel p u star).
Proof.
  revert p u star. induction fuel as [|fuel IH]; intros p u star Hp Hs Hm; [lia|].
  destruct u as [|c u]; cbn [pattern_loop]; [eauto|]. unfold loop_measure in *.
  assert (is_Some (match star with
    | Some (sp, su) => pattern_loop fuel sp (tail su) (Some (sp, tail su))
    | None => Some false end)) as Hback.
  { destruct star as [[sp su]|]; [|eauto]. destruct Hs as [Hsp Hu].
    destruct su as [|c' su]; [cbn in Hu; lia|]. cbn [tail length] in *.
    apply IH; [done|by split|]. lia. }
  destruct p as [|b p]; [done|]. cbn [length] in *.
  destruct ((b =? QUESTION) || (b =? c)).
  - apply IH; [lia|destruct star as [[sp su]|]; [lia|done]|]. destruct star as [[sp su]|]; lia.
  - destruct (b =? STAR); [|done]. apply IH; [lia|split; cbn; lia|].
    destruct star as [[sp su]|]; cbn [length] in *; [|lia].
    destruct Hs as [_ Hu]. assert (S (length u) * S n <= length su * S n)%nat by nia. lia.
Qed.

(** What a restart can still find: a match of the pattern behind the last star
    strictly after the position remembered for it. *)
Definition restart_matches (star : option (list Z * list Z)) : Prop :=
  match star with
  | Some (sp, su) => exists x v, x <> [] /\ su = x ++ v /\ glob sp v
  | None => False
  end.

(** Since the last star, star-free pattern bytes have been matched one to one. *)
Definition loop_inv (p u : list Z) (star : option (list Z * list Z)) : Prop :=
  match star with
  | Some (sp, su) => exists q w, sp = q ++ p /\ su = w ++ u /\ Forall2 char_match q w /\
      Forall (fun c => c <> STAR) su
  | None => True
  end.

Lemma loop_inv_start p u : Forall (fun c => c <> STAR) u -> loop_inv p u (Some (p, u)).
Proof. intros. exists [], []. split_and!; [done..|constructor|done]. Qed.

Lemma restart_later p u star :
  loop_inv p u star -> restart_matches star -> exists y v, y <> [] /\ u = y ++ v /\ glob p v.
Proof.
  destruct star as [[sp su]|]; [|done].
  intros (q & w & -> & -> & Hq & _) (x & v & Hx & E & Hg).
  destruct (glob_prefix q w p v Hq Hg) as (w' & v' & -> & Hl & Hg').
  exists (drop (length w) (x ++ w')), v'. rewrite app_assoc in E.
  assert (length x <> 0%nat) by (by destruct x).
  assert (u = drop (length w) (x ++ w') ++ v') as Eu.
  { rewrite <- drop_app_le, <- E, drop_app_length by (rewrite length_app; lia). done. }
  split_and!; [|done|done]. intros Ed. apply (f_equal length) in Ed.
  rewrite length_drop, length_app in Ed. cbn in Ed. lia.
Qed.

Lemma glob_star_later p u :
  glob (STAR :: p) u <-> glob p u \/ restart_matches (Some (p, u)).
Proof.
  rewrite glob_star_iff. cbn. split.
  - intros ([|c w] & v & -> & Hg); [by left|]. right. by exists (c :: w), v.
  - intros [Hg|(x & v & _ & -> & Hg)]; [by exists [], u|by exists x, v].
Qed.

Lemma pattern_loop_glob fuel p u star r :
  Forall (fun c => c <> STAR) u -> loop_inv p u star ->
  pattern_loop fuel p u star = Some r ->
  r = true <-> glob p u \/ restart_matches star.
Proof.
  revert p u star. induction fuel as [|fuel IH]; intros p u star Hns Hinv E;
    (destruct u as [|c u]; cbn [pattern_loop] in E; [injection E as <-|]); try done.
  1-2: rewrite <- glob_only_stars; split; [by left|intros [?|H]; [done|]];
    destruct (restart_later _ _ _ Hinv H) as (y & v & ? & Hy & _);
    symmetry in Hy; apply app_eq_nil in Hy as [-> _]; congruence.
  assert (c <> STAR) as Hc by (by apply Forall_cons_iff in Hns as [? _]).
  assert (Forall (fun c => c <> STAR) u) as Hns' by (by apply Forall_cons_iff in Hns as [_ ?]).
  assert (~ glob p (c :: u) -> match star with
    | Some (sp, su) => pattern_loop fuel sp (tail su) (Some (sp, tail su))
    | None => Some false end = Some r -> r = true <-> glob p (c :: u) \/ restart_matches star) as Hback.
  { intros Hng Eb. destruct star as [[sp su]|]; [|injection Eb as <-; naive_solver].
    destruct Hinv as (q & w & -> & -> & Hq & Hsu).
    assert (exists c0 su', w ++ c :: u = c0 :: su') as (c0 & su' & Es)
      by (destruct w; cbn; eauto).
    rewrite Es in *. cbn [tail] in Eb. apply Forall_cons_iff in Hsu as [_ Hsu].
    rewrite (IH _ _ _ Hsu) by (first [exact Eb|by apply loop_inv_start]).
    rewrite <- glob_star_later, glob_star_iff. split.
    - intros (x & v & -> & Hg). right. by exists (c0 :: x), v.
    - intros [?|(x & v & Hx & Ex & Hg)]; [done|]. destruct x as [|? x]; [done|].
      injection Ex as -> ->. by exists x, v. }
  destruct p as [|b p]; [apply Hback; [by rewrite glob_nil_iff|done]|].
  destruct ((b =? QUESTION) || (b =? c)) eqn:Eb.
  - assert (char_match b c) as Hm.
    { unfold char_match. apply orb_true_iff in Eb as [->%Z.eqb_eq| ->%Z.eqb_eq]; [|by auto].
      by split; [|left]. }
    assert (glob (b :: p) (c :: u) <-> glob p u) as ->.
    { rewrite glob_char_iff by apply Hm. split; [|by eauto]. by intros (c' & v & [= -> ->] & _ & ?). }
    apply (IH p u star Hns'); [|done]. destruct star as [[sp su]|]; [|done].
    destruct Hinv as (q & w & -> & -> & Hq & Hsu). exists (q ++ [b]), (w ++ [c]).
    rewrite <- !app_assoc. split_and!; try done. apply Forall2_app; [done|]. by constructor; [|constructor].
  - destruct (Z.eqb_spec b STAR) as [->|Hb].
    + rewrite (IH _ _ _ Hns) by (first [exact E|by apply loop_inv_start]).
      rewrite <- glob_star_later. split; [by left|]. intros [?|H]; [done|].
      destruct (restart_later _ _ _ Hinv H) as (y & v & _ & -> & Hg).
      apply glob_star_iff in Hg as (w & v' & -> & Hg). apply glob_star_iff.
      exists (y ++ w), v'. by rewrite <- app_assoc.
    + apply Hback; [|done]. rewrite glob_char_iff by done.
      intros (c' & v & [= <- <-] & [_ [?|?]] & _); apply orb_false_iff in Eb as [??]; lia.
Qed.

Lemma pattern_matches_glob pattern username :
  Forall (fun c => c <> STAR) username ->
  username_pattern_matches pattern username = true <-> glob pattern username.
Proof.
  intros Hns. unfold username_pattern_matches.
  destruct (pattern_loop_total (length pattern) (pattern_fuel pattern username) pattern username None)
    as [r E]; [done|done|unfold loop_measure, pattern_fuel; lia|].
  rewrite E. cbn [from_option id]. rewrite (pattern_loop_glob _ pattern username None r Hns I E). cbn. tauto.
Qed.

(** ** Tokens *)
Lemma split_on_commas l : split_on (fun b => b =? COMMA) l = split_commas l.
Proof. induction l as [|b l IH]; [done|]. cbn [split_on split_commas]. by rewrite IH. Qed.

(** The name list loop looks at every comma-separated token. *)
Lemma name_list_contains_loop_spec fuel p name :
  (length p <= fuel)%nat -> name <> [] ->
  name_list_contains_loop fuel p name = true <-> name ∈ split_commas p.
Proof.
  intros Hf Hn. rewrite <- split_on_commas. revert p Hf.
  induction fuel as [|fuel IH]; intros [|b p] Hf; cbn [name_list_contains_loop]; try (cbn in Hf; lia).
  1-2: cbn; rewrite list_elem_of_singleton; naive_solver.
  set (q := b :: p) in *.
  pose proof (scan_until_split (fun b => b =? COMMA) q) as Hs.
  destruct (scan_until _ q) as [tok rest]. destruct Hs as (-> & Eq & Hr).
  assert ((zlen tok =? zlen name) && bytes_eqb tok name = bool_decide (name = tok)) as ->.
  { unfold bytes_eqb. do 2 case_bool_decide; subst; try done.
    - by rewrite Z.eqb_refl.
    - by rewrite andb_false_r. }
  rewrite elem_of_cons. case_bool_decide as Ht; [naive_solver|].
  assert (length tok + length rest = length q)%nat as Hl by (rewrite Eq, length_app; done).
  destruct Hr as [->|(b' & r & -> & _)]; cbn [tail].
  - split; [|intros [?|?%not_elem_of_nil]; done]. destruct fuel; cbn; done.
  - rewrite IH by (cbn [length] in *; lia). naive_solver.
Qed.

(** What the loop finds is a token, whatever the name. *)
Lemma name_list_contains_listed fuel p name : name_list_contains_loop fuel p name = true -> name ∈ split_commas p.
Proof.
  rewrite <- split_on_commas. revert p. induction fuel as [|fuel IH]; intros [|b p]; cbn [name_list_contains_loop]; try done.
  set (q := b :: p). pose proof (scan_until_split (fun b => b =? COMMA) q) as Hs. destruct (scan_until _ q) as [tok rest].
  destruct Hs as (-> & _ & Hr). rewrite elem_of_cons. destruct (_ && _) eqn:E.
  - apply andb_true_iff in E as [_ E]. unfold bytes_eqb in E. apply bool_decide_eq_true in E. by left.
  - destruct Hr as [->|(b' & r & -> & _)]; cbn [tail]; [by destruct fuel|]. intros H. right. by apply IH.
Qed.

(** The patterns of an AllowUsers value: its tokens without a host part, the
    empty ones dropped. *)
Definition user_part (tok : list Z) : list Z := fst (scan_until (fun b => b =? AT_SIGN) tok).
Definition allow_patterns (l : list Z) : list (list Z) :=
  filter (fun t => t <> []) (map user_part (split_on is_separator_char l)).

Lemma allow_patterns_sep b p :
  is_separator_char b = true -> allow_patterns (b :: p) = allow_patterns p.
Proof. intros E. unfold allow_patterns. cbn [split_on]. by rewrite E. Qed.

Lemma skip_separators p :
  let p' := snd (scan_until (fun b => negb (is_separator_char b)) p) in
  allow_patterns p' = allow_patterns p /\ (length p' <= length p)%nat /\
  match p' with [] => True | b :: _ => is_separator_char b = false end.
Proof.
  cbv zeta. induction p as [|b p IH]; [done|]. cbn [scan_until].
  destruct (is_separator_char b) eqn:E; cbn [negb].
  - destruct (scan_until _ p) as [tok rest]. cbn [snd] in *. destruct IH as (E1 & E2 & E3).
    rewrite E1, (allow_patterns_sep b p E). split_and!; [done|cbn; lia|done].
  - cbn [snd]. done.
Qed.

Lemma allow_patterns_token p :
  let '(tok, rest) := scan_until is_separator_char p in
  allow_patterns p = (if decide (user_part tok = []) then [] else [user_part tok]) ++ allow_patterns rest.
Proof.
  pose proof (scan_until_split is_separator_char p) as Hs.
  destruct (scan_until is_separator_char p) as [tok rest]. destruct Hs as (E & _ & Hr).
  unfold allow_patterns at 1. rewrite E. cbn [map]. rewrite filter_cons.
  assert (filter (fun t => t <> []) (map user_part match rest with [] => [] | _ :: r =>
    split_on is_separator_char r end) = allow_patterns rest) as ->.
  { destruct Hr as [->|(b & r & -> & Hb)]; [done|]. by rewrite (allow_patterns_sep b r Hb). }
  destruct (decide (user_part tok = [])); [by rewrite decide_False by naive_solver|].
  by rewrite decide_True.
Qed.

Lemma allow_users_loop_spec fuel p u :
  (length p < fuel)%nat ->
  allow_users_loop fuel p u = true <->
  exists pat, pat ∈ allow_patterns p /\ username_pattern_matches pat u = true.
Proof.
  revert p. induction fuel as [|fuel IH]; intros [|b p] Hf; cbn [allow_users_loop]; try lia.
  { split; [done|]. by intros (pat & ?%not_elem_of_nil & _). }
  set (q := b :: p) in *. destruct (skip_separators q) as (E & Hl & Hns).
  rewrite <- E. destruct (snd (scan_until _ q)) as [|b' q']; cbn match.
  { split; [done|]. by intros (pat & ?%not_elem_of_nil & _). }
  set (q2 := b' :: q') in *.
  pose proof (allow_patterns_token q2) as Ht. pose proof (scan_until_split is_separator_char q2) as Hs.
  destruct (scan_until is_separator_char q2) as [tok rest] eqn:Es. destruct Hs as (_ & Eq & _).
  assert (tok <> []) as Htok.
  { intros ->. unfold q2 in Es. cbn [scan_until] in Es. rewrite Hns in Es.
    by destruct (scan_until is_separator_char q'). }
  replace (zlen tok =? 0) with false
    by (symmetry; apply Z.eqb_neq; intros ?%zlen_zero_inv; done).
  assert (length rest < fuel)%nat as Hr.
  { assert (length tok <> 0%nat) by (by destruct tok).
    apply (f_equal length) in Eq. rewrite length_app in Eq. lia. }
  rewrite Ht. unfold user_part in *.
  pose proof (scan_until_split (fun b => b =? AT_SIGN) tok) as Hat.
  destruct (scan_until (fun b => b =? AT_SIGN) tok) as [user host]. cbn [fst] in *.
  destruct Hat as (_ & Etok & _).
  assert (forall X : Prop, (allow_users_loop fuel rest u = true <-> X) ->
    (if username_pattern_matches user u then true else allow_users_loop fuel rest u) = true <->
    username_pattern_matches user u = true \/ X) as Hif.
  { intros X HX. destruct (username_pattern_matches user u); naive_solver. }
  destruct (decide (user = [])) as [->|Hu].
  - cbn [app]. destruct host as [|h host]; [by rewrite Etok in Htok|]. cbn. by apply IH.
  - replace (zlen user =? 0) with false by (symmetry; apply Z.eqb_neq; intros ?%zlen_zero_inv; done).
    setoid_rewrite elem_of_app. setoid_rewrite list_elem_of_singleton.
    destruct host as [|h host]; [rewrite app_nil_r in Etok; subst tok|];
      rewrite (Hif _ (IH rest Hr)); naive_solver.
Qed.

(** ** Properties *)

(** C40: the backtracking pattern matcher terminates on every pattern and user
    name, and for user names without a star byte it decides the usual meaning
    of the pattern: a question mark stands for one byte, a star for any bytes,
    every other byte for itself. *)
Theorem username_pattern_exact pattern username :
  is_Some (pattern_loop (pattern_fuel pattern username) pattern username None) /\
  (Forall (fun c => c <> STAR) username ->
   username_pattern_matches pattern username = true <-> glob pattern username).
Proof.
  split; [|by apply pattern_matches_glob].
  apply (pattern_loop_total (length pattern)); [done|done|unfold loop_measure, pattern_fuel; lia].
Qed.

Lemma username_pattern_exact_witness :
  username_pattern_matches (cstr "a*b?d*") (cstr "axxbxbcdzz") = true /\
  glob (cstr "a*b?d*") (cstr "axxbxbcdzz").
Proof.
  assert (username_pattern_matches (cstr "a*b?d*") (cstr "axxbxbcdzz") = true) as E by (by vm_compute).
  split; [exact E|].
  apply (username_pattern_exact (cstr "a*b?d*") (cstr "axxbxbcdzz")); [|exact E].
  by apply (bool_decide_unpack _); vm_compute.
Defined.

(** The restriction to user names without a star is needed: the loop compares
    bytes literally before it looks for a star, so a leading star byte of the
    user name uses the star of the pattern up. *)
Lemma star_in_username_not_matched :
  username_pattern_matches (cstr "*") (cstr "*a") = false /\ glob (cstr "*") (cstr "*a").
Proof.
  split; [by vm_compute|]. apply glob_star_iff. exists (cstr "*a"), []. split; [done|constructor].
Qed.

(** An AllowUsers value admits a user name exactly when it is absent or
    empty, or when the name is an instance of one of its patterns: the tokens
    between blanks, tabs and commas, each cut at its first at sign. *)
Theorem allow_users_exact l u :
  Forall (fun c => c <> STAR) u ->
  username_allowed_by_allow_users None (view_of u) = true /\
  (username_allowed_by_allow_users (Some l) (view_of u) = true <->
   l = [] \/ (u <> [] /\ exists pat, pat ∈ allow_patterns l /\ glob pat u)).
Proof.
  intros Hu. split; [done|]. unfold username_allowed_by_allow_users. cbn [view_of view_data view_len].
  change (mk_view (Some u) (zlen u)) with (view_of u). rewrite view_bytes_of.
  destruct l as [|b l]; [naive_solver|].
  destruct (zlen u =? 0) eqn:E.
  { apply Z.eqb_eq, zlen_zero_inv in E. naive_solver. }
  assert (u <> []) by (intros ->; done).
  rewrite allow_users_loop_spec by lia.
  setoid_rewrite (pattern_matches_glob _ u Hu). naive_solver.
Qed.

Lemma allow_users_exact_witness :
  username_allowed_by_allow_users (Some (cstr "bob, adm*@10.0.0.1")) (view_of (cstr "admin")) = true /\
  exists pat, pat ∈ allow_patterns (cstr "bob, adm*@10.0.0.1") /\ glob pat (cstr "admin").
Proof.
  destruct (allow_users_exact (cstr "bob, adm*@10.0.0.1") (cstr "admin")) as [_ [H _]].
  - by apply (bool_decide_unpack _); vm_compute.
  - assert (username_allowed_by_allow_users (Some (cstr "bob, adm*@10.0.0.1"))
      (view_of (cstr "admin")) = true) as E by (by vm_compute).
    split; [exact E|]. destruct (H E) as [?|[_ ?]]; done.
Defined.
