(* ===== verification/Userauth.v ===== *)
(** * User authentication: src/core/ssh_userauth.c

    The USERAUTH_REQUEST decoder and the encoders of the protocol, the list of
    methods reported on failure, and the decision on a request: the password
    and public-key callbacks of the server configuration, the policy of
    UserPolicy.v and the signature over the session identifier and the request. *)

From S2P Require Import Prelude Buffer Platform Codec Service UserPolicy.

Definition SSH_MSG_USERAUTH_REQUEST : Z := 50.
Definition SSH_MSG_USERAUTH_FAILURE : Z := 51.
Definition SSH_MSG_USERAUTH_SUCCESS : Z := 52.
Definition SSH_MSG_USERAUTH_PK_OK : Z := 60.
Definition EMSSH_MAX_USERAUTH_PAYLOAD : Z := 2048.
Definition EMSSH_MAX_USERAUTH_FAILURE_METHODS : Z := 64.

(** ** Data *)
Record ssh_userauth_request : Type := mk_userauth_request {
  username : ssh_string_view;
  ua_service_name : ssh_string_view;
  method_name : ssh_string_view;
  password_change_request : bool;
  password : ssh_string_view;
  publickey_has_signature : bool;
  publickey_algorithm : ssh_string_view;
  publickey_blob : ssh_string_view;
  publickey_signature : ssh_string_view
}.

Inductive ssh_userauth_decision : Type :=
| SSH_USERAUTH_DECISION_FAILURE
| SSH_USERAUTH_DECISION_SUCCESS
| SSH_USERAUTH_DECISION_PK_OK.

(** What the authentication callbacks are given. *)
Record ssh_password_auth_request : Type := mk_password_auth_request {
  pa_username : ssh_string_view;
  pa_service_name : ssh_string_view;
  pa_password : ssh_string_view
}.
Record ssh_publickey_auth_request : Type := mk_publickey_auth_request {
  ka_username : ssh_string_view;
  ka_service_name : ssh_string_view;
  ka_algorithm : ssh_string_view;
  ka_publickey_blob : ssh_string_view
}.

(** The parts of [ssh_server_t] the functions read: the configuration and the
    crypto interface of the platform, and the list the linked crypto backend
    returns from [ssh_crypto_publickey_signature_algorithms]. *)
Record auth_server : Type := mk_auth_server {
  password_auth : option (ssh_password_auth_request -> bool);
  publickey_auth : option (ssh_publickey_auth_request -> bool);
  publickey_signature_algorithms : option (list Z);
  permit_root_login : Z;
  allow_users : option (list Z);
  server_crypto : option ssh_crypto_api;
  backend_signature_algorithms : option (list Z)
}.

(** ** Policy *)
Definition request_allowed_by_server_policy (server : auth_server) (request : ssh_userauth_request)
    : bool :=
  if negb (username_allowed_by_allow_users (allow_users server) (username request)) then false else
  if username_is_root (username request) then
    let mode := permit_root_login server in
    let mode := if mode =? EMSSH_PERMIT_ROOT_LOGIN_DEFAULT
                then EMSSH_PERMIT_ROOT_LOGIN_PROHIBIT_PASSWORD else mode in
    if mode =? EMSSH_PERMIT_ROOT_LOGIN_NO then false else
    if (mode =? EMSSH_PERMIT_ROOT_LOGIN_PROHIBIT_PASSWORD)
       && view_eq (method_name request) (Some SSH_AUTH_METHOD_PASSWORD) then false
    else true
  else true.

(** ** Failure methods

    The state is the character array [methods]; the length is passed along. *)
Definition array_store (off : Z) (bs : list Z) : Prog (list Z) unit := fun m =>
  match mem_write m off bs with Some m' => (Ret tt, m') | None => (Fault, m) end.

Definition append_method_name (capacity len : Z) (name : list Z) : Prog (list Z) Z :=
  let name_len := zlen name in
  len ← (if negb (len =? 0) then
           reject (len + 1 >=? capacity) SSH_ERR_BUFFER_TOO_SMALL;;
           array_store len [COMMA];;
           mret (len + 1)
         else mret len);
  reject (len + name_len >=? capacity) SSH_ERR_BUFFER_TOO_SMALL;;
  array_store len name;;
  array_store (len + name_len) [0];;
  mret (len + name_len).

Definition ssh_userauth_failure_methods (server : auth_server) (methods_capacity : Z)
    : Prog (list Z) unit :=
  reject (methods_capacity =? 0) SSH_ERR_INVALID_ARGUMENT;;
  array_store 0 [0];;
  len ← (if negb (is_null (publickey_auth server))
         then append_method_name methods_capacity 0 SSH_AUTH_METHOD_PUBLICKEY else mret 0);
  if negb (is_null (password_auth server))
  then append_method_name methods_capacity len SSH_AUTH_METHOD_PASSWORD;; mret tt
  else mret tt.

(** ** Messages *)
Definition ssh_userauth_request_none_encode (username service_name : option (list Z)) : BufM unit :=
  require_buffer;;
  reject (is_null username || is_null service_name) SSH_ERR_INVALID_ARGUMENT;;
  ssh_buffer_put_u8 SSH_MSG_USERAUTH_REQUEST;;
  ssh_buffer_put_cstring username;;
  ssh_buffer_put_cstring service_name;;
  ssh_buffer_put_cstring (Some SSH_AUTH_METHOD_NONE).

Definition ssh_userauth_request_password_encode (username service_name password : option (list Z))
    : BufM unit :=
  require_buffer;;
  reject (is_null username || is_null service_name || is_null password) SSH_ERR_INVALID_ARGUMENT;;
  ssh_buffer_put_u8 SSH_MSG_USERAUTH_REQUEST;;
  ssh_buffer_put_cstring username;;
  ssh_buffer_put_cstring service_name;;
  ssh_buffer_put_cstring (Some SSH_AUTH_METHOD_PASSWORD);;
  ssh_buffer_put_bool false;;
  ssh_buffer_put_cstring password.

Definition ssh_userauth_request_decode : BufM ssh_userauth_request :=
  require_buffer;;
  message_id ← ssh_buffer_get_u8;
  reject (negb (message_id =? SSH_MSG_USERAUTH_REQUEST)) SSH_ERR_MALFORMED_PACKET;;
  user ← ssh_buffer_get_string_view;
  service ← ssh_buffer_get_string_view;
  method ← ssh_buffer_get_string_view;
  reject ((view_len user =? 0) || negb (view_eq service (Some SSH_SERVICE_CONNECTION)))
    SSH_ERR_MALFORMED_PACKET;;
  if view_eq method (Some SSH_AUTH_METHOD_NONE) then
    remaining ← remaining_read;
    reject (negb (remaining =? 0)) SSH_ERR_MALFORMED_PACKET;;
    mret (mk_userauth_request user service method false null_view false null_view null_view null_view)
  else if view_eq method (Some SSH_AUTH_METHOD_PASSWORD) then
    change ← ssh_buffer_get_bool;
    pass ← ssh_buffer_get_string_view;
    remaining ← remaining_read;
    reject (negb (remaining =? 0)) SSH_ERR_MALFORMED_PACKET;;
    mret (mk_userauth_request user service method change pass false null_view null_view null_view)
  else if view_eq method (Some SSH_AUTH_METHOD_PUBLICKEY) then
    has_sig ← ssh_buffer_get_bool;
    alg ← ssh_buffer_get_string_view;
    blob ← ssh_buffer_get_string_view;
    reject ((view_len alg =? 0) || (view_len blob =? 0)) SSH_ERR_MALFORMED_PACKET;;
    if has_sig : bool then
      sig ← ssh_buffer_get_string_view;
      reject (view_len sig =? 0) SSH_ERR_MALFORMED_PACKET;;
      remaining ← remaining_read;
      reject (negb (remaining =? 0)) SSH_ERR_MALFORMED_PACKET;;
      mret (mk_userauth_request user service method false null_view has_sig alg blob sig)
    else
      remaining ← remaining_read;
      reject (negb (remaining =? 0)) SSH_ERR_MALFORMED_PACKET;;
      mret (mk_userauth_request user service method false null_view has_sig alg blob null_view)
  else
    mret (mk_userauth_request user service method false null_view false null_view null_view null_view).

Definition ssh_userauth_failure_encode (methods : option (list Z)) (partial_success : bool)
    : BufM unit :=
  require_buffer;;
  reject (is_null methods) SSH_ERR_INVALID_ARGUMENT;;
  ssh_buffer_put_u8 SSH_MSG_USERAUTH_FAILURE;;
  ssh_buffer_put_cstring methods;;
  ssh_buffer_put_bool partial_success.

Definition ssh_userauth_pk_ok_encode (publickey_algorithm publickey_blob : ssh_string_view)
    : BufM unit :=
  require_buffer;;
  reject (is_null (view_data publickey_algorithm) || (view_len publickey_algorithm =? 0)
          || is_null (view_data publickey_blob) || (view_len publickey_blob =? 0))
    SSH_ERR_INVALID_ARGUMENT;;
  ssh_buffer_put_u8 SSH_MSG_USERAUTH_PK_OK;;
  ssh_buffer_put_string (view_data publickey_algorithm) (view_len publickey_algorithm);;
  ssh_buffer_put_string (view_data publickey_blob) (view_len publickey_blob).

Definition ssh_userauth_success_encode : BufM unit :=
  require_buffer;; ssh_buffer_put_u8 SSH_MSG_USERAUTH_SUCCESS.

(** ** Decisions *)
Definition ssh_userauth_authenticate_password (server : auth_server)
    (request : ssh_userauth_request) : outcome unit :=
  if negb (view_eq (method_name request) (Some SSH_AUTH_METHOD_PASSWORD))
     || password_change_request request
     || negb (view_eq (ua_service_name request) (Some SSH_SERVICE_CONNECTION))
  then Err SSH_ERR_INVALID_ARGUMENT else
  match password_auth server with
  | None => Err SSH_ERR_SECURITY
  | Some cb =>
    if negb (request_allowed_by_server_policy server request) then Err SSH_ERR_SECURITY else
    if cb (mk_password_auth_request (username request) (ua_service_name request) (password request))
    then Ret tt else Err SSH_ERR_SECURITY
  end.

Definition ssh_userauth_publickey_is_acceptable (server : auth_server)
    (request : ssh_userauth_request) : outcome unit :=
  if negb (view_eq (method_name request) (Some SSH_AUTH_METHOD_PUBLICKEY))
     || negb (view_eq (ua_service_name request) (Some SSH_SERVICE_CONNECTION))
     || is_null (view_data (publickey_algorithm request))
     || is_null (view_data (publickey_blob request))
  then Err SSH_ERR_INVALID_ARGUMENT else
  match publickey_auth server with
  | None => Err SSH_ERR_SECURITY
  | Some cb =>
    if negb (request_allowed_by_server_policy server request) then Err SSH_ERR_SECURITY else
    let signature_algorithms :=
      match publickey_signature_algorithms server with
      | None => backend_signature_algorithms server
      | l => l
      end in
    if negb (is_null signature_algorithms)
       && negb (zlen (default [] signature_algorithms) =? 0)
       && negb (name_list_contains_view signature_algorithms (publickey_algorithm request))
    then Err SSH_ERR_SECURITY else
    if cb (mk_publickey_auth_request (username request) (ua_service_name request)
             (publickey_algorithm request) (publickey_blob request))
    then Ret tt else Err SSH_ERR_SECURITY
  end.

(** The data the client signs, written into [signed_data]. *)
Definition put_signed_data (request : ssh_userauth_request) (session_id : option (list Z))
    (session_id_len : Z) : BufM unit :=
  ssh_buffer_put_string session_id session_id_len;;
  ssh_buffer_put_u8 SSH_MSG_USERAUTH_REQUEST;;
  put_view (username request);;
  put_view (ua_service_name request);;
  put_view (method_name request);;
  ssh_buffer_put_bool true;;
  put_view (publickey_algorithm request);;
  put_view (publickey_blob request).

Definition signed_data_size : Z := EMSSH_MAX_USERAUTH_PAYLOAD + EMSSH_MAX_EXCHANGE_HASH + 8.

Definition ssh_userauth_authenticate_publickey (server : auth_server)
    (request : ssh_userauth_request) (session_id : option (list Z)) (session_id_len : Z)
    : outcome unit :=
  if is_null session_id || (session_id_len =? 0) || negb (publickey_has_signature request)
     || is_null (view_data (publickey_signature request))
     || (view_len (publickey_signature request) =? 0)
  then Err SSH_ERR_INVALID_ARGUMENT else
  _ ← ssh_userauth_publickey_is_acceptable server request;
  match server_crypto server with
  | None => Err SSH_ERR_PLATFORM
  | Some crypto =>
    match publickey_verify crypto with
    | None => Err SSH_ERR_PLATFORM
    | Some verify =>
      signed_data ← encode_into (put_signed_data request session_id session_id_len)
        (replicate (Z.to_nat signed_data_size) 0) signed_data_size;
      match verify (publickey_algorithm request) (view_bytes (publickey_blob request)) signed_data
              (view_bytes (publickey_signature request)) with
      | SSH_OK => Ret tt
      | SSH_ERR_UNSUPPORTED => Err SSH_ERR_UNSUPPORTED
      | _ => Err SSH_ERR_SECURITY
      end
    end
  end.

Definition ssh_userauth_evaluate_request (server : auth_server) (request : ssh_userauth_request)
    (session_id : option (list Z)) (session_id_len : Z) : outcome ssh_userauth_decision :=
  if view_eq (method_name request) (Some SSH_AUTH_METHOD_PASSWORD) then
    match ssh_userauth_authenticate_password server request with
    | Ret _ => Ret SSH_USERAUTH_DECISION_SUCCESS
    | Err SSH_ERR_SECURITY => Ret SSH_USERAUTH_DECISION_FAILURE
    | Err status => Err status
    | Fault => Fault
    end
  else if view_eq (method_name request) (Some SSH_AUTH_METHOD_PUBLICKEY) then
    if publickey_has_signature request then
      if is_null session_id || (session_id_len =? 0) then Err SSH_ERR_INVALID_ARGUMENT else
      match ssh_userauth_authenticate_publickey server request session_id session_id_len with
      | Ret _ => Ret SSH_USERAUTH_DECISION_SUCCESS
      | Err SSH_ERR_SECURITY | Err SSH_ERR_UNSUPPORTED => Ret SSH_USERAUTH_DECISION_FAILURE
      | Err status => Err status
      | Fault => Fault
      end
    else
      match ssh_userauth_publickey_is_acceptable server request with
      | Ret _ => Ret SSH_USERAUTH_DECISION_PK_OK
      | Err SSH_ERR_SECURITY => Ret SSH_USERAUTH_DECISION_FAILURE
      | Err status => Err status
      | Fault => Fault
      end
  else Ret SSH_USERAUTH_DECISION_FAILURE.

(** ** Requests on the wire *)

(** The fields of each method, and which requests have their fields checked to
    the last byte; those of other methods are opaque. *)
Definition method_is (r : ssh_userauth_request) (m : list Z) : Prop := view_bytes (method_name r) = m.
#[export] Instance method_is_dec r m : Decision (method_is r m).
Proof. unfold method_is. apply _. Defined.

Definition nonempty_view (v : ssh_string_view) : Prop := view_ok v /\ view_len v <> 0.

Definition no_password (r : ssh_userauth_request) : Prop :=
  password_change_request r = false /\ password r = null_view.
Definition no_publickey (r : ssh_userauth_request) : Prop :=
  publickey_has_signature r = false /\ publickey_algorithm r = null_view /\
  publickey_blob r = null_view /\ publickey_signature r = null_view.

Definition method_fields_ok (r : ssh_userauth_request) : Prop :=
  if decide (method_is r SSH_AUTH_METHOD_PASSWORD) then view_ok (password r) /\ no_publickey r
  else if decide (method_is r SSH_AUTH_METHOD_PUBLICKEY) then
    no_password r /\ nonempty_view (publickey_algorithm r) /\ nonempty_view (publickey_blob r) /\
    (if publickey_has_signature r then nonempty_view (publickey_signature r)
     else publickey_signature r = null_view)
  else no_password r /\ no_publickey r.

Definition request_ok (r : ssh_userauth_request) : Prop :=
  nonempty_view (username r) /\ ua_service_name r = view_of SSH_SERVICE_CONNECTION /\
  view_ok (method_name r) /\ method_fields_ok r.

Definition method_fields_bytes (r : ssh_userauth_request) : list Z :=
  if decide (method_is r SSH_AUTH_METHOD_PASSWORD)
  then [int_of_bool (password_change_request r)] ++ string_bytes (view_bytes (password r))
  else if decide (method_is r SSH_AUTH_METHOD_PUBLICKEY) then
    [int_of_bool (publickey_has_signature r)] ++ string_bytes (view_bytes (publickey_algorithm r)) ++
    string_bytes (view_bytes (publickey_blob r)) ++
    (if publickey_has_signature r then string_bytes (view_bytes (publickey_signature r)) else [])
  else [].

Definition request_bytes (r : ssh_userauth_request) : list Z :=
  [SSH_MSG_USERAUTH_REQUEST] ++ string_bytes (view_bytes (username r)) ++
  string_bytes (view_bytes (ua_service_name r)) ++ string_bytes (view_bytes (method_name r)) ++
  method_fields_bytes r.

Definition opaque_method (r : ssh_userauth_request) : Prop :=
  ~ method_is r SSH_AUTH_METHOD_NONE /\ ~ method_is r SSH_AUTH_METHOD_PASSWORD /\
  ~ method_is r SSH_AUTH_METHOD_PUBLICKEY.

Lemma service_connection_view_ok : view_ok (view_of SSH_SERVICE_CONNECTION).
Proof. apply view_ok_of; [by apply (bool_decide_unpack _); vm_compute|by vm_compute]. Qed.

Lemma parses_if {A} (c : bool) (g h : BufM A) bs rest x :
  (c = true -> parses g bs rest x) -> (c = false -> parses h bs rest x) ->
  parses (if c then g else h) bs rest x.
Proof. destruct c; auto. Qed.

Lemma request_parses r tail :
  request_ok r -> tail = [] \/ opaque_method r ->
  parses ssh_userauth_request_decode (request_bytes r) tail r.
Proof.
  destruct r as [u sv m pc pw hs al bl sg].
  unfold request_ok, method_fields_ok, request_bytes, method_fields_bytes, opaque_method, method_is,
    no_password, no_publickey, nonempty_view.
  cbn [username ua_service_name method_name password_change_request password publickey_has_signature
    publickey_algorithm publickey_blob publickey_signature].
  intros ((Hu & Hul) & -> & Hm & Hf) Htail. unfold ssh_userauth_request_decode.
  pose proof service_connection_view_ok as Hsv.
  parse_message; rewrite !view_ok_eqb by done.
  { rewrite view_bytes_of, bool_decide_true by done. lia. }
  destruct (decide (view_bytes m = SSH_AUTH_METHOD_PASSWORD)) as [Ep|Ep].
  { destruct Hf as (Hp & -> & -> & -> & ->). rewrite Ep. change (bool_decide (_ = SSH_AUTH_METHOD_NONE)) with false.
    destruct Htail as [->|(_ & ? & _)]; [|done]. rewrite bool_decide_true by done. rewrite <- app_assoc.
    repeat parse_step. }
  destruct (decide (view_bytes m = SSH_AUTH_METHOD_PUBLICKEY)) as [Ek|Ek].
  { destruct Hf as ((-> & ->) & (Ha & Hal) & (Hb & Hbl) & Hs). rewrite Ek.
    destruct Htail as [->|(_ & _ & ?)]; [|done].
    change (bool_decide (SSH_AUTH_METHOD_PUBLICKEY = SSH_AUTH_METHOD_NONE)) with false.
    change (bool_decide (SSH_AUTH_METHOD_PUBLICKEY = SSH_AUTH_METHOD_PASSWORD)) with false.
    rewrite bool_decide_true by done. rewrite <- !app_assoc.
    repeat parse_step. destruct hs.
    - destruct Hs as [Hs Hsl]. repeat parse_step.
    - rewrite Hs. repeat parse_step. }
  rewrite (bool_decide_false _ Ep), (bool_decide_false _ Ek).
  destruct Hf as ((-> & ->) & -> & -> & -> & ->). case_bool_decide as En; [|apply parses_ret].
  destruct Htail as [->|[? _]]; [|done]. repeat parse_step.
Qed.

Lemma request_decodes :
  decodes ssh_userauth_request_decode (fun r u1 u2 =>
    request_ok r /\ u1 = request_bytes r /\ (u2 = [] \/ opaque_method r)).
Proof.
  unfold ssh_userauth_request_decode. decode_message;
  unfold request_ok, method_fields_ok, request_bytes, method_fields_bytes, opaque_method, method_is,
    no_password, no_publickey, nonempty_view;
  cbn [username ua_service_name method_name password_change_request password publickey_has_signature
    publickey_algorithm publickey_blob publickey_signature];
  repeat match goal with
  | H : view_eq _ _ = true |- _ => rewrite view_ok_eqb, bool_decide_eq_true in H by done
  | H : view_eq _ _ = false |- _ => rewrite view_ok_eqb, bool_decide_eq_false in H by done
  end;
  repeat case_decide; try done;
  try match goal with
  | H1 : view_bytes ?v = ?a, H2 : view_bytes ?v = ?b |- _ => rewrite H1 in H2; discriminate H2
  end; rewrite ?app_nil_r;
  split_and!; first [done | lia | by apply view_ok_of_bytes | by left | by right].
Qed.

(** ** Lemmas: the callbacks' view of a request *)

(** RFC 4252 section 7: what the signature of a public-key request covers. *)
Definition signed_blob (sid : list Z) (r : ssh_userauth_request) : list Z :=
  string_bytes sid ++ [SSH_MSG_USERAUTH_REQUEST] ++ string_bytes (view_bytes (username r)) ++
  string_bytes (view_bytes (ua_service_name r)) ++ string_bytes (view_bytes (method_name r)) ++
  [1] ++ string_bytes (view_bytes (publickey_algorithm r)) ++
  string_bytes (view_bytes (publickey_blob r)).

Lemma emits_signed_data r sid :
  Forall is_byte sid -> zlen sid <= UINT32_MAX -> view_ok (username r) ->
  view_ok (ua_service_name r) -> view_ok (method_name r) -> view_ok (publickey_algorithm r) ->
  view_ok (publickey_blob r) ->
  emits (put_signed_data r (Some sid) (zlen sid)) (signed_blob sid r).
Proof.
  intros. unfold put_signed_data, signed_blob.
  repeat (apply emits_bind; [first [by apply emits_string | by apply emits_u8 | by apply emits_view
    | apply (emits_bool true)]|]). by apply emits_view.
Qed.

(** A request that fits the payload limit always fits the buffer its signed
    form is built in. *)
Lemma signed_blob_fits r sid :
  request_ok r -> method_is r SSH_AUTH_METHOD_PUBLICKEY -> publickey_has_signature r = true ->
  zlen (request_bytes r) <= EMSSH_MAX_USERAUTH_PAYLOAD -> zlen sid <= EMSSH_MAX_EXCHANGE_HASH ->
  zlen (signed_blob sid r) <= signed_data_size.
Proof.
  unfold request_bytes, method_fields_bytes, signed_blob, signed_data_size.
  intros _ Hm Hs. rewrite decide_False by (unfold method_is in *; rewrite Hm; done).
  rewrite decide_True by done. rewrite Hs. intros.
  pose proof (zlen_nonneg (view_bytes (publickey_signature r))). len_lia.
Qed.

Lemma encode_signed_data r sid :
  request_ok r -> method_is r SSH_AUTH_METHOD_PUBLICKEY -> publickey_has_signature r = true ->
  zlen (request_bytes r) <= EMSSH_MAX_USERAUTH_PAYLOAD ->
  Forall is_byte sid -> zlen sid <= EMSSH_MAX_EXCHANGE_HASH ->
  encode_into (put_signed_data r (Some sid) (zlen sid))
    (replicate (Z.to_nat signed_data_size) 0) signed_data_size = Ret (signed_blob sid r).
Proof.
  intros Hr Hm Hs Hl Hb Hsid. pose proof (signed_blob_fits r sid Hr Hm Hs Hl Hsid).
  destruct Hr as ((Hu & _) & Hsv & Hmv & Hf). unfold method_fields_ok in Hf.
  rewrite decide_False in Hf by (unfold method_is in *; rewrite Hm; done).
  rewrite decide_True in Hf by done. destruct Hf as (_ & (Ha & _) & (Hbl & _) & _).
  apply emits_encode_into.
  - apply emits_signed_data; try done.
    + unfold EMSSH_MAX_EXCHANGE_HASH, UINT32_MAX in *. lia.
    + rewrite Hsv. apply service_connection_view_ok.
  - split; [done|]. unfold zlen. rewrite length_replicate. unfold signed_data_size,
      EMSSH_MAX_USERAUTH_PAYLOAD, EMSSH_MAX_EXCHANGE_HASH. lia.
Qed.

(** ** The decision as a specification *)
Definition password_accepts (server : auth_server) (r : ssh_userauth_request) : bool :=
  match password_auth server with
  | None => false
  | Some cb => request_allowed_by_server_policy server r &&
      cb (mk_password_auth_request (username r) (ua_service_name r) (password r))
  end.

(** The algorithms a client may sign with; all of them when the list is empty. *)
Definition algorithm_listed (server : auth_server) (alg : list Z) : bool :=
  let algs := default [] (match publickey_signature_algorithms server with
                          | None => backend_signature_algorithms server | l => l end) in
  bool_decide (algs = [] \/ alg ∈ split_commas algs).

Definition key_accepts (server : auth_server) (r : ssh_userauth_request) : bool :=
  match publickey_auth server with
  | None => false
  | Some cb => request_allowed_by_server_policy server r &&
      algorithm_listed server (view_bytes (publickey_algorithm r)) &&
      cb (mk_publickey_auth_request (username r) (ua_service_name r) (publickey_algorithm r)
            (publickey_blob r))
  end.

Definition server_verify (server : auth_server) : option publickey_verify_fn :=
  api ← server_crypto server; publickey_verify api.

Definition auth_decision (server : auth_server) (r : ssh_userauth_request) (sid : list Z)
    : outcome ssh_userauth_decision :=
  if decide (method_is r SSH_AUTH_METHOD_PASSWORD) then
    if password_change_request r then Err SSH_ERR_INVALID_ARGUMENT
    else Ret (if password_accepts server r then SSH_USERAUTH_DECISION_SUCCESS
              else SSH_USERAUTH_DECISION_FAILURE)
  else if decide (method_is r SSH_AUTH_METHOD_PUBLICKEY) then
    if negb (key_accepts server r) then Ret SSH_USERAUTH_DECISION_FAILURE else
    if negb (publickey_has_signature r) then Ret SSH_USERAUTH_DECISION_PK_OK else
    match server_verify server with
    | None => Err SSH_ERR_PLATFORM
    | Some verify =>
      Ret (if decide (verify (publickey_algorithm r) (view_bytes (publickey_blob r))
                        (signed_blob sid r) (view_bytes (publickey_signature r)) = SSH_OK)
           then SSH_USERAUTH_DECISION_SUCCESS else SSH_USERAUTH_DECISION_FAILURE)
    end
  else Ret SSH_USERAUTH_DECISION_FAILURE.

Lemma algorithm_listed_check server alg :
  nonempty_view alg ->
  let algs := match publickey_signature_algorithms server with
              | None => backend_signature_algorithms server | l => l end in
  negb (is_null algs) && negb (zlen (default [] algs) =? 0)
    && negb (name_list_contains_view algs alg) =
  negb (algorithm_listed server (view_bytes alg)).
Proof.
  intros [Hv Hl] algs. unfold algorithm_listed. fold algs. destruct algs as [l|]; [|done].
  cbn [is_null negb andb from_option id].
  unfold name_list_contains_view. destruct Hv as (a & -> & Hb & Hle). cbn [view_data].
  rewrite view_bytes_of. replace (view_len (view_of a) =? 0) with false by lia.
  assert (a <> []) as Ha by (intros ->; done).
  assert (name_list_contains_loop (length l) l a = bool_decide (a ∈ split_commas l)) as ->.
  { apply eq_true_iff_eq. rewrite bool_decide_eq_true. by apply name_list_contains_loop_spec. }
  destruct l as [|b l]; [done|]. replace (zlen (b :: l) =? 0) with false by (rewrite zlen_cons; pose proof (zlen_nonneg l); lia).
  cbn [negb andb]. do 2 case_bool_decide; naive_solver.
Qed.

Lemma acceptable_spec server r :
  request_ok r -> method_is r SSH_AUTH_METHOD_PUBLICKEY ->
  ssh_userauth_publickey_is_acceptable server r =
    if key_accepts server r then Ret tt else Err SSH_ERR_SECURITY.
Proof.
  intros (Hu & Hsv & Hmv & Hf) Hm. unfold method_fields_ok in Hf.
  rewrite decide_False in Hf by (unfold method_is in *; rewrite Hm; done).
  rewrite decide_True in Hf by done. destruct Hf as (_ & Ha & Hb & _).
  unfold ssh_userauth_publickey_is_acceptable, key_accepts.
  rewrite (view_ok_eqb _ _ Hmv), bool_decide_true by done. rewrite Hsv, view_eq_same.
  destruct Ha as [Hav Hal]. destruct Hb as [Hbv Hbl].
  assert (is_null (view_data (publickey_algorithm r)) = false) as -> by (by destruct Hav as (? & -> & _)).
  assert (is_null (view_data (publickey_blob r)) = false) as -> by (by destruct Hbv as (? & -> & _)).
  cbn [negb orb]. destruct (publickey_auth server) as [cb|]; [|done].
  rewrite algorithm_listed_check by done.
  destruct (request_allowed_by_server_policy server r), (algorithm_listed server _); cbn; done.
Qed.

(** ** Lemmas: failure methods *)
Lemma array_store_app w x bs r n :
  n = zlen w -> zlen x = zlen bs ->
  array_store n bs (w ++ x ++ r) = (Ret tt, w ++ bs ++ r).
Proof. intros -> ?. unfold array_store. by rewrite mem_write_app. Qed.

(** The text after a method is appended. *)
Definition join_method (text name : list Z) : list Z :=
  match text with [] => name | _ => text ++ [COMMA] ++ name end.

Lemma append_method_spec cap text name m :
  zlen (join_method text name) < cap <= zlen text + zlen m ->
  exists m', append_method_name cap (zlen text) name (text ++ m) =
    (Ret (zlen (join_method text name)), join_method text name ++ [0] ++ m') /\
    zlen (join_method text name) + 1 + zlen m' = zlen text + zlen m.
Proof.
  intros Hc. unfold append_method_name. pose proof (zlen_nonneg text).
  pose proof (zlen_nonneg name). destruct text as [|c text].
  - cbn [join_method app] in *. rewrite zlen_nil in *. cbn [Z.eqb negb].
    rewrite (bind_ret _ _ _ 0 m) by done. cbv zeta.
    rewrite (bind_ret _ _ _ tt m) by (apply reject_false; lia).
    destruct (zsplit m (zlen name)) as (x & r & -> & Hx); [lia|].
    rewrite (bind_ret _ _ _ _ _ (array_store_app [] x name r 0 eq_refl Hx)).
    destruct r as [|z r]; [len_lia|]. cbn [app].
    change (z :: r) with ([z] ++ r).
    erewrite (bind_ret _ _ _ tt) by (by apply array_store_app).
    exists r. split; [done|]. cbn [join_method]. len_lia.
  - set (t := c :: text) in *. replace (negb (zlen t =? 0)) with true
      by (unfold t; rewrite zlen_cons; pose proof (zlen_nonneg text); lia).
    change (join_method t name) with (t ++ [COMMA] ++ name) in *.
    assert (zlen (t ++ [COMMA] ++ name) = zlen t + 1 + zlen name) as El by len_lia.
    rewrite El in *. destruct (zsplit m 1) as (x & r & -> & Hx); [lia|].
    destruct (zsplit r (zlen name)) as (y & r' & -> & Hy); [len_lia|].
    destruct r' as [|z r']; [len_lia|].
    erewrite bind_ret; last first.
    { rewrite (bind_ret _ _ _ tt (t ++ x ++ y ++ z :: r')) by (apply reject_false; lia).
      erewrite bind_ret by (by apply array_store_app). reflexivity. }
    cbv zeta. erewrite (bind_ret _ _ _ tt) by (apply reject_false; lia).
    rewrite (app_assoc t [COMMA]).
    erewrite (bind_ret _ _ _ tt) by (apply array_store_app; [len_lia|done]).
    rewrite (app_assoc _ name). change (z :: r') with ([z] ++ r').
    erewrite (bind_ret _ _ _ tt) by (apply array_store_app; [len_lia|done]).
    exists r'. unfold mret, prog_ret. rewrite <- !app_assoc. split; [done|len_lia].
Qed.

(** The methods a server offers, in the order it reports them. *)
Definition offered_methods (server : auth_server) : list Z :=
  let text := if is_null (publickey_auth server) then [] else SSH_AUTH_METHOD_PUBLICKEY in
  if is_null (password_auth server) then text else join_method text SSH_AUTH_METHOD_PASSWORD.

(** ** Properties *)

(** The failure list always fits the 64-byte array the server passes for
    it: the function succeeds for every configuration, and the array then
    starts with the NUL-terminated, comma-separated names of exactly the methods
    that have a callback. *)
Theorem failure_methods_text server m :
  zlen m = EMSSH_MAX_USERAUTH_FAILURE_METHODS ->
  exists m', ssh_userauth_failure_methods server EMSSH_MAX_USERAUTH_FAILURE_METHODS m =
    (Ret tt, offered_methods server ++ [0] ++ m').
Proof.
  intros Hm. unfold EMSSH_MAX_USERAUTH_FAILURE_METHODS in *. unfold ssh_userauth_failure_methods.
  rewrite (bind_ret _ _ _ tt m) by done. destruct m as [|x m]; [done|].
  change (x :: m) with ([] ++ [x] ++ m). erewrite (bind_ret _ _ _ tt) by (by apply array_store_app).
  rewrite zlen_cons in Hm. cbn [app]. set (m0 := 0 :: m).
  assert (zlen m0 = 64) as H0 by (unfold m0; rewrite zlen_cons; lia).
  unfold offered_methods. destruct (publickey_auth server); cbn [is_null negb].
  - destruct (append_method_spec 64 [] SSH_AUTH_METHOD_PUBLICKEY m0) as (m1 & E & H1);
      [rewrite H0; by vm_compute|]. cbn [app] in E. rewrite (bind_ret _ _ _ _ _ E). cbn [join_method] in *.
    destruct (password_auth server); cbn [is_null negb]; [|eauto].
    destruct (append_method_spec 64 SSH_AUTH_METHOD_PUBLICKEY SSH_AUTH_METHOD_PASSWORD ([0] ++ m1))
      as (m2 & E2 & _).
    { rewrite zlen_nil in H1. split; [by vm_compute|len_lia]. }
    rewrite (bind_ret _ _ _ _ _ E2). by exists m2.
  - rewrite (bind_ret _ _ _ 0 m0) by done. destruct (password_auth server); cbn [is_null negb]; [|by exists m].
    destruct (append_method_spec 64 [] SSH_AUTH_METHOD_PASSWORD m0) as (m2 & E2 & _);
      [rewrite H0; by vm_compute|]. cbn [app] in E2. rewrite zlen_nil in E2.
    rewrite (bind_ret _ _ _ _ _ E2). by exists m2.
Qed.

(** A server for the examples: a password and a key are accepted for any user
    but root, and a signature is right when it repeats the first byte signed. *)
Definition demo_server : auth_server :=
  mk_auth_server
    (Some (fun r => bytes_eqb (view_bytes (pa_password r)) (cstr "pw")))
    (Some (fun _ => true)) None EMSSH_PERMIT_ROOT_LOGIN_DEFAULT (Some (cstr "ali* root"))
    (Some (mk_crypto None None (Some (fun _ _ d s =>
       if decide (hd 0 s = nth 4 d 0) then SSH_OK else SSH_ERR_SECURITY))))
    (Some (cstr "ssh-ed25519")).

Definition demo_request (m : list Z) (pw : ssh_string_view) (has : bool) (alg blob sig : ssh_string_view)
    : ssh_userauth_request :=
  mk_userauth_request (view_of (cstr "alice")) (view_of SSH_SERVICE_CONNECTION) (view_of m) false pw
    has alg blob sig.

Definition demo_password_request : ssh_userauth_request :=
  demo_request SSH_AUTH_METHOD_PASSWORD (view_of (cstr "pw")) false null_view null_view null_view.
Definition demo_signed_request : ssh_userauth_request :=
  demo_request SSH_AUTH_METHOD_PUBLICKEY null_view true (view_of (cstr "ssh-ed25519"))
    (view_of [1; 2; 3]) (view_of [77]).

Ltac solve_view_ok :=
  apply view_ok_of; [by apply (bool_decide_unpack _); vm_compute|by vm_compute].

Lemma demo_password_request_ok : request_ok demo_password_request.
Proof.
  unfold request_ok, method_fields_ok, nonempty_view. rewrite decide_True by done.
  split_and!; try done; solve_view_ok.
Qed.

Lemma demo_signed_request_ok : request_ok demo_signed_request.
Proof.
  unfold request_ok, method_fields_ok, nonempty_view. rewrite decide_False by done.
  rewrite decide_True by done. cbn [publickey_has_signature demo_signed_request demo_request].
  split_and!; try done; solve_view_ok.
Qed.

(** The request decoder accepts exactly the USERAUTH_REQUEST messages for
    the ssh-connection service with a user name: for none, password and
    publickey every field is present, well-formed and followed by nothing; the
    fields of any other method are left unread, so that the server can answer
    it with a failure. *)
Theorem userauth_request_exact bs r :
  Forall is_byte bs ->
  (decode_from ssh_userauth_request_decode bs = Ret r <->
   request_ok r /\ exists tail, bs = request_bytes r ++ tail /\ (tail = [] \/ opaque_method r)) /\
  decode_from ssh_userauth_request_decode bs <> Fault.
Proof.
  intros Hb. split; [|by apply (decodes_no_fault _ _ _ request_decodes)]. split.
  - intros E. destruct (decodes_decode_from _ _ _ _ request_decodes Hb E)
      as (u1 & u2 & -> & Hr & -> & Ht). eauto.
  - intros (Hr & tail & -> & Ht). unfold decode_from, ssh_buffer_wrap, uninit_buffer.
    rewrite (mk_Bf _ _ _ _ [] (request_bytes r ++ tail) []);
      [|cbn; by rewrite app_nil_r|done|done]. by rewrite request_parses.
Qed.

Lemma userauth_request_exact_witness :
  decode_from ssh_userauth_request_decode (request_bytes demo_signed_request) = Ret demo_signed_request.
Proof.
  apply (userauth_request_exact (request_bytes demo_signed_request) demo_signed_request).
  - by apply (bool_decide_unpack _); vm_compute.
  - split; [apply demo_signed_request_ok|]. exists []. split; [by rewrite app_nil_r|by left].
Defined.

(** A string constant, or a string known to be one of bytes. *)
Ltac emit_cstring :=
  apply emits_cstring;
  [first [assumption | by apply (bool_decide_unpack _); vm_compute] | first [assumption | by vm_compute]].
Ltac emit_fields :=
  repeat (apply emits_bind; [first [by apply emits_u8 | apply (emits_bool false) | emit_cstring]|]);
  emit_cstring.

Lemma emits_request_none u :
  Forall is_byte u -> zlen u <= UINT32_MAX ->
  emits (ssh_userauth_request_none_encode (Some u) (Some SSH_SERVICE_CONNECTION))
    (request_bytes (mk_userauth_request (view_of u) (view_of SSH_SERVICE_CONNECTION)
      (view_of SSH_AUTH_METHOD_NONE) false null_view false null_view null_view null_view)).
Proof.
  intros Hb Hl. apply emits_buffer, emits_reject; [done|]. unfold request_bytes, method_fields_bytes.
  rewrite !decide_False, app_nil_r by done.
  cbn [username ua_service_name method_name]. rewrite !view_bytes_of. emit_fields.
Qed.

Lemma emits_request_password u pw :
  Forall is_byte u -> zlen u <= UINT32_MAX -> Forall is_byte pw -> zlen pw <= UINT32_MAX ->
  emits (ssh_userauth_request_password_encode (Some u) (Some SSH_SERVICE_CONNECTION) (Some pw))
    (request_bytes (mk_userauth_request (view_of u) (view_of SSH_SERVICE_CONNECTION)
      (view_of SSH_AUTH_METHOD_PASSWORD) false (view_of pw) false null_view null_view null_view)).
Proof.
  intros Hb Hl Hp Hpl. apply emits_buffer, emits_reject; [done|].
  unfold request_bytes, method_fields_bytes. rewrite decide_True by done.
  cbn [username ua_service_name method_name password password_change_request].
  rewrite !view_bytes_of. emit_fields.
Qed.

(** What the client-side encoders of the none and password requests write
    is decoded by the server to the same user name, method and password. *)
Theorem userauth_request_roundtrip u pw storage cap :
  Forall is_byte u -> 0 < zlen u <= UINT32_MAX -> Forall is_byte pw -> zlen pw <= UINT32_MAX ->
  64 + zlen u + zlen pw <= cap <= zlen storage ->
  (exists bs, encode_into (ssh_userauth_request_none_encode (Some u) (Some SSH_SERVICE_CONNECTION))
       storage cap = Ret bs /\
     decode_from ssh_userauth_request_decode bs =
       Ret (mk_userauth_request (view_of u) (view_of SSH_SERVICE_CONNECTION)
         (view_of SSH_AUTH_METHOD_NONE) false null_view false null_view null_view null_view)) /\
  (exists bs, encode_into (ssh_userauth_request_password_encode (Some u)
       (Some SSH_SERVICE_CONNECTION) (Some pw)) storage cap = Ret bs /\
     decode_from ssh_userauth_request_decode bs =
       Ret (mk_userauth_request (view_of u) (view_of SSH_SERVICE_CONNECTION)
         (view_of SSH_AUTH_METHOD_PASSWORD) false (view_of pw) false null_view null_view null_view)).
Proof.
  intros Hb Hl Hp Hpl Hc. assert (nonempty_view (view_of u)) as Hu.
  { split; [by apply view_ok_of; [|lia]|cbn; lia]. }
  split; (eexists; split; [apply emits_encode_into|]).
  - apply emits_request_none; [done|lia].
  - unfold request_bytes, method_fields_bytes. rewrite !decide_False by done.
    cbn [username ua_service_name method_name]. rewrite !view_bytes_of. pose proof (zlen_nonneg pw).
    rewrite !zlen_app, !zlen_string_bytes.
    change (zlen SSH_SERVICE_CONNECTION) with 14. change (zlen SSH_AUTH_METHOD_NONE) with 4.
    change (zlen SSH_AUTH_METHOD_PASSWORD) with 8. len_lia.
  - apply parses_decode_from, request_parses; [|by left]. unfold request_ok, method_fields_ok.
    rewrite !decide_False by done.
    split_and!; try done; solve_view_ok.
  - apply emits_request_password; [done|lia|done|done].
  - unfold request_bytes, method_fields_bytes. rewrite decide_True by done.
    cbn [username ua_service_name method_name password password_change_request].
    rewrite !view_bytes_of. rewrite !zlen_app, !zlen_string_bytes.
    change (zlen SSH_SERVICE_CONNECTION) with 14. change (zlen SSH_AUTH_METHOD_NONE) with 4.
    change (zlen SSH_AUTH_METHOD_PASSWORD) with 8. len_lia.
  - apply parses_decode_from, request_parses; [|by left]. unfold request_ok, method_fields_ok.
    rewrite decide_True by done.
    split_and!; try done; [solve_view_ok|by apply view_ok_of].
Qed.

Lemma userauth_request_roundtrip_witness :
  exists bs, encode_into (ssh_userauth_request_none_encode (Some (cstr "bob")) (Some SSH_SERVICE_CONNECTION))
      (replicate 80 0) 80 = Ret bs /\
    decode_from ssh_userauth_request_decode bs =
      Ret (mk_userauth_request (view_of (cstr "bob")) (view_of SSH_SERVICE_CONNECTION)
        (view_of SSH_AUTH_METHOD_NONE) false null_view false null_view null_view null_view).
Proof.
  apply (userauth_request_roundtrip (cstr "bob") (cstr "pw") (replicate 80 0) 80);
    first [by vm_compute | by apply (bool_decide_unpack _); vm_compute].
Defined.

Lemma failure_methods_text_witness :
  exists m', ssh_userauth_failure_methods demo_server EMSSH_MAX_USERAUTH_FAILURE_METHODS
      (replicate 64 9) = (Ret tt, cstr "publickey,password" ++ [0] ++ m').
Proof. apply (failure_methods_text demo_server (replicate 64 9)). by vm_compute. Defined.

(** The decision table, for every decoded request. *)
Lemma evaluate_decides server r sid :
  request_ok r -> zlen (request_bytes r) <= EMSSH_MAX_USERAUTH_PAYLOAD ->
  Forall is_byte sid -> 0 < zlen sid <= EMSSH_MAX_EXCHANGE_HASH ->
  ssh_userauth_evaluate_request server r (Some sid) (zlen sid) = auth_decision server r sid.
Proof.
  intros Hr Hl Hb Hs. assert (Hr' := Hr). destruct Hr' as (Hu & Hsv & Hmv & Hf).
  unfold ssh_userauth_evaluate_request, auth_decision, method_fields_ok, method_is in *.
  rewrite !(view_ok_eqb _ _ Hmv). destruct (decide _) as [Hm|Hm].
  - rewrite bool_decide_true by done. unfold ssh_userauth_authenticate_password, password_accepts.
    rewrite (view_ok_eqb _ _ Hmv), bool_decide_true, Hsv, view_eq_same by done.
    rewrite orb_false_r. cbn [negb orb]. destruct (password_change_request r); [done|].
    destruct (password_auth server) as [cb|]; [|done].
    destruct (request_allowed_by_server_policy server r); cbn [negb andb]; [|done].
    by destruct (cb _).
  - rewrite (bool_decide_false _ Hm). destruct (decide _) as [Hm'|Hm']; [|by rewrite (bool_decide_false _ Hm')].
    rewrite bool_decide_true by done. rewrite acceptable_spec by done.
    destruct (publickey_has_signature r) eqn:Eg; cbn [negb]; [|by destruct (key_accepts server r)].
    replace (zlen sid =? 0) with false by lia. cbn [is_null orb].
    unfold ssh_userauth_authenticate_publickey. rewrite acceptable_spec, Eg by done.
    destruct Hf as (_ & _ & _ & Hsig & Hsl).
    assert (is_null (view_data (publickey_signature r)) = false) as -> by (by destruct Hsig as (? & -> & _)).
    replace (zlen sid =? 0) with false by lia.
    replace (view_len (publickey_signature r) =? 0) with false by lia. cbn [is_null orb negb].
    destruct (key_accepts server r); cbn [negb]; [|done]. unfold server_verify.
    unfold mbind at 1, outcome_bind. destruct (server_crypto server) as [api|]; [|done].
    change (mbind ?f (Some api)) with (f api). cbv beta.
    destruct (publickey_verify api) as [verify|]; [|done].
    rewrite encode_signed_data by (try done; lia). unfold mbind, outcome_bind.
    by destruct (verify _ _ _ _); case_decide.
Qed.

(** On a decoded request of at most [EMSSH_MAX_USERAUTH_PAYLOAD] bytes and a
    session identifier of at most 64, the evaluation follows the decision
    table: the password method asks the callback if the policy admits the user,
    the public-key method answers PK_OK or verifies the signature over exactly
    the RFC 4252 data, every other method fails.  The signed data always fits
    the array it is built in, so no request is refused for its size. *)
Theorem evaluate_request_decision server r sid :
  request_ok r -> zlen (request_bytes r) <= EMSSH_MAX_USERAUTH_PAYLOAD ->
  Forall is_byte sid -> 0 < zlen sid <= EMSSH_MAX_EXCHANGE_HASH ->
  ssh_userauth_evaluate_request server r (Some sid) (zlen sid) = auth_decision server r sid.
Proof. apply evaluate_decides. Qed.

Lemma evaluate_request_decision_witness :
  ssh_userauth_evaluate_request demo_server demo_signed_request (Some (77 :: replicate 31 0)) 32 =
    auth_decision demo_server demo_signed_request (77 :: replicate 31 0) /\
  auth_decision demo_server demo_signed_request (77 :: replicate 31 0) =
    Ret SSH_USERAUTH_DECISION_SUCCESS.
Proof.
  split; [|by vm_compute].
  apply (evaluate_request_decision demo_server demo_signed_request (77 :: replicate 31 0)).
  - apply demo_signed_request_ok.
  - by vm_compute.
  - by apply (bool_decide_unpack _); vm_compute.
  - by vm_compute.
Defined.

Lemma success_evidence server r sid sid_len :
  ssh_userauth_evaluate_request server r sid sid_len = Ret SSH_USERAUTH_DECISION_SUCCESS ->
  request_allowed_by_server_policy server r = true /\
  ((view_eq (method_name r) (Some SSH_AUTH_METHOD_PASSWORD) = true /\
    password_change_request r = false /\
    exists cb, password_auth server = Some cb /\
      cb (mk_password_auth_request (username r) (ua_service_name r) (password r)) = true) \/
   (view_eq (method_name r) (Some SSH_AUTH_METHOD_PUBLICKEY) = true /\
    publickey_has_signature r = true /\ sid_len <> 0 /\
    (exists cb, publickey_auth server = Some cb /\
      cb (mk_publickey_auth_request (username r) (ua_service_name r) (publickey_algorithm r)
            (publickey_blob r)) = true) /\
    exists verify data, server_verify server = Some verify /\
      encode_into (put_signed_data r sid sid_len) (replicate (Z.to_nat signed_data_size) 0)
        signed_data_size = Ret data /\
      verify (publickey_algorithm r) (view_bytes (publickey_blob r)) data
        (view_bytes (publickey_signature r)) = SSH_OK)).
Proof.
  unfold ssh_userauth_evaluate_request. destruct (view_eq _ _) eqn:Ep.
  - unfold ssh_userauth_authenticate_password.
    destruct (_ || _) eqn:Eg; [done|]. rewrite !orb_false_iff in Eg. destruct Eg as [[_ Hpc] _].
    destruct (password_auth server) as [cb|] eqn:Ec; [|done].
    destruct (request_allowed_by_server_policy server r); [|done]. cbn [negb].
    destruct (cb _) eqn:Ecb; [|done]. intros _. split; [done|]. left. eauto 6.
  - clear Ep. destruct (view_eq _ _) eqn:Ek; [|done].
    destruct (publickey_has_signature r) eqn:Eh; cycle 1.
    { by destruct (ssh_userauth_publickey_is_acceptable server r) as [|[]|]. }
    destruct (is_null sid || (sid_len =? 0)) eqn:Es; [done|].
    unfold ssh_userauth_authenticate_publickey. case_bool; [done|].
    unfold ssh_userauth_publickey_is_acceptable, mbind, outcome_bind, server_verify.
    case_bool; [done|].
    destruct (publickey_auth server) as [cb|]; [|done].
    destruct (request_allowed_by_server_policy server r); [|done]. cbn [negb].
    destruct (_ && _ && _); [done|]. destruct (cb _) eqn:Ecb; [|done].
    destruct (server_crypto server) as [api|]; [|done].
    destruct (publickey_verify api) as [verify|] eqn:Ev; [|done].
    destruct (encode_into _ _ _) as [data| |] eqn:Ed; [|by destruct e|done].
    destruct (verify _ _ data _) eqn:Evr; try done. intros _. split; [done|]. right.
    split_and!; try done; [lia|eauto|]. exists verify, data. rewrite <- Ev. done.
Qed.

(** A key is accepted only with an algorithm of the list. *)
Lemma acceptable_listed server r :
  ssh_userauth_publickey_is_acceptable server r = Ret tt -> algorithm_listed server (view_bytes (publickey_algorithm r)) = true.
Proof.
  unfold ssh_userauth_publickey_is_acceptable, algorithm_listed. case_bool; [done|]. destruct (publickey_auth server) as [cb|]; [|done].
  case_bool; [done|]. set (algs := match publickey_signature_algorithms server with None => _ | l => l end).
  destruct (_ && _ && _) eqn:E; [done|]. intros _. apply bool_decide_eq_true.
  destruct algs as [l|]; [|by left]. cbn [is_null negb andb default from_option id] in *. destruct l as [|b l]; [by left|]. right.
  replace (zlen (b :: l) =? 0) with false in E by (rewrite zlen_cons; pose proof (zlen_nonneg l); lia). cbn [negb andb] in E.
  apply negb_false_iff in E. unfold name_list_contains_view in E. destruct (view_data _); [|done]. destruct (_ =? 0); [done|].
  by apply name_list_contains_listed in E.
Qed.

Lemma success_listed server r sid sid_len :
  ssh_userauth_evaluate_request server r sid sid_len = Ret SSH_USERAUTH_DECISION_SUCCESS ->
  view_eq (method_name r) (Some SSH_AUTH_METHOD_PASSWORD) = false ->
  algorithm_listed server (view_bytes (publickey_algorithm r)) = true.
Proof.
  unfold ssh_userauth_evaluate_request. intros E Hp. rewrite Hp in E. destruct (view_eq _ _); [|done].
  destruct (publickey_has_signature r); [|by destruct (ssh_userauth_publickey_is_acceptable server r) as [|[]|]].
  destruct (_ || _); [done|]. unfold ssh_userauth_authenticate_publickey in E. destruct (_ || _); [done|].
  pose proof (acceptable_listed server r) as Hl. unfold mbind, outcome_bind in E.
  destruct (ssh_userauth_publickey_is_acceptable server r) as [[]|[]|]; try done. by apply Hl.
Qed.

(** C3: authentication succeeds only with evidence, whatever the request holds:
    either the password callback accepted this user's password, not as part of
    a password change, or the verification callback accepted the signature of the
    request over the data built from the session identifier and this request, by a key
    the key callback accepted and with an algorithm of the server's list (an empty list
    lists them all); in both cases the policy admits the user for the method.  For a
    request that was decoded and the session identifier of a connection, the data are
    the blob of RFC 4252 section 7. *)
Theorem evaluate_success_evidence server r sid sid_len :
  ssh_userauth_evaluate_request server r sid sid_len = Ret SSH_USERAUTH_DECISION_SUCCESS ->
  request_allowed_by_server_policy server r = true /\
  ((view_eq (method_name r) (Some SSH_AUTH_METHOD_PASSWORD) = true /\
    password_change_request r = false /\
    exists cb, password_auth server = Some cb /\
      cb (mk_password_auth_request (username r) (ua_service_name r) (password r)) = true) \/
   (view_eq (method_name r) (Some SSH_AUTH_METHOD_PUBLICKEY) = true /\
    publickey_has_signature r = true /\ sid_len <> 0 /\
    algorithm_listed server (view_bytes (publickey_algorithm r)) = true /\
    (exists cb, publickey_auth server = Some cb /\
      cb (mk_publickey_auth_request (username r) (ua_service_name r) (publickey_algorithm r)
            (publickey_blob r)) = true) /\
    exists verify data, server_verify server = Some verify /\
      encode_into (put_signed_data r sid sid_len) (replicate (Z.to_nat signed_data_size) 0)
        signed_data_size = Ret data /\
      verify (publickey_algorithm r) (view_bytes (publickey_blob r)) data
        (view_bytes (publickey_signature r)) = SSH_OK /\
      (forall id, sid = Some id -> sid_len = zlen id -> Forall is_byte id -> zlen id <= EMSSH_MAX_EXCHANGE_HASH ->
         request_ok r -> zlen (request_bytes r) <= EMSSH_MAX_USERAUTH_PAYLOAD -> data = signed_blob id r))).
Proof.
  intros E. destruct (success_evidence server r sid sid_len E) as [Hpol [Hpw|(Hm & Hs & Hl & Hcb & verify & data & Hv & Hd & Hok)]];
    (split; [done|]); [by left|]. destruct (view_eq (method_name r) (Some SSH_AUTH_METHOD_PASSWORD)) eqn:Ep.
  { unfold view_eq, bytes_eqb in Hm, Ep. destruct (view_data (method_name r)); [|done].
    apply andb_true_iff in Hm as [_ Hm%bool_decide_eq_true], Ep as [_ Ep%bool_decide_eq_true]. by rewrite Hm in Ep. }
  right. split_and!; try done; [by eapply success_listed|]. exists verify, data. split_and!; try done.
  intros id -> -> Hid Hidl Hr Hlen. enough (Ret data = Ret (signed_blob id r)) as [= ->] by done.
  rewrite <- Hd. apply encode_signed_data; try done. destruct Hr as (_ & _ & Hmv & _). unfold method_is.
  rewrite (view_ok_eqb _ _ Hmv) in Hm. by apply bool_decide_eq_true in Hm.
Qed.

Lemma evaluate_success_evidence_witness :
  ssh_userauth_evaluate_request demo_server demo_signed_request (Some (77 :: replicate 31 0)) 32 =
    Ret SSH_USERAUTH_DECISION_SUCCESS /\
  algorithm_listed demo_server (cstr "ssh-ed25519") = true /\
  exists verify, server_verify demo_server = Some verify /\
    verify (view_of (cstr "ssh-ed25519")) [1; 2; 3] (signed_blob (77 :: replicate 31 0) demo_signed_request) [77] = SSH_OK.
Proof.
  assert (ssh_userauth_evaluate_request demo_server demo_signed_request (Some (77 :: replicate 31 0)) 32 =
    Ret SSH_USERAUTH_DECISION_SUCCESS) as E by (by vm_compute).
  split; [exact E|].
  destruct (evaluate_success_evidence demo_server demo_signed_request (Some (77 :: replicate 31 0)) 32 E)
    as (_ & [[H _]|(_ & _ & _ & Hlisted & _ & verify & data & Hv & _ & Hok & Hdata)]); [discriminate H|].
  split; [exact Hlisted|]. exists verify. split; [exact Hv|]. rewrite <- (Hdata (77 :: replicate 31 0)).
  - exact Hok.
  - done.
  - by vm_compute.
  - by apply (bool_decide_unpack _); vm_compute.
  - by vm_compute.
  - apply demo_signed_request_ok.
  - by vm_compute.
Defined.

(** The policy admits a request exactly when AllowUsers admits the user and,
    for the user root, root logins are not switched off and the method is not
    password unless root logins are allowed without restriction; an unset
    PermitRootLogin forbids password logins of root. *)
Theorem server_policy_exact server r :
  view_ok (username r) -> view_ok (method_name r) ->
  permit_root_login server ∈ [EMSSH_PERMIT_ROOT_LOGIN_DEFAULT; EMSSH_PERMIT_ROOT_LOGIN_NO;
    EMSSH_PERMIT_ROOT_LOGIN_YES; EMSSH_PERMIT_ROOT_LOGIN_PROHIBIT_PASSWORD] ->
  request_allowed_by_server_policy server r = true <->
  username_allowed_by_allow_users (allow_users server) (username r) = true /\
  (view_bytes (username r) = cstr "root" ->
   permit_root_login server = EMSSH_PERMIT_ROOT_LOGIN_YES \/
   (permit_root_login server <> EMSSH_PERMIT_ROOT_LOGIN_NO /\
    view_bytes (method_name r) <> SSH_AUTH_METHOD_PASSWORD)).
Proof.
  intros Hu Hm Hp. unfold request_allowed_by_server_policy, username_is_root.
  rewrite (view_ok_eqb _ _ Hu), (view_ok_eqb _ _ Hm).
  destruct (username_allowed_by_allow_users _ _); cbn [negb]; [|naive_solver].
  case_bool_decide as Hr; [|naive_solver].
  rewrite !elem_of_cons in Hp. destruct Hp as [->|[->|[->|[->|?%not_elem_of_nil]]]]; [..|done];
    case_bool_decide as Hw; cbn; naive_solver.
Qed.

Lemma server_policy_exact_witness :
  request_allowed_by_server_policy demo_server demo_password_request = true.
Proof.
  apply (server_policy_exact demo_server demo_password_request).
  - solve_view_ok.
  - solve_view_ok.
  - by apply (bool_decide_unpack _); vm_compute.
  - split; [by vm_compute|]. intros H. discriminate H.
Defined.
