(* ===== verification/Connection.v ===== *)
(** * The connection protocol's messages: src/core/ssh_connection.c

    Channel open, data, window, EOF, close and request messages and the global
    request.  The decoders of channel requests and of channel messages fill a
    structure that the server also reads after a failure, so the structure is in
    the state ([OutB]); the other decoders return their result. *)

From S2P Require Import Prelude Buffer Codec.

Definition SSH_MSG_GLOBAL_REQUEST : Z := 80.
Definition SSH_MSG_REQUEST_FAILURE : Z := 82.
Definition SSH_MSG_CHANNEL_OPEN : Z := 90.
Definition SSH_MSG_CHANNEL_OPEN_CONFIRMATION : Z := 91.
Definition SSH_MSG_CHANNEL_OPEN_FAILURE : Z := 92.
Definition SSH_MSG_CHANNEL_WINDOW_ADJUST : Z := 93.
Definition SSH_MSG_CHANNEL_DATA : Z := 94.
Definition SSH_MSG_CHANNEL_EOF : Z := 96.
Definition SSH_MSG_CHANNEL_CLOSE : Z := 97.
Definition SSH_MSG_CHANNEL_REQUEST : Z := 98.
Definition SSH_MSG_CHANNEL_SUCCESS : Z := 99.
Definition SSH_MSG_CHANNEL_FAILURE : Z := 100.

Definition SSH_CHANNEL_TYPE_SESSION : list Z := cstr "session".
Definition SSH_CHANNEL_REQUEST_SUBSYSTEM : list Z := cstr "subsystem".
Definition SSH_CHANNEL_REQUEST_PTY_REQ : list Z := cstr "pty-req".
Definition SSH_CHANNEL_REQUEST_SHELL : list Z := cstr "shell".
Definition SSH_CHANNEL_REQUEST_EXEC : list Z := cstr "exec".
Definition SSH_CHANNEL_REQUEST_ENV : list Z := cstr "env".
Definition SSH_CHANNEL_REQUEST_WINDOW_CHANGE : list Z := cstr "window-change".
Definition SSH_CHANNEL_REQUEST_SIGNAL : list Z := cstr "signal".
Definition SSH_SUBSYSTEM_SFTP : list Z := cstr "sftp".

(** ** Data *)
Record ssh_channel_open : Type := mk_channel_open {
  channel_type : ssh_string_view;
  sender_channel : Z;
  initial_window_size : Z;
  maximum_packet_size : Z
}.

Record ssh_global_request : Type := mk_global_request {
  request_name : ssh_string_view;
  global_want_reply : bool
}.

Record ssh_channel_data : Type := mk_channel_data {
  data_recipient_channel : Z;
  channel_data : ssh_string_view
}.

Record ssh_channel_request : Type := mk_channel_request {
  rq_recipient_channel : Z;
  rq_request_type : ssh_string_view;
  rq_want_reply : bool;
  rq_subsystem_name : ssh_string_view;
  rq_term_type : ssh_string_view;
  rq_command : ssh_string_view;
  rq_env_name : ssh_string_view;
  rq_env_value : ssh_string_view;
  rq_signal_name : ssh_string_view;
  rq_pty_modes : ssh_string_view;
  rq_cols : Z;
  rq_rows : Z;
  rq_width_px : Z;
  rq_height_px : Z
}.

Record ssh_channel_message : Type := mk_channel_message {
  message_id : Z;
  msg_recipient_channel : Z;
  window_bytes : Z;
  msg_data : ssh_string_view;
  channel_request : ssh_channel_request
}.

(** *** Assignments to single fields *)
Definition zero_request : ssh_channel_request :=
  mk_channel_request 0 null_view false null_view null_view null_view null_view null_view null_view
    null_view 0 0 0 0.

Definition set_rq_recipient_channel (v : Z) (r : ssh_channel_request) : ssh_channel_request :=
  mk_channel_request v (rq_request_type r) (rq_want_reply r) (rq_subsystem_name r)
    (rq_term_type r) (rq_command r) (rq_env_name r) (rq_env_value r) (rq_signal_name r)
    (rq_pty_modes r) (rq_cols r) (rq_rows r) (rq_width_px r) (rq_height_px r).
Definition set_rq_request_type (v : ssh_string_view) (r : ssh_channel_request) :
    ssh_channel_request :=
  mk_channel_request (rq_recipient_channel r) v (rq_want_reply r)
    (rq_subsystem_name r) (rq_term_type r) (rq_command r) (rq_env_name r) (rq_env_value r)
    (rq_signal_name r) (rq_pty_modes r) (rq_cols r) (rq_rows r) (rq_width_px r) (rq_height_px r).
Definition set_rq_want_reply (v : bool) (r : ssh_channel_request) : ssh_channel_request :=
  mk_channel_request (rq_recipient_channel r) (rq_request_type r) v (rq_subsystem_name r)
    (rq_term_type r) (rq_command r) (rq_env_name r) (rq_env_value r) (rq_signal_name r)
    (rq_pty_modes r) (rq_cols r) (rq_rows r) (rq_width_px r) (rq_height_px r).
Definition set_rq_subsystem_name (v : ssh_string_view) (r : ssh_channel_request) :
    ssh_channel_request :=
  mk_channel_request (rq_recipient_channel r) (rq_request_type r)
    (rq_want_reply r) v (rq_term_type r) (rq_command r) (rq_env_name r) (rq_env_value r)
    (rq_signal_name r) (rq_pty_modes r) (rq_cols r) (rq_rows r) (rq_width_px r) (rq_height_px r).
Definition set_rq_term_type (v : ssh_string_view) (r : ssh_channel_request) : ssh_channel_request
    :=
  mk_channel_request (rq_recipient_channel r) (rq_request_type r) (rq_want_reply r)
    (rq_subsystem_name r) v (rq_command r) (rq_env_name r) (rq_env_value r) (rq_signal_name r)
    (rq_pty_modes r) (rq_cols r) (rq_rows r) (rq_width_px r) (rq_height_px r).
Definition set_rq_command (v : ssh_string_view) (r : ssh_channel_request) : ssh_channel_request
    :=
  mk_channel_request (rq_recipient_channel r) (rq_request_type r) (rq_want_reply r)
    (rq_subsystem_name r) (rq_term_type r) v (rq_env_name r) (rq_env_value r) (rq_signal_name r)
    (rq_pty_modes r) (rq_cols r) (rq_rows r) (rq_width_px r) (rq_height_px r).
Definition set_rq_env_name (v : ssh_string_view) (r : ssh_channel_request) : ssh_channel_request
    :=
  mk_channel_request (rq_recipient_channel r) (rq_request_type r) (rq_want_reply r)
    (rq_subsystem_name r) (rq_term_type r) (rq_command r) v (rq_env_value r) (rq_signal_name r)
    (rq_pty_modes r) (rq_cols r) (rq_rows r) (rq_width_px r) (rq_height_px r).
Definition set_rq_env_value (v : ssh_string_view) (r : ssh_channel_request) : ssh_channel_request
    :=
  mk_channel_request (rq_recipient_channel r) (rq_request_type r) (rq_want_reply r)
    (rq_subsystem_name r) (rq_term_type r) (rq_command r) (rq_env_name r) v (rq_signal_name r)
    (rq_pty_modes r) (rq_cols r) (rq_rows r) (rq_width_px r) (rq_height_px r).
Definition set_rq_signal_name (v : ssh_string_view) (r : ssh_channel_request) :
    ssh_channel_request :=
  mk_channel_request (rq_recipient_channel r) (rq_request_type r)
    (rq_want_reply r) (rq_subsystem_name r) (rq_term_type r) (rq_command r) (rq_env_name r)
    (rq_env_value r) v (rq_pty_modes r) (rq_cols r) (rq_rows r) (rq_width_px r) (rq_height_px r).
Definition set_rq_pty_modes (v : ssh_string_view) (r : ssh_channel_request) : ssh_channel_request
    :=
  mk_channel_request (rq_recipient_channel r) (rq_request_type r) (rq_want_reply r)
    (rq_subsystem_name r) (rq_term_type r) (rq_command r) (rq_env_name r) (rq_env_value r)
    (rq_signal_name r) v (rq_cols r) (rq_rows r) (rq_width_px r) (rq_height_px r).
Definition set_rq_cols (v : Z) (r : ssh_channel_request) : ssh_channel_request :=
  mk_channel_request (rq_recipient_channel r) (rq_request_type r) (rq_want_reply r)
    (rq_subsystem_name r) (rq_term_type r) (rq_command r) (rq_env_name r) (rq_env_value r)
    (rq_signal_name r) (rq_pty_modes r) v (rq_rows r) (rq_width_px r) (rq_height_px r).
Definition set_rq_rows (v : Z) (r : ssh_channel_request) : ssh_channel_request :=
  mk_channel_request (rq_recipient_channel r) (rq_request_type r) (rq_want_reply r)
    (rq_subsystem_name r) (rq_term_type r) (rq_command r) (rq_env_name r) (rq_env_value r)
    (rq_signal_name r) (rq_pty_modes r) (rq_cols r) v (rq_width_px r) (rq_height_px r).
Definition set_rq_width_px (v : Z) (r : ssh_channel_request) : ssh_channel_request :=
  mk_channel_request (rq_recipient_channel r) (rq_request_type r) (rq_want_reply r)
    (rq_subsystem_name r) (rq_term_type r) (rq_command r) (rq_env_name r) (rq_env_value r)
    (rq_signal_name r) (rq_pty_modes r) (rq_cols r) (rq_rows r) v (rq_height_px r).
Definition set_rq_height_px (v : Z) (r : ssh_channel_request) : ssh_channel_request :=
  mk_channel_request (rq_recipient_channel r) (rq_request_type r) (rq_want_reply r)
    (rq_subsystem_name r) (rq_term_type r) (rq_command r) (rq_env_name r) (rq_env_value r)
    (rq_signal_name r) (rq_pty_modes r) (rq_cols r) (rq_rows r) (rq_width_px r) v.

Definition zero_message : ssh_channel_message := mk_channel_message 0 0 0 null_view zero_request.
Definition set_message_id (v : Z) (m : ssh_channel_message) : ssh_channel_message :=
  mk_channel_message v (msg_recipient_channel m) (window_bytes m) (msg_data m) (channel_request m).
Definition set_msg_recipient (v : Z) (m : ssh_channel_message) : ssh_channel_message :=
  mk_channel_message (message_id m) v (window_bytes m) (msg_data m) (channel_request m).
Definition set_window_bytes (v : Z) (m : ssh_channel_message) : ssh_channel_message :=
  mk_channel_message (message_id m) (msg_recipient_channel m) v (msg_data m) (channel_request m).
Definition set_msg_data (v : ssh_string_view) (m : ssh_channel_message) : ssh_channel_message :=
  mk_channel_message (message_id m) (msg_recipient_channel m) (window_bytes m) v (channel_request m).
(** [message->channel_request.field = ...] *)
Definition on_request (f : ssh_channel_request -> ssh_channel_request) (m : ssh_channel_message)
    : ssh_channel_message :=
  mk_channel_message (message_id m) (msg_recipient_channel m) (window_bytes m) (msg_data m)
    (f (channel_request m)).

(** ** Encoders *)
Definition ssh_channel_open_session_encode (sender_channel initial_window_size maximum_packet_size : Z)
    : BufM unit :=
  require_buffer;;
  ssh_buffer_put_u8 SSH_MSG_CHANNEL_OPEN;;
  ssh_buffer_put_cstring (Some SSH_CHANNEL_TYPE_SESSION);;
  ssh_buffer_put_u32 sender_channel;;
  ssh_buffer_put_u32 initial_window_size;;
  ssh_buffer_put_u32 maximum_packet_size.

Definition ssh_global_request_failure_encode : BufM unit :=
  require_buffer;; ssh_buffer_put_u8 SSH_MSG_REQUEST_FAILURE.

Definition ssh_channel_open_confirmation_encode
    (recipient_channel sender_channel initial_window_size maximum_packet_size : Z) : BufM unit :=
  require_buffer;;
  ssh_buffer_put_u8 SSH_MSG_CHANNEL_OPEN_CONFIRMATION;;
  ssh_buffer_put_u32 recipient_channel;;
  ssh_buffer_put_u32 sender_channel;;
  ssh_buffer_put_u32 initial_window_size;;
  ssh_buffer_put_u32 maximum_packet_size.

Definition ssh_channel_open_failure_encode (recipient_channel reason_code : Z)
    (description language_tag : option (list Z)) : BufM unit :=
  require_buffer;;
  reject (is_null description || is_null language_tag) SSH_ERR_INVALID_ARGUMENT;;
  ssh_buffer_put_u8 SSH_MSG_CHANNEL_OPEN_FAILURE;;
  ssh_buffer_put_u32 recipient_channel;;
  ssh_buffer_put_u32 reason_code;;
  ssh_buffer_put_cstring description;;
  ssh_buffer_put_cstring language_tag.

Definition ssh_channel_request_subsystem_encode (recipient_channel : Z) (want_reply : bool)
    (subsystem_name : option (list Z)) : BufM unit :=
  require_buffer;;
  reject (is_null subsystem_name) SSH_ERR_INVALID_ARGUMENT;;
  ssh_buffer_put_u8 SSH_MSG_CHANNEL_REQUEST;;
  ssh_buffer_put_u32 recipient_channel;;
  ssh_buffer_put_cstring (Some SSH_CHANNEL_REQUEST_SUBSYSTEM);;
  ssh_buffer_put_bool want_reply;;
  ssh_buffer_put_cstring subsystem_name.

Definition ssh_channel_request_exit_status_encode (recipient_channel : Z) (want_reply : bool)
    (exit_status : Z) : BufM unit :=
  require_buffer;;
  ssh_buffer_put_u8 SSH_MSG_CHANNEL_REQUEST;;
  ssh_buffer_put_u32 recipient_channel;;
  ssh_buffer_put_cstring (Some (cstr "exit-status"));;
  ssh_buffer_put_bool want_reply;;
  ssh_buffer_put_u32 exit_status.

Definition ssh_channel_success_encode (recipient_channel : Z) : BufM unit :=
  require_buffer;;
  ssh_buffer_put_u8 SSH_MSG_CHANNEL_SUCCESS;;
  ssh_buffer_put_u32 recipient_channel.

Definition ssh_channel_failure_encode (recipient_channel : Z) : BufM unit :=
  require_buffer;;
  ssh_buffer_put_u8 SSH_MSG_CHANNEL_FAILURE;;
  ssh_buffer_put_u32 recipient_channel.

Definition ssh_channel_window_adjust_encode (recipient_channel bytes_to_add : Z) : BufM unit :=
  require_buffer;;
  reject (bytes_to_add =? 0) SSH_ERR_INVALID_ARGUMENT;;
  ssh_buffer_put_u8 SSH_MSG_CHANNEL_WINDOW_ADJUST;;
  ssh_buffer_put_u32 recipient_channel;;
  ssh_buffer_put_u32 bytes_to_add.

Definition ssh_channel_simple_encode (message_id recipient_channel : Z) : BufM unit :=
  require_buffer;;
  ssh_buffer_put_u8 message_id;;
  ssh_buffer_put_u32 recipient_channel.

Definition ssh_channel_eof_encode (recipient_channel : Z) : BufM unit :=
  ssh_channel_simple_encode SSH_MSG_CHANNEL_EOF recipient_channel.

Definition ssh_channel_close_encode (recipient_channel : Z) : BufM unit :=
  ssh_channel_simple_encode SSH_MSG_CHANNEL_CLOSE recipient_channel.

Definition ssh_channel_data_encode (recipient_channel : Z) (data : option (list Z)) (data_len : Z)
    : BufM unit :=
  require_buffer;;
  reject (is_null data && negb (data_len =? 0)) SSH_ERR_INVALID_ARGUMENT;;
  ssh_buffer_put_u8 SSH_MSG_CHANNEL_DATA;;
  ssh_buffer_put_u32 recipient_channel;;
  ssh_buffer_put_string data data_len.

(** ** Decoders *)
Definition ssh_channel_open_decode : BufM ssh_channel_open :=
  require_buffer;;
  message_id ← ssh_buffer_get_u8;
  reject (negb (message_id =? SSH_MSG_CHANNEL_OPEN)) SSH_ERR_MALFORMED_PACKET;;
  channel_type ← ssh_buffer_get_string_view;
  sender_channel ← ssh_buffer_get_u32;
  initial_window_size ← ssh_buffer_get_u32;
  maximum_packet_size ← ssh_buffer_get_u32;
  remaining ← remaining_read;
  reject (negb (remaining =? 0)) SSH_ERR_MALFORMED_PACKET;;
  mret (mk_channel_open channel_type sender_channel initial_window_size maximum_packet_size).

Definition ssh_global_request_decode : BufM ssh_global_request :=
  require_buffer;;
  message_id ← ssh_buffer_get_u8;
  reject (negb (message_id =? SSH_MSG_GLOBAL_REQUEST)) SSH_ERR_MALFORMED_PACKET;;
  name ← ssh_buffer_get_string_view;
  want_reply ← ssh_buffer_get_bool;
  mret (mk_global_request name want_reply).

Definition ssh_channel_data_decode : BufM ssh_channel_data :=
  require_buffer;;
  message_id ← ssh_buffer_get_u8;
  reject (negb (message_id =? SSH_MSG_CHANNEL_DATA)) SSH_ERR_MALFORMED_PACKET;;
  recipient ← ssh_buffer_get_u32;
  data ← ssh_buffer_get_string_view;
  remaining ← remaining_read;
  reject (negb (remaining =? 0)) SSH_ERR_MALFORMED_PACKET;;
  mret (mk_channel_data recipient data).

(** [return ssh_buffer_remaining_read(payload) == 0u ? SSH_OK : e;] *)
Definition at_end {T} (e : ssh_status) : OutB T unit :=
  remaining ← lift remaining_read; reject (negb (remaining =? 0)) e;; mret tt.

Definition channel_request_decode_fields : OutB ssh_channel_request unit :=
  recipient ← lift ssh_buffer_get_u32; set_out (set_rq_recipient_channel recipient);;
  request_type ← lift ssh_buffer_get_string_view; set_out (set_rq_request_type request_type);;
  want_reply ← lift ssh_buffer_get_bool; set_out (set_rq_want_reply want_reply);;
  if view_eq request_type (Some SSH_CHANNEL_REQUEST_SUBSYSTEM) then
    v ← lift ssh_buffer_get_string_view; set_out (set_rq_subsystem_name v);;
    at_end SSH_ERR_MALFORMED_PACKET
  else if view_eq request_type (Some SSH_CHANNEL_REQUEST_PTY_REQ) then
    err_as SSH_ERR_UNSUPPORTED (
      term ← lift ssh_buffer_get_string_view; set_out (set_rq_term_type term);;
      cols ← lift ssh_buffer_get_u32; set_out (set_rq_cols cols);;
      rows ← lift ssh_buffer_get_u32; set_out (set_rq_rows rows);;
      width ← lift ssh_buffer_get_u32; set_out (set_rq_width_px width);;
      height ← lift ssh_buffer_get_u32; set_out (set_rq_height_px height);;
      modes ← lift ssh_buffer_get_string_view; set_out (set_rq_pty_modes modes);;
      mret tt);;
    at_end SSH_ERR_UNSUPPORTED
  else if view_eq request_type (Some SSH_CHANNEL_REQUEST_SHELL) then
    at_end SSH_ERR_UNSUPPORTED
  else if view_eq request_type (Some SSH_CHANNEL_REQUEST_EXEC) then
    err_as SSH_ERR_UNSUPPORTED (
      command ← lift ssh_buffer_get_string_view; set_out (set_rq_command command);;
      mret tt);;
    at_end SSH_ERR_UNSUPPORTED
  else if view_eq request_type (Some SSH_CHANNEL_REQUEST_ENV) then
    err_as SSH_ERR_UNSUPPORTED (
      name ← lift ssh_buffer_get_string_view; set_out (set_rq_env_name name);;
      value ← lift ssh_buffer_get_string_view; set_out (set_rq_env_value value);;
      mret tt);;
    at_end SSH_ERR_UNSUPPORTED
  else if view_eq request_type (Some SSH_CHANNEL_REQUEST_WINDOW_CHANGE) then
    err_as SSH_ERR_UNSUPPORTED (
      cols ← lift ssh_buffer_get_u32; set_out (set_rq_cols cols);;
      rows ← lift ssh_buffer_get_u32; set_out (set_rq_rows rows);;
      width ← lift ssh_buffer_get_u32; set_out (set_rq_width_px width);;
      height ← lift ssh_buffer_get_u32; set_out (set_rq_height_px height);;
      mret tt);;
    at_end SSH_ERR_UNSUPPORTED
  else if view_eq request_type (Some SSH_CHANNEL_REQUEST_SIGNAL) then
    err_as SSH_ERR_UNSUPPORTED (
      signal ← lift ssh_buffer_get_string_view; set_out (set_rq_signal_name signal);;
      mret tt);;
    at_end SSH_ERR_UNSUPPORTED
  else fail SSH_ERR_UNSUPPORTED.

Definition ssh_channel_request_decode : OutB ssh_channel_request unit :=
  lift require_buffer;;
  set_out (fun _ => zero_request);;
  message_id ← lift ssh_buffer_get_u8;
  reject (negb (message_id =? SSH_MSG_CHANNEL_REQUEST)) SSH_ERR_MALFORMED_PACKET;;
  channel_request_decode_fields.

(** The request branch of [ssh_channel_message_decode], which repeats the parser
    above on [message->channel_request]. *)
Definition message_request_fields (recipient : Z) : OutB ssh_channel_message unit :=
  set_out (on_request (set_rq_recipient_channel recipient));;
  request_type ← lift ssh_buffer_get_string_view;
  set_out (on_request (set_rq_request_type request_type));;
  want_reply ← lift ssh_buffer_get_bool; set_out (on_request (set_rq_want_reply want_reply));;
  if view_eq request_type (Some SSH_CHANNEL_REQUEST_SUBSYSTEM) then
    v ← lift ssh_buffer_get_string_view; set_out (on_request (set_rq_subsystem_name v));;
    at_end SSH_ERR_MALFORMED_PACKET
  else if view_eq request_type (Some SSH_CHANNEL_REQUEST_PTY_REQ) then
    err_as SSH_ERR_UNSUPPORTED (
      term ← lift ssh_buffer_get_string_view; set_out (on_request (set_rq_term_type term));;
      cols ← lift ssh_buffer_get_u32; set_out (on_request (set_rq_cols cols));;
      rows ← lift ssh_buffer_get_u32; set_out (on_request (set_rq_rows rows));;
      width ← lift ssh_buffer_get_u32; set_out (on_request (set_rq_width_px width));;
      height ← lift ssh_buffer_get_u32; set_out (on_request (set_rq_height_px height));;
      modes ← lift ssh_buffer_get_string_view; set_out (on_request (set_rq_pty_modes modes));;
      mret tt);;
    at_end SSH_ERR_UNSUPPORTED
  else if view_eq request_type (Some SSH_CHANNEL_REQUEST_SHELL) then
    at_end SSH_ERR_UNSUPPORTED
  else if view_eq request_type (Some SSH_CHANNEL_REQUEST_EXEC) then
    err_as SSH_ERR_UNSUPPORTED (
      command ← lift ssh_buffer_get_string_view; set_out (on_request (set_rq_command command));;
      mret tt);;
    at_end SSH_ERR_UNSUPPORTED
  else if view_eq request_type (Some SSH_CHANNEL_REQUEST_ENV) then
    err_as SSH_ERR_UNSUPPORTED (
      name ← lift ssh_buffer_get_string_view; set_out (on_request (set_rq_env_name name));;
      value ← lift ssh_buffer_get_string_view; set_out (on_request (set_rq_env_value value));;
      mret tt);;
    at_end SSH_ERR_UNSUPPORTED
  else if view_eq request_type (Some SSH_CHANNEL_REQUEST_WINDOW_CHANGE) then
    err_as SSH_ERR_UNSUPPORTED (
      cols ← lift ssh_buffer_get_u32; set_out (on_request (set_rq_cols cols));;
      rows ← lift ssh_buffer_get_u32; set_out (on_request (set_rq_rows rows));;
      width ← lift ssh_buffer_get_u32; set_out (on_request (set_rq_width_px width));;
      height ← lift ssh_buffer_get_u32; set_out (on_request (set_rq_height_px height));;
      mret tt);;
    at_end SSH_ERR_UNSUPPORTED
  else if view_eq request_type (Some SSH_CHANNEL_REQUEST_SIGNAL) then
    err_as SSH_ERR_UNSUPPORTED (
      signal ← lift ssh_buffer_get_string_view; set_out (on_request (set_rq_signal_name signal));;
      mret tt);;
    at_end SSH_ERR_UNSUPPORTED
  else fail SSH_ERR_UNSUPPORTED.

Definition ssh_channel_message_decode : OutB ssh_channel_message unit :=
  lift require_buffer;;
  set_out (fun _ => zero_message);;
  message_id ← lift ssh_buffer_get_u8;
  reject (negb (message_id =? SSH_MSG_CHANNEL_WINDOW_ADJUST)
          && negb (message_id =? SSH_MSG_CHANNEL_DATA)
          && negb (message_id =? SSH_MSG_CHANNEL_REQUEST)
          && negb (message_id =? SSH_MSG_CHANNEL_EOF)
          && negb (message_id =? SSH_MSG_CHANNEL_CLOSE)) SSH_ERR_UNSUPPORTED;;
  set_out (set_message_id message_id);;
  recipient ← lift ssh_buffer_get_u32; set_out (set_msg_recipient recipient);;
  if message_id =? SSH_MSG_CHANNEL_WINDOW_ADJUST then
    bytes ← lift ssh_buffer_get_u32; set_out (set_window_bytes bytes);;
    reject (bytes =? 0) SSH_ERR_MALFORMED_PACKET;;
    at_end SSH_ERR_MALFORMED_PACKET
  else if message_id =? SSH_MSG_CHANNEL_REQUEST then message_request_fields recipient
  else if message_id =? SSH_MSG_CHANNEL_DATA then
    data ← lift ssh_buffer_get_string_view; set_out (set_msg_data data);;
    at_end SSH_ERR_MALFORMED_PACKET
  else at_end SSH_ERR_MALFORMED_PACKET.

(** ** Predicates *)
Definition ssh_channel_type_is_session (channel_type : ssh_string_view) : bool :=
  view_eq channel_type (Some SSH_CHANNEL_TYPE_SESSION).

Definition ssh_channel_request_is_sftp_subsystem (request : option ssh_channel_request) : bool :=
  match request with
  | None => false
  | Some r => view_eq (rq_request_type r) (Some SSH_CHANNEL_REQUEST_SUBSYSTEM)
              && view_eq (rq_subsystem_name r) (Some SSH_SUBSYSTEM_SFTP)
  end.

Definition ssh_channel_request_is_terminal (request : option ssh_channel_request) : bool :=
  match request with
  | None => false
  | Some r =>
    view_eq (rq_request_type r) (Some SSH_CHANNEL_REQUEST_PTY_REQ)
    || view_eq (rq_request_type r) (Some SSH_CHANNEL_REQUEST_SHELL)
    || view_eq (rq_request_type r) (Some SSH_CHANNEL_REQUEST_EXEC)
    || view_eq (rq_request_type r) (Some SSH_CHANNEL_REQUEST_ENV)
    || view_eq (rq_request_type r) (Some SSH_CHANNEL_REQUEST_WINDOW_CHANGE)
    || view_eq (rq_request_type r) (Some SSH_CHANNEL_REQUEST_SIGNAL)
  end.

(** ** Channel requests on the wire *)
Inductive request_kind : Type :=
| KSubsystem (name : ssh_string_view)
| KPty (term : ssh_string_view) (cols rows width height : Z) (modes : ssh_string_view)
| KShell
| KExec (command : ssh_string_view)
| KEnv (name value : ssh_string_view)
| KWindowChange (cols rows width height : Z)
| KSignal (signal : ssh_string_view).

Definition kind_type (k : request_kind) : list Z :=
  match k with
  | KSubsystem _ => SSH_CHANNEL_REQUEST_SUBSYSTEM
  | KPty _ _ _ _ _ _ => SSH_CHANNEL_REQUEST_PTY_REQ
  | KShell => SSH_CHANNEL_REQUEST_SHELL
  | KExec _ => SSH_CHANNEL_REQUEST_EXEC
  | KEnv _ _ => SSH_CHANNEL_REQUEST_ENV
  | KWindowChange _ _ _ _ => SSH_CHANNEL_REQUEST_WINDOW_CHANGE
  | KSignal _ => SSH_CHANNEL_REQUEST_SIGNAL
  end.

Definition kind_ok (k : request_kind) : Prop :=
  match k with
  | KSubsystem v | KExec v | KSignal v => view_ok v
  | KPty t c r w h m => view_ok t /\ is_u32 c /\ is_u32 r /\ is_u32 w /\ is_u32 h /\ view_ok m
  | KShell => True
  | KEnv n v => view_ok n /\ view_ok v
  | KWindowChange c r w h => is_u32 c /\ is_u32 r /\ is_u32 w /\ is_u32 h
  end.

Definition str (v : ssh_string_view) : list Z := string_bytes (view_bytes v).

Definition kind_bytes (k : request_kind) : list Z :=
  match k with
  | KSubsystem v | KExec v | KSignal v => str v
  | KPty t c r w h m =>
    str t ++ be_bytes 4 c ++ be_bytes 4 r ++ be_bytes 4 w ++ be_bytes 4 h ++ str m
  | KShell => []
  | KEnv n v => str n ++ str v
  | KWindowChange c r w h => be_bytes 4 c ++ be_bytes 4 r ++ be_bytes 4 w ++ be_bytes 4 h
  end.

(** The structure for a request: the fields of other kinds stay zero. *)
Definition request_of (recipient : Z) (want_reply : bool) (k : request_kind) : ssh_channel_request :=
  let z := null_view in
  let r := mk_channel_request recipient (view_of (kind_type k)) want_reply in
  match k with
  | KSubsystem v => r v z z z z z z 0 0 0 0
  | KPty t c rw w h m => r z t z z z z m c rw w h
  | KShell => r z z z z z z z 0 0 0 0
  | KExec v => r z z v z z z z 0 0 0 0
  | KEnv n v => r z z z n v z z 0 0 0 0
  | KWindowChange c rw w h => r z z z z z z z c rw w h
  | KSignal v => r z z z z z v z 0 0 0 0
  end.

Definition request_body_bytes (want_reply : bool) (k : request_kind) : list Z :=
  string_bytes (kind_type k) ++ [int_of_bool want_reply] ++ kind_bytes k.
Definition channel_request_bytes (recipient : Z) (want_reply : bool) (k : request_kind) : list Z :=
  [SSH_MSG_CHANNEL_REQUEST] ++ be_bytes 4 recipient ++ request_body_bytes want_reply k.

Lemma kind_type_ok k : view_ok (view_of (kind_type k)).
Proof. destruct k; apply view_ok_of; first [by apply (bool_decide_unpack _); vm_compute|by vm_compute]. Qed.

Lemma parses_type_string k rest :
  parses ssh_buffer_get_string_view (string_bytes (kind_type k)) rest (view_of (kind_type k)).
Proof. pose proof (parses_view _ rest (kind_type_ok k)) as H. by rewrite view_bytes_of in H. Qed.

(** The type tests on a constant type compute. *)
Ltac type_tests :=
  rewrite ?view_eq_spec;
  repeat match goal with
  | |- context [bool_decide (?a = ?b)] =>
    let r := eval vm_compute in (bool_decide (a = b)) in change (bool_decide (a = b)) with r
  end; cbv iota.

Lemma channel_request_parses t recipient want_reply k :
  is_u32 recipient -> kind_ok k ->
  parses (run_out ssh_channel_request_decode t) (channel_request_bytes recipient want_reply k) []
    (request_of recipient want_reply k).
Proof.
  intros Hr Hk. unfold ssh_channel_request_decode, channel_request_decode_fields, at_end,
    channel_request_bytes, request_body_bytes.
  apply parses_nil_r. rewrite <- ?app_assoc. parse_out.
  eapply parses_bind; [apply parses_type_string|]. parse_out.
  destruct k; cbn [kind_type kind_ok kind_bytes] in *; type_tests; unfold str; destruct_and?;
    rewrite <- ?app_assoc; parse_out.
Qed.

(** A type test that succeeded fixes the type. *)
Ltac known_type :=
  try match goal with
  | H : view_eq ?v (Some ?s) = true, Hv : view_ok ?v |- _ =>
    rewrite (view_ok_eqb v s Hv), bool_decide_eq_true in H; apply (view_ok_of_bytes v s Hv) in H; subst v
  end; rewrite ?view_bytes_of.
Ltac simpl_request :=
  cbv [zero_request set_rq_recipient_channel set_rq_request_type set_rq_want_reply
    set_rq_subsystem_name set_rq_term_type set_rq_command set_rq_env_name set_rq_env_value
    set_rq_signal_name set_rq_pty_modes set_rq_cols set_rq_rows set_rq_width_px
    set_rq_height_px rq_recipient_channel rq_request_type rq_want_reply rq_subsystem_name
    rq_term_type rq_command rq_env_name rq_env_value rq_signal_name rq_pty_modes rq_cols
    rq_rows rq_width_px rq_height_px].
Tactic Notation "request_found" uconstr(k) :=
  simpl_request; eexists _, _, k; apply and_assoc, and_comm; split;
  [split; [reflexivity|unfold channel_request_bytes, request_body_bytes; cbn [kind_type kind_bytes];
    unfold str; rewrite <- ?app_assoc; reflexivity]|cbn [kind_ok]; repeat (first [assumption | exact I | split])].

Lemma channel_request_decodes t :
  decodes (run_out ssh_channel_request_decode t) (fun r u1 u2 => u2 = [] /\
    exists recipient want_reply k, is_u32 recipient /\ kind_ok k /\
      r = request_of recipient want_reply k /\ u1 = channel_request_bytes recipient want_reply k).
Proof.
  unfold ssh_channel_request_decode, channel_request_decode_fields, at_end.
  decode_out; guards; known_type; (split; [done|]);
    lazymatch goal with
    | |- context [view_of SSH_CHANNEL_REQUEST_SUBSYSTEM] => request_found (KSubsystem _)
    | |- context [view_of SSH_CHANNEL_REQUEST_PTY_REQ] => request_found (KPty _ _ _ _ _ _)
    | |- context [view_of SSH_CHANNEL_REQUEST_SHELL] => request_found KShell
    | |- context [view_of SSH_CHANNEL_REQUEST_EXEC] => request_found (KExec _)
    | |- context [view_of SSH_CHANNEL_REQUEST_ENV] => request_found (KEnv _ _)
    | |- context [view_of SSH_CHANNEL_REQUEST_WINDOW_CHANGE] => request_found (KWindowChange _ _ _ _)
    | |- context [view_of SSH_CHANNEL_REQUEST_SIGNAL] => request_found (KSignal _)
    end.
Qed.

(** ** Channel messages on the wire *)
Inductive message_kind : Type :=
| MWindowAdjust (bytes : Z)
| MData (data : ssh_string_view)
| MEof
| MClose
| MRequest (want_reply : bool) (k : request_kind).

Definition kind_message_id (k : message_kind) : Z :=
  match k with
  | MWindowAdjust _ => SSH_MSG_CHANNEL_WINDOW_ADJUST
  | MData _ => SSH_MSG_CHANNEL_DATA
  | MEof => SSH_MSG_CHANNEL_EOF
  | MClose => SSH_MSG_CHANNEL_CLOSE
  | MRequest _ _ => SSH_MSG_CHANNEL_REQUEST
  end.

Definition message_kind_ok (k : message_kind) : Prop :=
  match k with
  | MWindowAdjust n => is_u32 n /\ n <> 0
  | MData v => view_ok v
  | MEof | MClose => True
  | MRequest _ k => kind_ok k
  end.

Definition channel_message_bytes (recipient : Z) (k : message_kind) : list Z :=
  [kind_message_id k] ++ be_bytes 4 recipient ++
  match k with
  | MWindowAdjust n => be_bytes 4 n
  | MData v => str v
  | MEof | MClose => []
  | MRequest want_reply k => request_body_bytes want_reply k
  end.

Definition message_of (recipient : Z) (k : message_kind) : ssh_channel_message :=
  let m := mk_channel_message (kind_message_id k) recipient in
  match k with
  | MWindowAdjust n => m n null_view zero_request
  | MData v => m 0 v zero_request
  | MEof | MClose => m 0 null_view zero_request
  | MRequest want_reply k => m 0 null_view (request_of recipient want_reply k)
  end.

(** Message numbers compare by computation. *)
Ltac id_tests :=
  repeat match goal with
  | |- context [?a =? ?b] =>
    let r := eval vm_compute in (a =? b) in
    lazymatch r with true => change (a =? b) with true | false => change (a =? b) with false end
  end; cbv iota; cbn [negb andb].

Lemma channel_message_parses t recipient k :
  is_u32 recipient -> message_kind_ok k ->
  parses (run_out ssh_channel_message_decode t) (channel_message_bytes recipient k) []
    (message_of recipient k).
Proof.
  intros Hr Hk. unfold ssh_channel_message_decode, at_end, channel_message_bytes, request_body_bytes.
  apply parses_nil_r. destruct k as [n|v| | |wr k]; cbn [message_kind_ok kind_message_id] in *;
    rewrite <- ?app_assoc.
  1-4: parse_out; id_tests; unfold str; destruct_and?; parse_out.
  parse_out. id_tests. unfold message_request_fields, at_end. parse_out.
  eapply parses_bind; [apply parses_type_string|]. parse_out.
  destruct k; cbn [kind_type kind_ok kind_bytes] in *; type_tests; unfold str; destruct_and?;
    rewrite <- ?app_assoc; parse_out.
Qed.

Ltac simpl_message :=
  cbv [zero_message set_message_id set_msg_recipient set_window_bytes set_msg_data on_request
    message_id msg_recipient_channel window_bytes msg_data channel_request]; simpl_request.

Tactic Notation "message_found" uconstr(k) :=
  simpl_message; eexists _, k; apply and_assoc, and_comm; split;
  [split; [reflexivity|unfold channel_message_bytes, request_body_bytes;
    cbn [kind_message_id kind_type kind_bytes]; unfold str; rewrite ?app_nil_r; rewrite <- ?app_assoc;
    reflexivity]
  |cbn [message_kind_ok kind_ok]; repeat (first [assumption | exact I | lia | split])].

Lemma channel_message_decodes t :
  decodes (run_out ssh_channel_message_decode t) (fun m u1 u2 => u2 = [] /\
    exists recipient k, is_u32 recipient /\ message_kind_ok k /\
      m = message_of recipient k /\ u1 = channel_message_bytes recipient k).
Proof.
  unfold ssh_channel_message_decode, message_request_fields, at_end.
  decode_out; guards; known_type; (split; [done|]);
    repeat match goal with
    | H : (?x =? ?c) = true |- _ => apply Z.eqb_eq in H; subst x
    end;
    lazymatch goal with
    | |- context [view_of SSH_CHANNEL_REQUEST_SUBSYSTEM] => message_found (MRequest _ (KSubsystem _))
    | |- context [view_of SSH_CHANNEL_REQUEST_PTY_REQ] => message_found (MRequest _ (KPty _ _ _ _ _ _))
    | |- context [view_of SSH_CHANNEL_REQUEST_SHELL] => message_found (MRequest _ KShell)
    | |- context [view_of SSH_CHANNEL_REQUEST_EXEC] => message_found (MRequest _ (KExec _))
    | |- context [view_of SSH_CHANNEL_REQUEST_ENV] => message_found (MRequest _ (KEnv _ _))
    | |- context [view_of SSH_CHANNEL_REQUEST_WINDOW_CHANGE] =>
      message_found (MRequest _ (KWindowChange _ _ _ _))
    | |- context [view_of SSH_CHANNEL_REQUEST_SIGNAL] => message_found (MRequest _ (KSignal _))
    | |- context [set_window_bytes] => message_found (MWindowAdjust _)
    | |- context [set_msg_data] => message_found (MData _)
    | _ => idtac
    end.
  assert (x = SSH_MSG_CHANNEL_EOF \/ x = SSH_MSG_CHANNEL_CLOSE) as [->| ->] by lia;
    [message_found MEof|message_found MClose].
Qed.

(** ** The two request parsers agree *)

(** A program on a request, run on the request inside a message. *)
Definition zoom (p : OutB ssh_channel_request unit) : OutB ssh_channel_message unit := fun '(s, m) =>
  let '(o, (s', r)) := p (s, channel_request m) in (o, (s', on_request (fun _ => r) m)).

Definition zooms (p : OutB ssh_channel_request unit) (q : OutB ssh_channel_message unit) : Prop :=
  forall s m, q (s, m) = zoom p (s, m).

Lemma zooms_set f : zooms (set_out f) (set_out (on_request f)).
Proof. by intros s [i rc w d r]. Qed.

Lemma zooms_reject c e : zooms (reject c e) (reject c e).
Proof. by intros s [i rc w d r]; destruct c. Qed.

Lemma zooms_ret : zooms (mret tt) (mret tt).
Proof. by intros s [i rc w d r]. Qed.

Lemma zooms_fail e : zooms (fail e) (fail e).
Proof. by intros s [i rc w d r]. Qed.

Lemma zooms_err_as e p q : zooms p q -> zooms (err_as e p) (err_as e q).
Proof.
  intros H s m. unfold err_as, zoom. rewrite H. unfold zoom.
  by destruct (p (s, channel_request m)) as [[[]| |] [s' r']].
Qed.

Lemma zooms_seq p q k l : zooms p q -> zooms k l -> zooms (p;; k) (q;; l).
Proof.
  intros Hp Hk s m. unfold mbind, prog_bind, zoom. rewrite Hp. unfold zoom.
  destruct (p (s, channel_request m)) as [[[]| |] [s' r']]; [|done..].
  rewrite Hk. unfold zoom. cbn [channel_request on_request].
  by destruct (k (s', r')) as [[[]| |] [s'' r'']].
Qed.

Lemma zooms_read {A} (g : BufM A) k l :
  (forall x, zooms (k x) (l x)) -> zooms (x ← lift g; k x) (x ← lift g; l x).
Proof.
  intros Hk s m. unfold mbind, prog_bind, zoom, lift. destruct m as [i rc w d r].
  destruct (g s) as [[a| |] s']; [|done..]. apply Hk.
Qed.

Lemma zooms_if (c : bool) p q k l : zooms p q -> zooms k l -> zooms (if c then p else k) (if c then q else l).
Proof. by destruct c. Qed.

Lemma message_request_zooms :
  exists tail, (forall recipient, zooms (set_out (set_rq_recipient_channel recipient);; tail)
      (message_request_fields recipient)) /\
    forall s t, channel_request_decode_fields (s, t) =
      (rc ← lift ssh_buffer_get_u32; set_out (set_rq_recipient_channel rc);; tail) (s, t).
Proof.
  eexists. split; [|intros; reflexivity]. intros recipient.
  unfold message_request_fields, at_end.
  repeat first
    [ apply zooms_set | apply zooms_reject | apply zooms_ret | apply zooms_fail | apply zooms_err_as
    | apply zooms_if | apply zooms_read; intros ? | apply zooms_seq ].
Qed.

(** ** The header of a request is always filled in *)
Definition request_header (m : ssh_channel_message) : Z * Z * ssh_string_view * bool :=
  (message_id m, msg_recipient_channel m, rq_request_type (channel_request m),
   rq_want_reply (channel_request m)).

Lemma bind_out {T A B} (g : BufM A) (k : A -> OutB T B) s t a s' :
  g s = (Ret a, s') -> (x ← lift g; k x) (s, t) = k a (s', t).
Proof. intros E. unfold mbind, prog_bind, lift. by rewrite E. Qed.

Lemma wrap_Bf bs :
  ssh_buffer_wrap uninit_buffer (Some bs) (zlen bs) = Some (Bf [] bs [] (zlen bs)).
Proof. unfold ssh_buffer_wrap, uninit_buffer. f_equal. apply mk_Bf; cbn; by rewrite ?app_nil_r. Qed.

(** The message decoder once it has seen the number of a request. *)
Lemma message_decode_request bs t :
  ssh_channel_message_decode
    (ssh_buffer_wrap uninit_buffer (Some (SSH_MSG_CHANNEL_REQUEST :: bs)) (zlen (SSH_MSG_CHANNEL_REQUEST :: bs)), t) =
  (rc ← lift ssh_buffer_get_u32; set_out (set_msg_recipient rc);; message_request_fields rc)
    (Some (Bf [SSH_MSG_CHANNEL_REQUEST] bs [] (zlen (SSH_MSG_CHANNEL_REQUEST :: bs))),
     set_message_id SSH_MSG_CHANNEL_REQUEST zero_message).
Proof.
  rewrite wrap_Bf. unfold ssh_channel_message_decode.
  erewrite (bind_out require_buffer) by done.
  erewrite (bind_ret (set_out _)) by done.
  erewrite (bind_out ssh_buffer_get_u8) by (exact (parses_u8_byte SSH_MSG_CHANNEL_REQUEST bs [] [] _)).
  erewrite (bind_ret (reject _ _)) by done. erewrite (bind_ret (set_out _)) by done. done.
Qed.

Lemma request_decode_request bs t :
  ssh_channel_request_decode
    (ssh_buffer_wrap uninit_buffer (Some (SSH_MSG_CHANNEL_REQUEST :: bs)) (zlen (SSH_MSG_CHANNEL_REQUEST :: bs)), t) =
  channel_request_decode_fields
    (Some (Bf [SSH_MSG_CHANNEL_REQUEST] bs [] (zlen (SSH_MSG_CHANNEL_REQUEST :: bs))), zero_request).
Proof.
  rewrite wrap_Bf. unfold ssh_channel_request_decode.
  erewrite (bind_out require_buffer) by done.
  erewrite (bind_ret (set_out _)) by done.
  erewrite (bind_out ssh_buffer_get_u8) by (exact (parses_u8_byte SSH_MSG_CHANNEL_REQUEST bs [] [] _)).
  by erewrite (bind_ret (reject _ _)) by done.
Qed.

(** ** Messages with a single form *)
Definition channel_open_ok (m : ssh_channel_open) : Prop :=
  view_ok (channel_type m) /\ is_u32 (sender_channel m) /\ is_u32 (initial_window_size m) /\
  is_u32 (maximum_packet_size m).
Definition channel_open_bytes (m : ssh_channel_open) : list Z :=
  [SSH_MSG_CHANNEL_OPEN] ++ str (channel_type m) ++ be_bytes 4 (sender_channel m) ++
  be_bytes 4 (initial_window_size m) ++ be_bytes 4 (maximum_packet_size m).

#[export] Instance channel_open_message :
  Message ssh_channel_open_decode channel_open_ok channel_open_bytes.
Proof.
  unfold ssh_channel_open_decode, channel_open_bytes, channel_open_ok, str. split.
  - intros [ty s w p] (? & ? & ? & ?).
    cbn [channel_type sender_channel initial_window_size maximum_packet_size] in *. parse_message.
  - decode_message. by cbn [channel_type sender_channel initial_window_size maximum_packet_size].
Qed.

Definition channel_data_ok (m : ssh_channel_data) : Prop :=
  is_u32 (data_recipient_channel m) /\ view_ok (channel_data m).
Definition channel_data_bytes (m : ssh_channel_data) : list Z :=
  [SSH_MSG_CHANNEL_DATA] ++ be_bytes 4 (data_recipient_channel m) ++ str (channel_data m).

#[export] Instance channel_data_message :
  Message ssh_channel_data_decode channel_data_ok channel_data_bytes.
Proof.
  unfold ssh_channel_data_decode, channel_data_bytes, channel_data_ok, str. split.
  - intros [r d] (? & ?). cbn [data_recipient_channel channel_data] in *. parse_message.
  - decode_message. by cbn [data_recipient_channel channel_data].
Qed.

(** Encoders write the wire image of the message they are named after. *)
Ltac emit_field :=
  first [ apply emits_u32 | apply emits_u8; by vm_compute | apply emits_bool | by apply emits_view
        | by apply emits_string | by apply emits_cstring
        | apply emits_cstring; [by apply (bool_decide_unpack _); vm_compute|by vm_compute] ].
Ltac emit_message := repeat (apply emits_bind; [emit_field|]); emit_field.

Lemma emits_window_adjust rc n :
  n <> 0 -> emits (ssh_channel_window_adjust_encode rc n) (channel_message_bytes rc (MWindowAdjust n)).
Proof. intros. apply emits_buffer, emits_reject; [lia|]. unfold channel_message_bytes. emit_message. Qed.

Lemma emits_channel_data rc v :
  view_ok v ->
  emits (ssh_channel_data_encode rc (view_data v) (view_len v)) (channel_message_bytes rc (MData v)).
Proof.
  intros Hv. apply emits_buffer, emits_reject; [by destruct Hv as (l & -> & _)|].
  unfold channel_message_bytes, str. emit_message.
Qed.

Lemma emits_eof rc : emits (ssh_channel_eof_encode rc) (channel_message_bytes rc MEof).
Proof.
  apply emits_buffer. unfold channel_message_bytes. rewrite app_nil_r. emit_message.
Qed.

Lemma emits_close rc : emits (ssh_channel_close_encode rc) (channel_message_bytes rc MClose).
Proof.
  apply emits_buffer. unfold channel_message_bytes. rewrite app_nil_r. emit_message.
Qed.

Lemma emits_subsystem rc wr name :
  Forall is_byte name -> zlen name <= UINT32_MAX ->
  emits (ssh_channel_request_subsystem_encode rc wr (Some name))
    (channel_request_bytes rc wr (KSubsystem (view_of name))).
Proof.
  intros. apply emits_buffer, emits_reject; [done|].
  unfold channel_request_bytes, request_body_bytes, kind_type, kind_bytes, str. rewrite view_bytes_of.
  rewrite <- ?app_assoc. emit_message.
Qed.

Lemma emits_open_session sc w p :
  emits (ssh_channel_open_session_encode sc w p)
    (channel_open_bytes (mk_channel_open (view_of SSH_CHANNEL_TYPE_SESSION) sc w p)).
Proof.
  apply emits_buffer. unfold channel_open_bytes, str. cbn [channel_type]. rewrite view_bytes_of.
  emit_message.
Qed.

(** ** Properties *)

(** The channel request decoder accepts exactly the seven request types the
    server handles, each with exactly its own fields and nothing behind them;
    it fills those fields and leaves the fields of the other types zero, and it
    never reads outside the payload. *)
Theorem channel_request_exact bs t r :
  Forall is_byte bs ->
  (decode_from (run_out ssh_channel_request_decode t) bs = Ret r <->
   exists recipient want_reply k, is_u32 recipient /\ kind_ok k /\
     r = request_of recipient want_reply k /\ bs = channel_request_bytes recipient want_reply k) /\
  decode_from (run_out ssh_channel_request_decode t) bs <> Fault.
Proof.
  intros Hb. split; [|by apply (decodes_no_fault _ _ _ (channel_request_decodes t))]. split.
  - intros E. destruct (decodes_decode_from _ _ _ _ (channel_request_decodes t) Hb E)
      as (u1 & u2 & -> & -> & rc & wr & k & ? & ? & -> & ->). rewrite app_nil_r. eauto 8.
  - intros (rc & wr & k & Hrc & Hk & -> & ->). by apply parses_decode_from, channel_request_parses.
Qed.

Lemma channel_request_exact_witness :
  decode_from (run_out ssh_channel_request_decode zero_request)
    (channel_request_bytes 3 true (KWindowChange 80 24 0 0)) =
    Ret (request_of 3 true (KWindowChange 80 24 0 0)).
Proof.
  apply (channel_request_exact (channel_request_bytes 3 true (KWindowChange 80 24 0 0)) zero_request).
  - by apply (bool_decide_unpack _); vm_compute.
  - exists 3, true, (KWindowChange 80 24 0 0). split; [by vm_compute|]. split; [|done].
    split_and!; by vm_compute.
Defined.

(** The decoder of channel messages accepts exactly the window adjustments
    by a non-zero amount, data, EOF, close and supported request messages, each
    complete and with nothing behind it, and fills the structure with their
    fields. *)
Theorem channel_message_exact bs t m :
  Forall is_byte bs ->
  (decode_from (run_out ssh_channel_message_decode t) bs = Ret m <->
   exists recipient k, is_u32 recipient /\ message_kind_ok k /\
     m = message_of recipient k /\ bs = channel_message_bytes recipient k) /\
  decode_from (run_out ssh_channel_message_decode t) bs <> Fault.
Proof.
  intros Hb. split; [|by apply (decodes_no_fault _ _ _ (channel_message_decodes t))]. split.
  - intros E. destruct (decodes_decode_from _ _ _ _ (channel_message_decodes t) Hb E)
      as (u1 & u2 & -> & -> & rc & k & ? & ? & -> & ->). rewrite app_nil_r. eauto 8.
  - intros (rc & k & Hrc & Hk & -> & ->). by apply parses_decode_from, channel_message_parses.
Qed.

Lemma channel_message_exact_witness :
  decode_from (run_out ssh_channel_message_decode zero_message) [94; 0; 0; 0; 7; 0; 0; 0; 2; 104; 105] =
    Ret (message_of 7 (MData (view_of [104; 105]))).
Proof.
  apply (channel_message_exact [94; 0; 0; 0; 7; 0; 0; 0; 2; 104; 105] zero_message).
  - by apply (bool_decide_unpack _); vm_compute.
  - exists 7, (MData (view_of [104; 105])). split; [by vm_compute|]. split; [|by vm_compute].
    apply view_ok_of; [by apply (bool_decide_unpack _); vm_compute|by vm_compute].
Defined.

(** The copy of the request parser inside the message decoder agrees with
    the request decoder on every payload that starts with the number of a
    channel request: the same status, and the same contents of the request
    structure, also when the parse fails part of the way. *)
Theorem request_parsers_agree bs t1 t2 :
  let payload := SSH_MSG_CHANNEL_REQUEST :: bs in
  let s := ssh_buffer_wrap uninit_buffer (Some payload) (zlen payload) in
  fst (ssh_channel_message_decode (s, t1)) = fst (ssh_channel_request_decode (s, t2)) /\
  channel_request (snd (snd (ssh_channel_message_decode (s, t1)))) =
    snd (snd (ssh_channel_request_decode (s, t2))).
Proof.
  cbv zeta. rewrite message_decode_request, request_decode_request.
  destruct message_request_zooms as (tail & Hz & Ef). rewrite Ef.
  unfold mbind at 1 3 5 7, prog_bind at 1 3 5 7, lift.
  destruct (ssh_buffer_get_u32 _) as [[rc|e|] s']; [|done..].
  erewrite (bind_ret (set_out (set_msg_recipient rc))) by done.
  rewrite (Hz rc). unfold zoom. cbn [channel_request set_msg_recipient set_message_id zero_message].
  by destruct ((set_out (set_rq_recipient_channel rc);; tail) (s', zero_request)) as [o [s'' r]].
Qed.

(** Whatever follows it, and whether or not the request is supported, a
    channel request's recipient, type and reply flag are in the structure after
    the decoder ran, so that the server can answer an unsupported request to
    the right channel. *)
Theorem request_header_filled recipient type want_reply rest t :
  is_u32 recipient -> view_ok type ->
  let payload := [SSH_MSG_CHANNEL_REQUEST] ++ be_bytes 4 recipient ++ str type ++
    [int_of_bool want_reply] ++ rest in
  request_header (snd (snd (ssh_channel_message_decode
    (ssh_buffer_wrap uninit_buffer (Some payload) (zlen payload), t)))) =
  (SSH_MSG_CHANNEL_REQUEST, recipient, type, want_reply).
Proof.
  intros Hr Ht payload. unfold payload. cbn [app]. rewrite message_decode_request.
  erewrite bind_out by (by apply parses_u32).
  erewrite (bind_ret (set_out _)) by done. unfold message_request_fields.
  erewrite (bind_ret (set_out _)) by done.
  erewrite bind_out by (by apply parses_view).
  erewrite (bind_ret (set_out _)) by done.
  erewrite bind_out by (apply (parses_bool want_reply)).
  erewrite (bind_ret (set_out _)) by done.
  match goal with |- context [snd (snd (?p (?s, ?m)))] =>
    assert (keeps request_header p) as Hk by (unfold at_end; keeps_tac);
    by rewrite (Hk s m)
  end.
Qed.

Lemma request_header_filled_witness :
  request_header (snd (snd (ssh_channel_message_decode
    (ssh_buffer_wrap uninit_buffer (Some [98; 0; 0; 0; 5; 0; 0; 0; 1; 120; 1; 9; 9]) 13, zero_message)))) =
  (98, 5, view_of [120], true).
Proof.
  apply (request_header_filled 5 (view_of [120]) true [9; 9] zero_message).
  - by vm_compute.
  - apply view_ok_of; [by apply (bool_decide_unpack _); vm_compute|by vm_compute].
Defined.

(** The channel open and channel data decoders accept exactly the well-formed
    messages, with nothing behind them; the global request decoder reads the
    request name and the reply flag of every message that has them, whatever
    the request's own data. *)
Theorem channel_open_data_global_exact bs :
  Forall is_byte bs ->
  (forall m, decode_from ssh_channel_open_decode bs = Ret m <->
     channel_open_ok m /\ bs = channel_open_bytes m) /\
  (forall m, decode_from ssh_channel_data_decode bs = Ret m <->
     channel_data_ok m /\ bs = channel_data_bytes m) /\
  (forall m, decode_from ssh_global_request_decode bs = Ret m <->
     view_ok (request_name m) /\ exists tail, bs = [SSH_MSG_GLOBAL_REQUEST] ++ str (request_name m) ++
       [int_of_bool (global_want_reply m)] ++ tail).
Proof.
  intros Hb. split; [|split].
  - intros m. by apply message_exact; [apply _|].
  - intros m. by apply message_exact; [apply _|].
  - intros m. split.
    + intros E. unshelve edestruct (decodes_decode_from ssh_global_request_decode (fun m u1 _ =>
        view_ok (request_name m) /\ u1 = [SSH_MSG_GLOBAL_REQUEST] ++ str (request_name m) ++
          [int_of_bool (global_want_reply m)]) bs m) as (u1 & u2 & -> & Hv & ->); try done.
      * unfold ssh_global_request_decode, str. decode_message. by cbn [request_name global_want_reply].
      * split; [done|]. exists u2. by rewrite <- !app_assoc.
    + intros (Hv & tail & ->). unfold decode_from. rewrite wrap_Bf. destruct m as [nm wr].
      cbn [request_name global_want_reply] in *.
      assert (parses ssh_global_request_decode ([SSH_MSG_GLOBAL_REQUEST] ++ str nm ++ [int_of_bool wr])
        tail (mk_global_request nm wr)) as Hp
        by (unfold ssh_global_request_decode, str; parse_message).
      specialize (Hp [] [] (zlen ([SSH_MSG_GLOBAL_REQUEST] ++ str nm ++ [int_of_bool wr] ++ tail))).
      rewrite <- !app_assoc in Hp. by rewrite Hp.
Qed.

Lemma channel_open_data_global_exact_witness :
  decode_from ssh_global_request_decode [80; 0; 0; 0; 1; 107; 1; 9] =
    Ret (mk_global_request (view_of [107]) true).
Proof.
  apply (channel_open_data_global_exact [80; 0; 0; 0; 1; 107; 1; 9]).
  - by apply (bool_decide_unpack _); vm_compute.
  - split; [apply view_ok_of; [by apply (bool_decide_unpack _); vm_compute|by vm_compute]|].
    exists [9]. by vm_compute.
Defined.

(** What the server writes to a client it would read back: window
    adjustments, data, EOF and close messages and subsystem requests decode to
    the values they were encoded from, a session open is recognised as one, and
    a subsystem request is an SFTP request exactly when it names sftp. *)
Theorem channel_encoders_roundtrip rc v n name storage :
  is_u32 rc -> view_ok v -> is_u32 n -> n <> 0 -> Forall is_byte name -> zlen name <= UINT32_MAX ->
  64 + zlen (view_bytes v) + zlen name <= zlen storage ->
  let reads p k := exists bs, encode_into p storage (zlen storage) = Ret bs /\
    decode_from (run_out ssh_channel_message_decode zero_message) bs = Ret (message_of rc k) in
  reads (ssh_channel_window_adjust_encode rc n) (MWindowAdjust n) /\
  reads (ssh_channel_data_encode rc (view_data v) (view_len v)) (MData v) /\
  reads (ssh_channel_eof_encode rc) MEof /\
  reads (ssh_channel_close_encode rc) MClose /\
  reads (ssh_channel_request_subsystem_encode rc true (Some name)) (MRequest true (KSubsystem (view_of name))) /\
  (ssh_channel_request_is_sftp_subsystem (Some (request_of rc true (KSubsystem (view_of name)))) = true <->
   name = SSH_SUBSYSTEM_SFTP) /\
  (exists bs m, encode_into (ssh_channel_open_session_encode rc n n) storage (zlen storage) = Ret bs /\
     decode_from ssh_channel_open_decode bs = Ret m /\
     ssh_channel_type_is_session (channel_type m) = true).
Proof.
  intros Hrc Hv Hn Hn0 Hb Hl Hs reads. pose proof (zlen_nonneg (view_bytes v)). pose proof (zlen_nonneg name).
  assert (forall p k, emits p (channel_message_bytes rc k) -> message_kind_ok k ->
    zlen (channel_message_bytes rc k) <= zlen storage -> reads p k) as R.
  { intros p k Hp Hk Hz. exists (channel_message_bytes rc k). split; [by apply emits_encode_into|].
    by apply parses_decode_from, channel_message_parses. }
  split_and!.
  - apply R; [by apply emits_window_adjust|done|]. unfold channel_message_bytes. len_lia.
  - apply R; [by apply emits_channel_data|done|]. unfold channel_message_bytes, str. len_lia.
  - apply R; [apply emits_eof|done|]. unfold channel_message_bytes. len_lia.
  - apply R; [apply emits_close|done|]. unfold channel_message_bytes. len_lia.
  - apply R; [by apply emits_subsystem|by apply view_ok_of|].
    unfold channel_message_bytes, request_body_bytes, kind_bytes, str, kind_type. rewrite view_bytes_of.
    rewrite !zlen_app, !zlen_string_bytes. change (zlen SSH_CHANNEL_REQUEST_SUBSYSTEM) with 9. len_lia.
  - cbn [ssh_channel_request_is_sftp_subsystem request_of kind_type rq_request_type rq_subsystem_name].
    rewrite !view_eq_spec, (bool_decide_true (SSH_CHANNEL_REQUEST_SUBSYSTEM = _)) by done.
    cbn [andb]. by rewrite bool_decide_eq_true.
  - eexists _, _. split; [apply emits_encode_into; [apply emits_open_session|]|].
    + unfold channel_open_bytes, str. cbn [channel_type]. rewrite view_bytes_of.
      rewrite !zlen_app, !zlen_string_bytes. change (zlen SSH_CHANNEL_TYPE_SESSION) with 7. len_lia.
    + split; [apply parses_decode_from, message_parses|cbn [channel_type]; apply view_eq_same].
      split_and!; try done.
      apply view_ok_of; [by apply (bool_decide_unpack _); vm_compute|by vm_compute].
Qed.

Lemma channel_encoders_roundtrip_witness :
  ssh_channel_request_is_sftp_subsystem
    (Some (request_of 0 true (KSubsystem (view_of SSH_SUBSYSTEM_SFTP)))) = true.
Proof.
  refine (proj2 (proj1 (proj2 (proj2 (proj2 (proj2 (proj2
    (channel_encoders_roundtrip 0 (view_of [1]) 5 SSH_SUBSYSTEM_SFTP (replicate 80 0) _ _ _ _ _ _ _)))))))
    eq_refl).
  - by vm_compute.
  - apply view_ok_of; [by apply (bool_decide_unpack _); vm_compute|by vm_compute].
  - by vm_compute.
  - by vm_compute.
  - by apply (bool_decide_unpack _); vm_compute.
  - by vm_compute.
  - by vm_compute.
Defined.
