(* ===== verification/Ident.v ===== *)
(** * The version exchange: identification lines

    src/core/ssh_transport.c, [ssh_identification_parse_line] and
    [ssh_identification_is_ssh2_compatible], and the line the server sends,
    [ssh_server_format_identification] of src/core/ssh_server.c.

    A line is the list of the [len] bytes it is called with.  The parser clears
    the structure before anything else, so a refused line leaves it cleared: the
    structure is the state of the program. *)

From S2P Require Import Prelude Buffer Packet.

Definition EMSSH_MAX_IDENTIFICATION_LINE : Z := 255.
Definition EMSSH_SOFTWARE_NAME : list Z := cstr "emsshd_0.1".
Definition CR : Z := 13.
Definition LF : Z := 10.
Definition SPACE : Z := 32.
Definition DASH : Z := 45.

Record ssh_identification : Type := mk_ident {
  id_raw : ssh_string_view;
  id_protocol_version : ssh_string_view;
  id_software_version : ssh_string_view;
  id_comments : ssh_string_view
}.
Definition zero_ident : ssh_identification := mk_ident null_view null_view null_view null_view.

Definition is_space (c : Z) : bool := c =? SPACE.
Definition is_ident_char (c : Z) : bool := (32 <=? c) && (c <=? 126).

Definition view_equals_cstr (view : ssh_string_view) (value : option (list Z)) : bool :=
  match value, view_data view with
  | Some v, Some d => (view_len view =? zlen v) && bytes_eqb (ztake (zlen v) d) v
  | _, _ => false
  end.

(** The length without the line end. *)
Definition identification_raw_len (line : list Z) : Z :=
  let raw_len := zlen line in
  if (raw_len >=? 2) && (byte_at line (Z.to_nat (raw_len - 2)) =? CR)
     && (byte_at line (Z.to_nat (raw_len - 1)) =? LF) then raw_len - 2
  else if (raw_len >=? 1) && (byte_at line (Z.to_nat (raw_len - 1)) =? LF) then raw_len - 1
  else raw_len.

(** The loop over the protocol version: the bytes before the first dash and the
    rest from there; [None] at a space. *)
Fixpoint protocol_scan (p : list Z) : option (list Z * list Z) :=
  match p with
  | [] => Some ([], [])
  | c :: p' =>
    if c =? DASH then Some ([], p)
    else if is_space c then None
    else '(tok, rest) ← protocol_scan p'; Some (c :: tok, rest)
  end.

Definition ssh_identification_parse_line (line : option (list Z)) : Prog ssh_identification unit :=
  match line with
  | None => fail SSH_ERR_INVALID_ARGUMENT
  | Some line =>
    put_state zero_ident;;
    let raw_len := identification_raw_len line in
    let raw := ztake raw_len line in
    reject ((raw_len =? 0) || (raw_len >? EMSSH_MAX_IDENTIFICATION_LINE)) SSH_ERR_MALFORMED_PACKET;;
    reject (negb (forallb is_ident_char raw)) SSH_ERR_MALFORMED_PACKET;;
    reject ((raw_len <? 8) || negb (bytes_eqb (ztake 4 raw) (cstr "SSH-"))) SSH_ERR_MALFORMED_PACKET;;
    match protocol_scan (zdrop 4 raw) with
    | None => fail SSH_ERR_MALFORMED_PACKET
    | Some (protocol, []) => fail SSH_ERR_MALFORMED_PACKET
    | Some (protocol, _ :: after_dash) =>
      reject (zlen protocol =? 0) SSH_ERR_MALFORMED_PACKET;;
      let '(software, rest) := scan_until is_space after_dash in
      reject (zlen software =? 0) SSH_ERR_MALFORMED_PACKET;;
      let comments := match rest with [] => [] | _ :: c => c end in
      put_state (mk_ident (view_of raw) (view_of protocol) (view_of software)
        (match comments with [] => null_view | _ => view_of comments end))
    end
  end.

Definition ssh_identification_is_ssh2_compatible (ident : option ssh_identification) : bool :=
  match ident with
  | None => false
  | Some i => view_equals_cstr (id_protocol_version i) (Some (cstr "2.0"))
              || view_equals_cstr (id_protocol_version i) (Some (cstr "1.99"))
  end.

(** The characters stored in [out] up to the terminator. *)
Definition ssh_server_format_identification (initialized : bool) (software_name : option (list Z))
    (out_capacity : Z) : outcome (list Z) :=
  if (out_capacity =? 0) || negb initialized then Err SSH_ERR_INVALID_ARGUMENT else
  let software_name := default EMSSH_SOFTWARE_NAME software_name in
  let total_len := 8 + zlen software_name + 2 in
  if out_capacity <=? total_len then Err SSH_ERR_BUFFER_TOO_SMALL else
  Ret (cstr "SSH-2.0-" ++ software_name ++ [CR; LF]).

(** ** The shape of a line *)

(** [SSH-protoversion-softwareversion SP comments] and its end. *)
Definition ident_text (protocol software : list Z) (comments : option (list Z)) : list Z :=
  cstr "SSH-" ++ protocol ++ [DASH] ++ software ++ match comments with None => [] | Some c => SPACE :: c end.
Definition line_end (e : list Z) : Prop := e = [] \/ e = [LF] \/ e = [CR; LF].

Definition no_byte (b : Z) (l : list Z) : Prop := Forall (fun c => c <> b) l.

Record ident_fields (protocol software : list Z) (comments : option (list Z)) : Prop := {
  if_chars : Forall (fun c => 32 <= c <= 126) (ident_text protocol software comments);
  if_length : 8 <= zlen (ident_text protocol software comments) <= EMSSH_MAX_IDENTIFICATION_LINE;
  if_protocol : protocol <> [] /\ no_byte DASH protocol /\ no_byte SPACE protocol;
  if_software : software <> [] /\ no_byte SPACE software
}.

Definition ident_of (protocol software : list Z) (comments : option (list Z)) : ssh_identification :=
  mk_ident (view_of (ident_text protocol software comments)) (view_of protocol) (view_of software)
    (match comments with Some (b :: c) => view_of (b :: c) | _ => null_view end).

(** ** Lemmas *)
Lemma protocol_scan_exact p tok rest :
  protocol_scan p = Some (tok, rest) <->
  p = tok ++ rest /\ no_byte DASH tok /\ no_byte SPACE tok /\ (rest = [] \/ exists r, rest = DASH :: r).
Proof.
  unfold no_byte. revert tok rest. induction p as [|c p IH]; intros tok rest; cbn [protocol_scan].
  - split.
    + intros [= <- <-]. by auto.
    + intros (E & _). by apply eq_sym, app_eq_nil in E as [-> ->].
  - unfold is_space. destruct (Z.eqb_spec c DASH) as [->|Hd].
    { split.
      - intros [= <- <-]. split_and!; eauto.
      - intros (E & Ht & _). destruct tok as [|b tok]; [by simplify_eq/=|].
        apply Forall_cons_1 in Ht as [Hb _]. by simplify_eq/=. }
    destruct (Z.eqb_spec c SPACE) as [->|Hs].
    { split; [done|]. intros (E & _ & Hs & Hr). destruct tok as [|b tok].
      - destruct Hr as [->|[r ->]]; by simplify_eq/=.
      - apply Forall_cons_1 in Hs as [Hb _]. by simplify_eq/=. }
    unfold mbind, option_bind. split.
    + destruct (protocol_scan p) as [[tok' rest']|] eqn:E; [|done]. intros [= <- <-].
      destruct (proj1 (IH _ _) eq_refl) as (-> & ? & ? & ?). by auto.
    + intros (E & Ht & Hs' & Hr). destruct tok as [|b tok].
      { destruct Hr as [->|[r ->]]; by simplify_eq/=. }
      apply Forall_cons_1 in Ht as [? Ht]. apply Forall_cons_1 in Hs' as [? Hs']. simplify_eq/=.
      by rewrite (proj2 (IH tok rest)).
Qed.

Lemma scan_until_exact stop p tok rest :
  scan_until stop p = (tok, rest) <->
  p = tok ++ rest /\ Forall (fun c => stop c = false) tok /\
  (rest = [] \/ exists b r, rest = b :: r /\ stop b = true).
Proof.
  revert tok rest. induction p as [|c p IH]; intros tok rest; cbn [scan_until].
  - split.
    + intros [= <- <-]. by auto.
    + intros (E & _). by apply eq_sym, app_eq_nil in E as [-> ->].
  - destruct (stop c) eqn:Hc.
    { split.
      - intros [= <- <-]. split_and!; eauto.
      - intros (E & Ht & _). destruct tok as [|b tok]; [by simplify_eq/=|].
        apply Forall_cons_1 in Ht as [Hb _]. simplify_eq/=. congruence. }
    split.
    + destruct (scan_until stop p) as [tok' rest'] eqn:E. intros [= <- <-].
      destruct (proj1 (IH _ _) eq_refl) as (-> & ? & ?). by auto.
    + intros (E & Ht & Hr). destruct tok as [|b tok].
      { destruct Hr as [->|(b & r & -> & Hb)]; simplify_eq/=. congruence. }
      apply Forall_cons_1 in Ht as [? Ht]. simplify_eq/=. by rewrite (proj2 (IH tok rest)).
Qed.

Lemma no_byte_is_space l : no_byte SPACE l <-> Forall (fun c => is_space c = false) l.
Proof. unfold no_byte, is_space. apply Forall_iff. intros c. lia. Qed.

Lemma byte_at_last l b : byte_at (l ++ [b]) (Z.to_nat (zlen (l ++ [b]) - 1)) = b.
Proof.
  unfold byte_at. replace (Z.to_nat _) with (length l) by list_lia. apply nth_middle.
Qed.

(** What is stripped is a line end, and a line end after other bytes is stripped. *)
Lemma raw_len_split line :
  exists e, line_end e /\ line = ztake (identification_raw_len line) line ++ e /\
    0 <= identification_raw_len line <= zlen line.
Proof.
  pose proof (zlen_nonneg line). unfold identification_raw_len, line_end.
  destruct (decide (line = [])) as [->|Hn]; [exists []; cbn; auto with lia|].
  destruct (exists_last Hn) as (l & b & ->). rewrite byte_at_last.
  assert (zlen (l ++ [b]) - 1 = zlen l) as E1 by len_lia. rewrite E1. pose proof (zlen_nonneg l).
  destruct (Z.eqb_spec b LF) as [->|Hb].
  2: { exists []. rewrite !andb_false_r, ztake_all by lia. rewrite app_nil_r. auto with lia. }
  replace (zlen (l ++ [LF]) >=? 1) with true by len_lia. rewrite andb_true_r. cbn [andb].
  destruct (_ && _) eqn:Ec; [|exists [LF]; rewrite ztake_app; split_and!; auto; len_lia].
  apply andb_true_iff in Ec as [E2 Ec]. apply Z.eqb_eq in Ec.
  destruct (decide (l = [])) as [->|Hl]; [by vm_compute in E2|].
  destruct (exists_last Hl) as (k & c & ->).
  replace (byte_at _ _) with c in Ec.
  2: { unfold byte_at. rewrite <- app_assoc. cbn [app].
       replace (Z.to_nat _) with (length k) by list_lia. symmetry. apply nth_middle. }
  subst c. exists [CR; LF]. rewrite <- app_assoc. cbn [app]. pose proof (zlen_nonneg k).
  replace (zlen (k ++ [CR; LF]) - 2) with (zlen k) by len_lia. rewrite ztake_app.
  split_and!; auto; len_lia.
Qed.

Lemma raw_len_exact raw e :
  Forall (fun c => 32 <= c <= 126) raw -> line_end e -> identification_raw_len (raw ++ e) = zlen raw.
Proof.
  intros Hr He. pose proof (zlen_nonneg raw). unfold identification_raw_len.
  assert (forall n, byte_at raw n <> CR /\ byte_at raw n <> LF \/ (length raw <= n)%nat) as Hc.
  { intros n. destruct (decide (n < length raw)%nat); [left|right; lia].
    rewrite Forall_nth in Hr. specialize (Hr n 0 l). unfold byte_at, CR, LF. lia. }
  destruct He as [->|[->| ->]].
  - rewrite app_nil_r. destruct (Z.to_nat (zlen raw - 1)) eqn:E.
    + destruct (Hc 0%nat) as [[? ?]|Hl]; [repeat case_bool; bool_lia|].
      destruct raw; [by vm_compute|cbn in Hl; lia].
    + rewrite <- E. destruct (Hc (Z.to_nat (zlen raw - 1))) as [[? ?]|Hl]; [repeat case_bool; bool_lia|list_lia].
  - rewrite byte_at_last. replace (zlen (raw ++ [LF]) - 1) with (zlen raw) by len_lia.
    replace (zlen (raw ++ [LF]) >=? 1) with true by len_lia. rewrite Z.eqb_refl, andb_true_r.
    case_bool; [|done]. exfalso.
    apply andb_true_iff in Heqb as [E1 E2]. apply Z.eqb_eq in E2. revert E2.
    assert (0 < zlen raw) by len_lia.
    replace (Z.to_nat (zlen (raw ++ [LF]) - 2)) with (length raw - 1)%nat by list_lia.
    unfold byte_at. rewrite app_nth1 by list_lia.
    destruct (Hc (length raw - 1)%nat) as [[? ?]|Hl]; [done|list_lia].
  - replace (raw ++ [CR; LF]) with ((raw ++ [CR]) ++ [LF]) by by rewrite <- app_assoc.
    rewrite byte_at_last, Z.eqb_refl, andb_true_r.
    replace (byte_at _ _) with CR; [|].
    { rewrite Z.eqb_refl, andb_true_r. case_bool; len_lia. }
    unfold byte_at. rewrite <- app_assoc. cbn [app].
    replace (Z.to_nat _) with (length raw) by list_lia. symmetry. apply nth_middle.
Qed.

Lemma forallb_ident_char l : forallb is_ident_char l = true <-> Forall (fun c => 32 <= c <= 126) l.
Proof.
  unfold is_ident_char. rewrite forallb_forall, Forall_forall. split; intros H c Hc.
  - specialize (H c Hc). lia.
  - specialize (H c Hc). lia.
Qed.

Lemma nonempty_eqb (l : list Z) : l <> [] -> (zlen l =? 0) = false.
Proof. destruct l as [|b l]; [done|]. pose proof (zlen_nonneg l). rewrite zlen_cons. lia. Qed.

(** The comments a line carries after its software version. *)
Definition tail_comments (rest : list Z) : option (list Z) :=
  match rest with [] => None | _ :: c => Some c end.

(** The parser on a line already split into text and end: the fields, or a
    refusal. *)
Lemma parse_line_fields protocol software comments e i0 :
  ident_fields protocol software comments -> line_end e ->
  ssh_identification_parse_line (Some (ident_text protocol software comments ++ e)) i0
  = (Ret tt, ident_of protocol software comments).
Proof.
  intros [Hc Hl (Hp & Hpd & Hps) (Hs & Hss)] He. unfold ssh_identification_parse_line.
  rewrite (raw_len_exact _ _ Hc He), ztake_app. cbn [put_state mbind prog_bind].
  unfold mbind, prog_bind. cbn [put_state].
  rewrite reject_false by lia. rewrite reject_false by (apply negb_false_iff; by apply forallb_ident_char).
  rewrite reject_false.
  2: { apply orb_false_iff. split; [lia|]. apply negb_false_iff. by apply bool_decide_eq_true. }
  assert (zdrop 4 (ident_text protocol software comments) = protocol ++ DASH :: software ++
    match comments with None => [] | Some c => SPACE :: c end) as -> by reflexivity.
  rewrite (proj2 (protocol_scan_exact _ protocol (DASH :: software ++ _))) by (split_and!; eauto).
  rewrite reject_false by (by apply nonempty_eqb).
  rewrite (proj2 (scan_until_exact _ _ software (match comments with None => [] | Some c => SPACE :: c end))).
  2: { split_and!; [done|by apply no_byte_is_space|]. destruct comments; [right; by eauto|by left]. }
  rewrite reject_false by (by apply nonempty_eqb).
  unfold ident_of. by destruct comments as [[|b c]|].
Qed.

Lemma parse_line_refused line i0 :
  (exists protocol software comments e,
     line = ident_text protocol software comments ++ e /\ line_end e /\
     ident_fields protocol software comments) \/
  ssh_identification_parse_line (Some line) i0 = (Err SSH_ERR_MALFORMED_PACKET, zero_ident).
Proof.
  destruct (raw_len_split line) as (e & He & Eline & Hlen).
  unfold ssh_identification_parse_line, mbind, prog_bind. cbn [put_state].
  set (raw := ztake _ line) in *.
  assert (zlen raw = identification_raw_len line) as Hraw by (unfold raw; rewrite zlen_ztake; lia).
  destruct (_ || _) eqn:E1; [by right|]. cbn [reject mret prog_ret].
  destruct (forallb is_ident_char raw) eqn:E2; [|by right]. cbn [negb reject mret prog_ret].
  destruct (_ || negb _) eqn:E3; [by right|]. cbn [reject mret prog_ret].
  destruct (protocol_scan _) as [[protocol [|d after]]|] eqn:E4; [by right| |by right].
  destruct (zlen protocol =? 0) eqn:E5; [by right|]. cbn [reject mret prog_ret].
  destruct (scan_until is_space after) as [software rest] eqn:E6.
  destruct (zlen software =? 0) eqn:E7; [by right|]. left.
  apply protocol_scan_exact in E4 as (E4 & Hpd & Hps & [?|[r [= -> ->]]]); [done|].
  apply scan_until_exact in E6 as (E6 & Hss & Hr).
  apply orb_false_iff in E3 as [E3 E3']. apply negb_false_iff, bool_decide_eq_true in E3'.
  exists protocol, software, (tail_comments rest), e.
  assert (raw = ident_text protocol software (tail_comments rest)) as Et.
  { rewrite <- (ztake_zdrop 4 raw), E3', E4, E6. unfold ident_text, tail_comments.
    destruct Hr as [->|(b & k & -> & Hb)]; [done|]. unfold is_space in Hb. by apply Z.eqb_eq in Hb as ->. }
  rewrite <- Et. split_and!; [done|done|]. split; rewrite <- ?Et.
  - by apply forallb_ident_char.
  - lia.
  - split_and!; try done. by intros ->.
  - split; [by intros ->|by apply no_byte_is_space].
Qed.

(** ** The theorems *)

(** The identification parser accepts exactly the lines
    SSH-protoversion-softwareversion, with an optional space and comments, of 8
    to 255 printable characters, a protocol version without dash or space, a
    software version without space, and an optional LF or CR LF at the end; it
    returns exactly those parts; every other line is refused as malformed and
    leaves the structure cleared. *)
Theorem identification_parse_exact line i0 :
  (forall i, ssh_identification_parse_line (Some line) i0 = (Ret tt, i) <->
     exists protocol software comments e,
       line = ident_text protocol software comments ++ e /\ line_end e /\
       ident_fields protocol software comments /\ i = ident_of protocol software comments) /\
  (fst (ssh_identification_parse_line (Some line) i0) <> Ret tt ->
     ssh_identification_parse_line (Some line) i0 = (Err SSH_ERR_MALFORMED_PACKET, zero_ident)).
Proof.
  destruct (parse_line_refused line i0) as [(p & s & c & e & -> & He & Hf)|E].
  - rewrite (parse_line_fields p s c e i0 Hf He). split; [|done]. intros i. split.
    + intros [= <-]. by eauto 10.
    + intros (p' & s' & c' & e' & E & He' & Hf' & ->).
      rewrite <- (parse_line_fields p s c e i0 Hf He), E. by apply parse_line_fields.
  - rewrite E. split; [|done]. intros i. split; [done|].
    intros (p & s & c & e & -> & He & Hf & ->). by rewrite parse_line_fields in E.
Qed.

(** The identification line the server formats into the 257 bytes of a
    session, from any software name of printable characters without a space, is
    accepted by the parser with protocol 2.0 and that name, is SSH-2 compatible,
    and is the text of the line followed by CR LF. *)
Theorem server_line_accepted name line i0 :
  ssh_server_format_identification true name (EMSSH_MAX_IDENTIFICATION_LINE + 2) = Ret line ->
  default EMSSH_SOFTWARE_NAME name <> [] ->
  Forall (fun c => 33 <= c <= 126) (default EMSSH_SOFTWARE_NAME name) ->
  let ident := ident_of (cstr "2.0") (default EMSSH_SOFTWARE_NAME name) None in
  ssh_identification_parse_line (Some line) i0 = (Ret tt, ident) /\
  ssh_identification_is_ssh2_compatible (Some ident) = true /\
  line = view_bytes (id_raw ident) ++ [CR; LF].
Proof.
  set (n := default EMSSH_SOFTWARE_NAME name). intros E Hn Hc ident. unfold ssh_server_format_identification in E. fold n in E.
  do 2 (case_bool; [done|]). unfold EMSSH_MAX_IDENTIFICATION_LINE in *.
  assert (line = ident_text (cstr "2.0") n None ++ [CR; LF]) as ->.
  { injection E as <-. unfold ident_text. rewrite app_nil_r. cbn [cstr String.list_ascii_of_string map app]. by rewrite <- ?app_assoc. }
  assert (Forall (fun c => 32 <= c <= 126) n) as Hc' by (eapply Forall_impl; [|exact Hc]; cbn; lia).
  split_and!; [|done|].
  - apply parse_line_fields; [|unfold line_end; by auto]. split; unfold ident_text.
    + rewrite app_nil_r. repeat (apply Forall_app_2; [by repeat (constructor; [by vm_compute|])|]). done.
    + rewrite app_nil_r, !zlen_app. change (zlen (cstr "SSH-")) with 4. change (zlen (cstr "2.0")) with 3.
      change (zlen [DASH]) with 1. apply nonempty_eqb in Hn. pose proof (zlen_nonneg n).
      unfold EMSSH_MAX_IDENTIFICATION_LINE. lia.
    + split_and!; [done|..]; by repeat (constructor; [by vm_compute|]).
    + split; [done|]. eapply Forall_impl; [|exact Hc]. unfold SPACE. cbn. lia.
  - unfold ident, ident_of. cbn [id_raw]. by rewrite view_bytes_of.
Qed.

Lemma server_line_accepted_witness :
  let ident := ident_of (cstr "2.0") (cstr "emsshd_0.1") None in
  ssh_identification_parse_line (Some (cstr "SSH-2.0-emsshd_0.1" ++ [CR; LF])) zero_ident = (Ret tt, ident).
Proof.
  apply (server_line_accepted None (cstr "SSH-2.0-emsshd_0.1" ++ [CR; LF]) zero_ident); [by vm_compute|done|].
  repeat (constructor; [vm_compute; split; discriminate|]). constructor.
Defined.
