(* ===== verification/TransportState.v ===== *)
(** * The state of the transport layer

    [ssh_transport_session_t] of include/emssh/ssh_transport.h and the callbacks
    its operations make; the operations are in Transport.v.

    - An array with a length field is the list of the bytes in use.  The
      exceptions are the arrays whose length field can be out of step with their
      contents: the line being received, and the client's KEXINIT, which also
      serves as a scratch buffer ([payload_buffer]).
    - The arrays [service_payload], [userauth_payload] and [channel_*_payload]
      are written by one receive and read by the decoder right after it, and the
      views it returns carry their bytes: the payload is the value passed from one
      to the other.  In the same way [client_kexinit] lives from the decoder to
      the negotiation.  [authenticated_username] belongs to the server's
      authentication loop.
    - The timeout is passed on to the network unchanged and is left out.  A read
      that times out after part of the data has come is repeated; [NetReadOn] is
      such a read with its repetitions, so its reply is not a timeout. *)

From S2P Require Import Prelude Interaction Buffer Platform Packet Codec Service Kex UserPolicy.
From S2P Require Import Userauth Connection Ident.

Definition SSH_MSG_DISCONNECT : Z := 1.
Definition SSH_MSG_IGNORE : Z := 2.
Definition SSH_MSG_UNIMPLEMENTED : Z := 3.
Definition SSH_MSG_DEBUG : Z := 4.
Definition SSH_MSG_EXT_INFO : Z := 7.
Definition SSH_MSG_REQUEST_SUCCESS : Z := 81.
Definition SSH_MSG_CHANNEL_EXTENDED_DATA : Z := 95.
Definition SSH_OPEN_RESOURCE_SHORTAGE : Z := 4.
Definition EMSSH_MAX_KEXINIT_PAYLOAD : Z := 2048.
Definition EMSSH_MAX_KEX_REPLY_PAYLOAD : Z := 2048.
Definition EMSSH_MAX_SERVICE_PAYLOAD : Z := 256.
Definition EMSSH_MAX_EXT_INFO_PAYLOAD : Z := 256.
Definition EMSSH_MAX_CHANNEL_OPEN_PAYLOAD : Z := 512.
Definition EMSSH_MAX_CHANNEL_REQUEST_PAYLOAD : Z := 512.
Definition EMSSH_MAX_CHANNEL_MESSAGE_PAYLOAD : Z := EMSSH_MAX_PAYLOAD_SIZE + 16.

(** ** Callbacks *)
Inductive tcall : Type :=
| NetRead (len : Z)
| NetReadOn (len : Z)
| NetWrite (data : list Z)
| RngUse
| KexGenerateKeypair (algorithm : ssh_string_view)
| KexComputeSharedSecret (algorithm : ssh_string_view) (private_key peer_public_key : list Z)
| HostkeyPublic (algorithm : ssh_string_view)
| HashExchange (algorithm : ssh_string_view) (data : list Z)
| HostkeySign (algorithm : ssh_string_view) (exchange_hash : list Z)
| DeriveKey (algorithm : ssh_string_view) (shared_secret exchange_hash session_id : list Z)
    (key_id : Z) (out_capacity : Z).

(** What [net->read] returns: zero, [EMSSH_NET_IO_TIMEOUT], another negative
    number, or the number of bytes it stored, with the bytes. *)
Inductive read_result : Type := ReadClosed | ReadTimeout | ReadError | ReadData (bs : list Z).
Inductive final_read : Type := FinalClosed | FinalError | FinalData (bs : list Z).

(** [net->write] returns a count.  [RngUse] is one use of the random generator:
    its reply is how [fill] behaves on it.  The crypto entries return a status and
    what they store, the count stored with it being its length; a key pair is a
    public and a private key. *)
Definition treply (c : tcall) : Type :=
  match c with
  | NetRead _ => read_result
  | NetReadOn _ => final_read
  | NetWrite _ => Z
  | RngUse => rng_fill_fn
  | KexGenerateKeypair _ => ssh_status * list Z * list Z
  | _ => ssh_status * list Z
  end.

(** ** State *)
Inductive ssh_transport_state : Type :=
| STATE_INIT
| STATE_IDENT_SENT
| STATE_IDENT_RECEIVED
| STATE_KEXINIT_SENT
| STATE_KEXINIT_RECEIVED
| STATE_NEGOTIATED
| STATE_KEX_ECDH_INIT_RECEIVED
| STATE_KEX_ECDH_REPLY_SENT
| STATE_NEWKEYS_SENT
| STATE_NEWKEYS_RECEIVED
| STATE_SERVICE_REQUEST_RECEIVED
| STATE_SERVICE_ACCEPT_SENT
| STATE_USERAUTH_REQUEST_RECEIVED
| STATE_USERAUTH_PK_OK_SENT
| STATE_USERAUTH_SUCCESS_SENT
| STATE_USERAUTH_FAILURE_SENT
| STATE_GLOBAL_REQUEST_RECEIVED
| STATE_REQUEST_FAILURE_SENT
| STATE_CHANNEL_OPEN_RECEIVED
| STATE_CHANNEL_OPEN_CONFIRMATION_SENT
| STATE_CHANNEL_OPEN_FAILURE_SENT
| STATE_CHANNEL_REQUEST_RECEIVED
| STATE_CHANNEL_SUCCESS_SENT
| STATE_CHANNEL_FAILURE_SENT
| STATE_CHANNEL_WINDOW_ADJUST_RECEIVED
| STATE_CHANNEL_WINDOW_ADJUST_SENT
| STATE_CHANNEL_DATA_RECEIVED
| STATE_CHANNEL_DATA_SENT
| STATE_CHANNEL_EOF_RECEIVED
| STATE_CHANNEL_EOF_SENT
| STATE_CHANNEL_CLOSE_RECEIVED
| STATE_CHANNEL_CLOSE_SENT.

#[export] Instance ssh_transport_state_eq_dec : EqDecision ssh_transport_state.
Proof. solve_decision. Defined.

(** The parts of [ssh_server_t] the transport reads.  The flags say which
    callbacks are set: [net] with [read] and with [write], [rng] with [fill], the
    five entries for the key exchange together, [derive_key];
    [srv_kexinit_defaults] is what the entry of that name stores. *)
Record transport_server : Type := mk_transport_server {
  srv_initialized : bool;
  srv_software_name : option (list Z);
  srv_auth : auth_server;
  srv_net_read : bool;
  srv_net_write : bool;
  srv_rng : bool;
  srv_kex_entries : bool;
  srv_derive_key : bool;
  srv_kexinit_defaults : option ssh_kexinit_algorithm_set
}.

Record payload_buffer : Type := mk_payload { pb_data : list Z; pb_len : Z }.

Record rekey_counters : Type := mk_rekey {
  rekey_after_packets : Z;
  rekey_after_bytes : Z;
  inbound_rekey_packets : Z;
  outbound_rekey_packets : Z;
  inbound_rekey_bytes : Z;
  outbound_rekey_bytes : Z;
  rekey_needed : bool
}.

Record kex_material : Type := mk_material {
  client_kex_public_key : list Z;
  server_kex_public_key : list Z;
  server_kex_private_key : list Z;
  shared_secret : list Z;
  exchange_hash : list Z;
  server_host_key : list Z;
  server_signature : list Z
}.

Record session_diag : Type := mk_diag {
  last_received_message_id : Z;
  last_received_message_id_valid : bool;
  last_channel_request_type : list Z;
  last_channel_request_type_valid : bool;
  last_channel_request_want_reply : bool
}.

Record transport_session : Type := mk_transport {
  t_server : transport_server;
  t_state : ssh_transport_state;
  t_server_identification_line : list Z;
  t_server_identification : ssh_identification;
  t_client_identification_line : payload_buffer;
  t_client_identification : ssh_identification;
  t_server_algorithms : ssh_kexinit_algorithm_set;
  t_server_kexinit_payload : payload_buffer;
  t_client_kexinit_payload : payload_buffer;
  t_client_supports_ext_info : bool;
  t_inbound_sequence : Z;
  t_outbound_sequence : Z;
  t_rekey : rekey_counters;
  t_rekey_in_progress : bool;
  t_negotiation : ssh_kex_negotiation;
  t_material : kex_material;
  t_session_id : list Z;
  t_inbound : ssh_packet_protection;
  t_outbound : ssh_packet_protection;
  t_diag : session_diag
}.

Abbreviation TrM := (IO tcall treply transport_session).

(** *** Assignments to the fields *)
Definition set_state (v : ssh_transport_state) (s : transport_session) : transport_session :=
  mk_transport (t_server s) v (t_server_identification_line s) (t_server_identification s)
    (t_client_identification_line s) (t_client_identification s) (t_server_algorithms s)
    (t_server_kexinit_payload s) (t_client_kexinit_payload s) (t_client_supports_ext_info s)
    (t_inbound_sequence s) (t_outbound_sequence s) (t_rekey s) (t_rekey_in_progress s)
    (t_negotiation s) (t_material s) (t_session_id s) (t_inbound s) (t_outbound s) (t_diag s).
Definition set_server_identification_line (v : list Z) (s : transport_session) : transport_session :=
  mk_transport (t_server s) (t_state s) v (t_server_identification s)
    (t_client_identification_line s) (t_client_identification s) (t_server_algorithms s)
    (t_server_kexinit_payload s) (t_client_kexinit_payload s) (t_client_supports_ext_info s)
    (t_inbound_sequence s) (t_outbound_sequence s) (t_rekey s) (t_rekey_in_progress s)
    (t_negotiation s) (t_material s) (t_session_id s) (t_inbound s) (t_outbound s) (t_diag s).
Definition set_server_identification (v : ssh_identification) (s : transport_session) : transport_session :=
  mk_transport (t_server s) (t_state s) (t_server_identification_line s) v
    (t_client_identification_line s) (t_client_identification s) (t_server_algorithms s)
    (t_server_kexinit_payload s) (t_client_kexinit_payload s) (t_client_supports_ext_info s)
    (t_inbound_sequence s) (t_outbound_sequence s) (t_rekey s) (t_rekey_in_progress s)
    (t_negotiation s) (t_material s) (t_session_id s) (t_inbound s) (t_outbound s) (t_diag s).
Definition set_client_identification_line (v : payload_buffer) (s : transport_session) : transport_session :=
  mk_transport (t_server s) (t_state s) (t_server_identification_line s)
    (t_server_identification s) v (t_client_identification s) (t_server_algorithms s)
    (t_server_kexinit_payload s) (t_client_kexinit_payload s) (t_client_supports_ext_info s)
    (t_inbound_sequence s) (t_outbound_sequence s) (t_rekey s) (t_rekey_in_progress s)
    (t_negotiation s) (t_material s) (t_session_id s) (t_inbound s) (t_outbound s) (t_diag s).
Definition set_client_identification (v : ssh_identification) (s : transport_session) : transport_session :=
  mk_transport (t_server s) (t_state s) (t_server_identification_line s)
    (t_server_identification s) (t_client_identification_line s) v (t_server_algorithms s)
    (t_server_kexinit_payload s) (t_client_kexinit_payload s) (t_client_supports_ext_info s)
    (t_inbound_sequence s) (t_outbound_sequence s) (t_rekey s) (t_rekey_in_progress s)
    (t_negotiation s) (t_material s) (t_session_id s) (t_inbound s) (t_outbound s) (t_diag s).
Definition set_server_kexinit_payload (v : payload_buffer) (s : transport_session) : transport_session :=
  mk_transport (t_server s) (t_state s) (t_server_identification_line s)
    (t_server_identification s) (t_client_identification_line s) (t_client_identification s)
    (t_server_algorithms s) v (t_client_kexinit_payload s) (t_client_supports_ext_info s)
    (t_inbound_sequence s) (t_outbound_sequence s) (t_rekey s) (t_rekey_in_progress s)
    (t_negotiation s) (t_material s) (t_session_id s) (t_inbound s) (t_outbound s) (t_diag s).
Definition set_client_kexinit_payload (v : payload_buffer) (s : transport_session) : transport_session :=
  mk_transport (t_server s) (t_state s) (t_server_identification_line s)
    (t_server_identification s) (t_client_identification_line s) (t_client_identification s)
    (t_server_algorithms s) (t_server_kexinit_payload s) v (t_client_supports_ext_info s)
    (t_inbound_sequence s) (t_outbound_sequence s) (t_rekey s) (t_rekey_in_progress s)
    (t_negotiation s) (t_material s) (t_session_id s) (t_inbound s) (t_outbound s) (t_diag s).
Definition set_client_supports_ext_info (v : bool) (s : transport_session) : transport_session :=
  mk_transport (t_server s) (t_state s) (t_server_identification_line s)
    (t_server_identification s) (t_client_identification_line s) (t_client_identification s)
    (t_server_algorithms s) (t_server_kexinit_payload s) (t_client_kexinit_payload s) v
    (t_inbound_sequence s) (t_outbound_sequence s) (t_rekey s) (t_rekey_in_progress s)
    (t_negotiation s) (t_material s) (t_session_id s) (t_inbound s) (t_outbound s) (t_diag s).
Definition set_inbound_sequence (v : Z) (s : transport_session) : transport_session :=
  mk_transport (t_server s) (t_state s) (t_server_identification_line s)
    (t_server_identification s) (t_client_identification_line s) (t_client_identification s)
    (t_server_algorithms s) (t_server_kexinit_payload s) (t_client_kexinit_payload s)
    (t_client_supports_ext_info s) v (t_outbound_sequence s) (t_rekey s) (t_rekey_in_progress s)
    (t_negotiation s) (t_material s) (t_session_id s) (t_inbound s) (t_outbound s) (t_diag s).
Definition set_outbound_sequence (v : Z) (s : transport_session) : transport_session :=
  mk_transport (t_server s) (t_state s) (t_server_identification_line s)
    (t_server_identification s) (t_client_identification_line s) (t_client_identification s)
    (t_server_algorithms s) (t_server_kexinit_payload s) (t_client_kexinit_payload s)
    (t_client_supports_ext_info s) (t_inbound_sequence s) v (t_rekey s) (t_rekey_in_progress s)
    (t_negotiation s) (t_material s) (t_session_id s) (t_inbound s) (t_outbound s) (t_diag s).
Definition set_rekey (v : rekey_counters) (s : transport_session) : transport_session :=
  mk_transport (t_server s) (t_state s) (t_server_identification_line s)
    (t_server_identification s) (t_client_identification_line s) (t_client_identification s)
    (t_server_algorithms s) (t_server_kexinit_payload s) (t_client_kexinit_payload s)
    (t_client_supports_ext_info s) (t_inbound_sequence s) (t_outbound_sequence s) v
    (t_rekey_in_progress s) (t_negotiation s) (t_material s) (t_session_id s) (t_inbound s)
    (t_outbound s) (t_diag s).
Definition set_rekey_in_progress (v : bool) (s : transport_session) : transport_session :=
  mk_transport (t_server s) (t_state s) (t_server_identification_line s)
    (t_server_identification s) (t_client_identification_line s) (t_client_identification s)
    (t_server_algorithms s) (t_server_kexinit_payload s) (t_client_kexinit_payload s)
    (t_client_supports_ext_info s) (t_inbound_sequence s) (t_outbound_sequence s) (t_rekey s) v
    (t_negotiation s) (t_material s) (t_session_id s) (t_inbound s) (t_outbound s) (t_diag s).
Definition set_negotiation (v : ssh_kex_negotiation) (s : transport_session) : transport_session :=
  mk_transport (t_server s) (t_state s) (t_server_identification_line s)
    (t_server_identification s) (t_client_identification_line s) (t_client_identification s)
    (t_server_algorithms s) (t_server_kexinit_payload s) (t_client_kexinit_payload s)
    (t_client_supports_ext_info s) (t_inbound_sequence s) (t_outbound_sequence s) (t_rekey s)
    (t_rekey_in_progress s) v (t_material s) (t_session_id s) (t_inbound s) (t_outbound s)
    (t_diag s).
Definition set_material (v : kex_material) (s : transport_session) : transport_session :=
  mk_transport (t_server s) (t_state s) (t_server_identification_line s)
    (t_server_identification s) (t_client_identification_line s) (t_client_identification s)
    (t_server_algorithms s) (t_server_kexinit_payload s) (t_client_kexinit_payload s)
    (t_client_supports_ext_info s) (t_inbound_sequence s) (t_outbound_sequence s) (t_rekey s)
    (t_rekey_in_progress s) (t_negotiation s) v (t_session_id s) (t_inbound s) (t_outbound s)
    (t_diag s).
Definition set_session_id (v : list Z) (s : transport_session) : transport_session :=
  mk_transport (t_server s) (t_state s) (t_server_identification_line s)
    (t_server_identification s) (t_client_identification_line s) (t_client_identification s)
    (t_server_algorithms s) (t_server_kexinit_payload s) (t_client_kexinit_payload s)
    (t_client_supports_ext_info s) (t_inbound_sequence s) (t_outbound_sequence s) (t_rekey s)
    (t_rekey_in_progress s) (t_negotiation s) (t_material s) v (t_inbound s) (t_outbound s)
    (t_diag s).
Definition set_inbound (v : ssh_packet_protection) (s : transport_session) : transport_session :=
  mk_transport (t_server s) (t_state s) (t_server_identification_line s)
    (t_server_identification s) (t_client_identification_line s) (t_client_identification s)
    (t_server_algorithms s) (t_server_kexinit_payload s) (t_client_kexinit_payload s)
    (t_client_supports_ext_info s) (t_inbound_sequence s) (t_outbound_sequence s) (t_rekey s)
    (t_rekey_in_progress s) (t_negotiation s) (t_material s) (t_session_id s) v (t_outbound s)
    (t_diag s).
Definition set_outbound (v : ssh_packet_protection) (s : transport_session) : transport_session :=
  mk_transport (t_server s) (t_state s) (t_server_identification_line s)
    (t_server_identification s) (t_client_identification_line s) (t_client_identification s)
    (t_server_algorithms s) (t_server_kexinit_payload s) (t_client_kexinit_payload s)
    (t_client_supports_ext_info s) (t_inbound_sequence s) (t_outbound_sequence s) (t_rekey s)
    (t_rekey_in_progress s) (t_negotiation s) (t_material s) (t_session_id s) (t_inbound s) v
    (t_diag s).
Definition set_diag (v : session_diag) (s : transport_session) : transport_session :=
  mk_transport (t_server s) (t_state s) (t_server_identification_line s)
    (t_server_identification s) (t_client_identification_line s) (t_client_identification s)
    (t_server_algorithms s) (t_server_kexinit_payload s) (t_client_kexinit_payload s)
    (t_client_supports_ext_info s) (t_inbound_sequence s) (t_outbound_sequence s) (t_rekey s)
    (t_rekey_in_progress s) (t_negotiation s) (t_material s) (t_session_id s) (t_inbound s)
    (t_outbound s) v.

Definition with_client_kex_public_key (v : list Z) (m : kex_material) : kex_material :=
  mk_material v (server_kex_public_key m) (server_kex_private_key m) (shared_secret m)
    (exchange_hash m) (server_host_key m) (server_signature m).
Definition with_server_kex_public_key (v : list Z) (m : kex_material) : kex_material :=
  mk_material (client_kex_public_key m) v (server_kex_private_key m) (shared_secret m)
    (exchange_hash m) (server_host_key m) (server_signature m).
Definition with_server_kex_private_key (v : list Z) (m : kex_material) : kex_material :=
  mk_material (client_kex_public_key m) (server_kex_public_key m) v (shared_secret m)
    (exchange_hash m) (server_host_key m) (server_signature m).
Definition with_shared_secret (v : list Z) (m : kex_material) : kex_material :=
  mk_material (client_kex_public_key m) (server_kex_public_key m) (server_kex_private_key m) v
    (exchange_hash m) (server_host_key m) (server_signature m).
Definition with_exchange_hash (v : list Z) (m : kex_material) : kex_material :=
  mk_material (client_kex_public_key m) (server_kex_public_key m) (server_kex_private_key m)
    (shared_secret m) v (server_host_key m) (server_signature m).
Definition with_server_host_key (v : list Z) (m : kex_material) : kex_material :=
  mk_material (client_kex_public_key m) (server_kex_public_key m) (server_kex_private_key m)
    (shared_secret m) (exchange_hash m) v (server_signature m).
Definition with_server_signature (v : list Z) (m : kex_material) : kex_material :=
  mk_material (client_kex_public_key m) (server_kex_public_key m) (server_kex_private_key m)
    (shared_secret m) (exchange_hash m) (server_host_key m) v.

Definition set_prot_of (outbound : bool) (v : ssh_packet_protection) : transport_session -> transport_session :=
  if outbound then set_outbound v else set_inbound v.
Definition prot_of (outbound : bool) (s : transport_session) : ssh_packet_protection :=
  if outbound then t_outbound s else t_inbound s.
Definition on_material (f : kex_material -> kex_material) (s : transport_session) : transport_session :=
  set_material (f (t_material s)) s.
