(* ===== verification/Transport.v ===== *)
(** * The transport layer: src/core/ssh_transport.c

    One SSH connection as the server sees it: the version exchange, the key
    exchange and the activation of packet protection, sending and receiving
    payloads in plain or protected packets, rekeying on the peer's initiative,
    and the operations that send and receive the messages of the service,
    authentication and connection protocols.

    The operations are programs on [transport_session] (TransportState.v) that
    make the callbacks [tcall]; the cipher, the MAC and the authentication
    functions are the fields of [auth_server] as in the other files. *)

From S2P Require Import Prelude Interaction Buffer Platform Packet Codec Service Kex UserPolicy.
From S2P Require Import Userauth Connection Ident TransportState.

(** ** Programs *)
Definition enter (v : ssh_transport_state) : TrM unit := io_modify (set_state v).
(** A callback stores [bs] in an array of [capacity] bytes. *)
Definition stored (capacity : Z) (bs : list Z) : TrM unit :=
  if zlen bs <=? capacity then mret tt else of_outcome Fault.
(** [if (status != SSH_OK) return status;] *)
Definition check (status : ssh_status) : TrM unit :=
  if status_bad status then io_fail status else mret tt.
(** A message built in a local array of [capacity] bytes. *)
Definition encode (p : BufM unit) (capacity : Z) : TrM (list Z) :=
  of_outcome (encode_into p (zeros capacity) capacity).
Definition decode {A} (g : BufM A) (bs : list Z) : TrM A := of_outcome (decode_from g bs).

(** ** Helpers *)
Definition channel_request_is_putty_extension_local (request : option ssh_channel_request) : bool :=
  match request with
  | None => false
  | Some r =>
    view_equals_cstr (rq_request_type r) (Some (cstr "simple@putty.projects.tartarus.org"))
    || view_equals_cstr (rq_request_type r) (Some (cstr "winadj@putty.projects.tartarus.org"))
  end.

(** The loop of [name_list_contains]; [item] is the slice from [start] to [i]. *)
Fixpoint name_list_contains_scan (item l name : list Z) : bool :=
  match l with
  | [] => bytes_eqb item name
  | b :: l' =>
    if b =? COMMA then bytes_eqb item name || name_list_contains_scan [] l' name
    else name_list_contains_scan (item ++ [b]) l' name
  end.
Definition name_list_contains (l : ssh_string_view) (name : option (list Z)) : bool :=
  match view_data l, name with
  | Some _, Some n => name_list_contains_scan [] (view_bytes l) n
  | _, _ => false
  end.

Definition signature_algorithms_valid (value : option (list Z)) : bool :=
  match value with
  | None | Some [] => true
  | Some v => ssh_name_list_is_valid (view_of v)
  end.

Definition view_algorithm_size (view : ssh_string_view) (algorithm : list Z) (value : Z) : Z :=
  if (view_len view =? zlen algorithm) && bytes_eqb (view_bytes view) algorithm then value else 0.

(** Key, IV, block, MAC key and MAC lengths. *)
Definition negotiated_packet_sizes (n : ssh_kex_negotiation) : outcome (Z * Z * Z * Z * Z) :=
  let cipher := encryption_algorithm_client_to_server n in
  let mac := mac_algorithm_client_to_server n in
  let cipher_key_len := view_algorithm_size cipher (cstr "aes128-ctr") 16 in
  let cipher_iv_len := view_algorithm_size cipher (cstr "aes128-ctr") 16 in
  let block_size := view_algorithm_size cipher (cstr "aes128-ctr") 16 in
  let mac_key_len := view_algorithm_size mac (cstr "hmac-sha2-256") 32 in
  let mac_len := view_algorithm_size mac (cstr "hmac-sha2-256") 32 in
  if (cipher_key_len =? 0) || (cipher_iv_len =? 0) || (block_size =? 0) || (mac_key_len =? 0) || (mac_len =? 0)
  then Err SSH_ERR_UNSUPPORTED
  else Ret (cipher_key_len, cipher_iv_len, block_size, mac_key_len, mac_len).

(** *** The network *)

(** The iterations of [net_read_exact] after the first bytes have come. *)
Fixpoint net_read_rest (fuel : nat) (remaining : Z) : TrM (list Z) :=
  if remaining <=? 0 then mret [] else
  match fuel with
  | O => of_outcome Fault
  | S fuel' =>
    r ← perform (NetReadOn remaining);
    match r with
    | FinalClosed => io_fail SSH_ERR_CLOSED
    | FinalError => io_fail SSH_ERR_PLATFORM
    | FinalData bs =>
      stored remaining bs;;
      rest ← net_read_rest fuel' (remaining - zlen bs);
      mret (bs ++ rest)
    end
  end.

Definition net_read_exact (len : Z) : TrM (list Z) :=
  readable ← io_get (fun s => srv_net_read (t_server s));
  io_reject (negb readable) SSH_ERR_INVALID_ARGUMENT;;
  if len <=? 0 then mret [] else
  r ← perform (NetRead len);
  match r with
  | ReadClosed => io_fail SSH_ERR_CLOSED
  | ReadTimeout => io_fail SSH_ERR_NOT_FOUND
  | ReadError => io_fail SSH_ERR_PLATFORM
  | ReadData bs =>
    stored len bs;;
    rest ← net_read_rest (Z.to_nat len) (len - zlen bs);
    mret (bs ++ rest)
  end.

(** Every iteration writes at least one byte, so the bytes left bound them. *)
Fixpoint net_write_loop (fuel : nat) (data : list Z) : TrM unit :=
  match data, fuel with
  | [], _ => mret tt
  | _ :: _, O => of_outcome Fault
  | _ :: _, S fuel' =>
    n ← perform (NetWrite data);
    io_reject (n =? 0) SSH_ERR_CLOSED;;
    io_reject (n <? 0) SSH_ERR_PLATFORM;;
    net_write_loop fuel' (zdrop n data)
  end.
Definition net_write_all (data : list Z) : TrM unit :=
  writable ← io_get (fun s => srv_net_write (t_server s));
  io_reject (negb writable) SSH_ERR_INVALID_ARGUMENT;;
  net_write_loop (length data) data.

Definition read_u32_be (data : list Z) : Z :=
  Z.lor (Z.lor (Z.lor (Z.shiftl (byte_at data 0) 24) (Z.shiftl (byte_at data 1) 16))
               (Z.shiftl (byte_at data 2) 8)) (byte_at data 3).

(** *** Rekey counters *)
Definition add_u64_saturating (lhs rhs : Z) : Z :=
  if UINT64_MAX - lhs <? rhs then UINT64_MAX else lhs + rhs.

Definition update_rekey_needed (r : rekey_counters) : rekey_counters :=
  mk_rekey (rekey_after_packets r) (rekey_after_bytes r) (inbound_rekey_packets r)
    (outbound_rekey_packets r) (inbound_rekey_bytes r) (outbound_rekey_bytes r)
    ((negb (rekey_after_packets r =? 0)
      && ((inbound_rekey_packets r >=? rekey_after_packets r)
          || (outbound_rekey_packets r >=? rekey_after_packets r)))
     || (negb (rekey_after_bytes r =? 0)
         && ((inbound_rekey_bytes r >=? rekey_after_bytes r)
             || (outbound_rekey_bytes r >=? rekey_after_bytes r)))).

Definition record_rekey_packet (outbound : bool) (wire_len : Z) (r : rekey_counters) : rekey_counters :=
  update_rekey_needed
    (if outbound then
       mk_rekey (rekey_after_packets r) (rekey_after_bytes r) (inbound_rekey_packets r)
         (add_u64_saturating (outbound_rekey_packets r) 1) (inbound_rekey_bytes r)
         (add_u64_saturating (outbound_rekey_bytes r) wire_len) (rekey_needed r)
     else
       mk_rekey (rekey_after_packets r) (rekey_after_bytes r)
         (add_u64_saturating (inbound_rekey_packets r) 1) (outbound_rekey_packets r)
         (add_u64_saturating (inbound_rekey_bytes r) wire_len) (outbound_rekey_bytes r) (rekey_needed r)).

Definition reset_rekey_direction (outbound : bool) (r : rekey_counters) : rekey_counters :=
  update_rekey_needed
    (if outbound then
       mk_rekey (rekey_after_packets r) (rekey_after_bytes r) (inbound_rekey_packets r) 0
         (inbound_rekey_bytes r) 0 (rekey_needed r)
     else
       mk_rekey (rekey_after_packets r) (rekey_after_bytes r) 0 (outbound_rekey_packets r)
         0 (outbound_rekey_bytes r) (rekey_needed r)).

Definition on_rekey (f : rekey_counters -> rekey_counters) (s : transport_session) : transport_session :=
  set_rekey (f (t_rekey s)) s.

Definition ssh_transport_set_rekey_limits (packets bytes : Z) : TrM unit :=
  io_modify (on_rekey (fun _ => mk_rekey packets bytes 0 0 0 0 false)).
Definition ssh_transport_rekey_needed (session : option transport_session) : bool :=
  match session with Some s => rekey_needed (t_rekey s) | None => false end.

(** [last_channel_request_type] has 64 bytes. *)
Definition record_last_channel_request_diag (request : ssh_channel_request) : TrM unit :=
  match view_data (rq_request_type request) with
  | None => mret tt
  | Some _ =>
    io_modify (fun s => set_diag (mk_diag (last_received_message_id (t_diag s))
      (last_received_message_id_valid (t_diag s)) (ztake 63 (view_bytes (rq_request_type request)))
      true (rq_want_reply request)) s)
  end.

(** ** Packets *)
Definition packet_array : Z := EMSSH_MAX_PACKET_SIZE + 4 + EMSSH_MAX_MAC.

(** [session->server->platform.rng]. *)
Definition use_rng : TrM (option rng_fill_fn) :=
  present ← io_get (fun s => srv_rng (t_server s));
  if present : bool then fill ← perform RngUse; mret (Some fill) else mret None.

(** The packet a writer left in the array: its first [packet_len] bytes. *)
Definition packet_of (packet_len : Z) (mem : option (list Z)) : list Z := ztake packet_len (default [] mem).

Definition ssh_transport_send_protected_payload (payload : list Z) : TrM unit :=
  p ← io_get t_outbound;
  io_reject (negb (prot_active p)) SSH_ERR_INVALID_ARGUMENT;;
  rng ← use_rng;
  let '(o, io) := ssh_packet_encode_protected packet_array (Some payload) (zlen payload) rng
                    (mk_packet_io p (Some (zeros packet_array))) in
  io_modify (set_outbound (io_prot io));;
  packet_len ← of_outcome o;
  net_write_all (packet_of packet_len (io_mem io));;
  io_modify (fun s => set_outbound_sequence (prot_sequence (t_outbound s)) s);;
  io_modify (on_rekey (record_rekey_packet true packet_len)).

(** [deliver] is the copy into the caller's array of [payload_capacity] bytes. *)
Definition ssh_transport_receive_protected_payload
    (deliver : list Z -> transport_session -> transport_session) (payload_capacity : Z) : TrM (list Z) :=
  p ← io_get t_inbound;
  io_reject (negb (prot_active p)) SSH_ERR_INVALID_ARGUMENT;;
  let block_size := prot_block_size p in
  io_reject ((block_size <? SSH_PACKET_MIN_BLOCK_SIZE) || (block_size >? EMSSH_MAX_CIPHER_IV))
    SSH_ERR_INVALID_ARGUMENT;;
  head ← net_read_exact block_size;
  let '(o, io) := call_cipher (prot_cipher_iv p) SSH_CIPHER_DECRYPT block_size (mk_packet_io p (Some head)) in
  status ← of_outcome o;
  io_reject (status_bad status) SSH_ERR_PLATFORM;;
  let first_block := default [] (io_mem io) in
  let packet_length := read_u32_be first_block in
  io_reject ((packet_length =? 0) || (packet_length >? EMSSH_MAX_PACKET_SIZE)) SSH_ERR_MALFORMED_PACKET;;
  let encrypted_len := packet_length + 4 in
  io_reject ((encrypted_len <? block_size) || (encrypted_len >? EMSSH_MAX_PACKET_SIZE + 4)
             || negb (encrypted_len mod block_size =? 0)) SSH_ERR_MALFORMED_PACKET;;
  tail ← net_read_exact ((encrypted_len - block_size) + prot_mac_len p);
  let packet_len := encrypted_len + prot_mac_len p in
  let '(o, io) := ssh_packet_decode_protected packet_len (mk_packet_io p (Some (head ++ tail))) in
  io_modify (set_inbound (io_prot io));;
  view ← of_outcome o;
  io_reject (payload_len view >? payload_capacity) SSH_ERR_BUFFER_TOO_SMALL;;
  io_modify (deliver (payload view));;
  io_modify (fun s => set_inbound_sequence (prot_sequence (t_inbound s)) s);;
  io_modify (on_rekey (record_rekey_packet false packet_len));;
  mret (payload view).

Definition receive_plain_packet (deliver : list Z -> transport_session -> transport_session)
    (payload_capacity : Z) : TrM (list Z) :=
  header ← net_read_exact 4;
  let packet_length := read_u32_be header in
  io_reject ((packet_length =? 0) || (packet_length >? EMSSH_MAX_PACKET_SIZE)) SSH_ERR_MALFORMED_PACKET;;
  body ← net_read_exact packet_length;
  view ← of_outcome (ssh_packet_decode_plain (Some (header ++ body)) (packet_length + 4));
  io_reject (payload_len view >? payload_capacity) SSH_ERR_BUFFER_TOO_SMALL;;
  io_modify (deliver (payload view));;
  io_modify (fun s => set_inbound_sequence (u32 (t_inbound_sequence s + 1)) s);;
  mret (payload view).

Definition send_transport_payload (payload : list Z) : TrM unit :=
  p ← io_get t_outbound;
  if prot_active p then ssh_transport_send_protected_payload payload else
  rng ← use_rng;
  let '(o, mem) := ssh_packet_encode_plain packet_array (Some payload) (zlen payload)
                     SSH_PACKET_MIN_BLOCK_SIZE rng (Some (zeros packet_array)) in
  packet_len ← of_outcome o;
  net_write_all (packet_of packet_len mem);;
  io_modify (fun s => set_outbound_sequence (u32 (t_outbound_sequence s + 1)) s).

Definition receive_transport_payload (deliver : list Z -> transport_session -> transport_session)
    (payload_capacity : Z) : TrM (list Z) :=
  p ← io_get t_inbound;
  if prot_active p then ssh_transport_receive_protected_payload deliver payload_capacity
  else receive_plain_packet deliver payload_capacity.

(** Where a payload goes: a local array, or the array of the client's KEXINIT. *)
Definition to_local : list Z -> transport_session -> transport_session := fun _ s => s.
Definition to_client_kexinit (payload : list Z) (s : transport_session) : transport_session :=
  let b := t_client_kexinit_payload s in
  set_client_kexinit_payload (mk_payload (payload ++ zdrop (zlen payload) (pb_data b)) (pb_len b)) s.

(** ** Setting up a session *)
Definition transport_copy_algorithms (crypto : option ssh_crypto_api)
    (kexinit_defaults src : option ssh_kexinit_algorithm_set) : ssh_kexinit_algorithm_set :=
  match src with
  | Some a => a
  | None =>
    match crypto, kexinit_defaults with
    | Some _, Some d => d
    | _, _ => ssh_kexinit_algorithm_set_defaults
    end
  end.

Definition zero_negotiation : ssh_kex_negotiation :=
  mk_negotiation null_view null_view null_view null_view null_view null_view null_view null_view
    null_view null_view.

Definition ssh_transport_session_init (server : option transport_server)
    (server_algorithms : option ssh_kexinit_algorithm_set) : outcome transport_session :=
  match server with
  | None => Err SSH_ERR_INVALID_ARGUMENT
  | Some srv =>
    if negb (srv_initialized srv) then Err SSH_ERR_INVALID_ARGUMENT else
    Ret (mk_transport srv STATE_INIT [] zero_ident
      (mk_payload (zeros (EMSSH_MAX_IDENTIFICATION_LINE + 2)) 0) zero_ident
      (transport_copy_algorithms (server_crypto (srv_auth srv)) (srv_kexinit_defaults srv) server_algorithms)
      (mk_payload (zeros EMSSH_MAX_KEXINIT_PAYLOAD) 0) (mk_payload (zeros EMSSH_MAX_KEXINIT_PAYLOAD) 0)
      false 0 0 (mk_rekey 0 0 0 0 0 0 false) false zero_negotiation
      (mk_material [] [] [] [] [] [] []) [] ssh_packet_protection_init ssh_packet_protection_init
      (mk_diag 0 false [] false false))
  end.

(** ** The version exchange *)
Definition ssh_transport_send_identification : TrM unit :=
  srv ← io_get t_server;
  line ← of_outcome (ssh_server_format_identification (srv_initialized srv) (srv_software_name srv)
                       (EMSSH_MAX_IDENTIFICATION_LINE + 2));
  io_modify (set_server_identification_line line);;
  ident ← io_get t_server_identification;
  let '(o, ident') := ssh_identification_parse_line (Some line) ident in
  io_modify (set_server_identification ident');;
  of_outcome o;;
  net_write_all line;;
  enter STATE_IDENT_SENT.

(** One line into [client_identification_line], from position [len] with [room]
    bytes left; the result is the line. *)
Fixpoint receive_one_line (room : nat) (len : Z) : TrM (list Z) :=
  match room with
  | O => io_fail SSH_ERR_MALFORMED_PACKET
  | S room' =>
    c ← net_read_exact 1;
    let b := byte_at c 0 in
    io_modify (fun s => let l := t_client_identification_line s in
      set_client_identification_line (mk_payload (<[Z.to_nat len := b]> (pb_data l)) (pb_len l)) s);;
    if b =? LF then
      io_modify (fun s => let l := t_client_identification_line s in
        set_client_identification_line (mk_payload (pb_data l) (len + 1)) s);;
      io_get (fun s => ztake (len + 1) (pb_data (t_client_identification_line s)))
    else receive_one_line room' (len + 1)
  end.

Fixpoint receive_identification_loop (lines : nat) : TrM unit :=
  match lines with
  | O => io_fail SSH_ERR_MALFORMED_PACKET
  | S lines' =>
    line ← receive_one_line (Z.to_nat (EMSSH_MAX_IDENTIFICATION_LINE + 2)) 0;
    if (zlen line >=? 4) && bytes_eqb (ztake 4 line) (cstr "SSH-") then
      ident ← io_get t_client_identification;
      let '(o, ident') := ssh_identification_parse_line (Some line) ident in
      io_modify (set_client_identification ident');;
      of_outcome o;;
      io_reject (negb (ssh_identification_is_ssh2_compatible (Some ident'))) SSH_ERR_UNSUPPORTED;;
      enter STATE_IDENT_RECEIVED
    else receive_identification_loop lines'
  end.
Definition ssh_transport_receive_identification : TrM unit := receive_identification_loop 20.

(** ** Key exchange *)
Definition ssh_transport_send_kexinit : TrM unit :=
  present ← io_get (fun s => srv_rng (t_server s));
  io_reject (negb present) SSH_ERR_PLATFORM;;
  fill ← perform RngUse;
  let '(status, cookie) := fill SSH_KEX_COOKIE_LEN in
  check status;;
  algorithms ← io_get t_server_algorithms;
  b ← io_get t_server_kexinit_payload;
  let '(o, mem) := with_writer EMSSH_MAX_KEXINIT_PAYLOAD
    (ssh_kexinit_encode (Some cookie) (Some algorithms) false;;
     buf ← get_state; mret (ssh_buffer_len buf)) (Some (pb_data b)) in
  io_modify (set_server_kexinit_payload (mk_payload (default [] mem) (pb_len b)));;
  len ← of_outcome o;
  io_modify (set_server_kexinit_payload (mk_payload (default [] mem) len));;
  send_transport_payload (ztake len (default [] mem));;
  enter STATE_KEXINIT_SENT.

(** The structure a failed negotiation leaves: the choices made before the list
    that has no common name, null views from there on. *)
Fixpoint negotiated_before_failure (client : ssh_kexinit)
    (slots : list (ssh_kexinit_name_list_index * option (list Z) * bool)) : list ssh_string_view :=
  match slots with
  | [] => []
  | (i, l, allow_empty) :: slots' =>
    match negotiate_one client i l allow_empty with
    | Ret v => v :: negotiated_before_failure client slots'
    | _ => []
    end
  end.
Definition negotiation_left (client : ssh_kexinit) (server : ssh_kexinit_algorithm_set) : ssh_kex_negotiation :=
  let vs := negotiated_before_failure client
    [(SSH_KEX_ALGORITHMS, kex_algorithms server, false);
     (SSH_SERVER_HOST_KEY_ALGORITHMS, server_host_key_algorithms server, false);
     (SSH_ENCRYPTION_ALGORITHMS_CLIENT_TO_SERVER, encryption_algorithms_client_to_server server, false);
     (SSH_ENCRYPTION_ALGORITHMS_SERVER_TO_CLIENT, encryption_algorithms_server_to_client server, false);
     (SSH_MAC_ALGORITHMS_CLIENT_TO_SERVER, mac_algorithms_client_to_server server, false);
     (SSH_MAC_ALGORITHMS_SERVER_TO_CLIENT, mac_algorithms_server_to_client server, false);
     (SSH_COMPRESSION_ALGORITHMS_CLIENT_TO_SERVER, compression_algorithms_client_to_server server, false);
     (SSH_COMPRESSION_ALGORITHMS_SERVER_TO_CLIENT, compression_algorithms_server_to_client server, false);
     (SSH_LANGUAGES_CLIENT_TO_SERVER, languages_client_to_server server, true);
     (SSH_LANGUAGES_SERVER_TO_CLIENT, languages_server_to_client server, true)] in
  let at_ i := nth i vs null_view in
  mk_negotiation (at_ 0%nat) (at_ 1%nat) (at_ 2%nat) (at_ 3%nat) (at_ 4%nat) (at_ 5%nat) (at_ 6%nat)
    (at_ 7%nat) (at_ 8%nat) (at_ 9%nat).

Definition process_kexinit_payload (payload : list Z) : TrM unit :=
  io_reject (zlen payload =? 0) SSH_ERR_INVALID_ARGUMENT;;
  io_reject (zlen payload >? EMSSH_MAX_KEXINIT_PAYLOAD) SSH_ERR_BUFFER_TOO_SMALL;;
  io_modify (to_client_kexinit payload);;
  io_modify (fun s => set_client_kexinit_payload (mk_payload (pb_data (t_client_kexinit_payload s)) (zlen payload)) s);;
  client ← decode ssh_kexinit_decode payload;
  algorithms ← io_get t_server_algorithms;
  io_modify (set_negotiation (negotiation_left client algorithms));;
  negotiation ← of_outcome (ssh_kex_negotiate (Some client) (Some algorithms));
  io_modify (set_negotiation negotiation);;
  io_modify (set_client_supports_ext_info
    (name_list_contains (nth (index_nat SSH_KEX_ALGORITHMS) (name_lists client) null_view)
       (Some (cstr "ext-info-c"))));;
  enter STATE_NEGOTIATED.

Definition ssh_transport_receive_kexinit : TrM unit :=
  payload ← receive_transport_payload to_client_kexinit EMSSH_MAX_KEXINIT_PAYLOAD;
  io_modify (fun s => set_client_kexinit_payload (mk_payload (pb_data (t_client_kexinit_payload s)) (zlen payload)) s);;
  process_kexinit_payload payload.

(** The buffer the exchange hash is computed over. *)
Definition exchange_hash_fields (s : transport_session) : BufM unit :=
  let m := t_material s in
  let put l := ssh_buffer_put_string (Some l) (zlen l) in
  let client := id_raw (t_client_identification s) in
  let server := id_raw (t_server_identification s) in
  ssh_buffer_put_string (view_data client) (view_len client);;
  ssh_buffer_put_string (view_data server) (view_len server);;
  ssh_buffer_put_string (Some (pb_data (t_client_kexinit_payload s))) (pb_len (t_client_kexinit_payload s));;
  ssh_buffer_put_string (Some (pb_data (t_server_kexinit_payload s))) (pb_len (t_server_kexinit_payload s));;
  put (server_host_key m);;
  put (client_kex_public_key m);;
  put (server_kex_public_key m);;
  ssh_buffer_put_mpint_positive (Some (shared_secret m)) (zlen (shared_secret m)).
Definition build_exchange_hash_input (out_capacity : Z) : TrM (list Z) :=
  s ← io_get id;
  encode (exchange_hash_fields s) out_capacity.

Definition ssh_transport_receive_kex_ecdh_init : TrM unit :=
  payload ← receive_transport_payload to_local (EMSSH_MAX_KEX_PUBLIC_KEY + 16);
  init ← decode ssh_kex_ecdh_init_decode payload;
  let key := view_bytes (client_public_key init) in
  stored EMSSH_MAX_KEX_PUBLIC_KEY key;;
  io_modify (on_material (with_client_kex_public_key key));;
  enter STATE_KEX_ECDH_INIT_RECEIVED.

(** A crypto entry stores its result in the session, whatever its status. *)
Definition store_result (capacity : Z) (set : list Z -> kex_material -> kex_material) (r : ssh_status * list Z)
    : TrM unit :=
  stored capacity (snd r);;
  io_modify (on_material (set (snd r)));;
  check (fst r).

(** The server's key pair and the shared secret. *)
Definition agree_on_secret (n : ssh_kex_negotiation) : TrM unit :=
  r ← perform (KexGenerateKeypair (kex_algorithm n));
  let '(status, public, private) := r in
  stored EMSSH_MAX_KEX_PUBLIC_KEY public;;
  stored EMSSH_MAX_KEX_PRIVATE_KEY private;;
  io_modify (on_material (fun m => with_server_kex_private_key private (with_server_kex_public_key public m)));;
  check status;;
  m ← io_get t_material;
  r ← perform (KexComputeSharedSecret (kex_algorithm n) (server_kex_private_key m) (client_kex_public_key m));
  store_result EMSSH_MAX_KEX_SHARED_SECRET with_shared_secret r.

(** The exchange hash and its signature. *)
Definition hash_and_sign (n : ssh_kex_negotiation) : TrM unit :=
  input ← build_exchange_hash_input 4096;
  r ← perform (HashExchange (kex_algorithm n) input);
  store_result EMSSH_MAX_EXCHANGE_HASH with_exchange_hash r;;
  m ← io_get t_material;
  r ← perform (HostkeySign (server_host_key_algorithm n) (exchange_hash m));
  store_result EMSSH_MAX_SIGNATURE with_server_signature r.

Definition ssh_transport_send_kex_ecdh_reply : TrM unit :=
  srv ← io_get t_server;
  io_reject (is_null (server_crypto (srv_auth srv)) || negb (srv_kex_entries srv)) SSH_ERR_PLATFORM;;
  n ← io_get t_negotiation;
  agree_on_secret n;;
  r ← perform (HostkeyPublic (server_host_key_algorithm n));
  store_result EMSSH_MAX_HOST_KEY_BLOB with_server_host_key r;;
  hash_and_sign n;;
  io_modify (fun s => if zlen (t_session_id s) =? 0 then set_session_id (exchange_hash (t_material s)) s else s);;
  m ← io_get t_material;
  reply ← encode (ssh_kex_ecdh_reply_encode (Some (server_host_key m)) (zlen (server_host_key m))
                    (Some (server_kex_public_key m)) (zlen (server_kex_public_key m))
                    (Some (server_signature m)) (zlen (server_signature m))) EMSSH_MAX_KEX_REPLY_PAYLOAD;
  send_transport_payload reply;;
  enter STATE_KEX_ECDH_REPLY_SENT.

(** *** Keys *)
Definition derive_material (key_id out_len : Z) : TrM (list Z) :=
  srv ← io_get t_server;
  io_reject (is_null (server_crypto (srv_auth srv)) || negb (srv_derive_key srv)) SSH_ERR_PLATFORM;;
  s ← io_get id;
  r ← perform (DeriveKey (kex_algorithm (t_negotiation s)) (shared_secret (t_material s))
                 (exchange_hash (t_material s)) (t_session_id s) key_id out_len);
  stored out_len (snd r);;
  io_reject (status_bad (fst r) || negb (zlen (snd r) =? out_len)) SSH_ERR_PLATFORM;;
  mret (snd r).

(** The first exchange hash becomes the session identifier. *)
Definition ensure_session_id : TrM unit :=
  s ← io_get id;
  let hash := exchange_hash (t_material s) in
  if zlen (t_session_id s) =? 0 then
    io_reject ((zlen hash =? 0) || (zlen hash >? EMSSH_MAX_EXCHANGE_HASH)) SSH_ERR_SECURITY;;
    io_modify (set_session_id hash)
  else mret tt.

(** The keys [iv_id], [cipher_id] and [mac_id] of one direction, installed. *)
Definition install_keys (outbound : bool) (n : ssh_kex_negotiation) (sizes : Z * Z * Z * Z * Z) : TrM unit :=
  let '(cipher_key_len, cipher_iv_len, block_size, mac_key_len, mac_len) := sizes in
  cipher_iv ← derive_material (if outbound then 66 else 65) cipher_iv_len;
  cipher_key ← derive_material (if outbound then 68 else 67) cipher_key_len;
  mac_key ← derive_material (if outbound then 70 else 69) mac_key_len;
  s ← io_get id;
  let '(o, p) := ssh_packet_protection_set (server_crypto (srv_auth (t_server s)))
    (if outbound then encryption_algorithm_server_to_client n else encryption_algorithm_client_to_server n)
    (if outbound then mac_algorithm_server_to_client n else mac_algorithm_client_to_server n)
    (Some cipher_key) cipher_key_len (Some cipher_iv) cipher_iv_len (Some mac_key) mac_key_len
    block_size mac_len (prot_of outbound s) in
  io_modify (set_prot_of outbound p);;
  of_outcome o;;
  io_modify (fun s => set_prot_of outbound (with_sequence
    (if outbound then t_outbound_sequence s else t_inbound_sequence s) (prot_of outbound s)) s);;
  io_modify (on_rekey (reset_rekey_direction outbound)).

Definition activate_packet_protection (outbound : bool) : TrM unit :=
  n ← io_get t_negotiation;
  sizes ← of_outcome (negotiated_packet_sizes n);
  ensure_session_id;;
  install_keys outbound n sizes.

Definition ssh_transport_send_newkeys : TrM unit :=
  payload ← encode ssh_kex_newkeys_encode 8;
  send_transport_payload payload;;
  activate_packet_protection true;;
  enter STATE_NEWKEYS_SENT.

Definition ssh_transport_receive_newkeys : TrM unit :=
  payload ← receive_transport_payload to_local 8;
  decode ssh_kex_newkeys_decode payload;;
  activate_packet_protection false;;
  enter STATE_NEWKEYS_RECEIVED.

Definition ext_info_encode (signature_algorithms : list Z) : BufM unit :=
  let some := negb (zlen signature_algorithms =? 0) in
  ssh_buffer_put_u8 SSH_MSG_EXT_INFO;;
  ssh_buffer_put_u32 (if some then 1 else 0);;
  (if some then ssh_buffer_put_cstring (Some (cstr "server-sig-algs")) else mret tt);;
  (if some then ssh_buffer_put_cstring (Some signature_algorithms) else mret tt).

Definition ssh_transport_send_ext_info : TrM unit :=
  supported ← io_get t_client_supports_ext_info;
  if negb supported then mret tt else
  auth ← io_get (fun s => srv_auth (t_server s));
  let signature_algorithms :=
    if is_null (publickey_auth auth) then [] else default [] (backend_signature_algorithms auth) in
  io_reject (negb (signature_algorithms_valid (Some signature_algorithms))) SSH_ERR_INVALID_ARGUMENT;;
  payload ← encode (ext_info_encode signature_algorithms) EMSSH_MAX_EXT_INFO_PAYLOAD;
  ssh_transport_send_protected_payload payload.

(** ** Receiving between rekeys *)
Definition transport_payload_is_ignorable (payload : list Z) : bool :=
  match payload with
  | [] => false
  | id :: _ => (id =? SSH_MSG_IGNORE) || (id =? SSH_MSG_DEBUG) || (id =? SSH_MSG_UNIMPLEMENTED)
  end.
Definition transport_payload_is_disconnect (payload : list Z) : bool :=
  match payload with [] => false | id :: _ => id =? SSH_MSG_DISCONNECT end.
Definition transport_payload_is_kexinit (payload : list Z) : bool :=
  match payload with [] => false | id :: _ => id =? SSH_MSG_KEXINIT end.

Definition ssh_transport_handle_peer_rekey (client_kexinit_payload : list Z) : TrM unit :=
  s ← io_get id;
  io_reject (negb (prot_active (t_inbound s)) || negb (prot_active (t_outbound s)) || t_rekey_in_progress s)
    SSH_ERR_UNSUPPORTED;;
  io_modify (set_rekey_in_progress true);;
  status ← attempt (
    process_kexinit_payload client_kexinit_payload;;
    ssh_transport_send_kexinit;;
    ssh_transport_receive_kex_ecdh_init;;
    ssh_transport_send_kex_ecdh_reply;;
    ssh_transport_send_newkeys;;
    ssh_transport_receive_newkeys);
  io_modify (set_rekey_in_progress false);;
  match status with inl e => io_fail e | inr _ => mret tt end.

Definition record_message_id (payload : list Z) (s : transport_session) : transport_session :=
  match payload with
  | [] => s
  | id :: _ =>
    let d := t_diag s in
    set_diag (mk_diag id true (last_channel_request_type d) (last_channel_request_type_valid d)
      (last_channel_request_want_reply d)) s
  end.

Fixpoint skip_ignorable_loop (tries : nat) (payload_capacity : Z) : TrM (list Z) :=
  match tries with
  | O => io_fail SSH_ERR_MALFORMED_PACKET
  | S tries' =>
    let using_scratch := payload_capacity <? EMSSH_MAX_KEXINIT_PAYLOAD in
    received ← ssh_transport_receive_protected_payload
      (if using_scratch then to_client_kexinit else to_local)
      (if using_scratch then EMSSH_MAX_KEXINIT_PAYLOAD else payload_capacity);
    io_modify (record_message_id received);;
    io_reject (transport_payload_is_disconnect received) SSH_ERR_CLOSED;;
    if transport_payload_is_kexinit received then
      ssh_transport_handle_peer_rekey received;;
      skip_ignorable_loop tries' payload_capacity
    else if transport_payload_is_ignorable received then skip_ignorable_loop tries' payload_capacity
    else
      io_reject (using_scratch && (zlen received >? payload_capacity)) SSH_ERR_BUFFER_TOO_SMALL;;
      mret received
  end.
Definition receive_protected_payload_skip_ignorable (payload_capacity : Z) : TrM (list Z) :=
  skip_ignorable_loop 8 payload_capacity.

(** ** Services and authentication *)
Definition ssh_transport_receive_service_request : TrM ssh_service_request :=
  payload ← receive_protected_payload_skip_ignorable EMSSH_MAX_SERVICE_PAYLOAD;
  request ← decode ssh_service_request_decode payload;
  io_reject (negb (ssh_service_name_is_supported (service_name request))) SSH_ERR_UNSUPPORTED;;
  enter STATE_SERVICE_REQUEST_RECEIVED;;
  mret request.

Definition ssh_transport_send_service_accept (service_name : option (list Z)) : TrM unit :=
  io_reject (is_null service_name) SSH_ERR_INVALID_ARGUMENT;;
  payload ← encode (ssh_service_accept_encode service_name) 256;
  ssh_transport_send_protected_payload payload;;
  enter STATE_SERVICE_ACCEPT_SENT.

Definition ssh_transport_receive_userauth_request : TrM ssh_userauth_request :=
  payload ← receive_protected_payload_skip_ignorable EMSSH_MAX_USERAUTH_PAYLOAD;
  request ← decode ssh_userauth_request_decode payload;
  enter STATE_USERAUTH_REQUEST_RECEIVED;;
  mret request.

Definition ssh_transport_send_userauth_pk_ok (publickey_algorithm publickey_blob : ssh_string_view) : TrM unit :=
  payload ← encode (ssh_userauth_pk_ok_encode publickey_algorithm publickey_blob) EMSSH_MAX_USERAUTH_PAYLOAD;
  ssh_transport_send_protected_payload payload;;
  enter STATE_USERAUTH_PK_OK_SENT.

Definition ssh_transport_send_userauth_success : TrM unit :=
  payload ← encode ssh_userauth_success_encode 8;
  ssh_transport_send_protected_payload payload;;
  enter STATE_USERAUTH_SUCCESS_SENT.

Definition ssh_transport_send_userauth_failure (methods : option (list Z)) (partial_success : bool) : TrM unit :=
  io_reject (is_null methods) SSH_ERR_INVALID_ARGUMENT;;
  payload ← encode (ssh_userauth_failure_encode methods partial_success) 128;
  ssh_transport_send_protected_payload payload;;
  enter STATE_USERAUTH_FAILURE_SENT.

(** The string in an array: its bytes before the first NUL. *)
Definition array_string (m : list Z) : list Z := fst (scan_until (fun c => c =? 0) m).

Definition ssh_transport_handle_userauth_request (request : ssh_userauth_request) : TrM unit :=
  s ← io_get id;
  let auth := srv_auth (t_server s) in
  decision ← of_outcome (ssh_userauth_evaluate_request auth request (Some (t_session_id s)) (zlen (t_session_id s)));
  match decision with
  | SSH_USERAUTH_DECISION_SUCCESS => ssh_transport_send_userauth_success
  | SSH_USERAUTH_DECISION_PK_OK =>
    ssh_transport_send_userauth_pk_ok (publickey_algorithm request) (publickey_blob request)
  | SSH_USERAUTH_DECISION_FAILURE =>
    let '(o, methods) := ssh_userauth_failure_methods auth EMSSH_MAX_USERAUTH_FAILURE_METHODS
                           (zeros EMSSH_MAX_USERAUTH_FAILURE_METHODS) in
    of_outcome o;;
    ssh_transport_send_userauth_failure (Some (array_string methods)) false
  end.

(** ** Channels *)
Definition ssh_transport_receive_channel_open : TrM ssh_channel_open :=
  payload ← receive_protected_payload_skip_ignorable EMSSH_MAX_CHANNEL_OPEN_PAYLOAD;
  open ← decode ssh_channel_open_decode payload;
  enter STATE_CHANNEL_OPEN_RECEIVED;;
  mret open.

Definition ssh_transport_send_global_request_failure : TrM unit :=
  payload ← encode ssh_global_request_failure_encode 8;
  ssh_transport_send_protected_payload payload;;
  enter STATE_REQUEST_FAILURE_SENT.

(** A global request: decoded, and refused if it wants a reply.  The three loops
    below share these lines. *)
Definition refuse_global_request (payload : list Z) : TrM unit :=
  request ← decode ssh_global_request_decode payload;
  enter STATE_GLOBAL_REQUEST_RECEIVED;;
  if global_want_reply request then ssh_transport_send_global_request_failure else mret tt.

Fixpoint channel_open_loop (tries : nat) : TrM ssh_channel_open :=
  match tries with
  | O => io_fail SSH_ERR_UNSUPPORTED
  | S tries' =>
    payload ← receive_protected_payload_skip_ignorable EMSSH_MAX_CHANNEL_OPEN_PAYLOAD;
    match payload with
    | [] => io_fail SSH_ERR_MALFORMED_PACKET
    | id :: _ =>
      if id =? SSH_MSG_CHANNEL_OPEN then
        open ← decode ssh_channel_open_decode payload;
        enter STATE_CHANNEL_OPEN_RECEIVED;;
        mret open
      else if id =? SSH_MSG_GLOBAL_REQUEST then refuse_global_request payload;; channel_open_loop tries'
      else io_fail SSH_ERR_MALFORMED_PACKET
    end
  end.
Definition ssh_transport_receive_channel_open_skip_global_requests : TrM ssh_channel_open :=
  channel_open_loop 8.

Definition ssh_transport_send_channel_open_confirmation
    (recipient_channel sender_channel initial_window_size maximum_packet_size : Z) : TrM unit :=
  payload ← encode (ssh_channel_open_confirmation_encode recipient_channel sender_channel
                      initial_window_size maximum_packet_size) 64;
  ssh_transport_send_protected_payload payload;;
  enter STATE_CHANNEL_OPEN_CONFIRMATION_SENT.

Definition ssh_transport_send_channel_open_failure (recipient_channel reason_code : Z)
    (description : option (list Z)) : TrM unit :=
  io_reject (is_null description) SSH_ERR_INVALID_ARGUMENT;;
  payload ← encode (ssh_channel_open_failure_encode recipient_channel reason_code description (Some [])) 256;
  ssh_transport_send_protected_payload payload;;
  enter STATE_CHANNEL_OPEN_FAILURE_SENT.

(** A further channel is refused. *)
Definition refuse_channel_open (payload : list Z) : TrM unit :=
  open ← decode ssh_channel_open_decode payload;
  ssh_transport_send_channel_open_failure (sender_channel open) SSH_OPEN_RESOURCE_SHORTAGE
    (Some (cstr "additional channels are not supported in this session")).

(** A message of an id and a channel number and nothing else; any failure is
    reported as malformed.  The result is the id. *)
Definition channel_notice_decode : BufM Z :=
  message_id ← ssh_buffer_get_u8;
  recipient_channel ← ssh_buffer_get_u32;
  remaining ← remaining_read;
  reject (negb (remaining =? 0)) SSH_ERR_MALFORMED_PACKET;;
  mret message_id.
Definition decode_channel_notice (payload : list Z) : TrM Z :=
  match decode_from channel_notice_decode payload with
  | Ret id => mret id
  | Err _ => io_fail SSH_ERR_MALFORMED_PACKET
  | Fault => of_outcome Fault
  end.

(** A decoder that fills a structure: the status it failed with, if it did, and
    the structure. *)
Definition decode_struct {T} (p : OutB T unit) (payload : list Z) (t : T) : TrM (option ssh_status * T) :=
  match p (ssh_buffer_wrap uninit_buffer (Some payload) (zlen payload), t) with
  | (Ret _, (_, t')) => mret (None, t')
  | (Err e, (_, t')) => mret (Some e, t')
  | (Fault, _) => of_outcome Fault
  end.

Definition skipped_before_request (id : Z) : bool :=
  (id =? SSH_MSG_CHANNEL_WINDOW_ADJUST) || (id =? SSH_MSG_CHANNEL_DATA)
  || (id =? SSH_MSG_CHANNEL_EXTENDED_DATA) || (id =? SSH_MSG_REQUEST_SUCCESS)
  || (id =? SSH_MSG_REQUEST_FAILURE) || (id =? SSH_MSG_CHANNEL_OPEN_CONFIRMATION)
  || (id =? SSH_MSG_CHANNEL_OPEN_FAILURE).

(** The result is the status of the request's decoder and the caller's structure
    after it.  When the function fails before that, the structure is as it was. *)
Fixpoint channel_request_loop (tries : nat) (request : ssh_channel_request)
    : TrM (option ssh_status * ssh_channel_request) :=
  match tries with
  | O => io_fail SSH_ERR_UNSUPPORTED
  | S tries' =>
    payload ← receive_protected_payload_skip_ignorable EMSSH_MAX_CHANNEL_REQUEST_PAYLOAD;
    match payload with
    | [] => io_fail SSH_ERR_MALFORMED_PACKET
    | id :: _ =>
      if id =? SSH_MSG_CHANNEL_REQUEST then
        d ← decode_struct ssh_channel_request_decode payload request;
        match fst d with
        | Some e =>
          (if bool_decide (e = SSH_ERR_UNSUPPORTED) then record_last_channel_request_diag (snd d) else mret tt);;
          mret d
        | None =>
          record_last_channel_request_diag (snd d);;
          enter STATE_CHANNEL_REQUEST_RECEIVED;;
          mret d
        end
      else if (id =? SSH_MSG_CHANNEL_CLOSE) || (id =? SSH_MSG_CHANNEL_EOF) then
        id ← decode_channel_notice payload;
        enter (if id =? SSH_MSG_CHANNEL_CLOSE then STATE_CHANNEL_CLOSE_RECEIVED else STATE_CHANNEL_EOF_RECEIVED);;
        io_fail SSH_ERR_CLOSED
      else if id =? SSH_MSG_GLOBAL_REQUEST then
        refuse_global_request payload;; channel_request_loop tries' request
      else if id =? SSH_MSG_CHANNEL_OPEN then
        refuse_channel_open payload;; channel_request_loop tries' request
      else if (id =? SSH_MSG_CHANNEL_SUCCESS) || (id =? SSH_MSG_CHANNEL_FAILURE) then
        decode_channel_notice payload;; channel_request_loop tries' request
      else if skipped_before_request id then channel_request_loop tries' request
      else io_fail SSH_ERR_UNSUPPORTED
    end
  end.
Definition ssh_transport_receive_channel_request (request : ssh_channel_request)
    : TrM (option ssh_status * ssh_channel_request) := channel_request_loop 16 request.

Definition ssh_transport_send_channel_success (recipient_channel : Z) : TrM unit :=
  payload ← encode (ssh_channel_success_encode recipient_channel) 16;
  ssh_transport_send_protected_payload payload;;
  enter STATE_CHANNEL_SUCCESS_SENT.

Definition ssh_transport_send_channel_failure (recipient_channel : Z) : TrM unit :=
  payload ← encode (ssh_channel_failure_encode recipient_channel) 16;
  ssh_transport_send_protected_payload payload;;
  enter STATE_CHANNEL_FAILURE_SENT.

(** The recipient and the data. *)
Definition ssh_transport_receive_channel_data (data_capacity : Z) : TrM (Z * list Z) :=
  payload ← receive_protected_payload_skip_ignorable (EMSSH_MAX_PAYLOAD_SIZE + 16);
  d ← decode ssh_channel_data_decode payload;
  io_reject (view_len (channel_data d) >? data_capacity) SSH_ERR_BUFFER_TOO_SMALL;;
  enter STATE_CHANNEL_DATA_RECEIVED;;
  mret (data_recipient_channel d, view_bytes (channel_data d)).

Definition skipped_between_messages (id : Z) : bool :=
  (id =? SSH_MSG_CHANNEL_SUCCESS) || (id =? SSH_MSG_CHANNEL_FAILURE) || (id =? SSH_MSG_REQUEST_SUCCESS)
  || (id =? SSH_MSG_REQUEST_FAILURE) || (id =? SSH_MSG_CHANNEL_OPEN_CONFIRMATION)
  || (id =? SSH_MSG_CHANNEL_OPEN_FAILURE) || (id =? SSH_MSG_CHANNEL_EXTENDED_DATA).

Fixpoint channel_message_loop (tries : nat) (message : ssh_channel_message) : TrM ssh_channel_message :=
  match tries with
  | O => io_fail SSH_ERR_UNSUPPORTED
  | S tries' =>
    payload ← receive_protected_payload_skip_ignorable EMSSH_MAX_CHANNEL_MESSAGE_PAYLOAD;
    match payload with
    | [] => io_fail SSH_ERR_MALFORMED_PACKET
    | id :: _ =>
      if skipped_between_messages id then channel_message_loop tries' message
      else if id =? SSH_MSG_GLOBAL_REQUEST then
        refuse_global_request payload;; channel_message_loop tries' message
      else if id =? SSH_MSG_CHANNEL_OPEN then
        refuse_channel_open payload;; channel_message_loop tries' message
      else
        d ← decode_struct ssh_channel_message_decode payload message;
        match fst d with
        | None => mret (snd d)
        | Some status =>
          if bool_decide (status = SSH_ERR_UNSUPPORTED) && (id =? SSH_MSG_CHANNEL_REQUEST) then
            r ← decode_struct ssh_channel_request_decode payload zero_request;
            let request_diag := snd r in
            record_last_channel_request_diag request_diag;;
            if negb (is_null (view_data (rq_request_type request_diag))) then
              (if rq_want_reply request_diag
                  && negb (channel_request_is_putty_extension_local (Some request_diag))
               then ssh_transport_send_channel_failure (rq_recipient_channel request_diag) else mret tt);;
              channel_message_loop tries' (snd d)
            else io_fail status
          else io_fail status
        end
    end
  end.

(** The message and the data copied to the caller's array of [data_capacity]
    bytes. *)
Definition ssh_transport_receive_channel_message (message : ssh_channel_message) (data_capacity : Z)
    : TrM (ssh_channel_message * list Z) :=
  message ← channel_message_loop 16 message;
  let id := message_id message in
  if id =? SSH_MSG_CHANNEL_WINDOW_ADJUST then enter STATE_CHANNEL_WINDOW_ADJUST_RECEIVED;; mret (message, [])
  else if id =? SSH_MSG_CHANNEL_REQUEST then enter STATE_CHANNEL_REQUEST_RECEIVED;; mret (message, [])
  else if id =? SSH_MSG_CHANNEL_DATA then
    io_reject (view_len (msg_data message) >? data_capacity) SSH_ERR_BUFFER_TOO_SMALL;;
    enter STATE_CHANNEL_DATA_RECEIVED;;
    mret (message, view_bytes (msg_data message))
  else if id =? SSH_MSG_CHANNEL_EOF then enter STATE_CHANNEL_EOF_RECEIVED;; mret (message, [])
  else if id =? SSH_MSG_CHANNEL_CLOSE then enter STATE_CHANNEL_CLOSE_RECEIVED;; mret (message, [])
  else mret (message, []).

(** Each pass sends at least one byte of [data], or is the last. *)
Fixpoint send_channel_data_loop (fuel : nat) (recipient_channel : Z) (data : list Z) : TrM unit :=
  match fuel with
  | O => of_outcome Fault
  | S fuel' =>
    let max_data_len := EMSSH_MAX_PAYLOAD_SIZE - 9 in
    let chunk := ztake max_data_len data in
    payload ← encode (ssh_channel_data_encode recipient_channel
                        (match data with [] => None | _ => Some chunk end) (zlen chunk))
                (EMSSH_MAX_PAYLOAD_SIZE + 16);
    ssh_transport_send_protected_payload payload;;
    match zdrop max_data_len data with
    | [] => mret tt
    | rest => send_channel_data_loop fuel' recipient_channel rest
    end
  end.
Definition ssh_transport_send_channel_data (recipient_channel : Z) (data : list Z) : TrM unit :=
  send_channel_data_loop (S (length data)) recipient_channel data;;
  enter STATE_CHANNEL_DATA_SENT.

Definition ssh_transport_send_channel_window_adjust (recipient_channel bytes_to_add : Z) : TrM unit :=
  io_reject (bytes_to_add =? 0) SSH_ERR_INVALID_ARGUMENT;;
  payload ← encode (ssh_channel_window_adjust_encode recipient_channel bytes_to_add) 16;
  ssh_transport_send_protected_payload payload;;
  enter STATE_CHANNEL_WINDOW_ADJUST_SENT.

Definition send_channel_simple (recipient_channel message_id : Z) : TrM unit :=
  payload ← (if message_id =? SSH_MSG_CHANNEL_EOF then encode (ssh_channel_eof_encode recipient_channel) 16
             else if message_id =? SSH_MSG_CHANNEL_CLOSE then encode (ssh_channel_close_encode recipient_channel) 16
             else io_fail SSH_ERR_INVALID_ARGUMENT);
  ssh_transport_send_protected_payload payload;;
  enter (if message_id =? SSH_MSG_CHANNEL_EOF then STATE_CHANNEL_EOF_SENT else STATE_CHANNEL_CLOSE_SENT).
Definition ssh_transport_send_channel_eof (recipient_channel : Z) : TrM unit :=
  send_channel_simple recipient_channel SSH_MSG_CHANNEL_EOF.
Definition ssh_transport_send_channel_close (recipient_channel : Z) : TrM unit :=
  send_channel_simple recipient_channel SSH_MSG_CHANNEL_CLOSE.

Definition ssh_transport_send_channel_exit_status (recipient_channel exit_status : Z) : TrM unit :=
  payload ← encode (ssh_channel_request_exit_status_encode recipient_channel false exit_status) 32;
  ssh_transport_send_protected_payload payload.
