(* ===== verification/TransportSafe.v ===== *)
(** * The transport layer is safe

    The contract of the network and crypto callbacks, a monitor of the calls the
    transport makes, the invariant of a session, and the proof that every
    operation keeps it: no access outside an array, no callback used out of turn,
    whatever the peer sends and in whatever order the operations are called.

    The monitor remembers what the last callbacks returned.  It allows a shared
    secret to be computed only with the private key generated last, a signature
    only over the exchange hash computed last, and a key to be derived only from
    that hash and always with the same session identifier. *)

From S2P Require Import Prelude Interaction Buffer Platform Packet Codec Service Kex UserPolicy.
From S2P Require Import Userauth Connection Ident TransportState Transport.

(** ** The contract of the callbacks *)
Definition stored_ok (capacity : Z) (bs : list Z) : Prop := Forall is_byte bs /\ zlen bs <= capacity.
Definition read_ok (len : Z) (bs : list Z) : Prop := stored_ok len bs /\ bs <> [].

(** A use of the generator either fails or writes what was asked. *)
Definition rng_contract (fill : rng_fill_fn) : Prop :=
  forall n, 0 <= n -> fst (fill n) = SSH_OK -> zlen (snd (fill n)) = n /\ Forall is_byte (snd (fill n)).

Definition treply_good (c : tcall) : treply c -> Prop :=
  match c with
  | NetRead len => fun r => match r with ReadData bs => read_ok len bs | _ => True end
  | NetReadOn len => fun r => match r with FinalData bs => read_ok len bs | _ => True end
  | NetWrite _ => fun _ => True
  | RngUse => rng_contract
  | KexGenerateKeypair _ => fun '(_, public, private) =>
      stored_ok EMSSH_MAX_KEX_PUBLIC_KEY public /\ stored_ok EMSSH_MAX_KEX_PRIVATE_KEY private
  | KexComputeSharedSecret _ _ _ => fun r => stored_ok EMSSH_MAX_KEX_SHARED_SECRET (snd r)
  | HostkeyPublic _ => fun r => stored_ok EMSSH_MAX_HOST_KEY_BLOB (snd r)
  | HashExchange _ _ => fun r => stored_ok EMSSH_MAX_EXCHANGE_HASH (snd r)
  | HostkeySign _ _ => fun r => stored_ok EMSSH_MAX_SIGNATURE (snd r)
  | DeriveKey _ _ _ _ _ len => fun r => stored_ok (Z.max 0 len) (snd r)
  end.

(** ** The monitor *)
Record kex_watch : Type := mk_watch {
  w_private : option (list Z);
  w_hash : option (list Z);
  w_session_id : option (list Z)
}.
Definition kex_start : kex_watch := mk_watch None None None.

Definition kex_step (x : kex_watch) (c : tcall) : treply c -> kex_watch :=
  match c with
  | KexGenerateKeypair _ => fun r => mk_watch (Some (snd r)) (w_hash x) (w_session_id x)
  | HashExchange _ _ => fun r => mk_watch (w_private x) (Some (snd r)) (w_session_id x)
  | DeriveKey _ _ _ sid _ _ => fun _ => mk_watch (w_private x) (w_hash x) (Some sid)
  | _ => fun _ => x
  end.

Definition kex_permits (x : kex_watch) (c : tcall) : Prop :=
  match c with
  | KexComputeSharedSecret _ private _ => w_private x = Some private
  | HostkeySign _ hash => w_hash x = Some hash
  | DeriveKey _ _ hash sid key_id len =>
    hash = default [] (w_hash x) /\ sid <> [] /\ (w_session_id x = None \/ w_session_id x = Some sid) /\
    65 <= key_id <= 70 /\ len = (if key_id <? 69 then 16 else 32)
  | _ => True
  end.

Abbreviation twp := (wp kex_step kex_permits treply_good).

(** ** The invariant *)
Definition null_or_ok (v : ssh_string_view) : Prop := v = null_view \/ view_ok v.
Definition array_ok (size : Z) (b : payload_buffer) : Prop :=
  zlen (pb_data b) = size /\ Forall is_byte (pb_data b) /\ 0 <= pb_len b <= size.

Record rekey_ok (r : rekey_counters) : Prop := {
  rk_in_packets : is_u64 (inbound_rekey_packets r);
  rk_out_packets : is_u64 (outbound_rekey_packets r);
  rk_in_bytes : is_u64 (inbound_rekey_bytes r);
  rk_out_bytes : is_u64 (outbound_rekey_bytes r);
  rk_limits : is_u64 (rekey_after_packets r) /\ is_u64 (rekey_after_bytes r);
  rk_needed : r = update_rekey_needed r
}.

Definition algorithms_ok (a : ssh_kexinit_algorithm_set) : Prop :=
  Forall (fun v => view_ok v /\ ssh_name_list_is_valid v = true) (lists_of (Some a)).

(** The cipher and the MAC of the server, where it has a crypto interface. *)
Class ServerCrypto (srv : transport_server) (f : cipher_crypt_fn) (g : mac_compute_fn) : Prop := {
  sc_cipher :: StreamCipher f;
  sc_mac :: MacOk g 32;
  sc_api api : server_crypto (srv_auth srv) = Some api -> cipher_crypt api = Some f /\ mac_compute api = Some g
}.

(** ** Lemmas: packets *)

(** The generator as it behaves on one size, made total. *)
Definition rng_at (fill : rng_fill_fn) (n : Z) : rng_fill_fn := fun m =>
  if m =? n then fill n else count_rng m.

Lemma rng_at_ok fill n :
  rng_contract fill -> 0 <= n -> fst (fill n) = SSH_OK -> RngOk (rng_at fill n).
Proof.
  intros Hc Hn E. destruct (Hc n Hn E) as [Hl Hb].
  split; intros m; unfold rng_at; destruct (Z.eqb_spec m n) as [->|]; try done; first [apply rng_total|intros; by apply rng_length|apply rng_byte].
Qed.

Lemma encode_plain_rng_at cap pl b fill out :
  ssh_packet_encode_plain cap (Some pl) (zlen pl) b (Some fill) out =
  ssh_packet_encode_plain cap (Some pl) (zlen pl) b
    (Some (rng_at fill (ssh_packet_padding_len (zlen pl) b))) out.
Proof.
  unfold ssh_packet_encode_plain, put_padding, rng_at. cbv zeta. by rewrite Z.eqb_refl.
Qed.

(** The generator fails: so does the encoder, after the payload was written. *)
Lemma encode_plain_rng_fails cap pl b fill out :
  Forall is_byte pl -> zlen pl <= EMSSH_MAX_PAYLOAD_SIZE -> normalized_block_size b <= 252 ->
  zlen pl + 5 + 256 <= cap <= zlen out ->
  fst (fill (ssh_packet_padding_len (zlen pl) b)) <> SSH_OK ->
  exists m, ssh_packet_encode_plain cap (Some pl) (zlen pl) b (Some fill) (Some out) = (Err SSH_ERR_PLATFORM, m).
Proof.
  intros Hb Hl Hbs Hcap Hf. pose proof (zlen_nonneg pl). unfold EMSSH_MAX_PAYLOAD_SIZE in Hl.
  destruct (padding_len_spec (zlen pl) b) as [Hp _]; [lia..|].
  unfold ssh_packet_encode_plain. rewrite (bind_ret _ _ _ tt (Some out)) by done.
  rewrite (bind_ret _ _ _ tt (Some out)) by (apply reject_false; unfold EMSSH_MAX_PAYLOAD_SIZE; lia).
  set (p := ssh_packet_padding_len (zlen pl) b) in *. cbv zeta. unfold u64, u32, u8.
  rewrite !Z.mod_small by lia. rewrite (bind_ret _ _ _ tt (Some out)) by (apply reject_false; lia).
  unfold with_writer, ssh_buffer_init, uninit_buffer.
  change (mk_ssh_buffer (Some out) cap 0 0) with (Bf [] [] out cap).
  pose proof (emits_bind _ _ _ _ (emits_u32 (1 + zlen pl + p)) (emits_bind _ _ _ _
    (emits_u8 p ltac:(unfold is_byte; lia)) (emits_put_bytes pl Hb))) as E.
  assert (forall q : BufM Z, (ssh_buffer_put_u32 (1 + zlen pl + p);; ssh_buffer_put_u8 p;;
     ssh_buffer_put_bytes (Some pl) (zlen pl);; q) (Some (Bf [] [] out cap)) =
     q (Some (Bf [] (be_bytes 4 (1 + zlen pl + p) ++ [p] ++ pl) (zdrop (5 + zlen pl) out) cap))) as ->.
  { intros q. rewrite <- !bind_assoc. erewrite bind_ret; [reflexivity|].
    rewrite bind_assoc, (emits_fits _ _ E) by (unfold room_ok; len_lia). do 4 f_equal. len_lia. }
  replace (negb (p =? 0)) with true by lia. unfold put_padding.
  destruct (fill p) as [st bytes]. cbn [fst] in Hf. erewrite bind_err; [by eauto|].
  erewrite bind_err; [reflexivity|]. apply reject_true. by rewrite bool_decide_false.
Qed.

(** The protected encoder sees the generator only through the plain one. *)
Lemma encode_protected_refused p pl rng mem e m :
  prot_active p = true ->
  ssh_packet_encode_plain packet_array (Some pl) (zlen pl) (prot_block_size p) rng (Some mem) = (Err e, m) ->
  ssh_packet_encode_protected packet_array (Some pl) (zlen pl) rng (mk_packet_io p (Some mem)) =
    (Err e, mk_packet_io p m).
Proof.
  intros Ha E. unfold ssh_packet_encode_protected. set (st := mk_packet_io p (Some mem)).
  rewrite (bind_ret _ _ st p st), (bind_ret _ _ st st st), (bind_ret _ _ st tt st) by (by rewrite ?Ha).
  apply bind_err. unfold on_mem, st. cbn [io_mem io_prot]. by rewrite E.
Qed.

Lemma encode_protected_same p pl rng rng' mem :
  prot_active p = true ->
  ssh_packet_encode_plain packet_array (Some pl) (zlen pl) (prot_block_size p) rng (Some mem) =
    ssh_packet_encode_plain packet_array (Some pl) (zlen pl) (prot_block_size p) rng' (Some mem) ->
  ssh_packet_encode_protected packet_array (Some pl) (zlen pl) rng (mk_packet_io p (Some mem)) =
    ssh_packet_encode_protected packet_array (Some pl) (zlen pl) rng' (mk_packet_io p (Some mem)).
Proof.
  intros Ha E. unfold ssh_packet_encode_protected. set (st := mk_packet_io p (Some mem)).
  rewrite !(bind_ret _ _ st p st), !(bind_ret _ _ st st st), !(bind_ret _ _ st tt st) by (by rewrite ?Ha).
  unfold mbind at 1 6, prog_bind at 1 6, on_mem, st. cbn [io_mem io_prot]. by rewrite E.
Qed.

(** Every payload is framed or refused. *)
Lemma encode_plain_cases pl b rng :
  Forall is_byte pl -> normalized_block_size b <= 252 ->
  match rng with Some fill => rng_contract fill | None => True end ->
  (exists e m, ssh_packet_encode_plain packet_array (Some pl) (zlen pl) b rng (Some (zeros packet_array)) = (Err e, m)) \/
  zlen pl <= EMSSH_MAX_PAYLOAD_SIZE /\
  exists rng', rng_usable rng' /\
    ssh_packet_encode_plain packet_array (Some pl) (zlen pl) b rng (Some (zeros packet_array)) =
    ssh_packet_encode_plain packet_array (Some pl) (zlen pl) b rng' (Some (zeros packet_array)).
Proof.
  intros Hb Hbs Hr. destruct (Z.le_gt_cases (zlen pl) EMSSH_MAX_PAYLOAD_SIZE) as [Hl|Hl].
  2: { left. unfold ssh_packet_encode_plain. rewrite (bind_ret _ _ _ tt (Some (zeros packet_array))) by done.
       erewrite bind_err; [by eauto|]. apply reject_true. lia. }
  destruct rng as [fill|]; [|right; split; [done|]; by exists None].
  pose proof (zlen_nonneg pl).
  destruct (padding_len_spec (zlen pl) b) as [Hp _]; [unfold EMSSH_MAX_PAYLOAD_SIZE in *; lia..|].
  destruct (decide (fst (fill (ssh_packet_padding_len (zlen pl) b)) = SSH_OK)) as [E|E].
  - right. split; [done|]. exists (Some (rng_at fill (ssh_packet_padding_len (zlen pl) b))).
    split; [apply rng_at_ok; [done|lia|done]|apply encode_plain_rng_at].
  - left. destruct (encode_plain_rng_fails packet_array pl b fill (zeros packet_array)) as [m Em]; [done|done|done| |done|by eauto].
    rewrite zlen_zeros by done. unfold EMSSH_MAX_PAYLOAD_SIZE in Hl. unfold packet_array, EMSSH_MAX_PACKET_SIZE, EMSSH_MAX_MAC. lia.
Qed.

Section safe.
Context (srv : transport_server) (f : cipher_crypt_fn) (g : mac_compute_fn) `{!ServerCrypto srv f g}.

Definition prot_ok (p : ssh_packet_protection) : Prop :=
  is_u32 (prot_sequence p) /\
  (prot_active p = true -> prot_uses p f g /\ prot_mac_len p = 32 /\ prot_block_size p = 16).

Record material_ok (m : kex_material) : Prop := {
  mo_client_public : stored_ok EMSSH_MAX_KEX_PUBLIC_KEY (client_kex_public_key m);
  mo_server_public : stored_ok EMSSH_MAX_KEX_PUBLIC_KEY (server_kex_public_key m);
  mo_server_private : stored_ok EMSSH_MAX_KEX_PRIVATE_KEY (server_kex_private_key m);
  mo_secret : stored_ok EMSSH_MAX_KEX_SHARED_SECRET (shared_secret m);
  mo_hash : stored_ok EMSSH_MAX_EXCHANGE_HASH (exchange_hash m);
  mo_host_key : stored_ok EMSSH_MAX_HOST_KEY_BLOB (TransportState.server_host_key m);
  mo_signature : stored_ok EMSSH_MAX_SIGNATURE (server_signature m)
}.

Record session_ok (s : transport_session) : Prop := {
  so_server : t_server s = srv;
  so_server_raw : null_or_ok (id_raw (t_server_identification s));
  so_client_raw : null_or_ok (id_raw (t_client_identification s));
  so_line : array_ok (EMSSH_MAX_IDENTIFICATION_LINE + 2) (t_client_identification_line s);
  so_algorithms : algorithms_ok (t_server_algorithms s);
  so_server_kexinit : array_ok EMSSH_MAX_KEXINIT_PAYLOAD (t_server_kexinit_payload s);
  so_client_kexinit : array_ok EMSSH_MAX_KEXINIT_PAYLOAD (t_client_kexinit_payload s);
  so_in_sequence : is_u32 (t_inbound_sequence s);
  so_out_sequence : is_u32 (t_outbound_sequence s);
  so_rekey : rekey_ok (t_rekey s);
  so_material : material_ok (t_material s);
  so_session_id : stored_ok EMSSH_MAX_EXCHANGE_HASH (t_session_id s);
  so_inbound : prot_ok (t_inbound s);
  so_outbound : prot_ok (t_outbound s)
}.

(** The session and what the monitor remembers agree. *)
Record watched (s : transport_session) (x : kex_watch) : Prop := {
  wa_private : server_kex_private_key (t_material s) = default [] (w_private x);
  wa_hash : exchange_hash (t_material s) = default [] (w_hash x);
  wa_session_id sid : w_session_id x = Some sid -> t_session_id s = sid /\ sid <> []
}.

(** What no operation undoes. *)
Record evolves (s s' : transport_session) : Prop := {
  ev_session_id : t_session_id s <> [] -> t_session_id s' = t_session_id s;
  ev_inbound : prot_active (t_inbound s) = true -> prot_active (t_inbound s') = true;
  ev_outbound : prot_active (t_outbound s) = true -> prot_active (t_outbound s') = true
}.

#[export] Instance evolves_preorder : PreOrder evolves.
Proof.
  split.
  - intros s. by split.
  - intros s1 s2 s3 [A1 A2 A3] [B1 B2 B3]. split; [|auto..].
    intros H. rewrite B1; rewrite A1; done.
Qed.

(** The triple of an operation: from a good session that satisfies [P] it ends
    in a good session without a fault, makes only permitted calls, and its value
    satisfies [Q]. *)
Definition ends {A} (s : transport_session) (Q : A -> Prop)
    : outcome A * transport_session -> kex_watch -> Prop := fun '(o, s') y =>
  session_ok s' /\ watched s' y /\ evolves s s' /\
  match o with Ret a => Q a | Err _ => True | Fault => False end.

Definition safe {A} (P : transport_session -> Prop) (p : TrM A) (Q : A -> Prop) : Prop :=
  forall s x, session_ok s -> watched s x -> P s -> twp (p s) (ends s Q) x.

Class Stable (P : transport_session -> Prop) : Prop :=
  stable s s' : evolves s s' -> P s -> P s'.
Definition always (s : transport_session) : Prop := True.
Definition has_id (s : transport_session) : Prop := t_session_id s <> [].

#[export] Instance always_stable : Stable always.
Proof. by intros s s' _ _. Qed.
#[export] Instance has_id_stable : Stable has_id.
Proof. intros s s' E H. unfold has_id. by rewrite (ev_session_id _ _ E). Qed.

Lemma ends_trans {A} s1 s2 (Q : A -> Prop) r y : evolves s1 s2 -> ends s2 Q r y -> ends s1 Q r y.
Proof.
  destruct r as [o s3]. intros E (H1 & H2 & H3 & H4). split_and!; try done. by transitivity s2.
Qed.

Section rules.
Context {P : transport_session -> Prop} `{!Stable P}.

Lemma safe_bind {A B} (p : TrM A) (k : A -> TrM B) Q R :
  safe P p Q -> (forall a, Q a -> safe P (k a) R) -> safe P (a ← p; k a) R.
Proof.
  intros Hp Hk s x Hs Hx HP. apply wp_mbind. eapply wp_conseq; [by apply (Hp s x)|].
  intros [o s'] y (Hs' & Hy & He & Ho). destruct o as [a|e|]; [|done|done].
  eapply wp_conseq; [apply (Hk a Ho s' y Hs' Hy (stable _ _ He HP))|]. intros r z. by apply ends_trans.
Qed.

Lemma safe_conseq {A} (p : TrM A) (Q R : A -> Prop) : safe P p Q -> (forall a, Q a -> R a) -> safe P p R.
Proof.
  intros Hp HQ s x Hs Hx HP. eapply wp_conseq; [by apply (Hp s x)|].
  intros [[a|e|] s'] y (? & ? & ? & Ho); split_and!; try done. by apply HQ.
Qed.

Lemma safe_weaken {A} (p : TrM A) Q : safe always p Q -> safe P p Q.
Proof. intros Hp s x Hs Hx _. by apply Hp. Qed.

Lemma safe_outcome {A} (o : outcome A) (Q : A -> Prop) :
  match o with Ret a => Q a | Err _ => True | Fault => False end -> safe P (of_outcome o) Q.
Proof. intros Ho s x Hs Hx _. split_and!; done. Qed.

Lemma safe_ret {A} (a : A) (Q : A -> Prop) : Q a -> safe P (mret a) Q.
Proof. apply (safe_outcome (Ret a)). Qed.

Lemma safe_fail {A} e (Q : A -> Prop) : safe P (io_fail e) Q.
Proof. by apply (safe_outcome (Err e)). Qed.

Lemma safe_reject c e (Q : unit -> Prop) : (c = false -> Q tt) -> safe P (io_reject c e) Q.
Proof. intros H. destruct c; [apply safe_fail|by apply safe_ret, H]. Qed.

Lemma safe_check st (Q : unit -> Prop) : Q tt -> safe P (check st) Q.
Proof. intros H. unfold check. destruct (status_bad st); [apply safe_fail|by apply safe_ret]. Qed.

Lemma safe_stored cap bs (Q : unit -> Prop) : zlen bs <= cap -> Q tt -> safe P (stored cap bs) Q.
Proof. intros H HQ. unfold stored. rewrite (proj2 (Z.leb_le _ _)) by done. by apply safe_ret. Qed.

Lemma safe_get {A} (h : transport_session -> A) (Q : A -> Prop) :
  (forall s, session_ok s -> P s -> Q (h s)) -> safe P (io_get h) Q.
Proof. intros H s x Hs Hx HP. split_and!; try done. by apply H. Qed.

Lemma safe_modify (h : transport_session -> transport_session) :
  (forall s, session_ok s -> P s -> session_ok (h s) /\ evolves s (h s) /\ t_session_id (h s) = t_session_id s /\
     server_kex_private_key (t_material (h s)) = server_kex_private_key (t_material s) /\
     exchange_hash (t_material (h s)) = exchange_hash (t_material s)) ->
  safe P (io_modify h) (fun _ => True).
Proof.
  intros H s x Hs Hx HP. destruct (H s Hs HP) as (H1 & H2 & H3 & H4 & H5). split_and!; try done.
  destruct Hx as [W1 W2 W3]. split; rewrite ?H3, ?H4, ?H5; done.
Qed.

Lemma safe_attempt {A} (p : TrM A) Q :
  safe P p Q -> safe P (attempt p) (fun r => match r with inl _ => True | inr a => Q a end).
Proof.
  intros Hp s x Hs Hx HP. apply wp_attempt. eapply wp_conseq; [by apply (Hp s x)|].
  by intros [[a|e|] s'] y (? & ? & ? & ?).
Qed.

(** A callback the monitor does not watch. *)
Definition unwatched (c : tcall) : Prop :=
  (forall x, kex_permits x c) /\ forall x r, kex_step x c r = x.

Lemma safe_perform c : unwatched c -> safe P (perform c) (treply_good c).
Proof.
  intros [H1 H2] s x Hs Hx _. split; [apply H1|]. intros r Hr. cbn [wp]. rewrite H2. split_and!; done.
Qed.

Lemma safe_if {A} (b : bool) (p q : TrM A) Q :
  (b = true -> safe P p Q) -> (b = false -> safe P q Q) -> safe P (if b then p else q) Q.
Proof. destruct b; auto. Qed.
End rules.

(** ** Assignments that keep the invariant *)
Ltac keep :=
  let st := fresh "st" in let Hst := fresh "Hst" in
  apply safe_modify; intros st Hst _; pose proof Hst as [];
  split_and!; [split; cbn; try assumption|split; cbn; try done|try done..].

Lemma add_saturating_ok a b : is_u64 a -> 0 <= b -> is_u64 (add_u64_saturating a b).
Proof. unfold is_u64, add_u64_saturating, UINT64_MAX. intros. case_bool; lia. Qed.

Lemma rekey_record_ok d n r : rekey_ok r -> 0 <= n -> rekey_ok (record_rekey_packet d n r).
Proof.
  intros [? ? ? ? ? ?] Hn. unfold record_rekey_packet, update_rekey_needed.
  destruct d; split; cbn; try done; by apply add_saturating_ok.
Qed.

Lemma rekey_reset_ok d r : rekey_ok r -> rekey_ok (reset_rekey_direction d r).
Proof. intros [? ? ? ? ? ?]. unfold reset_rekey_direction, update_rekey_needed. by destruct d; split; cbn. Qed.

Lemma safe_enter v : safe always (enter v) (fun _ => True).
Proof. keep. Qed.

Lemma safe_record d n : 0 <= n -> safe always (io_modify (on_rekey (record_rekey_packet d n))) (fun _ => True).
Proof. intros Hn. keep. by apply rekey_record_ok. Qed.

Lemma safe_set_prot (outbound : bool) p :
  prot_ok p -> prot_active p = true -> safe always (io_modify (set_prot_of outbound p)) (fun _ => True).
Proof. intros Hp Ha. destruct outbound; keep. Qed.

(** ** The network *)
Lemma safe_net_read_rest fuel remaining :
  remaining <= Z.of_nat fuel ->
  safe always (net_read_rest fuel remaining) (fun bs => Forall is_byte bs /\ zlen bs = Z.max 0 remaining).
Proof.
  revert remaining. induction fuel as [|fuel IH]; intros remaining Hr; cbn [net_read_rest];
    (destruct (remaining <=? 0) eqn:E; [apply safe_ret; rewrite zlen_nil; split; [done|lia]|]); [lia|].
  eapply safe_bind; [by apply (safe_perform (NetReadOn remaining))|]. intros [| |bs] Hb; try apply safe_fail.
  cbn in Hb. destruct Hb as [[Hb Hl] Hn]. apply nonempty_eqb in Hn. pose proof (zlen_nonneg bs).
  eapply safe_bind; [by apply (safe_stored _ _ (fun _ => True))|]. intros _ _.
  eapply safe_bind; [apply IH; lia|]. intros rest [Hrb Hrl]. apply safe_ret.
  split; [by apply Forall_app_2|]. rewrite zlen_app. lia.
Qed.

Lemma safe_net_read len :
  safe always (net_read_exact len) (fun bs => Forall is_byte bs /\ zlen bs = Z.max 0 len).
Proof.
  unfold net_read_exact. eapply safe_bind; [by apply (safe_get _ (fun _ => True))|]. intros readable _.
  eapply safe_bind; [by apply (safe_reject _ _ (fun _ => True))|]. intros _ _.
  destruct (len <=? 0) eqn:E; [apply safe_ret; rewrite zlen_nil; split; [done|lia]|].
  eapply safe_bind; [by apply (safe_perform (NetRead len))|]. intros [| | |bs] Hb; try apply safe_fail.
  cbn in Hb. destruct Hb as [[Hb Hl] Hn]. apply nonempty_eqb in Hn. pose proof (zlen_nonneg bs).
  eapply safe_bind; [by apply (safe_stored _ _ (fun _ => True))|]. intros _ _.
  eapply safe_bind; [apply safe_net_read_rest; lia|]. intros rest [Hrb Hrl]. apply safe_ret.
  split; [by apply Forall_app_2|]. rewrite zlen_app. lia.
Qed.

Lemma safe_net_write_loop fuel data :
  (length data <= fuel)%nat -> safe always (net_write_loop fuel data) (fun _ => True).
Proof.
  revert data. induction fuel as [|fuel IH]; intros [|b data] Hl; cbn [net_write_loop];
    try (by apply safe_ret); [cbn in Hl; lia|].
  eapply safe_bind; [by apply (safe_perform (NetWrite (b :: data)))|]. intros n _.
  eapply safe_bind; [apply (safe_reject _ _ (fun _ => n <> 0)); lia|]. intros [] Hn.
  eapply safe_bind; [apply (safe_reject _ _ (fun _ => 0 <= n)); lia|]. intros [] Hn'.
  apply IH. unfold zdrop. rewrite length_drop. cbn in *. lia.
Qed.

Lemma safe_net_write data : safe always (net_write_all data) (fun _ => True).
Proof.
  unfold net_write_all. eapply safe_bind; [by apply (safe_get _ (fun _ => True))|]. intros w _.
  eapply safe_bind; [by apply (safe_reject _ _ (fun _ => True))|]. intros _ _. by apply safe_net_write_loop.
Qed.

Lemma safe_use_rng :
  safe always use_rng (fun rng => match rng with Some fill => rng_contract fill | None => True end).
Proof.
  unfold use_rng. eapply safe_bind; [by apply (safe_get _ (fun _ => True))|]. intros [] _; [|by apply safe_ret].
  eapply safe_bind; [by apply (safe_perform RngUse)|]. intros fill Hf. by apply safe_ret.
Qed.

(** ** Packets *)

(** One step of an operation: a state access or a test, whose result carries no
    information that is needed. *)
Ltac tstep :=
  cbv zeta;
  lazymatch goal with
  | |- safe _ (mbind _ (io_get _)) _ => eapply safe_bind; [by apply (safe_get _ (fun _ => True))|intros ? _]
  | |- safe _ (mbind _ (io_reject ?c _)) _ =>
    let H := fresh "Hc" in
    eapply safe_bind; [by apply (safe_reject c _ (fun _ => c = false))|intros [] H]
  end.

Lemma prot_ok_next p n : prot_ok p -> prot_active p = true -> 0 <= n < 2 ^ 63 ->
  prot_ok (prot_next p n) /\ prot_active (prot_next p n) = true.
Proof.
  intros [_ Hp] Ha Hn. destruct (Hp Ha) as (U & Hm & Hb).
  pose proof (prot_uses_next p f g n U Hn) as U'. destruct (prot_next_same p n) as (E1 & E2 & _).
  split; [|by apply (uses_active _ _ _ U')]. split; [apply (uses_seq _ _ _ U')|]. intros _.
  rewrite E1, E2. by split_and!.
Qed.

(** The encoder on any payload of bytes: a refusal, or the sealed packet. *)
Lemma encode_protected_cases p pl rng :
  prot_ok p -> prot_active p = true -> Forall is_byte pl ->
  match rng with Some fill => rng_contract fill | None => True end ->
  let r := ssh_packet_encode_protected packet_array (Some pl) (zlen pl) rng
             (mk_packet_io p (Some (zeros packet_array))) in
  (exists e, fst r = Err e /\ io_prot (snd r) = p) \/
  exists rng', rng_usable rng' /\ payload_ok pl /\
    fst r = Ret (zlen (seal f g p (framed p pl rng'))) /\
    io_prot (snd r) = prot_next p (zlen (framed p pl rng')) /\
    packet_of (zlen (seal f g p (framed p pl rng'))) (io_mem (snd r)) = seal f g p (framed p pl rng').
Proof.
  intros [_ Hp] Ha Hb Hr r. destruct (Hp Ha) as (U & Hm & Hbs).
  assert (normalized_block_size (prot_block_size p) <= 252) as Hn by (rewrite Hbs; by vm_compute).
  destruct (encode_plain_cases pl (prot_block_size p) rng Hb Hn Hr) as [(e & m & E)|(Hl & rng' & Hr' & E)].
  - left. exists e. unfold r. by rewrite (encode_protected_refused _ _ _ _ _ _ Ha E).
  - right. exists rng'. assert (payload_ok pl) as Hpl by done.
    assert (prot_block_size p <= 252) as Hbs' by (rewrite Hbs; done).
    destruct (framed_facts f g p U pl rng' Hpl Hr' Hbs') as (_ & _ & _ & Hd).
    assert (MacOk g (prot_mac_len p)) as Hg by (rewrite Hm; apply _).
    pose proof (encode_protected_eq f g p U packet_array pl rng' (zeros packet_array) Hpl Hr' Hbs') as E'.
    cbv zeta in E'. rewrite Hm, zlen_zeros in E' by done.
    specialize (E' ltac:(split; [change packet_array with 35068; lia|lia])).
    unfold r. rewrite (encode_protected_same _ _ _ _ _ Ha E), E'. split_and!; [done..|].
    cbn [snd io_mem]. unfold packet_of. cbn [from_option id]. apply ztake_app.
Qed.

Lemma safe_send_protected pl :
  Forall is_byte pl -> safe always (ssh_transport_send_protected_payload pl) (fun _ => True).
Proof.
  intros Hb. unfold ssh_transport_send_protected_payload.
  eapply safe_bind; [apply (safe_get _ prot_ok); by intros s [] _|]. intros p Hp. tstep.
  apply negb_false_iff in Hc. eapply safe_bind; [apply safe_use_rng|]. intros rng Hr.
  pose proof (encode_protected_cases p pl rng Hp Hc Hb Hr) as Hcases. cbv zeta in Hcases.
  destruct (ssh_packet_encode_protected _ _ _ _ _) as [o io]. cbn [fst snd] in Hcases.
  destruct Hcases as [(e & -> & ->)|(rng' & Hr' & Hpl & -> & -> & Hio)].
  { eapply safe_bind; [by apply (safe_set_prot true)|]. intros _ _.
    eapply safe_bind; [by apply (safe_outcome (Err e) (fun _ => False))|]. by intros ? []. }
  pose proof (framed_facts f g p) as Hf. destruct (proj2 Hp Hc) as (U & Hm & Hbs).
  assert (MacOk g (prot_mac_len p)) as Hg by (rewrite Hm; apply _).
  destruct (Hf U pl rng' Hpl Hr' ltac:(lia)) as (_ & _ & _ & Hd).
  destruct (prot_ok_next p (zlen (framed p pl rng')) Hp Hc ltac:(lia)) as [Hp' Ha'].
  eapply safe_bind; [by apply (safe_set_prot true)|]. intros _ _.
  eapply safe_bind; [by apply (safe_outcome (Ret _) (fun n => n = zlen (seal f g p (framed p pl rng'))))|].
  intros n ->. eapply safe_bind; [apply safe_net_write|]. intros _ _.
  eapply safe_bind; [|intros _ _; apply safe_record; apply zlen_nonneg].
  keep. apply (proj1 so_outbound0).
Qed.

Lemma safe_send_transport pl :
  Forall is_byte pl -> safe always (send_transport_payload pl) (fun _ => True).
Proof.
  intros Hb. unfold send_transport_payload. tstep. apply safe_if; intros _; [by apply safe_send_protected|].
  eapply safe_bind; [apply safe_use_rng|]. intros rng Hr.
  destruct (encode_plain_cases pl SSH_PACKET_MIN_BLOCK_SIZE rng Hb ltac:(by vm_compute) Hr)
    as [(e & m & E)|(Hl & rng' & Hr' & E)]; rewrite E; clear E.
  { eapply safe_bind; [by apply (safe_outcome (Err e) (fun _ => False))|]. by intros ? []. }
  pose proof (encode_plain_ok packet_array pl SSH_PACKET_MIN_BLOCK_SIZE rng' (zeros packet_array) Hb Hl
    ltac:(by vm_compute) Hr') as E. cbv zeta in E. set (d := plain_packet pl _) in E.
  assert (zlen d <= packet_array) as Hd.
  { unfold d. rewrite zlen_plain_packet.
    destruct (padding_len_spec (zlen pl) SSH_PACKET_MIN_BLOCK_SIZE) as [Hp _];
      [apply zlen_nonneg|unfold EMSSH_MAX_PAYLOAD_SIZE in Hl; lia|by vm_compute|].
    change (normalized_block_size SSH_PACKET_MIN_BLOCK_SIZE) with 8 in Hp.
    rewrite (proj1 (padding_bytes_ok rng' (ssh_packet_padding_len (zlen pl) SSH_PACKET_MIN_BLOCK_SIZE) Hr' ltac:(lia))).
    change packet_array with 35068. unfold EMSSH_MAX_PAYLOAD_SIZE in Hl. lia. }
  rewrite E by (rewrite zlen_zeros by done; lia).
  eapply safe_bind; [by apply (safe_outcome (Ret (zlen d)) (fun n => True))|]. intros n _.
  eapply safe_bind; [apply safe_net_write|]. intros _ _. keep. unfold u32, is_u32. apply Z.mod_pos_bound. lia.
Qed.

Lemma read_u32_be_ok bs : Forall is_byte bs -> 4 <= zlen bs -> is_u32 (read_u32_be bs).
Proof.
  intros Hb Hl. destruct (zsplit bs 4) as (a & b & -> & Ha); [lia|]. apply Forall_app in Hb as [Hb _].
  change (read_u32_be (a ++ b)) with (packet_length_field (a ++ b)). rewrite packet_length_field_app by done.
  pose proof (be_value_bound a Hb). rewrite Ha in *. unfold is_u32. lia.
Qed.

(** A copy into a caller's array that respects its size. *)
Definition delivers (deliver : list Z -> transport_session -> transport_session) (capacity : Z) : Prop :=
  forall pl, stored_ok capacity pl -> safe always (io_modify (deliver pl)) (fun _ => True).

Lemma to_local_delivers capacity : delivers to_local capacity.
Proof. intros pl _. unfold to_local. keep. Qed.

Lemma to_client_kexinit_delivers : delivers to_client_kexinit EMSSH_MAX_KEXINIT_PAYLOAD.
Proof.
  intros pl [Hb Hl]. unfold to_client_kexinit. keep. destruct so_client_kexinit0 as (H1 & H2 & H3).
  pose proof (zlen_nonneg pl). split_and!; cbn; [|apply Forall_app_2; [done|by apply Forall_drop]|lia..].
  rewrite zlen_app, zlen_zdrop by lia. lia.
Qed.

Lemma safe_receive_protected deliver cap :
  delivers deliver cap ->
  safe always (ssh_transport_receive_protected_payload deliver cap) (stored_ok cap).
Proof.
  intros Hd. unfold ssh_transport_receive_protected_payload.
  eapply safe_bind; [apply (safe_get _ prot_ok); by intros s [] _|]. intros p Hp. tstep.
  apply negb_false_iff in Hc. destruct (proj2 Hp Hc) as (U & Hm & Hbs). rewrite Hbs, Hm. tstep.
  assert (MacOk g (prot_mac_len p)) as Hg by (rewrite Hm; apply _).
  eapply safe_bind; [apply safe_net_read|]. intros head [Hhb Hhl]. rewrite Z.max_r in Hhl by lia.
  pose proof (call_cipher_uses f g p U head [] 16 SSH_CIPHER_DECRYPT (eq_sym Hhl)) as E. rewrite !app_nil_r in E.
  rewrite E. clear E. eapply safe_bind; [by apply (safe_outcome (Ret SSH_OK) (fun st => st = SSH_OK))|].
  intros st ->. tstep. cbn [io_mem from_option id].
  assert (is_u32 (read_u32_be (run_cipher f p SSH_CIPHER_DECRYPT head))) as Hu.
  { apply read_u32_be_ok; [by apply cipher_byte|]. unfold run_cipher. rewrite cipher_length. lia. }
  set (n := read_u32_be _) in *. unfold is_u32 in Hu.
  do 2 tstep. eapply safe_bind; [apply safe_net_read|]. intros tail [Htb Htl]. rewrite Z.max_r in Htl by bool_lia.
  destruct (zsplit (head ++ tail) (n + 4)) as (d & m & Edm & Hdl); [rewrite zlen_app; bool_lia|].
  assert (zlen m = 32) as Hml by (assert (zlen (head ++ tail) = zlen (d ++ m)) by (by rewrite Edm); len_lia).
  rewrite Edm. replace (n + 4 + 32) with (zlen (d ++ m)) by len_lia.
  assert (Forall is_byte (d ++ m)) as Hdm by (rewrite <- Edm; by apply Forall_app_2).
  destruct (decode_protected_total f g p d m _ U Hg Hdm ltac:(lia)) as [(e & E)|(pl & mem' & E & Hpl & Hdd)];
    rewrite E; clear E; cbn [io_prot].
  { eapply safe_bind; [by apply (safe_set_prot false)|]. intros _ _.
    eapply safe_bind; [by apply (safe_outcome (Err e) (fun _ => False))|]. by intros ? []. }
  destruct (prot_ok_next p (zlen d) Hp Hc) as [Hp' Ha']; [unfold EMSSH_MAX_PACKET_SIZE in Hdd; lia|].
  eapply safe_bind; [by apply (safe_set_prot false)|]. intros _ _.
  eapply safe_bind; [by apply (safe_outcome (Ret _) (fun v => v = mk_packet_view pl (zlen pl)))|].
  intros v ->. cbn [payload_len payload]. tstep.
  assert (stored_ok cap pl) as Hst by (split; [done|lia]).
  eapply safe_bind; [by apply Hd|]. intros _ _.
  eapply safe_bind; [keep; apply (proj1 so_inbound0)|]. intros _ _.
  eapply safe_bind; [apply safe_record; apply zlen_nonneg|]. intros _ _. by apply safe_ret.
Qed.

Lemma safe_receive_plain deliver cap :
  delivers deliver cap -> safe always (receive_plain_packet deliver cap) (stored_ok cap).
Proof.
  intros Hd. unfold receive_plain_packet. eapply safe_bind; [apply safe_net_read|].
  intros header [Hhb Hhl]. rewrite Z.max_r in Hhl by lia. cbv zeta.
  pose proof (read_u32_be_ok header Hhb ltac:(lia)) as Hu. set (n := read_u32_be header) in *.
  unfold is_u32 in Hu. tstep. eapply safe_bind; [apply safe_net_read|]. intros body [Hbb Hbl].
  rewrite Z.max_r in Hbl by lia. assert (Forall is_byte (header ++ body)) as Hall by (by apply Forall_app_2).
  pose proof (decode_plain_cases (header ++ body) (n + 4) Hall ltac:(len_lia)) as Hcase.
  eapply safe_bind.
  { apply (safe_outcome _ (fun v => exists pl, v = mk_packet_view pl (zlen pl) /\ Forall is_byte pl)).
    destruct (ssh_packet_decode_plain _ _); try done.
    destruct Hcase as (pl & pad & rest & Eq & _ & -> & _). exists pl. split; [done|]. rewrite Eq in Hall.
    apply Forall_app in Hall as [Hq _]. unfold plain_packet in Hq. rewrite !Forall_app in Hq.
    by destruct Hq as (_ & _ & ? & _). }
  intros v (pl & -> & Hpl). cbn [payload_len payload]. tstep.
  assert (stored_ok cap pl) as Hst by (split; [done|lia]).
  eapply safe_bind; [by apply Hd|]. intros _ _.
  eapply safe_bind; [keep; unfold u32, is_u32; apply Z.mod_pos_bound; lia|]. intros _ _. by apply safe_ret.
Qed.

Lemma safe_receive_transport deliver cap :
  delivers deliver cap -> safe always (receive_transport_payload deliver cap) (stored_ok cap).
Proof.
  intros Hd. unfold receive_transport_payload. tstep.
  apply safe_if; intros _; [by apply safe_receive_protected|by apply safe_receive_plain].
Qed.

(** ** Messages *)

(** An encoder that stays inside its array and writes bytes, or fails. *)
Definition tame (p : BufM unit) : Prop := forall cap, 0 <= cap ->
  match encode_into p (zeros cap) cap with
  | Ret bs => stored_ok cap bs
  | Err _ => True
  | Fault => False
  end.

Lemma tame_emits p bs : emits p bs -> tame p.
Proof.
  intros Hp cap Hc. destruct (Z.le_gt_cases (zlen bs) cap).
  - rewrite (emits_encode_into p bs) by (try done; rewrite zlen_zeros; lia). by split; [apply Hp|].
  - by rewrite (emits_encode_overflow p bs) by (try done; rewrite zlen_zeros; lia).
Qed.

Lemma tame_reject c e p : (c = false -> tame p) -> tame (reject c e;; p).
Proof. intros Hp cap Hc. destruct c; [done|]. by apply Hp. Qed.

Lemma tame_buffer p : tame p -> tame (require_buffer;; p).
Proof. intros Hp cap Hc. by apply Hp. Qed.

Lemma safe_encode p cap : tame p -> 0 <= cap -> safe always (encode p cap) (stored_ok cap).
Proof. intros Hp Hc. apply safe_outcome. by apply Hp. Qed.

Lemma safe_decode {A} (d : BufM A) Q bs :
  decodes d Q -> Forall is_byte bs ->
  safe always (decode d bs) (fun a => exists u1 u2, bs = u1 ++ u2 /\ Q a u1 u2).
Proof.
  intros Hd Hb. apply safe_outcome. pose proof (decodes_no_fault d Q bs Hd Hb).
  destruct (decode_from d bs) eqn:E; try done. by apply (decodes_decode_from d Q).
Qed.

Lemma safe_decode_message {A} (d : BufM A) ok bytes `{!Message d ok bytes} bs :
  Forall is_byte bs -> safe always (decode d bs) ok.
Proof.
  intros Hb. eapply safe_conseq; [apply (safe_decode d _ bs message_decodes Hb)|].
  by intros a (u1 & u2 & _ & _ & Ha & _).
Qed.

(** ** The version exchange *)
Lemma parse_line_ident line i0 :
  let '(o, i) := ssh_identification_parse_line (Some line) i0 in
  o <> Fault /\ null_or_ok (id_raw i).
Proof.
  destruct (parse_line_refused line i0) as [(p & sw & c & e & -> & He & Hf)|E].
  - rewrite (parse_line_fields p sw c e i0 Hf He). split; [done|]. right. unfold ident_of. cbn [id_raw].
    destruct Hf as [Hc Hl _ _]. apply view_ok_of.
    + eapply Forall_impl; [|exact Hc]. unfold is_byte. cbn. lia.
    + unfold EMSSH_MAX_IDENTIFICATION_LINE, UINT32_MAX in *. lia.
  - rewrite E. split; [done|]. by left.
Qed.

Lemma safe_parse_into line (h : ssh_identification -> transport_session -> transport_session) i0 :
  (forall i, null_or_ok (id_raw i) -> safe always (io_modify (h i)) (fun _ => True)) ->
  forall (k : TrM unit), safe always k (fun _ => True) ->
  safe always (let '(o, i) := ssh_identification_parse_line (Some line) i0 in
               io_modify (h i);; of_outcome o;; k) (fun _ => True).
Proof.
  intros Hh k Hk. pose proof (parse_line_ident line i0) as Hp. destruct (ssh_identification_parse_line _ _) as [o i].
  destruct Hp as [Ho Hi]. eapply safe_bind; [by apply Hh|]. intros _ _.
  eapply safe_bind; [apply (safe_outcome o (fun _ => True)); by destruct o|]. by intros _ _.
Qed.

Lemma safe_send_identification : safe always ssh_transport_send_identification (fun _ => True).
Proof.
  unfold ssh_transport_send_identification. tstep. eapply safe_bind.
  { apply (safe_outcome _ (fun _ => True)). unfold ssh_server_format_identification. by repeat case_bool. }
  intros line _. eapply safe_bind; [keep|]. intros _ _. tstep. apply safe_parse_into.
  - intros i Hi. keep.
  - eapply safe_bind; [apply safe_net_write|]. intros _ _. apply safe_enter.
Qed.

Lemma safe_receive_line room len :
  0 <= len -> len + Z.of_nat room = EMSSH_MAX_IDENTIFICATION_LINE + 2 ->
  safe always (receive_one_line room len) (fun line => True).
Proof.
  revert len. induction room as [|room IH]; intros len Hl Hr; cbn [receive_one_line]; [apply safe_fail|].
  eapply safe_bind; [apply safe_net_read|]. intros c [Hcb Hcl]. cbv zeta.
  assert (is_byte (byte_at c 0)) as Hb.
  { destruct c as [|b [|? ?]]; [done| |rewrite !zlen_cons in Hcl; pose proof (zlen_nonneg l); lia].
    by apply Forall_cons_1 in Hcb as [? _]. }
  eapply safe_bind.
  { keep. destruct so_line0 as (H1 & H2 & H3). split_and!; cbn; [|by apply Forall_insert|lia..].
    unfold zlen in *. by rewrite length_insert. }
  intros _ _. apply safe_if; intros _; [|apply IH; lia].
  eapply safe_bind; [keep; destruct so_line0 as (H1 & H2 & H3); split_and!; cbn; [done|done|lia|lia]|].
  intros _ _. by apply (safe_get _ (fun _ => True)).
Qed.

Lemma safe_receive_identification : safe always ssh_transport_receive_identification (fun _ => True).
Proof.
  unfold ssh_transport_receive_identification. generalize 20%nat. intros lines.
  induction lines as [|lines IH]; cbn [receive_identification_loop]; [apply safe_fail|].
  eapply safe_bind; [by apply safe_receive_line|]. intros line _. apply safe_if; intros _; [|exact IH].
  tstep. pose proof (parse_line_ident line a) as Hp. destruct (ssh_identification_parse_line _ _) as [o i].
  destruct Hp as [Ho Hi]. eapply safe_bind; [keep|]. intros _ _.
  eapply safe_bind; [apply (safe_outcome o (fun _ => True)); by destruct o|]. intros _ _. tstep. apply safe_enter.
Qed.

(** ** Key exchange *)

(** A writer on an array of the session: the array keeps its size. *)
Lemma with_writer_emits p bs d cap :
  emits p bs -> zlen d = cap -> Forall is_byte d -> 0 <= cap ->
  exists k, k `prefix_of` bs /\ zlen k <= cap /\
    with_writer cap (p;; buf ← get_state; mret (ssh_buffer_len buf)) (Some d) =
      (if bool_decide (zlen bs <= cap) then Ret (zlen bs) else Err SSH_ERR_BUFFER_OVERFLOW,
       Some (k ++ zdrop (zlen k) d)) /\ (zlen bs <= cap -> k = bs).
Proof.
  intros Hp Hd Hb Hc. unfold with_writer, ssh_buffer_init, uninit_buffer.
  change (mk_ssh_buffer (Some d) cap 0 0) with (Bf [] [] d cap).
  assert (room_ok [] [] d cap) as R by (unfold room_ok; rewrite !(zlen_nil (A:=Z)); lia).
  case_bool_decide as Hl.
  - exists bs. rewrite (bind_ret _ _ _ _ _ (emits_fits _ _ Hp [] [] d cap R ltac:(rewrite !(zlen_nil (A:=Z)); lia))).
    split_and!; [done|done| |done]. unfold mbind, prog_bind, get_state, mret, prog_ret, Bf.
    cbn [ssh_buffer_len buf_len ssh_buffer_data buf_data app]. by rewrite (zlen_nil (A:=Z)).
  - destruct (emits_overflow _ _ Hp [] [] d cap R ltac:(rewrite !(zlen_nil (A:=Z)); lia)) as (k & Hk & Hkl & E).
    exists k. rewrite (bind_err _ _ _ _ _ E). rewrite !(zlen_nil (A:=Z)) in Hkl. split_and!; [done|lia|done|done].
Qed.

Lemma safe_send_kexinit : safe always ssh_transport_send_kexinit (fun _ => True).
Proof.
  unfold ssh_transport_send_kexinit. tstep. tstep.
  eapply safe_bind; [by apply (safe_perform RngUse)|]. intros fill Hf. cbn in Hf.
  specialize (Hf SSH_KEX_COOKIE_LEN ltac:(done)). destruct (fill SSH_KEX_COOKIE_LEN) as [st ck]. cbn [fst snd] in Hf.
  unfold check. destruct (status_bad st) eqn:Est.
  { eapply safe_bind; [by apply (safe_fail _ (fun _ => False))|]. by intros ? []. }
  unfold status_bad in Est. apply negb_false_iff, bool_decide_eq_true in Est. specialize (Hf Est) as [Hl Hb].
  eapply safe_bind; [by apply (safe_ret tt (fun _ => True))|]. intros _ _.
  eapply safe_bind; [apply (safe_get _ algorithms_ok); by intros s [] _|]. intros al Hal.
  eapply safe_bind; [apply (safe_get _ (array_ok EMSSH_MAX_KEXINIT_PAYLOAD)); by intros s [] _|].
  intros b (Hbl & Hbb & Hbn).
  pose proof (emits_kexinit ck (Some al) false ltac:(unfold kexinit_ok; cbn; split_and!; done)) as He.
  destruct (with_writer_emits _ _ (pb_data b) EMSSH_MAX_KEXINIT_PAYLOAD He Hbl Hbb ltac:(done)) as (k & Hk & Hkl & -> & Hkb).
  cbn [from_option id]. set (mem := k ++ _).
  assert (Forall is_byte k) as Hkbyte.
  { destruct Hk as [r Er]. pose proof (emits_bytes _ _ He) as Hbs. rewrite Er in Hbs. by apply Forall_app in Hbs as [? _]. }
  assert (zlen mem = EMSSH_MAX_KEXINIT_PAYLOAD /\ Forall is_byte mem) as [Hml Hmb].
  { unfold mem. split; [|apply Forall_app_2; [done|by apply Forall_drop]].
    pose proof (zlen_nonneg k). rewrite zlen_app, zlen_zdrop by lia. lia. }
  assert (forall n, 0 <= n <= EMSSH_MAX_KEXINIT_PAYLOAD ->
    safe always (io_modify (set_server_kexinit_payload (mk_payload mem n))) (fun _ => True)) as Hset
    by (intros n Hn; keep; done).
  eapply safe_bind; [by apply Hset|]. intros _ _. case_bool_decide as Hle.
  2: { eapply safe_bind; [by apply (safe_outcome (Err SSH_ERR_BUFFER_OVERFLOW) (fun _ => False))|]. by intros ? []. }
  eapply safe_bind; [apply (safe_outcome (Ret _) (fun n => 0 <= n <= EMSSH_MAX_KEXINIT_PAYLOAD));
    split; [apply zlen_nonneg|done]|]. intros n Hn.
  eapply safe_bind; [by apply Hset|]. intros _ _.
  eapply safe_bind; [apply safe_send_transport; by apply Forall_take|]. intros _ _. apply safe_enter.
Qed.

Lemma negotiate_no_fault client algorithms :
  kexinit_ok client -> ssh_kex_negotiate (Some client) (Some algorithms) <> Fault.
Proof.
  intros Hk. assert (forall i l b, negotiate_one client i l b <> Fault) as Hn.
  { intros i l b. rewrite (proj1 (negotiate_one_eq client i l b Hk)).
    unfold select_first_match, cstring_to_name_list_view, mbind, outcome_bind. repeat case_match; done. }
  unfold ssh_kex_negotiate, mbind, outcome_bind, mret, outcome_ret.
  repeat match goal with
  | |- context [negotiate_one ?c ?i ?l ?b] =>
    let H := fresh in pose proof (Hn i l b) as H; destruct (negotiate_one c i l b); [|done|done]; clear H
  end. done.
Qed.

Lemma safe_process_kexinit payload :
  Forall is_byte payload -> safe always (process_kexinit_payload payload) (fun _ => True).
Proof.
  intros Hb. unfold process_kexinit_payload. tstep. tstep.
  eapply safe_bind; [apply to_client_kexinit_delivers; split; [done|lia]|]. intros _ _.
  eapply safe_bind.
  { keep. destruct so_client_kexinit0 as (H1 & H2 & H3). pose proof (zlen_nonneg payload). split_and!; cbn; [done|done|lia..]. }
  intros _ _. eapply safe_bind; [by eapply safe_decode_message; [apply _|]|]. intros client Hk.
  tstep. eapply safe_bind; [keep|]. intros _ _.
  eapply safe_bind.
  { apply (safe_outcome _ (fun _ => True)). pose proof (negotiate_no_fault client a Hk). by destruct (ssh_kex_negotiate _ _). }
  intros n _. eapply safe_bind; [keep|]. intros _ _. eapply safe_bind; [keep|]. intros _ _. apply safe_enter.
Qed.

Lemma safe_receive_kexinit : safe always ssh_transport_receive_kexinit (fun _ => True).
Proof.
  unfold ssh_transport_receive_kexinit.
  eapply safe_bind; [apply safe_receive_transport, to_client_kexinit_delivers|]. intros pl [Hb Hl].
  eapply safe_bind; [|intros _ _; by apply safe_process_kexinit].
  keep. destruct so_client_kexinit0 as (H1 & H2 & H3). pose proof (zlen_nonneg pl). split_and!; cbn; [done|done|lia..].
Qed.

Lemma material_client_ok key m :
  material_ok m -> stored_ok EMSSH_MAX_KEX_PUBLIC_KEY key -> material_ok (with_client_kex_public_key key m).
Proof. by intros [] Hk; split; cbn. Qed.

Lemma safe_receive_ecdh_init : safe always ssh_transport_receive_kex_ecdh_init (fun _ => True).
Proof.
  unfold ssh_transport_receive_kex_ecdh_init.
  eapply safe_bind; [apply safe_receive_transport, to_local_delivers|]. intros pl [Hb Hl].
  eapply safe_bind; [by eapply safe_decode_message; [apply _|]|]. intros init [Hv Hlen]. cbv zeta.
  destruct (view_ok_len _ Hv) as [El _].
  eapply safe_bind; [apply (safe_stored _ _ (fun _ => True)); [lia|done]|]. intros _ _.
  eapply safe_bind; [|intros _ _; apply safe_enter]. keep.
  apply material_client_ok; [done|]. split; [by apply view_ok_byte|lia].
Qed.

Lemma session_ok_material s m : session_ok s -> material_ok m -> session_ok (set_material m s).
Proof. by intros [] Hm; split; cbn. Qed.

Lemma evolves_material s m : evolves s (set_material m s).
Proof. by split. Qed.

(** What a crypto entry stored, when it is neither the private key nor the hash. *)
Lemma safe_store_result cap set r :
  stored_ok cap (snd r) ->
  (forall m bs, material_ok m -> stored_ok cap bs -> material_ok (set bs m)) ->
  (forall m bs, server_kex_private_key (set bs m) = server_kex_private_key m /\
     exchange_hash (set bs m) = exchange_hash m) ->
  safe always (store_result cap set r) (fun _ => True).
Proof.
  intros Hr Hm Hk. unfold store_result. eapply safe_bind; [apply (safe_stored _ _ (fun _ => True)); [apply Hr|done]|].
  intros _ _. eapply safe_bind; [|intros _ _; by apply safe_check].
  apply safe_modify. intros s Hs _. destruct (Hk (t_material s) (snd r)) as [K1 K2].
  split_and!; [|apply evolves_material|done|done|done].
  apply session_ok_material; [done|]. by apply Hm; [apply Hs|].
Qed.

Lemma safe_agree n : safe always (agree_on_secret n) (fun _ => True).
Proof.
  intros s x Hs Hx _. unfold agree_on_secret. apply wp_mbind. split; [done|]. cbn [wp].
  intros [[st public] private] [Hpub Hpriv]. unfold stored.
  rewrite (proj2 (Z.leb_le _ _) (proj2 Hpub)), (proj2 (Z.leb_le _ _) (proj2 Hpriv)).
  set (m := with_server_kex_private_key private (with_server_kex_public_key public (t_material s))).
  assert (material_ok m) as Hm by (destruct Hs as [? ? ? ? ? ? ? ? ? ? [] ? ? ?]; by split).
  assert (session_ok (set_material m s)) as Hs' by (by apply session_ok_material).
  assert (watched (set_material m s) (mk_watch (Some private) (w_hash x) (w_session_id x))) as Hx'
    by (destruct Hx; by split).
  do 2 (apply wp_mbind; cbn [wp mret io_ret]).
  apply wp_mbind. cbn [io_modify wp on_material kex_step snd]. fold m. apply wp_mbind. unfold check.
  destruct (status_bad st); [by split_and!|]. cbn [mret io_ret wp].
  apply wp_mbind. cbn [io_get wp]. apply wp_mbind. split; [done|].
  intros r Hr. cbn [wp kex_step]. eapply wp_conseq.
  - apply (safe_store_result EMSSH_MAX_KEX_SHARED_SECRET with_shared_secret r Hr); try done.
    intros m' bs [] Hb. by split.
  - intros r' y. apply ends_trans, evolves_material.
Qed.

(** *** The exchange hash *)
Lemma emits_string_prefix l n :
  Forall is_byte l -> 0 <= n <= zlen l -> n <= UINT32_MAX ->
  emits (ssh_buffer_put_string (Some l) n) (string_bytes (ztake n l)).
Proof.
  intros Hb Hn Hl. assert (zlen (ztake n l) = n) as Hz by (rewrite zlen_ztake; lia).
  assert (deref (Some l) n = deref (Some (ztake n l)) n) as Ed.
  { unfold deref, mem_read. replace ((0 <? 0) || (n <? 0)) with false by lia.
    rewrite !zdrop_0, (ztake_all (ztake n l)), Hz by lia. done. }
  pose proof (emits_string (ztake n l) ltac:(by apply Forall_take) ltac:(lia)) as E. rewrite Hz in E.
  eapply emits_ext; [exact E|]. intros st. unfold ssh_buffer_put_string, ssh_buffer_put_bytes. by rewrite Ed.
Qed.

Lemma emits_null_or_ok v :
  null_or_ok v -> emits (ssh_buffer_put_string (view_data v) (view_len v)) (string_bytes (view_bytes v)).
Proof.
  intros [->|Hv]; [|by apply emits_view]. cbn [null_view view_data view_len].
  eapply emits_ext; [apply (emits_string []); [done|by vm_compute]|]. done.
Qed.

(** The data of the exchange hash: RFC 4253, section 8, and RFC 5656, section 4. *)
Definition exchange_hash_data (s : transport_session) : list Z :=
  let m := t_material s in
  string_bytes (view_bytes (id_raw (t_client_identification s))) ++
  string_bytes (view_bytes (id_raw (t_server_identification s))) ++
  string_bytes (ztake (pb_len (t_client_kexinit_payload s)) (pb_data (t_client_kexinit_payload s))) ++
  string_bytes (ztake (pb_len (t_server_kexinit_payload s)) (pb_data (t_server_kexinit_payload s))) ++
  string_bytes (server_host_key m) ++
  string_bytes (client_kex_public_key m) ++
  string_bytes (server_kex_public_key m) ++
  string_bytes (mpint_bytes (shared_secret m)).

Lemma emits_exchange_hash s : session_ok s -> emits (exchange_hash_fields s) (exchange_hash_data s).
Proof.
  intros [? ? ? ? ? [? ?] [? ?] ? ? ? [] ? ? ?]. unfold exchange_hash_fields, exchange_hash_data, stored_ok,
    EMSSH_MAX_KEX_PUBLIC_KEY, EMSSH_MAX_HOST_KEY_BLOB, EMSSH_MAX_KEX_SHARED_SECRET, EMSSH_MAX_KEXINIT_PAYLOAD in *.
  destruct_and?. cbv zeta.
  repeat (apply emits_bind; [first [by apply emits_null_or_ok | by apply emits_string; [|unfold UINT32_MAX; lia]
    | apply emits_string_prefix; [done|lia|unfold UINT32_MAX; lia]]|]).
  apply emits_mpint; [done|unfold UINT32_MAX; lia].
Qed.

Lemma safe_hash_and_sign n : safe always (hash_and_sign n) (fun _ => True).
Proof.
  intros s x Hs Hx _. unfold hash_and_sign. apply wp_mbind. unfold build_exchange_hash_input.
  apply wp_mbind. cbn [io_get wp id]. unfold encode, of_outcome. cbn [wp].
  pose proof (tame_emits _ _ (emits_exchange_hash s Hs) 4096 ltac:(done)) as Ht.
  destruct (encode_into _ _ _) as [input|e|]; [|by split_and!|done].
  apply wp_mbind. split; [done|]. cbn [wp]. intros [st h] Hh. cbn [snd treply_good] in Hh. cbn [kex_step snd].
  set (m := with_exchange_hash h (t_material s)).
  assert (material_ok m) as Hm by (destruct Hs as [? ? ? ? ? ? ? ? ? ? [] ? ? ?]; by split).
  assert (session_ok (set_material m s)) as Hs' by (by apply session_ok_material).
  assert (watched (set_material m s) (mk_watch (w_private x) (Some h) (w_session_id x))) as Hx'
    by (destruct Hx; by split).
  apply wp_mbind. unfold store_result, stored. cbn [fst snd]. rewrite (proj2 (Z.leb_le _ _) (proj2 Hh)).
  apply wp_mbind. cbn [mret io_ret wp]. apply wp_mbind. cbn [io_modify wp on_material]. fold m.
  unfold check. destruct (status_bad st); [by split_and!|]. cbn [mret io_ret wp].
  apply wp_mbind. cbn [io_get wp]. apply wp_mbind. split; [done|]. cbn [wp]. intros r Hr. cbn [kex_step].
  eapply wp_conseq.
  - apply (safe_store_result EMSSH_MAX_SIGNATURE with_server_signature r Hr); try done.
    intros m' bs [] Hb. by split.
  - intros r' y. apply ends_trans, evolves_material.
Qed.

(** The session identifier is set once. *)
Lemma safe_first_id :
  safe always (io_modify (fun s => if zlen (t_session_id s) =? 0 then set_session_id (exchange_hash (t_material s)) s else s))
    (fun _ => True).
Proof.
  intros s x Hs Hx _. cbn [io_modify wp]. destruct (zlen (t_session_id s) =? 0) eqn:E; [|by split_and!].
  apply Z.eqb_eq, zlen_zero_inv in E. destruct Hx as [W1 W2 W3].
  split_and!; [|split; try done; cbn|split; cbn; try done|done].
  - destruct Hs. split; cbn; try done. by destruct so_material0.
  - intros sid Hsid. destruct (W3 sid Hsid) as [<- Hn]. done.
Qed.

Lemma tame_ecdh_reply m :
  material_ok m ->
  tame (ssh_kex_ecdh_reply_encode (Some (server_host_key m)) (zlen (server_host_key m))
          (Some (server_kex_public_key m)) (zlen (server_kex_public_key m))
          (Some (server_signature m)) (zlen (server_signature m))).
Proof.
  intros [_ [Hp Hpl] _ _ _ [Hh Hhl] [Hg Hgl]]. unfold ssh_kex_ecdh_reply_encode.
  apply tame_buffer, tame_reject; intros _. apply tame_reject; intros _.
  unfold EMSSH_MAX_HOST_KEY_BLOB, EMSSH_MAX_KEX_PUBLIC_KEY, EMSSH_MAX_SIGNATURE in *.
  eapply tame_emits. apply emits_bind; [by apply emits_u8|].
  apply emits_bind; [apply emits_string; [done|unfold UINT32_MAX; lia]|].
  apply emits_bind; (apply emits_string; [done|unfold UINT32_MAX; lia]).
Qed.

Lemma safe_send_ecdh_reply : safe always ssh_transport_send_kex_ecdh_reply (fun _ => True).
Proof.
  unfold ssh_transport_send_kex_ecdh_reply. do 3 tstep.
  eapply safe_bind; [apply safe_agree|]. intros _ _.
  eapply safe_bind; [by apply (safe_perform (HostkeyPublic _))|]. intros r Hr.
  eapply safe_bind.
  { apply (safe_store_result EMSSH_MAX_HOST_KEY_BLOB with_server_host_key r Hr); try done.
    intros m bs [] Hb. by split. }
  intros _ _. eapply safe_bind; [apply safe_hash_and_sign|]. intros _ _.
  eapply safe_bind; [apply safe_first_id|]. intros _ _.
  eapply safe_bind; [apply (safe_get _ material_ok); by intros s [] _|]. intros m Hm.
  eapply safe_bind; [by apply safe_encode; [apply tame_ecdh_reply|]|]. intros reply [Hb _].
  eapply safe_bind; [by apply safe_send_transport|]. intros _ _. apply safe_enter.
Qed.

(** *** Keys *)
Lemma safe_derive key_id len :
  65 <= key_id <= 70 -> len = (if key_id <? 69 then 16 else 32) ->
  safe has_id (derive_material key_id len) (fun bs => Forall is_byte bs /\ zlen bs = len).
Proof.
  intros Hk Hl. unfold derive_material. tstep. tstep. intros s x Hs Hx HP. apply wp_mbind. cbn [io_get wp id].
  apply wp_mbind. split.
  { cbn. split_and!; [apply Hx|exact HP| |lia..|done]. destruct (w_session_id x) as [sid|] eqn:E; [|by left].
    right. by rewrite (proj1 (wa_session_id _ _ Hx sid E)). }
  cbn [wp]. intros r [Hrb Hrl]. rewrite Z.max_r in Hrl by (subst len; case_match; lia).
  cbn [kex_step]. set (y := mk_watch _ _ _).
  assert (watched s y) as Hy by (destruct Hx; split; try done; intros sid [= <-]; done).
  eapply (safe_bind (P:=has_id) (stored len (snd r)) _ (fun _ => True)); try done; [by apply safe_stored|].
  intros _ _. tstep. apply safe_ret. split; [done|]. apply orb_false_iff in Hc as [_ Hc]. lia.
Qed.

Lemma sizes_cases n :
  negotiated_packet_sizes n = Ret (16, 16, 16, 32, 32) \/ negotiated_packet_sizes n = Err SSH_ERR_UNSUPPORTED.
Proof. unfold negotiated_packet_sizes, view_algorithm_size. cbv zeta. repeat case_bool; auto; done. Qed.

Lemma protection_set_ok calg malg key iv mkey p :
  zlen key = 16 -> zlen iv = 16 -> zlen mkey = 32 -> Forall is_byte iv -> prot_ok p ->
  let '(o, p') := ssh_packet_protection_set (server_crypto (srv_auth srv)) calg malg (Some key) 16 (Some iv) 16
      (Some mkey) 32 16 32 p in
  prot_ok p' /\ (o = Ret tt /\ prot_active p' = true \/ (exists e, o = Err e) /\ p' = p).
Proof.
  intros Hk Hi Hm Hib Hp. unfold ssh_packet_protection_set.
  destruct (server_crypto (srv_auth srv)) as [api|] eqn:Ea; [|split; [done|right; split; [by eexists|done]]].
  destruct (sc_api api Ea) as [Ef Eg]. rewrite Ef, Eg. cbn [is_null orb andb].
  rewrite (bind_ret _ _ p tt p) by done. rewrite (bind_ret _ _ p tt p) by done. cbn [from_option id].
  destruct (fill_array_spec EMSSH_MAX_CIPHER_KEY key) as (k & Ek & _); [by rewrite Hk|].
  destruct (fill_array_spec EMSSH_MAX_CIPHER_IV iv) as (i & Ei & _ & Hil & Hib'); [by rewrite Hi|].
  destruct (fill_array_spec EMSSH_MAX_MAC_KEY mkey) as (m & Em & _); [by rewrite Hm|].
  rewrite Hk in Ek. rewrite Hi in Ei. rewrite Hm in Em. rewrite Ek, Ei, Em.
  unfold put_state. split; [|by left]. split; [done|]. intros _. split_and!; try done. split; cbn; try done.
  - by exists api.
  - split_and!; try done. by apply Hib'.
Qed.

Lemma prot_ok_sequence p n : prot_ok p -> is_u32 n -> prot_ok (with_sequence n p).
Proof.
  intros [_ Hp] Hn. split; [done|]. intros Ha. destruct (Hp Ha) as ([] & Hm & Hb). by split_and!; [split|..].
Qed.

Lemma safe_with_sequence (outbound : bool) :
  safe always (io_modify (fun s => set_prot_of outbound (with_sequence
    (if outbound then t_outbound_sequence s else t_inbound_sequence s) (prot_of outbound s)) s)) (fun _ => True).
Proof. destruct outbound; keep; by apply prot_ok_sequence. Qed.

Lemma ensure_id_ok s x :
  session_ok s -> watched s x ->
  twp (ensure_session_id s) (fun '(o, s') y => ends s (fun _ => True) (o, s') y /\ (o = Ret tt -> has_id s')) x.
Proof.
  intros Hs Hx. unfold ensure_session_id. apply wp_mbind. cbn [io_get wp id]. cbv zeta.
  destruct (zlen (t_session_id s) =? 0) eqn:E.
  2: { cbn [wp mret io_ret]. split; [by split_and!|]. intros _ Hn. by rewrite Hn in E. }
  apply Z.eqb_eq, zlen_zero_inv in E. apply wp_mbind. unfold io_reject.
  destruct (_ || _) eqn:Eh; cbn [io_fail mret io_ret io_modify wp]; [by split_and!|].
  split; [|intros _; unfold has_id; cbn; intros Hn; by rewrite Hn in Eh]. destruct Hx as [W1 W2 W3].
  split_and!; [|split; cbn; try done|split; cbn; try done|done].
  - destruct Hs. split; cbn; try done. by destruct so_material0.
  - intros sid Hsid. destruct (W3 sid Hsid) as [<- Hn]. done.
Qed.

Lemma safe_install_keys outbound n :
  safe has_id (install_keys outbound n (16, 16, 16, 32, 32)) (fun _ => True).
Proof.
  unfold install_keys. eapply safe_bind; [by apply safe_derive; destruct outbound|]. intros iv [Hib Hil].
  eapply safe_bind; [by apply safe_derive; destruct outbound|]. intros key [_ Hkl].
  eapply safe_bind; [by apply safe_derive; destruct outbound|]. intros mkey [_ Hml].
  intros s x Hs Hx _. apply wp_mbind. cbn [io_get wp id]. rewrite (so_server _ Hs).
  set (calg := if outbound then encryption_algorithm_server_to_client _ else _).
  set (malg := if outbound then mac_algorithm_server_to_client _ else _).
  pose proof (protection_set_ok calg malg key iv mkey (prot_of outbound s) Hkl Hil Hml Hib) as Hset.
  destruct (ssh_packet_protection_set _ _ _ _ _ _ _ _ _ _ _ _) as [o p].
  destruct Hset as (Hp & Ho); [destruct outbound; apply Hs|].
  assert (session_ok (set_prot_of outbound p s)) as Hs' by (pose proof Hs as []; by destruct outbound; split).
  assert (evolves s (set_prot_of outbound p s)) as He.
  { destruct Ho as [[_ Ha]|[_ ->]]; by destruct outbound; split. }
  assert (watched (set_prot_of outbound p s) x) as Hx' by (destruct Hx; by destruct outbound; split).
  apply wp_mbind. cbn [io_modify wp]. apply wp_mbind. unfold of_outcome. cbn [wp].
  destruct Ho as [[-> Ha]|[[e ->] _]]; [|by split_and!].
  eapply wp_conseq; [|intros r z; by apply (ends_trans _ _ _ r z He)].
  apply (safe_bind (P:=always) _ _ (fun _ => True)); try done; [apply safe_with_sequence|].
  intros _ _. keep. by apply rekey_reset_ok.
Qed.

Lemma safe_activate outbound : safe always (activate_packet_protection outbound) (fun _ => True).
Proof.
  unfold activate_packet_protection. tstep. destruct (sizes_cases a) as [->| ->].
  2: { eapply safe_bind; [by apply (safe_outcome (Err SSH_ERR_UNSUPPORTED) (fun _ => False))|]. by intros ? []. }
  eapply safe_bind; [by apply (safe_outcome (Ret _) (fun z => z = (16, 16, 16, 32, 32)))|]. intros z ->.
  intros s x Hs Hx _. apply wp_mbind. eapply wp_conseq; [by apply ensure_id_ok|].
  intros [[[]|e|] s'] y [(Hs' & Hy & He & Ho) Hid]; [|by split_and!|done].
  eapply wp_conseq; [|intros r w; by apply (ends_trans s s')]. by apply safe_install_keys, Hid.
Qed.

Lemma safe_send_newkeys : safe always ssh_transport_send_newkeys (fun _ => True).
Proof.
  unfold ssh_transport_send_newkeys. eapply safe_bind; [apply safe_encode; [|done]|].
  { apply tame_buffer. eapply tame_emits. by apply emits_u8. }
  intros pl [Hb _]. eapply safe_bind; [by apply safe_send_transport|]. intros _ _.
  eapply safe_bind; [apply safe_activate|]. intros _ _. apply safe_enter.
Qed.

Lemma safe_receive_newkeys : safe always ssh_transport_receive_newkeys (fun _ => True).
Proof.
  unfold ssh_transport_receive_newkeys.
  eapply safe_bind; [apply safe_receive_transport, to_local_delivers|]. intros pl [Hb _].
  eapply safe_bind; [by eapply safe_decode_message; [apply _|]|]. intros _ _.
  eapply safe_bind; [apply safe_activate|]. intros _ _. apply safe_enter.
Qed.

(** ** Receiving between rekeys *)
Lemma safe_rekey pl : Forall is_byte pl -> safe always (ssh_transport_handle_peer_rekey pl) (fun _ => True).
Proof.
  intros Hb. unfold ssh_transport_handle_peer_rekey. do 2 tstep.
  eapply safe_bind; [keep|]. intros _ _. eapply safe_bind.
  { apply safe_attempt. eapply safe_bind; [by apply safe_process_kexinit|]. intros _ _.
    eapply safe_bind; [apply safe_send_kexinit|]. intros _ _.
    eapply safe_bind; [apply safe_receive_ecdh_init|]. intros _ _.
    eapply safe_bind; [apply safe_send_ecdh_reply|]. intros _ _.
    eapply safe_bind; [apply safe_send_newkeys|]. intros _ _. apply safe_receive_newkeys. }
  intros st _. eapply safe_bind; [keep|]. intros _ _. destruct st; [apply safe_fail|by apply safe_ret].
Qed.

Lemma safe_skip cap :
  0 <= cap -> safe always (receive_protected_payload_skip_ignorable cap) (stored_ok cap).
Proof.
  intros Hcap. unfold receive_protected_payload_skip_ignorable. generalize 8%nat. intros tries.
  induction tries as [|tries IH]; cbn [skip_ignorable_loop]; [apply safe_fail|]. cbv zeta.
  eapply safe_bind.
  { apply safe_receive_protected.
    destruct (cap <? _); [apply to_client_kexinit_delivers|apply to_local_delivers]. }
  intros pl [Hb Hl]. eapply safe_bind; [unfold record_message_id; destruct pl; keep|]. intros _ _. tstep.
  apply safe_if; intros _; [eapply safe_bind; [by apply safe_rekey|]; by intros _ _|].
  apply safe_if; intros _; [done|]. tstep. apply safe_ret. split; [done|].
  destruct (cap <? _) eqn:E; [|done]. cbn [andb] in Hc. lia.
Qed.

(** ** Services, authentication and channels *)
Ltac get_head p := lazymatch p with ?q _ => get_head q | _ => p end.
Ltac tame_step :=
  lazymatch goal with
  | |- tame (mbind _ require_buffer) => apply tame_buffer
  | |- tame (mbind _ (reject _ _)) => apply tame_reject; intros _
  end.
Ltac tame_tac :=
  lazymatch goal with |- tame ?p => let h := get_head p in try unfold h end;
  repeat tame_step; eapply tame_emits; emit_message.

(** A message that is sent, and the state entered. *)
Lemma safe_send_message p cap (k : TrM unit) :
  tame p -> 0 <= cap -> safe always k (fun _ => True) ->
  safe always (payload ← encode p cap; ssh_transport_send_protected_payload payload;; k) (fun _ => True).
Proof.
  intros Hp Hc Hk. eapply safe_bind; [by apply safe_encode|]. intros pl [Hb _].
  eapply safe_bind; [by apply safe_send_protected|]. by intros _ _.
Qed.

Definition text_ok (t : option (list Z)) : Prop :=
  match t with Some l => Forall is_byte l /\ zlen l <= UINT32_MAX | None => True end.

Lemma safe_ext_info : text_ok (backend_signature_algorithms (srv_auth srv)) -> safe always ssh_transport_send_ext_info (fun _ => True).
Proof.
  intros Ht. unfold ssh_transport_send_ext_info. tstep. apply safe_if; intros _; [by apply safe_ret|].
  eapply safe_bind; [apply (safe_get _ (fun a => a = srv_auth srv)); intros st Hst _; by rewrite (so_server _ Hst)|].
  intros auth ->. cbv zeta. set (l := if is_null _ then [] else _).
  assert (Forall is_byte l /\ zlen l <= UINT32_MAX) as [Hlb Hll].
  { unfold l. destruct (is_null _); [by split|]. destruct (backend_signature_algorithms _); [done|by split]. }
  tstep. eapply safe_bind; [apply safe_encode; [|done]|].
  { unfold ext_info_encode. cbv zeta. destruct (negb (zlen l =? 0)).
    - eapply tame_emits. emit_message.
    - eapply tame_emits. do 2 (apply emits_bind; [first [by apply emits_u8|apply emits_u32]|]).
      apply emits_bind; apply emits_nil. }
  intros pl [Hb _]. by apply safe_send_protected.
Qed.

Lemma safe_receive_service : safe always ssh_transport_receive_service_request (fun _ => True).
Proof.
  unfold ssh_transport_receive_service_request. eapply safe_bind; [by apply safe_skip|]. intros pl [Hb _].
  eapply safe_bind; [by eapply safe_decode_message; [apply _|]|]. intros r _. tstep.
  eapply safe_bind; [apply safe_enter|]. intros _ _. by apply safe_ret.
Qed.

Lemma safe_send_service name : text_ok name -> safe always (ssh_transport_send_service_accept name) (fun _ => True).
Proof.
  intros Hn. unfold ssh_transport_send_service_accept. tstep.
  apply safe_send_message; [|done|apply safe_enter]. destruct name as [l|]; [|done]. destruct Hn. tame_tac.
Qed.

Lemma safe_receive_userauth : safe always ssh_transport_receive_userauth_request
  (fun r => request_ok r /\ zlen (request_bytes r) <= EMSSH_MAX_USERAUTH_PAYLOAD).
Proof.
  unfold ssh_transport_receive_userauth_request. eapply safe_bind; [by apply safe_skip|]. intros pl [Hb Hl].
  eapply safe_bind; [by apply (safe_decode _ _ pl request_decodes)|]. intros r (u1 & u2 & -> & Hr & -> & _).
  eapply safe_bind; [apply safe_enter|]. intros _ _. apply safe_ret. split; [done|].
  pose proof (zlen_nonneg u2). rewrite zlen_app in Hl. lia.
Qed.

Lemma safe_send_pk_ok alg blob :
  null_or_ok alg -> null_or_ok blob -> safe always (ssh_transport_send_userauth_pk_ok alg blob) (fun _ => True).
Proof.
  intros Ha Hb. unfold ssh_transport_send_userauth_pk_ok. apply safe_send_message; [|done|apply safe_enter].
  apply tame_buffer, tame_reject. intros Hc. eapply tame_emits.
  apply emits_bind; [by apply emits_u8|]. apply emits_bind; by apply emits_null_or_ok.
Qed.

Lemma safe_send_success : safe always ssh_transport_send_userauth_success (fun _ => True).
Proof. apply safe_send_message; [tame_tac|done|apply safe_enter]. Qed.

Lemma safe_send_failure methods partial :
  text_ok methods -> safe always (ssh_transport_send_userauth_failure methods partial) (fun _ => True).
Proof.
  intros Hm. unfold ssh_transport_send_userauth_failure. tstep.
  apply safe_send_message; [|done|apply safe_enter]. destruct methods as [l|]; [|done]. destruct Hm. tame_tac.
Qed.

Lemma evaluate_no_fault auth r sid :
  request_ok r -> zlen (request_bytes r) <= EMSSH_MAX_USERAUTH_PAYLOAD -> stored_ok EMSSH_MAX_EXCHANGE_HASH sid ->
  ssh_userauth_evaluate_request auth r (Some sid) (zlen sid) <> Fault.
Proof.
  intros Hr Hl [Hb Hs]. destruct (decide (sid = [])) as [->|Hn].
  - unfold ssh_userauth_evaluate_request. cbn [is_null orb zlen Z.eqb length Z.of_nat].
    assert (ssh_userauth_authenticate_password auth r <> Fault) as H1
      by (unfold ssh_userauth_authenticate_password; by repeat case_match).
    assert (ssh_userauth_publickey_is_acceptable auth r <> Fault) as H2
      by (unfold ssh_userauth_publickey_is_acceptable; by repeat case_match).
    repeat case_match; done.
  - apply nonempty_eqb in Hn. pose proof (zlen_nonneg sid). rewrite evaluate_decides by (try done; lia).
    unfold auth_decision. repeat case_match; done.
Qed.

Lemma methods_string auth m :
  array_string (offered_methods auth ++ [0] ++ m) = offered_methods auth.
Proof.
  unfold array_string. rewrite (proj2 (scan_until_exact _ _ (offered_methods auth) ([0] ++ m))); [done|].
  split_and!; [done| |right; by eexists _, _].
  unfold offered_methods. destruct (publickey_auth auth), (password_auth auth); by repeat (constructor; [done|]).
Qed.

Lemma safe_handle_userauth r :
  request_ok r -> zlen (request_bytes r) <= EMSSH_MAX_USERAUTH_PAYLOAD ->
  safe always (ssh_transport_handle_userauth_request r) (fun _ => True).
Proof.
  intros Hr Hl. unfold ssh_transport_handle_userauth_request.
  eapply safe_bind; [apply (safe_get _ (fun st => stored_ok EMSSH_MAX_EXCHANGE_HASH (t_session_id st))); by intros st [] _|].
  intros st Hst. cbv zeta. eapply safe_bind.
  { apply (safe_outcome _ (fun d => d = SSH_USERAUTH_DECISION_PK_OK ->
      null_or_ok (publickey_algorithm r) /\ null_or_ok (publickey_blob r))).
    pose proof (evaluate_no_fault (srv_auth (t_server st)) r _ Hr Hl Hst).
    destruct (ssh_userauth_evaluate_request _ _ _ _); try done. intros _.
    destruct Hr as (_ & _ & _ & Hf). unfold method_fields_ok, no_publickey, null_or_ok, nonempty_view in *.
    repeat case_decide; destruct_and?; tauto. }
  intros [] Hd.
  - destruct (failure_methods_text (srv_auth (t_server st)) (zeros EMSSH_MAX_USERAUTH_FAILURE_METHODS)) as [m' E];
      [by vm_compute|]. rewrite E. eapply safe_bind; [by apply (safe_outcome (Ret tt) (fun _ => True))|]. intros _ _.
    rewrite methods_string. apply safe_send_failure. unfold offered_methods.
    destruct (publickey_auth _), (password_auth _); cbn [is_null text_ok];
      (split; [by apply (bool_decide_unpack _); vm_compute|by vm_compute]).
  - apply safe_send_success.
  - apply safe_send_pk_ok; by apply Hd.
Qed.

Lemma safe_receive_open : safe always ssh_transport_receive_channel_open (fun _ => True).
Proof.
  unfold ssh_transport_receive_channel_open. eapply safe_bind; [by apply safe_skip|]. intros pl [Hb _].
  eapply safe_bind; [by eapply safe_decode_message; [apply _|]|]. intros r _.
  eapply safe_bind; [apply safe_enter|]. intros _ _. by apply safe_ret.
Qed.

Lemma global_request_decodes : decodes ssh_global_request_decode (fun _ _ _ => True).
Proof. unfold ssh_global_request_decode. decode_message. done. Qed.

Lemma safe_global_failure : safe always ssh_transport_send_global_request_failure (fun _ => True).
Proof. apply safe_send_message; [tame_tac|done|apply safe_enter]. Qed.

Lemma safe_refuse_global pl : Forall is_byte pl -> safe always (refuse_global_request pl) (fun _ => True).
Proof.
  intros Hb. unfold refuse_global_request. eapply safe_bind; [by apply (safe_decode _ _ pl global_request_decodes)|].
  intros r _. eapply safe_bind; [apply safe_enter|]. intros _ _.
  apply safe_if; intros _; [apply safe_global_failure|by apply safe_ret].
Qed.

Lemma safe_open_failure rc code description :
  text_ok description -> safe always (ssh_transport_send_channel_open_failure rc code description) (fun _ => True).
Proof.
  intros Ht. unfold ssh_transport_send_channel_open_failure. tstep.
  apply safe_send_message; [|done|apply safe_enter]. destruct description as [l|]; [|done]. destruct Ht. tame_tac.
Qed.

Lemma safe_refuse_open pl : Forall is_byte pl -> safe always (refuse_channel_open pl) (fun _ => True).
Proof.
  intros Hb. unfold refuse_channel_open. eapply safe_bind; [by eapply safe_decode_message; [apply _|]|]. intros o _.
  apply safe_open_failure. split; [by apply (bool_decide_unpack _); vm_compute|by vm_compute].
Qed.

Lemma safe_open_skip : safe always ssh_transport_receive_channel_open_skip_global_requests channel_open_ok.
Proof.
  unfold ssh_transport_receive_channel_open_skip_global_requests. generalize 8%nat. intros tries.
  induction tries as [|tries IH]; cbn [channel_open_loop]; [apply safe_fail|].
  eapply safe_bind; [by apply safe_skip|]. intros [|id pl] [Hb _]; [apply safe_fail|].
  apply safe_if; intros _.
  { eapply safe_bind; [by eapply safe_decode_message; [apply _|]|]. intros o Ho.
    eapply safe_bind; [apply safe_enter|]. intros _ _. by apply safe_ret. }
  apply safe_if; intros _; [|apply safe_fail]. eapply safe_bind; [by apply safe_refuse_global|]. by intros _ _.
Qed.

Lemma safe_confirmation rc sc w m :
  safe always (ssh_transport_send_channel_open_confirmation rc sc w m) (fun _ => True).
Proof. apply safe_send_message; [tame_tac|done|apply safe_enter]. Qed.

Lemma channel_notice_decodes : decodes channel_notice_decode (fun _ _ _ => True).
Proof. unfold channel_notice_decode. decode_message. done. Qed.

Lemma safe_channel_notice pl : Forall is_byte pl -> safe always (decode_channel_notice pl) (fun _ => True).
Proof.
  intros Hb. unfold decode_channel_notice. pose proof (decodes_no_fault _ _ pl channel_notice_decodes Hb).
  destruct (decode_from channel_notice_decode pl); [by apply safe_ret|apply safe_fail|done].
Qed.

Lemma safe_decode_struct {T} (p : OutB T unit) Q pl t :
  decodes (run_out p t) Q -> Forall is_byte pl -> safe always (decode_struct p pl t) (fun _ => True).
Proof.
  intros Hd Hb. pose proof (decodes_no_fault _ _ pl Hd Hb) as Hn. unfold decode_from, run_out in Hn.
  unfold decode_struct. destruct (p _) as [[[]|e|] [b t']]; [by apply safe_ret..|done].
Qed.

Lemma safe_record_diag r : safe always (record_last_channel_request_diag r) (fun _ => True).
Proof. unfold record_last_channel_request_diag. destruct (view_data _); [keep|by apply safe_ret]. Qed.

Lemma safe_receive_request r : safe always (ssh_transport_receive_channel_request r) (fun _ => True).
Proof.
  unfold ssh_transport_receive_channel_request. generalize 16%nat. intros tries.
  induction tries as [|tries IH]; cbn [channel_request_loop]; [apply safe_fail|].
  eapply safe_bind; [by apply safe_skip|]. intros [|id pl] [Hb _]; [apply safe_fail|].
  apply safe_if; intros _.
  { eapply safe_bind; [by apply (safe_decode_struct _ _ _ r (channel_request_decodes r))|]. intros [[e|] r'] _; cbn [fst snd].
    - eapply safe_bind; [|intros _ _; by apply safe_ret].
      apply safe_if; intros _; [apply safe_record_diag|by apply safe_ret].
    - eapply safe_bind; [apply safe_record_diag|]. intros _ _.
      eapply safe_bind; [apply safe_enter|]. intros _ _. by apply safe_ret. }
  apply safe_if; intros _.
  { eapply safe_bind; [by apply safe_channel_notice|]. intros i _.
    eapply safe_bind; [apply safe_enter|]. intros _ _. apply safe_fail. }
  apply safe_if; intros _; [eapply safe_bind; [by apply safe_refuse_global|by intros _ _]|].
  apply safe_if; intros _; [eapply safe_bind; [by apply safe_refuse_open|by intros _ _]|].
  apply safe_if; intros _; [eapply safe_bind; [by apply safe_channel_notice|by intros _ _]|].
  apply safe_if; intros _; [done|apply safe_fail].
Qed.

Lemma safe_channel_success rc : safe always (ssh_transport_send_channel_success rc) (fun _ => True).
Proof. apply safe_send_message; [tame_tac|done|apply safe_enter]. Qed.

Lemma safe_channel_failure rc : safe always (ssh_transport_send_channel_failure rc) (fun _ => True).
Proof. apply safe_send_message; [tame_tac|done|apply safe_enter]. Qed.

Lemma safe_receive_data cap :
  safe always (ssh_transport_receive_channel_data cap) (fun r => stored_ok cap (snd r)).
Proof.
  unfold ssh_transport_receive_channel_data. eapply safe_bind; [by apply safe_skip|]. intros pl [Hb _].
  eapply safe_bind; [by eapply safe_decode_message; [apply _|]|]. intros d [_ Hv]. tstep.
  eapply safe_bind; [apply safe_enter|]. intros _ _. apply safe_ret. cbn [snd].
  destruct (view_ok_len _ Hv) as [El _]. split; [by apply view_ok_byte|lia].
Qed.

(** The data of a decoded message is a view of the payload. *)
Definition message_fields_ok (m : ssh_channel_message) : Prop :=
  null_or_ok (msg_data m) /\ is_u32 (window_bytes m).

Lemma channel_message_data t pl m b :
  Forall is_byte pl -> ssh_channel_message_decode (ssh_buffer_wrap uninit_buffer (Some pl) (zlen pl), t) = (Ret tt, (b, m)) ->
  message_fields_ok m.
Proof.
  intros Hb E. assert (decode_from (run_out ssh_channel_message_decode t) pl = Ret m) as Hm
    by (unfold decode_from, run_out; by rewrite E).
  destruct (decodes_decode_from _ _ _ _ (channel_message_decodes t) Hb Hm) as (u1 & u2 & _ & _ & rc & k & _ & Hk & -> & _).
  destruct k; split; cbn in *; try done; first [apply Hk|by left|by right].
Qed.

Lemma safe_message_loop tries message :
  safe always (channel_message_loop tries message) message_fields_ok.
Proof.
  revert message. induction tries as [|tries IH]; intros message; cbn [channel_message_loop]; [apply safe_fail|].
  eapply safe_bind; [by apply safe_skip|]. intros [|id pl] [Hb _]; [apply safe_fail|].
  apply safe_if; intros _; [done|].
  apply safe_if; intros _; [eapply safe_bind; [by apply safe_refuse_global|by intros _ _]|].
  apply safe_if; intros _; [eapply safe_bind; [by apply safe_refuse_open|by intros _ _]|].
  apply (safe_bind _ _ (fun d => fst d = None -> message_fields_ok (snd d))).
  { pose proof (decodes_no_fault _ _ (id :: pl) (channel_message_decodes message) Hb) as Hn.
    unfold decode_from, run_out in Hn. unfold decode_struct.
    destruct (ssh_channel_message_decode _) as [[[]|e|] [b t']] eqn:E; [|by apply safe_ret|done].
    apply safe_ret. intros _. by apply (channel_message_data message (id :: pl) t' b). }
  intros [[st|] m] Hm; cbn [fst snd] in *; [|by apply safe_ret, Hm].
  apply safe_if; intros _; [|apply safe_fail].
  eapply safe_bind; [by apply (safe_decode_struct _ _ _ zero_request (channel_request_decodes zero_request))|].
  intros r _. cbv zeta. eapply safe_bind; [apply safe_record_diag|]. intros _ _.
  apply safe_if; intros _; [|apply safe_fail]. eapply safe_bind; [|by intros _ _].
  apply safe_if; intros _; [apply safe_channel_failure|by apply safe_ret].
Qed.

Lemma safe_receive_message message cap :
  0 <= cap -> safe always (ssh_transport_receive_channel_message message cap)
    (fun r => is_u32 (window_bytes (fst r)) /\ stored_ok cap (snd r)).
Proof.
  intros Hcap. unfold ssh_transport_receive_channel_message. eapply safe_bind; [apply safe_message_loop|].
  intros m [Hm Hw]. cbv zeta.
  assert (forall v d, stored_ok cap d -> safe always (enter v;; mret (m, d))
    (fun r : ssh_channel_message * list Z => is_u32 (window_bytes (fst r)) /\ stored_ok cap (snd r))) as Hend.
  { intros v d Hd. eapply safe_bind; [apply safe_enter|]. intros _ _. by apply safe_ret. }
  assert (stored_ok cap []) as H0 by (by split).
  repeat (apply safe_if; intros _; [try (by apply Hend)|]); [|by apply safe_ret].
  tstep. apply Hend. destruct Hm as [->|Hv]; [done|]. destruct (view_ok_len _ Hv) as [El _].
  split; [by apply view_ok_byte|lia].
Qed.

Lemma safe_send_data rc data :
  Forall is_byte data -> safe always (ssh_transport_send_channel_data rc data) (fun _ => True).
Proof.
  intros Hb. unfold ssh_transport_send_channel_data.
  apply (safe_bind _ _ (fun _ => True)); [|intros _ _; apply safe_enter].
  assert (length data < S (length data))%nat as Hf by lia. revert Hf. generalize (S (length data)). intros fuel.
  revert data Hb. induction fuel as [|fuel IH]; intros data Hb Hf; cbn [send_channel_data_loop]; [lia|]. cbv zeta.
  set (chunk := ztake _ data). assert (Forall is_byte chunk /\ zlen chunk <= 32759) as [Hcb Hcl].
  { split; [by apply Forall_take|]. unfold chunk, EMSSH_MAX_PAYLOAD_SIZE. rewrite zlen_ztake by lia. lia. }
  eapply safe_bind; [apply safe_encode; [|done]|].
  { unfold ssh_channel_data_encode. apply tame_buffer, tame_reject. intros Hc.
    destruct data as [|b data]; eapply tame_emits; (apply emits_bind; [by apply emits_u8|]);
      (apply emits_bind; [apply emits_u32|]).
    - apply (emits_null_or_ok null_view). by left.
    - apply emits_string; [done|unfold UINT32_MAX; lia]. }
  intros pl [Hpb _]. eapply safe_bind; [by apply safe_send_protected|]. intros _ _.
  destruct (zdrop _ data) as [|b rest] eqn:E; [by apply safe_ret|]. apply IH; rewrite <- E; [by apply Forall_drop|].
  unfold zdrop, EMSSH_MAX_PAYLOAD_SIZE in *. rewrite length_drop. apply (f_equal length) in E.
  rewrite length_drop in E. cbn [length] in E. lia.
Qed.

Lemma safe_window_adjust rc n : safe always (ssh_transport_send_channel_window_adjust rc n) (fun _ => True).
Proof.
  unfold ssh_transport_send_channel_window_adjust. tstep. apply safe_send_message; [tame_tac|done|apply safe_enter].
Qed.

Lemma safe_simple rc id : safe always (send_channel_simple rc id) (fun _ => True).
Proof.
  unfold send_channel_simple. eapply (safe_bind _ _ (Forall is_byte)).
  - apply safe_if; intros _; [|apply safe_if; intros _; [|apply safe_fail]].
    + eapply safe_conseq; [apply safe_encode; [apply (tame_emits _ _ (emits_eof rc))|done]|]. by intros pl [? _].
    + eapply safe_conseq; [apply safe_encode; [apply (tame_emits _ _ (emits_close rc))|done]|]. by intros pl [? _].
  - intros pl Hb. eapply safe_bind; [by apply safe_send_protected|]. intros _ _. apply safe_enter.
Qed.

Lemma safe_exit_status rc st : safe always (ssh_transport_send_channel_exit_status rc st) (fun _ => True).
Proof.
  unfold ssh_transport_send_channel_exit_status. eapply safe_bind; [apply safe_encode; [tame_tac|done]|].
  intros pl [Hb _]. by apply safe_send_protected.
Qed.

End safe.
