(* ===== verification/TransportSession.v ===== *)
(** * Sessions: any sequence of transport operations

    The operations of ssh_transport.h as a type, sequences of them as the server
    or any other caller may issue them, going on after errors, and what holds of
    every such sequence against every network, peer and crypto backend that keeps
    its contract. *)

From S2P Require Import Prelude Interaction Buffer Platform Packet Codec Service Kex UserPolicy.
From S2P Require Import Userauth Connection Ident TransportState Transport TransportSafe.

Inductive transport_op : Type :=
| OpSetRekeyLimits (packets bytes : Z)
| OpSendIdentification
| OpReceiveIdentification
| OpSendKexinit
| OpReceiveKexinit
| OpReceiveEcdhInit
| OpSendEcdhReply
| OpSendNewkeys
| OpReceiveNewkeys
| OpSendExtInfo
| OpSendPayload (payload : list Z)
| OpReceivePayload (capacity : Z)
| OpReceiveServiceRequest
| OpSendServiceAccept (name : option (list Z))
| OpReceiveUserauth
| OpSendPkOk (algorithm blob : ssh_string_view)
| OpSendSuccess
| OpSendFailure (methods : option (list Z)) (partial : bool)
| OpHandleUserauth (request : ssh_userauth_request)
| OpReceiveChannelOpen
| OpReceiveChannelOpenSkip
| OpSendGlobalFailure
| OpSendConfirmation (recipient sender window packet : Z)
| OpSendOpenFailure (recipient reason : Z) (description : option (list Z))
| OpReceiveChannelRequest (request : ssh_channel_request)
| OpSendChannelSuccess (recipient : Z)
| OpSendChannelFailure (recipient : Z)
| OpReceiveChannelData (capacity : Z)
| OpReceiveChannelMessage (message : ssh_channel_message) (capacity : Z)
| OpSendChannelData (recipient : Z) (data : list Z)
| OpSendWindowAdjust (recipient bytes : Z)
| OpSendEof (recipient : Z)
| OpSendClose (recipient : Z)
| OpSendExitStatus (recipient status : Z).

(** Arguments as C has them: bytes, 64-bit limits, array sizes, requests that came
    from the decoder. *)
Definition top_ok (o : transport_op) : Prop :=
  match o with
  | OpSetRekeyLimits p b => is_u64 p /\ is_u64 b
  | OpSendPayload pl => Forall is_byte pl
  | OpReceiveChannelMessage _ cap => 0 <= cap
  | OpSendServiceAccept t | OpSendFailure t _ | OpSendOpenFailure _ _ t => text_ok t
  | OpSendPkOk a b => null_or_ok a /\ null_or_ok b
  | OpHandleUserauth r => request_ok r /\ zlen (request_bytes r) <= EMSSH_MAX_USERAUTH_PAYLOAD
  | OpSendChannelData _ d => Forall is_byte d
  | _ => True
  end.

(** What the operations return. *)
Definition top_value (op : transport_op) : Type :=
  match op with
  | OpReceivePayload _ => list Z
  | OpReceiveServiceRequest => ssh_service_request
  | OpReceiveUserauth => ssh_userauth_request
  | OpReceiveChannelOpen | OpReceiveChannelOpenSkip => ssh_channel_open
  | OpReceiveChannelRequest _ => option ssh_status * ssh_channel_request
  | OpReceiveChannelData _ => Z * list Z
  | OpReceiveChannelMessage _ _ => ssh_channel_message * list Z
  | _ => unit
  end.

Definition perform_op (op : transport_op) : TrM (top_value op) :=
  match op return TrM (top_value op) with
  | OpSetRekeyLimits p b => ssh_transport_set_rekey_limits p b
  | OpSendIdentification => ssh_transport_send_identification
  | OpReceiveIdentification => ssh_transport_receive_identification
  | OpSendKexinit => ssh_transport_send_kexinit
  | OpReceiveKexinit => ssh_transport_receive_kexinit
  | OpReceiveEcdhInit => ssh_transport_receive_kex_ecdh_init
  | OpSendEcdhReply => ssh_transport_send_kex_ecdh_reply
  | OpSendNewkeys => ssh_transport_send_newkeys
  | OpReceiveNewkeys => ssh_transport_receive_newkeys
  | OpSendExtInfo => ssh_transport_send_ext_info
  | OpSendPayload pl => ssh_transport_send_protected_payload pl
  | OpReceivePayload cap => ssh_transport_receive_protected_payload to_local cap
  | OpReceiveServiceRequest => ssh_transport_receive_service_request
  | OpSendServiceAccept t => ssh_transport_send_service_accept t
  | OpReceiveUserauth => ssh_transport_receive_userauth_request
  | OpSendPkOk a b => ssh_transport_send_userauth_pk_ok a b
  | OpSendSuccess => ssh_transport_send_userauth_success
  | OpSendFailure t p => ssh_transport_send_userauth_failure t p
  | OpHandleUserauth r => ssh_transport_handle_userauth_request r
  | OpReceiveChannelOpen => ssh_transport_receive_channel_open
  | OpReceiveChannelOpenSkip => ssh_transport_receive_channel_open_skip_global_requests
  | OpSendGlobalFailure => ssh_transport_send_global_request_failure
  | OpSendConfirmation r s w p => ssh_transport_send_channel_open_confirmation r s w p
  | OpSendOpenFailure r c t => ssh_transport_send_channel_open_failure r c t
  | OpReceiveChannelRequest r => ssh_transport_receive_channel_request r
  | OpSendChannelSuccess r => ssh_transport_send_channel_success r
  | OpSendChannelFailure r => ssh_transport_send_channel_failure r
  | OpReceiveChannelData cap => ssh_transport_receive_channel_data cap
  | OpReceiveChannelMessage m cap => ssh_transport_receive_channel_message m cap
  | OpSendChannelData r d => ssh_transport_send_channel_data r d
  | OpSendWindowAdjust r n => ssh_transport_send_channel_window_adjust r n
  | OpSendEof r => ssh_transport_send_channel_eof r
  | OpSendClose r => ssh_transport_send_channel_close r
  | OpSendExitStatus r st => ssh_transport_send_channel_exit_status r st
  end.

(** What a value that is returned satisfies. *)
Definition top_good (op : transport_op) : top_value op -> Prop :=
  match op return top_value op -> Prop with
  | OpReceiveUserauth => fun r => request_ok r /\ zlen (request_bytes r) <= EMSSH_MAX_USERAUTH_PAYLOAD
  | OpReceiveChannelOpenSkip => channel_open_ok
  | OpReceiveChannelMessage _ cap => fun r =>
      is_u32 (window_bytes (fst r)) /\ Forall is_byte (snd r) /\ zlen (snd r) <= cap
  | _ => fun _ => True
  end.

(** An operation that is called for its status. *)
Definition run_top (op : transport_op) : TrM unit := perform_op op;; mret tt.

(** A session: one operation after the other, whatever their status. *)
Fixpoint session_run (ops : list transport_op) : TrM unit :=
  match ops with
  | [] => mret tt
  | o :: ops' => attempt (run_top o);; session_run ops'
  end.

(** The configuration a server starts sessions with. *)
Definition config_ok (srv : transport_server) (algorithms : option ssh_kexinit_algorithm_set) : Prop :=
  algorithms_ok (transport_copy_algorithms (server_crypto (srv_auth srv)) (srv_kexinit_defaults srv) algorithms) /\
  text_ok (backend_signature_algorithms (srv_auth srv)).

Section sessions.
Context (srv : transport_server) (f : cipher_crypt_fn) (g : mac_compute_fn) `{!ServerCrypto srv f g}.

Lemma init_ok algorithms s :
  config_ok srv algorithms -> ssh_transport_session_init (Some srv) algorithms = Ret s ->
  session_ok srv f g s /\ watched s kex_start.
Proof.
  intros [Ha _] E. unfold ssh_transport_session_init in E. case_bool; [done|]. injection E as <-.
  assert (forall n, 0 <= n -> array_ok n (mk_payload (zeros n) 0)) as Hz.
  { intros n Hn. split_and!; cbn; [by apply zlen_zeros|by apply Forall_replicate|lia..]. }
  assert (prot_ok f g ssh_packet_protection_init) as Hp by (split; [by vm_compute|done]).
  split; [|by split]. split; cbn [t_server t_server_identification t_client_identification
    t_client_identification_line t_server_algorithms t_server_kexinit_payload t_client_kexinit_payload
    t_inbound_sequence t_outbound_sequence t_rekey t_material t_session_id t_inbound t_outbound];
    try done; try (by left); try (by apply Hz).
Qed.

Lemma safe_rekey_limits p b :
  is_u64 p -> is_u64 b -> safe srv f g always (ssh_transport_set_rekey_limits p b) (fun _ => True).
Proof.
  intros Hp Hb. apply safe_modify. intros s Hs _. pose proof Hs as [].
  split_and!; [|by split|done..]. split; cbn; try done. split; cbn; try done.
  unfold update_rekey_needed, is_u64 in *. cbn. f_equal. lia.
Qed.

(** Applies a lemma of the operations, its class arguments from the context and its
    premises from the hypotheses. *)
Local Tactic Notation "typed" tactic3(t) := t; first [done|apply _].

Lemma safe_perform_op o :
  text_ok (backend_signature_algorithms (srv_auth srv)) -> top_ok o ->
  safe srv f g always (perform_op o) (top_good o).
Proof.
  intros Ht Ho. destruct o; cbn [perform_op top_ok top_good top_value] in *; destruct_and?.
  - typed (apply safe_rekey_limits).
  - typed (apply safe_send_identification).
  - typed (apply safe_receive_identification).
  - typed (apply safe_send_kexinit).
  - typed (apply safe_receive_kexinit).
  - typed (apply safe_receive_ecdh_init).
  - typed (apply safe_send_ecdh_reply).
  - typed (apply safe_send_newkeys).
  - typed (apply safe_receive_newkeys).
  - typed (apply safe_ext_info).
  - typed (apply safe_send_protected).
  - typed (eapply safe_conseq; [eapply safe_receive_protected, to_local_delivers|]).
  - typed (apply safe_receive_service).
  - typed (apply safe_send_service).
  - typed (apply safe_receive_userauth).
  - typed (apply safe_send_pk_ok).
  - typed (apply safe_send_success).
  - typed (apply safe_send_failure).
  - typed (apply safe_handle_userauth).
  - typed (apply safe_receive_open).
  - typed (apply safe_open_skip).
  - typed (apply safe_global_failure).
  - typed (apply safe_confirmation).
  - typed (apply safe_open_failure).
  - typed (apply safe_receive_request).
  - typed (apply safe_channel_success).
  - typed (apply safe_channel_failure).
  - typed (eapply safe_conseq; [apply safe_receive_data|]).
  - typed (apply safe_receive_message).
  - typed (apply safe_send_data).
  - typed (apply safe_window_adjust).
  - typed (apply safe_simple).
  - typed (apply safe_simple).
  - typed (apply safe_exit_status).
Qed.

Lemma safe_top o :
  text_ok (backend_signature_algorithms (srv_auth srv)) -> top_ok o ->
  safe srv f g always (run_top o) (fun _ => True).
Proof.
  intros Ht Ho. eapply safe_bind; [apply _|by apply safe_perform_op|]. intros v _. by apply safe_ret.
Qed.

Lemma safe_session ops :
  text_ok (backend_signature_algorithms (srv_auth srv)) -> Forall top_ok ops ->
  safe srv f g always (session_run ops) (fun _ => True).
Proof.
  intros Ht Hops. induction Hops as [|o ops Ho _ IH]; cbn [session_run]; [by apply safe_ret|].
  eapply safe_bind; [apply _|by apply safe_attempt, safe_top|]. by intros _ _.
Qed.

Lemma session_ends {W} (e : env tcall treply W) ops s x w :
  session_ok srv f g s -> watched s x -> env_good treply_good e ->
  text_ok (backend_signature_algorithms (srv_auth srv)) -> Forall top_ok ops ->
  let '(o, s', _, evs) := run e (session_run ops s) w in
  accepted kex_step kex_permits x evs /\ o <> Fault /\ session_ok srv f g s' /\
  watched s' (final kex_step x evs) /\ evolves s s'.
Proof.
  intros Hs Hx He Ht Ho.
  pose proof (run_monitored kex_step kex_permits treply_good e _ _ x w He (safe_session ops Ht Ho s x Hs Hx I)) as H.
  destruct (run e (session_run ops s) w) as [[[o s'] w'] evs]. destruct H as (Ha & Hs' & Hx' & Hev & Hr).
  split_and!; try done. by intros ->.
Qed.
End sessions.

(** Errors of one operation do not end a session. *)
Lemma session_run_returns {W} (e : env tcall treply W) ops s w :
  let '(o, _, _, _) := run e (session_run ops s) w in o = Ret tt \/ o = Fault.
Proof.
  revert s w. induction ops as [|op ops IH]; intros s w; cbn [session_run run]; [by left|].
  unfold mbind, io_bind, attempt. destruct (run e (run_top op s) w) as [[[o s1] w1] evs] eqn:E.
  destruct o as [a|err|].
  - pose proof (IH s1 w1) as H. destruct (run e (session_run ops s1) w1) as [[[o s2] w2] evs2] eqn:E2.
    erewrite run_tree_bind; [|erewrite run_tree_bind; [reflexivity|exact E|reflexivity]|exact E2]. done.
  - pose proof (IH s1 w1) as H. destruct (run e (session_run ops s1) w1) as [[[o s2] w2] evs2] eqn:E2.
    erewrite run_tree_bind; [|erewrite run_tree_bind; [reflexivity|exact E|reflexivity]|exact E2]. done.
  - erewrite run_tree_bind; [|erewrite run_tree_bind; [reflexivity|exact E|reflexivity]|reflexivity]. by right.
Qed.

(** ** A server for the examples *)
Definition demo_crypto_api : ssh_crypto_api := mk_crypto (Some xor_cipher) (Some (sum_mac 32)) None.
Definition demo_auth : auth_server :=
  mk_auth_server (Some (fun _ => true)) None None 0 None (Some demo_crypto_api) None.
Definition demo_transport_server : transport_server :=
  mk_transport_server true None demo_auth true true true true true None.

#[export] Instance demo_server_crypto : ServerCrypto demo_transport_server xor_cipher (sum_mac 32).
Proof. split; [apply _|apply (sum_mac_ok 32)|]. intros api [= <-]. done. Qed.

Lemma demo_config_ok : config_ok demo_transport_server None.
Proof.
  split; [|done]. unfold algorithms_ok. cbn. repeat (constructor; [split; [apply view_ok_of;
    [by apply (bool_decide_unpack _); vm_compute|by vm_compute]|by vm_compute]|]). constructor.
Qed.

(** A network that delivers a script one byte at a time and accepts every byte,
    and a crypto backend that fills its results with one byte each, a hash with
    what is left of the script. *)
Definition next_byte {A} (closed : A) (data : list Z -> A) (len : Z) (w : list Z) : A * list Z :=
  match w with
  | b :: w' => if (len <=? 0) || negb (bool_decide (is_byte b)) then (closed, w) else (data [b], w')
  | [] => (closed, [])
  end.
Definition demo_transport_env : env tcall treply (list Z) := fun c =>
  match c return list Z -> treply c * list Z with
  | NetRead len => next_byte ReadClosed ReadData len
  | NetReadOn len => next_byte FinalClosed FinalData len
  | NetWrite data => fun w => (zlen data, w)
  | RngUse => fun w => (count_rng, w)
  | KexGenerateKeypair _ => fun w => ((SSH_OK, [1], [2]), w)
  | KexComputeSharedSecret _ _ _ => fun w => ((SSH_OK, [3]), w)
  | HostkeyPublic _ => fun w => ((SSH_OK, [4]), w)
  | HashExchange _ _ => fun w => ((SSH_OK, [5 + zlen w mod 200]), w)
  | HostkeySign _ _ => fun w => ((SSH_OK, [6]), w)
  | DeriveKey _ _ _ _ _ len => fun w => ((SSH_OK, replicate (Z.to_nat len) 7), w)
  end.

Lemma next_byte_good {A} closed (data : list Z -> A) (G : A -> Prop) len w :
  G closed -> (forall b, read_ok len [b] -> G (data [b])) -> G (fst (next_byte closed data len w)).
Proof.
  intros Hc Hd. unfold next_byte. destruct w as [|b w]; [done|].
  case_match eqn:E; [done|]. apply orb_false_iff in E as [E1 E2]. apply negb_false_iff, bool_decide_eq_true in E2.
  apply Hd. split; [|done]. split; [by constructor|]. rewrite zlen_cons, zlen_nil. lia.
Qed.

Lemma demo_transport_env_good : env_good treply_good demo_transport_env.
Proof.
  assert (forall cap b, 1 <= cap -> is_byte b -> stored_ok cap [b]) as Hone
    by (intros cap b Hc Hb; split; [by constructor|rewrite zlen_cons, zlen_nil; lia]).
  intros c w. destruct c; cbn [demo_transport_env treply_good fst snd]; try done; try (by apply Hone).
  - by apply (next_byte_good _ _ (fun r => match r with ReadData bs => read_ok len bs | _ => True end)).
  - by apply (next_byte_good _ _ (fun r => match r with FinalData bs => read_ok len bs | _ => True end)).
  - intros n Hn _. split; [by apply rng_length|apply rng_byte].
  - split; by apply Hone.
  - apply Hone; [done|]. pose proof (Z.mod_pos_bound (zlen w) 200). unfold is_byte. lia.
  - split; [by apply Forall_replicate|]. unfold zlen. rewrite length_replicate. lia.
Qed.

(** A client's side of the first key exchange, and the operations that answer it. *)
Definition demo_written (p : BufM unit) : list Z :=
  match with_writer 2048 (p;; buf ← get_state; mret (ssh_buffer_len buf)) (Some (zeros 2048)) with
  | (Ret n, Some m) => ztake n m
  | _ => []
  end.
Definition demo_framed (payload : list Z) : list Z :=
  match ssh_packet_encode_plain 2048 (Some payload) (zlen payload) 8 None (Some (zeros 2048)) with
  | (Ret n, Some m) => ztake n m
  | _ => []
  end.
Definition demo_handshake : list Z :=
  cstr "SSH-2.0-demo" ++ [13; 10] ++
  demo_framed (demo_written
    (ssh_kexinit_encode (Some (zeros 16)) (Some ssh_kexinit_algorithm_set_defaults) false)) ++
  demo_framed (demo_written (ssh_kex_ecdh_init_encode (Some [9; 9]) 2)) ++
  demo_framed [SSH_MSG_NEWKEYS].
Definition demo_ops : list transport_op :=
  [OpSendIdentification; OpReceiveIdentification; OpSendKexinit; OpReceiveKexinit; OpReceiveEcdhInit;
   OpSendEcdhReply; OpSendNewkeys; OpReceiveNewkeys].
Definition demo_again : list transport_op := [OpSendKexinit; OpSendEcdhReply; OpSendNewkeys].
(** ** The properties *)

(** C6: whatever the peer sends, whatever the callbacks reply within their
    contract and whichever operations are called in whichever order, a transport
    session never reads or writes outside its arrays, and it uses the key
    exchange callbacks in turn: a shared secret is computed only with the private
    key generated last, the host key signs only the exchange hash computed last,
    and keys are derived from that hash, always under one session identifier,
    with the letters A to F and the lengths of the algorithms. *)
Theorem transport_session_safe srv f g {W} (e : env tcall treply W) algorithms s ops w :
  ServerCrypto srv f g -> config_ok srv algorithms -> env_good treply_good e -> Forall top_ok ops ->
  ssh_transport_session_init (Some srv) algorithms = Ret s ->
  let '(o, _, _, evs) := run e (session_run ops s) w in
  accepted kex_step kex_permits kex_start evs /\ o = Ret tt.
Proof.
  intros Hsc Hcfg He Hops E. destruct (init_ok srv f g _ _ Hcfg E) as [Hs Hx].
  pose proof (session_ends srv f g e ops s kex_start w Hs Hx He (proj2 Hcfg) Hops) as H.
  pose proof (session_run_returns e ops s w) as Hr.
  destruct (run e (session_run ops s) w) as [[[o s'] w'] evs]. destruct H as (Ha & Hf & _).
  split; [done|]. by destruct Hr.
Qed.

Lemma transport_session_safe_witness :
  exists s, ssh_transport_session_init (Some demo_transport_server) None = Ret s /\
  let '(o, s', _, evs) := run demo_transport_env (session_run demo_ops s) demo_handshake in
  accepted kex_step kex_permits kex_start evs /\ o = Ret tt /\ t_state s' = STATE_NEWKEYS_RECEIVED.
Proof.
  eexists. split; [reflexivity|].
  match goal with |- let '(_, _) := ?r in _ => assert (t_state (snd (fst (fst r))) = STATE_NEWKEYS_RECEIVED) as Hst
    by (by vm_compute) end.
  pose proof (fun s => transport_session_safe demo_transport_server xor_cipher (sum_mac 32) demo_transport_env None s
    demo_ops demo_handshake demo_server_crypto demo_config_ok demo_transport_env_good) as H.
  specialize (H _ ltac:(by repeat constructor) eq_refl).
  destruct (run _ _ _) as [[[o s'] w'] evs]. destruct H. by split_and!.
Defined.

(** C36: every operation keeps a session well formed, from any well-formed session
    and whatever the peer and the callbacks do: the arrays keep their sizes and
    hold bytes, their lengths stay within them, the sequence numbers stay 32-bit
    and the rekey counters 64-bit with the rekey flag equal to the comparison of
    the counters with the limits, and an active protection has the cipher, the
    MAC and the block size it was set up with. *)
Theorem transport_operation_typed srv f g {W} (e : env tcall treply W) op s x w :
  ServerCrypto srv f g -> text_ok (backend_signature_algorithms (srv_auth srv)) -> env_good treply_good e ->
  top_ok op -> session_ok srv f g s -> watched s x ->
  let '(o, s', _, _) := run e (run_top op s) w in session_ok srv f g s' /\ o <> Fault.
Proof.
  intros Hsc Ht He Ho Hs Hx.
  pose proof (run_monitored kex_step kex_permits treply_good e _ _ x w He (safe_top srv f g op Ht Ho s x Hs Hx I)) as H.
  destruct (run e (run_top op s) w) as [[[o s'] w'] evs]. destruct H as (_ & Hs' & _ & _ & Hr).
  split; [done|]. by intros ->.
Qed.

Lemma transport_operation_typed_witness :
  exists s, ssh_transport_session_init (Some demo_transport_server) None = Ret s /\
  let '(o, s', _, _) := run demo_transport_env (run_top OpReceiveIdentification s) demo_handshake in
  session_ok demo_transport_server xor_cipher (sum_mac 32) s' /\ o <> Fault.
Proof.
  eexists. split; [reflexivity|].
  pose proof (fun s => transport_operation_typed demo_transport_server xor_cipher (sum_mac 32) demo_transport_env
    OpReceiveIdentification s kex_start demo_handshake demo_server_crypto (proj2 demo_config_ok) demo_transport_env_good I) as H.
  edestruct (init_ok demo_transport_server xor_cipher (sum_mac 32) None) as [Hs Hx]; [apply demo_config_ok|reflexivity|].
  specialize (H _ Hs Hx). destruct (run _ _ _) as [[[o s'] w'] evs]. exact H.
Defined.

(** C34: what the first key exchange fixed stays fixed: once a session has an
    identifier no later operation, rekeying included, changes it, and a direction
    that is protected is never unprotected again. *)
Theorem session_id_kept srv f g {W} (e : env tcall treply W) algorithms s ops ops' w :
  ServerCrypto srv f g -> config_ok srv algorithms -> env_good treply_good e ->
  Forall top_ok ops -> Forall top_ok ops' ->
  ssh_transport_session_init (Some srv) algorithms = Ret s ->
  let '(_, s1, w1, _) := run e (session_run ops s) w in
  let '(_, s2, _, _) := run e (session_run ops' s1) w1 in
  (t_session_id s1 <> [] -> t_session_id s2 = t_session_id s1) /\
  (prot_active (t_inbound s1) = true -> prot_active (t_inbound s2) = true) /\
  (prot_active (t_outbound s1) = true -> prot_active (t_outbound s2) = true).
Proof.
  intros Hsc Hcfg He Hops Hops' E. destruct (init_ok srv f g _ _ Hcfg E) as [Hs Hx].
  pose proof (session_ends srv f g e ops s kex_start w Hs Hx He (proj2 Hcfg) Hops) as H.
  destruct (run e (session_run ops s) w) as [[[o s1] w1] evs]. destruct H as (_ & _ & Hs1 & Hx1 & _).
  pose proof (session_ends srv f g e ops' s1 _ w1 Hs1 Hx1 He (proj2 Hcfg) Hops') as H.
  destruct (run e (session_run ops' s1) w1) as [[[o' s2] w2] evs2]. by destruct H as (_ & _ & _ & _ & []).
Qed.

Lemma session_id_kept_witness :
  exists s, ssh_transport_session_init (Some demo_transport_server) None = Ret s /\
  let r1 := run demo_transport_env (session_run demo_ops s) demo_handshake in
  let s1 := snd (fst (fst r1)) in
  let s2 := snd (fst (fst (run demo_transport_env (session_run demo_again s1) (snd (fst r1))))) in
  t_session_id s1 = [21] /\ exchange_hash (t_material s2) = [5] /\ t_session_id s2 = t_session_id s1.
Proof.
  eexists. split; [reflexivity|]. intros r1 s1 s2. split_and!; [by vm_compute..|].
  assert (t_session_id s1 <> []) as H1 by (by vm_compute). subst s2 s1.
  pose proof (fun s => session_id_kept demo_transport_server xor_cipher (sum_mac 32) demo_transport_env None s
    demo_ops demo_again demo_handshake demo_server_crypto demo_config_ok demo_transport_env_good
    ltac:(by repeat constructor) ltac:(by repeat constructor)) as H.
  specialize (H _ eq_refl). fold r1 in H. destruct r1 as [[[o1 s1] w1] evs1]. cbn [fst snd] in *.
  destruct (run _ _ w1) as [[[o2 s2] w2] evs2]. by apply H.
Defined.
