(* ===== verification/TransportQuiet.v ===== *)
(** * Sending never times out

    [SSH_ERR_NOT_FOUND] is how the transport reports that nothing was received
    yet.  The callers go on after it, so an operation that sends must not report
    it: part of a packet could have been written.  That none of the sending
    operations of a channel does, whatever the callbacks reply, follows from the
    statuses in their code alone: [avoids] is the property for the programs on
    buffers and packets, [never] (Interaction.v) for the operations. *)

From S2P Require Import Prelude Interaction Buffer Platform Packet Codec Connection TransportState Transport.

(** No run of the program ends with the status [err]. *)
Definition avoids {S A} (err : ssh_status) (p : Prog S A) : Prop := forall s, fst (p s) <> Err err.

Section avoids.
Context {S : Type} (err : ssh_status).

Lemma avoids_bind {A B} (p : Prog S A) (f : A -> Prog S B) :
  avoids err p -> (forall a, avoids err (f a)) -> avoids err (x ← p; f x).
Proof.
  intros Hp Hf s. specialize (Hp s). unfold mbind, prog_bind. destruct (p s) as [[a|e|] s']; [apply Hf| |done].
  cbn in *. by intros [= ->].
Qed.
Lemma avoids_ret {A} (a : A) : avoids (S:=S) err (mret a).
Proof. by intros s. Qed.
Lemma avoids_fault {A} : avoids (S:=S) (A:=A) err fault.
Proof. by intros s. Qed.
Lemma avoids_fail {A} e : e <> err -> avoids (S:=S) (A:=A) err (fail e).
Proof. intros He s [= ->]. done. Qed.
Lemma avoids_reject c e : e <> err -> avoids (S:=S) err (reject c e).
Proof. intros He. destruct c; [by apply avoids_fail|apply avoids_ret]. Qed.
Lemma avoids_get : avoids (S:=S) err get_state.
Proof. by intros s. Qed.
End avoids.

(** Programs without a status of their own: they end well or outside an object. *)
Ltac no_status := intros s; cbn; repeat (case_match; cbn); done.

Lemma avoids_store err bs : avoids err (store bs).
Proof. unfold store. no_status. Qed.
Lemma avoids_deref err p n : avoids err (deref p n).
Proof. unfold deref. no_status. Qed.
Lemma avoids_get_prot err : avoids err get_prot.
Proof. no_status. Qed.
Lemma avoids_set_prot err p : avoids err (set_prot p).
Proof. no_status. Qed.
Lemma avoids_mem_get err off len : avoids err (mem_get off len).
Proof. unfold mem_get. no_status. Qed.
Lemma avoids_mem_set err off bs : avoids err (mem_set off bs).
Proof. unfold mem_set. no_status. Qed.

Lemma avoids_writer err {A} capacity (p : BufM A) : avoids err p -> avoids err (with_writer capacity p).
Proof.
  intros Hp s. specialize (Hp (ssh_buffer_init uninit_buffer s capacity)). unfold with_writer.
  by destruct (p _) as [o b].
Qed.
Lemma avoids_on_mem err {A} (p : OutM A) : avoids err p -> avoids err (on_mem p).
Proof. intros Hp s. specialize (Hp (io_mem s)). unfold on_mem. by destruct (p _) as [o m]. Qed.

Create HintDb quiet.
#[export] Hint Resolve avoids_ret avoids_fault avoids_get avoids_store avoids_deref avoids_get_prot avoids_set_prot
  avoids_mem_get avoids_mem_set : quiet.

(** Follows the statements of a program whose statuses are constants. *)
Ltac quiet_step :=
  cbv zeta;
  lazymatch goal with
  | |- avoids _ (mbind _ _) => apply avoids_bind; [|intros ?]
  | |- avoids _ (reject _ _) => by apply avoids_reject
  | |- avoids _ (fail _) => by apply avoids_fail
  | |- avoids _ (with_writer _ _) => apply avoids_writer
  | |- avoids _ (on_mem _) => apply avoids_on_mem
  | |- avoids _ (if ?c then _ else _) => destruct c
  | |- avoids _ (match ?x with _ => _ end) => destruct x
  | |- avoids _ (let '(_, _) := ?x in _) => destruct x
  | |- never _ (mbind _ _) => apply never_bind; [|intros ?]
  | |- never _ (io_reject _ _) => by apply never_reject
  | |- never _ (io_fail _) => by apply never_fail
  | |- never _ (mret _) => apply never_ret
  | |- never _ (io_get _) => apply never_get
  | |- never _ (io_modify _) => apply never_modify
  | |- never _ (perform ?c) => exact (never_perform _ c)
  | |- never _ (if ?c then _ else _) => destruct c
  | |- never _ (match ?x with _ => _ end) => destruct x
  end.
Ltac quiet := repeat first [quiet_step | solve [auto with quiet]].

(** ** Writers and packets *)
Abbreviation calm := (avoids SSH_ERR_NOT_FOUND).
Abbreviation prompt := (never SSH_ERR_NOT_FOUND).

Lemma calm_live : calm require_live.
Proof. intros s. by apply (avoids_reject (S:=bufptr) SSH_ERR_NOT_FOUND). Qed.
Lemma calm_room n : calm (require_room n).
Proof. intros s. by apply (avoids_reject (S:=bufptr) SSH_ERR_NOT_FOUND). Qed.
Lemma calm_buffer : calm require_buffer.
Proof. intros s. by apply (avoids_reject (S:=bufptr) SSH_ERR_NOT_FOUND). Qed.
#[export] Hint Resolve calm_live calm_room calm_buffer : quiet.

Lemma calm_u8 v : calm (ssh_buffer_put_u8 v).
Proof. unfold ssh_buffer_put_u8. quiet. Qed.
Lemma calm_u32 v : calm (ssh_buffer_put_u32 v).
Proof. unfold ssh_buffer_put_u32. quiet. Qed.
Lemma calm_bytes d n : calm (ssh_buffer_put_bytes d n).
Proof. unfold ssh_buffer_put_bytes. quiet. Qed.
#[export] Hint Resolve calm_u8 calm_u32 calm_bytes : quiet.
Lemma calm_bool v : calm (ssh_buffer_put_bool v).
Proof. unfold ssh_buffer_put_bool. quiet. Qed.
Lemma calm_string d n : calm (ssh_buffer_put_string d n).
Proof. unfold ssh_buffer_put_string. quiet. Qed.
#[export] Hint Resolve calm_bool calm_string : quiet.
Lemma calm_cstring v : calm (ssh_buffer_put_cstring v).
Proof. unfold ssh_buffer_put_cstring. quiet. Qed.
#[export] Hint Resolve calm_cstring : quiet.

Lemma calm_padding rng n : calm (put_padding rng n).
Proof. unfold put_padding. quiet. Qed.
#[export] Hint Resolve calm_padding : quiet.

Lemma calm_encode_plain cap pl n b rng : calm (ssh_packet_encode_plain cap pl n b rng).
Proof.
  intros out. unfold ssh_packet_encode_plain.
  match goal with |- fst (?p out) <> _ => assert (calm p) as Hp; [|apply Hp] end. quiet.
Qed.
Lemma calm_mac n : calm (call_mac n).
Proof. unfold call_mac. quiet. Qed.
Lemma calm_cipher iv dir n : calm (call_cipher iv dir n).
Proof. unfold call_cipher. quiet. Qed.
#[export] Hint Resolve calm_encode_plain calm_mac calm_cipher : quiet.

Lemma calm_encode_protected cap pl n rng : calm (ssh_packet_encode_protected cap pl n rng).
Proof. unfold ssh_packet_encode_protected. quiet. Qed.

(** ** Sending *)
Lemma prompt_write_loop fuel data : prompt (net_write_loop fuel data).
Proof.
  revert data. induction fuel as [|fuel IH]; intros [|b data]; cbn [net_write_loop]; quiet.
  by apply never_outcome.
Qed.

Lemma prompt_send pl : prompt (ssh_transport_send_protected_payload pl).
Proof.
  unfold ssh_transport_send_protected_payload, use_rng, net_write_all.
  apply never_bind; [quiet|intros p]. apply never_bind; [quiet|intros _]. apply never_bind; [quiet|intros rng].
  pose proof (calm_encode_protected packet_array (Some pl) (zlen pl) rng (mk_packet_io p (Some (zeros packet_array)))) as H.
  destruct (ssh_packet_encode_protected _ _ _ _ _) as [o io]. cbn [fst] in H.
  apply never_bind; [quiet|intros _]. apply never_bind; [by apply never_outcome|intros n].
  quiet. apply prompt_write_loop.
Qed.
#[export] Hint Resolve prompt_send : quiet.

Lemma prompt_encode p cap : calm p -> prompt (encode p cap).
Proof.
  intros Hp. unfold encode. apply never_outcome. unfold encode_into.
  specialize (Hp (ssh_buffer_init uninit_buffer (Some (zeros cap)) cap)).
  destruct (p _) as [[[]|e|] b]; [done| |done]. cbn in Hp. by intros [= ->].
Qed.

Lemma prompt_data rc data : prompt (ssh_transport_send_channel_data rc data).
Proof.
  unfold ssh_transport_send_channel_data, enter. apply never_bind; [|intros _; quiet].
  generalize (S (length data)). intros fuel. revert data.
  induction fuel as [|fuel IH]; intros data; cbn [send_channel_data_loop]; [by apply never_outcome|]. cbv zeta.
  apply never_bind; [apply prompt_encode; unfold ssh_channel_data_encode; quiet|intros pl].
  apply never_bind; [auto with quiet|intros _]. destruct (zdrop _ data); [quiet|apply IH].
Qed.

Lemma prompt_adjust rc n : prompt (ssh_transport_send_channel_window_adjust rc n).
Proof.
  unfold ssh_transport_send_channel_window_adjust, enter. quiet.
  apply prompt_encode. unfold ssh_channel_window_adjust_encode. quiet.
Qed.

Lemma prompt_simple rc id : prompt (send_channel_simple rc id).
Proof.
  unfold send_channel_simple, enter. quiet; apply prompt_encode;
    unfold ssh_channel_eof_encode, ssh_channel_close_encode, ssh_channel_simple_encode; quiet.
Qed.

Lemma prompt_exit_status rc st : prompt (ssh_transport_send_channel_exit_status rc st).
Proof.
  unfold ssh_transport_send_channel_exit_status. quiet. apply prompt_encode.
  unfold ssh_channel_request_exit_status_encode. quiet.
Qed.
