(* ===== verification/TransportWire.v ===== *)
(** * Two transports on a byte stream

    What one session sends, the other receives: a network that hands over bytes
    in pieces of any size as the class [ByteStream], the loops that read and
    write exactly so many bytes of it, protected packets and channel data from a
    sending session to a receiving one whose inbound protection is the sender's
    outbound one.  The statements say that the operations do return, with what
    was sent. *)

From S2P Require Import Prelude Interaction Buffer Platform Packet Codec Service Kex UserPolicy.
From S2P Require Import Userauth Connection Ident TransportState Transport TransportSafe TransportSession.

(** ** The network *)

(** From [w] to [w'] the bytes [r] were taken from the input and [t] added to
    the output. *)
Definition moved {W} (pending sent : W -> list Z) (w w' : W) (r t : list Z) : Prop :=
  pending w = r ++ pending w' /\ sent w' = sent w ++ t.

(** A read returns some of the bytes pending, a write takes some of the bytes
    given, at least one in each case; the random generator works. *)
Class ByteStream {W} (e : env tcall treply W) (pending sent : W -> list Z) : Prop := {
  stream_read len w : 0 < len -> pending w <> [] ->
    exists bs w', e (NetRead len) w = (ReadData bs, w') /\ bs <> [] /\ zlen bs <= len /\
      moved pending sent w w' bs [];
  stream_read_on len w : 0 < len -> pending w <> [] ->
    exists bs w', e (NetReadOn len) w = (FinalData bs, w') /\ bs <> [] /\ zlen bs <= len /\
      moved pending sent w w' bs [];
  stream_write data w : data <> [] ->
    exists n w', e (NetWrite data) w = (n, w') /\ 0 < n <= zlen data /\
      moved pending sent w w' [] (ztake n data);
  stream_rng w : exists fill w', e RngUse w = (fill, w') /\ RngOk fill /\ moved pending sent w w' [] []
}.

Lemma moved_trans {W} pending sent (w1 w2 w3 : W) r t r' t' :
  moved pending sent w1 w2 r t -> moved pending sent w2 w3 r' t' ->
  moved pending sent w1 w3 (r ++ r') (t ++ t').
Proof. intros [A1 A2] [B1 B2]. split; [by rewrite A1, B1, app_assoc|by rewrite B2, A2, app_assoc]. Qed.

Lemma moved_refl {W} pending sent (w : W) : moved pending sent w w [] [].
Proof. split; [done|by rewrite app_nil_r]. Qed.

(** The pieces of a piece of input. *)
Lemma split_prefix (bs d rest tail : list Z) :
  zlen bs <= zlen d -> d ++ rest = bs ++ tail -> exists d', d = bs ++ d' /\ tail = d' ++ rest.
Proof.
  intros Hl E. exists (zdrop (zlen bs) d).
  assert (bs = ztake (zlen bs) d) as Eb.
  { pose proof (zlen_nonneg bs). rewrite <- (ztake_app bs tail) at 1. rewrite <- E. unfold ztake.
    rewrite take_app_le; [done|]. unfold zlen in *. lia. }
  assert (d = bs ++ zdrop (zlen bs) d) as Ed by (rewrite Eb at 1; symmetry; apply ztake_zdrop).
  split; [done|]. rewrite Ed, <- app_assoc in E. by apply app_inv_head in E.
Qed.

Section stream.
Context {W : Type} (e : env tcall treply W) (pending sent : W -> list Z) `{!ByteStream e pending sent}.
Local Abbreviation moves := (moved pending sent).

Lemma read_rest_yields fuel d rest s w :
  (length d <= fuel)%nat -> pending w = d ++ rest ->
  exists w', yields e (net_read_rest fuel (zlen d)) s w d s w' /\ moves w w' d [].
Proof.
  revert d w. induction fuel as [|fuel IH]; intros d w Hf Hp.
  { destruct d; [|cbn in Hf; lia]. exists w. split; [by exists []|apply moved_refl]. }
  destruct d as [|b d]; [exists w; split; [by exists []|apply moved_refl]|].
  destruct (stream_read_on (zlen (b :: d)) w) as (bs & w1 & E & Hne & Hl & Hm).
  { rewrite zlen_cons. pose proof (zlen_nonneg d). lia. }
  { by rewrite Hp. }
  destruct (split_prefix bs (b :: d) rest (pending w1)) as (d' & Ed & Ep);
    [done|by rewrite <- Hp; apply Hm|].
  destruct (IH d' w1) as (w2 & Hy & Hm2); [|done|].
  { rewrite Ed, length_app in Hf. destruct bs; [done|]. cbn in Hf. lia. }
  exists w2. split; [|rewrite Ed; exact (moved_trans _ _ _ _ _ _ _ _ _ Hm Hm2)].
  cbn [net_read_rest]. replace (zlen (b :: d) <=? 0) with false by (rewrite zlen_cons; pose proof (zlen_nonneg d); lia).
  eapply yields_bind; [exact (yields_perform e (NetReadOn _) _ s _ _ E)|]. cbv iota.
  eapply yields_bind; [unfold stored; replace (zlen bs <=? _) with true by lia; apply yields_ret|].
  replace (zlen (b :: d) - zlen bs) with (zlen d') by (rewrite Ed; len_lia).
  eapply yields_bind; [exact Hy|]. rewrite Ed. apply yields_ret.
Qed.

(** Exactly the next bytes, however the network cuts them. *)
Lemma read_exact_yields d rest s w :
  srv_net_read (t_server s) = true -> pending w = d ++ rest ->
  exists w', yields e (net_read_exact (zlen d)) s w d s w' /\ moves w w' d [].
Proof.
  intros Hr Hp. destruct d as [|b d].
  { exists w. split; [|apply moved_refl]. exists []. unfold net_read_exact, mbind, io_bind, io_get. cbn. by rewrite Hr. }
  pose proof (zlen_nonneg d). assert (0 < zlen (b :: d)) as Hpos by (rewrite zlen_cons; lia).
  destruct (stream_read (zlen (b :: d)) w) as (bs & w1 & E & Hne & Hl & Hm); [done|by rewrite Hp|].
  destruct (split_prefix bs (b :: d) rest (pending w1)) as (d' & Ed & Ep); [done|by rewrite <- Hp; apply Hm|].
  destruct (read_rest_yields (Z.to_nat (zlen (b :: d))) d' rest s w1) as (w2 & Hy & Hm2); [|done|].
  { rewrite Ed. unfold zlen. rewrite Nat2Z.id, length_app. lia. }
  exists w2. split; [|rewrite Ed; exact (moved_trans _ _ _ _ _ _ _ _ _ Hm Hm2)].
  unfold net_read_exact. eapply yields_bind; [apply yields_get|]. rewrite Hr.
  eapply yields_bind; [by apply yields_reject|]. replace (zlen (b :: d) <=? 0) with false by lia.
  eapply yields_bind; [exact (yields_perform e (NetRead _) _ s _ _ E)|]. cbv iota.
  eapply yields_bind; [unfold stored; replace (zlen bs <=? _) with true by lia; apply yields_ret|].
  replace (zlen (b :: d) - zlen bs) with (zlen d') by (rewrite Ed; len_lia).
  eapply yields_bind; [exact Hy|]. rewrite Ed. apply yields_ret.
Qed.

Lemma write_loop_yields fuel d s w :
  (length d <= fuel)%nat -> exists w', yields e (net_write_loop fuel d) s w tt s w' /\ moves w w' [] d.
Proof.
  revert d w. induction fuel as [|fuel IH]; intros d w Hf.
  { destruct d; [|cbn in Hf; lia]. exists w. split; [by exists []|apply moved_refl]. }
  destruct d as [|b d]; [exists w; split; [by exists []|apply moved_refl]|].
  destruct (stream_write (b :: d) w) as (n & w1 & E & Hn & Hm); [done|].
  destruct (IH (zdrop n (b :: d)) w1) as (w2 & Hy & Hm2).
  { assert (zlen (zdrop n (b :: d)) = zlen (b :: d) - n) as H by (rewrite zlen_zdrop; lia).
    unfold zlen in H, Hn. lia. }
  exists w2. split.
  2: { rewrite <- (ztake_zdrop n (b :: d)). exact (moved_trans _ _ _ _ _ _ _ _ _ Hm Hm2). }
  cbn [net_write_loop]. eapply yields_bind; [exact (yields_perform e (NetWrite _) _ s _ _ E)|].
  eapply yields_bind; [apply yields_reject; lia|]. eapply yields_bind; [apply yields_reject; lia|]. exact Hy.
Qed.

Lemma write_all_yields d s w :
  srv_net_write (t_server s) = true -> exists w', yields e (net_write_all d) s w tt s w' /\ moves w w' [] d.
Proof.
  intros Hw. destruct (write_loop_yields (length d) d s w) as (w' & Hy & Hm); [done|]. exists w'.
  split; [|done]. unfold net_write_all. eapply yields_bind; [apply yields_get|]. rewrite Hw.
  eapply yields_bind; [by apply yields_reject|]. exact Hy.
Qed.

Lemma use_rng_yields s w :
  exists rng w', yields e use_rng s w rng s w' /\ rng_usable rng /\ moves w w' [] [].
Proof.
  unfold use_rng. destruct (srv_rng (t_server s)) eqn:E.
  - destruct (stream_rng w) as (fill & w' & Ew & Hr & Hm). exists (Some fill), w'. split_and!; [|done..].
    eapply yields_bind; [apply yields_get|]. rewrite E. eapply yields_bind; [exact (yields_perform e RngUse _ s _ _ Ew)|apply yields_ret].
  - exists None, w. split_and!; [|done|apply moved_refl]. eapply yields_bind; [apply yields_get|]. rewrite E. apply yields_ret.
Qed.
End stream.

(** ** Packets *)

(** A protection the codec can use in both directions. *)
Record good_prot (f : cipher_crypt_fn) (g : mac_compute_fn) (p : ssh_packet_protection) : Prop := {
  gp_uses : prot_uses p f g;
  gp_mac : MacOk g (prot_mac_len p);
  gp_block : prot_block_size p <= EMSSH_MAX_CIPHER_IV
}.

(** The session after a packet of [n] bytes, [p] being the protection after it. *)
Definition after_send (n : Z) (p : ssh_packet_protection) (s : transport_session) : transport_session :=
  on_rekey (record_rekey_packet true n) (set_outbound_sequence (prot_sequence p) (set_outbound p s)).
Definition after_receive (deliver : list Z -> transport_session -> transport_session) (payload : list Z)
    (n : Z) (p : ssh_packet_protection) (s : transport_session) : transport_session :=
  let s1 := deliver payload (set_inbound p s) in
  on_rekey (record_rekey_packet false n) (set_inbound_sequence (prot_sequence (t_inbound s1)) s1).

Section packets.
Context {W : Type} (e : env tcall treply W) (pending sent : W -> list Z) `{!ByteStream e pending sent}.
Context (f : cipher_crypt_fn) (g : mac_compute_fn) `{!StreamCipher f} `{!PrefixCipher f}.
Local Abbreviation moves := (moved pending sent).

Lemma good_next p n : good_prot f g p -> 0 <= n < 2 ^ 63 -> good_prot f g (prot_next p n).
Proof.
  intros [U M B] Hn. destruct (prot_next_same p n) as (Em & Eb & _).
  split; [by apply prot_uses_next|by rewrite Em|by rewrite Eb].
Qed.

Lemma sealed_size p pl rng :
  good_prot f g p -> payload_ok pl -> rng_usable rng ->
  9 <= zlen (framed p pl rng) <= 33028 /\ zlen (framed p pl rng) mod prot_block_size p = 0 /\
  prot_block_size p <= zlen (framed p pl rng).
Proof.
  intros [U M B] Hpl Hr. pose proof (uses_block _ _ _ U). unfold EMSSH_MAX_CIPHER_IV in B.
  destruct (framed_facts f g p U pl rng Hpl Hr ltac:(lia)) as (_ & _ & Hm & Hd). split_and!; try done; try lia.
  destruct (Z.le_gt_cases (prot_block_size p) (zlen (framed p pl rng))); [done|]. rewrite Z.mod_small in Hm; lia.
Qed.

(** The receiver learns a packet's length from its first block alone. *)
Lemma framed_first_block p pl rng :
  good_prot f g p -> payload_ok pl -> rng_usable rng ->
  let d := framed p pl rng in read_u32_be (ztake (prot_block_size p) d) = zlen d - 4.
Proof.
  intros Hg Hpl Hr d. pose proof Hg as [U M B]. pose proof (uses_block _ _ _ U) as Hb8.
  destruct (sealed_size p pl rng Hg Hpl Hr) as (Hd & _ & Hbd). fold d in Hd, Hbd.
  destruct (framed_facts f g p U pl rng Hpl Hr) as (Hq & Hqb & _); [unfold EMSSH_MAX_CIPHER_IV in B; lia|].
  assert (Forall is_byte d) as Hdb by (apply plain_packet_byte; [apply Hpl|done|lia]).
  change (read_u32_be (ztake (prot_block_size p) d)) with (packet_length_field (ztake (prot_block_size p) d)).
  destruct (zsplit d 4) as (a & r & Ed & Ha); [lia|].
  destruct (zsplit r (prot_block_size p - 4)) as (r1 & r2 & -> & Hr1).
  { assert (zlen d = zlen (a ++ r)) by (by rewrite Ed). len_lia. }
  rewrite Ed in Hdb |- *. rewrite app_assoc. replace (prot_block_size p) with (zlen (a ++ r1)) by len_lia.
  rewrite ztake_app. apply Forall_app in Hdb as [Hab _]. rewrite packet_length_field_app by done.
  rewrite <- app_assoc, <- Ed. replace a with (ztake 4 d) by (rewrite Ed, <- Ha; apply ztake_app).
  assert (be_value (ztake 4 d) + 4 = zlen d); [|lia].
  apply plain_packet_length. destruct Hpl as [_ Hl]. unfold EMSSH_MAX_PAYLOAD_SIZE in Hl. lia.
Qed.

Lemma send_protected_yields pl s w :
  let p := t_outbound s in
  srv_net_write (t_server s) = true -> good_prot f g p -> payload_ok pl ->
  exists rng w', rng_usable rng /\
    let d := framed p pl rng in
    yields e (ssh_transport_send_protected_payload pl) s w tt
      (after_send (zlen (seal f g p d)) (prot_next p (zlen d)) s) w' /\
    moves w w' [] (seal f g p d).
Proof.
  intros p Hw Hg Hpl. pose proof Hg as [U M B]. unfold EMSSH_MAX_CIPHER_IV in B.
  pose proof (uses_mac _ _ _ U) as HM. unfold EMSSH_MAX_MAC in HM.
  destruct (use_rng_yields e pending sent s w) as (rng & w1 & Hy & Hr & Hm1).
  destruct (sealed_size p pl rng Hg Hpl Hr) as (Hd & _). set (d := framed p pl rng) in *.
  destruct (write_all_yields e pending sent (seal f g p d) (set_outbound (prot_next p (zlen d)) s) w1 Hw) as (w2 & Hy2 & Hm2).
  exists rng, w2. split; [done|]. cbv zeta. fold d. split; [|exact (moved_trans _ _ _ _ _ _ _ _ _ Hm1 Hm2)].
  unfold ssh_transport_send_protected_payload. eapply yields_bind; [apply yields_get|]. fold p.
  eapply yields_bind; [apply yields_reject; by rewrite (uses_active _ _ _ U)|].
  eapply yields_bind; [exact Hy|].
  rewrite (encode_protected_eq f g p U packet_array pl rng (zeros packet_array) Hpl Hr ltac:(lia)).
  2: { fold d. rewrite zlen_zeros by done. change packet_array with 35068. lia. }
  fold d. eapply yields_bind; [apply yields_modify|]. cbn [io_prot io_mem].
  eapply yields_bind; [by apply yields_outcome|]. unfold packet_of. cbn [from_option id]. rewrite ztake_app.
  eapply yields_bind; [exact Hy2|]. eapply yields_bind; [apply yields_modify|]. exact (yields_modify e _ _ _).
Qed.

Lemma receive_protected_yields deliver cap pl rng rest s w :
  let p := t_inbound s in
  let d := framed p pl rng in
  srv_net_read (t_server s) = true -> good_prot f g p -> payload_ok pl -> rng_usable rng -> zlen pl <= cap ->
  pending w = seal f g p d ++ rest ->
  exists w', yields e (ssh_transport_receive_protected_payload deliver cap) s w pl
      (after_receive deliver pl (zlen (seal f g p d)) (prot_next p (zlen d)) s) w' /\
    moves w w' (seal f g p d) [].
Proof.
  intros p d Hrd Hg Hpl Hr Hcap Hp. pose proof Hg as [U M B].
  pose proof (uses_block _ _ _ U) as Hb8. destruct (sealed_size p pl rng Hg Hpl Hr) as (Hd & Hmod & Hbd). fold d in Hd, Hmod, Hbd.
  set (b := prot_block_size p) in *. set (c := run_cipher f p SSH_CIPHER_ENCRYPT d).
  assert (zlen c = zlen d) as Hc by (apply (zlen_run_cipher f p)).
  assert (zlen (ztake b c) = b) as Hhl by (rewrite zlen_ztake; lia).
  assert (Forall is_byte d) as Hdb.
  { destruct (framed_facts f g p U pl rng Hpl Hr) as (Hq & Hqb & _); [unfold EMSSH_MAX_CIPHER_IV in B; fold b; lia|].
    apply plain_packet_byte; [apply Hpl|done|lia]. }
  pose proof (zlen_seal f g p d) as Hsl. fold b in Hsl.
  assert (seal f g p d = ztake b c ++ (zdrop b c ++ run_mac g p d)) as Es
    by (unfold seal; fold c; by rewrite app_assoc, ztake_zdrop).
  destruct (read_exact_yields e pending sent (ztake b c) ((zdrop b c ++ run_mac g p d) ++ rest) s w Hrd) as (w1 & Hy1 & Hm1);
    [by rewrite Hp, Es, <- app_assoc|].
  rewrite Hhl in Hy1.
  assert (pending w1 = (zdrop b c ++ run_mac g p d) ++ rest) as Hp1.
  { destruct Hm1 as [Hm1 _]. rewrite Hp, Es, <- app_assoc in Hm1. by apply app_inv_head in Hm1. }
  destruct (read_exact_yields e pending sent (zdrop b c ++ run_mac g p d) rest s w1 Hrd Hp1) as (w2 & Hy2 & Hm2).
  exists w2. split; [|rewrite Es; exact (moved_trans _ _ _ _ _ _ _ _ _ Hm1 Hm2)].
  assert (zlen (zdrop b c ++ run_mac g p d) = zlen d - b + prot_mac_len p) as Htl
    by (assert (zlen (seal f g p d) = zlen (ztake b c ++ (zdrop b c ++ run_mac g p d))) by (by rewrite Es); len_lia).
  assert (run_cipher f p SSH_CIPHER_DECRYPT (ztake b c) = ztake b d) as Edec.
  { unfold run_cipher. rewrite cipher_prefix. unfold c, run_cipher. by rewrite cipher_dec_enc. }
  assert (read_u32_be (ztake b d) = zlen d - 4) as Elen by (by apply framed_first_block).
  unfold ssh_transport_receive_protected_payload. eapply yields_bind; [apply yields_get|]. fold p.
  eapply yields_bind; [apply yields_reject; by rewrite (uses_active _ _ _ U)|]. fold b.
  eapply yields_bind; [apply yields_reject; unfold SSH_PACKET_MIN_BLOCK_SIZE; lia|].
  eapply yields_bind; [exact Hy1|].
  pose proof (call_cipher_uses f g p U (ztake b c) [] b SSH_CIPHER_DECRYPT (eq_sym Hhl)) as E.
  rewrite !app_nil_r, Edec in E. rewrite E. clear E.
  eapply yields_bind; [by apply yields_outcome|]. eapply yields_bind; [by apply yields_reject|].
  cbn [io_mem from_option id]. rewrite Elen. replace (zlen d - 4 + 4) with (zlen d) by lia.
  eapply yields_bind; [apply yields_reject; unfold EMSSH_MAX_PACKET_SIZE; lia|].
  eapply yields_bind; [apply yields_reject; unfold EMSSH_MAX_PACKET_SIZE; rewrite Hmod; lia|].
  rewrite <- Htl. eapply yields_bind; [exact Hy2|]. rewrite <- Es, <- Hsl.
  assert (prot_block_size p <= 252) as Hb by (unfold EMSSH_MAX_CIPHER_IV in B; fold b; lia).
  pose proof (decode_protected_seal f g p U pl rng [] Hpl Hr Hb) as E. cbv zeta in E. fold d in E.
  rewrite app_nil_r in E. rewrite E. clear E. cbn [io_prot].
  eapply yields_bind; [apply yields_modify|]. eapply yields_bind; [by apply yields_outcome|]. cbn [payload payload_len].
  eapply yields_bind; [apply yields_reject; lia|]. do 3 (eapply yields_bind; [apply yields_modify|]). apply yields_ret.
Qed.
End packets.

(** ** Streams *)

(** The bytes that carry the payloads [pls] from a sender whose protection is [p]
    before and [p'] after them. *)
Inductive carried (f : cipher_crypt_fn) (g : mac_compute_fn)
    : ssh_packet_protection -> list (list Z) -> list Z -> ssh_packet_protection -> Prop :=
| carried_nil p : carried f g p [] [] p
| carried_cons p pl rng pls bytes p' :
    payload_ok pl -> rng_usable rng ->
    carried f g (prot_next p (zlen (framed p pl rng))) pls bytes p' ->
    carried f g p (pl :: pls) (seal f g p (framed p pl rng) ++ bytes) p'.

Lemma carried_app f g p1 p2 p3 pls pls' bytes bytes' :
  carried f g p1 pls bytes p2 -> carried f g p2 pls' bytes' p3 -> carried f g p1 (pls ++ pls') (bytes ++ bytes') p3.
Proof.
  intros H1 H2. induction H1 as [p|p pl rng pls bytes p' Hpl Hr _ IH]; [done|].
  rewrite <- app_assoc. cbn [app]. apply carried_cons; [done..|]. by apply IH.
Qed.

Fixpoint send_payloads (pls : list (list Z)) : TrM unit :=
  match pls with
  | [] => mret tt
  | pl :: pls' => ssh_transport_send_protected_payload pl;; send_payloads pls'
  end.
Fixpoint receive_payloads (n : nat) (cap : Z) : TrM (list (list Z)) :=
  match n with
  | O => mret []
  | S n' =>
    pl ← ssh_transport_receive_protected_payload to_local cap;
    pls ← receive_payloads n' cap;
    mret (pl :: pls)
  end.

(** A session that can send, and one that can receive. *)
Definition can_send f g (s : transport_session) : Prop :=
  srv_net_write (t_server s) = true /\ good_prot f g (t_outbound s).
Definition can_receive f g (s : transport_session) : Prop :=
  srv_net_read (t_server s) = true /\ good_prot f g (t_inbound s).

(** *** Channel data *)

(** How the sender cuts the data, and the payload of a piece. *)
Definition max_chunk : Z := EMSSH_MAX_PAYLOAD_SIZE - 9.
Fixpoint data_chunks (fuel : nat) (data : list Z) : list (list Z) :=
  match fuel with
  | O => []
  | S fuel' =>
    ztake max_chunk data :: match zdrop max_chunk data with [] => [] | rest => data_chunks fuel' rest end
  end.
Definition chunks_of (data : list Z) : list (list Z) := data_chunks (S (length data)) data.
Definition data_message (rc : Z) (chunk : list Z) : list Z :=
  channel_data_bytes (mk_channel_data rc (view_of chunk)).

(** The receiver of so many data messages. *)
Fixpoint receive_datas (n : nat) (cap : Z) : TrM (list (Z * list Z)) :=
  match n with
  | O => mret []
  | S n' =>
    m ← ssh_transport_receive_channel_data cap;
    ms ← receive_datas n' cap;
    mret (m :: ms)
  end.

(** The rest after a piece needs less fuel. *)
Lemma chunk_rest_fuel fuel (data : list Z) b rest :
  (length data < S fuel)%nat -> zdrop max_chunk data = b :: rest -> (length (b :: rest) < fuel)%nat.
Proof.
  intros Hf E. rewrite <- E. apply (f_equal length) in E. unfold zdrop in *. rewrite length_drop in *.
  cbn [length] in E. change (Z.to_nat max_chunk) with (Z.to_nat 32759) in *. lia.
Qed.

Lemma concat_chunks fuel (data : list Z) : (length data < fuel)%nat -> concat (data_chunks fuel data) = data.
Proof.
  revert data. induction fuel as [|fuel IH]; intros data Hf; [lia|]. cbn [data_chunks concat].
  destruct (zdrop max_chunk data) as [|b rest] eqn:E.
  - cbn [concat]. rewrite app_nil_r. rewrite <- (ztake_zdrop max_chunk data) at 2. by rewrite E, app_nil_r.
  - rewrite IH by (by eapply chunk_rest_fuel). rewrite <- E. apply ztake_zdrop.
Qed.

Lemma chunks_ok fuel (data : list Z) :
  Forall is_byte data -> Forall (fun c => Forall is_byte c /\ zlen c <= max_chunk) (data_chunks fuel data).
Proof.
  revert data. induction fuel as [|fuel IH]; intros data Hb; [constructor|]. cbn [data_chunks]. constructor.
  - split; [by apply Forall_take|]. rewrite zlen_ztake by done. lia.
  - destruct (zdrop max_chunk data) eqn:E; [constructor|]. apply IH. rewrite <- E. by apply Forall_drop.
Qed.

Lemma data_message_ok rc chunk :
  Forall is_byte chunk -> zlen chunk <= max_chunk -> payload_ok (data_message rc chunk).
Proof.
  intros Hb Hl. unfold data_message, channel_data_bytes, str. cbn [data_recipient_channel channel_data].
  rewrite view_bytes_of. unfold max_chunk in Hl. split.
  - apply Forall_app_2; [by repeat constructor|]. apply Forall_app_2; [apply be_bytes_byte|].
    apply Forall_app_2; [apply be_bytes_byte|done].
  - unfold string_bytes. rewrite !zlen_app, !zlen_be_bytes, zlen_cons, zlen_nil. lia.
Qed.

Section streams.
Context (f : cipher_crypt_fn) (g : mac_compute_fn) `{!StreamCipher f} `{!PrefixCipher f}.

Section sender.
Context {W : Type} (e : env tcall treply W) (pending sent : W -> list Z) `{!ByteStream e pending sent}.

Lemma send_carries pl s w :
  can_send f g s -> payload_ok pl ->
  exists s' w' bytes, yields e (ssh_transport_send_protected_payload pl) s w tt s' w' /\
    moved pending sent w w' [] bytes /\ carried f g (t_outbound s) [pl] bytes (t_outbound s') /\ can_send f g s'.
Proof.
  intros [Hw Hg] Hpl.
  destruct (send_protected_yields e pending sent f g pl s w Hw Hg Hpl) as (rng & w' & Hr & Hy & Hm).
  destruct (sealed_size f g _ pl rng Hg Hpl Hr) as (Hd & _).
  eexists _, w', _. split_and!; [exact Hy|exact Hm| |].
  - rewrite <- (app_nil_r (seal _ _ _ _)). apply carried_cons; [done..|]. apply carried_nil.
  - split; [done|]. apply good_next; [done|lia].
Qed.

Lemma send_payloads_carries pls s w :
  can_send f g s -> Forall payload_ok pls ->
  exists s' w' bytes, yields e (send_payloads pls) s w tt s' w' /\
    moved pending sent w w' [] bytes /\ carried f g (t_outbound s) pls bytes (t_outbound s') /\ can_send f g s'.
Proof.
  intros Hs Hpls. revert s w Hs. induction Hpls as [|pl pls Hpl _ IH]; intros s w Hs.
  { exists s, w, []. split_and!; [by exists []|apply moved_refl|apply carried_nil|done]. }
  destruct (send_carries pl s w Hs Hpl) as (s1 & w1 & b1 & Hy1 & Hm1 & Hc1 & Hs1).
  destruct (IH s1 w1 Hs1) as (s2 & w2 & b2 & Hy2 & Hm2 & Hc2 & Hs2).
  exists s2, w2, (b1 ++ b2). split_and!; [|exact (moved_trans _ _ _ _ _ _ _ _ _ Hm1 Hm2)|
    exact (carried_app _ _ _ _ _ _ _ _ _ Hc1 Hc2)|done].
  cbn [send_payloads]. eapply yields_bind; [exact Hy1|exact Hy2].
Qed.

Lemma data_encode_yields rc data s w :
  Forall is_byte data ->
  let chunk := ztake max_chunk data in
  yields e (encode (ssh_channel_data_encode rc (match data with [] => None | _ => Some chunk end) (zlen chunk))
              (EMSSH_MAX_PAYLOAD_SIZE + 16)) s w (data_message rc chunk) s w.
Proof.
  intros Hb chunk. apply yields_outcome.
  assert (Forall is_byte chunk /\ zlen chunk <= max_chunk) as [Hcb Hcl]
    by (split; [by apply Forall_take|unfold chunk; rewrite zlen_ztake by done; lia]).
  apply (emits_encode_into _ (data_message rc chunk)).
  - unfold data_message, channel_data_bytes, str. cbn [data_recipient_channel channel_data]. rewrite view_bytes_of.
    apply emits_buffer. destruct data as [|b data].
    + apply emits_reject; [done|]. apply emits_bind; [by apply emits_u8|]. apply emits_bind; [apply emits_u32|].
      apply (emits_null_or_ok null_view). by left.
    + apply emits_reject; [done|]. apply emits_bind; [by apply emits_u8|]. apply emits_bind; [apply emits_u32|].
      apply emits_string; [done|]. unfold max_chunk, EMSSH_MAX_PAYLOAD_SIZE, UINT32_MAX in *. lia.
  - pose proof (proj2 (data_message_ok rc chunk Hcb Hcl)). rewrite zlen_zeros by done. lia.
Qed.

Lemma send_data_carries fuel rc data s w :
  can_send f g s -> Forall is_byte data -> (length data < fuel)%nat ->
  exists s' w' bytes, yields e (send_channel_data_loop fuel rc data) s w tt s' w' /\
    moved pending sent w w' [] bytes /\
    carried f g (t_outbound s) (map (data_message rc) (data_chunks fuel data)) bytes (t_outbound s') /\ can_send f g s'.
Proof.
  revert data s w. induction fuel as [|fuel IH]; intros data s w Hs Hb Hf; [lia|].
  pose proof (chunks_ok 1 data Hb) as Hck. apply Forall_cons_1 in Hck as [[Hcb Hcl] _].
  destruct (send_carries (data_message rc (ztake max_chunk data)) s w Hs (data_message_ok rc _ Hcb Hcl))
    as (s1 & w1 & b1 & Hy1 & Hm1 & Hc1 & Hs1).
  cbn [send_channel_data_loop data_chunks]. cbv zeta. fold max_chunk.
  destruct (zdrop max_chunk data) as [|b rest] eqn:E.
  - exists s1, w1, b1. split_and!; [|done..]. eapply yields_bind; [by apply data_encode_yields|].
    eapply yields_bind; [exact Hy1|apply yields_ret].
  - destruct (IH (b :: rest) s1 w1 Hs1) as (s2 & w2 & b2 & Hy2 & Hm2 & Hc2 & Hs2);
      [rewrite <- E; by apply Forall_drop|by eapply chunk_rest_fuel|].
    exists s2, w2, (b1 ++ b2). split_and!; [|exact (moved_trans _ _ _ _ _ _ _ _ _ Hm1 Hm2)|
      exact (carried_app _ _ _ _ _ _ _ _ _ Hc1 Hc2)|done].
    eapply yields_bind; [by apply data_encode_yields|]. eapply yields_bind; [exact Hy1|exact Hy2].
Qed.
End sender.

Section receiver.
Context {W : Type} (e : env tcall treply W) (pending sent : W -> list Z) `{!ByteStream e pending sent}.

(** A delivery that leaves the connection alone. *)
Definition quiet (deliver : list Z -> transport_session -> transport_session) : Prop :=
  forall pl s, t_inbound (deliver pl s) = t_inbound s /\ t_server (deliver pl s) = t_server s.
Lemma quiet_local : quiet to_local.
Proof. by split. Qed.
Lemma quiet_kexinit : quiet to_client_kexinit.
Proof. by split. Qed.

(** The receiver is about to read the payloads [pls] and then [rest], and ends
    with the protection [p']. *)
Definition facing (p' : ssh_packet_protection) (rest : list Z) (pls : list (list Z))
    (s : transport_session) (w : W) : Prop :=
  can_receive f g s /\ exists bytes, carried f g (t_inbound s) pls bytes p' /\ pending w = bytes ++ rest.

Lemma facing_end p' rest s w : facing p' rest [] s w -> t_inbound s = p' /\ pending w = rest.
Proof. intros (_ & bytes & Hc & Hp). inversion Hc; by subst. Qed.

Lemma receive_facing deliver cap p' rest pl pls s w :
  quiet deliver -> zlen pl <= cap -> facing p' rest (pl :: pls) s w ->
  exists s' w', yields e (ssh_transport_receive_protected_payload deliver cap) s w pl s' w' /\
    facing p' rest pls s' w'.
Proof.
  intros Hq Hcap ([Hrd Hg] & bytes & Hc & Hp).
  inversion Hc as [|p pl0 rng pls0 bytes' p0 Hpl Hr Hc' E1 E2 E3 E4]; subst.
  rewrite <- app_assoc in Hp.
  destruct (receive_protected_yields e pending sent f g deliver cap pl rng _ s w Hrd Hg Hpl Hr Hcap Hp) as (w' & Hy & [Hm _]).
  destruct (sealed_size f g _ pl rng Hg Hpl Hr) as (Hd & _).
  eexists _, w'. split; [exact Hy|].
  match goal with |- context [after_receive ?a ?b ?c ?d ?s] => destruct (Hq pl (set_inbound d s)) as [Ei Es] end.
  unfold facing, can_receive, after_receive. cbn [t_inbound t_server on_rekey set_rekey set_inbound_sequence].
  rewrite Es, Ei. cbn [t_inbound set_inbound t_server]. split.
  - split; [done|]. apply good_next; [done|lia].
  - exists bytes'. split; [done|]. rewrite Hp in Hm. by apply app_inv_head in Hm.
Qed.

Lemma receive_payloads_facing cap p' rest pls s w :
  Forall (fun pl => zlen pl <= cap) pls -> facing p' rest pls s w ->
  exists s' w', yields e (receive_payloads (length pls) cap) s w pls s' w' /\ facing p' rest [] s' w'.
Proof.
  intros Hcap. revert s w. induction Hcap as [|pl pls Hl _ IH]; intros s w Hf.
  { exists s, w. split; [by exists []|done]. }
  destruct (receive_facing to_local cap p' rest pl pls s w quiet_local Hl Hf) as (s1 & w1 & Hy1 & Hf1).
  destruct (IH s1 w1 Hf1) as (s2 & w2 & Hy2 & Hf2).
  exists s2, w2. split; [|done]. cbn [receive_payloads length].
  eapply yields_bind; [exact Hy1|]. eapply yields_bind; [exact Hy2|]. apply yields_ret.
Qed.

(** *** Messages that are skipped *)

(** What the receiving loop makes of the payloads before it: the result, and the
    payloads it leaves.  Rekeying is not part of this specification. *)
Fixpoint first_relevant (tries : nat) (cap : Z) (pls : list (list Z))
    : option ((ssh_status + list Z) * list (list Z)) :=
  match tries, pls with
  | O, _ => Some (inl SSH_ERR_MALFORMED_PACKET, pls)
  | S _, [] => None
  | S tries', pl :: pls' =>
    if transport_payload_is_disconnect pl then Some (inl SSH_ERR_CLOSED, pls')
    else if transport_payload_is_ignorable pl then first_relevant tries' cap pls'
    else Some (if zlen pl >? cap then inl SSH_ERR_BUFFER_TOO_SMALL else inr pl, pls')
  end.

Definition ends_as {A} (r : ssh_status + A) (p : TrM A) s (w : W) s' w' : Prop :=
  match r with inl err => fails e p s w err s' w' | inr a => yields e p s w a s' w' end.

Lemma ends_as_bind {A B} (r : ssh_status + B) (p : TrM A) (k : A -> TrM B) s w a s1 w1 s2 w2 :
  yields e p s w a s1 w1 -> ends_as r (k a) s1 w1 s2 w2 -> ends_as r (x ← p; k x) s w s2 w2.
Proof. intros Hp Hk. destruct r; [by eapply fails_bind|by eapply yields_bind]. Qed.

Lemma facing_diag p' rest pls pl s w :
  facing p' rest pls s w -> facing p' rest pls (record_message_id pl s) w.
Proof. by destruct pl. Qed.

Lemma skip_loop_facing tries cap p' rest pls s w r left :
  Forall (fun pl => zlen pl <= Z.max cap EMSSH_MAX_KEXINIT_PAYLOAD) pls ->
  Forall (fun pl => transport_payload_is_kexinit pl = false) pls ->
  facing p' rest pls s w -> first_relevant tries cap pls = Some (r, left) ->
  exists s' w', ends_as r (skip_ignorable_loop tries cap) s w s' w' /\ facing p' rest left s' w'.
Proof.
  intros Hcap Hk. revert tries s w. induction pls as [|pl pls IH]; intros [|tries] s w Hf E; try done.
  1, 2: injection E as <- <-; exists s, w; split; [by exists []|done].
  apply Forall_cons_1 in Hcap as [Hl Hcap], Hk as [Hkx Hk]. cbn [first_relevant skip_ignorable_loop] in *.
  set (scratch := cap <? EMSSH_MAX_KEXINIT_PAYLOAD).
  destruct (receive_facing (if scratch then to_client_kexinit else to_local)
    (if scratch then EMSSH_MAX_KEXINIT_PAYLOAD else cap) p' rest pl pls s w) as (s1 & w1 & Hy & Hf1);
    [destruct scratch; [apply quiet_kexinit|apply quiet_local]|unfold scratch; case_bool; lia|done|].
  apply (facing_diag _ _ _ pl) in Hf1.
  destruct (transport_payload_is_disconnect pl) eqn:Ed.
  { injection E as <- <-. exists (record_message_id pl s1), w1. split; [|done].
    eapply fails_bind; [exact Hy|]. eapply fails_bind; [apply yields_modify|]. rewrite Ed. apply fails_reject. }
  destruct (transport_payload_is_ignorable pl) eqn:Ei.
  { destruct (IH Hcap Hk tries _ w1 Hf1 E) as (s2 & w2 & He & H2). exists s2, w2. split; [|done].
    eapply ends_as_bind; [exact Hy|]. eapply ends_as_bind; [apply yields_modify|].
    rewrite Ed, Hkx, Ei. eapply ends_as_bind; [by apply yields_reject|done]. }
  injection E as <- <-. exists (record_message_id pl s1), w1. split; [|done].
  eapply ends_as_bind; [exact Hy|]. eapply ends_as_bind; [apply yields_modify|]. rewrite Ed, Hkx, Ei.
  eapply ends_as_bind; [by apply yields_reject|]. destruct (Z.gtb_spec (zlen pl) cap) as [Hgt|Hle].
  - replace scratch with true by (unfold scratch; lia). apply fails_reject.
  - rewrite andb_false_r. by exists [].
Qed.

Lemma receive_data_facing cap rc chunk p' rest pls s w :
  is_u32 rc -> Forall is_byte chunk -> zlen chunk <= max_chunk -> zlen chunk <= cap ->
  facing p' rest (data_message rc chunk :: pls) s w ->
  exists s' w', yields e (ssh_transport_receive_channel_data cap) s w (rc, chunk) s' w' /\ facing p' rest pls s' w'.
Proof.
  intros Hrc Hb Hl Hcap Hf. pose proof (data_message_ok rc chunk Hb Hl) as [_ Hs].
  assert (exists s' w', yields e (receive_protected_payload_skip_ignorable (EMSSH_MAX_PAYLOAD_SIZE + 16)) s w
    (data_message rc chunk) s' w' /\ facing p' rest pls s' w') as (s1 & w1 & Hy & Hf1).
  { destruct (receive_facing to_local (EMSSH_MAX_PAYLOAD_SIZE + 16) p' rest (data_message rc chunk) pls s w quiet_local ltac:(lia) Hf)
      as (s1 & w1 & Hy1 & Hf1).
    exists (record_message_id (data_message rc chunk) s1), w1. split; [|by apply facing_diag].
    unfold receive_protected_payload_skip_ignorable. cbn [skip_ignorable_loop].
    change (_ <? EMSSH_MAX_KEXINIT_PAYLOAD) with false. eapply yields_bind; [exact Hy1|].
    eapply yields_bind; [apply yields_modify|]. eapply yields_bind; [by apply yields_reject|].
    cbn -[EMSSH_MAX_PAYLOAD_SIZE]. apply yields_ret. }
  exists (set_state STATE_CHANNEL_DATA_RECEIVED s1), w1. split; [|exact Hf1]. unfold ssh_transport_receive_channel_data. eapply yields_bind; [exact Hy|].
  eapply yields_bind.
  { apply yields_outcome. apply parses_decode_from, (message_parses (mk_channel_data rc (view_of chunk))).
    split; [done|]. apply view_ok_of; [done|]. unfold max_chunk, EMSSH_MAX_PAYLOAD_SIZE, UINT32_MAX in *. lia. }
  cbn [channel_data data_recipient_channel view_of view_len].
  eapply yields_bind; [apply yields_reject; lia|]. eapply yields_bind; [apply yields_modify|].
  rewrite view_bytes_of. apply yields_ret.
Qed.

Lemma receive_datas_facing cap rc chunks p' rest s w :
  is_u32 rc -> max_chunk <= cap -> Forall (fun c => Forall is_byte c /\ zlen c <= max_chunk) chunks ->
  facing p' rest (map (data_message rc) chunks) s w ->
  exists s' w', yields e (receive_datas (length chunks) cap) s w (map (pair rc) chunks) s' w' /\ facing p' rest [] s' w'.
Proof.
  intros Hrc Hcap Hck. revert s w. induction Hck as [|c chunks [Hb Hl] _ IH]; intros s w Hf.
  { exists s, w. split; [by exists []|done]. }
  destruct (receive_data_facing cap rc c p' rest (map (data_message rc) chunks) s w Hrc Hb Hl ltac:(lia) Hf)
    as (s1 & w1 & Hy1 & Hf1).
  destruct (IH s1 w1 Hf1) as (s2 & w2 & Hy2 & Hf2). exists s2, w2. split; [|done]. cbn [receive_datas length map].
  eapply yields_bind; [exact Hy1|]. eapply yields_bind; [exact Hy2|]. apply yields_ret.
Qed.
End receiver.
End streams.

(** ** A network for the examples: it hands over one byte at a time *)
Definition demo_wire : env tcall treply (list Z * list Z) := fun c =>
  match c return list Z * list Z -> treply c * (list Z * list Z) with
  | NetRead _ => fun w => match fst w with [] => (ReadClosed, w) | b :: i => (ReadData [b], (i, snd w)) end
  | NetReadOn _ => fun w => match fst w with [] => (FinalClosed, w) | b :: i => (FinalData [b], (i, snd w)) end
  | NetWrite data => fun w => (Z.min 1 (zlen data), (fst w, snd w ++ ztake 1 data))
  | RngUse => fun w => (count_rng, w)
  | KexGenerateKeypair _ => fun w => ((SSH_ERR_PLATFORM, [], []), w)
  | KexComputeSharedSecret _ _ _ => fun w => ((SSH_ERR_PLATFORM, []), w)
  | HostkeyPublic _ => fun w => ((SSH_ERR_PLATFORM, []), w)
  | HashExchange _ _ => fun w => ((SSH_ERR_PLATFORM, []), w)
  | HostkeySign _ _ => fun w => ((SSH_ERR_PLATFORM, []), w)
  | DeriveKey _ _ _ _ _ _ => fun w => ((SSH_ERR_PLATFORM, []), w)
  end.

#[export] Instance demo_wire_stream : ByteStream demo_wire fst snd.
Proof.
  split.
  - intros len [[|b i] o] Hl Hp; [done|]. exists [b], (i, o). split_and!; try done.
    + rewrite zlen_cons, zlen_nil. lia.
    + split; [done|]. cbn. by rewrite app_nil_r.
  - intros len [[|b i] o] Hl Hp; [done|]. exists [b], (i, o). split_and!; try done.
    + rewrite zlen_cons, zlen_nil. lia.
    + split; [done|]. cbn. by rewrite app_nil_r.
  - intros [|b d] [i o] Hd; [done|]. pose proof (zlen_nonneg d). exists 1, (i, o ++ [b]).
    split_and!; try done; try (rewrite zlen_cons; lia).
    cbn [demo_wire fst snd]. replace (Z.min 1 (zlen (b :: d))) with 1 by (rewrite zlen_cons; lia). done.
  - intros w. exists count_rng, w. split_and!; [done|apply _|apply moved_refl].
Qed.

Definition demo_endpoint : transport_session :=
  let z := mk_payload [] 0 in
  mk_transport demo_transport_server STATE_NEWKEYS_RECEIVED [] zero_ident z zero_ident
    ssh_kexinit_algorithm_set_defaults z z false 0 0 (mk_rekey 0 0 0 0 0 0 false) false zero_negotiation
    (mk_material [] [] [] [] [] [] []) [] demo_protection demo_protection (mk_diag 0 false [] false false).

Lemma demo_endpoint_good : good_prot xor_cipher (sum_mac 4) demo_protection.
Proof. split; [apply demo_uses|apply (sum_mac_ok 4)|by vm_compute]. Qed.

(** ** The properties *)

(** C35: payloads that one session sends under its outbound protection are
    received, in order and unchanged, by a session whose inbound protection is
    the same: every send and every receive returns, however the network cuts the
    stream, and afterwards the two protections agree again. *)
Theorem transport_stream_roundtrip f g {W1 W2} (e1 : env tcall treply W1) (e2 : env tcall treply W2)
    in1 out1 in2 out2 pls cap s1 w1 :
  StreamCipher f -> PrefixCipher f -> ByteStream e1 in1 out1 -> ByteStream e2 in2 out2 ->
  can_send f g s1 -> Forall payload_ok pls -> Forall (fun pl => zlen pl <= cap) pls ->
  exists s1' w1' bytes,
    yields e1 (send_payloads pls) s1 w1 tt s1' w1' /\ out1 w1' = out1 w1 ++ bytes /\
    forall s2 w2 rest, srv_net_read (t_server s2) = true -> t_inbound s2 = t_outbound s1 ->
      in2 w2 = bytes ++ rest ->
      exists s2' w2', yields e2 (receive_payloads (length pls) cap) s2 w2 pls s2' w2' /\
        in2 w2' = rest /\ t_inbound s2' = t_outbound s1'.
Proof.
  intros Hf Hx H1 H2 Hs Hp Hc.
  destruct (send_payloads_carries f g e1 in1 out1 pls s1 w1 Hs Hp) as (s1' & w1' & bytes & Hy & [_ Hm] & Hcr & Hs').
  exists s1', w1', bytes. split_and!; [done..|]. intros s2 w2 rest Hr Ei Hin.
  destruct (receive_payloads_facing f g e2 in2 out2 cap (t_outbound s1') rest pls s2 w2 Hc) as (s2' & w2' & Hy2 & Hf2).
  { split; [split; [done|rewrite Ei; apply Hs]|]. exists bytes. by rewrite Ei. }
  destruct (facing_end f g in2 _ _ _ _ Hf2). exists s2', w2'. by split_and!.
Qed.

Lemma transport_stream_roundtrip_witness :
  exists s1' w1' s2' w2', yields demo_wire (send_payloads [[1; 2]; [3]]) demo_endpoint ([], []) tt s1' w1' /\
    yields demo_wire (receive_payloads 2 16) demo_endpoint (snd w1' ++ [7], []) [[1; 2]; [3]] s2' w2' /\
    fst w2' = [7] /\ t_inbound s2' = t_outbound s1'.
Proof.
  destruct (transport_stream_roundtrip xor_cipher (sum_mac 4) demo_wire demo_wire fst snd fst snd [[1; 2]; [3]] 16
    demo_endpoint ([], [])) as (s1' & w1' & bytes & Hy & Ho & Hr);
    [apply _..|split; [done|apply demo_endpoint_good]| |by repeat (constructor; [by vm_compute|])|].
  { repeat (constructor; [split; [by apply (bool_decide_unpack _); vm_compute|by vm_compute]|]). constructor. }
  destruct (Hr demo_endpoint (snd w1' ++ [7], []) [7]) as (s2' & w2' & Hy2 & H2); [done|done|by rewrite Ho|].
  exists s1', w1', s2', w2'. split_and!; [exact Hy|exact Hy2|apply H2..].
Defined.

(** The loop that receives the next message skips messages to be ignored, up
    to seven of them, and returns the first other one; it reports a disconnect as
    closed, an eighth message to be ignored as malformed and a message too long
    for the caller as too long, and it leaves the rest of the stream to be read
    next. *)
Theorem ignorable_skipped f g {W} (e : env tcall treply W) input output p' rest pls cap s w r left :
  StreamCipher f -> PrefixCipher f -> ByteStream e input output ->
  Forall (fun pl => zlen pl <= Z.max cap EMSSH_MAX_KEXINIT_PAYLOAD) pls ->
  Forall (fun pl => transport_payload_is_kexinit pl = false) pls ->
  facing f g input p' rest pls s w -> first_relevant 8 cap pls = Some (r, left) ->
  exists s' w', ends_as e r (receive_protected_payload_skip_ignorable cap) s w s' w' /\
    facing f g input p' rest left s' w'.
Proof. intros Hf Hx He. by apply (skip_loop_facing f g e input output). Qed.

Lemma ignorable_skipped_witness :
  exists s1' w1' s' w', yields demo_wire (send_payloads [[2; 0]; [4]; [94; 5]; [1]]) demo_endpoint ([], []) tt s1' w1' /\
    yields demo_wire (receive_protected_payload_skip_ignorable 16) demo_endpoint (snd w1', []) [94; 5] s' w'.
Proof.
  destruct (send_payloads_carries xor_cipher (sum_mac 4) demo_wire fst snd [[2; 0]; [4]; [94; 5]; [1]] demo_endpoint ([], []))
    as (s1 & w1 & bytes & Hy & [_ Hm] & Hc & _); [split; [done|apply demo_endpoint_good]| |].
  { repeat (constructor; [split; [by apply (bool_decide_unpack _); vm_compute|by vm_compute]|]). constructor. }
  destruct (ignorable_skipped xor_cipher (sum_mac 4) demo_wire fst snd (t_outbound s1) [] [[2; 0]; [4]; [94; 5]; [1]] 16
    demo_endpoint (snd w1, []) (inr [94; 5]) [[1]]) as (s' & w' & He & Hf);
    [apply _..|by repeat (constructor; [by vm_compute|])|by repeat constructor| |done|].
  { split; [split; [done|apply demo_endpoint_good]|]. exists bytes. split; [done|]. cbn [fst]. by rewrite Hm, app_nil_r. }
  exists s1, w1, s', w'. split; [exact Hy|exact He].
Defined.

(** C8: the data of a channel arrive whole: what the sender is given it sends as
    data messages to that channel, in pieces that fit a packet, and a receiver
    that takes as many messages gets those pieces, whose concatenation is the
    data, on the same channel number. *)
Theorem channel_data_delivered f g {W1 W2} (e1 : env tcall treply W1) (e2 : env tcall treply W2)
    in1 out1 in2 out2 rc data cap s1 w1 :
  StreamCipher f -> PrefixCipher f -> ByteStream e1 in1 out1 -> ByteStream e2 in2 out2 ->
  can_send f g s1 -> is_u32 rc -> Forall is_byte data -> max_chunk <= cap ->
  exists s1' w1' bytes,
    yields e1 (ssh_transport_send_channel_data rc data) s1 w1 tt s1' w1' /\ out1 w1' = out1 w1 ++ bytes /\
    forall s2 w2 rest, srv_net_read (t_server s2) = true -> t_inbound s2 = t_outbound s1 ->
      in2 w2 = bytes ++ rest ->
      exists ms s2' w2', yields e2 (receive_datas (length (chunks_of data)) cap) s2 w2 ms s2' w2' /\
        Forall (fun m => fst m = rc) ms /\ concat (map snd ms) = data /\
        in2 w2' = rest /\ t_inbound s2' = t_outbound s1'.
Proof.
  intros Hf Hx H1 H2 Hs Hrc Hb Hc.
  destruct (send_data_carries f g e1 in1 out1 (S (length data)) rc data s1 w1 Hs Hb ltac:(lia))
    as (s1' & w1' & bytes & Hy & [_ Hm] & Hcr & Hs').
  exists (set_state STATE_CHANNEL_DATA_SENT s1'), w1', bytes. split_and!; [|done|].
  { eapply yields_bind; [exact Hy|apply yields_modify]. }
  intros s2 w2 rest Hr Ei Hin.
  destruct (receive_datas_facing f g e2 in2 out2 cap rc (chunks_of data) (t_outbound s1') rest s2 w2 Hrc Hc)
    as (s2' & w2' & Hy2 & Hf2); [by apply chunks_ok| |].
  { split; [split; [done|rewrite Ei; apply Hs]|]. exists bytes. by rewrite Ei. }
  destruct (facing_end f g in2 _ _ _ _ Hf2). exists (map (pair rc) (chunks_of data)), s2', w2'.
  split_and!; try done.
  - by apply Forall_map, Forall_true.
  - rewrite map_map. cbn [snd]. rewrite map_id. apply concat_chunks. lia.
Qed.

Lemma channel_data_delivered_witness :
  exists s1' w1' ms s2' w2',
    yields demo_wire (ssh_transport_send_channel_data 3 (cstr "hello")) demo_endpoint ([], []) tt s1' w1' /\
    yields demo_wire (receive_datas 1 32768) demo_endpoint (snd w1', []) ms s2' w2' /\
    concat (map snd ms) = cstr "hello".
Proof.
  destruct (channel_data_delivered xor_cipher (sum_mac 4) demo_wire demo_wire fst snd fst snd 3 (cstr "hello") 32768
    demo_endpoint ([], [])) as (s1' & w1' & bytes & Hy & Ho & Hr);
    [apply _..|split; [done|apply demo_endpoint_good]|done|by apply (bool_decide_unpack _); vm_compute|by vm_compute|].
  destruct (Hr demo_endpoint (snd w1', []) []) as (ms & s2' & w2' & Hy2 & _ & Hd & _);
    [done|done|by rewrite Ho, app_nil_r|].
  exists s1', w1', ms, s2', w2'. split_and!; [exact Hy|exact Hy2|exact Hd].
Defined.
