(* ===== verification/TransportKex.v ===== *)
(** * The key exchange computes what RFC 4253 asks for

    The messages of a key exchange on a byte stream, the exchange hash that is
    signed, the session identifier, and the keys that each direction is given:
    the operations of ssh_transport.c against a crypto backend described by
    functions, with the values they leave in the session spelled out. *)

From S2P Require Import Prelude Interaction Buffer Platform Packet Codec Service Kex UserPolicy.
From S2P Require Import Userauth Connection Ident TransportState Transport TransportSafe TransportSession.
From S2P Require Import TransportWire.

(** ** The crypto backend *)

(** What the entries of the crypto interface compute, as functions. *)
Record kex_functions : Type := {
  kf_keypair : ssh_string_view -> list Z * list Z;
  kf_agree : ssh_string_view -> list Z -> list Z -> list Z;
  kf_host_key : ssh_string_view -> list Z;
  kf_digest : ssh_string_view -> list Z -> list Z;
  kf_sign : ssh_string_view -> list Z -> list Z;
  kf_derive : ssh_string_view -> list Z -> list Z -> list Z -> Z -> Z -> list Z
}.

(** The entries succeed, store what the functions say, and fit the arrays of the
    session. *)
Class KexBackend {W} (e : env tcall treply W) (k : kex_functions) : Prop := {
  kb_keypair alg w : e (KexGenerateKeypair alg) w = ((SSH_OK, fst (kf_keypair k alg), snd (kf_keypair k alg)), w);
  kb_keypair_ok alg : stored_ok EMSSH_MAX_KEX_PUBLIC_KEY (fst (kf_keypair k alg)) /\
    stored_ok EMSSH_MAX_KEX_PRIVATE_KEY (snd (kf_keypair k alg)) /\ fst (kf_keypair k alg) <> [];
  kb_agree alg priv peer w : e (KexComputeSharedSecret alg priv peer) w = ((SSH_OK, kf_agree k alg priv peer), w);
  kb_agree_ok alg priv peer : stored_ok EMSSH_MAX_KEX_SHARED_SECRET (kf_agree k alg priv peer);
  kb_host_key alg w : e (HostkeyPublic alg) w = ((SSH_OK, kf_host_key k alg), w);
  kb_host_key_ok alg : stored_ok EMSSH_MAX_HOST_KEY_BLOB (kf_host_key k alg) /\ kf_host_key k alg <> [];
  kb_digest alg d w : e (HashExchange alg d) w = ((SSH_OK, kf_digest k alg d), w);
  kb_digest_ok alg d : stored_ok EMSSH_MAX_EXCHANGE_HASH (kf_digest k alg d) /\ kf_digest k alg d <> [];
  kb_sign alg h w : e (HostkeySign alg h) w = ((SSH_OK, kf_sign k alg h), w);
  kb_sign_ok alg h : stored_ok EMSSH_MAX_SIGNATURE (kf_sign k alg h) /\ kf_sign k alg h <> [];
  kb_derive alg secret hash sid key_id len w : 0 <= len ->
    e (DeriveKey alg secret hash sid key_id len) w = ((SSH_OK, kf_derive k alg secret hash sid key_id len), w);
  kb_derive_ok alg secret hash sid key_id len : 0 <= len ->
    zlen (kf_derive k alg secret hash sid key_id len) = len /\
    Forall is_byte (kf_derive k alg secret hash sid key_id len)
}.

(** ** Keys *)

(** An array of [size] bytes that begins with [src]. *)
Definition padded (size : Z) (src : list Z) : list Z := src ++ zeros (size - zlen src).

Lemma fill_array_padded size src :
  zlen src <= size -> fill_array size src (zlen src) = Some (padded size src).
Proof.
  intros Hs. pose proof (zlen_nonneg src). unfold fill_array, padded.
  pose proof (mem_read_app [] src []) as E. rewrite app_nil_r, zlen_nil in E. cbn [app] in E.
  rewrite E. change (mbind ?f (Some src)) with (f src). cbv beta.
  assert (zeros size = zeros (zlen src) ++ zeros (size - zlen src)) as ->.
  { unfold zeros. rewrite <- replicate_add. f_equal. lia. }
  pose proof (mem_write_app [] (zeros (zlen src)) src (zeros (size - zlen src))) as Hw.
  rewrite zlen_nil in Hw. cbn [app] in Hw. apply Hw. by apply zlen_zeros.
Qed.

(** The letters of RFC 4253, section 7.2: IV, cipher key and MAC key of a
    direction. *)
Definition iv_letter (outbound : bool) : Z := if outbound then 66 else 65.
Definition cipher_letter (outbound : bool) : Z := if outbound then 68 else 67.
Definition mac_letter (outbound : bool) : Z := if outbound then 70 else 69.

(** The protection of a direction after SSH_MSG_NEWKEYS. *)
Definition fresh_protection (api : ssh_crypto_api) (k : kex_functions) (s : transport_session)
    (sid : list Z) (outbound : bool) : ssh_packet_protection :=
  let n := t_negotiation s in
  let key id len := kf_derive k (kex_algorithm n) (shared_secret (t_material s)) (exchange_hash (t_material s)) sid id len in
  mk_protection (Some api)
    (if outbound then encryption_algorithm_server_to_client n else encryption_algorithm_client_to_server n)
    (if outbound then mac_algorithm_server_to_client n else mac_algorithm_client_to_server n)
    (padded EMSSH_MAX_CIPHER_KEY (key (cipher_letter outbound) 16)) 16
    (padded EMSSH_MAX_CIPHER_IV (key (iv_letter outbound) 16)) 16
    (padded EMSSH_MAX_MAC_KEY (key (mac_letter outbound) 32)) 32
    16 32 (if outbound then t_outbound_sequence s else t_inbound_sequence s) true.

(** The session identifier: the first exchange hash. *)
Definition identifier (s : transport_session) : list Z :=
  match t_session_id s with [] => exchange_hash (t_material s) | sid => sid end.

(** The session after a direction was given its keys. *)
Definition after_newkeys (api : ssh_crypto_api) (k : kex_functions) (outbound : bool) (s : transport_session)
    : transport_session :=
  on_rekey (reset_rekey_direction outbound)
    (set_prot_of outbound (fresh_protection api k s (identifier s) outbound) (set_session_id (identifier s) s)).

(** The server can exchange keys. *)
Record kex_ready (s : transport_session) (api : ssh_crypto_api) : Prop := {
  kr_api : server_crypto (srv_auth (t_server s)) = Some api;
  kr_entries : srv_kex_entries (t_server s) = true;
  kr_derive : srv_derive_key (t_server s) = true;
  kr_calls : is_null (cipher_crypt api) = false /\ is_null (mac_compute api) = false
}.

Lemma identifier_is s h : t_session_id s = h -> h <> [] -> identifier s = h.
Proof. unfold identifier. intros ->. by destruct h. Qed.

(** The identifier is only set when there was none. *)
Lemma set_identifier s :
  (if zlen (t_session_id s) =? 0 then set_session_id (exchange_hash (t_material s)) s else s) =
  set_session_id (identifier s) s.
Proof.
  unfold identifier. destruct (t_session_id s) as [|b sid] eqn:E; [done|].
  replace (zlen (b :: sid) =? 0) with false by (rewrite zlen_cons; pose proof (zlen_nonneg sid); lia).
  rewrite <- E. by destruct s.
Qed.

Section keys.
Context {W : Type} (e : env tcall treply W) (k : kex_functions) `{!KexBackend e k}.

Lemma derive_yields api s w key_id len :
  kex_ready s api -> 0 <= len ->
  yields e (derive_material key_id len) s w (kf_derive k (kex_algorithm (t_negotiation s))
    (shared_secret (t_material s)) (exchange_hash (t_material s)) (t_session_id s) key_id len) s w.
Proof.
  intros [Ha _ Hd _] Hl. unfold derive_material. eapply yields_bind; [apply yields_get|]. rewrite Ha, Hd.
  eapply yields_bind; [by apply yields_reject|]. eapply yields_bind; [apply yields_get|]. cbn [id].
  eapply yields_bind; [exact (yields_perform e (DeriveKey _ _ _ _ _ _) _ s _ _ (kb_derive _ _ _ _ _ _ _ Hl))|].
  set (key := kf_derive _ _ _ _ _ _ _).
  assert (zlen key = len) as Hk by (by apply kb_derive_ok). cbn [fst snd].
  eapply yields_bind; [unfold stored; replace (zlen key <=? len) with true by lia; apply yields_ret|].
  eapply yields_bind; [apply yields_reject; by rewrite Hk, Z.eqb_refl|]. apply yields_ret.
Qed.

Lemma protection_set_eq api calg malg key iv mkey p :
  is_null (cipher_crypt api) = false -> is_null (mac_compute api) = false ->
  zlen key = 16 -> zlen iv = 16 -> zlen mkey = 32 ->
  ssh_packet_protection_set (Some api) calg malg (Some key) 16 (Some iv) 16 (Some mkey) 32 16 32 p =
  (Ret tt, mk_protection (Some api) calg malg (padded EMSSH_MAX_CIPHER_KEY key) 16
    (padded EMSSH_MAX_CIPHER_IV iv) 16 (padded EMSSH_MAX_MAC_KEY mkey) 32 16 32 0 true).
Proof.
  intros Hc Hm Hk Hi Hmk. unfold ssh_packet_protection_set. rewrite Hc, Hm. cbn [is_null orb andb].
  rewrite (bind_ret _ _ p tt p) by done. rewrite (bind_ret _ _ p tt p) by done. cbn [from_option id].
  pose proof (fill_array_padded EMSSH_MAX_CIPHER_KEY key ltac:(by rewrite Hk)) as E1.
  pose proof (fill_array_padded EMSSH_MAX_CIPHER_IV iv ltac:(by rewrite Hi)) as E2.
  pose proof (fill_array_padded EMSSH_MAX_MAC_KEY mkey ltac:(by rewrite Hmk)) as E3.
  rewrite Hk in E1. rewrite Hi in E2. rewrite Hmk in E3. by rewrite E1, E2, E3.
Qed.

Lemma activate_yields api outbound s w :
  kex_ready s api -> stored_ok EMSSH_MAX_EXCHANGE_HASH (exchange_hash (t_material s)) -> identifier s <> [] ->
  negotiated_packet_sizes (t_negotiation s) = Ret (16, 16, 16, 32, 32) ->
  yields e (activate_packet_protection outbound) s w tt (after_newkeys api k outbound s) w.
Proof.
  intros Hr [_ Hh] Hid Hn. unfold activate_packet_protection. eapply yields_bind; [apply yields_get|].
  eapply yields_bind; [by apply yields_outcome|].
  assert (yields e ensure_session_id s w tt (set_session_id (identifier s) s) w) as Hy.
  { unfold ensure_session_id, identifier in *. eapply yields_bind; [apply yields_get|]. cbn [id]. cbv zeta.
    destruct (t_session_id s) as [|b sid] eqn:E.
    - eapply yields_bind; [apply yields_reject|apply yields_modify].
      pose proof (zlen_nonneg (exchange_hash (t_material s))).
      destruct (exchange_hash (t_material s)); [done|]. rewrite zlen_cons in *. pose proof (zlen_nonneg l). lia.
    - replace (zlen (b :: sid) =? 0) with false by (rewrite zlen_cons; pose proof (zlen_nonneg sid); lia).
      rewrite <- E. destruct s; apply yields_ret. }
  eapply yields_bind; [exact Hy|]. set (s1 := set_session_id (identifier s) s).
  assert (kex_ready s1 api) as Hr1 by (by destruct Hr).
  unfold install_keys. do 3 (eapply yields_bind; [by apply (derive_yields api)|]).
  eapply yields_bind; [apply yields_get|]. cbn [id]. rewrite (kr_api _ _ Hr1).
  destruct (kr_calls _ _ Hr1) as [Hc Hm].
  rewrite protection_set_eq by (try done; by apply kb_derive_ok).
  eapply yields_bind; [apply yields_modify|]. eapply yields_bind; [by apply yields_outcome|].
  eapply yields_bind; [apply yields_modify|]. unfold after_newkeys, fresh_protection.
  destruct outbound; exact (yields_modify e _ _ _).
Qed.
End keys.

(** ** Plain packets on a stream *)
Definition pad_ok (pad : list Z) : Prop := Forall is_byte pad /\ 4 <= zlen pad < 256.

Section plain.
Context {W : Type} (e : env tcall treply W) (pending sent : W -> list Z) `{!ByteStream e pending sent}.
Local Abbreviation moves := (moved pending sent).

Lemma send_plain_yields pl s w :
  srv_net_write (t_server s) = true -> prot_active (t_outbound s) = false -> payload_ok pl ->
  exists pad w', pad_ok pad /\
    yields e (send_transport_payload pl) s w tt (set_outbound_sequence (u32 (t_outbound_sequence s + 1)) s) w' /\
    moves w w' [] (plain_packet pl pad).
Proof.
  intros Hw Ha [Hb Hl]. pose proof (zlen_nonneg pl).
  destruct (use_rng_yields e pending sent s w) as (rng & w1 & Hy & Hr & Hm1).
  set (pad := padding_bytes rng (ssh_packet_padding_len (zlen pl) SSH_PACKET_MIN_BLOCK_SIZE)).
  destruct (padding_len_spec (zlen pl) SSH_PACKET_MIN_BLOCK_SIZE) as [Hp _];
    [lia|unfold EMSSH_MAX_PAYLOAD_SIZE in Hl; lia|by vm_compute|].
  change (normalized_block_size SSH_PACKET_MIN_BLOCK_SIZE) with 8 in Hp.
  destruct (padding_bytes_ok rng (ssh_packet_padding_len (zlen pl) SSH_PACKET_MIN_BLOCK_SIZE) Hr ltac:(lia)) as [Hpl Hpb].
  fold pad in Hpl, Hpb.
  destruct (write_all_yields e pending sent (plain_packet pl pad) s w1 Hw) as (w2 & Hy2 & Hm2).
  exists pad, w2. split_and!; [split; [done|lia]| |exact (moved_trans _ _ _ _ _ _ _ _ _ Hm1 Hm2)].
  unfold send_transport_payload. eapply yields_bind; [apply yields_get|]. rewrite Ha.
  eapply yields_bind; [exact Hy|].
  pose proof (encode_plain_ok packet_array pl SSH_PACKET_MIN_BLOCK_SIZE rng (zeros packet_array) Hb Hl
    ltac:(by vm_compute) Hr) as E. cbv zeta in E. fold pad in E.
  rewrite E by (rewrite zlen_zeros by done; rewrite zlen_plain_packet; change packet_array with 35068;
    unfold EMSSH_MAX_PAYLOAD_SIZE in Hl; lia). clear E.
  eapply yields_bind; [by apply yields_outcome|]. unfold packet_of. cbn [from_option id]. rewrite ztake_app.
  eapply yields_bind; [exact Hy2|]. exact (yields_modify e _ _ _).
Qed.

Lemma receive_plain_yields deliver cap pl pad rest s w :
  srv_net_read (t_server s) = true -> prot_active (t_inbound s) = false -> payload_ok pl -> pad_ok pad ->
  zlen pl <= cap -> pending w = plain_packet pl pad ++ rest ->
  exists w', yields e (receive_transport_payload deliver cap) s w pl
      (set_inbound_sequence (u32 (t_inbound_sequence (deliver pl s) + 1)) (deliver pl s)) w' /\
    moves w w' (plain_packet pl pad) [].
Proof.
  intros Hrd Ha [Hb Hl] [Hpb Hpl] Hcap Hp. pose proof (zlen_nonneg pl). unfold EMSSH_MAX_PAYLOAD_SIZE in Hl.
  set (n := 1 + zlen pl + zlen pad). set (body := [zlen pad] ++ pl ++ pad).
  assert (plain_packet pl pad = be_bytes 4 n ++ body) as Ep by done.
  assert (zlen (be_bytes 4 n) = 4) as H4 by apply zlen_be_bytes. assert (zlen body = n) as Hbl by (unfold body; len_lia).
  rewrite Ep, <- app_assoc in Hp.
  destruct (read_exact_yields e pending sent (be_bytes 4 n) (body ++ rest) s w Hrd Hp) as (w1 & Hy1 & Hm1).
  assert (pending w1 = body ++ rest) as Hp1 by (destruct Hm1 as [Hm1 _]; rewrite Hp in Hm1; by apply app_inv_head in Hm1).
  destruct (read_exact_yields e pending sent body rest s w1 Hrd Hp1) as (w2 & Hy2 & Hm2). rewrite H4 in Hy1. rewrite Hbl in Hy2.
  exists w2. split; [|rewrite Ep; exact (moved_trans _ _ _ _ _ _ _ _ _ Hm1 Hm2)].
  unfold receive_transport_payload. eapply yields_bind; [apply yields_get|]. rewrite Ha.
  unfold receive_plain_packet. eapply yields_bind; [exact Hy1|].
  assert (read_u32_be (be_bytes 4 n) = n) as En.
  { change (read_u32_be (be_bytes 4 n)) with (packet_length_field (be_bytes 4 n)).
    rewrite <- (app_nil_r (be_bytes 4 n)), packet_length_field_app by (try done; apply be_bytes_byte).
    apply be_value_bytes. unfold n. lia. }
  rewrite En. eapply yields_bind; [apply yields_reject; unfold EMSSH_MAX_PACKET_SIZE, n; lia|].
  eapply yields_bind; [exact Hy2|]. rewrite <- Ep.
  eapply yields_bind; [apply yields_outcome|].
  { rewrite <- (app_nil_r (plain_packet pl pad)). replace (n + 4) with (zlen (plain_packet pl pad)) by (rewrite zlen_plain_packet; lia).
    apply decode_plain_image; try done. unfold EMSSH_MAX_PACKET_SIZE. lia. }
  cbn [payload payload_len]. eapply yields_bind; [apply yields_reject; lia|].
  eapply yields_bind; [apply yields_modify|]. eapply yields_bind; [apply yields_modify|]. apply yields_ret.
Qed.
End plain.

(** ** The server's side of the exchange *)
Section reply_values.
Context (k : kex_functions) (s : transport_session).
Let n := t_negotiation s.

(** The session once the secret is shared and the host key known. *)
Definition agreed : transport_session :=
  let private := snd (kf_keypair k (kex_algorithm n)) in
  let public := fst (kf_keypair k (kex_algorithm n)) in
  on_material (fun m => with_server_host_key (kf_host_key k (server_host_key_algorithm n))
    (with_shared_secret (kf_agree k (kex_algorithm n) private (client_kex_public_key m))
      (with_server_kex_private_key private (with_server_kex_public_key public m)))) s.
(** The exchange hash H, and the session with H and its signature. *)
Definition exchange_digest : list Z := kf_digest k (kex_algorithm n) (exchange_hash_data agreed).
Definition signed : transport_session :=
  on_material (fun m => with_server_signature (kf_sign k (server_host_key_algorithm n) exchange_digest)
    (with_exchange_hash exchange_digest m)) agreed.
(** The reply. *)
Definition reply_payload : list Z :=
  ecdh_reply_bytes (mk_ecdh_reply (view_of (kf_host_key k (server_host_key_algorithm n)))
    (view_of (fst (kf_keypair k (kex_algorithm n))))
    (view_of (kf_sign k (server_host_key_algorithm n) exchange_digest))).
Definition after_reply : transport_session :=
  set_state STATE_KEX_ECDH_REPLY_SENT
    (set_outbound_sequence (u32 (t_outbound_sequence s + 1)) (set_session_id (identifier signed) signed)).
End reply_values.

Section reply.
Context {W : Type} (e : env tcall treply W) (pending sent : W -> list Z) `{!ByteStream e pending sent}.
Context (k : kex_functions) `{!KexBackend e k}.

Lemma store_result_yields cap set bs s w :
  zlen bs <= cap -> yields e (store_result cap set (SSH_OK, bs)) s w tt (on_material (set bs) s) w.
Proof.
  intros Hl. unfold store_result. cbn [fst snd].
  eapply yields_bind; [unfold stored; replace (zlen bs <=? cap) with true by lia; apply yields_ret|].
  eapply yields_bind; [apply yields_modify|]. apply yields_ret.
Qed.

Lemma agree_yields s w :
  let n := t_negotiation s in
  yields e (agree_on_secret n) s w tt
    (on_material (fun m => with_shared_secret
      (kf_agree k (kex_algorithm n) (snd (kf_keypair k (kex_algorithm n))) (client_kex_public_key m))
      (with_server_kex_private_key (snd (kf_keypair k (kex_algorithm n)))
        (with_server_kex_public_key (fst (kf_keypair k (kex_algorithm n))) m))) s) w.
Proof.
  intros n. unfold agree_on_secret.
  eapply yields_bind; [exact (yields_perform e (KexGenerateKeypair _) _ s _ _ (kb_keypair _ _))|].
  destruct (kb_keypair_ok (kex_algorithm n)) as ([_ H1] & [_ H2] & _).
  eapply yields_bind; [unfold stored; replace (_ <=? _) with true by lia; apply yields_ret|].
  eapply yields_bind; [unfold stored; replace (_ <=? _) with true by lia; apply yields_ret|].
  eapply yields_bind; [apply yields_modify|]. eapply yields_bind; [apply yields_ret|].
  eapply yields_bind; [apply yields_get|].
  eapply yields_bind; [exact (yields_perform e (KexComputeSharedSecret _ _ _) _ _ _ _ (kb_agree _ _ _ _))|].
  apply store_result_yields. apply kb_agree_ok.
Qed.

Lemma hash_and_sign_yields srv f g s w :
  session_ok srv f g s -> zlen (exchange_hash_data s) <= 4096 ->
  let n := t_negotiation s in
  let h := kf_digest k (kex_algorithm n) (exchange_hash_data s) in
  yields e (hash_and_sign n) s w tt
    (on_material (fun m => with_server_signature (kf_sign k (server_host_key_algorithm n) h) (with_exchange_hash h m)) s) w.
Proof.
  intros Hs Hl n h. unfold hash_and_sign, build_exchange_hash_input.
  eapply yields_bind.
  { eapply yields_bind; [apply yields_get|]. apply yields_outcome. cbn [id].
    apply (emits_encode_into _ (exchange_hash_data s)); [by eapply emits_exchange_hash|]. rewrite zlen_zeros; lia. }
  eapply yields_bind; [exact (yields_perform e (HashExchange _ _) _ _ _ _ (kb_digest _ _ _))|].
  eapply yields_bind; [apply store_result_yields, kb_digest_ok|].
  eapply yields_bind; [apply yields_get|]. cbn [on_material t_material set_material with_exchange_hash exchange_hash].
  eapply yields_bind; [exact (yields_perform e (HostkeySign _ _) _ _ _ _ (kb_sign _ _ _))|].
  apply store_result_yields, kb_sign_ok.
Qed.

(** The reply is well formed. *)
Lemma field_ok_of limit l : stored_ok limit l -> limit <= UINT32_MAX -> l <> [] -> field_ok limit (view_of l).
Proof.
  intros [Hb Hl] Hlim Hn. split; [apply view_ok_of; [done|lia]|]. cbn [view_of view_len].
  destruct l as [|b l]; [done|]. rewrite zlen_cons in *. pose proof (zlen_nonneg l). lia.
Qed.

Lemma reply_ok s :
  ecdh_reply_ok (mk_ecdh_reply (view_of (kf_host_key k (server_host_key_algorithm (t_negotiation s))))
    (view_of (fst (kf_keypair k (kex_algorithm (t_negotiation s)))))
    (view_of (kf_sign k (server_host_key_algorithm (t_negotiation s)) (exchange_digest k s)))).
Proof.
  destruct (kb_keypair_ok (kex_algorithm (t_negotiation s))) as (? & _ & ?).
  split_and!; cbn; apply field_ok_of; try done; first [apply kb_host_key_ok|apply kb_sign_ok].
Qed.

Lemma reply_payload_ok s : payload_ok (reply_payload k s) /\ zlen (reply_payload k s) <= EMSSH_MAX_KEX_REPLY_PAYLOAD.
Proof.
  pose proof (reply_ok s) as H. assert (Forall is_byte (reply_payload k s)) as Hb by (by apply (emits_ecdh_reply _ H)).
  assert (zlen (reply_payload k s) <= EMSSH_MAX_KEX_REPLY_PAYLOAD) as Hl; [|split; [split; [done|]|done]].
  2: { etransitivity; [exact Hl|done]. }
  destruct H as ([_ H1] & [_ H2] & [_ H3]). cbn in H1, H2, H3. unfold reply_payload, ecdh_reply_bytes.
  cbn [Kex.server_host_key server_public_key reply_signature]. rewrite !view_bytes_of. unfold string_bytes. unfold EMSSH_MAX_HOST_KEY_BLOB, EMSSH_MAX_KEX_PUBLIC_KEY, EMSSH_MAX_SIGNATURE, EMSSH_MAX_KEX_REPLY_PAYLOAD in *.
  rewrite !zlen_app, !zlen_be_bytes, zlen_cons, zlen_nil. lia.
Qed.

Lemma agreed_ok srv f g s : session_ok srv f g s -> session_ok srv f g (agreed k s).
Proof.
  intros Hs. destruct (kb_keypair_ok (kex_algorithm (t_negotiation s))) as (H1 & H2 & _).
  apply session_ok_material; [done|]. destruct (so_material _ _ _ _ Hs).
  split; cbn; try done; first [apply kb_agree_ok|apply kb_host_key_ok].
Qed.

Lemma reply_yields srv f g api s w :
  session_ok srv f g s -> kex_ready s api -> srv_net_write (t_server s) = true -> prot_active (t_outbound s) = false ->
  zlen (exchange_hash_data (agreed k s)) <= 4096 ->
  exists pad w', pad_ok pad /\
    yields e ssh_transport_send_kex_ecdh_reply s w tt (after_reply k s) w' /\
    moved pending sent w w' [] (plain_packet (reply_payload k s) pad).
Proof.
  intros Hs Hr Hw Ha Hl. destruct (reply_payload_ok s) as [Hp Hpl].
  destruct (send_plain_yields e pending sent (reply_payload k s) (set_session_id (identifier (signed k s)) (signed k s)) w)
    as (pad & w' & Hpad & Hy & Hm); [done..|].
  exists pad, w'. split_and!; [done| |done]. unfold ssh_transport_send_kex_ecdh_reply.
  eapply yields_bind; [apply yields_get|]. rewrite (kr_api _ _ Hr), (kr_entries _ _ Hr).
  eapply yields_bind; [by apply yields_reject|]. eapply yields_bind; [apply yields_get|].
  eapply yields_bind; [apply agree_yields|].
  eapply yields_bind; [exact (yields_perform e (HostkeyPublic _) _ _ _ _ (kb_host_key _ _))|].
  eapply yields_bind; [apply store_result_yields, kb_host_key_ok|].
  eapply yields_bind; [exact (hash_and_sign_yields srv f g (agreed k s) w (agreed_ok _ _ _ _ Hs) Hl)|].
  change (yields e (?p;; ?q) _ w) with (yields e (p;; q) (signed k s) w).
  assert (yields e (io_modify (fun s => if zlen (t_session_id s) =? 0 then set_session_id (exchange_hash (t_material s)) s else s))
    (signed k s) w tt (set_session_id (identifier (signed k s)) (signed k s)) w) as Hid
    by (rewrite <- set_identifier; apply (yields_modify e (fun s => if zlen (t_session_id s) =? 0 then _ else s))).
  eapply yields_bind; [exact Hid|]. eapply yields_bind; [apply yields_get|].
  eapply yields_bind; [apply yields_outcome|].
  { apply (emits_encode_into _ (reply_payload k s)); [|rewrite zlen_zeros; [lia|done]].
    exact (emits_ecdh_reply _ (reply_ok s)). }
  eapply yields_bind; [exact Hy|]. exact (yields_modify e _ _ _).
Qed.
End reply.

(** ** The exchange as a whole *)

(** The steps after the negotiation, as the server and the rekey handler take
    them. *)
Definition exchange_keys : TrM unit :=
  ssh_transport_receive_kex_ecdh_init;;
  ssh_transport_send_kex_ecdh_reply;;
  ssh_transport_send_newkeys;;
  ssh_transport_receive_newkeys.

Definition init_payload (key : list Z) : list Z := ecdh_init_bytes (mk_ecdh_init (view_of key)).
Definition after_init (key : list Z) (s : transport_session) : transport_session :=
  set_state STATE_KEX_ECDH_INIT_RECEIVED (on_material (with_client_kex_public_key key)
    (set_inbound_sequence (u32 (t_inbound_sequence s + 1)) s)).
Definition after_send_newkeys api k (s : transport_session) : transport_session :=
  set_state STATE_NEWKEYS_SENT (after_newkeys api k true
    (set_outbound_sequence (u32 (t_outbound_sequence s + 1)) s)).
Definition after_receive_newkeys api k (s : transport_session) : transport_session :=
  set_state STATE_NEWKEYS_RECEIVED (after_newkeys api k false
    (set_inbound_sequence (u32 (t_inbound_sequence s + 1)) s)).

(** What the two steps change. *)
Lemma after_send_newkeys_facts api k s :
  let s' := after_send_newkeys api k s in
  t_session_id s' = identifier s /\ t_material s' = t_material s /\ t_negotiation s' = t_negotiation s /\
  t_inbound s' = t_inbound s /\ t_outbound s' = fresh_protection api k s' (identifier s) true /\
  t_inbound_sequence s' = t_inbound_sequence s /\ t_outbound_sequence s' = u32 (t_outbound_sequence s + 1) /\
  t_server s' = t_server s.
Proof. done. Qed.

Lemma after_receive_newkeys_facts api k s :
  let s' := after_receive_newkeys api k s in
  t_session_id s' = identifier s /\ t_material s' = t_material s /\
  t_inbound s' = fresh_protection api k s' (identifier s) false /\ t_outbound s' = t_outbound s /\
  (forall sid, fresh_protection api k s' sid true = fresh_protection api k s sid true) /\
  t_inbound_sequence s' = u32 (t_inbound_sequence s + 1) /\ t_outbound_sequence s' = t_outbound_sequence s.
Proof. done. Qed.

Lemma kex_ready_same s s' api : t_server s' = t_server s -> kex_ready s api -> kex_ready s' api.
Proof. intros E []. split; by rewrite ?E. Qed.

Section exchange.
Context {W : Type} (e : env tcall treply W) (pending sent : W -> list Z) `{!ByteStream e pending sent}.
Context (k : kex_functions) `{!KexBackend e k}.

Lemma receive_init_yields key pad rest s w :
  srv_net_read (t_server s) = true -> prot_active (t_inbound s) = false -> pad_ok pad ->
  stored_ok EMSSH_MAX_KEX_PUBLIC_KEY key -> key <> [] -> pending w = plain_packet (init_payload key) pad ++ rest ->
  exists w', yields e ssh_transport_receive_kex_ecdh_init s w tt (after_init key s) w' /\
    moved pending sent w w' (plain_packet (init_payload key) pad) [].
Proof.
  intros Hrd Ha Hpad Hk Hn Hp.
  assert (ecdh_init_ok (mk_ecdh_init (view_of key))) as Hok by (by apply field_ok_of).
  assert (Forall is_byte (init_payload key)) as Hb by (by apply (emits_ecdh_init _ Hok)).
  destruct Hk as [Hkb Hkl]. unfold EMSSH_MAX_KEX_PUBLIC_KEY in Hkl.
  assert (zlen (init_payload key) <= 272) as Hl.
  { unfold init_payload, ecdh_init_bytes. cbn [client_public_key]. rewrite view_bytes_of. unfold string_bytes.
    rewrite !zlen_app, zlen_be_bytes, zlen_cons, zlen_nil. lia. }
  destruct (receive_plain_yields e pending sent to_local (EMSSH_MAX_KEX_PUBLIC_KEY + 16) (init_payload key) pad rest s w
    Hrd Ha) as (w' & Hy & Hm); [split; [done|etransitivity; [exact Hl|done]]|done|exact Hl|done|].
  exists w'. split; [|done]. unfold ssh_transport_receive_kex_ecdh_init. eapply yields_bind; [exact Hy|].
  eapply yields_bind; [apply yields_outcome, parses_decode_from, (message_parses _ Hok)|].
  cbn [client_public_key]. rewrite view_bytes_of.
  eapply yields_bind; [unfold stored; replace (zlen key <=? _) with true
    by (unfold EMSSH_MAX_KEX_PUBLIC_KEY; lia); apply yields_ret|].
  eapply yields_bind; [apply yields_modify|]. exact (yields_modify e _ _ _).
Qed.

Lemma after_init_ok srv f g key s :
  session_ok srv f g s -> stored_ok EMSSH_MAX_KEX_PUBLIC_KEY key -> session_ok srv f g (after_init key s).
Proof.
  intros Hs Hk. pose proof (so_material _ _ _ _ Hs) as Hm. destruct Hs, Hm. split; try done.
  cbn. unfold u32, is_u32. apply Z.mod_pos_bound. lia.
Qed.

Lemma newkeys_payload_ok : payload_ok [SSH_MSG_NEWKEYS].
Proof. split; [by repeat constructor|done]. Qed.

(** What the activation of a direction needs. *)
Record keys_ready (api : ssh_crypto_api) (s : transport_session) : Prop := {
  ky_ready : kex_ready s api;
  ky_hash : stored_ok EMSSH_MAX_EXCHANGE_HASH (exchange_hash (t_material s));
  ky_id : identifier s <> [];
  ky_sizes : negotiated_packet_sizes (t_negotiation s) = Ret (16, 16, 16, 32, 32)
}.

Lemma send_newkeys_yields api s w :
  srv_net_write (t_server s) = true -> prot_active (t_outbound s) = false -> keys_ready api s ->
  exists pad w', pad_ok pad /\ yields e ssh_transport_send_newkeys s w tt (after_send_newkeys api k s) w' /\
    moved pending sent w w' [] (plain_packet [SSH_MSG_NEWKEYS] pad).
Proof.
  intros Hw Ha [Hr Hh Hi Hn].
  destruct (send_plain_yields e pending sent [SSH_MSG_NEWKEYS] s w Hw Ha newkeys_payload_ok) as (pad & w' & Hpad & Hy & Hm).
  exists pad, w'. split_and!; [done| |done]. unfold ssh_transport_send_newkeys.
  eapply yields_bind; [apply yields_outcome; by vm_compute|]. eapply yields_bind; [exact Hy|].
  eapply yields_bind; [apply (activate_yields e k api true); [by destruct Hr|done..]|]. exact (yields_modify e _ _ _).
Qed.

Lemma receive_newkeys_yields api pad rest s w :
  srv_net_read (t_server s) = true -> prot_active (t_inbound s) = false -> pad_ok pad -> keys_ready api s ->
  pending w = plain_packet [SSH_MSG_NEWKEYS] pad ++ rest ->
  exists w', yields e ssh_transport_receive_newkeys s w tt (after_receive_newkeys api k s) w' /\
    moved pending sent w w' (plain_packet [SSH_MSG_NEWKEYS] pad) [].
Proof.
  intros Hrd Ha Hpad [Hr Hh Hi Hn] Hp.
  destruct (receive_plain_yields e pending sent to_local 8 [SSH_MSG_NEWKEYS] pad rest s w Hrd Ha newkeys_payload_ok)
    as (w' & Hy & Hm); [done..|].
  exists w'. split; [|done]. unfold ssh_transport_receive_newkeys. eapply yields_bind; [exact Hy|].
  eapply yields_bind; [apply yields_outcome, (parses_decode_from _ (newkeys_bytes tt) tt), (message_parses tt I)|].
  eapply yields_bind; [apply (activate_yields e k api false); [by destruct Hr|done..]|]. exact (yields_modify e _ _ _).
Qed.
End exchange.

(** ** The properties *)

(** A direction is given its keys by SSH_MSG_NEWKEYS as RFC 4253 says: the
    letters A, C and E for what the client sends and B, D and F for what the
    server sends, derived from the shared secret and the exchange hash under the
    session identifier, which is the first exchange hash; the sequence number
    goes on, the rekey counters of the direction start again and the other
    direction keeps its protection. *)
Theorem activation_exact {W} (e : env tcall treply W) k api outbound s w :
  KexBackend e k -> kex_ready s api ->
  stored_ok EMSSH_MAX_EXCHANGE_HASH (exchange_hash (t_material s)) -> identifier s <> [] ->
  negotiated_packet_sizes (t_negotiation s) = Ret (16, 16, 16, 32, 32) ->
  exists s', yields e (activate_packet_protection outbound) s w tt s' w /\
    t_session_id s' = identifier s /\ t_material s' = t_material s /\
    prot_of outbound s' = fresh_protection api k s (identifier s) outbound /\
    prot_of (negb outbound) s' = prot_of (negb outbound) s /\
    t_rekey s' = reset_rekey_direction outbound (t_rekey s).
Proof.
  intros Hk Hr Hh Hi Hn. exists (after_newkeys api k outbound s).
  split; [by apply activate_yields|]. by destruct outbound.
Qed.

(** C7: the key exchange after the negotiation, from the client's public key to
    SSH_MSG_NEWKEYS on both sides: every step returns; the hash H is that of the
    two identification strings, the two KEXINIT payloads, the host key, the two
    public keys and the shared secret, in this order; the reply carries the host
    key, the server's public key and the signature of H; H becomes the session
    identifier; and both directions are protected with the keys derived from H,
    their sequence numbers counting the packets of the exchange. *)
Theorem key_exchange_exact srv f g {W} (e : env tcall treply W) input output k api key pad1 pad2 rest s w :
  ByteStream e input output -> KexBackend e k -> session_ok srv f g s -> kex_ready s api ->
  srv_net_read (t_server s) = true -> srv_net_write (t_server s) = true ->
  prot_active (t_inbound s) = false -> prot_active (t_outbound s) = false -> t_session_id s = [] ->
  negotiated_packet_sizes (t_negotiation s) = Ret (16, 16, 16, 32, 32) ->
  stored_ok EMSSH_MAX_KEX_PUBLIC_KEY key -> key <> [] -> pad_ok pad1 -> pad_ok pad2 ->
  let s1 := after_init key s in
  let h := exchange_digest k s1 in
  zlen (exchange_hash_data (agreed k s1)) <= 4096 ->
  input w = plain_packet (init_payload key) pad1 ++ plain_packet [SSH_MSG_NEWKEYS] pad2 ++ rest ->
  exists s' w' pad3 pad4, yields e exchange_keys s w tt s' w' /\ input w' = rest /\
    output w' = output w ++ plain_packet (reply_payload k s1) pad3 ++ plain_packet [SSH_MSG_NEWKEYS] pad4 /\
    t_session_id s' = h /\ exchange_hash (t_material s') = h /\
    t_inbound s' = fresh_protection api k s' h false /\ t_outbound s' = fresh_protection api k s' h true /\
    t_inbound_sequence s' = u32 (u32 (t_inbound_sequence s + 1) + 1) /\
    t_outbound_sequence s' = u32 (u32 (t_outbound_sequence s + 1) + 1).
Proof.
  intros He Hk Hs Hr Hrd Hw Hi Ho Hid Hn Hkey Hne Hp1 Hp2 s1 h Hl Hin.
  destruct (receive_init_yields e input output key pad1 _ s w Hrd Hi Hp1 Hkey Hne Hin) as (w1 & Hy1 & [Hm1 Hm1']).
  pose proof (after_init_ok srv f g key s Hs Hkey) as Hs1. fold s1 in Hs1.
  destruct (reply_yields e input output k srv f g api s1 w1 Hs1) as (pad3 & w2 & Hp3 & Hy2 & [Hm2 Hm2']); [by destruct Hr|done..|].
  set (s2 := after_reply k s1). destruct (kb_digest_ok (kex_algorithm (t_negotiation s1)) (exchange_hash_data (agreed k s1))) as [Hhs Hhn].
  change (h <> []) in Hhn.
  assert (identifier (signed k s1) = h) as Hh by (unfold identifier; cbn; by rewrite Hid).
  assert (identifier s2 = h) as Hi2 by (apply identifier_is; [unfold s2; cbn; by rewrite Hh|exact Hhn]).
  assert (keys_ready api s2) as Hk2 by (split; [by destruct Hr|done|by rewrite Hi2|done]).
  destruct (send_newkeys_yields e input output k api s2 w2) as (pad4 & w3 & Hp4 & Hy3 & [Hm3 Hm3']); [done..|].
  destruct (after_send_newkeys_facts api k s2) as (F1 & F2 & F3 & F4 & F5 & F6 & F7 & F8).
  destruct (after_receive_newkeys_facts api k (after_send_newkeys api k s2)) as (G1 & G2 & G3 & G4 & G5 & G6 & G7).
  set (s3 := after_send_newkeys api k s2) in *. rewrite Hi2 in F1, F5.
  assert (identifier s3 = h) as Hi3 by (by apply identifier_is). rewrite Hi3 in G1, G3.
  assert (keys_ready api s3) as Hk3.
  { destruct Hk2 as [A1 A2 A3 A4]. split; [by apply (kex_ready_same s2)|by rewrite F2|by rewrite Hi3|by rewrite F3]. }
  assert (input w3 = plain_packet [SSH_MSG_NEWKEYS] pad2 ++ rest) as Hin3.
  { cbn [app] in Hm2, Hm3. rewrite <- Hm3, <- Hm2. rewrite Hin in Hm1. by apply app_inv_head in Hm1. }
  destruct (receive_newkeys_yields e input output k api pad2 rest s3 w3) as (w4 & Hy4 & [Hm4 Hm4']);
    [by rewrite F8|by rewrite F4|done..|].
  exists (after_receive_newkeys api k s3), w4, pad3, pad4. split.
  { eapply yields_bind; [exact Hy1|]. eapply yields_bind; [exact Hy2|]. eapply yields_bind; [exact Hy3|exact Hy4]. }
  split_and!; [| |exact G1|by rewrite G2, F2|exact G3|by rewrite G4, G5, F5|by rewrite G6, F6|by rewrite G7, F7].
  - rewrite Hin3 in Hm4. by apply app_inv_head in Hm4.
  - by rewrite Hm4', Hm3', Hm2', Hm1', !app_nil_r, app_assoc.
Qed.

(** ** An exchange for the examples *)
Definition demo_kex : kex_functions := {|
  kf_keypair _ := ([1], [2]);
  kf_agree _ private peer := [3];
  kf_host_key _ := [4];
  kf_digest _ d := [zlen d mod 256];
  kf_sign _ h := [6; zlen h mod 256];
  kf_derive _ _ _ _ key_id len := replicate (Z.to_nat len) (key_id mod 256)
|}.

Definition demo_kex_wire : env tcall treply (list Z * list Z) := fun c =>
  match c return list Z * list Z -> treply c * (list Z * list Z) with
  | KexGenerateKeypair alg => fun w => ((SSH_OK, fst (kf_keypair demo_kex alg), snd (kf_keypair demo_kex alg)), w)
  | KexComputeSharedSecret alg priv peer => fun w => ((SSH_OK, kf_agree demo_kex alg priv peer), w)
  | HostkeyPublic alg => fun w => ((SSH_OK, kf_host_key demo_kex alg), w)
  | HashExchange alg d => fun w => ((SSH_OK, kf_digest demo_kex alg d), w)
  | HostkeySign alg h => fun w => ((SSH_OK, kf_sign demo_kex alg h), w)
  | DeriveKey alg secret hash sid key_id len => fun w => ((SSH_OK, kf_derive demo_kex alg secret hash sid key_id len), w)
  | NetRead len => demo_wire (NetRead len)
  | NetReadOn len => demo_wire (NetReadOn len)
  | NetWrite data => demo_wire (NetWrite data)
  | RngUse => demo_wire RngUse
  end.

#[export] Instance demo_kex_stream : ByteStream demo_kex_wire fst snd.
Proof.
  split; [exact (stream_read (e:=demo_wire))|exact (stream_read_on (e:=demo_wire))|
    exact (stream_write (e:=demo_wire))|exact (stream_rng (e:=demo_wire))].
Qed.

#[export] Instance demo_kex_backend : KexBackend demo_kex_wire demo_kex.
Proof.
  assert (forall limit x, is_byte x -> 1 <= limit -> stored_ok limit [x] /\ [x] <> []) as H1.
  { intros limit x Hx Hl. split; [split; [by constructor|rewrite zlen_cons, zlen_nil; lia]|done]. }
  assert (forall z, is_byte (z mod 256)) as Hm by (intros z; apply Z.mod_pos_bound; lia).
  split; try done.
  - intros alg. split; [by apply H1|]. split; [by apply H1|done].
  - intros alg priv peer. by apply H1.
  - intros alg. by apply H1.
  - intros alg d. by apply H1.
  - intros alg h. split; [|done]. split; [constructor; [done|by constructor]|done].
  - intros alg secret hash sid key_id len Hl. split; [|by apply Forall_replicate].
    cbn [demo_kex kf_derive]. unfold zlen. rewrite length_replicate. lia.
Qed.

Definition demo_negotiation : ssh_kex_negotiation :=
  let c := view_of (cstr "aes128-ctr") in
  let m := view_of (cstr "hmac-sha2-256") in
  mk_negotiation null_view null_view c c m m null_view null_view null_view null_view.

Definition demo_start : outcome transport_session :=
  match ssh_transport_session_init (Some demo_transport_server) None with
  | Ret s => Ret (set_negotiation demo_negotiation s)
  | o => o
  end.

Lemma demo_kex_ready s :
  t_server s = demo_transport_server -> kex_ready s demo_crypto_api.
Proof. intros E. split; by rewrite ?E. Qed.

Lemma activation_exact_witness :
  exists s s', demo_start = Ret s /\
    let s0 := on_material (with_exchange_hash [9]) s in
    yields demo_kex_wire (activate_packet_protection true) s0 ([], []) tt s' ([], []) /\
    ztake 16 (prot_cipher_key (t_outbound s')) = replicate 16 68 /\ t_session_id s' = [9].
Proof.
  eexists. pose proof (fun s => activation_exact demo_kex_wire demo_kex demo_crypto_api true s ([], []) _) as H.
  edestruct H as (s' & Hy & Hid & _ & Hp & _); [| | | |exists s'; split; [reflexivity|]; cbv zeta; split; [exact Hy|]].
  - by apply demo_kex_ready.
  - split; [by repeat constructor|by vm_compute].
  - done.
  - by vm_compute.
  - cbn [prot_of] in Hp. rewrite Hp, Hid. split; by vm_compute.
Defined.

Lemma key_exchange_exact_witness :
  exists s s' w', demo_start = Ret s /\
    yields demo_kex_wire exchange_keys s
      (plain_packet (init_payload [9; 9]) (zeros 5) ++ plain_packet [SSH_MSG_NEWKEYS] (zeros 10) ++ [7], []) tt s' w' /\
    fst w' = [7] /\ t_session_id s' = exchange_digest demo_kex (after_init [9; 9] s) /\
    prot_active (t_inbound s') = true /\ t_outbound_sequence s' = 2.
Proof.
  assert (exists s, demo_start = Ret s /\ session_ok demo_transport_server xor_cipher (sum_mac 32) s /\
    t_server s = demo_transport_server /\ prot_active (t_inbound s) = false /\ prot_active (t_outbound s) = false /\
    t_session_id s = [] /\ t_negotiation s = demo_negotiation /\ t_outbound_sequence s = 0 /\
    zlen (exchange_hash_data (agreed demo_kex (after_init [9; 9] s))) <= 4096) as (s & Hst & Hs & Hsrv & Hi & Ho & Hid & Hn & Hq & Hl).
  { eexists. split; [reflexivity|]. split.
    - edestruct (init_ok demo_transport_server xor_cipher (sum_mac 32) None) as [[] _]; [apply demo_config_ok|reflexivity|]. by split.
    - split_and!; try done. }
  destruct (key_exchange_exact demo_transport_server xor_cipher (sum_mac 32) demo_kex_wire fst snd demo_kex demo_crypto_api
    [9; 9] (zeros 5) (zeros 10) [7] s
    (plain_packet (init_payload [9; 9]) (zeros 5) ++ plain_packet [SSH_MSG_NEWKEYS] (zeros 10) ++ [7], []))
    as (s' & w' & p3 & p4 & Hy & Hin & _ & Hsid & _ & Hpi & _ & _ & Hseq);
    try apply _; try done; try (by rewrite ?Hsrv, ?Hn); try (by apply demo_kex_ready);
    try (split; [by apply Forall_replicate|by vm_compute]).
  { split; [by repeat constructor|by vm_compute]. }
  exists s, s', w'. split_and!; try done; [by rewrite Hpi|]. by rewrite Hseq, Hq.
Defined.
