(* ===== verification/Sftp.v ===== *)
(** * SFTP messages: src/sftp/sftp.c

    The SFTP version 3 wire format: packet framing, the decoder of each request
    the server handles, file attributes, and the encoders of the responses.
    A request decoder fills a structure that its caller owns and may look at
    after a failure, so it is a program on that structure; the encoders are
    programs on the output memory.  [Fault] stands for an access outside the
    packet or the output, and for the extension loop running out of the
    iterations it is given; both are proved impossible. *)

From S2P Require Import Prelude Buffer Packet Codec.

(** ** Constants *)
Definition SSH_FXP_INIT : Z := 1.
Definition SSH_FXP_VERSION : Z := 2.
Definition SSH_FXP_OPEN : Z := 3.
Definition SSH_FXP_CLOSE : Z := 4.
Definition SSH_FXP_READ : Z := 5.
Definition SSH_FXP_WRITE : Z := 6.
Definition SSH_FXP_LSTAT : Z := 7.
Definition SSH_FXP_FSTAT : Z := 8.
Definition SSH_FXP_SETSTAT : Z := 9.
Definition SSH_FXP_FSETSTAT : Z := 10.
Definition SSH_FXP_OPENDIR : Z := 11.
Definition SSH_FXP_READDIR : Z := 12.
Definition SSH_FXP_REMOVE : Z := 13.
Definition SSH_FXP_MKDIR : Z := 14.
Definition SSH_FXP_RMDIR : Z := 15.
Definition SSH_FXP_REALPATH : Z := 16.
Definition SSH_FXP_STAT : Z := 17.
Definition SSH_FXP_RENAME : Z := 18.
Definition SSH_FXP_STATUS : Z := 101.
Definition SSH_FXP_HANDLE : Z := 102.
Definition SSH_FXP_DATA : Z := 103.
Definition SSH_FXP_NAME : Z := 104.
Definition SSH_FXP_ATTRS : Z := 105.
Definition SSH_FXP_EXTENDED : Z := 200.

Definition SSH_FILEXFER_ATTR_SIZE : Z := 1.
Definition SSH_FILEXFER_ATTR_UIDGID : Z := 2.
Definition SSH_FILEXFER_ATTR_PERMISSIONS : Z := 4.
Definition SSH_FILEXFER_ATTR_ACMODTIME : Z := 8.
Definition SSH_FILEXFER_ATTR_EXTENDED : Z := 2147483648.

Definition SFTP_SUPPORTED_ATTR_FLAGS : Z :=
  Z.lor (Z.lor (Z.lor SSH_FILEXFER_ATTR_SIZE SSH_FILEXFER_ATTR_UIDGID)
               SSH_FILEXFER_ATTR_PERMISSIONS) SSH_FILEXFER_ATTR_ACMODTIME.

(** ** Data *)
Record ssh_fs_attrs : Type := mk_attrs {
  attr_flags : Z; attr_size : Z; attr_uid : Z; attr_gid : Z;
  attr_permissions : Z; attr_atime : Z; attr_mtime : Z
}.

Record sftp_init : Type := mk_sftp_init {
  init_version : Z; init_extension_data : ssh_string_view
}.
Record sftp_packet : Type := mk_sftp_packet { pkt_type : Z; pkt_payload : ssh_string_view }.
Record sftp_request : Type := mk_sftp_request {
  req_type : Z; req_id : Z; req_payload : ssh_string_view
}.
Record sftp_path_request : Type := mk_path_request {
  path_id : Z; path_path : ssh_string_view
}.
Record sftp_open_request : Type := mk_open_request {
  open_id : Z; open_filename : ssh_string_view; open_pflags : Z; open_attrs : ssh_string_view
}.
Record sftp_handle_request : Type := mk_handle_request {
  handle_id : Z; handle_handle : ssh_string_view
}.
Record sftp_read_request : Type := mk_read_request {
  read_id : Z; read_handle : ssh_string_view; read_offset : Z; read_len : Z
}.
Record sftp_write_request : Type := mk_write_request {
  write_id : Z; write_handle : ssh_string_view; write_offset : Z; write_data : ssh_string_view
}.
Record sftp_rename_request : Type := mk_rename_request {
  rename_id : Z; rename_old_path : ssh_string_view; rename_new_path : ssh_string_view
}.
Record sftp_mkdir_request : Type := mk_mkdir_request {
  mkdir_id : Z; mkdir_path : ssh_string_view; mkdir_attrs : ssh_string_view
}.
Record sftp_setstat_request : Type := mk_setstat_request {
  setstat_id : Z; setstat_path : ssh_string_view; setstat_attrs : ssh_fs_attrs
}.
Record sftp_fsetstat_request : Type := mk_fsetstat_request {
  fsetstat_id : Z; fsetstat_handle : ssh_string_view; fsetstat_attrs : ssh_fs_attrs
}.
Record sftp_extended_request : Type := mk_extended_request {
  extended_id : Z; extended_name : ssh_string_view; extended_payload : ssh_string_view
}.

(** Attributes after [memset] to zero. *)
Definition zero_attrs : ssh_fs_attrs := mk_attrs 0 0 0 0 0 0 0.

(** ** Framing *)
Definition read_u32_be (data : list Z) : Z :=
  Z.lor (Z.lor (Z.lor (Z.shiftl (byte_at data 0) 24) (Z.shiftl (byte_at data 1) 16))
               (Z.shiftl (byte_at data 2) 8)) (byte_at data 3).

Definition write_u32_be (value : Z) : list Z :=
  [u8 (Z.shiftr value 24); u8 (Z.shiftr value 16); u8 (Z.shiftr value 8); u8 value].

Definition sftp_packet_wrap (packet : option (list Z)) (packet_len : Z) : outcome sftp_packet :=
  match packet with
  | None => Err SSH_ERR_INVALID_ARGUMENT
  | Some mem =>
    if packet_len <? 5 then Err SSH_ERR_MALFORMED_PACKET else
    match mem_read mem 0 5 with
    | None => Fault
    | Some front =>
      let packet_length := read_u32_be front in
      if (packet_length =? 0) || negb (packet_length + 4 =? packet_len)
      then Err SSH_ERR_MALFORMED_PACKET else
      match mem_read mem 5 (packet_length - 1) with
      | None => Fault
      | Some bs => Ret (mk_sftp_packet (byte_at front 4) (mk_view (Some bs) (packet_length - 1)))
      end
    end
  end.

(** [read_u32_be(view.data)], then the view of what follows the four bytes. *)
Definition split_u32 (v : ssh_string_view) : Z * ssh_string_view :=
  (read_u32_be (view_bytes v), mk_view (zdrop 4 <$> view_data v) (view_len v - 4)).

Definition sftp_request_decode (packet : option (list Z)) (packet_len : Z)
    : outcome sftp_request :=
  wrapped ← sftp_packet_wrap packet packet_len;
  if view_len (pkt_payload wrapped) <? 4 then Err SSH_ERR_MALFORMED_PACKET else
  let '(id, payload) := split_u32 (pkt_payload wrapped) in
  Ret (mk_sftp_request (pkt_type wrapped) id payload).

Definition sftp_init_decode (packet : option (list Z)) (packet_len : Z) : outcome sftp_init :=
  wrapped ← sftp_packet_wrap packet packet_len;
  if negb (pkt_type wrapped =? SSH_FXP_INIT) || (view_len (pkt_payload wrapped) <? 4)
  then Err SSH_ERR_MALFORMED_PACKET else
  let '(version, extension_data) := split_u32 (pkt_payload wrapped) in
  Ret (mk_sftp_init version extension_data).

(** ** The shape of the request decoders

    [ssh_buffer_wrap(&payload, v.data, v.len)] and the reads on that local
    buffer, storing into the caller's structure. *)
Definition with_payload {T} (v : ssh_string_view) (body : OutB T unit) : Prog T unit := fun t =>
  let '(o, (_, t')) := body (ssh_buffer_wrap uninit_buffer (view_data v) (view_len v), t) in
  (o, t').

(** What each decoder does around its own reads: zero the structure, decode the
    header, check the type, wrap the rest. *)
Definition with_request {T} (zero : T) (expected_type : Z) (packet : option (list Z))
    (packet_len : Z) (body : Z -> OutB T unit) : Prog T unit := fun _ =>
  match sftp_request_decode packet packet_len with
  | Err e => (Err e, zero)
  | Fault => (Fault, zero)
  | Ret generic =>
    if negb (req_type generic =? expected_type) then (Err SSH_ERR_MALFORMED_PACKET, zero)
    else with_payload (req_payload generic) (body (req_id generic)) zero
  end.

(** The view of the unread bytes: [payload.data + payload.pos] and
    [ssh_buffer_remaining_read(&payload)]. *)
Definition rest_view : BufM ssh_string_view := fun s =>
  match s with
  | Some (mk_ssh_buffer (Some d) cap len pos) =>
    let n := ssh_buffer_remaining_read s in
    match mem_read d pos n with
    | Some bs => (Ret (mk_view (Some bs) n), s)
    | None => (Fault, s)
    end
  | _ => (Fault, s)
  end.

(** [payload.pos += n;] *)
Definition advance_pos (n : Z) : BufM unit := fun s =>
  match s with
  | Some (mk_ssh_buffer d cap len pos) => (Ret tt, Some (mk_ssh_buffer d cap len (pos + n)))
  | None => (Fault, s)
  end.

Definition take_rest : BufM ssh_string_view :=
  v ← rest_view; advance_pos (view_len v);; mret v.

(** [if (ssh_buffer_remaining_read(&payload) != 0u) return SSH_ERR_MALFORMED_PACKET;] *)
Definition require_end {T} : OutB T unit :=
  remaining ← lift remaining_read;
  reject (negb (remaining =? 0)) SSH_ERR_MALFORMED_PACKET.

(** ** Requests *)
Definition decode_path_request (packet : option (list Z)) (packet_len expected_type : Z)
    : Prog sftp_path_request unit :=
  with_request (mk_path_request 0 null_view) expected_type packet packet_len (fun id =>
    path ← lift ssh_buffer_get_string_view;
    set_out (fun r => mk_path_request (path_id r) path);;
    require_end;;
    set_out (fun r => mk_path_request id (path_path r))).

Definition sftp_realpath_request_decode packet packet_len :=
  decode_path_request packet packet_len SSH_FXP_REALPATH.
Definition sftp_lstat_request_decode packet packet_len :=
  decode_path_request packet packet_len SSH_FXP_LSTAT.
Definition sftp_stat_request_decode packet packet_len :=
  decode_path_request packet packet_len SSH_FXP_STAT.
Definition sftp_opendir_request_decode packet packet_len :=
  decode_path_request packet packet_len SSH_FXP_OPENDIR.
Definition sftp_remove_request_decode packet packet_len :=
  decode_path_request packet packet_len SSH_FXP_REMOVE.
Definition sftp_rmdir_request_decode packet packet_len :=
  decode_path_request packet packet_len SSH_FXP_RMDIR.

Definition sftp_open_request_decode (packet : option (list Z)) (packet_len : Z)
    : Prog sftp_open_request unit :=
  with_request (mk_open_request 0 null_view 0 null_view) SSH_FXP_OPEN packet packet_len (fun id =>
    filename ← lift ssh_buffer_get_string_view;
    set_out (fun r => mk_open_request (open_id r) filename (open_pflags r) (open_attrs r));;
    pflags ← lift ssh_buffer_get_u32;
    set_out (fun r => mk_open_request (open_id r) (open_filename r) pflags (open_attrs r));;
    attrs_len ← lift remaining_read;
    reject (attrs_len <? 4) SSH_ERR_MALFORMED_PACKET;;
    attrs ← lift take_rest;
    set_out (fun r => mk_open_request id (open_filename r) (open_pflags r) attrs)).

(** The body that sftp_close_request_decode, sftp_fstat_request_decode and
    sftp_readdir_request_decode share. *)
Definition handle_request_decode (packet : option (list Z)) (packet_len expected_type : Z)
    : Prog sftp_handle_request unit :=
  with_request (mk_handle_request 0 null_view) expected_type packet packet_len (fun id =>
    handle ← lift ssh_buffer_get_string_view;
    set_out (fun r => mk_handle_request (handle_id r) handle);;
    require_end;;
    set_out (fun r => mk_handle_request id (handle_handle r))).

Definition sftp_close_request_decode packet packet_len :=
  handle_request_decode packet packet_len SSH_FXP_CLOSE.
Definition sftp_fstat_request_decode packet packet_len :=
  handle_request_decode packet packet_len SSH_FXP_FSTAT.
Definition sftp_readdir_request_decode packet packet_len :=
  handle_request_decode packet packet_len SSH_FXP_READDIR.

Definition sftp_read_request_decode (packet : option (list Z)) (packet_len : Z)
    : Prog sftp_read_request unit :=
  with_request (mk_read_request 0 null_view 0 0) SSH_FXP_READ packet packet_len (fun id =>
    handle ← lift ssh_buffer_get_string_view;
    set_out (fun r => mk_read_request (read_id r) handle (read_offset r) (read_len r));;
    offset ← lift ssh_buffer_get_u64;
    set_out (fun r => mk_read_request (read_id r) (read_handle r) offset (read_len r));;
    len ← lift ssh_buffer_get_u32;
    set_out (fun r => mk_read_request (read_id r) (read_handle r) (read_offset r) len);;
    require_end;;
    set_out (fun r => mk_read_request id (read_handle r) (read_offset r) (read_len r))).

Definition sftp_write_request_decode (packet : option (list Z)) (packet_len : Z)
    : Prog sftp_write_request unit :=
  with_request (mk_write_request 0 null_view 0 null_view) SSH_FXP_WRITE packet packet_len (fun id =>
    handle ← lift ssh_buffer_get_string_view;
    set_out (fun r => mk_write_request (write_id r) handle (write_offset r) (write_data r));;
    offset ← lift ssh_buffer_get_u64;
    set_out (fun r => mk_write_request (write_id r) (write_handle r) offset (write_data r));;
    data ← lift ssh_buffer_get_string_view;
    set_out (fun r => mk_write_request (write_id r) (write_handle r) (write_offset r) data);;
    require_end;;
    set_out (fun r => mk_write_request id (write_handle r) (write_offset r) (write_data r))).

Definition sftp_mkdir_request_decode (packet : option (list Z)) (packet_len : Z)
    : Prog sftp_mkdir_request unit :=
  with_request (mk_mkdir_request 0 null_view null_view) SSH_FXP_MKDIR packet packet_len (fun id =>
    path ← lift ssh_buffer_get_string_view;
    set_out (fun r => mk_mkdir_request (mkdir_id r) path (mkdir_attrs r));;
    attrs_len ← lift remaining_read;
    reject (attrs_len <? 4) SSH_ERR_MALFORMED_PACKET;;
    attrs ← lift take_rest;
    set_out (fun r => mk_mkdir_request id (mkdir_path r) attrs)).

Definition sftp_rename_request_decode (packet : option (list Z)) (packet_len : Z)
    : Prog sftp_rename_request unit :=
  with_request (mk_rename_request 0 null_view null_view) SSH_FXP_RENAME packet packet_len (fun id =>
    old_path ← lift ssh_buffer_get_string_view;
    set_out (fun r => mk_rename_request (rename_id r) old_path (rename_new_path r));;
    new_path ← lift ssh_buffer_get_string_view;
    set_out (fun r => mk_rename_request (rename_id r) (rename_old_path r) new_path);;
    require_end;;
    set_out (fun r => mk_rename_request id (rename_old_path r) (rename_new_path r))).

Definition sftp_extended_request_decode (packet : option (list Z)) (packet_len : Z)
    : Prog sftp_extended_request unit :=
  with_request (mk_extended_request 0 null_view null_view) SSH_FXP_EXTENDED packet packet_len
   (fun id =>
    name ← lift ssh_buffer_get_string_view;
    set_out (fun r => mk_extended_request (extended_id r) name (extended_payload r));;
    payload ← lift rest_view;
    set_out (fun r => mk_extended_request id (extended_name r) payload)).

(** ** Attributes *)

(** [(flags & bit) != 0u] *)
Definition has_flag (flags bit : Z) : bool := negb (Z.land flags bit =? 0).

(** [if (status == SSH_OK && (flags & bit) != 0u) status = ...;] *)
Definition when_flag {S} (flags bit : Z) (p : Prog S unit) : Prog S unit :=
  if has_flag flags bit then p else mret tt.

(** The loop over the extension pairs, with a bound on its iterations. *)
Fixpoint skip_extensions (fuel : nat) (i extended_count : Z) : BufM unit :=
  if i <? extended_count then
    match fuel with
    | O => fault
    | S fuel' =>
      ssh_buffer_get_string_view;; ssh_buffer_get_string_view;;
      skip_extensions fuel' (u32 (i + 1)) extended_count
    end
  else mret tt.

(** A pair takes at least eight bytes, so the unread bytes bound the
    iterations, whatever count the packet announces ([decodes_extensions]). *)
Definition extensions_decode : BufM unit :=
  extended_count ← ssh_buffer_get_u32;
  remaining ← remaining_read;
  skip_extensions (S (Z.to_nat (remaining / 8))) 0 extended_count.

Definition attrs_reads : OutB ssh_fs_attrs unit :=
  flags ← lift ssh_buffer_get_u32;
  reject (negb (Z.land flags (u32 (Z.lnot (Z.lor SFTP_SUPPORTED_ATTR_FLAGS
                                                 SSH_FILEXFER_ATTR_EXTENDED))) =? 0))
    SSH_ERR_UNSUPPORTED;;
  let supported := Z.land flags SFTP_SUPPORTED_ATTR_FLAGS in
  set_out (fun a => mk_attrs supported (attr_size a) (attr_uid a) (attr_gid a)
                      (attr_permissions a) (attr_atime a) (attr_mtime a));;
  when_flag supported SSH_FILEXFER_ATTR_SIZE
    (size ← lift ssh_buffer_get_u64;
     set_out (fun a => mk_attrs (attr_flags a) size (attr_uid a) (attr_gid a)
                         (attr_permissions a) (attr_atime a) (attr_mtime a)));;
  when_flag supported SSH_FILEXFER_ATTR_UIDGID
    (uid ← lift ssh_buffer_get_u32;
     set_out (fun a => mk_attrs (attr_flags a) (attr_size a) uid (attr_gid a)
                         (attr_permissions a) (attr_atime a) (attr_mtime a)));;
  when_flag supported SSH_FILEXFER_ATTR_UIDGID
    (gid ← lift ssh_buffer_get_u32;
     set_out (fun a => mk_attrs (attr_flags a) (attr_size a) (attr_uid a) gid
                         (attr_permissions a) (attr_atime a) (attr_mtime a)));;
  when_flag supported SSH_FILEXFER_ATTR_PERMISSIONS
    (permissions ← lift ssh_buffer_get_u32;
     set_out (fun a => mk_attrs (attr_flags a) (attr_size a) (attr_uid a) (attr_gid a)
                         permissions (attr_atime a) (attr_mtime a)));;
  when_flag supported SSH_FILEXFER_ATTR_ACMODTIME
    (atime ← lift ssh_buffer_get_u32;
     set_out (fun a => mk_attrs (attr_flags a) (attr_size a) (attr_uid a) (attr_gid a)
                         (attr_permissions a) atime (attr_mtime a)));;
  when_flag supported SSH_FILEXFER_ATTR_ACMODTIME
    (mtime ← lift ssh_buffer_get_u32;
     set_out (fun a => mk_attrs (attr_flags a) (attr_size a) (attr_uid a) (attr_gid a)
                         (attr_permissions a) (attr_atime a) mtime));;
  when_flag flags SSH_FILEXFER_ATTR_EXTENDED (lift extensions_decode);;
  require_end.

Definition sftp_attrs_decode (encoded : ssh_string_view) : Prog ssh_fs_attrs unit := fun attrs =>
  if is_null (view_data encoded) then (Err SSH_ERR_INVALID_ARGUMENT, attrs)
  else with_payload encoded attrs_reads zero_attrs.

(** [sftp_attrs_decode(attrs_view, &request->attrs)]: a program on one field of
    the structure. *)
Definition on_field {T F A} (get : T -> F) (set : F -> T -> T) (p : Prog F A) : OutB T A :=
  fun '(s, t) => let '(o, f) := p (get t) in (o, (s, set f t)).

Definition sftp_setstat_request_decode (packet : option (list Z)) (packet_len : Z)
    : Prog sftp_setstat_request unit :=
  with_request (mk_setstat_request 0 null_view zero_attrs) SSH_FXP_SETSTAT packet packet_len
   (fun id =>
    set_out (fun r => mk_setstat_request id (setstat_path r) (setstat_attrs r));;
    path ← lift ssh_buffer_get_string_view;
    set_out (fun r => mk_setstat_request (setstat_id r) path (setstat_attrs r));;
    attrs_view ← lift rest_view;
    on_field setstat_attrs (fun a r => mk_setstat_request (setstat_id r) (setstat_path r) a)
      (sftp_attrs_decode attrs_view)).

Definition sftp_fsetstat_request_decode (packet : option (list Z)) (packet_len : Z)
    : Prog sftp_fsetstat_request unit :=
  with_request (mk_fsetstat_request 0 null_view zero_attrs) SSH_FXP_FSETSTAT packet packet_len
   (fun id =>
    set_out (fun r => mk_fsetstat_request id (fsetstat_handle r) (fsetstat_attrs r));;
    handle ← lift ssh_buffer_get_string_view;
    set_out (fun r => mk_fsetstat_request (fsetstat_id r) handle (fsetstat_attrs r));;
    attrs_view ← lift rest_view;
    on_field fsetstat_attrs (fun a r => mk_fsetstat_request (fsetstat_id r) (fsetstat_handle r) a)
      (sftp_attrs_decode attrs_view)).

(** ** Responses *)
Definition packet_payload_init (out : option (list Z)) (out_capacity : Z) : outcome bufptr :=
  match out with
  | None => Err SSH_ERR_INVALID_ARGUMENT
  | Some mem =>
    if out_capacity <? 4 then Err SSH_ERR_BUFFER_TOO_SMALL
    else Ret (ssh_buffer_init uninit_buffer (Some (zdrop 4 mem)) (out_capacity - 4))
  end.

Definition packet_finish (payload : bufptr) : OutM Z := fun out =>
  match out, payload with
  | Some mem, Some _ =>
    let payload_len := ssh_buffer_len payload in
    if payload_len >? UINT32_MAX then (Err SSH_ERR_BUFFER_OVERFLOW, out) else
    match mem_write mem 0 (write_u32_be (u32 payload_len)) with
    | Some mem' => (Ret (u64 (payload_len + 4)), Some mem')
    | None => (Fault, out)
    end
  | _, _ => (Err SSH_ERR_INVALID_ARGUMENT, out)
  end.

(** [packet_payload_init], the writes on the payload, [packet_finish]: the
    payload's storage is the output memory from the fifth byte on. *)
Definition encode_packet (out_capacity : Z) (writes : BufM unit) : OutM Z := fun out =>
  match packet_payload_init out out_capacity with
  | Err e => (Err e, out)
  | Fault => (Fault, out)
  | Ret payload =>
    let '(o, payload') := writes payload in
    let out' := match out, ssh_buffer_data payload' with
                | Some mem, Some d => Some (ztake 4 mem ++ d)
                | _, _ => out
                end in
    match o with
    | Ret _ => packet_finish payload' out'
    | Err e => (Err e, out')
    | Fault => (Fault, out')
    end
  end.

(** [if (out == NULL || out_len == NULL || ...) return SSH_ERR_INVALID_ARGUMENT;] *)
Definition require_out (bad_argument : bool) : OutM unit := fun out =>
  reject (is_null out || bad_argument) SSH_ERR_INVALID_ARGUMENT out.

Definition sftp_version_encode (out_capacity version : Z) : OutM Z :=
  require_out false;;
  reject (out_capacity <? 9) SSH_ERR_BUFFER_TOO_SMALL;;
  out ← get_state;
  match mem_write (default [] out) 0
          (write_u32_be 5 ++ [SSH_FXP_VERSION] ++ write_u32_be version) with
  | Some mem => put_state (Some mem);; mret 9
  | None => fault
  end.

Definition sftp_status_encode (out_capacity request_id status_code : Z)
    (message language : option (list Z)) : OutM Z :=
  require_out (is_null message || is_null language);;
  encode_packet out_capacity
    (ssh_buffer_put_u8 SSH_FXP_STATUS;;
     ssh_buffer_put_u32 request_id;;
     ssh_buffer_put_u32 status_code;;
     ssh_buffer_put_cstring message;;
     ssh_buffer_put_cstring language).

Definition sftp_handle_encode (out_capacity request_id : Z) (handle : option (list Z))
    (handle_len : Z) : OutM Z :=
  require_out (is_null handle && negb (handle_len =? 0));;
  encode_packet out_capacity
    (ssh_buffer_put_u8 SSH_FXP_HANDLE;;
     ssh_buffer_put_u32 request_id;;
     ssh_buffer_put_string handle handle_len).

Definition sftp_data_encode (out_capacity request_id : Z) (data : option (list Z))
    (data_len : Z) : OutM Z :=
  require_out (is_null data && negb (data_len =? 0));;
  encode_packet out_capacity
    (ssh_buffer_put_u8 SSH_FXP_DATA;;
     ssh_buffer_put_u32 request_id;;
     ssh_buffer_put_string data data_len).

Definition put_attrs (attrs : option ssh_fs_attrs) : BufM unit :=
  require_buffer;;
  match attrs with
  | None => fail SSH_ERR_INVALID_ARGUMENT
  | Some a =>
    let flags := Z.land (attr_flags a) SFTP_SUPPORTED_ATTR_FLAGS in
    ssh_buffer_put_u32 flags;;
    when_flag flags SSH_FILEXFER_ATTR_SIZE (ssh_buffer_put_u64 (attr_size a));;
    when_flag flags SSH_FILEXFER_ATTR_UIDGID (ssh_buffer_put_u32 (attr_uid a));;
    when_flag flags SSH_FILEXFER_ATTR_UIDGID (ssh_buffer_put_u32 (attr_gid a));;
    when_flag flags SSH_FILEXFER_ATTR_PERMISSIONS (ssh_buffer_put_u32 (attr_permissions a));;
    when_flag flags SSH_FILEXFER_ATTR_ACMODTIME (ssh_buffer_put_u32 (attr_atime a));;
    when_flag flags SSH_FILEXFER_ATTR_ACMODTIME (ssh_buffer_put_u32 (attr_mtime a))
  end.

Definition sftp_attrs_encode (out_capacity request_id : Z) (attrs : option ssh_fs_attrs) : OutM Z :=
  require_out (is_null attrs);;
  encode_packet out_capacity
    (ssh_buffer_put_u8 SSH_FXP_ATTRS;;
     ssh_buffer_put_u32 request_id;;
     put_attrs attrs).

Definition sftp_name_one_attrs_encode (out_capacity request_id : Z)
    (filename longname : option (list Z)) (attrs : option ssh_fs_attrs) : OutM Z :=
  require_out (is_null filename || is_null attrs);;
  let entry_longname := if negb (is_null longname) then longname else filename in
  encode_packet out_capacity
    (ssh_buffer_put_u8 SSH_FXP_NAME;;
     ssh_buffer_put_u32 request_id;;
     ssh_buffer_put_u32 1;;
     ssh_buffer_put_cstring filename;;
     ssh_buffer_put_cstring entry_longname;;
     put_attrs attrs).

Definition sftp_name_one_encode (out_capacity request_id : Z)
    (filename longname : option (list Z)) : OutM Z :=
  sftp_name_one_attrs_encode out_capacity request_id filename longname (Some zero_attrs).

(** ** The wire format

    A frame is the length, the type and the body; a request's body starts with
    its id. *)
Definition sftp_frame (type : Z) (body : list Z) : list Z :=
  be_bytes 4 (1 + zlen body) ++ [type] ++ body.
Definition frame_ok (type : Z) (body : list Z) : Prop :=
  is_byte type /\ Forall is_byte body /\ 1 + zlen body <= UINT32_MAX.
Definition request_frame (type id : Z) (body : list Z) : list Z :=
  sftp_frame type (be_bytes 4 id ++ body).

(** ** Lemmas: framing *)
Lemma read_u32_be_value p l :
  Forall is_byte p -> zlen p = 4 -> read_u32_be (p ++ l) = be_value p.
Proof.
  intros Hb Hl. destruct (list_4 p Hl) as (a & b & c & d & ->).
  unfold read_u32_be, byte_at. cbn [app nth]. by rewrite be_value_lor4.
Qed.

Lemma read_u32_be_bytes v l : is_u32 v -> read_u32_be (be_bytes 4 v ++ l) = v.
Proof.
  intros Hv. rewrite read_u32_be_value by (try apply zlen_be_bytes; auto with emssh).
  by apply be_value_bytes.
Qed.

Lemma write_u32_be_bytes v : write_u32_be v = be_bytes 4 v.
Proof.
  unfold write_u32_be, u8. cbn [be_bytes]. rewrite !Z.shiftr_div_pow2 by lia.
  repeat f_equal; try done. by rewrite Z.div_1_r.
Qed.

Lemma be_bytes_read p : Forall is_byte p -> zlen p = 4 -> p = be_bytes 4 (be_value p).
Proof.
  intros Hb Hl. rewrite <- (be_bytes_value p) at 1 by done. f_equal. unfold zlen in Hl. lia.
Qed.

Lemma zlen_sftp_frame ty body : zlen (sftp_frame ty body) = 5 + zlen body.
Proof. unfold sftp_frame. len_lia. Qed.
#[export] Hint Rewrite zlen_sftp_frame : emssh_len.

Lemma sftp_frame_byte ty body : frame_ok ty body -> Forall is_byte (sftp_frame ty body).
Proof. intros (? & ? & ?). unfold sftp_frame. auto with emssh. Qed.

Lemma packet_wrap_frame ty body :
  frame_ok ty body ->
  sftp_packet_wrap (Some (sftp_frame ty body)) (zlen (sftp_frame ty body)) =
    Ret (mk_sftp_packet ty (view_of body)).
Proof.
  intros (Ht & Hb & Hl). pose proof (zlen_nonneg body). unfold UINT32_MAX in Hl.
  unfold sftp_packet_wrap. rewrite zlen_sftp_frame.
  replace (5 + zlen body <? 5) with false by lia.
  set (p := be_bytes 4 (1 + zlen body)).
  assert (zlen p = 4) as Hp by apply zlen_be_bytes.
  assert (sftp_frame ty body = (p ++ [ty]) ++ body ++ []) as ->
    by (unfold sftp_frame; by rewrite app_nil_r, <- app_assoc).
  assert (zlen (p ++ [ty]) = 5) as H5 by len_lia.
  pose proof (mem_read_app [] (p ++ [ty]) (body ++ [])) as Hf. rewrite H5 in Hf.
  cbn [app] in Hf. rewrite zlen_nil in Hf. rewrite Hf.
  assert (read_u32_be (p ++ [ty]) = 1 + zlen body) as ->
    by (apply read_u32_be_bytes; unfold is_u32; lia).
  replace ((1 + zlen body =? 0) || _) with false by lia.
  replace (1 + zlen body - 1) with (zlen body) by lia.
  rewrite <- H5, mem_read_app. by destruct (list_4 p Hp) as (? & ? & ? & ? & ->).
Qed.

Lemma packet_wrap_inv mem pk :
  Forall is_byte mem -> sftp_packet_wrap (Some mem) (zlen mem) = Ret pk ->
  exists ty body, frame_ok ty body /\ mem = sftp_frame ty body /\
    pk = mk_sftp_packet ty (view_of body).
Proof.
  intros Hm E. assert (5 <= zlen mem) as Hl.
  { unfold sftp_packet_wrap in E. destruct (Z.ltb_spec (zlen mem) 5); [done|lia]. }
  destruct (zsplit mem 4) as (p & r & -> & Hp); [lia|].
  destruct r as [|ty body]; [len_lia|]. apply Forall_app in Hm as [Hpb [Ht Hb]%Forall_cons_1].
  pose proof (be_value_bound _ Hpb) as Hv. rewrite Hp in Hv.
  assert (be_value p = 1 + zlen body) as Hlen.
  { unfold sftp_packet_wrap in E. replace (_ <? 5) with false in E by len_lia.
    destruct (mem_read _ 0 5) as [front|] eqn:Ef; [|done].
    assert (front = p ++ [ty]) as ->.
    { pose proof (mem_read_app [] (p ++ [ty]) body) as Hf.
      replace (zlen (p ++ [ty])) with 5 in Hf by len_lia. cbn [app] in Hf.
      rewrite <- app_assoc in Hf. rewrite zlen_nil in Hf. cbn [app] in Hf. congruence. }
    rewrite read_u32_be_value in E by done. destruct (_ || _) eqn:Ec; [done|].
    apply orb_false_iff in Ec as [_ Ec%negb_false_iff%Z.eqb_eq].
    rewrite zlen_app, zlen_cons in Ec. lia. }
  assert (p ++ ty :: body = sftp_frame ty body) as Hfr.
  { unfold sftp_frame. rewrite <- Hlen, <- be_bytes_read by done. done. }
  assert (frame_ok ty body) as Hok.
  { split_and!; [done..|]. unfold UINT32_MAX. change (256 ^ 4) with (2 ^ 32) in Hv. lia. }
  exists ty, body. rewrite Hfr in *. split_and!; [done..|].
  rewrite packet_wrap_frame in E by done. congruence.
Qed.

(** The packet is framed or refused as malformed; it is never read outside. *)
Lemma packet_wrap_cases mem :
  Forall is_byte mem ->
  (exists ty body, frame_ok ty body /\ mem = sftp_frame ty body) \/
  sftp_packet_wrap (Some mem) (zlen mem) = Err SSH_ERR_MALFORMED_PACKET.
Proof.
  intros Hm. destruct (sftp_packet_wrap (Some mem) (zlen mem)) as [pk|e|] eqn:E.
  - destruct (packet_wrap_inv mem pk Hm E) as (ty & body & ? & ? & _). left. eauto.
  - right. unfold sftp_packet_wrap in E. repeat (case_match; try done); congruence.
  - exfalso. revert E. unfold sftp_packet_wrap. pose proof (zlen_nonneg mem).
    destruct (Z.ltb_spec (zlen mem) 5); [done|].
    destruct (zsplit mem 5) as (p & r & -> & Hp); [lia|].
    pose proof (mem_read_app [] p r) as Hf. rewrite Hp in Hf. cbn [app] in Hf.
    rewrite zlen_nil in Hf. rewrite Hf. set (n := read_u32_be p).
    destruct (_ || _) eqn:Ec; [done|].
    apply orb_false_iff in Ec as [_ Ec%negb_false_iff%Z.eqb_eq]. rewrite zlen_app in Ec.
    replace (n - 1) with (zlen r) by lia.
    pose proof (mem_read_app p r []) as Hr. rewrite app_nil_r, Hp in Hr. by rewrite Hr.
Qed.

Lemma split_u32_of v l : is_u32 v -> split_u32 (view_of (be_bytes 4 v ++ l)) = (v, view_of l).
Proof.
  intros Hv. unfold split_u32. rewrite view_bytes_of, read_u32_be_bytes by done.
  unfold view_of. cbn [view_data view_len fmap option_fmap option_map].
  change 4 with (zlen (be_bytes 4 v)) at 1. rewrite zdrop_app. do 2 f_equal. len_lia.
Qed.

(** Four bytes at least: an integer in front. *)
Lemma u32_front body :
  Forall is_byte body -> 4 <= zlen body ->
  exists v l, body = be_bytes 4 v ++ l /\ is_u32 v /\ Forall is_byte l.
Proof.
  intros Hb Hl. destruct (zsplit body 4) as (p & l & -> & Hp); [lia|].
  apply Forall_app in Hb as [Hpb Hlb]. exists (be_value p), l.
  pose proof (be_value_bound _ Hpb) as Hv. rewrite Hp in Hv.
  by rewrite <- be_bytes_read by done.
Qed.

(** *** The request header *)
Lemma request_decode_frame ty id body :
  frame_ok ty (be_bytes 4 id ++ body) -> is_u32 id ->
  let pk := request_frame ty id body in
  sftp_request_decode (Some pk) (zlen pk) = Ret (mk_sftp_request ty id (view_of body)).
Proof.
  intros Hf Hid pk. unfold sftp_request_decode, pk, request_frame.
  rewrite packet_wrap_frame by done. cbn [mbind outcome_bind pkt_payload pkt_type].
  rewrite split_u32_of by done. pose proof (zlen_nonneg body).
  replace (view_len _ <? 4) with false; [done|]. unfold view_of. cbn [view_len].
  symmetry. apply Z.ltb_ge. clear pk. len_lia.
Qed.

Lemma request_decode_cases mem :
  Forall is_byte mem ->
  (exists ty id body, frame_ok ty (be_bytes 4 id ++ body) /\ is_u32 id /\
     mem = request_frame ty id body) \/
  sftp_request_decode (Some mem) (zlen mem) = Err SSH_ERR_MALFORMED_PACKET.
Proof.
  intros Hm. destruct (packet_wrap_cases mem Hm) as [(ty & body & Hf & ->)|E].
  - destruct (Z.lt_ge_cases (zlen body) 4) as [Hl|Hl].
    + right. unfold sftp_request_decode. rewrite packet_wrap_frame by done. cbn.
      by replace (_ <? 4) with true by lia.
    + destruct Hf as (? & Hb & ?). destruct (u32_front body Hb Hl) as (id & l & -> & ? & ?).
      left. exists ty, id, l. done.
  - right. unfold sftp_request_decode. by rewrite E.
Qed.

(** ** The contract of a request decoder

    [accepts g R]: on byte strings the reader returns [t] exactly on the inputs
    related to it, and never faults. *)
Definition accepts {T} (g : BufM T) (R : T -> list Z -> Prop) : Prop :=
  forall bs, Forall is_byte bs ->
    (forall t, decode_from g bs = Ret t <-> R t bs) /\ decode_from g bs <> Fault.

(** The structure a decoder returns with [SSH_OK]. *)
Definition filled {T} (p : Prog T unit) (t : T) : outcome T :=
  match p t with
  | (Ret _, t') => Ret t'
  | (Err e, _) => Err e
  | (Fault, _) => Fault
  end.

(** What a request decoder promises to the server: whatever the structure
    held before, it accepts exactly the frames of its type, with an id and a
    body that the fields of the structure determine through [R], and it never
    reads outside the packet. *)
Class RequestCodec {T} (decode : option (list Z) -> Z -> Prog T unit) (type : Z)
    (id_of : T -> Z) (R : T -> list Z -> Prop) : Prop := {
  request_codec pk t0 : Forall is_byte pk ->
    (forall t, filled (decode (Some pk) (zlen pk)) t0 = Ret t <->
       exists body, is_u32 (id_of t) /\ frame_ok type (be_bytes 4 (id_of t) ++ body) /\
         R t body /\ pk = request_frame type (id_of t) body) /\
    filled (decode (Some pk) (zlen pk)) t0 <> Fault
}.

(** ** Lemmas: request decoders *)
Lemma accepts_intro {T} (g : BufM T) R :
  (forall t l, R t l -> exists l1 l2, l = l1 ++ l2 /\ parses g l1 l2 t) ->
  decodes g (fun t u1 u2 => R t (u1 ++ u2)) -> accepts g R.
Proof.
  intros Hp Hd bs Hb. split; [|by eapply decodes_no_fault]. intros t. split.
  - intros E. by destruct (decodes_decode_from _ _ _ _ Hd Hb E) as (u1 & u2 & -> & ?).
  - intros HR. destruct (Hp t bs HR) as (l1 & l2 & -> & Hl).
    unfold decode_from, ssh_buffer_wrap, uninit_buffer. specialize (Hl [] [] (zlen (l1 ++ l2))).
    unfold Bf at 1 in Hl. cbn [app] in Hl. rewrite app_nil_r, zlen_nil, Z.add_0_l in Hl. by rewrite Hl.
Qed.

Lemma request_frame_inj ty ty' id id' l l' :
  request_frame ty id l = request_frame ty' id' l' -> is_u32 id -> is_u32 id' ->
  ty = ty' /\ id = id' /\ l = l'.
Proof.
  intros E Hi Hi'. unfold request_frame, sftp_frame in E.
  apply app_inj_1 in E as [_ E]; [|by rewrite !length_be_bytes].
  apply app_inj_1 in E as [Et E]; [|done].
  apply app_inj_1 in E as [Ei El]; [|by rewrite !length_be_bytes].
  split_and!; [congruence| |done].
  rewrite <- (be_value_bytes 4 id), Ei by done. by rewrite be_value_bytes.
Qed.

Lemma filled_with_payload {T} (body : OutB T unit) l t :
  filled (with_payload (view_of l) body) t = decode_from (run_out body t) l.
Proof.
  unfold filled, with_payload, decode_from, run_out, view_of. cbn [view_data view_len].
  by destruct (body _) as [[] [s t']].
Qed.

Lemma with_request_exact {T} (zero : T) ty body id_of (R : T -> list Z -> Prop) :
  is_byte ty ->
  (forall id, is_u32 id -> accepts (run_out (body id) zero) (fun t l => id_of t = id /\ R t l)) ->
  RequestCodec (fun pk len => with_request zero ty pk len body) ty id_of R.
Proof.
  intros Hty Hbody. split. intros pk t0 Hpk.
  destruct (request_decode_cases pk Hpk) as [(ty' & id & l & Hf & Hid & ->)|E].
  - assert (Forall is_byte l) as Hl by (destruct Hf as (_ & [_ ?]%Forall_app & _); done).
    destruct (Hbody id Hid l Hl) as [He Hn]. unfold filled, with_request.
    rewrite request_decode_frame by done. cbn [req_type req_id req_payload].
    destruct (Z.eqb_spec ty' ty) as [->|Hne]; cbn [negb].
    + fold (filled (with_payload (view_of l) (body id)) zero). rewrite filled_with_payload.
      split; [|done]. intros t. rewrite He. split.
      * intros [<- ?]. exists l. done.
      * intros (l' & ? & ? & HR & Hpe). by apply request_frame_inj in Hpe as (_ & -> & ->).
    + split; [|done]. intros t. split; [done|]. intros (l' & ? & ? & HR & Hpe).
      by apply request_frame_inj in Hpe as (-> & _ & _).
  - unfold filled, with_request. rewrite E. split; [|done]. intros t. split; [done|].
    intros (l & Hid & Hf & HR & ->). by rewrite request_decode_frame in E.
Qed.

(** *** Readers of the rest *)
Lemma rest_view_Bf w u f cap : rest_view (Some (Bf w u f cap)) = (Ret (view_of u), Some (Bf w u f cap)).
Proof.
  unfold rest_view. rewrite remaining_read_Bf. unfold Bf at 1. by rewrite mem_read_app.
Qed.

Lemma take_rest_Bf w u f cap :
  take_rest (Some (Bf w u f cap)) = (Ret (view_of u), Some (Bf (w ++ u) [] f cap)).
Proof.
  unfold take_rest. rewrite (bind_ret _ _ _ _ _ (rest_view_Bf _ _ _ _)).
  unfold Bf at 1, advance_pos, mbind, prog_bind. cbn [view_of view_len]. unfold mret, prog_ret.
  do 2 f_equal. apply mk_Bf; [by rewrite <- app_assoc|len_lia|by rewrite zlen_app].
Qed.

Definition rest_ok (v : ssh_string_view) : Prop := exists l, v = view_of l /\ Forall is_byte l.

Lemma rest_ok_eta v : rest_ok v -> v = view_of (view_bytes v).
Proof. intros (l & -> & _). by rewrite view_bytes_of. Qed.

Lemma parses_rest_view rest : parses rest_view [] rest (view_of rest).
Proof. intros w f cap. cbn [app]. rewrite app_nil_r. apply rest_view_Bf. Qed.

Lemma parses_take_rest l : parses take_rest l [] (view_of l).
Proof. intros w f cap. rewrite app_nil_r. apply take_rest_Bf. Qed.

Lemma decodes_rest_view :
  decodes rest_view (fun v u1 u2 => u1 = [] /\ v = view_of u2 /\ rest_ok v).
Proof.
  intros w u f cap Hu. exists (Ret (view_of u)), [], u. rewrite app_nil_r.
  split_and!; [done|apply rest_view_Bf|done|done|by exists u].
Qed.

Lemma decodes_take_rest :
  decodes take_rest (fun v u1 u2 => u2 = [] /\ v = view_of u1 /\ rest_ok v).
Proof.
  intros w u f cap Hu. exists (Ret (view_of u)), u, []. rewrite app_nil_r.
  split_and!; [done|apply take_rest_Bf|done|done|by exists u].
Qed.

(** ** Attributes on the wire

    The fields whose flag is set, in order, each at its width; behind them the
    extension pairs when the packet announces any, which the decoder skips. *)
Definition opt_bytes (present : bool) (n : nat) (x : Z) : list Z :=
  if present then be_bytes n x else [].
Definition field_ok (present : bool) (n : nat) (x : Z) : Prop :=
  if present then 0 <= x < 256 ^ Z.of_nat n else x = 0.

Abbreviation extension := (ssh_string_view * ssh_string_view)%type.
Definition extension_ok (e : extension) : Prop := view_ok (fst e) /\ view_ok (snd e).
Definition extension_bytes (e : extension) : list Z :=
  string_bytes (view_bytes (fst e)) ++ string_bytes (view_bytes (snd e)).
Definition extensions_ok (x : option (list extension)) : Prop :=
  match x with None => True | Some l => zlen l <= UINT32_MAX /\ Forall extension_ok l end.
Definition extensions_bytes (x : option (list extension)) : list Z :=
  match x with None => [] | Some l => be_bytes 4 (zlen l) ++ concat (map extension_bytes l) end.
Definition extended_bit (x : option (list extension)) : Z :=
  match x with None => 0 | Some _ => SSH_FILEXFER_ATTR_EXTENDED end.

Definition attrs_ok (a : ssh_fs_attrs) : Prop :=
  let present := has_flag (attr_flags a) in
  0 <= attr_flags a < 16 /\
  field_ok (present SSH_FILEXFER_ATTR_SIZE) 8 (attr_size a) /\
  field_ok (present SSH_FILEXFER_ATTR_UIDGID) 4 (attr_uid a) /\
  field_ok (present SSH_FILEXFER_ATTR_UIDGID) 4 (attr_gid a) /\
  field_ok (present SSH_FILEXFER_ATTR_PERMISSIONS) 4 (attr_permissions a) /\
  field_ok (present SSH_FILEXFER_ATTR_ACMODTIME) 4 (attr_atime a) /\
  field_ok (present SSH_FILEXFER_ATTR_ACMODTIME) 4 (attr_mtime a).

Definition attrs_fields (a : ssh_fs_attrs) : list Z :=
  let present := has_flag (attr_flags a) in
  opt_bytes (present SSH_FILEXFER_ATTR_SIZE) 8 (attr_size a) ++
  opt_bytes (present SSH_FILEXFER_ATTR_UIDGID) 4 (attr_uid a) ++
  opt_bytes (present SSH_FILEXFER_ATTR_UIDGID) 4 (attr_gid a) ++
  opt_bytes (present SSH_FILEXFER_ATTR_PERMISSIONS) 4 (attr_permissions a) ++
  opt_bytes (present SSH_FILEXFER_ATTR_ACMODTIME) 4 (attr_atime a) ++
  opt_bytes (present SSH_FILEXFER_ATTR_ACMODTIME) 4 (attr_mtime a).

Definition attrs_image (a : ssh_fs_attrs) (x : option (list extension)) : list Z :=
  be_bytes 4 (attr_flags a + extended_bit x) ++ attrs_fields a ++ extensions_bytes x.

Definition attrs_body (a : ssh_fs_attrs) (l : list Z) : Prop :=
  exists x, attrs_ok a /\ extensions_ok x /\ l = attrs_image a x.

(** *** The flag word *)
Definition ext_flag (e : bool) : Z := if e then SSH_FILEXFER_ATTR_EXTENDED else 0.
Definition UNSUPPORTED_FLAGS : Z :=
  u32 (Z.lnot (Z.lor SFTP_SUPPORTED_ATTR_FLAGS SSH_FILEXFER_ATTR_EXTENDED)).

Lemma flags_compose f e :
  0 <= f < 16 ->
  let flags := f + ext_flag e in
  is_u32 flags /\ (Z.land flags UNSUPPORTED_FLAGS =? 0) = true /\
  Z.land flags SFTP_SUPPORTED_ATTR_FLAGS = f /\ has_flag flags SSH_FILEXFER_ATTR_EXTENDED = e.
Proof.
  intros Hf. assert (In f (map Z.of_nat (seq 0 16))) as Hin.
  { apply in_map_iff. exists (Z.to_nat f). split; [lia|]. apply in_seq. lia. }
  cbv [map seq Z.of_nat Pos.of_succ_nat Pos.succ] in Hin.
  repeat (destruct Hin as [<-|Hin]; [destruct e; vm_compute; repeat split; done|]). done.
Qed.

Lemma land_pow2_cases x n : 0 <= n -> Z.land x (2 ^ n) = 0 \/ Z.land x (2 ^ n) = 2 ^ n.
Proof.
  intros Hn. destruct (Z.testbit x n) eqn:E; [right|left]; apply Z.bits_inj'; intros i Hi;
    rewrite Z.land_spec, ?Z.bits_0, Z.pow2_bits_eqb by done;
    destruct (Z.eqb_spec n i) as [<-|]; rewrite ?E, ?andb_false_r, ?andb_true_r; done.
Qed.

Lemma land_lor_disjoint x a b :
  Z.land a b = 0 -> Z.land x (Z.lor a b) = Z.land x a + Z.land x b.
Proof.
  intros Hab. rewrite Z.land_lor_distr_r, Z.add_nocarry_lxor, <- Z.lxor_lor; [done|..];
    rewrite <- Z.land_assoc, (Z.land_comm a), <- !Z.land_assoc, (Z.land_comm b), Hab, !Z.land_0_r; done.
Qed.

Lemma flags_decompose flags :
  is_u32 flags -> Z.land flags UNSUPPORTED_FLAGS = 0 ->
  0 <= Z.land flags SFTP_SUPPORTED_ATTR_FLAGS < 16 /\
  flags = Z.land flags SFTP_SUPPORTED_ATTR_FLAGS
          + ext_flag (has_flag flags SSH_FILEXFER_ATTR_EXTENDED).
Proof.
  intros Hu Hz. change SFTP_SUPPORTED_ATTR_FLAGS with (Z.ones 4).
  split; [rewrite Z.land_ones by lia; apply Z.mod_pos_bound; lia|].
  set (e := SSH_FILEXFER_ATTR_EXTENDED).
  assert (ext_flag (has_flag flags e) = Z.land flags e) as ->.
  { unfold has_flag, ext_flag, e. change SSH_FILEXFER_ATTR_EXTENDED with (2 ^ 31).
    by destruct (land_pow2_cases flags 31 ltac:(lia)) as [-> | ->]. }
  assert (flags = Z.land flags (Z.ones 32)) as Hall
    by (rewrite Z.land_ones by lia; symmetry; by apply Z.mod_small).
  change (Z.ones 32) with (Z.lor (Z.lor (Z.ones 4) e) UNSUPPORTED_FLAGS) in Hall.
  rewrite !land_lor_disjoint, Hz in Hall by done. lia.
Qed.

(** *** The extension loop *)
Lemma decodes_pair :
  decodes (ssh_buffer_get_string_view;; ssh_buffer_get_string_view)
    (fun _ u1 _ => exists e, extension_ok e /\ u1 = extension_bytes e).
Proof.
  eapply decodes_bind; [apply decodes_view|]. intros a ? ? _.
  eapply decodes_conseq; [apply decodes_view|]. intros b u1 u2 _ _ [Hb ->] u _ [Ha ->].
  by exists (a, b).
Qed.

Lemma zlen_extension_bytes e : 8 <= zlen (extension_bytes e).
Proof.
  unfold extension_bytes. pose proof (zlen_nonneg (view_bytes e.1)).
  pose proof (zlen_nonneg (view_bytes e.2)). len_lia.
Qed.

Lemma zlen_extensions l : 8 * zlen l <= zlen (concat (map extension_bytes l)).
Proof.
  induction l as [|e l IH]; cbn [map concat]; [done|].
  pose proof (zlen_extension_bytes e). rewrite zlen_app, zlen_cons. lia.
Qed.

Lemma skip_extensions_step fuel i n s :
  i < n -> skip_extensions (S fuel) i n s =
    ((ssh_buffer_get_string_view;; ssh_buffer_get_string_view);;
     skip_extensions fuel (u32 (i + 1)) n) s.
Proof.
  intros Hi. cbn [skip_extensions]. replace (i <? n) with true by lia. by rewrite bind_assoc.
Qed.

Lemma skip_extensions_done fuel i n s : n <= i -> skip_extensions fuel i n s = (Ret tt, s).
Proof. intros Hi. destruct fuel; cbn [skip_extensions]; by replace (i <? n) with false by lia. Qed.

Lemma decodes_skip fuel i n w u f cap :
  Forall is_byte u -> zlen u < 8 * Z.of_nat fuel -> 0 <= i <= n -> n <= UINT32_MAX ->
  exists o u1 u2, u = u1 ++ u2 /\
    skip_extensions fuel i n (Some (Bf w u f cap)) = (o, Some (Bf (w ++ u1) u2 f cap)) /\
    match o with
    | Ret _ => exists l, zlen l = n - i /\ Forall extension_ok l /\
        u1 = concat (map extension_bytes l)
    | Err _ => True
    | Fault => False
    end.
Proof.
  revert i w u. induction fuel as [|fuel IH]; intros i w u Hu Hf Hi Hn.
  { pose proof (zlen_nonneg u). lia. }
  destruct (Z.eq_dec i n) as [->|Hne].
  { exists (Ret tt), [], u. rewrite skip_extensions_done, app_nil_r by lia.
    split_and!; [done..|]. exists []. split_and!; [rewrite zlen_nil; lia|done..]. }
  rewrite skip_extensions_step by lia.
  destruct (decodes_pair w u f cap Hu) as (o & u1 & u2 & -> & E & Ho).
  apply Forall_app in Hu as [_ Hu2]. destruct o as [v|e|]; [..|done].
  - destruct Ho as (e & He & ->). pose proof (zlen_extension_bytes e). rewrite zlen_app in Hf.
    rewrite (bind_ret _ _ _ _ _ E). unfold u32, UINT32_MAX in *. rewrite Z.mod_small by lia.
    destruct (IH (i + 1) (w ++ extension_bytes e) u2) as (o & v1 & v2 & -> & E2 & Ho); [done|lia..|].
    rewrite E2. exists o, (extension_bytes e ++ v1), v2. rewrite <- !app_assoc.
    split_and!; [done..|]. destruct o; [|done..]. destruct Ho as (l & Hl & Hok & ->).
    exists (e :: l). rewrite zlen_cons. split_and!; [lia|by constructor|done].
  - rewrite (bind_err _ _ _ _ _ E). exists (Err e), u1, u2. done.
Qed.

Lemma parses_skip fuel i n l rest :
  Forall extension_ok l -> (length l <= fuel)%nat -> zlen l = n - i -> 0 <= i -> n <= UINT32_MAX ->
  parses (skip_extensions fuel i n) (concat (map extension_bytes l)) rest tt.
Proof.
  revert i fuel. induction l as [|e l IH]; intros i fuel Hok Hf Hl Hi Hn.
  { intros w f cap. rewrite zlen_nil in Hl. cbn [map concat app]. rewrite app_nil_r.
    apply skip_extensions_done. lia. }
  apply Forall_cons_1 in Hok as [[Ha Hb] Hok]. destruct fuel as [|fuel]; [cbn in Hf; lia|].
  rewrite zlen_cons in Hl. pose proof (zlen_nonneg l).
  eapply parses_ext; [intros s; apply skip_extensions_step; lia|].
  cbn [map concat]. eapply (parses_bind _ _ _ _ _ e.2).
  - eapply parses_bind; [by apply parses_view|]. by apply parses_view.
  - unfold u32, UINT32_MAX in *. rewrite Z.mod_small by lia. cbn in Hf.
    apply IH; [done|lia..].
Qed.

Lemma parses_extensions l rest :
  extensions_ok (Some l) -> parses extensions_decode (extensions_bytes (Some l)) rest tt.
Proof.
  intros [Hn Hok]. unfold extensions_decode, extensions_bytes. pose proof (zlen_nonneg l).
  eapply parses_bind; [apply parses_u32; unfold is_u32, UINT32_MAX in *; lia|].
  apply parses_remaining. apply parses_skip; try done; [|lia].
  pose proof (zlen_extensions l) as Hl. pose proof (zlen_nonneg rest).
  assert (zlen l <= zlen (concat (map extension_bytes l) ++ rest) / 8) as Hd
    by (apply Z.div_le_lower_bound; len_lia).
  unfold zlen at 1 in Hd. lia.
Qed.

Lemma decodes_extensions :
  decodes extensions_decode
    (fun _ u1 _ => exists l, extensions_ok (Some l) /\ u1 = extensions_bytes (Some l)).
Proof.
  unfold extensions_decode. eapply decodes_bind; [apply decodes_u32|]. intros n ? ? [Hn _].
  intros w u f cap Hu. rewrite (bind_ret _ _ _ (zlen u) (Some (Bf w u f cap)))
    by (unfold remaining_read; by rewrite remaining_read_Bf).
  unfold is_u32 in Hn. pose proof (zlen_nonneg u).
  pose proof (Z.div_mod (zlen u) 8 ltac:(lia)). pose proof (Z.mod_pos_bound (zlen u) 8 ltac:(lia)).
  destruct (decodes_skip (S (Z.to_nat (zlen u / 8))) 0 n w u f cap) as (o & u1 & u2 & -> & -> & Ho);
    [done|lia|lia|unfold UINT32_MAX; lia|].
  exists o, u1, u2. split_and!; [done..|]. destruct o; [|done..].
  destruct Ho as (l & Hl & Hok & ->). intros u _ [_ ->]. exists l. unfold extensions_ok, extensions_bytes.
  rewrite Z.sub_0_r in Hl. rewrite Hl. split_and!; [unfold UINT32_MAX; lia|done..].
Qed.

(** *** The attribute fields *)
Definition opt_get (flags bit : Z) (g : BufM Z) : BufM Z :=
  if has_flag flags bit then g else mret 0.
Definition opt_do (flags bit : Z) (g : BufM unit) : BufM unit :=
  if has_flag flags bit then g else mret tt.

Lemma run_out_when {T} flags bit g (upd : Z -> T -> T) (k : OutB T unit) t s :
  upd 0 t = t ->
  run_out (when_flag flags bit (x ← lift g; set_out (upd x));; k) t s =
    (x ← opt_get flags bit g; run_out k (upd x t)) s.
Proof.
  intros H0. unfold when_flag, opt_get. destruct (has_flag flags bit).
  - rewrite run_out_assoc, run_out_lift. done.
  - rewrite run_out_skip. rewrite (bind_ret _ _ _ 0 s) by done. by rewrite H0.
Qed.

Lemma run_out_when_do {T} flags bit g (k : OutB T unit) t s :
  run_out (when_flag flags bit (lift g);; k) t s = (opt_do flags bit g;; run_out k t) s.
Proof.
  unfold when_flag, opt_do. destruct (has_flag flags bit); [|done]. apply run_out_lift.
Qed.

Lemma parses_opt_u32 flags bit x rest :
  field_ok (has_flag flags bit) 4 x ->
  parses (opt_get flags bit ssh_buffer_get_u32) (opt_bytes (has_flag flags bit) 4 x) rest x.
Proof.
  unfold opt_get, field_ok, opt_bytes. destruct (has_flag _ _).
  - intros. by apply parses_u32.
  - intros ->. apply parses_ret.
Qed.

Lemma parses_opt_u64 flags bit x rest :
  field_ok (has_flag flags bit) 8 x ->
  parses (opt_get flags bit ssh_buffer_get_u64) (opt_bytes (has_flag flags bit) 8 x) rest x.
Proof.
  unfold opt_get, field_ok, opt_bytes. destruct (has_flag _ _).
  - intros. by apply parses_u64.
  - intros ->. apply parses_ret.
Qed.

Lemma decodes_opt_u32 flags bit :
  decodes (opt_get flags bit ssh_buffer_get_u32) (fun x u1 _ =>
    field_ok (has_flag flags bit) 4 x /\ u1 = opt_bytes (has_flag flags bit) 4 x).
Proof.
  unfold opt_get, field_ok, opt_bytes.
  destruct (has_flag _ _); [apply decodes_u32|by apply decodes_ret].
Qed.

Lemma decodes_opt_u64 flags bit :
  decodes (opt_get flags bit ssh_buffer_get_u64) (fun x u1 _ =>
    field_ok (has_flag flags bit) 8 x /\ u1 = opt_bytes (has_flag flags bit) 8 x).
Proof.
  unfold opt_get, field_ok, opt_bytes.
  destruct (has_flag _ _); [apply decodes_u64|by apply decodes_ret].
Qed.

Lemma parses_opt_extensions flags x rest :
  has_flag flags SSH_FILEXFER_ATTR_EXTENDED = negb (is_null x) -> extensions_ok x ->
  parses (opt_do flags SSH_FILEXFER_ATTR_EXTENDED extensions_decode) (extensions_bytes x) rest tt.
Proof.
  unfold opt_do. intros ->. destruct x; [apply parses_extensions|]. intros _. apply parses_ret.
Qed.

Lemma decodes_opt_extensions flags :
  decodes (opt_do flags SSH_FILEXFER_ATTR_EXTENDED extensions_decode) (fun _ u1 _ => exists x,
    extensions_ok x /\ u1 = extensions_bytes x /\
    extended_bit x = ext_flag (has_flag flags SSH_FILEXFER_ATTR_EXTENDED)).
Proof.
  unfold opt_do. destruct (has_flag _ _).
  - eapply decodes_conseq; [apply decodes_extensions|].
    intros ? u1 u2 _ _ (l & Hl & ->). by exists (Some l).
  - apply decodes_ret. intros. by exists None.
Qed.

Ltac attrs_cbn := cbn [attr_flags attr_size attr_uid attr_gid attr_permissions attr_atime attr_mtime
  zero_attrs].

Ltac when_step ext :=
  let p := lazymatch goal with |- parses ?p _ _ _ => p | |- decodes ?p _ => p end in
  lazymatch p with
  | run_out (mbind (fun _ => ?k) (when_flag ?f ?b (mbind ?u (lift ?g)))) ?t =>
    eapply ext; [intros; apply run_out_when; reflexivity|cbv beta]
  | run_out (mbind (fun _ => ?k) (when_flag ?f ?b (lift ?g))) ?t =>
    eapply ext; [intros; apply run_out_when_do|]
  end.

Lemma parses_attrs a x :
  attrs_ok a -> extensions_ok x ->
  parses (run_out attrs_reads zero_attrs) (attrs_image a x) [] a.
Proof.
  destruct a as [fl sz uid gid pm at_ mt].
  intros (Hf & H1 & H2 & H3 & H4 & H5 & H6) Hx. unfold attrs_image, attrs_fields.
  cbn [attr_flags attr_size attr_uid attr_gid attr_permissions attr_atime attr_mtime] in *.
  destruct (flags_compose fl (negb (is_null x)) Hf) as (Hu & Hz & Hs & He).
  replace (ext_flag (negb (is_null x))) with (extended_bit x) in * by (by destruct x).
  unfold UNSUPPORTED_FLAGS in Hz. unfold attrs_reads, require_end.
  apply parses_nil_r. rewrite <- !app_assoc.
  run_step (@parses_ext) (@parses_err_as). parse_step.
  run_step (@parses_ext) (@parses_err_as). parse_step. cbv zeta. rewrite Hs.
  run_step (@parses_ext) (@parses_err_as).
  do 6 (when_step @parses_ext; attrs_cbn;
        eapply parses_bind; [first [by apply parses_opt_u32 | by apply parses_opt_u64]|]).
  when_step @parses_ext. eapply parses_bind; [by apply parses_opt_extensions|].
  parse_out.
Qed.

Lemma decodes_attrs :
  decodes (run_out attrs_reads zero_attrs) (fun a u1 u2 => attrs_body a (u1 ++ u2)).
Proof.
  unfold attrs_reads, require_end.
  run_step (@decodes_ext) (@decodes_err_as). eapply decodes_bind; [apply decodes_u32|].
  intros flags ? ? [Hu _]. run_step (@decodes_ext) (@decodes_err_as). decode_step. cbv zeta.
  destruct (flags_decompose flags Hu) as [Hs He]; [unfold UNSUPPORTED_FLAGS; lia|].
  set (fl := Z.land flags SFTP_SUPPORTED_ATTR_FLAGS) in *.
  run_step (@decodes_ext) (@decodes_err_as).
  do 6 (when_step @decodes_ext; attrs_cbn;
        eapply decodes_bind; [first [apply decodes_opt_u32 | apply decodes_opt_u64]|intros ? ? ? _]).
  when_step @decodes_ext. eapply decodes_bind; [apply decodes_opt_extensions|intros ? ? ? _].
  decode_out. attrs_cbn.
  match goal with H : ex _ |- _ => destruct H as (ext & Hext & -> & Hbit) end.
  guards. exists ext. unfold attrs_ok, attrs_image, attrs_fields. attrs_cbn.
  split_and!; try done. rewrite Hbit, <- He. by rewrite ?app_nil_r, <- ?app_assoc.
Qed.

Lemma accepts_attrs : accepts (run_out attrs_reads zero_attrs) attrs_body.
Proof.
  apply accepts_intro; [|apply decodes_attrs]. intros a l (x & Ha & Hx & ->).
  exists (attrs_image a x), []. rewrite app_nil_r. split; [done|]. by apply parses_attrs.
Qed.

Lemma filled_attrs l a0 :
  filled (sftp_attrs_decode (view_of l)) a0 = decode_from (run_out attrs_reads zero_attrs) l.
Proof. rewrite <- filled_with_payload. done. Qed.

(** ** The bodies of the requests *)
Definition path_body (r : sftp_path_request) (l : list Z) : Prop :=
  view_ok (path_path r) /\ l = string_bytes (view_bytes (path_path r)).
Definition handle_body (r : sftp_handle_request) (l : list Z) : Prop :=
  view_ok (handle_handle r) /\ l = string_bytes (view_bytes (handle_handle r)).
Definition open_body (r : sftp_open_request) (l : list Z) : Prop :=
  view_ok (open_filename r) /\ is_u32 (open_pflags r) /\
  rest_ok (open_attrs r) /\ 4 <= zlen (view_bytes (open_attrs r)) /\
  l = string_bytes (view_bytes (open_filename r)) ++ be_bytes 4 (open_pflags r) ++
      view_bytes (open_attrs r).
Definition read_body (r : sftp_read_request) (l : list Z) : Prop :=
  view_ok (read_handle r) /\ is_u64 (read_offset r) /\ is_u32 (read_len r) /\
  l = string_bytes (view_bytes (read_handle r)) ++ be_bytes 8 (read_offset r) ++
      be_bytes 4 (read_len r).
Definition write_body (r : sftp_write_request) (l : list Z) : Prop :=
  view_ok (write_handle r) /\ is_u64 (write_offset r) /\ view_ok (write_data r) /\
  l = string_bytes (view_bytes (write_handle r)) ++ be_bytes 8 (write_offset r) ++
      string_bytes (view_bytes (write_data r)).
Definition rename_body (r : sftp_rename_request) (l : list Z) : Prop :=
  view_ok (rename_old_path r) /\ view_ok (rename_new_path r) /\
  l = string_bytes (view_bytes (rename_old_path r)) ++
      string_bytes (view_bytes (rename_new_path r)).
Definition mkdir_body (r : sftp_mkdir_request) (l : list Z) : Prop :=
  view_ok (mkdir_path r) /\ rest_ok (mkdir_attrs r) /\
  4 <= zlen (view_bytes (mkdir_attrs r)) /\
  l = string_bytes (view_bytes (mkdir_path r)) ++ view_bytes (mkdir_attrs r).
Definition setstat_body (r : sftp_setstat_request) (l : list Z) : Prop :=
  view_ok (setstat_path r) /\ exists la, attrs_body (setstat_attrs r) la /\
  l = string_bytes (view_bytes (setstat_path r)) ++ la.
Definition fsetstat_body (r : sftp_fsetstat_request) (l : list Z) : Prop :=
  view_ok (fsetstat_handle r) /\ exists la, attrs_body (fsetstat_attrs r) la /\
  l = string_bytes (view_bytes (fsetstat_handle r)) ++ la.
Definition extended_body (r : sftp_extended_request) (l : list Z) : Prop :=
  view_ok (extended_name r) /\ rest_ok (extended_payload r) /\
  l = string_bytes (view_bytes (extended_name r)) ++ view_bytes (extended_payload r).

Ltac sftp_cbn := cbn [path_id path_path open_id open_filename open_pflags open_attrs
  handle_id handle_handle read_id read_handle read_offset read_len
  write_id write_handle write_offset write_data rename_id rename_old_path rename_new_path
  mkdir_id mkdir_path mkdir_attrs setstat_id setstat_path setstat_attrs
  fsetstat_id fsetstat_handle fsetstat_attrs extended_id extended_name extended_payload] in *.

(** A body that is read to its end. *)
Ltac whole_body :=
  intros ? ?; apply accepts_intro;
  [ intros [] ?; sftp_cbn; intros; destruct_and!; subst; eexists _, []; rewrite app_nil_r;
    split; [reflexivity|]; unfold require_end; apply parses_nil_r; rewrite <- ?app_assoc;
    parse_out
  | unfold require_end; decode_out; guards; sftp_cbn; rewrite ?app_nil_r, <- ?app_assoc;
    split_and!; try done ].

#[export] Instance path_codec ty :
  is_byte ty -> RequestCodec (fun pk len => decode_path_request pk len ty) ty path_id path_body.
Proof.
  intros Hty. apply with_request_exact; [done|]. unfold path_body. whole_body.
Qed.

#[export] Instance handle_codec ty :
  is_byte ty -> RequestCodec (fun pk len => handle_request_decode pk len ty) ty handle_id handle_body.
Proof.
  intros Hty. apply with_request_exact; [done|]. unfold handle_body. whole_body.
Qed.

#[export] Instance read_codec :
  RequestCodec sftp_read_request_decode SSH_FXP_READ read_id read_body.
Proof. apply with_request_exact; [done|]. unfold read_body. whole_body. Qed.

#[export] Instance write_codec :
  RequestCodec sftp_write_request_decode SSH_FXP_WRITE write_id write_body.
Proof. apply with_request_exact; [done|]. unfold write_body. whole_body. Qed.

#[export] Instance rename_codec :
  RequestCodec sftp_rename_request_decode SSH_FXP_RENAME rename_id rename_body.
Proof. apply with_request_exact; [done|]. unfold rename_body. whole_body. Qed.

(** Bodies that end in a view of all that is left. *)
Lemma parses_take {A} (k : ssh_string_view -> BufM A) v y :
  rest_ok v -> parses (k v) [] [] y -> parses (v ← take_rest; k v) (view_bytes v) [] y.
Proof.
  intros Hv Hk. apply parses_nil_r. eapply parses_bind; [|exact Hk].
  rewrite (rest_ok_eta v Hv) at 2. apply parses_take_rest.
Qed.

Lemma parses_peek {A} (k : ssh_string_view -> BufM A) v y :
  rest_ok v -> parses (k v) [] (view_bytes v) y ->
  parses (v ← rest_view; k v) [] (view_bytes v) y.
Proof.
  intros Hv Hk. apply (parses_bind _ _ [] [] _ v); [|exact Hk].
  rewrite (rest_ok_eta v Hv) at 2. apply parses_rest_view.
Qed.

Ltac rest_decode :=
  lazymatch goal with
  | |- decodes (mbind _ take_rest) _ => eapply decodes_bind; [apply decodes_take_rest|intros ? ? ? _]
  | |- decodes (mbind _ rest_view) _ => eapply decodes_bind; [apply decodes_rest_view|intros ? ? ? _]
  end.
Ltac decode_rest := decode_out; rest_decode; decode_out.

#[export] Instance open_codec :
  RequestCodec sftp_open_request_decode SSH_FXP_OPEN open_id open_body.
Proof.
  apply with_request_exact; [done|]. unfold open_body. intros id Hid. apply accepts_intro.
  - intros [i fn pf at_] l; sftp_cbn. intros (-> & Hf & Hp & Hr & H4 & ->). eexists _, [].
    rewrite app_nil_r. split; [reflexivity|]. parse_out.
    + rewrite app_nil_r. lia.
    + parse_out. apply parses_take; [done|]. parse_out.
  - decode_rest. guards. sftp_cbn. rewrite view_bytes_of, !app_nil_r, <- ?app_assoc in *.
    cbn [app] in *. split_and!; try done. lia.
Qed.

#[export] Instance mkdir_codec :
  RequestCodec sftp_mkdir_request_decode SSH_FXP_MKDIR mkdir_id mkdir_body.
Proof.
  apply with_request_exact; [done|]. unfold mkdir_body. intros id Hid. apply accepts_intro.
  - intros [i p at_] l; sftp_cbn. intros (-> & Hp & Hr & H4 & ->). eexists _, [].
    rewrite app_nil_r. split; [reflexivity|]. parse_out.
    + rewrite app_nil_r. lia.
    + parse_out. apply parses_take; [done|]. parse_out.
  - decode_rest. guards. sftp_cbn. rewrite view_bytes_of, !app_nil_r, <- ?app_assoc in *.
    cbn [app] in *. split_and!; try done. lia.
Qed.

#[export] Instance extended_codec :
  RequestCodec sftp_extended_request_decode SSH_FXP_EXTENDED extended_id extended_body.
Proof.
  apply with_request_exact; [done|]. unfold extended_body. intros id Hid. apply accepts_intro.
  - intros [i n p] l; sftp_cbn. intros (-> & Hn & Hp & ->). eexists _, _. split; [reflexivity|].
    apply parses_nil_r. parse_out. apply parses_peek; [done|]. parse_out.
  - decode_rest. guards. sftp_cbn. rewrite view_bytes_of, <- ?app_assoc in *.
    cbn [app] in *. by split_and!.
Qed.

(** The attributes at the end of a request. *)
Lemma run_out_on_field {T F} (get : T -> F) (set : F -> T -> T) p (t : T) s :
  run_out (on_field get set p) t s =
    match filled p (get t) with
    | Ret f => (Ret (set f t), s)
    | Err e => (Err e, s)
    | Fault => (Fault, s)
    end.
Proof. unfold run_out, on_field, filled. by destruct (p (get t)) as [[] ?]. Qed.

Lemma parses_attrs_field {T} (get : T -> ssh_fs_attrs) set (t : T) a l y :
  Forall is_byte l -> attrs_body a l -> set a t = y ->
  parses (run_out (on_field get set (sftp_attrs_decode (view_of l))) t) [] l y.
Proof.
  intros Hl Ha <- w f cap. rewrite run_out_on_field, filled_attrs.
  apply (accepts_attrs l Hl) in Ha. rewrite Ha. by rewrite app_nil_r.
Qed.

Lemma decodes_attrs_field {T} (get : T -> ssh_fs_attrs) set (t : T) v :
  rest_ok v ->
  decodes (run_out (on_field get set (sftp_attrs_decode v)) t)
    (fun t' u1 _ => u1 = [] /\ exists a, attrs_body a (view_bytes v) /\ t' = set a t).
Proof.
  intros (l & -> & Hl) w u f cap _. rewrite view_bytes_of, run_out_on_field, filled_attrs.
  destruct (accepts_attrs l Hl) as [He Hn].
  destruct (decode_from _ l) as [a|e|] eqn:E; [exists (Ret (set a t))|exists (Err e)|done].
  all: exists [], u; rewrite app_nil_r; split_and!; try done. exists a. split; [by apply He|done].
Qed.

(** [attrs_body] images are bytes. *)
Lemma opt_bytes_byte b n x : Forall is_byte (opt_bytes b n x).
Proof. destruct b; cbn; auto with emssh. Qed.
#[export] Hint Resolve opt_bytes_byte : emssh.

Lemma attrs_body_byte a l : attrs_body a l -> Forall is_byte l.
Proof.
  intros (x & _ & Hx & ->). unfold attrs_image, attrs_fields. rewrite !Forall_app.
  split_and!; auto with emssh. destruct x as [l|]; [|done]. destruct Hx as [_ Hl].
  unfold extensions_bytes. apply Forall_app. split; [auto with emssh|]. apply Forall_concat, Forall_map.
  eapply Forall_impl; [|exact Hl]. intros e [? ?]. unfold extension_bytes.
  apply Forall_app. auto with emssh.
Qed.

Ltac attrs_request :=
  intros id Hid; apply accepts_intro;
  [ intros [i p a] l; sftp_cbn; intros (-> & Hp & la & Ha & ->); eexists _, _;
    split; [reflexivity|]; pose proof (attrs_body_byte _ _ Ha);
    apply parses_nil_r; parse_out;
    apply (parses_bind _ _ [] [] _ (view_of la)); [apply parses_rest_view|];
    by eapply parses_attrs_field
  | decode_out; eapply decodes_bind; [apply decodes_rest_view|]; intros v ? ? (_ & _ & Hv);
    eapply decodes_conseq; [by apply decodes_attrs_field|];
    intros t u1 u2 _ _ (-> & a & Ha & ->) ? _ (-> & -> & _) ? _ [? ->]; sftp_cbn;
    rewrite view_bytes_of in Ha; split_and!; try done; exists u2;
    by rewrite !app_nil_r ].

#[export] Instance setstat_codec :
  RequestCodec sftp_setstat_request_decode SSH_FXP_SETSTAT setstat_id setstat_body.
Proof. apply with_request_exact; [done|]. unfold setstat_body. attrs_request. Qed.

#[export] Instance fsetstat_codec :
  RequestCodec sftp_fsetstat_request_decode SSH_FXP_FSETSTAT fsetstat_id fsetstat_body.
Proof. apply with_request_exact; [done|]. unfold fsetstat_body. attrs_request. Qed.

(** ** Lemmas: responses *)
Lemma encode_packet_fits p ty body cap mem :
  emits p ([ty] ++ body) -> 1 + zlen body <= UINT32_MAX -> 5 + zlen body <= cap <= zlen mem ->
  encode_packet cap p (Some mem) =
    (Ret (5 + zlen body), Some (sftp_frame ty body ++ zdrop (5 + zlen body) mem)).
Proof.
  intros Hp Hu Hc. pose proof (zlen_nonneg body).
  destruct (zsplit mem 4) as (h & r & -> & Hh); [lia|]. rewrite zlen_app in Hc.
  unfold encode_packet, packet_payload_init. replace (cap <? 4) with false by lia.
  assert (zdrop 4 (h ++ r) = r) as -> by (rewrite <- Hh; apply zdrop_app).
  assert (ztake 4 (h ++ r) = h) as -> by (rewrite <- Hh; apply ztake_app).
  unfold ssh_buffer_init, uninit_buffer.
  change (mk_ssh_buffer (Some r) (cap - 4) 0 0) with (Bf [] [] r (cap - 4)).
  rewrite (emits_fits _ _ Hp) by (unfold room_ok; len_lia).
  replace (zlen ([ty] ++ body)) with (1 + zlen body) by len_lia.
  unfold packet_finish, Bf. cbn [ssh_buffer_data buf_data ssh_buffer_len buf_len]. rewrite app_nil_l.
  replace (zlen [] + zlen ([] ++ [ty] ++ body)) with (1 + zlen body) by len_lia.
  replace (1 + zlen body >? UINT32_MAX) with false by lia. unfold u32, UINT32_MAX in *.
  rewrite (Z.mod_small (1 + _)) by lia. rewrite write_u32_be_bytes.
  pose proof (mem_write_app [] h (be_bytes 4 (1 + zlen body))) as Hw. cbn [app] in Hw.
  rewrite zlen_nil in Hw. rewrite app_nil_l.
  cbn [app]. rewrite Hw by (rewrite zlen_be_bytes; lia). unfold u64, sftp_frame.
  rewrite (Z.mod_small (_ + 4)) by lia. f_equal; [f_equal; lia|].
  replace (5 + zlen body) with (zlen h + (1 + zlen body)) by lia.
  rewrite zdrop_app_add by lia. by rewrite <- !app_assoc.
Qed.

(** When the frame does not fit, an error comes back and no byte at or past the
    capacity is touched. *)
Definition refused_within (cap : Z) (mem : list Z) (r : outcome Z * option (list Z)) : Prop :=
  exists e mem', r = (Err e, Some mem') /\
    (e = SSH_ERR_BUFFER_TOO_SMALL \/ e = SSH_ERR_BUFFER_OVERFLOW) /\
    zlen mem' = zlen mem /\ zdrop cap mem' = zdrop cap mem.

Lemma encode_packet_refused p bs cap mem :
  emits p bs -> 0 <= cap <= zlen mem -> cap < 4 + zlen bs ->
  refused_within cap mem (encode_packet cap p (Some mem)).
Proof.
  intros Hp Hc Hl. unfold encode_packet, packet_payload_init.
  destruct (Z.ltb_spec cap 4) as [H4|H4].
  { exists SSH_ERR_BUFFER_TOO_SMALL, mem. auto. }
  destruct (zsplit mem 4) as (h & r & -> & Hh); [lia|]. rewrite zlen_app in Hc.
  assert (zdrop 4 (h ++ r) = r) as -> by (rewrite <- Hh; apply zdrop_app).
  assert (ztake 4 (h ++ r) = h) as -> by (rewrite <- Hh; apply ztake_app).
  unfold ssh_buffer_init, uninit_buffer.
  change (mk_ssh_buffer (Some r) (cap - 4) 0 0) with (Bf [] [] r (cap - 4)).
  destruct (emits_overflow _ _ Hp [] [] r (cap - 4)) as (k & _ & Hk & ->);
    [unfold room_ok; len_lia|len_lia|].
  rewrite (zlen_nil (A:=Z)) in Hk. unfold Bf. cbn [ssh_buffer_data buf_data app].
  pose proof (zlen_nonneg k).
  exists SSH_ERR_BUFFER_OVERFLOW, (h ++ k ++ zdrop (zlen k) r). split_and!; [done|by right|..].
  - rewrite !zlen_app, zlen_zdrop by lia. lia.
  - replace cap with (zlen h + (zlen k + (cap - 4 - zlen k))) by lia.
    rewrite !zdrop_app_add, zdrop_zdrop by lia. done.
Qed.

(** *** Attributes written and read back *)
Definition normalise_attrs (a : ssh_fs_attrs) : ssh_fs_attrs :=
  let flags := Z.land (attr_flags a) SFTP_SUPPORTED_ATTR_FLAGS in
  let keep bit x := if has_flag flags bit then x else 0 in
  mk_attrs flags
    (keep SSH_FILEXFER_ATTR_SIZE (attr_size a))
    (keep SSH_FILEXFER_ATTR_UIDGID (attr_uid a))
    (keep SSH_FILEXFER_ATTR_UIDGID (attr_gid a))
    (keep SSH_FILEXFER_ATTR_PERMISSIONS (attr_permissions a))
    (keep SSH_FILEXFER_ATTR_ACMODTIME (attr_atime a))
    (keep SSH_FILEXFER_ATTR_ACMODTIME (attr_mtime a)).

(** The C types of the fields. *)
Definition attrs_typed (a : ssh_fs_attrs) : Prop :=
  is_u32 (attr_flags a) /\ is_u64 (attr_size a) /\ is_u32 (attr_uid a) /\ is_u32 (attr_gid a) /\
  is_u32 (attr_permissions a) /\ is_u32 (attr_atime a) /\ is_u32 (attr_mtime a).

Lemma normalise_ok a : attrs_typed a -> attrs_ok (normalise_attrs a).
Proof.
  intros (H0 & H1 & H2 & H3 & H4 & H5 & H6). unfold attrs_ok, normalise_attrs.
  cbn [attr_flags attr_size attr_uid attr_gid attr_permissions attr_atime attr_mtime].
  split; [change SFTP_SUPPORTED_ATTR_FLAGS with (Z.ones 4); rewrite Z.land_ones by lia;
          apply Z.mod_pos_bound; lia|].
  unfold field_ok. split_and!; by destruct (has_flag _ _).
Qed.

Lemma emits_when flags bit p bs :
  emits p bs -> emits (when_flag flags bit p) (if has_flag flags bit then bs else []).
Proof. intros Hp. unfold when_flag. destruct (has_flag flags bit); [done|apply emits_nil]. Qed.

Lemma emits_attrs a : emits (put_attrs (Some a)) (attrs_image (normalise_attrs a) None).
Proof.
  unfold put_attrs. apply emits_buffer. cbv zeta.
  eapply emits_eq.
  - apply emits_bind; [apply emits_u32|].
    apply emits_bind; [apply emits_when, emits_u64|].
    do 4 (apply emits_bind; [apply emits_when, emits_u32|]).
    apply emits_when, emits_u32.
  - unfold attrs_image, attrs_fields, normalise_attrs, opt_bytes. cbn [extended_bit extensions_bytes].
    cbn [attr_flags attr_size attr_uid attr_gid attr_permissions attr_atime attr_mtime].
    rewrite Z.add_0_r, app_nil_r. by repeat destruct (has_flag _ _).
Qed.

(** *** Failing decoders and the id field

    [late_id h p]: a program that fails leaves the part [h] of the structure as
    it was. *)
Definition late_id {T B} (h : T -> B) (p : OutB T unit) : Prop :=
  forall s t e s' t', p (s, t) = (Err e, (s', t')) -> h t' = h t.

Lemma late_id_set {T B} (h : T -> B) f : late_id h (set_out f).
Proof. intros s t e s' t' E. done. Qed.

Lemma late_id_bind {T B A} (h : T -> B) (p : OutB T A) (k : A -> OutB T unit) :
  keeps h p -> (forall x, late_id h (k x)) -> late_id h (x ← p; k x).
Proof.
  intros Hp Hk s t e s' t' E. specialize (Hp s t). unfold mbind, prog_bind in E.
  destruct (p (s, t)) as [[a|e1|] [s1 t1]] eqn:E1; cbn in *; [|by simplify_eq|done].
  rewrite <- Hp. by eapply Hk.
Qed.

Ltac late_tac :=
  unfold require_end;
  repeat first [apply late_id_set | apply late_id_bind; [solve [keeps_tac]|intros ?]].

Lemma with_request_late {T} (zero : T) ty pk len body (h : T -> Z) t0 e t :
  (forall id, late_id h (body id)) ->
  with_request zero ty pk len body t0 = (Err e, t) -> h t = h zero.
Proof.
  intros Hb. unfold with_request, with_payload.
  destruct (sftp_request_decode pk len) as [g|e1|]; [|by intros; simplify_eq|done].
  destruct (negb _); [by intros; simplify_eq|].
  destruct (body _ _) as [o [s t']] eqn:E. intros [= -> ->]. by eapply Hb.
Qed.

Lemma with_request_early {T} (zero : T) ty id l len body (h : T -> Z) t0 r t :
  frame_ok ty (be_bytes 4 id ++ l) -> is_u32 id -> len = zlen (request_frame ty id l) ->
  (forall s, h (snd (snd (body id (s, zero)))) = id) ->
  with_request zero ty (Some (request_frame ty id l)) len body t0 = (r, t) -> h t = id.
Proof.
  intros Hf Hid -> Hb. unfold with_request, with_payload. rewrite request_decode_frame by done.
  cbn [req_type req_id req_payload]. rewrite Z.eqb_refl. cbn [negb].
  set (s := ssh_buffer_wrap _ _ _). specialize (Hb s).
  destruct (body id (s, zero)) as [o [s' t']]. by intros [= _ <-].
Qed.

Lemma keeps_on_field {T F A B} (h : T -> B) get set (p : Prog F A) :
  (forall f t, h (set f t) = h t) -> keeps h (on_field get set p).
Proof. intros Hs s t. unfold on_field. destruct (p (get t)). apply Hs. Qed.

(** A decoder that stores the id first has stored it whenever it fails. *)
Ltac early_tac :=
  intros s;
  match goal with |- ?h (snd (snd ((set_out ?f;; ?k) _))) = _ =>
    let Hk := fresh in
    assert (keeps h k) as Hk by
      (repeat first [apply keeps_on_field; done | apply keeps_lift | apply keeps_set; done
                    | apply keeps_bind; [|intros ?]]);
    apply Hk end.

(** The outcome of a decoder that refuses in one way only. *)
Definition ret_or_malformed {A} (o : outcome A) : Prop :=
  match o with Ret _ => True | Err e => e = SSH_ERR_MALFORMED_PACKET | Fault => False end.

Lemma init_decode_cases pk :
  Forall is_byte pk ->
  (exists version data, frame_ok SSH_FXP_INIT (be_bytes 4 version ++ data) /\ is_u32 version /\
     pk = request_frame SSH_FXP_INIT version data /\
     sftp_init_decode (Some pk) (zlen pk) = Ret (mk_sftp_init version (view_of data))) \/
  (sftp_init_decode (Some pk) (zlen pk) = Err SSH_ERR_MALFORMED_PACKET /\
   forall version data, frame_ok SSH_FXP_INIT (be_bytes 4 version ++ data) ->
     pk <> request_frame SSH_FXP_INIT version data).
Proof.
  intros Hb. unfold sftp_init_decode. destruct (packet_wrap_cases pk Hb) as [(ty & body & Hf & ->)|E].
  - rewrite packet_wrap_frame by done. cbn [mbind outcome_bind pkt_type pkt_payload].
    destruct (Z.eqb_spec ty SSH_FXP_INIT) as [->|Hne]; cbn [negb orb].
    + destruct (Z.ltb_spec (view_len (view_of body)) 4) as [Hl|Hl]; cbn in Hl.
      * right. split; [done|]. intros v d Hfd Hpe. unfold request_frame, sftp_frame in Hpe.
        apply app_inj_1 in Hpe as [_ Hpe]; [|by rewrite !length_be_bytes].
        apply app_inj_1 in Hpe as [_ ->]; [|done]. pose proof (zlen_nonneg d).
        rewrite zlen_app, zlen_be_bytes in Hl. lia.
      * destruct (u32_front body) as (v & d & -> & Hv & Hd); [by destruct Hf as (_ & ? & _)|done|].
        left. exists v, d. by rewrite split_u32_of.
    + right. split; [done|]. intros v d Hfd Hpe. unfold request_frame, sftp_frame in Hpe.
      apply app_inj_1 in Hpe as [_ Hpe]; [|by rewrite !length_be_bytes].
      apply app_inj_1 in Hpe as [[= ?] _]; done.
  - rewrite E. right. split; [done|]. intros v d Hfd ->. unfold request_frame in E.
    by rewrite packet_wrap_frame in E.
Qed.

(** *** What an encoder does with its output memory *)
Definition writes_frame (enc : Z -> OutM Z) (ty : Z) (body : list Z) : Prop :=
  Forall is_byte (ty :: body) /\
  forall cap mem, 0 <= cap <= zlen mem ->
    (5 + zlen body <= cap -> enc cap (Some mem) =
       (Ret (5 + zlen body), Some (sftp_frame ty body ++ zdrop (5 + zlen body) mem))) /\
    (cap < 5 + zlen body -> refused_within cap mem (enc cap (Some mem))).

Lemma encode_packet_frame p ty body :
  emits p ([ty] ++ body) -> 1 + zlen body <= UINT32_MAX ->
  writes_frame (fun cap => require_out false;; encode_packet cap p) ty body.
Proof.
  intros Hp Hu. split; [apply Hp|]. intros cap mem Hc. cbv beta.
  rewrite (bind_ret _ _ _ tt (Some mem)) by done. split; intros Hl.
  - apply encode_packet_fits; [done..|lia].
  - eapply encode_packet_refused; [done|done|len_lia].
Qed.

Definition status_body (id code : Z) (message language : list Z) : list Z :=
  be_bytes 4 id ++ be_bytes 4 code ++ string_bytes message ++ string_bytes language.
Definition string_body (id : Z) (data : list Z) : list Z := be_bytes 4 id ++ string_bytes data.
Definition attrs_response (id : Z) (a : ssh_fs_attrs) : list Z :=
  be_bytes 4 id ++ attrs_image (normalise_attrs a) None.
Definition name_body (id : Z) (filename longname : list Z) (a : ssh_fs_attrs) : list Z :=
  be_bytes 4 id ++ be_bytes 4 1 ++ string_bytes filename ++ string_bytes longname ++
  attrs_image (normalise_attrs a) None.

Lemma version_writes_frame version :
  writes_frame (fun cap => sftp_version_encode cap version) SSH_FXP_VERSION (be_bytes 4 version).
Proof.
  split; [constructor; [done|apply be_bytes_byte]|].
  intros cap mem Hc. rewrite zlen_be_bytes. unfold sftp_version_encode.
  rewrite (bind_ret _ _ _ tt (Some mem)) by done. split; intros Hl.
  - rewrite (bind_ret _ _ _ tt (Some mem)) by (apply reject_false; lia).
    rewrite (bind_ret _ _ _ (Some mem) (Some mem)) by done. cbn [default].
    assert (write_u32_be 5 ++ [SSH_FXP_VERSION] ++ write_u32_be version =
            sftp_frame SSH_FXP_VERSION (be_bytes 4 version)) as ->
      by (unfold sftp_frame; rewrite !write_u32_be_bytes, zlen_be_bytes; done).
    destruct (zsplit mem 9) as (x & r & -> & Hx); [lia|].
    pose proof (mem_write_app [] x (sftp_frame SSH_FXP_VERSION (be_bytes 4 version)) r) as Hw.
    cbn [app] in Hw. rewrite zlen_nil in Hw. 
    assert (zdrop (5 + Z.of_nat 4) (x ++ r) = r) as ->
      by (change (5 + Z.of_nat 4) with 9; rewrite <- Hx; apply zdrop_app).
    cbn [from_option id]. rewrite Hw by (rewrite zlen_sftp_frame, zlen_be_bytes; lia). done.
  - rewrite (bind_err _ _ _ SSH_ERR_BUFFER_TOO_SMALL (Some mem)) by (apply reject_true; lia).
    exists SSH_ERR_BUFFER_TOO_SMALL, mem. auto.
Qed.

(** A C string that a response may hold. *)
Definition text_ok (l : list Z) : Prop := Forall is_byte l /\ zlen l <= 2 ^ 30.

Lemma attrs_image_small a : zlen (attrs_image a None) <= 36.
Proof.
  unfold attrs_image, attrs_fields, opt_bytes. cbn [extensions_bytes]. repeat case_match; len_lia.
Qed.

Lemma emits_text l : text_ok l -> emits (ssh_buffer_put_cstring (Some l)) (string_bytes l).
Proof. intros [? ?]. apply emits_cstring; [done|]. unfold UINT32_MAX. lia. Qed.

Ltac encoder_frame :=
  apply encode_packet_frame;
  [ repeat (apply emits_bind; [first [by apply emits_u8 | apply emits_u32 | by apply emits_text]|]);
    first [ apply emits_attrs | by apply emits_text ]
  | unfold status_body, string_body, attrs_response, name_body, text_ok, UINT32_MAX in *;
    repeat match goal with |- context [attrs_image ?a None] =>
      pose proof (attrs_image_small a); generalize dependent (attrs_image a None); intros end;
    len_lia ].

Lemma status_writes_frame id code message language :
  text_ok message -> text_ok language ->
  writes_frame (fun cap => sftp_status_encode cap id code (Some message) (Some language))
    SSH_FXP_STATUS (status_body id code message language).
Proof. intros ? ?. encoder_frame. Qed.

Lemma handle_writes_frame id data :
  text_ok data ->
  writes_frame (fun cap => sftp_handle_encode cap id (Some data) (zlen data))
    SSH_FXP_HANDLE (string_body id data).
Proof. intros ?. encoder_frame. Qed.

Lemma data_writes_frame id data :
  text_ok data ->
  writes_frame (fun cap => sftp_data_encode cap id (Some data) (zlen data))
    SSH_FXP_DATA (string_body id data).
Proof. intros ?. encoder_frame. Qed.

Lemma attrs_writes_frame id a :
  writes_frame (fun cap => sftp_attrs_encode cap id (Some a)) SSH_FXP_ATTRS (attrs_response id a).
Proof. encoder_frame. Qed.

Lemma name_writes_frame id filename longname a :
  text_ok filename -> match longname with Some l => text_ok l | None => True end ->
  writes_frame (fun cap => sftp_name_one_attrs_encode cap id (Some filename) longname (Some a))
    SSH_FXP_NAME (name_body id filename (default filename longname) a).
Proof.
  intros ? Hl. destruct longname as [l|];
    [change (default filename (Some l)) with l|change (default filename None) with filename];
    encoder_frame.
Qed.

(** ** Properties *)

(** A packet is accepted as a frame exactly when its length field counts
    the rest of it and at least the type byte follows; the type and the payload
    returned are the ones in the packet.  The request header and the init
    message are the frames that go on with a 32-bit integer.  Everything else
    is refused as malformed, without a read outside the packet. *)
Theorem sftp_framing_exact pk :
  Forall is_byte pk ->
  (forall p, sftp_packet_wrap (Some pk) (zlen pk) = Ret p <->
     exists ty body, frame_ok ty body /\ pk = sftp_frame ty body /\
       p = mk_sftp_packet ty (view_of body)) /\
  (forall r, sftp_request_decode (Some pk) (zlen pk) = Ret r <->
     exists ty id body, frame_ok ty (be_bytes 4 id ++ body) /\ is_u32 id /\
       pk = request_frame ty id body /\ r = mk_sftp_request ty id (view_of body)) /\
  (forall i, sftp_init_decode (Some pk) (zlen pk) = Ret i <->
     exists version data, frame_ok SSH_FXP_INIT (be_bytes 4 version ++ data) /\ is_u32 version /\
       pk = request_frame SSH_FXP_INIT version data /\ i = mk_sftp_init version (view_of data)) /\
  ret_or_malformed (sftp_packet_wrap (Some pk) (zlen pk)) /\
  ret_or_malformed (sftp_request_decode (Some pk) (zlen pk)) /\
  ret_or_malformed (sftp_init_decode (Some pk) (zlen pk)).
Proof.
  intros Hb. split_and!.
  - intros p. split; [by apply packet_wrap_inv|]. intros (ty & body & Hf & -> & ->).
    by apply packet_wrap_frame.
  - intros r. split.
    + intros E. destruct (request_decode_cases pk Hb) as [(ty & id & l & Hf & Hid & ->)|E']; [|congruence].
      rewrite request_decode_frame in E by done. exists ty, id, l. split_and!; congruence || done.
    + intros (ty & id & l & Hf & Hid & -> & ->). by apply request_decode_frame.
  - intros i. destruct (init_decode_cases pk Hb) as [(v & d & Hf & Hv & -> & ->)|[-> Hn]].
    + split; [intros [= <-]; by exists v, d|]. intros (v' & d' & ? & ? & Hpe & ->).
      by apply request_frame_inj in Hpe as (_ & -> & ->).
    + split; [done|]. intros (v & d & Hf & _ & Hpe & _). by destruct (Hn v d Hf).
  - destruct (packet_wrap_cases pk Hb) as [(ty & body & Hf & ->)| ->];
      [by rewrite packet_wrap_frame|done].
  - destruct (request_decode_cases pk Hb) as [(ty & id & l & Hf & Hid & ->)| ->];
      [by rewrite request_decode_frame|done].
  - by destruct (init_decode_cases pk Hb) as [(v & d & Hf & Hv & -> & ->)|[-> Hn]].
Qed.

Lemma sftp_framing_exact_witness :
  sftp_init_decode (Some [0; 0; 0; 5; 1; 0; 0; 0; 3]) 9 = Ret (mk_sftp_init 3 (view_of [])).
Proof.
  apply (sftp_framing_exact [0; 0; 0; 5; 1; 0; 0; 0; 3]).
  - by apply (bool_decide_unpack _); vm_compute.
  - exists 3, []. split_and!; [split_and!; [done| |done]|done|by vm_compute|done].
    by apply (bool_decide_unpack _); vm_compute.
Defined.

(** C38: each request decoder of the server accepts exactly the well-formed
    requests of its type: the structure it fills determines the packet (up to
    the attribute extensions it skips), nothing may follow where the message
    has an end, open and mkdir need at least the four bytes of an attribute
    flag word, and no decoder reads outside the packet. *)
Theorem sftp_requests_exact :
  RequestCodec sftp_open_request_decode SSH_FXP_OPEN open_id open_body /\
  RequestCodec sftp_close_request_decode SSH_FXP_CLOSE handle_id handle_body /\
  RequestCodec sftp_read_request_decode SSH_FXP_READ read_id read_body /\
  RequestCodec sftp_write_request_decode SSH_FXP_WRITE write_id write_body /\
  RequestCodec sftp_lstat_request_decode SSH_FXP_LSTAT path_id path_body /\
  RequestCodec sftp_fstat_request_decode SSH_FXP_FSTAT handle_id handle_body /\
  RequestCodec sftp_setstat_request_decode SSH_FXP_SETSTAT setstat_id setstat_body /\
  RequestCodec sftp_fsetstat_request_decode SSH_FXP_FSETSTAT fsetstat_id fsetstat_body /\
  RequestCodec sftp_opendir_request_decode SSH_FXP_OPENDIR path_id path_body /\
  RequestCodec sftp_readdir_request_decode SSH_FXP_READDIR handle_id handle_body /\
  RequestCodec sftp_remove_request_decode SSH_FXP_REMOVE path_id path_body /\
  RequestCodec sftp_mkdir_request_decode SSH_FXP_MKDIR mkdir_id mkdir_body /\
  RequestCodec sftp_rmdir_request_decode SSH_FXP_RMDIR path_id path_body /\
  RequestCodec sftp_realpath_request_decode SSH_FXP_REALPATH path_id path_body /\
  RequestCodec sftp_stat_request_decode SSH_FXP_STAT path_id path_body /\
  RequestCodec sftp_rename_request_decode SSH_FXP_RENAME rename_id rename_body /\
  RequestCodec sftp_extended_request_decode SSH_FXP_EXTENDED extended_id extended_body.
Proof.
  split_and!; first [apply _ | by apply path_codec | by apply handle_codec].
Qed.

(** The attribute decoder accepts exactly the images of attributes with
    the supported flags, with or without extension pairs, and returns the
    attributes with the absent fields zero; it always ends, whatever count of
    extensions the packet announces, and never reads outside its input. *)
Theorem sftp_attrs_decode_exact l a0 :
  Forall is_byte l ->
  (forall a, filled (sftp_attrs_decode (view_of l)) a0 = Ret a <-> attrs_body a l) /\
  filled (sftp_attrs_decode (view_of l)) a0 <> Fault.
Proof. intros Hl. rewrite filled_attrs. by apply accepts_attrs. Qed.

Lemma sftp_attrs_decode_exact_witness :
  filled (sftp_attrs_decode (view_of [128; 0; 0; 4; 0; 0; 1; 164; 0; 0; 0; 1; 0; 0; 0; 1; 120; 0; 0; 0; 0]))
    zero_attrs = Ret (mk_attrs 4 0 0 0 420 0 0).
Proof.
  apply sftp_attrs_decode_exact; [by apply (bool_decide_unpack _); vm_compute|].
  exists (Some [(view_of [120], view_of [])]). split_and!; [by vm_compute| |by vm_compute].
  split; [by vm_compute|]. constructor; [|done].
  split; (apply view_ok_of; [by apply (bool_decide_unpack _); vm_compute|by vm_compute]).
Defined.

(** Attributes written by the encoder are read back with the supported
    flags and the fields those flags announce. *)
Theorem sftp_attrs_roundtrip a a0 storage cap :
  attrs_typed a -> 36 <= cap <= zlen storage ->
  exists l, encode_into (put_attrs (Some a)) storage cap = Ret l /\
    filled (sftp_attrs_decode (view_of l)) a0 = Ret (normalise_attrs a).
Proof.
  intros Ha Hc. exists (attrs_image (normalise_attrs a) None). split.
  - apply emits_encode_into; [apply emits_attrs|]. split; [|lia].
    unfold attrs_image, attrs_fields, opt_bytes. cbn [extensions_bytes].
    repeat case_match; len_lia.
  - rewrite filled_attrs. assert (attrs_body (normalise_attrs a) (attrs_image (normalise_attrs a) None)) as Hb
      by (exists None; split_and!; [by apply normalise_ok|done..]).
    apply accepts_attrs; [by eapply attrs_body_byte|done].
Qed.

Lemma sftp_attrs_roundtrip_witness :
  exists l, encode_into (put_attrs (Some (mk_attrs 21 7 9 9 420 0 0))) (replicate 40 0) 40 = Ret l /\
    filled (sftp_attrs_decode (view_of l)) zero_attrs = Ret (mk_attrs 5 7 0 0 420 0 0).
Proof.
  apply (sftp_attrs_roundtrip (mk_attrs 21 7 9 9 420 0 0)).
  - unfold attrs_typed, is_u32, is_u64. cbn. lia.
  - by vm_compute.
Defined.

(** Every response encoder either writes exactly one frame of its type
    with the given fields, all of it bytes, at the front of the output, reports its length and
    leaves the memory behind the frame alone, or, when the capacity is too
    small, reports an error and touches no byte at or past the capacity. *)
Theorem sftp_encoders_exact id code version message language filename longname data a :
  Forall (Forall is_byte) [message; language; filename; longname; data] ->
  Forall (fun l => zlen l <= 2 ^ 30) [message; language; filename; longname; data] ->
  writes_frame (fun cap => sftp_version_encode cap version) SSH_FXP_VERSION (be_bytes 4 version) /\
  writes_frame (fun cap => sftp_status_encode cap id code (Some message) (Some language))
    SSH_FXP_STATUS (status_body id code message language) /\
  writes_frame (fun cap => sftp_handle_encode cap id (Some data) (zlen data))
    SSH_FXP_HANDLE (string_body id data) /\
  writes_frame (fun cap => sftp_data_encode cap id (Some data) (zlen data))
    SSH_FXP_DATA (string_body id data) /\
  writes_frame (fun cap => sftp_attrs_encode cap id (Some a))
    SSH_FXP_ATTRS (attrs_response id a) /\
  writes_frame (fun cap => sftp_name_one_attrs_encode cap id (Some filename) (Some longname) (Some a))
    SSH_FXP_NAME (name_body id filename longname a) /\
  writes_frame (fun cap => sftp_name_one_encode cap id (Some filename) None)
    SSH_FXP_NAME (name_body id filename filename zero_attrs).
Proof.
  rewrite !Forall_cons_iff. intros (? & ? & ? & ? & ? & _) (? & ? & ? & ? & ? & _).
  split_and!; [apply version_writes_frame|by apply status_writes_frame|by apply handle_writes_frame
    |by apply data_writes_frame|apply attrs_writes_frame| |].
  - by apply (name_writes_frame _ _ (Some longname)).
  - by apply (name_writes_frame _ _ None).
Qed.

Lemma sftp_encoders_exact_witness :
  sftp_data_encode 16 7 (Some [1; 2]) 2 (Some (replicate 16 255)) =
    (Ret 15, Some ([0; 0; 0; 11; 103; 0; 0; 0; 7; 0; 0; 0; 2; 1; 2; 255])).
Proof.
  pose proof (sftp_encoders_exact 7 0 3 [] [] [] [] [1; 2] zero_attrs) as H.
  destruct H as (_ & _ & _ & H & _); [by apply (bool_decide_unpack _); vm_compute..|].
  destruct (proj2 H 16 (replicate 16 255)) as [Hf _]; [by vm_compute|]. apply Hf. by vm_compute.
Defined.

(** Whether a failing decoder has already stored the id. *)
Definition id_dropped {T} (decode : option (list Z) -> Z -> Prog T unit) (id_of : T -> Z) : Prop :=
  forall pk len t0 e t, decode pk len t0 = (Err e, t) -> id_of t = 0.
Definition id_kept {T} (decode : option (list Z) -> Z -> Prog T unit) (type : Z) (id_of : T -> Z)
    : Prop :=
  forall id body t0 r t, frame_ok type (be_bytes 4 id ++ body) -> is_u32 id ->
    let pk := request_frame type id body in
    decode (Some pk) (zlen pk) t0 = (r, t) -> id_of t = id.

(** When a decoder refuses a request, setstat and fsetstat have stored the
    request's own id whenever the header could be read and the type was right,
    so that the caller can answer it; every other decoder leaves the id zero,
    whatever the packet said. *)
Theorem sftp_failed_request_id :
  id_kept sftp_setstat_request_decode SSH_FXP_SETSTAT setstat_id /\
  id_kept sftp_fsetstat_request_decode SSH_FXP_FSETSTAT fsetstat_id /\
  id_dropped sftp_open_request_decode open_id /\
  id_dropped sftp_read_request_decode read_id /\
  id_dropped sftp_write_request_decode write_id /\
  id_dropped sftp_mkdir_request_decode mkdir_id /\
  id_dropped sftp_rename_request_decode rename_id /\
  id_dropped sftp_extended_request_decode extended_id /\
  id_dropped sftp_close_request_decode handle_id /\
  id_dropped sftp_fstat_request_decode handle_id /\
  id_dropped sftp_readdir_request_decode handle_id /\
  id_dropped sftp_realpath_request_decode path_id /\
  id_dropped sftp_stat_request_decode path_id /\
  id_dropped sftp_lstat_request_decode path_id /\
  id_dropped sftp_opendir_request_decode path_id /\
  id_dropped sftp_remove_request_decode path_id /\
  id_dropped sftp_rmdir_request_decode path_id.
Proof.
  split_and!.
  1, 2: intros id body t0 r t Hf Hid pk; eapply with_request_early; [done..|]; early_tac.
  all: intros pk len t0 e t E;
    lazymatch goal with |- ?h _ = _ =>
      refine (with_request_late _ _ _ _ _ h _ _ _ _ E) end;
    intros id; late_tac.
Qed.
