(* ===== verification/SftpPath.v ===== *)
(** * Paths of the SFTP server: the path functions of src/sftp/sftp_server.c

    [normalize_path_view] turns the path of a request into the C string that the
    policy and the file system see; [make_realpath_reply_path] makes the answer
    to a realpath request.  The output array of 256 bytes is a byte region, a
    store outside it a [Fault].  The reference they are compared with works on
    lists of path components. *)

From S2P Require Import Prelude Buffer Packet.

Definition EMSSH_SFTP_MAX_PATH : Z := 256.
Definition SLASH : Z := 47.
Definition DOT : Z := 46.
Definition BACKSLASH : Z := 92.
Definition COLON : Z := 58.

(** ** The normalisation *)

(** The locals of the loop: the output array, [out_pos], [segment_starts] with
    the last one first ([segment_count] is its length), [has_segment]. *)
Record norm_state : Type := mk_norm {
  norm_out : list Z;
  norm_pos : Z;
  norm_starts : list Z;
  norm_has : bool
}.

(** [out[out_pos++] = b;] *)
Definition put_char (b : Z) (st : norm_state) : outcome norm_state :=
  match mem_write (norm_out st) (norm_pos st) [b] with
  | Some o => Ret (mk_norm o (norm_pos st + 1) (norm_starts st) (norm_has st))
  | None => Fault
  end.

(** [out[i]] *)
Definition out_at (st : norm_state) (i : Z) : outcome Z :=
  match mem_read (norm_out st) i 1 with
  | Some bs => Ret (hd 0 bs)
  | None => Fault
  end.

(** The separator before a segment. *)
Definition put_separator (absolute : bool) (st : norm_state) : outcome norm_state :=
  if (norm_has st || absolute) && (norm_pos st >? 0) then
    last ← out_at st (norm_pos st - 1);
    if negb (last =? SLASH) then
      if norm_pos st + 1 >=? EMSSH_SFTP_MAX_PATH then Err SSH_ERR_BUFFER_TOO_SMALL
      else put_char SLASH st
    else Ret st
  else Ret st.

(** The block that appends a segment. *)
Definition append_segment (absolute : bool) (seg : list Z) (st : norm_state)
    : outcome norm_state :=
  let segment_base := norm_pos st in
  st ← put_separator absolute st;
  if norm_pos st + zlen seg >=? EMSSH_SFTP_MAX_PATH then Err SSH_ERR_BUFFER_TOO_SMALL else
  if zlen (norm_starts st) >=? EMSSH_SFTP_MAX_PATH then Fault else
  match mem_write (norm_out st) (norm_pos st) seg with
  | Some o => Ret (mk_norm o (norm_pos st + zlen seg) (segment_base :: norm_starts st) true)
  | None => Fault
  end.

(** [c == '\0' || c == '\\' || c == ':'] for some byte of the segment. *)
Definition forbidden (c : Z) : bool := (c =? 0) || (c =? BACKSLASH) || (c =? COLON).

(** One segment of the path: the body of the loop after the segment is cut out. *)
Definition normalize_segment (absolute : bool) (seg : list Z) (st : norm_state)
    : outcome norm_state :=
  if zlen seg =? 0 then Ret st else
  if bytes_eqb seg [DOT] then Ret st else
  if bytes_eqb seg [DOT; DOT] then
    match norm_starts st with
    | start :: rest =>
      Ret (mk_norm (norm_out st) start rest (zlen rest >? 0))
    | [] => if absolute then Ret st else Err SSH_ERR_SECURITY
    end
  else if existsb forbidden seg then Err SSH_ERR_SECURITY
  else append_segment absolute seg st.

(** The loop over the path, with a bound on its iterations. *)
Fixpoint normalize_loop (fuel : nat) (absolute : bool) (path : list Z) (st : norm_state)
    : outcome norm_state :=
  match path with
  | [] => Ret st
  | _ =>
    match fuel with
    | O => Fault
    | S fuel' =>
      match snd (scan_until (fun b => negb (b =? SLASH)) path) with
      | [] => Ret st
      | p =>
        let '(seg, rest) := scan_until (fun b => b =? SLASH) p in
        st ← normalize_segment absolute seg st;
        normalize_loop fuel' absolute rest st
      end
    end
  end.

(** The array after [SSH_OK]. *)
Definition normalize_path_view (path : ssh_string_view) (out : list Z) : outcome (list Z) :=
  if is_null (view_data path) || (view_len path =? 0) then Err SSH_ERR_INVALID_ARGUMENT else
  let bytes := view_bytes path in
  let absolute := hd 0 bytes =? SLASH in
  st ← (if absolute then put_char SLASH (mk_norm out 0 [] false)
        else Ret (mk_norm out 0 [] false));
  st ← normalize_loop (length bytes) absolute bytes st;
  let written :=
    if negb (norm_has st) then
      mem_write (norm_out st) 0 (if absolute then [SLASH; 0] else [DOT; 0])
    else mem_write (norm_out st) (norm_pos st) [0] in
  match written with Some o => Ret o | None => Fault end.

(** The C string at the front of an array. *)
Definition c_string (mem : list Z) : list Z := fst (scan_until (fun b => b =? 0) mem).

(** [copy_path(path, out)] into a local array: the string it leaves there. *)
Definition copy_path (path : ssh_string_view) : outcome (list Z) :=
  out ← normalize_path_view path (zeros EMSSH_SFTP_MAX_PATH);
  Ret (c_string out).

Definition make_realpath_reply_path (normalized_path : list Z) : outcome (list Z) :=
  let len := zlen normalized_path in
  if hd 0 normalized_path =? SLASH then
    if len + 1 >? EMSSH_SFTP_MAX_PATH then Err SSH_ERR_BUFFER_TOO_SMALL else Ret normalized_path
  else if bytes_eqb normalized_path [DOT] then Ret [SLASH]
  else if len + 2 >? EMSSH_SFTP_MAX_PATH then Err SSH_ERR_BUFFER_TOO_SMALL
  else Ret (SLASH :: normalized_path).

(** ** The reference: lists of components *)
Fixpoint join (segs : list (list Z)) : list Z :=
  match segs with
  | [] => []
  | [s] => s
  | s :: rest => s ++ [SLASH] ++ join rest
  end.

(** What the array holds while the segments so far are [segs], and at the end. *)
Definition render (absolute : bool) (segs : list (list Z)) : list Z :=
  (if absolute then [SLASH] else []) ++ join segs.
Definition path_string (absolute : bool) (segs : list (list Z)) : list Z :=
  match absolute, segs with
  | false, [] => [DOT]
  | _, _ => render absolute segs
  end.

(** One component on a stack of components. *)
Definition ref_step (absolute : bool) (segs : list (list Z)) (c : list Z)
    : outcome (list (list Z)) :=
  if decide (c = [] \/ c = [DOT]) then Ret segs else
  if decide (c = [DOT; DOT]) then
    match segs, absolute with
    | [], false => Err SSH_ERR_SECURITY
    | _, _ => Ret (removelast segs)
    end
  else if existsb forbidden c then Err SSH_ERR_SECURITY
  else if zlen (render absolute (segs ++ [c])) <? EMSSH_SFTP_MAX_PATH then Ret (segs ++ [c])
  else Err SSH_ERR_BUFFER_TOO_SMALL.

Fixpoint ref_steps (absolute : bool) (segs cs : list (list Z)) : outcome (list (list Z)) :=
  match cs with
  | [] => Ret segs
  | c :: cs' => segs ← ref_step absolute segs c; ref_steps absolute segs cs'
  end.

Definition components (path : list Z) : list (list Z) := split_on (fun b => b =? SLASH) path.
Definition is_absolute (path : list Z) : bool := hd 0 path =? SLASH.

Definition normalize_ref (path : list Z) : outcome (list Z) :=
  segs ← ref_steps (is_absolute path) [] (components path);
  Ret (path_string (is_absolute path) segs).

(** A component a normalised path may have, and such a path. *)
Definition segment_ok (s : list Z) : Prop :=
  s <> [] /\ s <> [DOT] /\ s <> [DOT; DOT] /\ existsb forbidden s = false /\ SLASH ∉ s.
Definition normal_path (p : list Z) : Prop :=
  exists absolute segs, Forall segment_ok segs /\ p = path_string absolute segs /\
    zlen p < EMSSH_SFTP_MAX_PATH.

(** ** Lemmas: rendering *)
Definition separator (segs : list (list Z)) : list Z :=
  match segs with [] => [] | _ => [SLASH] end.

Lemma join_snoc segs s : join (segs ++ [s]) = join segs ++ separator segs ++ s.
Proof.
  induction segs as [|x segs IH]; [done|]. cbn [app]. destruct segs as [|y segs]; [done|].
  change (join (x :: (y :: segs) ++ [s])) with (x ++ [SLASH] ++ join ((y :: segs) ++ [s])).
  rewrite IH. cbn [separator join]. by rewrite <- !app_assoc.
Qed.

Lemma render_snoc a segs s : render a (segs ++ [s]) = render a segs ++ separator segs ++ s.
Proof. unfold render. by rewrite join_snoc, <- app_assoc. Qed.

Lemma render_front a segs s : exists t, render a (segs ++ [s]) = render a segs ++ t.
Proof. rewrite render_snoc. eauto. Qed.

Lemma removelast_snoc {A} (l : list A) x : removelast (l ++ [x]) = l.
Proof. apply removelast_last. Qed.

Lemma join_length segs : Forall segment_ok segs -> zlen segs <= zlen (join segs).
Proof.
  induction segs as [|s segs IH] using rev_ind; [done|]. intros [Hs Hx]%Forall_app.
  rewrite join_snoc, !zlen_app, zlen_cons, (zlen_nil (A:=list Z)). specialize (IH Hs).
  apply Forall_cons_1 in Hx as [(Hne & _) _].
  assert (zlen s <> 0) by (intros ?%zlen_zero_inv; done).
  pose proof (zlen_nonneg s). pose proof (zlen_nonneg (separator segs)). lia.
Qed.

(** No byte of a rendering is the terminator. *)
Lemma not_forbidden_nonzero s : existsb forbidden s = false -> Forall (fun b => b <> 0) s.
Proof.
  induction s as [|b s IH]; [done|]. cbn [existsb]. intros [Hb Hs]%orb_false_iff.
  constructor; [|auto]. intros ->. done.
Qed.

Lemma render_nonzero a segs : Forall segment_ok segs -> Forall (fun b => b <> 0) (render a segs).
Proof.
  intros Hs. unfold render. apply Forall_app_2; [destruct a; repeat constructor; done|].
  induction segs as [|s segs IH] using rev_ind; [done|]. apply Forall_app in Hs as [Hs Hx].
  apply Forall_cons_1 in Hx as [(_ & _ & _ & Hf & _) _]. rewrite join_snoc.
  repeat apply Forall_app_2; [auto|destruct segs; repeat constructor; done|].
  by apply not_forbidden_nonzero.
Qed.

Lemma c_string_app s t : Forall (fun b => b <> 0) s -> c_string (s ++ 0 :: t) = s.
Proof.
  induction 1 as [|b s Hb Hs IH]; [done|]. unfold c_string in *. cbn [app scan_until].
  replace (b =? 0) with false by lia. destruct (scan_until _ (s ++ _)). cbn [fst] in *. by rewrite IH.
Qed.

(** The last byte of a segment is not a slash. *)
Lemma segment_last s : segment_ok s -> exists t b, s = t ++ [b] /\ b <> SLASH.
Proof.
  intros (Hne & _ & _ & _ & Hns). destruct s as [|b t] using rev_ind; [done|].
  exists t, b. split; [done|]. intros ->. apply Hns, elem_of_app. right. by constructor.
Qed.

(** ** The state of the loop *)
Fixpoint starts_rev (a : bool) (rsegs : list (list Z)) : list Z :=
  match rsegs with
  | [] => []
  | _ :: r => zlen (render a (rev r)) :: starts_rev a r
  end.

Record norm_inv (a : bool) (segs : list (list Z)) (st : norm_state) : Prop := {
  inv_out : exists t, norm_out st = render a segs ++ t /\ zlen (norm_out st) = EMSSH_SFTP_MAX_PATH;
  inv_pos : norm_pos st = zlen (render a segs);
  inv_starts : norm_starts st = starts_rev a (rev segs);
  inv_has : norm_has st = negb (bool_decide (segs = []));
  inv_segs : Forall segment_ok segs;
  inv_len : zlen (render a segs) < EMSSH_SFTP_MAX_PATH
}.

Lemma zlen_starts a segs : zlen (starts_rev a (rev segs)) = zlen segs.
Proof.
  assert (forall r, zlen (starts_rev a r) = zlen r) as H.
  { induction r as [|s r IH]; [done|]. cbn [starts_rev]. by rewrite !zlen_cons, IH. }
  rewrite H. unfold zlen. by rewrite length_rev.
Qed.

(** Writing behind the part that is rendered. *)
Lemma write_behind o p t bs :
  o = p ++ t -> zlen o = EMSSH_SFTP_MAX_PATH -> zlen p + zlen bs <= EMSSH_SFTP_MAX_PATH ->
  exists t', mem_write o (zlen p) bs = Some ((p ++ bs) ++ t') /\
    zlen ((p ++ bs) ++ t') = EMSSH_SFTP_MAX_PATH.
Proof.
  intros -> Ho Hl. rewrite zlen_app in Ho. pose proof (zlen_nonneg bs).
  destruct (zsplit t (zlen bs)) as (x & r & -> & Hx); [lia|]. exists r.
  rewrite mem_write_app by done. rewrite <- app_assoc. split; [done|].
  rewrite zlen_app in Ho. rewrite !zlen_app. lia.
Qed.

Lemma put_separator_ok a segs st :
  norm_inv a segs st ->
  if zlen (render a segs ++ separator segs) <? EMSSH_SFTP_MAX_PATH then
    exists st1 t, put_separator a st = Ret st1 /\
      norm_out st1 = (render a segs ++ separator segs) ++ t /\
      zlen (norm_out st1) = EMSSH_SFTP_MAX_PATH /\
      norm_pos st1 = zlen (render a segs ++ separator segs) /\
      norm_starts st1 = norm_starts st
  else put_separator a st = Err SSH_ERR_BUFFER_TOO_SMALL.
Proof.
  intros [(t & Ho & Hz) Hp Hs Hh Hk Hl]. unfold put_separator.
  destruct segs as [|s segs _] using rev_ind.
  - rewrite app_nil_r. replace (_ <? _) with true by lia. exists st, t.
    rewrite Hh, Hp. cbn [bool_decide decide negb orb] in *.
    destruct a; [|done]. change (zlen (render true [])) with 1 in *. cbn [andb Z.gtb Z.compare].
    unfold out_at. rewrite Ho in *. pose proof (mem_read_app [] [SLASH] t) as Hr.
    change (mem_read (render true [] ++ t) (1 - 1) 1 = Some [SLASH]) in Hr. by rewrite Hr.
  - replace (separator (segs ++ [s])) with [SLASH] by (by destruct segs).
    rewrite Hh. rewrite bool_decide_eq_false_2 by (by destruct segs). cbn [negb orb].
    apply Forall_app in Hk as [_ [Hk _]%Forall_cons_1].
    destruct (segment_last s Hk) as (s0 & b & -> & Hb).
    assert (exists r, render a (segs ++ [s0 ++ [b]]) = r ++ [b]) as [r Hr].
    { rewrite render_snoc. eexists. by rewrite !app_assoc. }
    rewrite Hp, Hr in *. pose proof (zlen_nonneg r).
    replace (zlen (r ++ [b]) >? 0) with true by len_lia. cbn [andb].
    unfold out_at. replace (zlen (r ++ [b]) - 1) with (zlen r) by len_lia.
    pose proof (mem_read_app r [b] t) as Hm. change (zlen [b]) with 1 in Hm.
    rewrite app_assoc, <- Ho in Hm. rewrite Hm.
    cbn [mbind outcome_bind hd]. replace (b =? SLASH) with false by lia. cbn [negb].
    rewrite zlen_app, (zlen_cons SLASH), (zlen_nil (A:=Z)).
    destruct (Z.ltb_spec (zlen (r ++ [b]) + (1 + 0)) EMSSH_SFTP_MAX_PATH) as [Hlt|Hge].
    + replace (_ >=? _) with false by lia. unfold put_char. rewrite Hp.
      destruct (write_behind (norm_out st) (r ++ [b]) t [SLASH]) as (t' & -> & Hz');
        [done|done|rewrite (zlen_cons SLASH), (zlen_nil (A:=Z)); lia|].
      eexists _, t'. cbn [norm_out norm_pos norm_starts]. by split_and!.
    + replace (_ >=? _) with true by lia. done.
Qed.

Lemma append_segment_ok a segs s st :
  norm_inv a segs st -> segment_ok s ->
  if zlen (render a (segs ++ [s])) <? EMSSH_SFTP_MAX_PATH then
    exists st', append_segment a s st = Ret st' /\ norm_inv a (segs ++ [s]) st'
  else append_segment a s st = Err SSH_ERR_BUFFER_TOO_SMALL.
Proof.
  intros Hi Hok. pose proof (put_separator_ok a segs st Hi) as Hsep.
  unfold append_segment. rewrite render_snoc, app_assoc, zlen_app.
  assert (zlen s <> 0) as Hs0 by (intros ?%zlen_zero_inv; by destruct Hok).
  pose proof (zlen_nonneg s).
  destruct (Z.ltb_spec (zlen (render a segs ++ separator segs)) EMSSH_SFTP_MAX_PATH) as [Hlt|Hge].
  2: { rewrite Hsep. by replace (_ <? _) with false by lia. }
  destruct Hsep as (st1 & t & -> & Ho & Hz & Hp & Hst). cbn [mbind outcome_bind]. rewrite Hp.
  destruct (Z.ltb_spec (zlen (render a segs ++ separator segs) + zlen s) EMSSH_SFTP_MAX_PATH).
  2: by replace (_ >=? _) with true by lia.
  replace (_ >=? EMSSH_SFTP_MAX_PATH) with false by lia.
  destruct Hi as [_ Hpos Hstarts Hhas Hsegs Hl].
  assert (zlen (norm_starts st1) < EMSSH_SFTP_MAX_PATH) as Hn.
  { rewrite Hst, Hstarts, zlen_starts. pose proof (join_length segs Hsegs) as Hj.
    unfold render in Hl. rewrite zlen_app in Hl.
    pose proof (zlen_nonneg (if a then [SLASH] else [])). lia. }
  replace (zlen (norm_starts st1) >=? _) with false by lia.
  destruct (write_behind (norm_out st1) (render a segs ++ separator segs) t s)
    as (t' & -> & Hz'); [done|done|lia|].
  eexists. split; [done|].
  assert (render a (segs ++ [s]) = (render a segs ++ separator segs) ++ s) as Hr
    by (by rewrite render_snoc, app_assoc).
  split; cbn [norm_out norm_pos norm_starts norm_has]; rewrite ?Hr.
  - eauto.
  - by rewrite (zlen_app _ s).
  - rewrite rev_app_distr. cbn [rev app starts_rev]. by rewrite rev_involutive, Hst, Hstarts, Hpos.
  - by rewrite bool_decide_eq_false_2 by (by destruct segs).
  - apply Forall_app_2; [done|by constructor].
  - rewrite (zlen_app _ s). lia.
Qed.

(** A segment of the path as the loop cuts it out. *)
Definition cut_ok (s : list Z) : Prop := SLASH ∉ s.

Lemma normalize_segment_ok a segs s st :
  norm_inv a segs st -> cut_ok s ->
  match ref_step a segs s with
  | Ret segs' => exists st', normalize_segment a s st = Ret st' /\ norm_inv a segs' st'
  | Err e => normalize_segment a s st = Err e
  | Fault => False
  end.
Proof.
  intros Hi Hc. unfold ref_step, normalize_segment, bytes_eqb.
  destruct (decide (s = [] \/ s = [DOT])) as [Hd|Hd].
  { exists st. destruct Hd as [->| ->]; [done|]. by rewrite bool_decide_eq_true_2. }
  replace (zlen s =? 0) with false
    by (symmetry; apply Z.eqb_neq; intros ?%zlen_zero_inv; naive_solver).
  rewrite (bool_decide_eq_false_2 (s = [DOT])) by naive_solver.
  destruct (decide (s = [DOT; DOT])) as [->|Hdd].
  - rewrite bool_decide_eq_true_2 by done. pose proof (inv_starts _ _ _ Hi) as Hst.
    destruct segs as [|x segs _] using rev_ind.
    + rewrite Hst. cbn [rev starts_rev removelast]. destruct a; [by exists st|done].
    + rewrite Hst, rev_app_distr. cbn [rev app starts_rev]. rewrite rev_involutive, removelast_snoc.
      replace (match segs ++ [x] with [] => _ | _ :: _ => _ end) with (Ret (A:=list (list Z)) segs)
        by (destruct segs, a; done).
      eexists. split; [done|]. destruct Hi as [(t & Ho & Hz) _ _ _ Hsegs Hl].
      apply Forall_app in Hsegs as [Hsegs _]. destruct (render_front a segs x) as [u Hu].
      rewrite Hu in *. split; cbn [norm_out norm_pos norm_starts norm_has].
      * exists (u ++ t). by rewrite Ho, app_assoc in *.
      * done.
      * done.
      * rewrite zlen_starts. destruct segs; [done|].
        rewrite bool_decide_eq_false_2 by done. rewrite zlen_cons.
        pose proof (zlen_nonneg segs). cbn [negb]. lia.
      * done.
      * rewrite zlen_app in Hl. pose proof (zlen_nonneg u). lia.
  - rewrite bool_decide_eq_false_2 by done. destruct (existsb forbidden s) eqn:Ef; [done|].
    pose proof (append_segment_ok a segs s st Hi) as Ha.
    destruct (_ <? _); (apply Ha; split_and!; [naive_solver|naive_solver|done|done|done]).
Qed.

Lemma ref_steps_slash a segs p :
  ref_steps a segs (components (SLASH :: p)) = ref_steps a segs (components p).
Proof. done. Qed.

Lemma ref_step_empty a segs : ref_step a segs [] = Ret segs.
Proof. unfold ref_step. by rewrite decide_True by auto. Qed.

Lemma ref_steps_cut a segs p :
  let '(seg, rest) := scan_until (fun b => b =? SLASH) p in
  ref_steps a segs (components p) =
    (segs ← ref_step a segs seg; ref_steps a segs (components rest)).
Proof.
  pose proof (scan_until_split (fun b => b =? SLASH) p) as Hs.
  destruct (scan_until _ p) as [seg rest]. destruct Hs as (E & _ & Hr).
  unfold components at 1. rewrite E. cbn [ref_steps].
  destruct (ref_step a segs seg) as [segs'|e|]; cbn [mbind outcome_bind]; [|done..].
  destruct Hr as [->|(b & r & -> & Hb)]; [done|]. apply Z.eqb_eq in Hb as ->. done.
Qed.

Lemma skip_slashes a segs p :
  let p' := snd (scan_until (fun b => negb (b =? SLASH)) p) in
  ref_steps a segs (components p') = ref_steps a segs (components p) /\
  (length p' <= length p)%nat /\ match p' with [] => True | b :: _ => b <> SLASH end.
Proof.
  cbv zeta. induction p as [|b p IH]; [done|]. cbn [scan_until].
  destruct (Z.eqb_spec b SLASH) as [->|Hb]; cbn [negb].
  - destruct (scan_until _ p) as [tok rest]. cbn [snd] in *. destruct IH as (-> & ? & ?).
    split_and!; [done|cbn; lia|done].
  - done.
Qed.

Lemma cut_no_slash p : cut_ok (fst (scan_until (fun b => b =? SLASH) p)).
Proof.
  unfold cut_ok. induction p as [|b p IH]; cbn [scan_until]; [apply not_elem_of_nil|].
  destruct (Z.eqb_spec b SLASH) as [->|Hb]; [apply not_elem_of_nil|].
  destruct (scan_until _ p) as [tok rest]. cbn [fst] in *. rewrite elem_of_cons. naive_solver.
Qed.

Lemma normalize_loop_ok fuel a p segs st :
  norm_inv a segs st -> (length p <= fuel)%nat ->
  match ref_steps a segs (components p) with
  | Ret segs' => exists st', normalize_loop fuel a p st = Ret st' /\ norm_inv a segs' st'
  | Err e => normalize_loop fuel a p st = Err e
  | Fault => False
  end.
Proof.
  revert p segs st. induction fuel as [|fuel IH]; intros [|b p] segs st Hi Hf;
    cbn [normalize_loop]; try (cbn in Hf; lia); try (exists st; done).
  set (q := b :: p) in *. destruct (skip_slashes a segs q) as (<- & Hl & Hns).
  destruct (snd (scan_until _ q)) as [|b' q'] eqn:Eq; [by exists st|].
  set (q2 := b' :: q') in *. pose proof (ref_steps_cut a segs q2) as Hc.
  pose proof (cut_no_slash q2) as Hcut. pose proof (scan_until_split (fun b => b =? SLASH) q2) as Hs.
  destruct (scan_until _ q2) as [seg rest] eqn:Es. destruct Hs as (_ & Erest & _). rewrite Hc.
  assert (seg <> []) as Hseg.
  { intros ->. unfold q2 in Es. cbn [scan_until] in Es. replace (b' =? SLASH) with false in Es by lia.
    by destruct (scan_until _ q'). }
  assert (length rest <= fuel)%nat as Hr.
  { assert (length seg <> 0%nat) by (by destruct seg).
    apply (f_equal length) in Erest. rewrite length_app in Erest. lia. }
  pose proof (normalize_segment_ok a segs seg st Hi Hcut) as Hstep.
  destruct (ref_step a segs seg) as [segs'|e|]; cbn [mbind outcome_bind]; [|by rewrite Hstep|done].
  destruct Hstep as (st' & -> & Hi'). cbn [mbind outcome_bind]. by apply IH.
Qed.

Lemma norm_inv_start (a : bool) (out : list Z) :
  zlen out = EMSSH_SFTP_MAX_PATH ->
  exists st, (if a then put_char SLASH (mk_norm out 0 [] false) else Ret (mk_norm out 0 [] false)) =
    Ret st /\ norm_inv a [] st.
Proof.
  intros Hz. destruct a.
  - unfold put_char. cbn [norm_out norm_pos].
    destruct (write_behind out [] out [SLASH]) as (t & E & Hz'); [done|done|by vm_compute|].
    rewrite (zlen_nil (A:=Z)) in E. rewrite E. eexists. split; [done|].
    split; cbn [norm_out norm_pos norm_starts norm_has]; try done. exists t. done.
  - eexists. split; [done|]. split; cbn [norm_out norm_pos norm_starts norm_has]; try done.
    exists out. done.
Qed.

(** The array left by a successful normalisation holds the reference's string. *)
Lemma normalize_path_ref p out :
  zlen out = EMSSH_SFTP_MAX_PATH -> p <> [] ->
  match normalize_ref p with
  | Ret s => exists mem, normalize_path_view (view_of p) out = Ret mem /\ c_string mem = s /\
      zlen mem = EMSSH_SFTP_MAX_PATH /\ normal_path s
  | Err e => normalize_path_view (view_of p) out = Err e
  | Fault => False
  end.
Proof.
  intros Hz Hne. unfold normalize_path_view, normalize_ref. cbn [view_of view_data view_len is_null orb].
  replace (zlen p =? 0) with false by (symmetry; apply Z.eqb_neq; intros ?%zlen_zero_inv; done).
  rewrite view_bytes_of. fold (is_absolute p). set (a := is_absolute p).
  destruct (norm_inv_start a out Hz) as (st & -> & Hi). cbn [mbind outcome_bind].
  pose proof (normalize_loop_ok (length p) a p [] st Hi (le_n _)) as Hl.
  destruct (ref_steps a [] (components p)) as [segs|e|]; cbn [mbind outcome_bind];
    [|by rewrite Hl|done].
  destruct Hl as (st' & -> & [(t & Ho & Hz') Hp _ Hh Hs Hlen]). cbn [mbind outcome_bind].
  rewrite Hh. destruct (decide (segs = [])) as [->|Hn].
  - rewrite bool_decide_eq_true_2 by done. cbn [negb].
    destruct (write_behind (norm_out st') [] (norm_out st') (if a then [SLASH; 0] else [DOT; 0]))
      as (t' & E & Hz''); [done|done|by destruct a; vm_compute|].
    rewrite (zlen_nil (A:=Z)) in E. rewrite E. eexists. split; [done|].
    rewrite app_nil_l in *. split_and!.
    + destruct a; unfold c_string; cbn; done.
    + done.
    + exists a, []. split_and!; [done|done|by destruct a; vm_compute].
  - rewrite bool_decide_eq_false_2 by done. cbn [negb]. rewrite Hp.
    destruct (write_behind (norm_out st') (render a segs) t [0]) as (t' & -> & Hz'');
      [done|done|rewrite zlen_cons, (zlen_nil (A:=Z)); lia|].
    assert (path_string a segs = render a segs) as Heq by (by destruct a, segs).
    eexists. split; [done|]. rewrite Heq. split_and!.
    + rewrite <- app_assoc. apply c_string_app. by apply render_nonzero.
    + done.
    + exists a, segs. by rewrite Heq.
Qed.

(** ** Normal paths are fixed points *)
Lemma components_segment s : SLASH ∉ s -> components s = [s].
Proof.
  unfold components. induction s as [|b s IH]; [done|]. intros Hs.
  cbn [split_on]. rewrite IH by (intros ?; apply Hs; by constructor).
  replace (b =? SLASH) with false; [done|]. symmetry. apply Z.eqb_neq. intros ->. apply Hs. by constructor.
Qed.

Lemma components_app s p : SLASH ∉ s -> components (s ++ SLASH :: p) = s :: components p.
Proof.
  unfold components. induction s as [|b s IH]; [done|]. intros Hs. cbn [app split_on].
  rewrite IH by (intros ?; apply Hs; by constructor).
  replace (b =? SLASH) with false; [done|]. symmetry. apply Z.eqb_neq. intros ->. apply Hs. by constructor.
Qed.

Lemma components_join segs : Forall segment_ok segs -> segs <> [] -> components (join segs) = segs.
Proof.
  induction segs as [|s segs IH]; [done|]. intros Hs%Forall_cons_1 _. destruct Hs as [Hs Hr].
  destruct Hs as (_ & _ & _ & _ & Hns). destruct segs as [|y segs].
  - by apply components_segment.
  - change (join (s :: y :: segs)) with (s ++ SLASH :: join (y :: segs)).
    rewrite components_app by done. by rewrite IH.
Qed.

Lemma render_prefix a segs more : zlen (render a segs) <= zlen (render a (segs ++ more)).
Proof.
  induction more as [|s more IH] using rev_ind; [rewrite app_nil_r; lia|].
  rewrite app_assoc, render_snoc, zlen_app.
  pose proof (zlen_nonneg (separator (segs ++ more) ++ s)). lia.
Qed.

Lemma ref_steps_normal a done segs :
  Forall segment_ok segs -> zlen (render a (done ++ segs)) < EMSSH_SFTP_MAX_PATH ->
  ref_steps a done segs = Ret (done ++ segs).
Proof.
  revert done. induction segs as [|s segs IH]; intros done Hs Hl; [by rewrite app_nil_r|].
  apply Forall_cons_1 in Hs as [(Hne & Hd & Hdd & Hf & _) Hs]. cbn [ref_steps]. unfold ref_step.
  rewrite !decide_False by naive_solver. rewrite Hf.
  rewrite (app_assoc done [s] segs : done ++ s :: segs = _) in *.
  pose proof (render_prefix a (done ++ [s]) segs). replace (_ <? _) with true by lia.
  cbn [mbind outcome_bind]. by apply IH.
Qed.

Lemma normalize_ref_normal s : normal_path s -> normalize_ref s = Ret s.
Proof.
  intros (a & segs & Hs & -> & Hl). unfold normalize_ref.
  destruct (decide (segs = [])) as [->|Hn]; [by destruct a|].
  assert (path_string a segs = render a segs) as Heq by (by destruct a, segs). rewrite Heq in *.
  assert (is_absolute (render a segs) = a) as Ha.
  { destruct a; [done|]. destruct segs as [|s segs]; [done|].
    apply Forall_cons_1 in Hs as [(Hne & _ & _ & _ & Hns) _]. destruct s as [|b s]; [done|].
    assert (is_absolute (b :: s) = false) as Hb.
    { unfold is_absolute. apply Z.eqb_neq. intros E. cbn in E. subst. apply Hns. by constructor. }
    destruct segs; exact Hb. }
  rewrite Ha. assert (ref_steps a [] (components (render a segs)) = Ret segs) as ->.
  { unfold render. destruct a; cbn [app]; rewrite ?ref_steps_slash, components_join by done;
      by rewrite (ref_steps_normal _ []). }
  cbn [mbind outcome_bind]. by rewrite Heq.
Qed.

Lemma normal_path_nonempty s : normal_path s -> s <> [].
Proof.
  intros (a & segs & Hs & -> & _). destruct a; [by destruct segs|].
  destruct segs as [|x segs]; [done|]. apply Forall_cons_1 in Hs as [(Hne & _) _].
  destruct x; [done|]. by destruct segs.
Qed.

Lemma copy_path_ref p :
  p <> [] ->
  copy_path (view_of p) = normalize_ref p /\
  match normalize_ref p with Ret s => normal_path s | Err _ => True | Fault => False end.
Proof.
  intros Hne. unfold copy_path.
  pose proof (normalize_path_ref p (zeros EMSSH_SFTP_MAX_PATH) eq_refl Hne) as H.
  destruct (normalize_ref p) as [s|e|]; [|by rewrite H|done].
  destruct H as (mem & -> & <- & _ & Hs). done.
Qed.

Lemma copy_path_normal v s : view_ok v -> copy_path v = Ret s -> normal_path s.
Proof.
  intros (l & -> & _ & _) E. destruct l as [|b l]; [done|].
  destruct (copy_path_ref (b :: l)) as [H1 H2]; [done|]. rewrite H1 in E. by rewrite E in H2.
Qed.

(** *** The bytes of a normal path are bytes of the request *)
Ltac forall_tac :=
  repeat match goal with H : Forall _ (_ :: _) |- _ => apply Forall_cons_1 in H as [? ?] end;
  repeat first [assumption | apply Forall_cons_2 | apply Forall_app_2 | apply Forall_nil_2]; done.

Lemma components_byte p : Forall is_byte p -> Forall (Forall is_byte) (components p).
Proof.
  unfold components. induction 1 as [|b p Hb _ IH]; cbn [split_on]; [forall_tac|].
  case_bool; [forall_tac|]. destruct (split_on _ p); forall_tac.
Qed.

Lemma removelast_Forall {A} (P : A -> Prop) l : Forall P l -> Forall P (removelast l).
Proof. induction 1 as [|y l Hy Hl IH]; [done|]. destruct l; [done|]. by constructor. Qed.

Lemma ref_steps_byte a segs cs s :
  Forall (Forall is_byte) segs -> Forall (Forall is_byte) cs -> ref_steps a segs cs = Ret s ->
  Forall (Forall is_byte) s.
Proof.
  intros Hs Hc. revert segs Hs. induction Hc as [|c cs Hc _ IH]; intros segs Hs E; cbn [ref_steps] in E.
  - by simplify_eq.
  - destruct (ref_step a segs c) as [segs'|e|] eqn:Es; [|done..]. cbn in E. eapply IH, E.
    unfold ref_step in Es. pose proof (removelast_Forall _ _ Hs) as Hl.
    destruct (decide _); [by simplify_eq|]. destruct (decide _).
    + by destruct segs, a; simplify_eq.
    + repeat case_match; simplify_eq. forall_tac.
Qed.

Lemma render_byte a segs : Forall (Forall is_byte) segs -> Forall is_byte (render a segs).
Proof.
  intros Hs. apply Forall_app. split; [destruct a; forall_tac|].
  induction Hs as [|s segs Hs Hr IH]; [done|]. cbn [join]. destruct segs; [done|].
  apply Forall_app. split; [done|]. by constructor.
Qed.

Lemma copy_path_byte v s : view_ok v -> copy_path v = Ret s -> Forall is_byte s.
Proof.
  intros (l & -> & Hl & _) E. destruct l as [|b l]; [done|].
  destruct (copy_path_ref (b :: l)) as [H1 _]; [done|]. rewrite H1 in E. clear H1.
  unfold normalize_ref in E. destruct (ref_steps _ _ _) as [segs|e|] eqn:Es; [|done..].
  cbn in E. simplify_eq. apply ref_steps_byte in Es; [|done|by apply components_byte].
  unfold path_string. destruct (is_absolute _); [by apply render_byte|].
  destruct segs; [forall_tac|by apply render_byte].
Qed.

Lemma realpath_reply_text p r :
  normal_path p -> Forall is_byte p -> make_realpath_reply_path p = Ret r ->
  Forall is_byte r /\ zlen r <= EMSSH_SFTP_MAX_PATH.
Proof.
  intros (? & ? & _ & _ & Hl) Hb. unfold make_realpath_reply_path, EMSSH_SFTP_MAX_PATH in *.
  repeat case_match; intros; simplify_eq; (split; [forall_tac|]); [lia|by vm_compute|].
  rewrite zlen_cons. lia.
Qed.

(** ** Properties *)

(** The path of a request is normalised exactly as the list-of-components
    reference says: empty and dot components are dropped, dot-dot removes the
    component before it and is refused with a security error when it would
    leave a relative root, components with a NUL, a backslash or a colon are
    refused, and so are results that do not fit the array.  The array keeps its
    size, and no store falls outside it. *)
Theorem normalize_path_exact p out :
  p <> [] -> zlen out = EMSSH_SFTP_MAX_PATH ->
  match normalize_ref p with
  | Ret s => exists mem, normalize_path_view (view_of p) out = Ret mem /\ c_string mem = s /\
      zlen mem = EMSSH_SFTP_MAX_PATH
  | Err e => normalize_path_view (view_of p) out = Err e
  | Fault => False
  end.
Proof.
  intros Hne Hz. pose proof (normalize_path_ref p out Hz Hne) as H.
  destruct (normalize_ref p); [|done..]. destruct H as (mem & ? & ? & ? & _). eauto.
Qed.

Lemma normalize_path_exact_witness :
  exists mem, normalize_path_view (view_of (cstr "/a/../b//./c")) (zeros 256) = Ret mem /\
    c_string mem = cstr "/b/c" /\ zlen mem = EMSSH_SFTP_MAX_PATH.
Proof. exact (normalize_path_exact (cstr "/a/../b//./c") (zeros 256) ltac:(done) eq_refl). Defined.

(** A path that the server accepts is normal: it is absolute or relative to
    the root, its components are neither empty nor dot nor dot-dot and contain
    no slash, backslash, colon or NUL, and it is shorter than the array; and
    normalising it again changes nothing. *)
Theorem copy_path_safe v s :
  view_ok v -> copy_path v = Ret s -> normal_path s /\ copy_path (view_of s) = Ret s.
Proof.
  intros Hv E. pose proof (copy_path_normal v s Hv E) as Hs. split; [done|].
  destruct (copy_path_ref s) as [-> _]; [by apply normal_path_nonempty|].
  by apply normalize_ref_normal.
Qed.

Lemma copy_path_safe_witness :
  normal_path (cstr "x/z") /\ copy_path (view_of (cstr "x/z")) = Ret (cstr "x/z").
Proof.
  apply (copy_path_safe (view_of (cstr "x/./y/../z"))); [|by vm_compute].
  exists (cstr "x/./y/../z"). split_and!; [done| |by vm_compute].
  by apply (bool_decide_unpack _); vm_compute.
Defined.

(** The answer to a realpath request is the normal path made absolute; only
    a relative path of the greatest length has no answer. *)
Theorem realpath_reply_absolute p :
  normal_path p ->
  match make_realpath_reply_path p with
  | Ret r => normal_path r /\ is_absolute r = true /\ (r = p \/ p = [DOT] /\ r = [SLASH] \/ r = SLASH :: p)
  | Err e => e = SSH_ERR_BUFFER_TOO_SMALL /\ zlen p = EMSSH_SFTP_MAX_PATH - 1
  | Fault => False
  end.
Proof.
  intros Hp. pose proof (normal_path_nonempty p Hp) as Hne. destruct Hp as (a & segs & Hs & Ep & Hl).
  unfold make_realpath_reply_path. fold (is_absolute p). destruct (is_absolute p) eqn:Ea.
  - replace (zlen p + 1 >? _) with false by lia. split_and!; [by exists a, segs|done|by left].
  - assert (a = false) as -> by (destruct a; [subst p; by destruct segs|done]).
    destruct (decide (segs = [])) as [->|Hn].
    + subst p. cbn. split_and!; [by exists true, []|done|by right; left].
    + assert (p = join segs) as -> by (by destruct segs).
      unfold bytes_eqb. case_bool_decide as Hd.
      { exfalso. apply (f_equal components) in Hd. rewrite components_join in Hd by done.
        cbn in Hd. subst segs. apply Forall_cons_1 in Hs as [(_ & ? & _) _]. done. }
      destruct (Z.gtb_spec (zlen (join segs) + 2) EMSSH_SFTP_MAX_PATH) as [Hg|Hg].
      * split; [done|]. lia.
      * split_and!; [|done|by right; right]. exists true, segs. split_and!; [done|by destruct segs|].
        rewrite zlen_cons. lia.
Qed.

Lemma realpath_reply_absolute_witness : normal_path (cstr "/x") /\ is_absolute (cstr "/x") = true.
Proof.
  pose proof (realpath_reply_absolute (cstr "x")) as H. cbn in H. destruct H as (? & ? & _); [|done].
  exists false, [cstr "x"]. split_and!; [|done|by vm_compute].
  constructor; [|done]. split_and!; try done. by apply (bool_decide_unpack _); vm_compute.
Defined.
