(* ===== verification/SftpServer.v ===== *)
(** * The SFTP server: src/sftp/sftp_server.c

    The session with its handle table, one handler per request and the packet
    dispatcher.  The policy function and the file system are code behind
    callbacks: a handler is an interaction tree over these calls, so what is
    proved of a handler holds for every policy and every file system, whatever
    state they keep. *)

From S2P Require Import Prelude Interaction Buffer Packet Codec Sftp SftpPath.

(** ** Constants *)
Definition EMSSH_SFTP_MAX_HANDLES : nat := 16.
Definition EMSSH_SFTP_MAX_IO : Z := 32768.
Definition SFTP_DATA_RESPONSE_OVERHEAD : Z := 13.
Definition SFTP_VERSION_3 : Z := 3.
Definition SSH_FXP_EXTENDED_REPLY : Z := 201.

Definition SSH_FXF_READ : Z := 1.
Definition SSH_FXF_WRITE : Z := 2.
Definition SSH_FXF_APPEND : Z := 4.
Definition SSH_FXF_CREAT : Z := 8.
Definition SSH_FXF_TRUNC : Z := 16.
Definition SSH_FXF_EXCL : Z := 32.

Definition SSH_FX_OK : Z := 0.
Definition SSH_FX_EOF : Z := 1.
Definition SSH_FX_NO_SUCH_FILE : Z := 2.
Definition SSH_FX_PERMISSION_DENIED : Z := 3.
Definition SSH_FX_FAILURE : Z := 4.
Definition SSH_FX_BAD_MESSAGE : Z := 5.
Definition SSH_FX_OP_UNSUPPORTED : Z := 8.

(** [sftp_handle_kind_t]; a zeroed entry has kind 0. *)
Definition SFTP_HANDLE_KIND_FILE : Z := 1.
Definition SFTP_HANDLE_KIND_DIR : Z := 2.

(** ** Data *)
Inductive sftp_policy_operation : Type :=
| SFTP_POLICY_REALPATH | SFTP_POLICY_STAT | SFTP_POLICY_OPEN | SFTP_POLICY_READ
| SFTP_POLICY_WRITE | SFTP_POLICY_SETSTAT | SFTP_POLICY_OPENDIR | SFTP_POLICY_READDIR
| SFTP_POLICY_REMOVE | SFTP_POLICY_MKDIR | SFTP_POLICY_RMDIR | SFTP_POLICY_RENAME
| SFTP_POLICY_FSTAT | SFTP_POLICY_FSETSTAT | SFTP_POLICY_FSYNC | SFTP_POLICY_HARDLINK
| SFTP_POLICY_STATVFS | SFTP_POLICY_FSTATVFS.

Record sftp_policy_request : Type := mk_policy_request {
  po_operation : sftp_policy_operation;
  po_path : list Z;
  po_new_path : option (list Z);
  po_pflags : Z;
  po_offset : Z;
  po_length : Z;
  po_attrs : option ssh_fs_attrs
}.

Record ssh_fs_dirent : Type := mk_dirent {
  dirent_filename : option (list Z);
  dirent_longname : option (list Z);
  dirent_attrs : ssh_fs_attrs
}.

Record ssh_fs_statvfs : Type := mk_statvfs {
  vfs_bsize : Z; vfs_frsize : Z; vfs_blocks : Z; vfs_bfree : Z; vfs_bavail : Z; vfs_files : Z;
  vfs_ffree : Z; vfs_favail : Z; vfs_fsid : Z; vfs_flag : Z; vfs_namemax : Z
}.

(** Which entries of [ssh_fs_api_t] are set; what they do is up to the
    environment. *)
Record ssh_fs_api : Type := mk_fs_api {
  fs_open : bool; fs_close : bool; fs_read : bool; fs_write : bool; fs_read_at : bool;
  fs_write_at : bool; fs_stat : bool; fs_lstat : bool; fs_setstat : bool; fs_fsetstat : bool;
  fs_opendir : bool; fs_readdir : bool; fs_closedir : bool; fs_mkdir : bool; fs_rmdir : bool;
  fs_remove : bool; fs_rename : bool; fs_posix_rename : bool; fs_fsync : bool;
  fs_hardlink : bool; fs_statvfs : bool; fs_fstatvfs : bool
}.

(** [fs_handle] is the pointer the file system returned, 0 when it is null. *)
Record sftp_handle_entry : Type := mk_entry {
  entry_in_use : bool;
  entry_kind : Z;
  entry_wire_handle : list Z;
  entry_wire_handle_len : Z;
  entry_fs_handle : Z;
  entry_pflags : Z;
  entry_path : list Z;
  entry_attrs : ssh_fs_attrs
}.

Definition zero_entry : sftp_handle_entry := mk_entry false 0 [0; 0; 0; 0] 0 0 0 [] zero_attrs.

(** [session_policy]: whether a policy function is set. *)
Record sftp_server_session : Type := mk_session {
  session_fs : option ssh_fs_api;
  session_policy : bool;
  session_next_handle_id : Z;
  session_handles : list sftp_handle_entry
}.

(** ** Callbacks *)
Inductive call : Type :=
| PolicyCheck (r : sftp_policy_request)
| FsOpen (path : list Z) (flags : Z)
| FsClose (h : Z)
| FsRead (h len : Z)
| FsWrite (h : Z) (data : list Z)
| FsReadAt (h offset len : Z)
| FsWriteAt (h offset : Z) (data : list Z)
| FsStat (path : list Z)
| FsLstat (path : list Z)
| FsSetstat (path : list Z) (attrs : ssh_fs_attrs)
| FsFsetstat (h : Z) (attrs : ssh_fs_attrs)
| FsOpendir (path : list Z)
| FsReaddir (h : Z)
| FsClosedir (h : Z)
| FsMkdir (path : list Z) (attrs : ssh_fs_attrs)
| FsRmdir (path : list Z)
| FsRemove (path : list Z)
| FsRename (old_path new_path : list Z)
| FsPosixRename (old_path new_path : list Z)
| FsFsync (h : Z)
| FsHardlink (old_path new_path : list Z)
| FsStatvfs (path : list Z)
| FsFstatvfs (h : Z).

(** The status a callback returns and what it stores through its result
    pointers: the handle of an open; the bytes a read stores in the buffer and
    the count it reports; the count a write reports; attributes ([None] when it
    stores none, as a failing stat may do); a directory entry and the end mark. *)
Definition reply (c : call) : Type :=
  match c with
  | FsOpen _ _ | FsOpendir _ => ssh_status * Z
  | FsRead _ _ | FsReadAt _ _ _ => ssh_status * list Z * Z
  | FsWrite _ _ | FsWriteAt _ _ _ => ssh_status * Z
  | FsStat _ | FsLstat _ => ssh_status * option ssh_fs_attrs
  | FsReaddir _ => ssh_status * ssh_fs_dirent * bool
  | FsStatvfs _ | FsFstatvfs _ => ssh_status * ssh_fs_statvfs
  | _ => ssh_status
  end.

(** A handler: a program on the session and the response memory that may make
    callbacks. *)
Record server_state : Type := mk_server_state {
  st_session : sftp_server_session;
  st_response : option (list Z)
}.

Abbreviation SrvM := (IO call reply server_state).

Definition get_session : SrvM sftp_server_session := fun s => Done (Ret (st_session s), s).
Definition set_session (x : sftp_server_session) : SrvM unit := fun s =>
  Done (Ret tt, mk_server_state x (st_response s)).
(** A program on the response memory. *)
Definition respond {A} (p : OutM A) : SrvM A := fun s =>
  let '(o, m) := p (st_response s) in Done (o, mk_server_state (st_session s) m).
(** A call of a request decoder on a local structure: the status it failed with,
    if it did, and the structure. *)
Definition decode_request {T} (p : Prog T unit) (t : T) : SrvM (option ssh_status * T) := fun s =>
  match p t with
  | (Ret _, t') => Done (Ret (None, t'), s)
  | (Err e, t') => Done (Ret (Some e, t'), s)
  | (Fault, t') => Done (Fault, s)
  end.
Definition decoded {T} (d : option ssh_status * T) : SrvM T :=
  match fst d with Some e => io_fail e | None => mret (snd d) end.
(** [status = f(...); if (status != SSH_OK) ...] inside such a chain. *)
Definition check (status : ssh_status) : SrvM unit :=
  if status_bad status then io_fail status else mret tt.

(** ** Helpers *)
Definition status_from_error (status : ssh_status) : Z :=
  match status with
  | SSH_OK => SSH_FX_OK
  | SSH_ERR_UNSUPPORTED => SSH_FX_OP_UNSUPPORTED
  | SSH_ERR_SECURITY => SSH_FX_PERMISSION_DENIED
  | SSH_ERR_READ_ONLY => SSH_FX_PERMISSION_DENIED
  | SSH_ERR_NOT_FOUND => SSH_FX_NO_SUCH_FILE
  | SSH_ERR_MALFORMED_PACKET | SSH_ERR_INVALID_ARGUMENT => SSH_FX_BAD_MESSAGE
  | _ => SSH_FX_FAILURE
  end.

Definition status_message_from_error (status : ssh_status) (fallback : string) : string :=
  match status with
  | SSH_OK => "ok"
  | SSH_ERR_UNSUPPORTED => "unsupported"
  | SSH_ERR_SECURITY => "permission denied"
  | SSH_ERR_READ_ONLY => "read only"
  | SSH_ERR_NOT_FOUND => "not found"
  | SSH_ERR_ALREADY_EXISTS => "already exists"
  | SSH_ERR_DIR_NOT_EMPTY => "directory not empty"
  | SSH_ERR_BUFFER_TOO_SMALL => "buffer too small"
  | SSH_ERR_BUFFER_OVERFLOW => "buffer overflow"
  | SSH_ERR_MALFORMED_PACKET | SSH_ERR_INVALID_ARGUMENT => "bad request"
  | SSH_ERR_PLATFORM => "platform error"
  | SSH_ERR_BUFFER_UNDERFLOW | SSH_ERR_CLOSED => fallback
  end.

Definition open_pflags_are_valid (pflags : Z) : bool :=
  let known_flags := Z.lor (Z.lor (Z.lor (Z.lor (Z.lor SSH_FXF_READ SSH_FXF_WRITE) SSH_FXF_APPEND)
                       SSH_FXF_CREAT) SSH_FXF_TRUNC) SSH_FXF_EXCL in
  let write_only_flags := Z.lor (Z.lor (Z.lor SSH_FXF_APPEND SSH_FXF_CREAT) SSH_FXF_TRUNC)
                            SSH_FXF_EXCL in
  if has_flag pflags (u32 (Z.lnot known_flags)) then false else
  if negb (has_flag pflags (Z.lor SSH_FXF_READ SSH_FXF_WRITE)) then false else
  if has_flag pflags write_only_flags && negb (has_flag pflags SSH_FXF_WRITE) then false else
  if has_flag pflags SSH_FXF_EXCL && negb (has_flag pflags SSH_FXF_CREAT) then false else
  true.

(** ** The handle table *)
Definition handle_equals (entry : sftp_handle_entry) (handle : ssh_string_view) : bool :=
  entry_in_use entry && (entry_wire_handle_len entry =? view_len handle)
  && negb (is_null (view_data handle))
  && bytes_eqb (ztake (view_len handle) (entry_wire_handle entry)) (view_bytes handle).

(** The index of the first entry that satisfies a test, and the entry. *)
Fixpoint find_entry (f : sftp_handle_entry -> bool) (i : nat) (l : list sftp_handle_entry)
    : option (nat * sftp_handle_entry) :=
  match l with
  | [] => None
  | e :: l' => if f e then Some (i, e) else find_entry f (S i) l'
  end.

Definition find_handle (session : sftp_server_session) (handle : ssh_string_view)
    : option (nat * sftp_handle_entry) :=
  find_entry (fun e => handle_equals e handle) 0 (session_handles session).

Definition set_entry (i : nat) (e : sftp_handle_entry) (session : sftp_server_session)
    : sftp_server_session :=
  mk_session (session_fs session) (session_policy session) (session_next_handle_id session)
    (<[i := e]> (session_handles session)).

Definition alloc_handle (session : sftp_server_session) (fs_handle kind pflags : Z)
    (path : list Z) (attrs : ssh_fs_attrs) : option (sftp_handle_entry * sftp_server_session) :=
  if fs_handle =? 0 then None else
  if zlen path >=? EMSSH_SFTP_MAX_PATH then None else
  match find_entry (fun e => negb (entry_in_use e)) 0 (session_handles session) with
  | None => None
  | Some (i, _) =>
    let id := session_next_handle_id session in
    let next := u32 (id + 1) in
    let next := if next =? 0 then 1 else next in
    let entry := mk_entry true kind (write_u32_be id) 4 fs_handle pflags path attrs in
    Some (entry, mk_session (session_fs session) (session_policy session) next
                   (<[i := entry]> (session_handles session)))
  end.

(** [session->fs != NULL && session->fs->f != NULL] *)
Definition fs_has (f : ssh_fs_api -> bool) (session : sftp_server_session) : bool :=
  match session_fs session with Some api => f api | None => false end.

Definition close_entry (i : nat) : SrvM ssh_status :=
  session ← get_session;
  match session_handles session !! i with
  | None => mret SSH_ERR_INVALID_ARGUMENT
  | Some entry =>
    if negb (entry_in_use entry) then mret SSH_ERR_INVALID_ARGUMENT else
    status ← (if fs_has (fun _ => true) session && (entry_kind entry =? SFTP_HANDLE_KIND_DIR)
                 && fs_has fs_closedir session
              then perform (FsClosedir (entry_fs_handle entry))
              else if fs_has (fun _ => true) session && (entry_kind entry =? SFTP_HANDLE_KIND_FILE)
                      && fs_has fs_close session
              then perform (FsClose (entry_fs_handle entry))
              else mret SSH_OK);
    set_session (set_entry i zero_entry session);;
    mret status
  end.

Definition update_file_size_after_write (entry : sftp_handle_entry) (offset written_len : Z)
    : sftp_handle_entry :=
  if (written_len =? 0) || (written_len >? UINT64_MAX - offset) then entry else
  let end_offset := u64 (offset + written_len) in
  let a := entry_attrs entry in
  if negb (has_flag (attr_flags a) SSH_FILEXFER_ATTR_SIZE) || (end_offset >? attr_size a) then
    mk_entry (entry_in_use entry) (entry_kind entry) (entry_wire_handle entry)
      (entry_wire_handle_len entry) (entry_fs_handle entry) (entry_pflags entry) (entry_path entry)
      (mk_attrs (Z.lor (attr_flags a) SSH_FILEXFER_ATTR_SIZE) end_offset (attr_uid a) (attr_gid a)
         (attr_permissions a) (attr_atime a) (attr_mtime a))
  else entry.

Definition with_attrs (a : ssh_fs_attrs) (entry : sftp_handle_entry) : sftp_handle_entry :=
  mk_entry (entry_in_use entry) (entry_kind entry) (entry_wire_handle entry)
    (entry_wire_handle_len entry) (entry_fs_handle entry) (entry_pflags entry) (entry_path entry) a.

Definition merge_attrs (dst src : ssh_fs_attrs) : ssh_fs_attrs :=
  let take {A} bit (x y : A) := if has_flag (attr_flags src) bit then x else y in
  mk_attrs (Z.lor (attr_flags dst) (attr_flags src))
    (take SSH_FILEXFER_ATTR_SIZE (attr_size src) (attr_size dst))
    (take SSH_FILEXFER_ATTR_UIDGID (attr_uid src) (attr_uid dst))
    (take SSH_FILEXFER_ATTR_UIDGID (attr_gid src) (attr_gid dst))
    (take SSH_FILEXFER_ATTR_PERMISSIONS (attr_permissions src) (attr_permissions dst))
    (take SSH_FILEXFER_ATTR_ACMODTIME (attr_atime src) (attr_atime dst))
    (take SSH_FILEXFER_ATTR_ACMODTIME (attr_mtime src) (attr_mtime dst)).

(** ** Policy and responses *)
Definition policy_check (operation : sftp_policy_operation) (path : list Z)
    (new_path : option (list Z)) (pflags offset length : Z) (attrs : option ssh_fs_attrs)
    : SrvM ssh_status :=
  session ← get_session;
  if negb (session_policy session) then mret SSH_OK
  else perform (PolicyCheck (mk_policy_request operation path new_path pflags offset length attrs)).

Definition encode_status (response_capacity request_id status_code : Z) (message : string) : SrvM Z :=
  respond (sftp_status_encode response_capacity request_id status_code
             (Some (cstr message)) (Some [])).

Definition store_at (off : Z) (bs : list Z) : OutM unit := fun out =>
  match out with
  | Some mem =>
    match mem_write mem off bs with Some mem' => (Ret tt, Some mem') | None => (Fault, out) end
  | None => (Fault, out)
  end.

Definition finish_data_response_in_place (response_capacity request_id data_len : Z) : OutM Z :=
  fun out =>
  (reject (is_null out || (data_len >? UINT32_MAX - 9)
           || (response_capacity <? SFTP_DATA_RESPONSE_OVERHEAD)
           || (data_len >? response_capacity - SFTP_DATA_RESPONSE_OVERHEAD))
     SSH_ERR_BUFFER_TOO_SMALL;;
   store_at 0 (write_u32_be (u32 (data_len + 9)));;
   store_at 4 [SSH_FXP_DATA];;
   store_at 5 (write_u32_be request_id);;
   store_at 9 (write_u32_be (u32 data_len));;
   mret (data_len + SFTP_DATA_RESPONSE_OVERHEAD)) out.

(** [view_equals_cstring]: the same comparison as [view_eq] of the other files. *)
Definition view_equals_cstring (view : ssh_string_view) (text : string) : bool :=
  view_eq view (Some (cstr text)).

(** The two writers of this file frame their payload like the ones of sftp.c,
    but store its length without the check of [packet_finish]. *)
Definition frame_payload (response_capacity : Z) (writes : BufM unit) : OutM Z := fun out =>
  match out with
  | None => (Err SSH_ERR_INVALID_ARGUMENT, out)
  | Some mem =>
    if response_capacity <? 4 then (Err SSH_ERR_BUFFER_TOO_SMALL, out) else
    let '(o, payload) :=
      writes (ssh_buffer_init uninit_buffer (Some (zdrop 4 mem)) (response_capacity - 4)) in
    let mem' := ztake 4 mem ++ default [] (ssh_buffer_data payload) in
    match o with
    | Ret _ =>
      (store_at 0 (write_u32_be (u32 (ssh_buffer_len payload)));;
       mret (ssh_buffer_len payload + 4)) (Some mem')
    | Err e => (Err e, Some mem')
    | Fault => (Fault, Some mem')
    end
  end.

Definition put_extension (advertise : bool) (name version : string) : BufM unit :=
  if advertise then
    ssh_buffer_put_cstring (Some (cstr name));; ssh_buffer_put_cstring (Some (cstr version))
  else mret tt.

Definition encode_server_version (response_capacity : Z)
    (advertise_posix_rename advertise_fsync advertise_hardlink advertise_statvfs
     advertise_fstatvfs : bool) : OutM Z :=
  frame_payload response_capacity
    (ssh_buffer_put_u8 SSH_FXP_VERSION;;
     ssh_buffer_put_u32 SFTP_VERSION_3;;
     put_extension advertise_posix_rename "posix-rename@openssh.com" "1";;
     put_extension advertise_fsync "fsync@openssh.com" "1";;
     put_extension advertise_hardlink "hardlink@openssh.com" "1";;
     put_extension advertise_statvfs "statvfs@openssh.com" "2";;
     put_extension advertise_fstatvfs "fstatvfs@openssh.com" "2").

Definition encode_statvfs_reply (response_capacity request_id : Z) (stats : ssh_fs_statvfs)
    : OutM Z :=
  frame_payload response_capacity
    (ssh_buffer_put_u8 SSH_FXP_EXTENDED_REPLY;;
     ssh_buffer_put_u32 request_id;;
     ssh_buffer_put_u64 (vfs_bsize stats);;
     ssh_buffer_put_u64 (vfs_frsize stats);;
     ssh_buffer_put_u64 (vfs_blocks stats);;
     ssh_buffer_put_u64 (vfs_bfree stats);;
     ssh_buffer_put_u64 (vfs_bavail stats);;
     ssh_buffer_put_u64 (vfs_files stats);;
     ssh_buffer_put_u64 (vfs_ffree stats);;
     ssh_buffer_put_u64 (vfs_favail stats);;
     ssh_buffer_put_u64 (vfs_fsid stats);;
     ssh_buffer_put_u64 (vfs_flag stats);;
     ssh_buffer_put_u64 (vfs_namemax stats)).

(** ** Handlers

    [request] and [request_len] are the packet, [response_capacity] the size of
    the response buffer.  [reply_status] is the [encode_status] call of a handler
    that ends in a chain of statuses. *)
Section handlers.
Variables (request : option (list Z)) (request_len response_capacity : Z).

Definition reply_status (request_id : Z) (status : ssh_status) (fallback : string) : SrvM Z :=
  encode_status response_capacity request_id (status_from_error status)
    (status_message_from_error status fallback).

Definition handle_init : SrvM Z :=
  session ← get_session;
  match sftp_init_decode request request_len with
  | Fault => of_outcome Fault
  | Err _ => encode_status response_capacity 0 SSH_FX_BAD_MESSAGE "bad init"
  | Ret _ =>
    respond (encode_server_version response_capacity
      (fs_has fs_posix_rename session) (fs_has fs_fsync session) (fs_has fs_hardlink session)
      (fs_has fs_statvfs session) (fs_has fs_fstatvfs session))
  end.

Definition handle_realpath : SrvM Z :=
  d ← decode_request (sftp_realpath_request_decode request request_len) (mk_path_request 0 null_view);
  let '(failed, realpath) := d in
  if negb (is_null failed) then
    encode_status response_capacity 0 SSH_FX_BAD_MESSAGE "bad realpath" else
  p ← attempt (of_outcome (copy_path (path_path realpath)));
  match p with
  | inl status =>
    encode_status response_capacity (path_id realpath) (status_from_error status) "bad path"
  | inr path =>
    status ← policy_check SFTP_POLICY_REALPATH path None 0 0 0 None;
    if status_bad status then
      encode_status response_capacity (path_id realpath) (status_from_error status) "realpath denied"
    else
    r ← attempt (of_outcome (make_realpath_reply_path path));
    match r with
    | inl status =>
      encode_status response_capacity (path_id realpath) (status_from_error status)
        "realpath reply failed"
    | inr reply_path =>
      respond (sftp_name_one_encode response_capacity (path_id realpath)
                 (Some reply_path) (Some reply_path))
    end
  end.

Definition handle_path_attrs (packet_type : Z) : SrvM Z :=
  let lstat := packet_type =? SSH_FXP_LSTAT in
  d ← decode_request
        (if lstat then sftp_lstat_request_decode request request_len
         else sftp_stat_request_decode request request_len) (mk_path_request 0 null_view);
  let '(failed, attrs_request) := d in
  if negb (is_null failed) then
    encode_status response_capacity 0 SSH_FX_BAD_MESSAGE "bad stat" else
  session ← get_session;
  if is_null (session_fs session) || (lstat && negb (fs_has fs_lstat session))
     || ((packet_type =? SSH_FXP_STAT) && negb (fs_has fs_stat session))
  then encode_status response_capacity (path_id attrs_request) SSH_FX_OP_UNSUPPORTED
         "stat unsupported"
  else
  r ← attempt (
    path ← of_outcome (copy_path (path_path attrs_request));
    status ← policy_check SFTP_POLICY_STAT path None 0 0 0 None;
    check status;;
    st ← (if lstat then perform (FsLstat path) else perform (FsStat path));
    check (fst st);;
    mret (default zero_attrs (snd st)));
  match r with
  | inl status => reply_status (path_id attrs_request) status "stat failed"
  | inr attrs => respond (sftp_attrs_encode response_capacity (path_id attrs_request) (Some attrs))
  end.

(** The end of the two open handlers: enter the file system's handle into the
    table, or close it again. *)
Definition finish_open (request_id fs_handle kind pflags : Z) (path : list Z)
    (attrs : ssh_fs_attrs) (can_close : bool) (close : SrvM ssh_status) : SrvM Z :=
  session ← get_session;
  match alloc_handle session fs_handle kind pflags path attrs with
  | None =>
    (if can_close then close;; mret tt else mret tt);;
    encode_status response_capacity request_id SSH_FX_FAILURE "no handles"
  | Some (entry, session') =>
    set_session session';;
    respond (sftp_handle_encode response_capacity request_id
               (Some (entry_wire_handle entry)) (entry_wire_handle_len entry))
  end.

(** [open_attrs.flags &= ~SSH_FILEXFER_ATTR_SIZE;] *)
Definition without_size (a : ssh_fs_attrs) : ssh_fs_attrs :=
  mk_attrs (Z.land (attr_flags a) (u32 (Z.lnot SSH_FILEXFER_ATTR_SIZE))) (attr_size a) (attr_uid a)
    (attr_gid a) (attr_permissions a) (attr_atime a) (attr_mtime a).

Definition handle_open : SrvM Z :=
  d ← decode_request (sftp_open_request_decode request request_len)
        (mk_open_request 0 null_view 0 null_view);
  let '(failed, open_request) := d in
  let id := open_id open_request in
  let pflags := open_pflags open_request in
  if negb (is_null failed) then
    encode_status response_capacity 0 SSH_FX_BAD_MESSAGE "bad open" else
  session ← get_session;
  if negb (fs_has fs_open session) then
    encode_status response_capacity id SSH_FX_OP_UNSUPPORTED "open unsupported" else
  p ← attempt (of_outcome (copy_path (open_filename open_request)));
  match p with
  | inl status => encode_status response_capacity id (status_from_error status) "bad path"
  | inr path =>
    if negb (open_pflags_are_valid pflags) then
      encode_status response_capacity id SSH_FX_BAD_MESSAGE "bad open flags" else
    d ← decode_request (sftp_attrs_decode (open_attrs open_request)) zero_attrs;
    let '(failed, requested_attrs) := d in
    if negb (is_null failed) then
      encode_status response_capacity id (status_from_error (default SSH_OK failed)) "bad attrs" else
    if negb (attr_flags requested_attrs =? 0) && negb (has_flag pflags SSH_FXF_WRITE) then
      encode_status response_capacity id SSH_FX_PERMISSION_DENIED "open attrs denied" else
    let open_attrs := without_size requested_attrs in
    if negb (attr_flags open_attrs =? 0) && negb (fs_has fs_fsetstat session) then
      encode_status response_capacity id SSH_FX_OP_UNSUPPORTED "open attrs unsupported" else
    status ← policy_check SFTP_POLICY_OPEN path None pflags 0 0 (Some requested_attrs);
    if status_bad status then
      encode_status response_capacity id (status_from_error status) "open denied" else
    opened ← perform (FsOpen path pflags);
    let '(status, fs_handle) := opened : ssh_status * Z in
    if status_bad status then reply_status id status "open failed" else
    let close := perform (FsClose fs_handle) : SrvM ssh_status in
    status ← (if negb (attr_flags open_attrs =? 0)
              then perform (FsFsetstat fs_handle open_attrs) else mret SSH_OK);
    if status_bad status then
      (if fs_has fs_close session then close;; mret tt else mret tt);;
      reply_status id status "open attrs failed"
    else
    attrs ← (if fs_has fs_stat session
             then st ← perform (FsStat path); mret (default open_attrs (snd st))
             else mret open_attrs);
    finish_open id fs_handle SFTP_HANDLE_KIND_FILE pflags path attrs (fs_has fs_close session) close
  end.

Definition handle_close : SrvM Z :=
  d ← decode_request (sftp_close_request_decode request request_len) (mk_handle_request 0 null_view);
  let '(failed, close_request) := d in
  if negb (is_null failed) then
    encode_status response_capacity 0 SSH_FX_BAD_MESSAGE "bad close" else
  session ← get_session;
  match find_handle session (handle_handle close_request) with
  | None => encode_status response_capacity (handle_id close_request) SSH_FX_FAILURE "bad handle"
  | Some (i, _) =>
    status ← close_entry i;
    reply_status (handle_id close_request) status "close failed"
  end.

Definition handle_fstat : SrvM Z :=
  d ← decode_request (sftp_fstat_request_decode request request_len) (mk_handle_request 0 null_view);
  let '(failed, fstat_request) := d in
  let id := handle_id fstat_request in
  if negb (is_null failed) then
    encode_status response_capacity 0 SSH_FX_BAD_MESSAGE "bad fstat" else
  session ← get_session;
  match find_handle session (handle_handle fstat_request) with
  | None => encode_status response_capacity id SSH_FX_FAILURE "bad handle"
  | Some (i, entry) =>
    status ← policy_check SFTP_POLICY_FSTAT (entry_path entry) None 0 0 0 None;
    if status_bad status then
      encode_status response_capacity id (status_from_error status) "fstat denied" else
    entry ← (if fs_has fs_stat session && negb (bytes_eqb (entry_path entry) []) then
               st ← perform (FsStat (entry_path entry));
               if negb (status_bad (fst st)) then
                 let refreshed := with_attrs (default zero_attrs (snd st)) entry in
                 set_session (set_entry i refreshed session);; mret refreshed
               else mret entry
             else mret entry);
    if attr_flags (entry_attrs entry) =? 0 then
      encode_status response_capacity id SSH_FX_OP_UNSUPPORTED "fstat unsupported"
    else respond (sftp_attrs_encode response_capacity id (Some (entry_attrs entry)))
  end.

Definition handle_setstat : SrvM Z :=
  d ← decode_request (sftp_setstat_request_decode request request_len)
        (mk_setstat_request 0 null_view zero_attrs);
  let '(failed, setstat_request) := d in
  let id := setstat_id setstat_request in
  if negb (is_null failed) then
    encode_status response_capacity id (status_from_error (default SSH_OK failed)) "bad setstat" else
  session ← get_session;
  if negb (fs_has fs_setstat session) then
    encode_status response_capacity id SSH_FX_OP_UNSUPPORTED "setstat unsupported" else
  r ← attempt (
    path ← of_outcome (copy_path (setstat_path setstat_request));
    status ← policy_check SFTP_POLICY_SETSTAT path None 0 0 0 (Some (setstat_attrs setstat_request));
    check status;;
    status ← perform (FsSetstat path (setstat_attrs setstat_request));
    check status);
  reply_status id (match r with inl status => status | inr _ => SSH_OK end) "setstat failed".

Definition handle_fsetstat : SrvM Z :=
  d ← decode_request (sftp_fsetstat_request_decode request request_len)
        (mk_fsetstat_request 0 null_view zero_attrs);
  let '(failed, fsetstat_request) := d in
  let id := fsetstat_id fsetstat_request in
  let attrs := fsetstat_attrs fsetstat_request in
  if negb (is_null failed) then
    encode_status response_capacity id (status_from_error (default SSH_OK failed)) "bad fsetstat" else
  session ← get_session;
  if negb (fs_has fs_fsetstat session) then
    encode_status response_capacity id SSH_FX_OP_UNSUPPORTED "fsetstat unsupported" else
  match find_handle session (fsetstat_handle fsetstat_request) with
  | None => encode_status response_capacity id SSH_FX_FAILURE "bad handle"
  | Some (i, entry) =>
    if negb (entry_kind entry =? SFTP_HANDLE_KIND_FILE) then
      encode_status response_capacity id SSH_FX_FAILURE "bad handle" else
    if negb (has_flag (entry_pflags entry) SSH_FXF_WRITE) then
      encode_status response_capacity id SSH_FX_PERMISSION_DENIED "fsetstat denied" else
    status ← policy_check SFTP_POLICY_FSETSTAT (entry_path entry) None (entry_pflags entry) 0 0
               (Some attrs);
    if status_bad status then
      encode_status response_capacity id (status_from_error status) "fsetstat denied" else
    status ← perform (FsFsetstat (entry_fs_handle entry) attrs);
    (if negb (status_bad status) then
       set_session (set_entry i (with_attrs (merge_attrs (entry_attrs entry) attrs) entry) session)
     else mret tt);;
    reply_status id status "fsetstat failed"
  end.

Definition handle_read : SrvM Z :=
  d ← decode_request (sftp_read_request_decode request request_len) (mk_read_request 0 null_view 0 0);
  let '(failed, read_request) := d in
  let id := read_id read_request in
  if negb (is_null failed) then
    encode_status response_capacity 0 SSH_FX_BAD_MESSAGE "bad read" else
  session ← get_session;
  if negb (fs_has fs_read session) && negb (fs_has fs_read_at session) then
    encode_status response_capacity id SSH_FX_OP_UNSUPPORTED "read unsupported" else
  match find_handle session (read_handle read_request) with
  | None => encode_status response_capacity id SSH_FX_FAILURE "bad handle"
  | Some (_, entry) =>
    if negb (entry_kind entry =? SFTP_HANDLE_KIND_FILE) then
      encode_status response_capacity id SSH_FX_FAILURE "bad handle" else
    if negb (has_flag (entry_pflags entry) SSH_FXF_READ) then
      encode_status response_capacity id SSH_FX_PERMISSION_DENIED "read denied" else
    if response_capacity <=? SFTP_DATA_RESPONSE_OVERHEAD then io_fail SSH_ERR_BUFFER_TOO_SMALL else
    let data_capacity := response_capacity - SFTP_DATA_RESPONSE_OVERHEAD in
    let wanted := if read_len read_request <? EMSSH_SFTP_MAX_IO then read_len read_request
                  else EMSSH_SFTP_MAX_IO in
    let wanted := if wanted >? data_capacity then data_capacity else wanted in
    status ← policy_check SFTP_POLICY_READ (entry_path entry) None (entry_pflags entry)
               (read_offset read_request) wanted None;
    if status_bad status then
      encode_status response_capacity id (status_from_error status) "read denied" else
    r ← (if fs_has fs_read_at session
         then perform (FsReadAt (entry_fs_handle entry) (read_offset read_request) wanted)
         else perform (FsRead (entry_fs_handle entry) wanted));
    let '(status, data, read_len) := r : ssh_status * list Z * Z in
    respond (store_at SFTP_DATA_RESPONSE_OVERHEAD data);;
    if status_bad status then reply_status id status "read failed" else
    if read_len >? wanted then
      encode_status response_capacity id SSH_FX_FAILURE "invalid read length" else
    if read_len =? 0 then encode_status response_capacity id SSH_FX_EOF "eof" else
    respond (finish_data_response_in_place response_capacity id read_len)
  end.

Definition handle_opendir : SrvM Z :=
  d ← decode_request (sftp_opendir_request_decode request request_len) (mk_path_request 0 null_view);
  let '(failed, opendir_request) := d in
  let id := path_id opendir_request in
  if negb (is_null failed) then
    encode_status response_capacity 0 SSH_FX_BAD_MESSAGE "bad opendir" else
  session ← get_session;
  if negb (fs_has fs_opendir session) then
    encode_status response_capacity id SSH_FX_OP_UNSUPPORTED "opendir unsupported" else
  p ← attempt (of_outcome (copy_path (path_path opendir_request)));
  match p with
  | inl status => encode_status response_capacity id (status_from_error status) "bad path"
  | inr path =>
    status ← policy_check SFTP_POLICY_OPENDIR path None 0 0 0 None;
    if status_bad status then
      encode_status response_capacity id (status_from_error status) "opendir denied" else
    opened ← perform (FsOpendir path);
    let '(status, fs_handle) := opened : ssh_status * Z in
    if status_bad status then reply_status id status "opendir failed" else
    attrs ← (if fs_has fs_stat session
             then st ← perform (FsStat path); mret (default zero_attrs (snd st))
             else mret zero_attrs);
    finish_open id fs_handle SFTP_HANDLE_KIND_DIR 0 path attrs (fs_has fs_closedir session)
      (perform (FsClosedir fs_handle))
  end.

Definition handle_readdir : SrvM Z :=
  d ← decode_request (sftp_readdir_request_decode request request_len) (mk_handle_request 0 null_view);
  let '(failed, readdir_request) := d in
  let id := handle_id readdir_request in
  if negb (is_null failed) then
    encode_status response_capacity 0 SSH_FX_BAD_MESSAGE "bad readdir" else
  session ← get_session;
  if negb (fs_has fs_readdir session) then
    encode_status response_capacity id SSH_FX_OP_UNSUPPORTED "readdir unsupported" else
  match find_handle session (handle_handle readdir_request) with
  | None => encode_status response_capacity id SSH_FX_FAILURE "bad handle"
  | Some (_, entry) =>
    if negb (entry_kind entry =? SFTP_HANDLE_KIND_DIR) then
      encode_status response_capacity id SSH_FX_FAILURE "bad handle" else
    status ← policy_check SFTP_POLICY_READDIR (entry_path entry) None 0 0 0 None;
    if status_bad status then
      encode_status response_capacity id (status_from_error status) "readdir denied" else
    r ← perform (FsReaddir (entry_fs_handle entry));
    let '(status, dirent, eof) := r : ssh_status * ssh_fs_dirent * bool in
    if status_bad status then reply_status id status "readdir failed" else
    if eof then encode_status response_capacity id SSH_FX_EOF "eof" else
    if is_null (dirent_filename dirent) then
      encode_status response_capacity id SSH_FX_FAILURE "bad dirent" else
    respond (sftp_name_one_attrs_encode response_capacity id (dirent_filename dirent)
               (dirent_longname dirent) (Some (dirent_attrs dirent)))
  end.

Definition handle_write : SrvM Z :=
  d ← decode_request (sftp_write_request_decode request request_len)
        (mk_write_request 0 null_view 0 null_view);
  let '(failed, write_request) := d in
  let id := write_id write_request in
  let data := write_data write_request in
  if negb (is_null failed) then
    encode_status response_capacity 0 SSH_FX_BAD_MESSAGE "bad write" else
  session ← get_session;
  if negb (fs_has fs_write session) && negb (fs_has fs_write_at session) then
    encode_status response_capacity id SSH_FX_OP_UNSUPPORTED "write unsupported" else
  match find_handle session (write_handle write_request) with
  | None => encode_status response_capacity id SSH_FX_FAILURE "bad handle"
  | Some (i, entry) =>
    if negb (entry_kind entry =? SFTP_HANDLE_KIND_FILE) then
      encode_status response_capacity id SSH_FX_FAILURE "bad handle" else
    if negb (has_flag (entry_pflags entry) SSH_FXF_WRITE) then
      encode_status response_capacity id SSH_FX_PERMISSION_DENIED "write denied" else
    status ← policy_check SFTP_POLICY_WRITE (entry_path entry) None (entry_pflags entry)
               (write_offset write_request) (view_len data) None;
    if status_bad status then
      encode_status response_capacity id (status_from_error status) "write denied" else
    let used_write_at := fs_has fs_write_at session in
    r ← (if used_write_at
         then perform (FsWriteAt (entry_fs_handle entry) (write_offset write_request) (view_bytes data))
         else perform (FsWrite (entry_fs_handle entry) (view_bytes data)));
    let '(status, written_len) := r : ssh_status * Z in
    if status_bad status then reply_status id status "write failed" else
    if negb (written_len =? view_len data) then
      encode_status response_capacity id SSH_FX_FAILURE "short write" else
    (if used_write_at then
       set_session (set_entry i
         (update_file_size_after_write entry (write_offset write_request) written_len) session)
     else mret tt);;
    encode_status response_capacity id SSH_FX_OK "ok"
  end.

Definition handle_remove : SrvM Z :=
  d ← decode_request (sftp_remove_request_decode request request_len) (mk_path_request 0 null_view);
  let '(failed, remove_request) := d in
  let id := path_id remove_request in
  if negb (is_null failed) then
    encode_status response_capacity 0 SSH_FX_BAD_MESSAGE "bad remove" else
  session ← get_session;
  if negb (fs_has fs_remove session) then
    encode_status response_capacity id SSH_FX_OP_UNSUPPORTED "remove unsupported" else
  r ← attempt (
    path ← of_outcome (copy_path (path_path remove_request));
    status ← policy_check SFTP_POLICY_REMOVE path None 0 0 0 None;
    check status;;
    status ← perform (FsRemove path);
    check status);
  reply_status id (match r with inl status => status | inr _ => SSH_OK end) "remove failed".

Definition handle_mkdir : SrvM Z :=
  d ← decode_request (sftp_mkdir_request_decode request request_len)
        (mk_mkdir_request 0 null_view null_view);
  let '(failed, mkdir_request) := d in
  let id := mkdir_id mkdir_request in
  if negb (is_null failed) then
    encode_status response_capacity 0 SSH_FX_BAD_MESSAGE "bad mkdir" else
  session ← get_session;
  if negb (fs_has fs_mkdir session) then
    encode_status response_capacity id SSH_FX_OP_UNSUPPORTED "mkdir unsupported" else
  r ← attempt (
    path ← of_outcome (copy_path (mkdir_path mkdir_request));
    d ← decode_request (sftp_attrs_decode (mkdir_attrs mkdir_request)) zero_attrs;
    attrs ← decoded d;
    status ← policy_check SFTP_POLICY_MKDIR path None 0 0 0 (Some attrs);
    check status;;
    status ← perform (FsMkdir path attrs);
    check status);
  reply_status id (match r with inl status => status | inr _ => SSH_OK end) "mkdir failed".

Definition handle_rmdir : SrvM Z :=
  d ← decode_request (sftp_rmdir_request_decode request request_len) (mk_path_request 0 null_view);
  let '(failed, rmdir_request) := d in
  let id := path_id rmdir_request in
  if negb (is_null failed) then
    encode_status response_capacity 0 SSH_FX_BAD_MESSAGE "bad rmdir" else
  session ← get_session;
  if negb (fs_has fs_rmdir session) then
    encode_status response_capacity id SSH_FX_OP_UNSUPPORTED "rmdir unsupported" else
  r ← attempt (
    path ← of_outcome (copy_path (path_path rmdir_request));
    status ← policy_check SFTP_POLICY_RMDIR path None 0 0 0 None;
    check status;;
    status ← perform (FsRmdir path);
    check status);
  reply_status id (match r with inl status => status | inr _ => SSH_OK end) "rmdir failed".

Definition handle_rename : SrvM Z :=
  d ← decode_request (sftp_rename_request_decode request request_len)
        (mk_rename_request 0 null_view null_view);
  let '(failed, rename_request) := d in
  let id := rename_id rename_request in
  if negb (is_null failed) then
    encode_status response_capacity 0 SSH_FX_BAD_MESSAGE "bad rename" else
  session ← get_session;
  if negb (fs_has fs_rename session) then
    encode_status response_capacity id SSH_FX_OP_UNSUPPORTED "rename unsupported" else
  r ← attempt (
    old_path ← of_outcome (copy_path (rename_old_path rename_request));
    new_path ← of_outcome (copy_path (rename_new_path rename_request));
    status ← policy_check SFTP_POLICY_RENAME old_path (Some new_path) 0 0 0 None;
    check status;;
    status ← perform (FsRename old_path new_path);
    status ← (if bool_decide (status = SSH_ERR_ALREADY_EXISTS) && fs_has fs_posix_rename session
              then perform (FsPosixRename old_path new_path) else mret status);
    check status);
  reply_status id (match r with inl status => status | inr _ => SSH_OK end) "rename failed".

(** *** Extended requests *)

(** The reads of an extended request's payload, to its end. *)
Definition payload_string (payload : ssh_string_view) : outcome ssh_string_view :=
  fst ((v ← ssh_buffer_get_string_view;
        remaining ← remaining_read;
        reject (negb (remaining =? 0)) SSH_ERR_MALFORMED_PACKET;;
        mret v)
       (ssh_buffer_wrap uninit_buffer (view_data payload) (view_len payload))).

Definition payload_strings (payload : ssh_string_view) : outcome (ssh_string_view * ssh_string_view) :=
  fst ((a ← ssh_buffer_get_string_view;
        b ← ssh_buffer_get_string_view;
        remaining ← remaining_read;
        reject (negb (remaining =? 0)) SSH_ERR_MALFORMED_PACKET;;
        mret (a, b))
       (ssh_buffer_wrap uninit_buffer (view_data payload) (view_len payload))).

(** [find_handle], with [SSH_ERR_INVALID_ARGUMENT] for anything but a file. *)
Definition find_file (handle : ssh_string_view) : SrvM sftp_handle_entry :=
  session ← get_session;
  match find_handle session handle with
  | None => io_fail SSH_ERR_INVALID_ARGUMENT
  | Some (_, entry) =>
    if negb (entry_kind entry =? SFTP_HANDLE_KIND_FILE) then io_fail SSH_ERR_INVALID_ARGUMENT
    else mret entry
  end.

Definition handle_fsync_extension (id : Z) (payload : ssh_string_view) : SrvM Z :=
  session ← get_session;
  if negb (fs_has fs_fsync session) then
    encode_status response_capacity id SSH_FX_OP_UNSUPPORTED "fsync unsupported" else
  r ← attempt (
    handle ← of_outcome (payload_string payload);
    entry ← find_file handle;
    status ← policy_check SFTP_POLICY_FSYNC (entry_path entry) None (entry_pflags entry) 0 0 None;
    check status;;
    status ← perform (FsFsync (entry_fs_handle entry));
    check status);
  reply_status id (match r with inl status => status | inr _ => SSH_OK end) "fsync failed".

Definition handle_statvfs_extension (id : Z) (payload : ssh_string_view) : SrvM Z :=
  session ← get_session;
  if negb (fs_has fs_statvfs session) then
    encode_status response_capacity id SSH_FX_OP_UNSUPPORTED "statvfs unsupported" else
  r ← attempt (
    path ← of_outcome (payload_string payload);
    old_path ← of_outcome (copy_path path);
    status ← policy_check SFTP_POLICY_STATVFS old_path None 0 0 0 None;
    check status;;
    v ← perform (FsStatvfs old_path);
    check (fst v);;
    mret (snd v));
  match r with
  | inl status => reply_status id status "statvfs failed"
  | inr stats => respond (encode_statvfs_reply response_capacity id stats)
  end.

Definition handle_fstatvfs_extension (id : Z) (payload : ssh_string_view) : SrvM Z :=
  session ← get_session;
  if negb (fs_has fs_fstatvfs session) then
    encode_status response_capacity id SSH_FX_OP_UNSUPPORTED "fstatvfs unsupported" else
  r ← attempt (
    handle ← of_outcome (payload_string payload);
    entry ← find_file handle;
    status ← policy_check SFTP_POLICY_FSTATVFS (entry_path entry) None (entry_pflags entry) 0 0 None;
    check status;;
    v ← perform (FsFstatvfs (entry_fs_handle entry));
    check (fst v);;
    mret (snd v));
  match r with
  | inl status => reply_status id status "fstatvfs failed"
  | inr stats => respond (encode_statvfs_reply response_capacity id stats)
  end.

Definition handle_hardlink_extension (id : Z) (payload : ssh_string_view) : SrvM Z :=
  session ← get_session;
  if negb (fs_has fs_hardlink session) then
    encode_status response_capacity id SSH_FX_OP_UNSUPPORTED "hardlink unsupported" else
  r ← attempt (
    paths ← of_outcome (payload_strings payload);
    old_path ← of_outcome (copy_path (fst paths));
    new_path ← of_outcome (copy_path (snd paths));
    status ← policy_check SFTP_POLICY_HARDLINK old_path (Some new_path) 0 0 0 None;
    check status;;
    status ← perform (FsHardlink old_path new_path);
    check status);
  reply_status id (match r with inl status => status | inr _ => SSH_OK end) "hardlink failed".

Definition handle_posix_rename_extension (id : Z) (payload : ssh_string_view) : SrvM Z :=
  session ← get_session;
  if negb (fs_has fs_posix_rename session) then
    encode_status response_capacity id SSH_FX_OP_UNSUPPORTED "posix rename unsupported" else
  r ← attempt (
    paths ← of_outcome (payload_strings payload);
    old_path ← of_outcome (copy_path (fst paths));
    new_path ← of_outcome (copy_path (snd paths));
    status ← policy_check SFTP_POLICY_RENAME old_path (Some new_path) 0 0 0 None;
    check status;;
    status ← perform (FsPosixRename old_path new_path);
    check status);
  reply_status id (match r with inl status => status | inr _ => SSH_OK end) "posix rename failed".

Definition handle_extended : SrvM Z :=
  d ← decode_request (sftp_extended_request_decode request request_len)
        (mk_extended_request 0 null_view null_view);
  let '(failed, extended_request) := d in
  let id := extended_id extended_request in
  let name := extended_name extended_request in
  let payload := extended_payload extended_request in
  if negb (is_null failed) then
    encode_status response_capacity 0 SSH_FX_BAD_MESSAGE "bad extended" else
  if view_equals_cstring name "fsync@openssh.com" then handle_fsync_extension id payload else
  if view_equals_cstring name "statvfs@openssh.com" then handle_statvfs_extension id payload else
  if view_equals_cstring name "fstatvfs@openssh.com" then handle_fstatvfs_extension id payload else
  if view_equals_cstring name "hardlink@openssh.com" then handle_hardlink_extension id payload else
  if negb (view_equals_cstring name "posix-rename@openssh.com") then
    encode_status response_capacity id SSH_FX_OP_UNSUPPORTED "extension unsupported"
  else handle_posix_rename_extension id payload.

(** *** The dispatcher *)
Definition handle_unsupported : SrvM Z :=
  match sftp_request_decode request request_len with
  | Ret generic => encode_status response_capacity (req_id generic) SSH_FX_OP_UNSUPPORTED "unsupported"
  | Err _ => encode_status response_capacity 0 SSH_FX_BAD_MESSAGE "bad request"
  | Fault => of_outcome Fault
  end.

Definition handler_of (type : Z) : SrvM Z :=
  if type =? SSH_FXP_INIT then handle_init else
  if type =? SSH_FXP_REALPATH then handle_realpath else
  if (type =? SSH_FXP_LSTAT) || (type =? SSH_FXP_STAT) then handle_path_attrs type else
  if type =? SSH_FXP_OPEN then handle_open else
  if type =? SSH_FXP_CLOSE then handle_close else
  if type =? SSH_FXP_FSTAT then handle_fstat else
  if type =? SSH_FXP_SETSTAT then handle_setstat else
  if type =? SSH_FXP_FSETSTAT then handle_fsetstat else
  if type =? SSH_FXP_OPENDIR then handle_opendir else
  if type =? SSH_FXP_READDIR then handle_readdir else
  if type =? SSH_FXP_READ then handle_read else
  if type =? SSH_FXP_WRITE then handle_write else
  if type =? SSH_FXP_REMOVE then handle_remove else
  if type =? SSH_FXP_MKDIR then handle_mkdir else
  if type =? SSH_FXP_RMDIR then handle_rmdir else
  if type =? SSH_FXP_RENAME then handle_rename else
  if type =? SSH_FXP_EXTENDED then handle_extended else
  handle_unsupported.

Definition sftp_server_handle_packet : SrvM Z := fun s =>
  if is_null request || is_null (st_response s) then Done (Err SSH_ERR_INVALID_ARGUMENT, s) else
  match sftp_packet_wrap request request_len with
  | Fault => Done (Fault, s)
  | Err _ => encode_status response_capacity 0 SSH_FX_BAD_MESSAGE "bad packet" s
  | Ret packet => handler_of (pkt_type packet) s
  end.
End handlers.

(** ** Sessions *)
Definition sftp_server_session_init (fs : option ssh_fs_api) : sftp_server_session :=
  mk_session fs false 1 (replicate EMSSH_SFTP_MAX_HANDLES zero_entry).

Definition sftp_server_session_set_policy (policy : bool) (session : sftp_server_session)
    : sftp_server_session :=
  mk_session (session_fs session) policy (session_next_handle_id session) (session_handles session).

(** The loop of [sftp_server_session_deinit] from index [i]. *)
Fixpoint close_all (n i : nat) : SrvM unit :=
  match n with
  | O => mret tt
  | S n' =>
    session ← get_session;
    (match session_handles session !! i with
     | Some entry => if entry_in_use entry then close_entry i;; mret tt else mret tt
     | None => mret tt
     end);;
    close_all n' (S i)
  end.

Definition sftp_server_session_deinit : SrvM unit :=
  close_all EMSSH_SFTP_MAX_HANDLES 0;;
  set_session (mk_session None false 0 (replicate EMSSH_SFTP_MAX_HANDLES zero_entry)).
