(* ===== verification/SftpServerSafe.v ===== *)
(** * What the SFTP server does to its environment

    The monitor that watches the callbacks of a request handler of SftpServer.v
    and says which of them are allowed, the contract of the environment, the
    invariant of a session, and for every handler the proof that it makes only
    allowed calls, keeps the invariant and answers the packet. *)

From S2P Require Import Prelude Interaction Buffer Packet Codec Sftp SftpPath SftpServer.

(** ** The monitor of a request

    It remembers the policy requests that were granted since the request began
    and the file system handles that are open. *)
Record watch : Type := mk_watch {
  granted : list sftp_policy_request;
  open_handles : list (Z * Z)
}.

(** Remove one occurrence. *)
Fixpoint remove_one (h : Z * Z) (l : list (Z * Z)) : list (Z * Z) :=
  match l with
  | [] => []
  | x :: l' => if decide (x = h) then l' else x :: remove_one h l'
  end.

Definition watch_step (x : watch) (c : call) : reply c -> watch :=
  match c return reply c -> watch with
  | PolicyCheck p => fun r =>
    if status_bad r then x else mk_watch (p :: granted x) (open_handles x)
  | FsOpen _ _ => fun r =>
    if status_bad (fst r) then x
    else mk_watch (granted x) ((SFTP_HANDLE_KIND_FILE, snd r) :: open_handles x)
  | FsOpendir _ => fun r =>
    if status_bad (fst r) then x
    else mk_watch (granted x) ((SFTP_HANDLE_KIND_DIR, snd r) :: open_handles x)
  | FsClose h => fun _ =>
    mk_watch (granted x) (remove_one (SFTP_HANDLE_KIND_FILE, h) (open_handles x))
  | FsClosedir h => fun _ =>
    mk_watch (granted x) (remove_one (SFTP_HANDLE_KIND_DIR, h) (open_handles x))
  | _ => fun _ => x
  end.

(** *** Which calls are allowed, in a request that began with session [ses] *)
Section permits.
Variable ses : sftp_server_session.

(** The policy granted the operation on the path, when there is a policy. *)
Definition allowed (x : watch) (r : sftp_policy_request) : Prop :=
  session_policy ses = true -> r ∈ granted x.

(** An open handle of the table. *)
Definition table_entry (e : sftp_handle_entry) : Prop :=
  e ∈ session_handles ses /\ entry_in_use e = true.

(** A call on handle [h] of the given kind: the table has it, it is open, and
    the policy granted the operation on its path. *)
Definition on_handle (x : watch) (kind h : Z) (flag : Z)
    (r : sftp_handle_entry -> sftp_policy_request) : Prop :=
  (kind, h) ∈ open_handles x /\
  exists e, table_entry e /\ entry_kind e = kind /\ entry_fs_handle e = h /\
    (flag = 0 \/ has_flag (entry_pflags e) flag = true) /\ allowed x (r e).

Definition on_path op path : sftp_policy_request := mk_policy_request op path None 0 0 0 None.

Definition permits (x : watch) (c : call) : Prop :=
  match c with
  | PolicyCheck r =>
    normal_path (po_path r) /\ match po_new_path r with Some p => normal_path p | None => True end
  | FsOpen p fl => normal_path p /\ open_pflags_are_valid fl = true /\
      exists a, allowed x (mk_policy_request SFTP_POLICY_OPEN p None fl 0 0 (Some a))
  | FsOpendir p => normal_path p /\ allowed x (on_path SFTP_POLICY_OPENDIR p)
  | FsStat p => normal_path p /\
      exists op fl a, In op [SFTP_POLICY_STAT; SFTP_POLICY_OPEN; SFTP_POLICY_OPENDIR; SFTP_POLICY_FSTAT] /\
        allowed x (mk_policy_request op p None fl 0 0 a)
  | FsLstat p => normal_path p /\ allowed x (on_path SFTP_POLICY_STAT p)
  | FsSetstat p a => normal_path p /\
      allowed x (mk_policy_request SFTP_POLICY_SETSTAT p None 0 0 0 (Some a))
  | FsMkdir p a => normal_path p /\
      allowed x (mk_policy_request SFTP_POLICY_MKDIR p None 0 0 0 (Some a))
  | FsRmdir p => normal_path p /\ allowed x (on_path SFTP_POLICY_RMDIR p)
  | FsRemove p => normal_path p /\ allowed x (on_path SFTP_POLICY_REMOVE p)
  | FsStatvfs p => normal_path p /\ allowed x (on_path SFTP_POLICY_STATVFS p)
  | FsRename p q | FsPosixRename p q => normal_path p /\ normal_path q /\
      allowed x (mk_policy_request SFTP_POLICY_RENAME p (Some q) 0 0 0 None)
  | FsHardlink p q => normal_path p /\ normal_path q /\
      allowed x (mk_policy_request SFTP_POLICY_HARDLINK p (Some q) 0 0 0 None)
  | FsReadAt h off len => on_handle x SFTP_HANDLE_KIND_FILE h SSH_FXF_READ (fun e =>
      mk_policy_request SFTP_POLICY_READ (entry_path e) None (entry_pflags e) off len None)
  | FsRead h len => exists off, on_handle x SFTP_HANDLE_KIND_FILE h SSH_FXF_READ (fun e =>
      mk_policy_request SFTP_POLICY_READ (entry_path e) None (entry_pflags e) off len None)
  | FsWriteAt h off data => on_handle x SFTP_HANDLE_KIND_FILE h SSH_FXF_WRITE (fun e =>
      mk_policy_request SFTP_POLICY_WRITE (entry_path e) None (entry_pflags e) off (zlen data) None)
  | FsWrite h data => exists off, on_handle x SFTP_HANDLE_KIND_FILE h SSH_FXF_WRITE (fun e =>
      mk_policy_request SFTP_POLICY_WRITE (entry_path e) None (entry_pflags e) off (zlen data) None)
  | FsFsetstat h a =>
      on_handle x SFTP_HANDLE_KIND_FILE h SSH_FXF_WRITE (fun e =>
        mk_policy_request SFTP_POLICY_FSETSTAT (entry_path e) None (entry_pflags e) 0 0 (Some a)) \/
      (SFTP_HANDLE_KIND_FILE, h) ∈ open_handles x /\
        exists p fl b, a = without_size b /\ has_flag fl SSH_FXF_WRITE = true /\
          allowed x (mk_policy_request SFTP_POLICY_OPEN p None fl 0 0 (Some b))
  | FsFsync h => on_handle x SFTP_HANDLE_KIND_FILE h 0 (fun e =>
      mk_policy_request SFTP_POLICY_FSYNC (entry_path e) None (entry_pflags e) 0 0 None)
  | FsFstatvfs h => on_handle x SFTP_HANDLE_KIND_FILE h 0 (fun e =>
      mk_policy_request SFTP_POLICY_FSTATVFS (entry_path e) None (entry_pflags e) 0 0 None)
  | FsReaddir h => on_handle x SFTP_HANDLE_KIND_DIR h 0 (fun e =>
      on_path SFTP_POLICY_READDIR (entry_path e))
  | FsClose h => (SFTP_HANDLE_KIND_FILE, h) ∈ open_handles x
  | FsClosedir h => (SFTP_HANDLE_KIND_DIR, h) ∈ open_handles x
  end.
End permits.

(** ** The contract of the environment: a read stores bytes, no more than it was
    asked for, and the names of a directory entry are C strings of a sane length. *)
Definition name_fits (n : option (list Z)) : Prop :=
  match n with Some l => text_ok l | None => True end.
Definition reply_good (c : call) : reply c -> Prop :=
  match c return reply c -> Prop with
  | FsRead _ len | FsReadAt _ _ len => fun r =>
    Forall is_byte (snd (fst r)) /\ (0 <= len -> zlen (snd (fst r)) <= len /\ 0 <= snd r)
  | FsReaddir _ => fun r =>
    name_fits (dirent_filename (snd (fst r))) /\ name_fits (dirent_longname (snd (fst r)))
  | _ => fun _ => True
  end.

(** ** The invariant of a session *)
Record entry_ok (e : sftp_handle_entry) : Prop := {
  entry_path_ok : normal_path (entry_path e);
  entry_kind_ok : entry_kind e = SFTP_HANDLE_KIND_FILE \/ entry_kind e = SFTP_HANDLE_KIND_DIR;
  entry_handle_ok : entry_fs_handle e <> 0;
  entry_wire_ok : entry_wire_handle_len e = 4 /\ zlen (entry_wire_handle e) = 4 /\
    Forall is_byte (entry_wire_handle e)
}.

Record session_ok (ses : sftp_server_session) : Prop := {
  session_size : length (session_handles ses) = EMSSH_SFTP_MAX_HANDLES;
  session_entries : forall e, e ∈ session_handles ses -> entry_in_use e = true -> entry_ok e
}.

(** The file system handles in the table. *)
Definition entry_handle (e : sftp_handle_entry) : list (Z * Z) :=
  if entry_in_use e then [(entry_kind e, entry_fs_handle e)] else [].
Definition table_handles (ses : sftp_server_session) : list (Z * Z) :=
  concat (map entry_handle (session_handles ses)).

(** The file system can close both kinds of handles. *)
Definition can_close (ses : sftp_server_session) : Prop :=
  fs_has fs_close ses = true /\ fs_has fs_closedir ses = true.

(** What holds between requests: the table is in order, and the open handles of
    the file system are exactly those in it. *)
Record tracked (ses : sftp_server_session) (x : watch) : Prop := {
  tracked_ok : session_ok ses;
  tracked_close : can_close ses;
  tracked_handles : open_handles x ≡ₚ table_handles ses
}.

(** ** Lemmas: the handle table *)
Lemma find_entry_some f i l j e :
  find_entry f i l = Some (j, e) -> exists k, j = (i + k)%nat /\ l !! k = Some e /\ f e = true.
Proof.
  revert i. induction l as [|e' l IH]; intros i; cbn [find_entry]; [done|].
  destruct (f e') eqn:E.
  - intros [= <- <-]. exists 0%nat. split_and!; [lia|done|done].
  - intros H. destruct (IH _ H) as (k & -> & ? & ?). exists (S k). split_and!; [lia|done|done].
Qed.

Lemma find_entry_none f i l : find_entry f i l = None -> forall e, e ∈ l -> f e = false.
Proof.
  revert i. induction l as [|e' l IH]; intros i; cbn [find_entry].
  - intros _ e He. by apply not_elem_of_nil in He.
  - destruct (f e') eqn:E; [done|]. intros H e [->|He]%elem_of_cons; [done|]. by eapply IH.
Qed.

Lemma find_handle_some ses v i e :
  find_handle ses v = Some (i, e) ->
  session_handles ses !! i = Some e /\ table_entry ses e /\
  handle_equals e v = true.
Proof.
  intros H. apply find_entry_some in H as (k & -> & Hk & He). cbn [Nat.add].
  split_and!; [done| |done]. split; [by eapply list_elem_of_lookup_2|].
  unfold handle_equals in He. by destruct (entry_in_use e).
Qed.

Lemma table_handles_at ses i e :
  session_handles ses !! i = Some e ->
  exists rest, table_handles ses ≡ₚ entry_handle e ++ rest /\
    forall e' fs pol next, table_handles (mk_session fs pol next (<[i := e']> (session_handles ses))) ≡ₚ
      entry_handle e' ++ rest.
Proof.
  intros Hi. exists (concat (map entry_handle (take i (session_handles ses) ++
    drop (S i) (session_handles ses)))).
  assert (forall e' l1 l2, concat (map entry_handle (l1 ++ e' :: l2)) ≡ₚ
    entry_handle e' ++ concat (map entry_handle (l1 ++ l2))) as Hmid.
  { intros e' l1 l2. rewrite !map_app, !concat_app. cbn [map concat].
    rewrite !app_assoc. apply Permutation_app_tail, Permutation_app_comm. }
  unfold table_handles. split.
  - rewrite <- (take_drop_middle _ _ _ Hi) at 1. apply Hmid.
  - intros e' fs pol next. cbn [session_handles].
    rewrite insert_take_drop by (by eapply lookup_lt_Some). apply Hmid.
Qed.

Lemma table_entry_handle ses e : table_entry ses e -> (entry_kind e, entry_fs_handle e) ∈ table_handles ses.
Proof.
  intros [He Hu]. unfold table_handles. apply list_elem_of_In, in_concat.
  exists (entry_handle e). split; [apply in_map; by apply list_elem_of_In|].
  unfold entry_handle. rewrite Hu. by left.
Qed.

Lemma remove_one_perm h l l' : l ≡ₚ h :: l' -> remove_one h l ≡ₚ l'.
Proof.
  intros Hp. assert (h ∈ l) as Hin by (rewrite Hp; by constructor).
  apply (Permutation_cons_inv (a:=h)). rewrite <- Hp. clear Hp.
  induction l as [|x l IH]; [by apply not_elem_of_nil in Hin|]. cbn [remove_one].
  destruct (decide (x = h)) as [->|Hne]; [done|].
  apply elem_of_cons in Hin as [->|Hin]; [done|]. rewrite perm_swap. by apply perm_skip, IH.
Qed.

(** Replacing an entry. *)
Lemma session_ok_insert ses i e next :
  session_ok ses -> (entry_in_use e = true -> entry_ok e) ->
  session_ok (mk_session (session_fs ses) (session_policy ses) next (<[i := e]> (session_handles ses))).
Proof.
  intros [Hs He] Hok. split; cbn [session_handles].
  - by rewrite length_insert.
  - intros e' Hin Hu. apply list_elem_of_lookup in Hin as [j Hj].
    apply list_lookup_insert_Some in Hj as [(-> & -> & _)|[_ Hj]]; [by apply Hok|].
    apply He; [by eapply list_elem_of_lookup_2|done].
Qed.

Lemma tracked_update ses x i e e' :
  tracked ses x -> session_handles ses !! i = Some e -> entry_handle e' = entry_handle e ->
  (entry_in_use e' = true -> entry_ok e') -> tracked (set_entry i e' ses) x.
Proof.
  intros [Hok Hc Hh] Hi Heq He'. split.
  - by apply session_ok_insert.
  - done.
  - destruct (table_handles_at ses i e Hi) as (rest & H1 & H2).
    unfold set_entry. rewrite H2, Heq, <- H1. exact Hh.
Qed.

Lemma tracked_close_entry ses x i e :
  tracked ses x -> session_handles ses !! i = Some e -> entry_in_use e = true ->
  tracked (set_entry i zero_entry ses)
    (mk_watch (granted x) (remove_one (entry_kind e, entry_fs_handle e) (open_handles x))).
Proof.
  intros [Hok Hc Hh] Hi Hu. split.
  - by apply session_ok_insert.
  - done.
  - cbn [open_handles]. destruct (table_handles_at ses i e Hi) as (rest & H1 & H2).
    unfold set_entry. rewrite H2. apply remove_one_perm. rewrite Hh, H1.
    unfold entry_handle at 1. by rewrite Hu.
Qed.

Lemma alloc_handle_some ses x h kind fl path a e ses' :
  tracked ses (mk_watch (granted x) (remove_one (kind, h) (open_handles x))) ->
  (kind, h) ∈ open_handles x ->
  kind = SFTP_HANDLE_KIND_FILE \/ kind = SFTP_HANDLE_KIND_DIR -> normal_path path ->
  alloc_handle ses h kind fl path a = Some (e, ses') ->
  tracked ses' x /\ zlen (entry_wire_handle e) = 4 /\ entry_wire_handle_len e = 4 /\
  Forall is_byte (entry_wire_handle e).
Proof.
  intros [Hok Hc Hh] Hin Hk Hp. unfold alloc_handle.
  destruct (Z.eqb_spec h 0) as [->|Hn]; [done|]. destruct (_ >=? _); [done|].
  destruct (find_entry _ 0 _) as [[i e0]|] eqn:Ef; [|done]. intros [= <- <-].
  apply find_entry_some in Ef as (k & -> & Hk0 & Hf). cbn [Nat.add]. apply negb_true_iff in Hf.
  cbn [entry_wire_handle entry_wire_handle_len]. rewrite write_u32_be_bytes.
  assert (zlen (be_bytes 4 (session_next_handle_id ses)) = 4 /\
    Forall is_byte (be_bytes 4 (session_next_handle_id ses))) as [Hz Hb]
    by (split; [apply zlen_be_bytes|apply be_bytes_byte]).
  split_and!; try done. split.
  - apply session_ok_insert; [done|]. intros _. by split.
  - done.
  - destruct (table_handles_at ses k e0 Hk0) as (rest & H1 & H2). rewrite H2.
    cbn [open_handles] in Hh. unfold entry_handle in H1 at 1. rewrite Hf in H1.
    unfold entry_handle. cbn [entry_in_use entry_kind entry_fs_handle app] in *.
    rewrite <- H1, <- Hh. clear -Hin. induction (open_handles x) as [|y l IH];
      [by apply not_elem_of_nil in Hin|]. cbn [remove_one].
    destruct (decide (y = (kind, h))) as [->|Hne]; [done|].
    apply elem_of_cons in Hin as [Heq|Hin]; [congruence|]. rewrite perm_swap. by apply perm_skip, IH.
Qed.

(** ** Answers

    The id of a packet that has one, and what a response to it looks like: the
    version message, or a message with the id of the request, or a bad-message
    status with id zero. *)
Definition packet_id (pk : list Z) : option Z :=
  match sftp_request_decode (Some pk) (zlen pk) with Ret r => Some (req_id r) | _ => None end.

Definition answers (pk : list Z) (ty : Z) (body : list Z) : Prop :=
  ty = SSH_FXP_VERSION \/
  (exists id l, packet_id pk = Some id /\ body = be_bytes 4 id ++ l) \/
  (ty = SSH_FXP_STATUS /\ exists l, body = be_bytes 4 0 ++ be_bytes 4 SSH_FX_BAD_MESSAGE ++ l).

(** A handler's result: one frame that answers the packet at the front of the
    response memory, or an error because it does not fit. *)
Definition answered (pk : list Z) (cap : Z) (o : outcome Z) (m : option (list Z)) : Prop :=
  match o with
  | Ret n => exists ty body rest, m = Some (sftp_frame ty body ++ rest) /\ n = 5 + zlen body /\
      n <= cap /\ Forall is_byte (ty :: body) /\ answers pk ty body
  | Err e => e = SSH_ERR_BUFFER_TOO_SMALL \/ e = SSH_ERR_BUFFER_OVERFLOW
  | Fault => False
  end.

Definition response_room (cap : Z) (s : server_state) : Prop :=
  exists mem, st_response s = Some mem /\ 0 <= cap <= zlen mem /\ Forall is_byte mem.

Lemma writes_frame_answered enc ty body pk cap mem :
  writes_frame enc ty body -> 0 <= cap <= zlen mem -> answers pk ty body ->
  answered pk cap (fst (enc cap (Some mem))) (snd (enc cap (Some mem))).
Proof.
  intros [Hb Hw] Hc Ha. destruct (Hw cap mem Hc) as [Hfit Hrefuse].
  destruct (Z.le_gt_cases (5 + zlen body) cap) as [Hl|Hl].
  - rewrite (Hfit Hl). cbn [fst snd answered]. exists ty, body. eauto 10.
  - destruct (Hrefuse Hl) as (e & mem' & -> & He & _). done.
Qed.

Lemma cstr_byte s : Forall is_byte (cstr s).
Proof.
  unfold cstr. apply Forall_map, Forall_true. intros c. unfold is_byte.
  pose proof (Ascii.N_ascii_bounded c). lia.
Qed.

Lemma status_message_short st fb :
  zlen (cstr fb) <= 64 -> zlen (cstr (status_message_from_error st fb)) <= 64.
Proof. intros Hf. destruct st; cbn [status_message_from_error]; try exact Hf; by vm_compute. Qed.

(** [frame_payload] is [encode_packet] for payloads of a sane length. *)
Lemma frame_payload_frame p ty body :
  emits p ([ty] ++ body) -> 1 + zlen body <= UINT32_MAX ->
  writes_frame (fun cap => frame_payload cap p) ty body.
Proof.
  intros Hp Hu. split; [apply Hp|]. intros cap mem Hc.
  destruct (proj2 (encode_packet_frame p ty body Hp Hu) cap mem Hc) as [H1 H2].
  cbv beta in *. rewrite (bind_ret _ _ _ tt (Some mem)) in H1, H2 by done.
  assert (frame_payload cap p (Some mem) = encode_packet cap p (Some mem)) as ->; [|done].
  clear H1 H2. unfold frame_payload, encode_packet, packet_payload_init.
  destruct (Z.ltb_spec cap 4) as [H4|H4]; [done|]. unfold ssh_buffer_init, uninit_buffer.
  change (mk_ssh_buffer (Some (zdrop 4 mem)) (cap - 4) 0 0) with (Bf [] [] (zdrop 4 mem) (cap - 4)).
  assert (room_ok [] [] (zdrop 4 mem) (cap - 4)) as Hr.
  { unfold room_ok. rewrite zlen_zdrop, (zlen_nil (A:=Z)) by lia. lia. }
  destruct (Z.le_gt_cases (zlen ([ty] ++ body)) (cap - 4)) as [Hl|Hl].
  - rewrite (emits_fits _ _ Hp) by (try done; rewrite (zlen_nil (A:=Z)); lia).
    unfold Bf. cbn [ssh_buffer_data buf_data ssh_buffer_len buf_len packet_finish].
    rewrite !app_nil_l. rewrite (zlen_nil (A:=Z)), Z.add_0_l.
    assert (zlen ([ty] ++ body) = 1 + zlen body) as Hz by len_lia. rewrite Hz in *.
    replace (1 + zlen body >? UINT32_MAX) with false by lia.
    pose proof (zlen_nonneg body). unfold mbind, prog_bind, store_at. cbn [default from_option id].
    destruct (mem_write _ 0 _); [|done]. unfold mret, prog_ret, u64, UINT32_MAX in *.
    by rewrite Z.mod_small by lia.
  - destruct (emits_overflow _ _ Hp [] [] (zdrop 4 mem) (cap - 4)) as (k & _ & _ & ->);
      [done|rewrite (zlen_nil (A:=Z)); lia|]. done.
Qed.

Lemma emits_extension adv n v :
  zlen (cstr n) <= 64 -> zlen (cstr v) <= 64 ->
  exists bs, emits (put_extension adv n v) bs /\ zlen bs <= 136.
Proof.
  intros Hn Hv. unfold put_extension. destruct adv.
  - exists (string_bytes (cstr n) ++ string_bytes (cstr v)). split; [|len_lia].
    apply emits_bind; apply emits_cstring; try apply cstr_byte; unfold UINT32_MAX; lia.
  - exists []. split; [apply emits_nil|rewrite (zlen_nil (A:=Z)); lia].
Qed.

Lemma version_reply_frame a b c d e :
  exists body, writes_frame (fun cap => encode_server_version cap a b c d e) SSH_FXP_VERSION body.
Proof.
  destruct (emits_extension a "posix-rename@openssh.com" "1") as (l1 & H1 & E1); [done..|].
  destruct (emits_extension b "fsync@openssh.com" "1") as (l2 & H2 & E2); [done..|].
  destruct (emits_extension c "hardlink@openssh.com" "1") as (l3 & H3 & E3); [done..|].
  destruct (emits_extension d "statvfs@openssh.com" "2") as (l4 & H4 & E4); [done..|].
  destruct (emits_extension e "fstatvfs@openssh.com" "2") as (l5 & H5 & E5); [done..|].
  exists (be_bytes 4 SFTP_VERSION_3 ++ l1 ++ l2 ++ l3 ++ l4 ++ l5). apply frame_payload_frame.
  - repeat (apply emits_bind; [first [by apply emits_u8 | apply emits_u32 | done]|]). done.
  - unfold UINT32_MAX. len_lia.
Qed.

Lemma statvfs_reply_frame id v :
  exists l, writes_frame (fun cap => encode_statvfs_reply cap id v) SSH_FXP_EXTENDED_REPLY
    (be_bytes 4 id ++ l).
Proof.
  eexists. apply frame_payload_frame.
  - repeat (apply emits_bind; [first [by apply emits_u8 | apply emits_u32 | apply emits_u64]|]).
    apply emits_u64.
  - unfold UINT32_MAX. len_lia.
Qed.

Lemma store_at_fits off bs mem :
  0 <= off -> off + zlen bs <= zlen mem ->
  exists mem', store_at off bs (Some mem) = (Ret tt, Some mem') /\ zlen mem' = zlen mem /\
    (Forall is_byte bs -> Forall is_byte mem -> Forall is_byte mem').
Proof.
  intros Ho Hl. pose proof (zlen_nonneg bs). destruct (zsplit mem off) as (w & m & -> & Hw); [lia|].
  destruct (zsplit m (zlen bs)) as (y & r & -> & Hy); [len_lia|]. unfold store_at.
  rewrite <- Hw, mem_write_app by done. eexists. split_and!; [done|len_lia|].
  intros Hb (Hm1 & (Hm2 & Hm3)%Forall_app)%Forall_app. by rewrite !Forall_app.
Qed.

(** The header of a data response is stored in front of the bytes that are
    already in place. *)
Lemma finish_data_frame cap id n mem :
  0 <= n <= cap - SFTP_DATA_RESPONSE_OVERHEAD -> n <= UINT32_MAX - 9 -> cap <= zlen mem ->
  exists data rest,
    finish_data_response_in_place cap id n (Some mem) =
      (Ret (5 + zlen (string_body id data)), Some (sftp_frame SSH_FXP_DATA (string_body id data) ++ rest)) /\
    mem = ztake SFTP_DATA_RESPONSE_OVERHEAD mem ++ data ++ rest /\ zlen data = n.
Proof.
  unfold SFTP_DATA_RESPONSE_OVERHEAD. intros Hn Hu Hc.
  destruct (zsplit mem 13) as (h & m & -> & Hh); [lia|].
  destruct (zsplit m n) as (data & rest & -> & Hd); [len_lia|]. exists data, rest.
  destruct (zsplit h 4) as (h1 & h' & -> & H1); [lia|].
  destruct (zsplit h' 1) as (h2 & h'' & -> & H2); [len_lia|].
  destruct (zsplit h'' 4) as (h3 & h4 & -> & H3); [len_lia|].
  assert (zlen h4 = 4) as H4 by len_lia.
  split; [|split; [|done]].
  - unfold finish_data_response_in_place, SFTP_DATA_RESPONSE_OVERHEAD. cbn [is_null].
    rewrite (bind_ret _ _ _ tt (Some (((h1 ++ h2 ++ h3 ++ h4) ++ data ++ rest))))
      by (apply reject_false; lia).
    rewrite !write_u32_be_bytes. rewrite <- !app_assoc.
    assert (forall k w x bs r, zlen w = k -> zlen x = zlen bs ->
      store_at k bs (Some (w ++ x ++ r)) = (Ret tt, Some (w ++ bs ++ r))) as Hst.
    { intros k w x bs r <- Hx. unfold store_at. by rewrite mem_write_app. }
    pose proof (Hst 0 [] h1 (be_bytes 4 (u32 (n + 9))) (h2 ++ h3 ++ h4 ++ data ++ rest)) as S1.
    cbn [app] in S1. erewrite bind_ret by (apply S1; [done|by rewrite H1, zlen_be_bytes]).
    erewrite bind_ret by (apply Hst; [by rewrite zlen_be_bytes|by rewrite H2]).
    rewrite (app_assoc (be_bytes 4 _)).
    erewrite bind_ret by (apply Hst; [by rewrite zlen_app, zlen_be_bytes|by rewrite H3, zlen_be_bytes]).
    rewrite (app_assoc (be_bytes 4 (u32 _) ++ _)).
    erewrite bind_ret by (apply Hst; [by rewrite !zlen_app, !zlen_be_bytes|by rewrite H4, zlen_be_bytes]).
    unfold mret, prog_ret, sftp_frame, string_body, string_bytes. rewrite <- !app_assoc.
    assert (1 + zlen (be_bytes 4 id ++ be_bytes 4 (zlen data) ++ data) = n + 9) as -> by len_lia.
    unfold u32, UINT32_MAX in *. rewrite !Z.mod_small by lia. rewrite Hd.
    do 2 f_equal. len_lia.
  - pose proof (ztake_app (h1 ++ h2 ++ h3 ++ h4) (data ++ rest)) as E. rewrite Hh in E. by rewrite E.
Qed.

(** ** Handlers under the monitor

    [finished]: what holds when a handler for packet [pk] returns. *)
Section finished.
Variables (pk : list Z) (cap : Z) (ses0 : sftp_server_session).
Hypothesis pk_byte : Forall is_byte pk.
Implicit Types s : server_state.

Definition same_setup (ses : sftp_server_session) : Prop :=
  session_fs ses = session_fs ses0 /\ session_policy ses = session_policy ses0.

Definition finished (r : outcome Z * server_state) (y : watch) : Prop :=
  tracked (st_session (snd r)) y /\ same_setup (st_session (snd r)) /\
  answered pk cap (fst r) (st_response (snd r)).

(** A state inside a handler. *)
Record running (s : server_state) (x : watch) : Prop := {
  running_tracked : tracked (st_session s) x;
  running_setup : same_setup (st_session s);
  running_room : response_room cap s
}.

Abbreviation WP := (wp watch_step (permits ses0) reply_good).

Lemma wp_respond (enc : Z -> OutM Z) ty body s x :
  writes_frame enc ty body -> answers pk ty body -> running s x ->
  WP (respond (enc cap) s) finished x.
Proof.
  intros Hw Ha [Ht Hs (mem & Hm & Hc)]. unfold respond. rewrite Hm.
  pose proof (writes_frame_answered enc ty body pk cap mem Hw (proj1 Hc) Ha) as H.
  destruct (enc cap (Some mem)) as [o m]. by split_and!.
Qed.

(** The id an answer carries, with the status code that goes with it. *)
Definition id_ok (id code : Z) : Prop :=
  packet_id pk = Some id \/ id = 0 /\ code = SSH_FX_BAD_MESSAGE.

Lemma wp_encode_status id code msg s x :
  zlen (cstr msg) <= 64 -> id_ok id code -> running s x -> WP (encode_status cap id code msg s) finished x.
Proof.
  intros Hm Hid Hr. unfold encode_status.
  eapply (wp_respond (fun c => sftp_status_encode c id code _ _)); [|..|done].
  - apply status_writes_frame; split; [apply cstr_byte|lia|done|done].
  - unfold status_body. destruct Hid as [Hid|[-> ->]]; right; [left|right]; eauto.
Qed.

Lemma wp_reply_status id st fb s x :
  zlen (cstr fb) <= 64 -> packet_id pk = Some id -> running s x ->
  WP (reply_status cap id st fb s) finished x.
Proof.
  intros Hf Hid Hr. apply wp_encode_status; [by apply status_message_short|by left|done].
Qed.

Lemma wp_attrs_reply id a s x :
  packet_id pk = Some id -> running s x -> WP (respond (sftp_attrs_encode cap id (Some a)) s) finished x.
Proof.
  intros Hid. eapply (wp_respond (fun c => sftp_attrs_encode c id _)); [apply attrs_writes_frame|].
  right. left. eauto.
Qed.

Lemma wp_statvfs_reply id v s x :
  packet_id pk = Some id -> running s x -> WP (respond (encode_statvfs_reply cap id v) s) finished x.
Proof.
  intros Hid. destruct (statvfs_reply_frame id v) as [l Hl].
  eapply (wp_respond (fun c => encode_statvfs_reply c id v)); [exact Hl|]. right. left. eauto.
Qed.

(** *** Requests and paths *)
Lemma packet_id_frame ty id body :
  frame_ok ty (be_bytes 4 id ++ body) -> is_u32 id -> pk = request_frame ty id body ->
  packet_id pk = Some id.
Proof. intros Hf Hi ->. unfold packet_id. by rewrite request_decode_frame. Qed.

Lemma wp_decode_request {T} dec ty id_of (R : T -> list Z -> Prop) t0 s Q x :
  RequestCodec dec ty id_of R ->
  (forall t body, packet_id pk = Some (id_of t) -> R t body -> Q (Ret (None, t), s) x) ->
  (forall e t, dec (Some pk) (zlen pk) t0 = (Err e, t) -> Q (Ret (Some e, t), s) x) ->
  WP (decode_request (dec (Some pk) (zlen pk)) t0 s) Q x.
Proof.
  intros Hdec Hok Hfail. destruct (request_codec (decode:=dec) pk t0 pk_byte) as [H1 H2].
  unfold decode_request, filled in *. destruct (dec (Some pk) (zlen pk) t0) as [[u|e|] t]; cbn [wp].
  - destruct (proj1 (H1 t) eq_refl) as (body & Hi & Hf & HR & Hpk).
    eapply Hok; [by eapply packet_id_frame|done].
  - by apply Hfail.
  - done.
Qed.

(** The id after a failed decoding that stores the id first. *)
Lemma failed_early {T} (zero : T) ty body (h : T -> Z) t0 e t :
  h zero = 0 -> (forall id b, h (snd (snd (body id (b, zero)))) = id) ->
  with_request zero ty (Some pk) (zlen pk) body t0 = (Err e, t) -> id_ok (h t) (status_from_error e).
Proof.
  intros Hz Hb. unfold id_ok, packet_id, with_request, with_payload.
  destruct (request_decode_cases pk pk_byte) as [(ty' & id & l & Hf & Hid & Epk)|E].
  - rewrite Epk, request_decode_frame by done. cbn [req_type req_id req_payload].
    destruct (negb _); [intros [= <- <-]; right; done|]. set (w := ssh_buffer_wrap _ _ _).
    specialize (Hb id w). destruct (body id (w, zero)) as [o [s' t']]. intros [= _ <-]. left. by rewrite <- Hb.
  - rewrite E. intros [= <- <-]. by right.
Qed.

Lemma wp_decode_attrs v a0 s Q x :
  rest_ok v -> (forall a, Q (Ret (None, a), s) x) -> (forall e a, Q (Ret (Some e, a), s) x) ->
  WP (decode_request (sftp_attrs_decode v) a0 s) Q x.
Proof.
  intros (l & -> & Hl) Hok Hfail. destruct (accepts_attrs l Hl) as [_ Hn]. rewrite <- (filled_attrs l a0) in Hn.
  unfold decode_request, filled in *.
  destruct (sftp_attrs_decode (view_of l) a0) as [[u|e|] a]; [apply Hok|apply Hfail|done].
Qed.

Lemma wp_copy_path v s Q x :
  view_ok v -> (forall p, normal_path p -> Forall is_byte p -> Q (Ret p, s) x) ->
  (forall e, Q (Err e, s) x) -> WP (of_outcome (copy_path v) s) Q x.
Proof.
  intros Hv Hp He. unfold of_outcome. cbn [wp]. destruct (copy_path v) as [p|e|] eqn:E; [|done|].
  - apply Hp; [by apply (copy_path_normal v)|by apply (copy_path_byte v)].
  - destruct Hv as (l & -> & _ & _). destruct l as [|b l]; [done|].
    destruct (copy_path_ref (b :: l)) as [H1 H2]; [done|]. rewrite H1 in E. by rewrite E in H2.
Qed.

Lemma wp_realpath p s Q x :
  normal_path p -> Forall is_byte p -> (forall r, text_ok r -> Q (Ret r, s) x) ->
  (forall e, Q (Err e, s) x) -> WP (of_outcome (make_realpath_reply_path p) s) Q x.
Proof.
  intros Hn Hb Hr He. unfold of_outcome. cbn [wp].
  destruct (make_realpath_reply_path p) as [r|e|] eqn:E; [|done|].
  - apply Hr. destruct (realpath_reply_text p r) as [? H]; [done..|]. split; [done|].
    unfold EMSSH_SFTP_MAX_PATH in H. lia.
  - unfold make_realpath_reply_path in E. by repeat case_match.
Qed.

Lemma wp_name_reply id n l a s x :
  packet_id pk = Some id -> text_ok n -> name_fits l -> running s x -> WP (respond (sftp_name_one_attrs_encode cap id (Some n) l (Some a)) s) finished x.
Proof.
  intros Hid Hn Hl. eapply (wp_respond (fun c => sftp_name_one_attrs_encode c id _ _ _));
    [by apply name_writes_frame|]. right. left. unfold name_body. eauto.
Qed.

Lemma wp_policy_check op p np fl off len a s Q x :
  running s x -> normal_path p -> match np with Some q => normal_path q | None => True end ->
  (forall st, status_bad st = true -> Q (Ret st, s) x) ->
  (forall st y, status_bad st = false -> running s y ->
     allowed ses0 y (mk_policy_request op p np fl off len a) -> Q (Ret st, s) y) ->
  WP (policy_check op p np fl off len a s) Q x.
Proof.
  intros [Ht Hs Hr] Hp Hnp Hbad Hgood. unfold policy_check. apply wp_mbind. cbn [wp get_session].
  rewrite (proj2 Hs). destruct (session_policy ses0) eqn:E; cbn [negb].
  - apply wp_perform; [done|]. intros st _. cbn [watch_step]. destruct (status_bad st) eqn:Es; [by apply Hbad|].
    apply Hgood; [done| |].
    + split; [|done|done]. destruct Ht as [H1 H2 H3]. by split.
    + intros _. cbn [granted]. by constructor.
  - cbn [wp]. apply Hgood; [done|done|]. intros E'. congruence.
Qed.

(** *** Handles *)
Lemma running_session ses m x y :
  running (mk_server_state ses0 m) x -> same_setup ses -> tracked ses y ->
  running (mk_server_state ses m) y.
Proof. intros [_ _ Hr] Hs Ht. by split. Qed.

Lemma wp_close_entry ses m i e x Q :
  tracked ses x -> session_handles ses !! i = Some e -> entry_in_use e = true ->
  (forall st y, tracked (set_entry i zero_entry ses) y ->
     Q (Ret st, mk_server_state (set_entry i zero_entry ses) m) y) ->
  WP (close_entry i (mk_server_state ses m)) Q x.
Proof.
  intros Ht Hi Hu HQ. unfold close_entry. apply wp_mbind. cbn [wp get_session st_session]. rewrite Hi, Hu.
  cbn [negb]. pose proof (tracked_close_entry ses x i e Ht Hi Hu) as Ht'.
  destruct Ht as [[_ He] [Hc1 Hc2] Hh].
  assert (table_entry ses e) as Hte by (split; [by eapply list_elem_of_lookup_2|done]).
  pose proof (table_entry_handle ses e Hte) as Hin. rewrite <- Hh in Hin.
  assert (fs_has (fun _ => true) ses = true) as ->
    by (unfold fs_has in *; by destruct (session_fs ses)).
  apply wp_mbind. rewrite Hc1, Hc2, !andb_true_r. cbn [andb].
  destruct (entry_kind_ok e (He e (proj1 Hte) Hu)) as [Hk|Hk]; rewrite Hk in *.
  all: replace (_ =? SFTP_HANDLE_KIND_DIR) with (bool_decide (entry_kind e = SFTP_HANDLE_KIND_DIR))
    by (by rewrite Hk); rewrite Hk; cbn; split; [done|]; intros r _; by apply HQ.
Qed.

Lemma running_entry m x i e v :
  running (mk_server_state ses0 m) x -> find_handle ses0 v = Some (i, e) ->
  session_handles ses0 !! i = Some e /\ table_entry ses0 e /\ entry_ok e.
Proof.
  intros [Ht _ _] E. apply find_handle_some in E as (Hi & Hte & _). split_and!; [done..|].
  destruct Ht as [[_ He] _ _]. destruct Hte as [Hin Hu]. by apply He.
Qed.

Lemma running_on_handle m x e kind flag r :
  running (mk_server_state ses0 m) x -> table_entry ses0 e -> entry_kind e = kind ->
  (flag = 0 \/ has_flag (entry_pflags e) flag = true) -> allowed ses0 x (r e) ->
  on_handle ses0 x kind (entry_fs_handle e) flag r.
Proof.
  intros [[_ _ Hh] _ _] Hte <- Hfl Ha. cbn [st_session] in Hh. split.
  - rewrite Hh. by apply table_entry_handle.
  - exists e. done.
Qed.

(** A new set of attributes for an entry. *)
Lemma entry_ok_attrs e a : entry_ok e -> entry_ok (with_attrs a e).
Proof. intros [? ? ? ?]. by split. Qed.

Lemma file_size_attrs e off n : exists a, update_file_size_after_write e off n = with_attrs a e.
Proof.
  unfold update_file_size_after_write. destruct (_ || _); [exists (entry_attrs e); by destruct e|].
  destruct (_ || _); [by eexists|exists (entry_attrs e); by destruct e].
Qed.

Lemma running_attrs m x i e a :
  running (mk_server_state ses0 m) x -> session_handles ses0 !! i = Some e -> entry_ok e ->
  running (mk_server_state (set_entry i (with_attrs a e) ses0) m) x.
Proof.
  intros [Ht Hs Hr] Hi He. split; [|done|done]. eapply tracked_update; [done..|].
  intros _. by apply entry_ok_attrs.
Qed.

Lemma running_file_size m x i e off n :
  running (mk_server_state ses0 m) x -> session_handles ses0 !! i = Some e -> entry_ok e ->
  running (mk_server_state (set_entry i (update_file_size_after_write e off n) ses0) m) x.
Proof. destruct (file_size_attrs e off n) as [a ->]. apply running_attrs. Qed.
End finished.

(** The value of a test of the source, from what is known of it. *)
Ltac test b := first [match goal with H : b = _ |- _ => rewrite H end | destruct b eqn:?].

Ltac running_tac :=
  first [eassumption | by apply running_attrs | by apply running_file_size].

(** Symbolic execution of a handler: the call is permitted, and one step. *)
Ltac permits_tac :=
  cbn [permits]; unfold on_path in *; split_and?;
  repeat match goal with
  | H : negb _ = false |- _ => apply negb_false_iff in H
  | H : (_ =? _) = true |- _ => apply Z.eqb_eq in H
  end;
  first [assumption | eassumption
        | eapply running_on_handle; [eassumption|assumption|assumption|first [by left | by right]|assumption]
        | left; eapply running_on_handle; [eassumption|assumption|assumption|by right|assumption]
        | eexists; eapply running_on_handle; [eassumption|assumption|assumption|by right|eassumption]
        | eexists; eassumption | by constructor
        | do 3 eexists; split; [|eassumption]; simpl; tauto | idtac ].
Ltac srv_step :=
  lazymatch goal with
  | |- wp _ _ _ (mbind _ (respond _) _) _ _ => fail
  | |- wp _ _ _ (mbind _ _ _) _ _ => apply wp_mbind
  | |- wp _ _ _ (attempt _ _) _ _ => apply wp_attempt
  | |- wp _ _ _ (get_session _) _ _ => cbn [wp get_session st_session]
  | |- wp _ _ _ (set_session _ _) _ _ => cbn [wp set_session st_response]
  | |- wp _ _ _ (mret _ _) _ _ => cbn [wp mret io_ret]
  | |- wp _ _ _ (io_fail _ _) _ _ => cbn [wp io_fail]
  | |- wp _ _ _ ((if ?b then _ else _) _) _ _ => test b
  | |- wp _ _ _ (if ?b then _ else _) _ _ => test b
  | |- wp _ _ _ (check ?st _) _ _ => unfold check; test (status_bad st)
  | |- wp _ _ _ (decode_request (sftp_attrs_decode _) _ _) _ _ =>
      apply wp_decode_attrs; [by destruct_and?|intros ?|intros ? ?]
  | |- wp _ _ _ (decode_request (?dec _ _) _ _) _ _ =>
      eapply (wp_decode_request _ _ ltac:(eassumption) dec);
      [ first [apply _ | by apply path_codec | by apply handle_codec]
      | intros ? ? Hid HR; hnf in HR | intros ? ? Hfail ]
  | |- wp _ _ _ (of_outcome (copy_path _) _) _ _ =>
      apply wp_copy_path; [by destruct_and?|intros ? ? ?|intros ?]
  | |- wp _ _ _ (policy_check _ _ _ _ _ _ _ _) _ _ =>
      eapply wp_policy_check; [done|done|done|intros ? ?|intros ? ? ? ? ?]
  | |- wp _ _ _ (encode_status _ _ _ _ _) _ _ =>
      apply wp_encode_status; [by vm_compute|first [assumption | left; assumption | by right]|running_tac]
  | |- wp _ _ _ (respond (sftp_attrs_encode _ _ _) _) _ _ => apply wp_attrs_reply; [done|running_tac]
  | |- wp _ _ _ (respond (encode_statvfs_reply _ _ _) _) _ _ => apply wp_statvfs_reply; [done|running_tac]
  | |- wp _ _ _ (match ?r with pair _ _ => _ end _) _ _ => destruct r
  | |- wp _ _ _ (match find_handle ?ses ?v with _ => _ end _) _ _ =>
      let E := fresh "E" in
      destruct (find_handle ses v) as [[? ?]|] eqn:E;
      [eapply running_entry in E as (Hi & Hte & Hentry);
         [pose proof (entry_path_ok _ Hentry)|eassumption]|]
  | |- wp _ _ _ (decoded _ _) _ _ => unfold decoded; cbn [fst snd]
  | |- wp _ _ _ (reply_status _ _ _ _ _) _ _ => apply wp_reply_status; [by vm_compute|done|running_tac]
  | |- wp _ _ _ (perform ?c _) _ _ => refine (wp_perform _ _ _ c _ _ _ _ _); [permits_tac|intros ? ?]
  end; cbv beta iota zeta; cbn [negb is_null default watch_step fst snd].

Section handlers.
Variables (pk : list Z) (cap : Z) (ses0 : sftp_server_session).
Hypothesis pk_byte : Forall is_byte pk.
Implicit Types s : server_state.

(** What a handler does, from any state between two requests. *)
Definition handles (h : SrvM Z) : Prop :=
  forall m x, running cap ses0 (mk_server_state ses0 m) x ->
  wp watch_step (permits ses0) reply_good (h (mk_server_state ses0 m)) (finished pk cap ses0) x.

Lemma handle_remove_safe : handles (handle_remove (Some pk) (zlen pk) cap).
Proof. intros m x Hr. unfold handle_remove. repeat srv_step. Qed.

Lemma handle_rmdir_safe : handles (handle_rmdir (Some pk) (zlen pk) cap).
Proof. intros m x Hr. unfold handle_rmdir. repeat srv_step. Qed.

Lemma handle_mkdir_safe : handles (handle_mkdir (Some pk) (zlen pk) cap).
Proof. intros m x Hr. unfold handle_mkdir. repeat srv_step. Qed.

Lemma handle_rename_safe : handles (handle_rename (Some pk) (zlen pk) cap).
Proof. intros m x Hr. unfold handle_rename. repeat srv_step. Qed.

Lemma handle_path_attrs_safe ty : handles (handle_path_attrs (Some pk) (zlen pk) cap ty).
Proof.
  intros m x Hr. unfold handle_path_attrs. destruct (_ =? SSH_FXP_LSTAT); cbn [andb].
  all: repeat srv_step.
Qed.

Lemma handle_setstat_safe : handles (handle_setstat (Some pk) (zlen pk) cap).
Proof.
  intros m x Hr. unfold handle_setstat. srv_step. srv_step.
  - repeat srv_step.
  - assert (id_ok pk (setstat_id t) (status_from_error e))
      by (refine (failed_early pk pk_byte _ _ _ setstat_id _ _ _ _ _ Hfail); [done|intros id; early_tac]).
    repeat srv_step.
Qed.

Lemma handle_realpath_safe : handles (handle_realpath (Some pk) (zlen pk) cap).
Proof.
  intros m x Hr. unfold handle_realpath. repeat srv_step.
  apply wp_realpath; [done..|intros r Hrt|intros e; srv_step].
  by apply (wp_name_reply pk cap ses0 _ r (Some r)).
Qed.

Lemma handle_close_safe : handles (handle_close (Some pk) (zlen pk) cap).
Proof.
  intros m x Hr. unfold handle_close. repeat srv_step.
  eapply wp_close_entry; [by destruct Hr|done|by destruct Hte|]. intros st y Hy.
  apply wp_reply_status; [done..|]. by eapply running_session.
Qed.

Lemma handle_fstat_safe : handles (handle_fstat (Some pk) (zlen pk) cap).
Proof. intros m x Hr. unfold handle_fstat. repeat srv_step. Qed.

Lemma handle_fsetstat_safe : handles (handle_fsetstat (Some pk) (zlen pk) cap).
Proof.
  intros m x Hr. unfold handle_fsetstat. srv_step. srv_step.
  - repeat srv_step.
  - assert (id_ok pk (fsetstat_id t) (status_from_error e))
      by (refine (failed_early pk pk_byte _ _ _ fsetstat_id _ _ _ _ _ Hfail); [done|intros id; early_tac]).
    repeat srv_step.
Qed.

Lemma handle_write_safe : handles (handle_write (Some pk) (zlen pk) cap).
Proof.
  intros m x Hr. unfold handle_write. srv_step. srv_step; [|repeat srv_step].
  destruct (view_ok_len (write_data t)) as [Hl _]; [apply HR|]. rewrite Hl. repeat srv_step.
Qed.

Lemma handle_readdir_safe : handles (handle_readdir (Some pk) (zlen pk) cap).
Proof.
  intros m x Hr. unfold handle_readdir. repeat srv_step.
  match goal with H : reply_good _ _ |- _ => destruct H as [Hf Hl] end. cbn [fst snd] in Hf, Hl.
  destruct (dirent_filename _) as [n0|]; [|done]. by apply wp_name_reply.
Qed.

(** *** Opening *)
Lemma closing_file g o h s Q :
  (forall st, Q (Ret st, s) (mk_watch g o)) ->
  wp watch_step (permits ses0) reply_good (perform (FsClose h) s) Q
    (mk_watch g ((SFTP_HANDLE_KIND_FILE, h) :: o)).
Proof.
  intros HQ. apply wp_perform; [by constructor|]. intros st _. cbn [watch_step open_handles remove_one granted].
  rewrite decide_True by done. apply HQ.
Qed.

Lemma closing_dir g o h s Q :
  (forall st, Q (Ret st, s) (mk_watch g o)) ->
  wp watch_step (permits ses0) reply_good (perform (FsClosedir h) s) Q
    (mk_watch g ((SFTP_HANDLE_KIND_DIR, h) :: o)).
Proof.
  intros HQ. apply wp_perform; [by constructor|]. intros st _. cbn [watch_step open_handles remove_one granted].
  rewrite decide_True by done. apply HQ.
Qed.

Lemma without_size_write a fl :
  negb (attr_flags (without_size a) =? 0) = true ->
  negb (attr_flags a =? 0) && negb (has_flag fl SSH_FXF_WRITE) = false ->
  has_flag fl SSH_FXF_WRITE = true.
Proof.
  unfold without_size. cbn [attr_flags]. destruct (Z.eqb_spec (attr_flags a) 0) as [->|_]; [done|].
  by destruct (has_flag _ _).
Qed.

Lemma running_close m x :
  running cap ses0 (mk_server_state ses0 m) x -> fs_has fs_close ses0 = true /\ fs_has fs_closedir ses0 = true.
Proof. intros [[_ Hc _] _ _]. exact Hc. Qed.

Lemma wp_handle_reply id h s x :
  packet_id pk = Some id -> text_ok h -> running cap ses0 s x ->
  wp watch_step (permits ses0) reply_good
    (respond (sftp_handle_encode cap id (Some h) (zlen h)) s) (finished pk cap ses0) x.
Proof.
  intros Hid Hh. eapply (wp_respond pk cap ses0 (fun c => sftp_handle_encode c id (Some h) (zlen h)));
    [by apply handle_writes_frame|]. right. left. unfold string_body. eauto.
Qed.

Lemma wp_finish_open id h kind fl path a close m g o :
  packet_id pk = Some id -> running cap ses0 (mk_server_state ses0 m) (mk_watch g o) ->
  normal_path path -> kind = SFTP_HANDLE_KIND_FILE \/ kind = SFTP_HANDLE_KIND_DIR ->
  (forall s Q, (forall st, Q (Ret st, s) (mk_watch g o)) ->
     wp watch_step (permits ses0) reply_good (close s) Q (mk_watch g ((kind, h) :: o))) ->
  wp watch_step (permits ses0) reply_good
    (finish_open cap id h kind fl path a true close (mk_server_state ses0 m)) (finished pk cap ses0)
    (mk_watch g ((kind, h) :: o)).
Proof.
  intros Hid Hr Hp Hk Hclose. unfold finish_open. srv_step. srv_step.
  destruct (alloc_handle ses0 h kind fl path a) as [[e ses']|] eqn:E.
  - assert (same_setup ses0 ses') as Hs
      by (unfold alloc_handle in E; repeat case_match; simplify_eq; done).
    eapply (alloc_handle_some ses0 (mk_watch g ((kind, h) :: o))) in E as (Ht & H1 & H2 & H3); [|..|done|done].
    + do 2 srv_step. rewrite H2, <- H1. apply wp_handle_reply; [done| |by eapply running_session].
      split; [done|lia].
    + cbn [open_handles remove_one granted]. rewrite decide_True by done. apply Hr.
    + by constructor.
  - do 2 srv_step. apply Hclose. intros st. repeat srv_step.
Qed.

Lemma handle_opendir_safe : handles (handle_opendir (Some pk) (zlen pk) cap).
Proof.
  intros m x Hr. destruct (running_close _ _ Hr) as [_ Hc]. unfold handle_opendir. repeat srv_step.
  all: rewrite Hc; apply wp_finish_open; [done|by destruct y|done|by right|intros; by apply closing_dir].
Qed.

Lemma handle_open_safe : handles (handle_open (Some pk) (zlen pk) cap).
Proof.
  intros m x Hr. destruct (running_close _ _ Hr) as [Hc _]. unfold handle_open. repeat srv_step.
  all: lazymatch goal with
  | |- wp _ _ _ (finish_open _ _ _ _ _ _ _ _ _ _) _ _ =>
    rewrite Hc; apply wp_finish_open; [done|by destruct y|done|by left|intros; by apply closing_file]
  | |- wp _ _ _ _ _ _ => cbn [open_handles granted remove_one]; rewrite decide_True by done;
    apply wp_reply_status; [done..|by destruct y]
  | |- _ \/ _ => right; cbn [open_handles]; split; [by constructor|]; eexists _, _, _; split_and!;
    [reflexivity|eapply without_size_write; eassumption|eassumption]
  end.
Qed.

(** *** Reading *)
Lemma wp_store data m x Q :
  Forall is_byte data -> zlen data <= cap - SFTP_DATA_RESPONSE_OVERHEAD ->
  running cap ses0 (mk_server_state ses0 m) x ->
  (forall m', running cap ses0 (mk_server_state ses0 m') x -> Q (Ret tt, mk_server_state ses0 m') x) ->
  wp watch_step (permits ses0) reply_good
    (respond (store_at SFTP_DATA_RESPONSE_OVERHEAD data) (mk_server_state ses0 m)) Q x.
Proof.
  unfold SFTP_DATA_RESPONSE_OVERHEAD. intros Hb Hd [Ht Hs (mem & Hm & Hc & Hmb)] HQ. cbn [st_response] in Hm. subst m.
  unfold respond. cbn [st_response st_session].
  destruct (store_at_fits 13 data mem) as (mem' & -> & Hz & Hb'); [lia..|]. apply HQ. split; [done..|].
  exists mem'. split_and!; [done|lia|lia|by apply Hb'].
Qed.

Lemma wp_data_reply id n s x :
  packet_id pk = Some id -> 0 <= n <= cap - SFTP_DATA_RESPONSE_OVERHEAD -> n <= UINT32_MAX - 9 ->
  running cap ses0 s x ->
  wp watch_step (permits ses0) reply_good (respond (finish_data_response_in_place cap id n) s)
    (finished pk cap ses0) x.
Proof.
  intros Hid Hn Hu [Ht Hs (mem & Hm & Hc & Hmb)]. unfold respond. rewrite Hm.
  destruct (finish_data_frame cap id n mem) as (data & rest & -> & Hmem & Hd); [done..|lia|]. split_and!; [done..|].
  rewrite Hmem in Hmb. apply Forall_app in Hmb as (_ & (Hdb & _)%Forall_app).
  cbn [fst snd answered st_response]. exists SSH_FXP_DATA, (string_body id data), rest. split_and!; [done..| | |].
  2: { unfold string_body, string_bytes. constructor; [done|]. rewrite !Forall_app. split_and!; try done; apply be_bytes_byte. }
  - unfold string_body, SFTP_DATA_RESPONSE_OVERHEAD in *. len_lia.
  - right. left. unfold string_body. eauto.
Qed.

(** What follows the read itself, when it was asked for [wanted] bytes. *)
Lemma wp_read_tail (len : Z) m x id st data n :
  let data_capacity := cap - SFTP_DATA_RESPONSE_OVERHEAD in
  let wanted := if len <? EMSSH_SFTP_MAX_IO then len else EMSSH_SFTP_MAX_IO in
  let wanted := if wanted >? data_capacity then data_capacity else wanted in
  packet_id pk = Some id -> running cap ses0 (mk_server_state ses0 m) x ->
  is_u32 len -> (cap <=? SFTP_DATA_RESPONSE_OVERHEAD) = false -> Forall is_byte data /\ (0 <= wanted -> zlen data <= wanted /\ 0 <= n) ->
  wp watch_step (permits ses0) reply_good
    ((respond (store_at SFTP_DATA_RESPONSE_OVERHEAD data);;
      if status_bad st then reply_status cap id st "read failed" else
      if n >? wanted then encode_status cap id SSH_FX_FAILURE "invalid read length" else
      if n =? 0 then encode_status cap id SSH_FX_EOF "eof" else
      respond (finish_data_response_in_place cap id n)) (mk_server_state ses0 m))
    (finished pk cap ses0) x.
Proof.
  intros dc w0 w Hid Hr Hl Hc [Hdb Hdn].
  assert (0 <= w <= dc /\ w <= EMSSH_SFTP_MAX_IO) as [Hw1 Hw2].
  { assert (0 <= w0 <= EMSSH_SFTP_MAX_IO) as Hw0
      by (subst w0; unfold is_u32, EMSSH_SFTP_MAX_IO in *; destruct (Z.ltb_spec len 32768); lia).
    clearbody w0. subst w. destruct (Z.gtb_spec w0 dc); lia. }
  destruct Hdn as [Hd Hn]; [lia|].
  clearbody w. subst dc. apply wp_mbind.
  apply wp_store; [done|lia|done|]. intros m' Hr'. repeat srv_step.
  apply wp_data_reply; [done|lia| |done]. unfold EMSSH_SFTP_MAX_IO, UINT32_MAX in *. lia.
Qed.

Lemma handle_read_safe : handles (handle_read (Some pk) (zlen pk) cap).
Proof.
  intros m x Hr. unfold handle_read. repeat srv_step.
  - split_and!; [apply Hr..|by left].
  - eapply wp_read_tail; [done|done|apply HR|done|done].
  - eapply wp_read_tail; [done|done|apply HR|done|done].
Qed.

(** *** Extended requests *)
Lemma wp_decode_from {A} (g : BufM A) (P : A -> Prop) l s Q x :
  decodes g (fun w _ _ => P w) -> Forall is_byte l ->
  (forall w, P w -> Q (Ret w, s) x) -> (forall e, Q (Err e, s) x) ->
  wp watch_step (permits ses0) reply_good (of_outcome (decode_from g l) s) Q x.
Proof.
  intros Hg Hl HQ HE. unfold of_outcome. cbn [wp].
  destruct (decode_from g l) as [w|e|] eqn:E; [|done|by eapply decodes_no_fault in E].
  eapply decodes_decode_from in E as (? & ? & _ & ?); [|done..]. by apply HQ.
Qed.

Lemma wp_payload_string v s Q x :
  rest_ok v -> (forall w, view_ok w -> Q (Ret w, s) x) -> (forall e, Q (Err e, s) x) ->
  wp watch_step (permits ses0) reply_good (of_outcome (payload_string v) s) Q x.
Proof.
  intros (l & -> & Hl) HQ HE. apply (wp_decode_from (v ← ssh_buffer_get_string_view;
    remaining ← remaining_read;
    reject (negb (remaining =? 0)) SSH_ERR_MALFORMED_PACKET;; mret v) view_ok); [|done..].
  repeat decode_step. by destruct_and?.
Qed.

Lemma wp_payload_strings v s Q x :
  rest_ok v -> (forall w, view_ok (fst w) /\ view_ok (snd w) -> Q (Ret w, s) x) ->
  (forall e, Q (Err e, s) x) ->
  wp watch_step (permits ses0) reply_good (of_outcome (payload_strings v) s) Q x.
Proof.
  intros (l & -> & Hl) HQ HE. apply (wp_decode_from (a ← ssh_buffer_get_string_view;
    b ← ssh_buffer_get_string_view; remaining ← remaining_read;
    reject (negb (remaining =? 0)) SSH_ERR_MALFORMED_PACKET;; mret (a, b))
    (fun w => view_ok (fst w) /\ view_ok (snd w))); [|done..].
  repeat decode_step. by destruct_and?.
Qed.

Lemma wp_find_file v m x Q :
  running cap ses0 (mk_server_state ses0 m) x ->
  (forall e, table_entry ses0 e -> entry_ok e -> entry_kind e = SFTP_HANDLE_KIND_FILE ->
     Q (Ret e, mk_server_state ses0 m) x) ->
  (forall e, Q (Err e, mk_server_state ses0 m) x) ->
  wp watch_step (permits ses0) reply_good (find_file v (mk_server_state ses0 m)) Q x.
Proof.
  intros Hr HQ HE. unfold find_file. do 3 srv_step; [|by srv_step]. srv_step; srv_step; [done|].
  apply HQ; [done..|]. by apply Z.eqb_eq, negb_false_iff.
Qed.

Ltac ext_step :=
  lazymatch goal with
  | |- wp _ _ _ (of_outcome (payload_string _) _) _ _ =>
      apply wp_payload_string; [done|intros ? ?|intros ?]
  | |- wp _ _ _ (of_outcome (payload_strings _) _) _ _ =>
      apply wp_payload_strings; [done|intros ? ?|intros ?]
  | |- wp _ _ _ (find_file _ _) _ _ =>
      apply wp_find_file; [done|intros ? Hte Hentry ?; pose proof (entry_path_ok _ Hentry)|intros ?]
  | _ => srv_step
  end.

Lemma handle_fsync_extension_safe id v :
  packet_id pk = Some id -> rest_ok v -> handles (handle_fsync_extension cap id v).
Proof. intros Hid Hv m x Hr. unfold handle_fsync_extension. repeat ext_step. Qed.

Lemma handle_statvfs_extension_safe id v :
  packet_id pk = Some id -> rest_ok v -> handles (handle_statvfs_extension cap id v).
Proof. intros Hid Hv m x Hr. unfold handle_statvfs_extension. repeat ext_step. Qed.

Lemma handle_fstatvfs_extension_safe id v :
  packet_id pk = Some id -> rest_ok v -> handles (handle_fstatvfs_extension cap id v).
Proof. intros Hid Hv m x Hr. unfold handle_fstatvfs_extension. repeat ext_step. Qed.

Lemma handle_hardlink_extension_safe id v :
  packet_id pk = Some id -> rest_ok v -> handles (handle_hardlink_extension cap id v).
Proof. intros Hid Hv m x Hr. unfold handle_hardlink_extension. repeat ext_step. Qed.

Lemma handle_posix_rename_extension_safe id v :
  packet_id pk = Some id -> rest_ok v -> handles (handle_posix_rename_extension cap id v).
Proof. intros Hid Hv m x Hr. unfold handle_posix_rename_extension. repeat ext_step. Qed.

Lemma handle_extended_safe : handles (handle_extended (Some pk) (zlen pk) cap).
Proof.
  intros m x Hr. unfold handle_extended. srv_step. srv_step; [|repeat srv_step].
  destruct HR as (_ & Hv & _). repeat srv_step.
  - by apply handle_fsync_extension_safe.
  - by apply handle_statvfs_extension_safe.
  - by apply handle_fstatvfs_extension_safe.
  - by apply handle_hardlink_extension_safe.
  - by apply handle_posix_rename_extension_safe.
Qed.

(** *** The dispatcher *)
Lemma handle_init_safe : handles (handle_init (Some pk) (zlen pk) cap).
Proof.
  intros m x Hr. unfold handle_init. do 2 srv_step.
  destruct (init_decode_cases pk pk_byte) as [(v & d & _ & _ & _ & ->)|[-> _]]; [|repeat srv_step].
  destruct (version_reply_frame (fs_has fs_posix_rename ses0) (fs_has fs_fsync ses0)
    (fs_has fs_hardlink ses0) (fs_has fs_statvfs ses0) (fs_has fs_fstatvfs ses0)) as [body Hb].
  eapply (wp_respond pk cap ses0 (fun c => encode_server_version c _ _ _ _ _)); [exact Hb|by left|done].
Qed.

Lemma handle_unsupported_safe : handles (handle_unsupported (Some pk) (zlen pk) cap).
Proof.
  intros m x Hr. unfold handle_unsupported.
  destruct (request_decode_cases pk pk_byte) as [(ty & id & body & Hf & Hid & Epk)|E].
  - pose proof (packet_id_frame pk pk_byte ty id body Hf Hid Epk) as Hpid.
    pose proof (request_decode_frame ty id body Hf Hid) as E. cbv zeta in E. rewrite <- Epk in E.
    rewrite E. cbn [req_id]. srv_step.
  - rewrite E. srv_step.
Qed.

Lemma handler_of_safe ty : handles (handler_of (Some pk) (zlen pk) cap ty).
Proof.
  intros m x Hr. unfold handler_of.
  repeat match goal with |- wp _ _ _ ((if ?b then _ else _) _) _ _ => destruct b end.
  - by apply handle_init_safe.
  - by apply handle_realpath_safe.
  - by apply handle_path_attrs_safe.
  - by apply handle_open_safe.
  - by apply handle_close_safe.
  - by apply handle_fstat_safe.
  - by apply handle_setstat_safe.
  - by apply handle_fsetstat_safe.
  - by apply handle_opendir_safe.
  - by apply handle_readdir_safe.
  - by apply handle_read_safe.
  - by apply handle_write_safe.
  - by apply handle_remove_safe.
  - by apply handle_mkdir_safe.
  - by apply handle_rmdir_safe.
  - by apply handle_rename_safe.
  - by apply handle_extended_safe.
  - by apply handle_unsupported_safe.
Qed.

Lemma handle_packet_safe : handles (sftp_server_handle_packet (Some pk) (zlen pk) cap).
Proof.
  intros m x Hr. unfold sftp_server_handle_packet. cbn [is_null orb st_response].
  destruct Hr as [Ht Hs (mem & Hm & Hc)] eqn:EHr. cbn [st_response] in Hm. subst m. cbn [is_null].
  destruct (sftp_packet_wrap (Some pk) (zlen pk)) as [p|e|] eqn:E.
  - by apply handler_of_safe.
  - by srv_step.
  - destruct (packet_wrap_cases pk pk_byte) as [(ty & body & Hf & ->)|E']; [|congruence].
    by rewrite packet_wrap_frame in E.
Qed.
End handlers.
