(* ===== verification/SftpSession.v ===== *)
(** * The SFTP server: its theorems

    What holds of a whole session of src/sftp/sftp_server.c, for every policy
    and every file system: which callbacks a packet may cause, that each packet
    is answered, that the handle table and the open handles of the file system
    stay the same set, and that the end of the session closes what is open.
    The lemmas on the handlers are those of SftpServerSafe.v. *)

From S2P Require Import Prelude Interaction Buffer Packet Codec Sftp SftpPath SftpServer SftpServerSafe.

(** ** A session: packets one after the other

    Each packet gets a response buffer of [cap] bytes, as in the channel loop of
    the server; [packets] is what happened to each of them. *)
Record exchange : Type := mk_exchange {
  ex_packet : list Z;
  ex_before : sftp_server_session;
  ex_events : list (event call reply);
  ex_outcome : outcome Z;
  ex_response : option (list Z)
}.

Section session.
Context {W : Type} (e : env call reply W) (cap : Z).

Definition one_packet (pk : list Z) (ses : sftp_server_session) (w : W)
    : exchange * sftp_server_session * W :=
  let '((o, s), w', evs) :=
    run e (sftp_server_handle_packet (Some pk) (zlen pk) cap (mk_server_state ses (Some (zeros cap)))) w in
  (mk_exchange pk ses evs o (st_response s), st_session s, w').

Fixpoint packets (pks : list (list Z)) (ses : sftp_server_session) (w : W)
    : list exchange * sftp_server_session * W :=
  match pks with
  | [] => ([], ses, w)
  | pk :: pks' =>
    let '(x, ses1, w1) := one_packet pk ses w in
    let '(xs, ses2, w2) := packets pks' ses1 w1 in
    (x :: xs, ses2, w2)
  end.

(** The whole life of a session, and all its callbacks. *)
Definition lifetime (fs : ssh_fs_api) (policy : bool) (pks : list (list Z)) (w : W)
    : list exchange * list (event call reply) :=
  let ses := sftp_server_session_set_policy policy (sftp_server_session_init (Some fs)) in
  let '(xs, ses1, w1) := packets pks ses w in
  let '(_, _, evs) := run e (sftp_server_session_deinit (mk_server_state ses1 None)) w1 in
  (xs, evs).
End session.

(** The handles that are open after some callbacks. *)
Definition open_after (evs : list (event call reply)) (open : list (Z * Z)) : list (Z * Z) :=
  open_handles (final watch_step (mk_watch [] open) evs).

(** An exchange that began with the handles [open]: every callback was permitted
    and the packet was answered. *)
Definition exchange_ok (cap : Z) (open : list (Z * Z)) (x : exchange) : Prop :=
  accepted watch_step (permits (ex_before x)) (mk_watch [] open) (ex_events x) /\
  answered (ex_packet x) cap (ex_outcome x) (ex_response x).

Fixpoint exchanges_ok (cap : Z) (open : list (Z * Z)) (xs : list exchange) : Prop :=
  match xs with
  | [] => True
  | x :: xs' => exchange_ok cap open x /\ exchanges_ok cap (open_after (ex_events x) open) xs'
  end.

(** ** Lemmas *)
Lemma tracked_granted ses x g : tracked ses x -> tracked ses (mk_watch g (open_handles x)).
Proof. intros [? ? ?]. by split. Qed.

Lemma one_packet_ok {W} (e : env call reply W) cap pk ses w open :
  env_good reply_good e -> 0 <= cap -> Forall is_byte pk -> tracked ses (mk_watch [] open) ->
  let '(x, ses', _) := one_packet e cap pk ses w in
  ex_before x = ses /\ ex_packet x = pk /\ exchange_ok cap open x /\
  tracked ses' (mk_watch [] (open_after (ex_events x) open)) /\ same_setup ses ses'.
Proof.
  intros He Hc Hpk Ht. unfold one_packet.
  assert (running cap ses (mk_server_state ses (Some (zeros cap))) (mk_watch [] open)) as Hr.
  { split; [done|by split|]. exists (zeros cap). rewrite zlen_zeros by done. split_and!; [done|lia..|by apply Forall_replicate]. }
  pose proof (run_monitored _ _ _ e _ _ _ w He (handle_packet_safe pk cap ses Hpk _ _ Hr)) as H.
  destruct (run e _ w) as [[[o s'] w'] evs]. destruct H as (Ha & Ht' & Hs' & Hans).
  split_and!; [done|done|by split| |done]. by apply (tracked_granted _ _ []) in Ht'.
Qed.

Lemma packets_ok {W} (e : env call reply W) cap pks ses w open :
  env_good reply_good e -> 0 <= cap -> Forall (Forall is_byte) pks -> tracked ses (mk_watch [] open) ->
  let '(xs, ses', _) := packets e cap pks ses w in
  exchanges_ok cap open xs /\ map ex_packet xs = pks /\
  tracked ses' (mk_watch [] (foldl (fun o x => open_after (ex_events x) o) open xs)) /\
  same_setup ses ses'.
Proof.
  intros He Hc Hpks. revert ses w open. induction Hpks as [|pk pks Hpk _ IH]; intros ses w open Ht;
    cbn [packets]; [done|].
  pose proof (one_packet_ok e cap pk ses w open He Hc Hpk Ht) as H.
  destruct (one_packet e cap pk ses w) as [[x ses1] w1]. destruct H as (Hb & Hp & Hx & Ht1 & Hs1).
  specialize (IH ses1 w1 _ Ht1). destruct (packets e cap pks ses1 w1) as [[xs ses2] w2].
  destruct IH as (Hxs & Hps & Ht2 & Hs2). split_and!; [by split| |done|].
  - cbn [map]. by rewrite Hp, Hps.
  - split; [by rewrite (proj1 Hs2), (proj1 Hs1)|by rewrite (proj2 Hs2), (proj2 Hs1)].
Qed.

(** *** The end of a session *)
Lemma wp_close_all ses0 n i ses m x Q :
  tracked ses x -> (i + n = EMSSH_SFTP_MAX_HANDLES)%nat ->
  (forall j e, (j < i)%nat -> session_handles ses !! j = Some e -> entry_in_use e = false) ->
  (forall ses' y, tracked ses' y -> (forall e, e ∈ session_handles ses' -> entry_in_use e = false) ->
     Q (Ret tt, mk_server_state ses' m) y) ->
  wp watch_step (permits ses0) reply_good (close_all n i (mk_server_state ses m)) Q x.
Proof.
  revert i ses x. induction n as [|n IH]; intros i ses x Ht Hn Hlow HQ; cbn [close_all].
  - apply HQ; [done|]. intros e [j Hj]%list_elem_of_lookup. apply (Hlow j); [|done].
    apply lookup_lt_Some in Hj. destruct Ht as [[Hs _] _ _]. lia.
  - srv_step. srv_step. apply wp_mbind. destruct (session_handles ses !! i) as [e|] eqn:Ei.
    + destruct (entry_in_use e) eqn:Eu.
      * srv_step. eapply wp_close_entry; [done..|]. intros st y Hy. srv_step.
        apply IH; [done|lia| |done]. intros j e' Hj. unfold set_entry. cbn [session_handles].
        rewrite list_lookup_insert_Some. intros [(_ & <- & _)|[Hne Hj']]; [done|].
        apply (Hlow j); [lia|done].
      * srv_step. apply IH; [done|lia| |done]. intros j e' Hj Hj'.
        destruct (decide (j = i)) as [->|]; [congruence|]. apply (Hlow j); [lia|done].
    + exfalso. apply lookup_ge_None in Ei. destruct Ht as [[Hs _] _ _]. lia.
Qed.

Lemma table_handles_free ses :
  (forall e, e ∈ session_handles ses -> entry_in_use e = false) -> table_handles ses = [].
Proof.
  unfold table_handles. induction (session_handles ses) as [|e l IH]; intros Hf; [done|]. cbn [map concat].
  unfold entry_handle at 1. rewrite (Hf e) by (by constructor). cbn [app]. apply IH. intros e' He'.
  apply Hf. by constructor.
Qed.

Lemma wp_deinit ses0 ses m x :
  tracked ses x ->
  wp watch_step (permits ses0) reply_good (sftp_server_session_deinit (mk_server_state ses m))
    (fun r y => fst r = Ret tt /\ open_handles y = []) x.
Proof.
  intros Ht. unfold sftp_server_session_deinit. apply wp_mbind.
  eapply wp_close_all; [done|done|lia|]. intros ses' y [_ _ Hh] Hf. srv_step.
  split; [done|]. apply Permutation_nil_r. by rewrite Hh, table_handles_free.
Qed.

Lemma init_tracked fs policy :
  fs_close fs = true -> fs_closedir fs = true ->
  tracked (sftp_server_session_set_policy policy (sftp_server_session_init (Some fs))) (mk_watch [] []).
Proof.
  intros H1 H2. split.
  - split; [done|]. intros e He. cbn [sftp_server_session_set_policy session_handles sftp_server_session_init] in He.
    apply elem_of_replicate in He as [-> _]. done.
  - by split.
  - by vm_compute.
Qed.

(** ** The wire handles

    While fewer than 2^32 - 1 handles have been given out, the wire handles of
    the table are the images of distinct ids below the next one. *)
Record ids_ok (ses : sftp_server_session) : Prop := {
  ids_next : 1 <= session_next_handle_id ses < 2 ^ 32;
  ids_entry i e : session_handles ses !! i = Some e -> entry_in_use e = true ->
    exists k, 1 <= k < session_next_handle_id ses /\ entry_wire_handle e = be_bytes 4 k /\
      entry_wire_handle_len e = 4;
  ids_distinct i j e e' : session_handles ses !! i = Some e -> session_handles ses !! j = Some e' ->
    entry_in_use e = true -> entry_in_use e' = true -> entry_wire_handle e = entry_wire_handle e' -> i = j
}.

Lemma handle_equals_of e l :
  entry_in_use e = true -> entry_wire_handle_len e = zlen (entry_wire_handle e) ->
  handle_equals e (view_of l) = bool_decide (entry_wire_handle e = l).
Proof.
  intros Hu Hl. unfold handle_equals. rewrite Hu, Hl, view_bytes_of. unfold view_of. cbn [view_len view_data is_null negb].
  rewrite andb_true_r. unfold bytes_eqb. cbn [andb]. case_bool_decide as H1; case_bool_decide as H2.
  - by rewrite H2, Z.eqb_refl.
  - rewrite andb_true_r. apply Z.eqb_neq. intros Hz. rewrite <- Hz, ztake_all in H1 by lia. done.
  - rewrite H2, ztake_all in H1 by lia. done.
  - apply andb_false_r.
Qed.

Lemma find_entry_none_iff f i l : (forall e, e ∈ l -> f e = false) -> find_entry f i l = None.
Proof.
  revert i. induction l as [|e l IH]; intros i Hf; [done|]. cbn [find_entry].
  rewrite (Hf e) by (by constructor). apply IH. intros e' He'. apply Hf. by constructor.
Qed.

Lemma find_entry_insert f i l k e0 e :
  l !! k = Some e0 -> f e0 = false -> f e = false -> find_entry f i (<[k := e]> l) = find_entry f i l.
Proof.
  revert i k. induction l as [|x l IH]; intros i [|k] Hk H0 H1; try done; cbn in Hk; simplify_eq;
    cbn [insert list_insert find_entry].
  - by rewrite H0, H1.
  - fold (insert (M:=list sftp_handle_entry) k e l). by rewrite IH.
Qed.

Lemma find_entry_unique f i l k e :
  l !! k = Some e -> f e = true -> (forall j e', l !! j = Some e' -> f e' = true -> j = k) ->
  find_entry f i l = Some ((i + k)%nat, e).
Proof.
  revert i k. induction l as [|x l IH]; intros i [|k] Hk Hf Hu; try done; cbn in Hk; simplify_eq; cbn [find_entry].
  - rewrite Hf. do 2 f_equal. lia.
  - destruct (f x) eqn:Ex; [by specialize (Hu 0%nat x eq_refl Ex)|].
    rewrite (IH (S i) k); [do 2 f_equal; lia|done|done|]. intros j e' Hj He'.
    specialize (Hu (S j) e' Hj He'). lia.
Qed.

Section ids.
Context (ses : sftp_server_session) (Hids : ids_ok ses).

Lemma ids_equals i e l :
  session_handles ses !! i = Some e -> entry_in_use e = true ->
  handle_equals e (view_of l) = bool_decide (entry_wire_handle e = l).
Proof.
  intros Hi Hu. destruct (ids_entry ses Hids i e Hi Hu) as (k & _ & Hw & Hl).
  apply handle_equals_of; [done|]. by rewrite Hl, Hw, zlen_be_bytes.
Qed.

Lemma ids_update next l :
  session_next_handle_id ses <= next < 2 ^ 32 ->
  (forall i e, l !! i = Some e -> entry_in_use e = true ->
     session_handles ses !! i = Some e \/
     entry_wire_handle e = be_bytes 4 (session_next_handle_id ses) /\ entry_wire_handle_len e = 4 /\
     session_next_handle_id ses < next /\
     (forall j e', l !! j = Some e' -> entry_in_use e' = true -> j <> i -> session_handles ses !! j = Some e')) ->
  ids_ok (mk_session (session_fs ses) (session_policy ses) next l).
Proof.
  intros Hn Hl. destruct Hids as [H1 H2 H3].
  assert (forall j e', session_handles ses !! j = Some e' -> entry_in_use e' = true ->
    entry_wire_handle e' <> be_bytes 4 (session_next_handle_id ses)) as Hfresh.
  { intros j e' Hj Hu E. destruct (H2 j e' Hj Hu) as (k & Hk & Hw & _). rewrite Hw in E.
    apply (f_equal be_value) in E. rewrite !be_value_bytes in E by (unfold is_u32; cbn; lia). lia. }
  split; cbn [session_handles session_next_handle_id].
  - lia.
  - intros i e Hi Hu. destruct (Hl i e Hi Hu) as [Hi'|(Hw & Hwl & Hlt & _)].
    + destruct (H2 i e Hi' Hu) as (k & ? & ? & ?). exists k. split_and!; [lia..|done|done].
    + exists (session_next_handle_id ses). split_and!; [lia..|done|done].
  - intros i j e e' Hi Hj Hu Hu' Hw.
    destruct (Hl i e Hi Hu) as [Hi'|(Hwi & _ & _ & Hoi)], (Hl j e' Hj Hu') as [Hj'|(Hwj & _ & _ & Hoj)].
    + by eapply H3.
    + exfalso. eapply Hfresh; [exact Hi'|done|]. congruence.
    + exfalso. eapply Hfresh; [exact Hj'|done|]. congruence.
    + destruct (decide (j = i)) as [|Hne]; [done|]. exfalso.
      specialize (Hoi j e' Hj Hu' Hne). eapply Hfresh; [exact Hoi|done|]. congruence.
Qed.

Lemma ids_alloc h kind fl path a e ses' :
  session_next_handle_id ses < 2 ^ 32 - 1 -> alloc_handle ses h kind fl path a = Some (e, ses') ->
  ids_ok ses' /\ entry_wire_handle e = be_bytes 4 (session_next_handle_id ses) /\
  exists i e0, session_handles ses !! i = Some e0 /\ entry_in_use e0 = false /\
    entry_in_use e = true /\ session_handles ses' = <[i := e]> (session_handles ses).
Proof.
  intros Hn. pose proof (ids_next ses Hids) as Hn1. unfold alloc_handle.
  destruct (h =? 0); [done|]. destruct (_ >=? _); [done|].
  destruct (find_entry _ 0 _) as [[i e0]|] eqn:Ef; [|done]. apply find_entry_some in Ef as (k & -> & Hk & Hf).
  apply negb_true_iff in Hf. cbn [Nat.add]. rewrite write_u32_be_bytes.
  assert (u32 (session_next_handle_id ses + 1) = session_next_handle_id ses + 1) as ->
    by (unfold u32; apply Z.mod_small; lia).
  replace (_ + 1 =? 0) with false by lia. intros [= <- <-]. split_and!; [|done|by eauto 10].
  apply ids_update; [lia|]. intros j e' Hj Hu.
  apply list_lookup_insert_Some in Hj as [(<- & <- & Hlt)|[Hne Hj]]; [right|by left].
  split_and!; [done|done|lia|]. intros j e' Hj _ Hne.
  apply list_lookup_insert_Some in Hj as [(? & _)|[_ Hj]]; [lia|done].
Qed.

Lemma ids_close i : ids_ok (set_entry i zero_entry ses).
Proof.
  pose proof (ids_next ses Hids). apply ids_update; [lia|]. intros j e Hj Hu.
  apply list_lookup_insert_Some in Hj as [(<- & <- & _)|[_ Hj]]; [done|by left].
Qed.

Lemma unused_not_equal e v : entry_in_use e = false -> handle_equals e v = false.
Proof. unfold handle_equals. by intros ->. Qed.
End ids.

Lemma run_policy_none {W} (e : env call reply W) op p np fl off n a ses m w :
  session_policy ses = false ->
  run e (policy_check op p np fl off n a (mk_server_state ses m)) w =
    ((Ret SSH_OK, mk_server_state ses m), w, []).
Proof. intros Hp. unfold policy_check, mbind, io_bind. cbn. by rewrite Hp. Qed.

(** The two writes of a data response. *)
Lemma store_then_finish cap id data mem :
  0 <= zlen data <= cap - SFTP_DATA_RESPONSE_OVERHEAD -> zlen data <= UINT32_MAX - 9 -> cap <= zlen mem ->
  exists mem', store_at SFTP_DATA_RESPONSE_OVERHEAD data (Some mem) = (Ret tt, Some mem') /\
    finish_data_response_in_place cap id (zlen data) (Some mem') =
      (Ret (5 + zlen (string_body id data)),
       Some (sftp_frame SSH_FXP_DATA (string_body id data) ++ zdrop (5 + zlen (string_body id data)) mem)).
Proof.
  intros Hd Hu Hc. destruct (zsplit mem 13) as (h & m & -> & Hh); [unfold SFTP_DATA_RESPONSE_OVERHEAD in *; lia|].
  destruct (zsplit m (zlen data)) as (x & rest & -> & Hx);
    [unfold SFTP_DATA_RESPONSE_OVERHEAD in *; len_lia|].
  exists (h ++ data ++ rest). split.
  - unfold store_at, SFTP_DATA_RESPONSE_OVERHEAD. rewrite <- Hh, mem_write_app by done. done.
  - destruct (finish_data_frame cap id (zlen data) (h ++ data ++ rest)) as (d & r & -> & Hm & Hz);
      [done|done|len_lia|]. unfold SFTP_DATA_RESPONSE_OVERHEAD in Hm.
    rewrite <- Hh, ztake_app in Hm. apply app_inv_head in Hm.
    apply app_inj_1 in Hm as [<- <-]; [|unfold zlen in Hz; lia].
    do 3 f_equal. rewrite app_assoc.
    replace (5 + zlen (string_body id data)) with (zlen (h ++ x)) by (unfold string_body; len_lia).
    by rewrite zdrop_app.
Qed.

(** *** A read, from the packet to the response *)
Definition read_packet (id : Z) (h : list Z) (off len : Z) : list Z :=
  request_frame SSH_FXP_READ id (string_bytes h ++ be_bytes 8 off ++ be_bytes 4 len).

Lemma read_packet_decoded id h off len t0 :
  is_u32 id -> text_ok h -> is_u64 off -> is_u32 len ->
  let pk := read_packet id h off len in
  sftp_packet_wrap (Some pk) (zlen pk) =
    Ret (mk_sftp_packet SSH_FXP_READ (view_of (be_bytes 4 id ++ string_bytes h ++ be_bytes 8 off ++ be_bytes 4 len))) /\
  sftp_read_request_decode (Some pk) (zlen pk) t0 = (Ret tt, mk_read_request id (view_of h) off len).
Proof.
  intros Hid [Hh Hl] Ho Hn pk. pose proof (zlen_nonneg h).
  assert (Forall is_byte (string_bytes h ++ be_bytes 8 off ++ be_bytes 4 len)) as Hb
    by (unfold string_bytes; rewrite !Forall_app; split_and!; auto using be_bytes_byte).
  assert (frame_ok SSH_FXP_READ (be_bytes 4 id ++ string_bytes h ++ be_bytes 8 off ++ be_bytes 4 len)) as Hf.
  { split_and!; [done|apply Forall_app; split; [apply be_bytes_byte|done]|].
    unfold UINT32_MAX. len_lia. }
  split; [by apply packet_wrap_frame|].
  destruct (request_codec (decode:=sftp_read_request_decode) pk t0 (sftp_frame_byte _ _ Hf)) as [Hd _].
  assert (filled (sftp_read_request_decode (Some pk) (zlen pk)) t0 =
          Ret (mk_read_request id (view_of h) off len)) as E.
  { apply Hd. eexists. split_and!; [done..| |done]. unfold read_body. cbn [read_handle read_offset read_len].
    rewrite view_bytes_of. split_and!; [|done..]. apply view_ok_of; [done|]. unfold UINT32_MAX. lia. }
  unfold filled in E. destruct (sftp_read_request_decode _ _ t0) as [[[]|?|] t']; by simplify_eq.
Qed.
(** ** A concrete environment, for the examples

    A file system with one file of two bytes and no policy objections. *)
Definition demo_fs : ssh_fs_api :=
  mk_fs_api true true true true true true true true true true true true true true true true true true
    true true true true.

Definition demo_env : env call reply unit := fun c w =>
  (match c return reply c with
   | FsOpen _ _ => (SSH_OK, 7)
   | FsOpendir _ => (SSH_OK, 8)
   | FsRead _ len => (SSH_OK, ztake len (cstr "hi"), Z.min 2 (Z.max 0 len))
   | FsReadAt _ _ len => (SSH_OK, ztake len (cstr "hi"), Z.min 2 (Z.max 0 len))
   | FsWrite _ data => (SSH_OK, zlen data)
   | FsWriteAt _ _ data => (SSH_OK, zlen data)
   | FsStat _ => (SSH_OK, None)
   | FsLstat _ => (SSH_OK, None)
   | FsReaddir _ => (SSH_OK, mk_dirent None None zero_attrs, true)
   | FsStatvfs _ => (SSH_OK, mk_statvfs 0 0 0 0 0 0 0 0 0 0 0)
   | FsFstatvfs _ => (SSH_OK, mk_statvfs 0 0 0 0 0 0 0 0 0 0 0)
   | _ => SSH_OK
   end, w).

Lemma demo_env_good : env_good reply_good demo_env.
Proof.
  intros c w. destruct c; try done; cbn -[ztake cstr];
    (split; [by apply Forall_take, cstr_byte|]); intros Hl; (split; [|lia]).
  all: unfold ztake, zlen; rewrite length_take; lia.
Qed.

(** Open a file for reading, read it, and leave it open. *)
Definition demo_packets : list (list Z) :=
  [ request_frame SSH_FXP_OPEN 1 (string_bytes (cstr "/a/../f") ++ be_bytes 4 SSH_FXF_READ ++ be_bytes 4 0);
    read_packet 2 (be_bytes 4 1) 0 100 ].

Lemma demo_packets_byte : Forall (Forall is_byte) demo_packets.
Proof. by apply (bool_decide_unpack _); vm_compute. Qed.

(** ** Properties *)

(** C9: whatever the policy and the file system do, and whatever a client sends:
    every callback the server makes is permitted.  Only normal paths reach the
    policy and the file system; when a policy is set, the operation was granted
    for exactly these arguments before the file system is called; files are
    read, written, synchronised and listed only through handles of the table
    that are open, of the right kind and opened with the right access; nothing
    is closed that is not open.  And every packet is answered by one well-formed
    message at the front of the response buffer that carries the id of the
    request (or the version message, or a bad-message status with id zero), or
    refused because the response does not fit. *)
Theorem server_session_safe {W} (e : env call reply W) cap fs policy pks w :
  env_good reply_good e -> 0 <= cap -> Forall (Forall is_byte) pks ->
  fs_close fs = true -> fs_closedir fs = true ->
  let '(xs, _) := lifetime e cap fs policy pks w in
  map ex_packet xs = pks /\ exchanges_ok cap [] xs.
Proof.
  intros He Hc Hp H1 H2. unfold lifetime.
  pose proof (packets_ok e cap pks _ w [] He Hc Hp (init_tracked fs policy H1 H2)) as H.
  destruct (packets _ _ _ _ _) as [[xs ses1] w1]. destruct H as (Hx & Hm & _).
  by destruct (run _ _ _) as [[r w2] evs].
Qed.

Lemma server_session_safe_witness :
  exchanges_ok 64 [] (fst (lifetime demo_env 64 demo_fs true demo_packets tt)) /\
  map (fun x => length (ex_events x)) (fst (lifetime demo_env 64 demo_fs true demo_packets tt)) = [3; 2]%nat.
Proof.
  split; [|by vm_compute].
  pose proof (server_session_safe demo_env 64 demo_fs true demo_packets tt demo_env_good) as H.
  destruct (lifetime _ _ _ _ _ _) as [xs evs].
  apply H; [lia|by apply demo_packets_byte|done|done].
Defined.

(** At the end of a session every handle that was opened is closed: the
    callbacks of the packets and of the final clean-up, in order, open and close
    the same multiset of file system handles. *)
Theorem server_session_closes {W} (e : env call reply W) cap fs policy pks w :
  env_good reply_good e -> 0 <= cap -> Forall (Forall is_byte) pks ->
  fs_close fs = true -> fs_closedir fs = true ->
  let '(xs, evs) := lifetime e cap fs policy pks w in
  open_after evs (foldl (fun o x => open_after (ex_events x) o) [] xs) = [].
Proof.
  intros He Hc Hp H1 H2. unfold lifetime.
  pose proof (packets_ok e cap pks _ w [] He Hc Hp (init_tracked fs policy H1 H2)) as H.
  destruct (packets _ _ _ _ _) as [[xs ses1] w1]. destruct H as (_ & _ & Ht & _).
  pose proof (run_monitored _ _ _ e _ _ _ w1 He (wp_deinit ses1 ses1 None _ Ht)) as H.
  destruct (run _ _ _) as [[r w2] evs]. apply H.
Qed.

Lemma server_session_closes_witness :
  let r := lifetime demo_env 64 demo_fs true demo_packets tt in
  open_after (snd r) (foldl (fun o x => open_after (ex_events x) o) [] (fst r)) = [] /\
  foldl (fun o x => open_after (ex_events x) o) [] (fst r) = [(SFTP_HANDLE_KIND_FILE, 7)].
Proof.
  intros r. split; [|by vm_compute]. subst r.
  pose proof (server_session_closes demo_env 64 demo_fs true demo_packets tt demo_env_good) as H.
  destruct (lifetime _ _ _ _ _ _) as [xs evs].
  apply H; [lia|by apply demo_packets_byte|done|done].
Defined.

(** The wire handle of a newly opened file or directory finds exactly its
    entry and disturbs no other handle; once an entry is closed its wire handle
    finds nothing any more, and the other handles still find theirs.  The ids
    stay distinct until the counter has gone through all its values. *)
Theorem handle_table_exact ses :
  ids_ok ses ->
  (forall h kind fl path a e ses', session_next_handle_id ses < 2 ^ 32 - 1 ->
     alloc_handle ses h kind fl path a = Some (e, ses') ->
     ids_ok ses' /\ (exists i, find_handle ses' (view_of (entry_wire_handle e)) = Some (i, e)) /\
     (forall l, l <> entry_wire_handle e -> find_handle ses' (view_of l) = find_handle ses (view_of l))) /\
  (forall i e l, find_handle ses (view_of l) = Some (i, e) ->
     let ses' := set_entry i zero_entry ses in
     ids_ok ses' /\ find_handle ses' (view_of l) = None /\
     (forall l', l' <> l -> find_handle ses' (view_of l') = find_handle ses (view_of l'))).
Proof.
  intros Hids. split.
  - intros h kind fl path a e ses' Hn E.
    destruct (ids_alloc ses Hids _ _ _ _ _ _ _ Hn E) as (Hids' & Hw & i & e0 & Hi & H0 & Hu & Hh).
    assert (session_handles ses' !! i = Some e) as Hi'
      by (rewrite Hh; apply list_lookup_insert_eq; by eapply lookup_lt_Some).
    split_and!; [done| |].
    + exists i. apply (find_entry_unique _ 0); [done| |].
      * rewrite (ids_equals ses' Hids' i e) by done. by apply bool_decide_eq_true.
      * intros j e' Hj He'. assert (entry_in_use e' = true) as Hu'
          by (unfold handle_equals in He'; by destruct (entry_in_use e')).
        rewrite (ids_equals ses' Hids' j e') in He' by done. apply bool_decide_eq_true in He'.
        by eapply (ids_distinct ses' Hids').
    + intros l Hl. unfold find_handle. rewrite Hh. eapply find_entry_insert; [done|by apply unused_not_equal|].
      rewrite (ids_equals ses' Hids' i e) by done. by apply bool_decide_eq_false.
  - intros i e l E ses'. apply find_handle_some in E as (Hi & [_ Hu] & He).
    rewrite (ids_equals ses Hids i e) in He by done. apply bool_decide_eq_true in He.
    split_and!; [by apply ids_close| |].
    + apply find_entry_none_iff. intros e' [j Hj]%list_elem_of_lookup. unfold ses', set_entry in Hj.
      cbn [session_handles] in Hj. apply list_lookup_insert_Some in Hj as [(_ & <- & _)|[Hne Hj]]; [done|].
      destruct (entry_in_use e') eqn:Hu'; [|by apply unused_not_equal].
      rewrite (ids_equals ses Hids j e') by done. apply bool_decide_eq_false. intros Hw. apply Hne.
      eapply (ids_distinct ses Hids); [done..|congruence].
    + intros l' Hl'. unfold find_handle, ses', set_entry. cbn [session_handles].
      eapply find_entry_insert; [done| |by apply unused_not_equal].
      rewrite (ids_equals ses Hids i e) by done. apply bool_decide_eq_false. congruence.
Qed.

Lemma handle_table_exact_witness :
  let ses := sftp_server_session_init (Some demo_fs) in
  ids_ok ses /\
  exists e ses', alloc_handle ses 7 SFTP_HANDLE_KIND_FILE SSH_FXF_READ (cstr "/f") zero_attrs = Some (e, ses') /\
    exists i, find_handle ses' (view_of (entry_wire_handle e)) = Some (i, e).
Proof.
  assert (ids_ok (sftp_server_session_init (Some demo_fs))) as Hids.
  { split; [by cbn|..]; cbn [session_handles sftp_server_session_init].
    - by intros i e [-> _]%lookup_replicate.
    - by intros i j e e' [-> _]%lookup_replicate _ ?. }
  split; [done|]. eexists _, _. split; [by vm_compute|].
  destruct (handle_table_exact _ Hids) as [Ha _].
  eapply (Ha 7 SFTP_HANDLE_KIND_FILE SSH_FXF_READ (cstr "/f") zero_attrs); by vm_compute.
Defined.

(** A read of an open file returns the bytes the file system read: the
    length asked of the file system is the requested one, cut to what the
    response buffer and the largest transfer allow, and the response is one data
    message with the request's id and exactly those bytes. *)
Theorem read_reply_exact {W} (e : env call reply W) cap ses mem w w' id h off len i ent data :
  is_u32 id -> text_ok h -> is_u64 off -> is_u32 len ->
  session_policy ses = false -> fs_has fs_read_at ses = true ->
  find_handle ses (view_of h) = Some (i, ent) -> entry_kind ent = SFTP_HANDLE_KIND_FILE ->
  has_flag (entry_pflags ent) SSH_FXF_READ = true ->
  SFTP_DATA_RESPONSE_OVERHEAD < cap <= zlen mem ->
  let wanted := Z.min len (Z.min EMSSH_SFTP_MAX_IO (cap - SFTP_DATA_RESPONSE_OVERHEAD)) in
  let c := FsReadAt (entry_fs_handle ent) off wanted in
  e c w = ((SSH_OK, data, zlen data), w') -> 0 < zlen data <= wanted ->
  let pk := read_packet id h off len in
  run e (sftp_server_handle_packet (Some pk) (zlen pk) cap (mk_server_state ses (Some mem))) w =
    ((Ret (5 + zlen (string_body id data)),
      mk_server_state ses (Some (sftp_frame SSH_FXP_DATA (string_body id data) ++
                                 zdrop (5 + zlen (string_body id data)) mem))),
     w', [existT c (SSH_OK, data, zlen data)]).
Proof.
  intros Hid Hh Ho Hn Hpol Hra Hf Hk Hfl Hc wanted c He Hd pk.
  destruct (read_packet_decoded id h off len (mk_read_request 0 null_view 0 0) Hid Hh Ho Hn) as [Hw Hdec].
  unfold sftp_server_handle_packet. cbn [is_null orb st_response]. fold pk in Hw, Hdec. rewrite Hw.
  cbn [pkt_type]. change (handler_of (Some pk) (zlen pk) cap SSH_FXP_READ) with (handle_read (Some pk) (zlen pk) cap).
  assert (0 <= zlen data <= cap - SFTP_DATA_RESPONSE_OVERHEAD /\ zlen data <= UINT32_MAX - 9) as [Hd1 Hd2]
    by (unfold wanted, EMSSH_SFTP_MAX_IO, UINT32_MAX in *; lia).
  pose proof (store_then_finish cap id data mem Hd1 Hd2 (proj2 Hc)) as (mem' & Hst & Hfin).
  unfold handle_read. change [existT c _] with ([] ++ [existT c (SSH_OK, data, zlen data) : event call reply]).
  eapply run_bind; [unfold decode_request; by rewrite Hdec|]. cbv beta iota zeta.
  cbn [negb is_null read_handle read_len read_offset read_id].
  change [existT c _] with ([] ++ [existT c (SSH_OK, data, zlen data) : event call reply]).
  eapply run_bind; [done|]. cbn [st_session]. rewrite Hra, andb_false_r, Hf, Hk, Hfl. cbn [negb Z.eqb].
  replace (cap <=? _) with false by lia. cbv beta iota zeta.
  change [existT c _] with ([] ++ [existT c (SSH_OK, data, zlen data) : event call reply]).
  eapply run_bind; [by apply run_policy_none|]. change (status_bad SSH_OK) with false. cbv iota.
  assert (forall x, (if x >? cap - SFTP_DATA_RESPONSE_OVERHEAD then cap - SFTP_DATA_RESPONSE_OVERHEAD else x) =
    Z.min x (cap - SFTP_DATA_RESPONSE_OVERHEAD)) as Hmin by (intros; destruct (Z.gtb_spec x (cap - SFTP_DATA_RESPONSE_OVERHEAD)); lia).
  rewrite !Hmin.
  replace (if len <? EMSSH_SFTP_MAX_IO then len else EMSSH_SFTP_MAX_IO) with (Z.min len EMSSH_SFTP_MAX_IO)
    by (destruct (Z.ltb_spec len EMSSH_SFTP_MAX_IO); lia).
  rewrite <- Z.min_assoc. fold wanted. fold c.
  change [existT c _] with ([existT c (SSH_OK, data, zlen data) : event call reply] ++ []).
  eapply run_bind; [unfold perform; cbn [run]; by rewrite He|]. cbv beta iota.
  change (@nil (event call reply)) with (@nil (event call reply) ++ []).
  eapply run_bind; [unfold respond; cbn [st_response]; by rewrite Hst|]. change (status_bad SSH_OK) with false.
  replace (zlen data >? wanted) with false by lia. replace (zlen data =? 0) with false by lia.
  unfold respond. cbn [st_response st_session]. by rewrite Hfin.
Qed.

Lemma read_reply_exact_witness :
  let ent := mk_entry true SFTP_HANDLE_KIND_FILE (be_bytes 4 1) 4 7 SSH_FXF_READ (cstr "/f") zero_attrs in
  let ses := mk_session (Some demo_fs) false 2 [ent] in
  let pk := read_packet 2 (be_bytes 4 1) 0 100 in
  exists rest, st_response (snd (fst (fst (run demo_env
    (sftp_server_handle_packet (Some pk) (zlen pk) 64 (mk_server_state ses (Some (zeros 64)))) tt)))) =
    Some (sftp_frame SSH_FXP_DATA (string_body 2 (cstr "hi")) ++ rest).
Proof.
  intros ent ses pk. eexists.
  pose proof (read_reply_exact demo_env 64 ses (zeros 64) tt tt 2 (be_bytes 4 1) 0 100 0 ent (cstr "hi")) as H.
  cbv zeta in H. fold pk in H.
  rewrite H; clear H; [reflexivity|done|split; [apply be_bytes_byte|by vm_compute]|done|done|..].
  all: lazymatch goal with |- _ /\ _ => split; vm_compute; congruence | _ => by vm_compute end.
Defined.
