(* ===== verification/PortableFs.v ===== *)
(** * The portable file system: src/platform/portable_fs.c

    The file system interface that the FatFs and littlefs adapters fill: a table
    of function pointers, any of which may be null, behind the entries of
    [ssh_fs_api_t].  An entry of the table is a program that may make calls of
    its own; [Err e] in it is an early [return e] that stores nothing through
    the result pointers, otherwise it gives the whole [reply] of the callback. *)

From S2P Require Import Prelude Interaction Buffer Packet Codec Sftp SftpPath SftpServer.

Section portable.
Context {C : Type} {R : C -> Type} {S : Type}.

Abbreviation OpM := (IO C R S).

(** [ssh_portable_fs_ops_t] *)
Record ssh_portable_fs_ops : Type := mk_fs_ops {
  ops_open : option (list Z -> Z -> OpM (ssh_status * Z));
  ops_close : option (Z -> OpM ssh_status);
  ops_read : option (Z -> Z -> OpM (ssh_status * list Z * Z));
  ops_write : option (Z -> list Z -> OpM (ssh_status * Z));
  ops_read_at : option (Z -> Z -> Z -> OpM (ssh_status * list Z * Z));
  ops_write_at : option (Z -> Z -> list Z -> OpM (ssh_status * Z));
  ops_stat : option (list Z -> OpM (ssh_status * option ssh_fs_attrs));
  ops_lstat : option (list Z -> OpM (ssh_status * option ssh_fs_attrs));
  ops_setstat : option (list Z -> ssh_fs_attrs -> OpM ssh_status);
  ops_fsetstat : option (Z -> ssh_fs_attrs -> OpM ssh_status);
  ops_opendir : option (list Z -> OpM (ssh_status * Z));
  ops_readdir : option (Z -> OpM (ssh_status * ssh_fs_dirent * bool));
  ops_closedir : option (Z -> OpM ssh_status);
  ops_mkdir : option (list Z -> ssh_fs_attrs -> OpM ssh_status);
  ops_rmdir : option (list Z -> OpM ssh_status);
  ops_remove : option (list Z -> OpM ssh_status);
  ops_rename : option (list Z -> list Z -> OpM ssh_status);
  ops_posix_rename : option (list Z -> list Z -> OpM ssh_status);
  ops_fsync : option (Z -> OpM ssh_status);
  ops_hardlink : option (list Z -> list Z -> OpM ssh_status);
  ops_statvfs : option (list Z -> OpM (ssh_status * ssh_fs_statvfs));
  ops_fstatvfs : option (Z -> OpM (ssh_status * ssh_fs_statvfs))
}.

(** [ssh_portable_fs_t]; the backend context is what the entries of the table
    close over. *)
Record ssh_portable_fs : Type := mk_portable_fs {
  portable_ops : option ssh_portable_fs_ops;
  portable_api : ssh_fs_api
}.

Definition zero_api : ssh_fs_api :=
  mk_fs_api false false false false false false false false false false false false false false
    false false false false false false false false.

(** [fs == NULL || fs->ops == NULL || fs->ops->f == NULL] *)
Definition entry_of {F} (fs : option ssh_portable_fs) (f : ssh_portable_fs_ops -> option F) : option F :=
  match fs with
  | Some fs => match portable_ops fs with Some ops => f ops | None => None end
  | None => None
  end.

Definition portable_open (fs : option ssh_portable_fs) (path : list Z) (flags : Z) : OpM (ssh_status * Z) :=
  match entry_of fs ops_open with None => io_fail SSH_ERR_UNSUPPORTED | Some f => f path flags end.

Definition portable_close (fs : option ssh_portable_fs) (handle : Z) : OpM ssh_status :=
  match entry_of fs ops_close with None => io_fail SSH_ERR_UNSUPPORTED | Some f => f handle end.

Definition portable_read (fs : option ssh_portable_fs) (handle len : Z) : OpM (ssh_status * list Z * Z) :=
  match entry_of fs ops_read with None => io_fail SSH_ERR_UNSUPPORTED | Some f => f handle len end.

Definition portable_write (fs : option ssh_portable_fs) (handle : Z) (buf : list Z) : OpM (ssh_status * Z) :=
  match entry_of fs ops_write with None => io_fail SSH_ERR_UNSUPPORTED | Some f => f handle buf end.

Definition portable_read_at (fs : option ssh_portable_fs) (handle offset len : Z) : OpM (ssh_status * list Z * Z) :=
  match entry_of fs ops_read_at with None => io_fail SSH_ERR_UNSUPPORTED | Some f => f handle offset len end.

Definition portable_write_at (fs : option ssh_portable_fs) (handle offset : Z) (buf : list Z) : OpM (ssh_status * Z) :=
  match entry_of fs ops_write_at with None => io_fail SSH_ERR_UNSUPPORTED | Some f => f handle offset buf end.

Definition portable_stat (fs : option ssh_portable_fs) (path : list Z) : OpM (ssh_status * option ssh_fs_attrs) :=
  match entry_of fs ops_stat with None => io_fail SSH_ERR_UNSUPPORTED | Some f => f path end.

Definition portable_lstat (fs : option ssh_portable_fs) (path : list Z) : OpM (ssh_status * option ssh_fs_attrs) :=
  match entry_of fs ops_lstat with None => io_fail SSH_ERR_UNSUPPORTED | Some f => f path end.

Definition portable_setstat (fs : option ssh_portable_fs) (path : list Z) (attrs : ssh_fs_attrs) : OpM ssh_status :=
  match entry_of fs ops_setstat with None => io_fail SSH_ERR_UNSUPPORTED | Some f => f path attrs end.

Definition portable_fsetstat (fs : option ssh_portable_fs) (handle : Z) (attrs : ssh_fs_attrs) : OpM ssh_status :=
  match entry_of fs ops_fsetstat with None => io_fail SSH_ERR_UNSUPPORTED | Some f => f handle attrs end.

Definition portable_opendir (fs : option ssh_portable_fs) (path : list Z) : OpM (ssh_status * Z) :=
  match entry_of fs ops_opendir with None => io_fail SSH_ERR_UNSUPPORTED | Some f => f path end.

Definition portable_readdir (fs : option ssh_portable_fs) (handle : Z) : OpM (ssh_status * ssh_fs_dirent * bool) :=
  match entry_of fs ops_readdir with None => io_fail SSH_ERR_UNSUPPORTED | Some f => f handle end.

Definition portable_closedir (fs : option ssh_portable_fs) (handle : Z) : OpM ssh_status :=
  match entry_of fs ops_closedir with None => io_fail SSH_ERR_UNSUPPORTED | Some f => f handle end.

Definition portable_mkdir (fs : option ssh_portable_fs) (path : list Z) (attrs : ssh_fs_attrs) : OpM ssh_status :=
  match entry_of fs ops_mkdir with None => io_fail SSH_ERR_UNSUPPORTED | Some f => f path attrs end.

Definition portable_rmdir (fs : option ssh_portable_fs) (path : list Z) : OpM ssh_status :=
  match entry_of fs ops_rmdir with None => io_fail SSH_ERR_UNSUPPORTED | Some f => f path end.

Definition portable_remove (fs : option ssh_portable_fs) (path : list Z) : OpM ssh_status :=
  match entry_of fs ops_remove with None => io_fail SSH_ERR_UNSUPPORTED | Some f => f path end.

Definition portable_rename (fs : option ssh_portable_fs) (old_path new_path : list Z) : OpM ssh_status :=
  match entry_of fs ops_rename with None => io_fail SSH_ERR_UNSUPPORTED | Some f => f old_path new_path end.

Definition portable_posix_rename (fs : option ssh_portable_fs) (old_path new_path : list Z) : OpM ssh_status :=
  match entry_of fs ops_posix_rename with None => io_fail SSH_ERR_UNSUPPORTED | Some f => f old_path new_path end.

Definition portable_fsync (fs : option ssh_portable_fs) (handle : Z) : OpM ssh_status :=
  match entry_of fs ops_fsync with None => io_fail SSH_ERR_UNSUPPORTED | Some f => f handle end.

Definition portable_hardlink (fs : option ssh_portable_fs) (old_path new_path : list Z) : OpM ssh_status :=
  match entry_of fs ops_hardlink with None => io_fail SSH_ERR_UNSUPPORTED | Some f => f old_path new_path end.

Definition portable_statvfs (fs : option ssh_portable_fs) (path : list Z) : OpM (ssh_status * ssh_fs_statvfs) :=
  match entry_of fs ops_statvfs with None => io_fail SSH_ERR_UNSUPPORTED | Some f => f path end.

Definition portable_fstatvfs (fs : option ssh_portable_fs) (handle : Z) : OpM (ssh_status * ssh_fs_statvfs) :=
  match entry_of fs ops_fstatvfs with None => io_fail SSH_ERR_UNSUPPORTED | Some f => f handle end.

(** Every entry of the interface is set, whatever the table of the backend has. *)
Definition ssh_portable_fs_init (fs : option ssh_portable_fs) (ops : option ssh_portable_fs_ops)
    : outcome ssh_portable_fs :=
  if is_null fs || is_null ops then Err SSH_ERR_INVALID_ARGUMENT else
  Ret (mk_portable_fs ops
    (mk_fs_api true true true true true true true true true true true true true true true true true
       true true true true true)).

Definition ssh_portable_fs_deinit (fs : option ssh_portable_fs) : option ssh_portable_fs :=
  match fs with
  | None => None
  | Some _ => Some (mk_portable_fs None zero_api)
  end.

Definition ssh_portable_fs_api (fs : option ssh_portable_fs) : option ssh_fs_api :=
  match fs with
  | None => None
  | Some fs => if is_null (portable_ops fs) then None else Some (portable_api fs)
  end.

(** ** The calls of the server, through the entries that [ssh_portable_fs_init]
    sets; the policy is not part of the file system. *)
Definition fs_call (policy : sftp_policy_request -> OpM ssh_status) (fs : option ssh_portable_fs)
    (c : call) : OpM (reply c) :=
  match c return OpM (reply c) with
  | PolicyCheck r => policy r
  | FsOpen path flags => portable_open fs path flags
  | FsClose h => portable_close fs h
  | FsRead h len => portable_read fs h len
  | FsWrite h data => portable_write fs h data
  | FsReadAt h offset len => portable_read_at fs h offset len
  | FsWriteAt h offset data => portable_write_at fs h offset data
  | FsStat path => portable_stat fs path
  | FsLstat path => portable_lstat fs path
  | FsSetstat path attrs => portable_setstat fs path attrs
  | FsFsetstat h attrs => portable_fsetstat fs h attrs
  | FsOpendir path => portable_opendir fs path
  | FsReaddir h => portable_readdir fs h
  | FsClosedir h => portable_closedir fs h
  | FsMkdir path attrs => portable_mkdir fs path attrs
  | FsRmdir path => portable_rmdir fs path
  | FsRemove path => portable_remove fs path
  | FsRename old_path new_path => portable_rename fs old_path new_path
  | FsPosixRename old_path new_path => portable_posix_rename fs old_path new_path
  | FsFsync h => portable_fsync fs h
  | FsHardlink old_path new_path => portable_hardlink fs old_path new_path
  | FsStatvfs path => portable_statvfs fs path
  | FsFstatvfs h => portable_fstatvfs fs h
  end.
End portable.

Arguments ssh_portable_fs_ops C R S : clear implicits.
Arguments ssh_portable_fs C R S : clear implicits.

(** Reduce a call of the server to the entry of the backend that it reaches. *)
Ltac portable_entry :=
  cbv [fs_call entry_of portable_ops
    portable_open portable_close portable_read portable_write portable_read_at portable_write_at
    portable_stat portable_lstat portable_setstat portable_fsetstat portable_opendir portable_readdir
    portable_closedir portable_mkdir portable_rmdir portable_remove portable_rename portable_posix_rename
    portable_fsync portable_hardlink portable_statvfs portable_fstatvfs
    ops_open ops_close ops_read ops_write ops_read_at ops_write_at ops_stat ops_lstat ops_setstat
    ops_fsetstat ops_opendir ops_readdir ops_closedir ops_mkdir ops_rmdir ops_remove ops_rename
    ops_posix_rename ops_fsync ops_hardlink ops_statvfs ops_fstatvfs].
