(* ===== verification/FsBackend.v ===== *)
(** * File systems that live on a library

    What the FatFs and littlefs adapters have in common: their handles are
    blocks they allocate, and everything else is a call of the library, on file
    and directory objects that lie in those blocks or in a local variable.  A
    program of an adapter runs on the heap of its blocks and calls the
    allocator, the policy or the library.  [Library] says what each function of
    a library does to its objects; the monitor [lib_ok] demands that an object
    is used and closed only while it is open and is not opened twice, and that
    the library sees only good paths; [FsBackend] is what an adapter promises to
    the SFTP server.  A whole session of the server over such an adapter never
    touches a block that is not allocated and leaves nothing behind. *)

From stdpp Require Import gmap.
From S2P Require Import Prelude Interaction Buffer Packet Codec Sftp SftpPath SftpServer SftpServerSafe SftpSession.
From S2P Require Import PortableFs.

(** ** Programs of an adapter *)

(** What a block holds, and the heap: the blocks that are allocated. *)
Inductive block : Type :=
| FileBlock
| DirBlock.
#[export] Instance block_eq_dec : EqDecision block.
Proof. solve_decision. Defined.

Abbreviation heap := (gmap Z block).

(** An object of the library: at the start of a block, or a local variable. *)
Abbreviation object := (option Z).

(** [Malloc live]: a call of [malloc]; [live] is not an argument in the program,
    it lets the contract of the allocator say that the block is new. *)
Inductive bcall {L : Type} : Type :=
| Malloc (live : gset Z)
| Policy (r : sftp_policy_request)
| Lib (l : L).
Arguments bcall L : clear implicits.

Section calls.
Context {L : Type} {LR : L -> Type}.

Definition breply (c : bcall L) : Type :=
  match c with Malloc _ => Z | Policy _ => ssh_status | Lib l => LR l end.

Abbreviation BackM := (IO (bcall L) breply heap).

(** [malloc] and [memset]: the address of a new zeroed block, or 0. *)
Definition malloc (b : block) : BackM Z := fun h =>
  Call (Malloc (dom h)) (fun p : Z => if p =? 0 then Done (Ret 0, h) else Done (Ret p, <[p := b]> h)).
Definition free (p : Z) : BackM unit := fun h =>
  match h !! p with Some _ => Done (Ret tt, delete p h) | None => Done (Fault, h) end.
(** An access to the block at [p] as a file or directory handle. *)
Definition access (b : block) (p : Z) : BackM unit := fun h =>
  if decide (h !! p = Some b) then Done (Ret tt, h) else Done (Fault, h).
Definition lib (l : L) : BackM (LR l) := perform (Lib l).
Definition ask_policy (r : sftp_policy_request) : BackM ssh_status := perform (Policy r).
End calls.
Arguments breply {L} LR c.

(** [while ( *path == '/') ++path;] *)
Definition skip_slashes (path : list Z) : list Z := snd (scan_until (fun b => negb (b =? SLASH)) path).

(** A name that a library stores. *)
Definition name_good (l : list Z) : Prop := Forall is_byte l /\ zlen l < 2 ^ 32.

(** ** What a library does to its objects *)
Inductive usage (A : Type) : Type :=
| Opens (o : object) (opened : A -> bool)
| Uses (o : object)
| Closes (o : object)
| Plain.
Arguments Opens {A} o opened.
Arguments Uses {A} o.
Arguments Closes {A} o.
Arguments Plain {A}.

Class Library (L : Type) (LR : L -> Type) := {
  lib_usage : forall l, usage (LR l);
  lib_paths : L -> list (list Z);
  lib_good : forall l, LR l -> Prop
}.

Section monitor.
Context {L : Type} {LR : L -> Type} `{Library L LR}.
(** The paths that may be given to the library. *)
Variable path_good : list Z -> Prop.

(** The open objects, after a call and before one. *)
Definition lib_step (x : gset object) (c : bcall L) : breply LR c -> gset object :=
  match c return breply LR c -> gset object with
  | Lib l => fun r =>
    match lib_usage l with
    | Opens o opened => if opened r then {[o]} ∪ x else x
    | Closes o => x ∖ {[o]}
    | _ => x
    end
  | _ => fun _ => x
  end.

Definition lib_ok (x : gset object) (c : bcall L) : Prop :=
  match c with
  | Lib l =>
    Forall path_good (lib_paths l) /\
    match lib_usage l with
    | Opens o _ => o ∉ x
    | Uses o | Closes o => o ∈ x
    | Plain => True
    end
  | _ => True
  end.

(** The allocator returns null or a block that is not in use. *)
Definition backend_good (c : bcall L) : breply LR c -> Prop :=
  match c return breply LR c -> Prop with
  | Malloc live => fun p => p = 0 \/ p ∉ live
  | Policy _ => fun _ => True
  | Lib l => fun r => lib_good l r
  end.

(** The objects in the blocks of a heap. *)
Definition objects (h : heap) : gset object := set_map Some (dom h).

(** ** The file system that the server sees

    The heap, the world of the library with the policy and the allocator, the
    calls made so far, and whether a block was accessed that was not there. *)
Record backend {W : Type} : Type := mk_backend {
  back_heap : heap;
  back_world : W;
  back_log : list (event (bcall L) (breply LR));
  back_fault : bool
}.
Arguments backend W : clear implicits.

(** The reply when a callback returns the status [e] early. *)
Definition early_reply (c : call) (e : ssh_status) : reply c :=
  match c return reply c with
  | FsOpen _ _ => (e, 0)
  | FsOpendir _ => (e, 0)
  | FsRead _ _ => (e, [], 0)
  | FsReadAt _ _ _ => (e, [], 0)
  | FsWrite _ _ => (e, 0)
  | FsWriteAt _ _ _ => (e, 0)
  | FsStat _ => (e, None)
  | FsLstat _ => (e, None)
  | FsReaddir _ => (e, mk_dirent None None zero_attrs, false)
  | FsStatvfs _ => (e, mk_statvfs 0 0 0 0 0 0 0 0 0 0 0)
  | FsFstatvfs _ => (e, mk_statvfs 0 0 0 0 0 0 0 0 0 0 0)
  | _ => e
  end.

Definition settle (c : call) (o : outcome (reply c)) : reply c :=
  match o with Ret r => r | Err e => early_reply c e | Fault => early_reply c SSH_ERR_PLATFORM end.

Definition is_fault {A} (o : outcome A) : bool := match o with Fault => true | _ => false end.

Section env.
Context {W : Type} (fs : ssh_portable_fs (bcall L) (breply LR) heap) (e : env (bcall L) (breply LR) W).

Definition backend_env : env call reply (backend W) := fun c w =>
  let '((o, h), w', evs) := run e (fs_call ask_policy (Some fs) c (back_heap w)) (back_world w) in
  (settle c o, mk_backend W h w' (back_log w ++ evs) (back_fault w || is_fault o)).

(** The life of a session of the server over it: the packets, each with a
    response buffer of [cap] bytes, the end of the session, and the world after it. *)
Definition backend_start (w : W) : backend W := mk_backend W ∅ w [] false.
Definition session_over (cap : Z) (api : ssh_fs_api) (policy : bool) (pks : list (list Z)) (w : W)
    : list exchange * backend W :=
  let ses := sftp_server_session_set_policy policy (sftp_server_session_init (Some api)) in
  let '(xs, ses1, w1) := packets backend_env cap pks ses (backend_start w) in
  let '(_, w2, _) := run backend_env (sftp_server_session_deinit (mk_server_state ses1 None)) w1 in
  (xs, w2).
End env.

(** ** What an adapter promises *)

(** The calls the server makes: good paths, and handles of the right kind. *)
Definition asked (c : call) (h : heap) : Prop :=
  match c with
  | PolicyCheck _ => True
  | FsOpen p _ | FsStat p | FsLstat p | FsSetstat p _ | FsOpendir p | FsMkdir p _ | FsRmdir p | FsRemove p
  | FsStatvfs p => normal_path p
  | FsRename p q | FsPosixRename p q | FsHardlink p q => normal_path p /\ normal_path q
  | FsRead x _ | FsWrite x _ | FsReadAt x _ _ | FsWriteAt x _ _ | FsFsetstat x _ | FsFsync x | FsFstatvfs x
  | FsClose x => h !! x = Some FileBlock
  | FsReaddir x | FsClosedir x => h !! x = Some DirBlock
  end.

Definition fresh_block (h : heap) (b : block) (p : Z) (h' : heap) : Prop :=
  p <> 0 /\ h !! p = None /\ h' = <[p := b]> h.

(** What becomes of the heap. *)
Definition heap_after (c : call) (h : heap) : reply c -> heap -> Prop :=
  match c return reply c -> heap -> Prop with
  | FsOpen _ _ => fun r h' => if status_bad (fst r) then h' = h else fresh_block h FileBlock (snd r) h'
  | FsOpendir _ => fun r h' => if status_bad (fst r) then h' = h else fresh_block h DirBlock (snd r) h'
  | FsClose x => fun _ h' => h' = delete x h
  | FsClosedir x => fun _ h' => h' = delete x h
  | _ => fun _ h' => h' = h
  end.

Class FsBackend (fs : ssh_portable_fs (bcall L) (breply LR) heap) : Prop :=
  backend_keeps : forall c h, asked c h -> h !! 0 = None ->
    wp lib_step lib_ok backend_good (fs_call ask_policy (Some fs) c h)
      (fun '(o, h') x => is_fault o = false /\ x = objects h' /\ reply_good c (settle c o) /\
         heap_after c h (settle c o) h') (objects h).
End monitor.
Arguments backend L LR W : clear implicits.
Arguments backend_keeps {L LR _ path_good fs _} c h _ _.

(** ** Lemmas: paths

    A normal path without its slash at the front. *)
Definition relative_path (p : list Z) : Prop := p = [DOT] \/ exists segs, Forall segment_ok segs /\ p = join segs.

Lemma skip_slashes_none p : hd 0 p <> SLASH -> skip_slashes p = p.
Proof. unfold skip_slashes. destruct p as [|b p]; [done|]. cbn. intros Hb. by destruct (Z.eqb_spec b SLASH). Qed.

Lemma join_hd segs : Forall segment_ok segs -> hd 0 (join segs) <> SLASH.
Proof.
  intros [|s rest Hs _]; [done|]. destruct Hs as (Hne & _ & _ & _ & Hsl). destruct s as [|b s]; [done|].
  assert (b <> SLASH) by (intros ->; apply Hsl; by constructor). by destruct rest.
Qed.

Lemma skip_slashes_normal p :
  normal_path p -> relative_path (skip_slashes p) /\ zlen (skip_slashes p) <= zlen p < EMSSH_SFTP_MAX_PATH.
Proof.
  intros (a & segs & Hs & -> & Hl). pose proof (join_hd segs Hs) as Hh. destruct a; cbn [path_string render] in *.
  - assert (skip_slashes (SLASH :: join segs) = join segs) as E.
    { rewrite <- (skip_slashes_none (join segs) Hh) at 2. unfold skip_slashes. cbn [scan_until].
      change (negb (SLASH =? SLASH)) with false. cbn match. by destruct (scan_until _ (join segs)). }
    unfold render. cbn [app]. rewrite E. split; [right; eauto|]. unfold render in Hl. cbn [app] in Hl. len_lia.
  - destruct segs as [|s segs]; [split; [by left|done]|]. unfold render in *. cbn [app] in *.
    rewrite skip_slashes_none by done. split; [right; eauto|lia].
Qed.

(** ** Lemmas: blocks and objects *)
Lemma objects_insert h b p : objects (<[p := b]> h) = {[Some p]} ∪ objects h.
Proof. unfold objects. apply leibniz_equiv. rewrite dom_insert. set_solver. Qed.

Lemma objects_delete h p : objects (delete p h) = objects h ∖ {[Some p]}.
Proof. unfold objects. apply leibniz_equiv. rewrite dom_delete. set_solver. Qed.

Lemma objects_elem h p : Some p ∈ objects h <-> is_Some (h !! p).
Proof. unfold objects. rewrite <- elem_of_dom. set_solver. Qed.

Lemma objects_local h : None ∉ objects h.
Proof. unfold objects. set_solver. Qed.

(** The watched handles of a heap. *)
Definition kind_of (b : block) : Z :=
  match b with FileBlock => SFTP_HANDLE_KIND_FILE | DirBlock => SFTP_HANDLE_KIND_DIR end.
Definition handle_of (pb : Z * block) : Z * Z := (kind_of (snd pb), fst pb).
Definition handles (h : heap) : list (Z * Z) := map handle_of (map_to_list h).

Lemma handles_elem h b p : (kind_of b, p) ∈ handles h <-> h !! p = Some b.
Proof.
  unfold handles. rewrite list_elem_of_fmap. split.
  - intros ([p' b'] & [= Hb ->] & Hin). apply elem_of_map_to_list in Hin. by destruct b, b'.
  - intros Hp. exists (p, b). by rewrite elem_of_map_to_list.
Qed.

Lemma handles_insert h b p : h !! p = None -> handles (<[p := b]> h) ≡ₚ (kind_of b, p) :: handles h.
Proof. intros Hp. unfold handles. by rewrite map_to_list_insert. Qed.

Lemma handles_delete h b p open :
  h !! p = Some b -> handles h ≡ₚ open -> handles (delete p h) ≡ₚ remove_one (kind_of b, p) open.
Proof.
  intros Hp Ho. symmetry. apply remove_one_perm. rewrite <- Ho. unfold handles.
  by rewrite <- (map_to_list_delete h p b Hp).
Qed.

Lemma handles_empty h : handles h ≡ₚ [] -> h = ∅.
Proof.
  intros Hh%Permutation_nil_r. apply map_to_list_empty_iff. unfold handles in Hh. by destruct (map_to_list h).
Qed.

(** ** Lemmas: replies *)
Lemma early_reply_good c e : reply_good c (early_reply c e).
Proof. destruct c; try done; (split; [by constructor|]); intros ?; split; len_lia. Qed.

Lemma u32_le n : 0 <= n -> u32 n <= n.
Proof. intros. by apply Z.mod_le. Qed.

Lemma stored_good len data n :
  Forall is_byte data -> zlen data <= Z.max 0 (u32 len) -> 0 <= n ->
  Forall is_byte data /\ (0 <= len -> zlen data <= len /\ 0 <= n).
Proof.
  intros Hb Hl Hn. split; [done|]. intros H. pose proof (u32_le len H).
  assert (0 <= u32 len) by (apply Z.mod_pos_bound; lia). lia.
Qed.

(** ** Lemmas: the steps of an adapter under the monitor *)
Section steps.
Context {L : Type} {LR : L -> Type} `{!Library L LR} (path_good : list Z -> Prop).
Implicit Types h : heap.

Abbreviation WP := (wp lib_step (lib_ok path_good) backend_good).

Lemma wp_malloc (b : block) h (x : gset object) (Q : outcome Z * heap -> gset object -> Prop) :
  Q (Ret 0, h) x ->
  (forall p, p <> 0 -> h !! p = None -> Q (Ret p, <[p := b]> h) x) ->
  WP (malloc b h) Q x.
Proof.
  intros H0 Hn. split; [done|]. intros p Hp. cbn [lib_step]. destruct (Z.eqb_spec p 0) as [|Hz]; [done|].
  apply Hn; [done|]. apply not_elem_of_dom. by destruct Hp.
Qed.

Lemma wp_free h (b : block) (p : Z) (x : gset object) (Q : outcome unit * heap -> gset object -> Prop) :
  h !! p = Some b -> Q (Ret tt, delete p h) x -> WP (free p h) Q x.
Proof. intros Hp HQ. unfold free. by rewrite Hp. Qed.

Lemma wp_access h (b : block) (p : Z) (x : gset object) (Q : outcome unit * heap -> gset object -> Prop) :
  h !! p = Some b -> Q (Ret tt, h) x -> WP (access b p h) Q x.
Proof. intros Hp HQ. unfold access. by rewrite decide_True. Qed.

Lemma wp_policy (r : sftp_policy_request) h (x : gset object) (Q : outcome ssh_status * heap -> gset object -> Prop) :
  (forall st, Q (Ret st, h) x) -> WP (ask_policy r h) Q x.
Proof. intros HQ. split; [exact I|]. intros st _. apply HQ. Qed.

(** A call of the library, by what it does to its object. *)
Lemma wp_lib (l : L) h (x : gset object) (Q : outcome (LR l) * heap -> gset object -> Prop) :
  lib_ok path_good x (Lib l) ->
  (forall r, lib_good l r -> Q (Ret r, h) (lib_step x (Lib l) r)) -> WP (lib l h) Q x.
Proof. intros Hok HQ. by split. Qed.

Lemma wp_plain (l : L) h (x : gset object) (Q : outcome (LR l) * heap -> gset object -> Prop) :
  lib_usage l = Plain -> Forall path_good (lib_paths l) ->
  (forall r, lib_good l r -> Q (Ret r, h) x) -> WP (lib l h) Q x.
Proof. intros Hu Hp HQ. apply wp_lib; cbn; rewrite Hu; [by split|done]. Qed.

Lemma wp_uses (l : L) (o : object) h (x : gset object) (Q : outcome (LR l) * heap -> gset object -> Prop) :
  lib_usage l = Uses o -> Forall path_good (lib_paths l) -> o ∈ x ->
  (forall r, lib_good l r -> Q (Ret r, h) x) -> WP (lib l h) Q x.
Proof. intros Hu Hp Ho HQ. apply wp_lib; cbn; rewrite Hu; [by split|done]. Qed.

Lemma wp_closes (l : L) (o : object) h (x : gset object) (Q : outcome (LR l) * heap -> gset object -> Prop) :
  lib_usage l = Closes o -> Forall path_good (lib_paths l) -> o ∈ x ->
  (forall r, lib_good l r -> Q (Ret r, h) (x ∖ {[o]})) -> WP (lib l h) Q x.
Proof. intros Hu Hp Ho HQ. apply wp_lib; cbn; rewrite Hu; [by split|done]. Qed.

Lemma wp_opens (l : L) (o : object) (opened : LR l -> bool) h (x : gset object) (Q : outcome (LR l) * heap -> gset object -> Prop) :
  lib_usage l = Opens o opened -> Forall path_good (lib_paths l) -> o ∉ x ->
  (forall r, lib_good l r -> opened r = false -> Q (Ret r, h) x) ->
  (forall r, lib_good l r -> opened r = true -> Q (Ret r, h) ({[o]} ∪ x)) -> WP (lib l h) Q x.
Proof.
  intros Hu Hp Ho H0 H1. apply wp_lib; cbn; rewrite Hu; [by split|]. intros r Hr.
  destruct (opened r) eqn:E; [by apply H1|by apply H0].
Qed.

(** An object in a new block, and one in a local variable. *)
Lemma wp_opens_block (l : L) (p : Z) (opened : LR l -> bool) (b : block) h (Q : outcome (LR l) * heap -> gset object -> Prop) :
  lib_usage l = Opens (Some p) opened -> Forall path_good (lib_paths l) -> h !! p = None ->
  (forall r, lib_good l r -> opened r = false -> Q (Ret r, <[p := b]> h) (objects h)) ->
  (forall r, lib_good l r -> opened r = true -> Q (Ret r, <[p := b]> h) (objects (<[p := b]> h))) ->
  WP (lib l (<[p := b]> h)) Q (objects h).
Proof.
  intros Hu Hp Hn H0 H1. eapply wp_opens; [done|done| |done|].
  - intros Hin%objects_elem. rewrite Hn in Hin. by destruct Hin.
  - intros r Hr E. rewrite <- (objects_insert h b p). by apply H1.
Qed.

Lemma wp_opens_local (l : L) (opened : LR l -> bool) h (Q : outcome (LR l) * heap -> gset object -> Prop) :
  lib_usage l = Opens None opened -> Forall path_good (lib_paths l) ->
  (forall r, lib_good l r -> opened r = false -> Q (Ret r, h) (objects h)) ->
  (forall r, lib_good l r -> opened r = true -> Q (Ret r, h) ({[None]} ∪ objects h)) ->
  WP (lib l h) Q (objects h).
Proof. intros Hu Hp H0 H1. eapply wp_opens; [done|done|apply objects_local|done|done]. Qed.

Lemma wp_closes_local (l : L) h (Q : outcome (LR l) * heap -> gset object -> Prop) :
  lib_usage l = Closes None -> Forall path_good (lib_paths l) ->
  (forall r, lib_good l r -> Q (Ret r, h) (objects h)) -> WP (lib l h) Q ({[None]} ∪ objects h).
Proof.
  intros Hu Hp HQ. eapply wp_closes; [done|done|set_solver|]. intros r Hr.
  replace (({[None]} ∪ objects h) ∖ {[None]}) with (objects h); [by apply HQ|].
  pose proof (objects_local h). set_solver.
Qed.
End steps.

(** Where the object of a call is. *)
Ltac object_tac :=
  first
  [ assumption
  | apply objects_elem; eexists; first [eassumption|apply lookup_insert_eq]
  | apply elem_of_union_l, elem_of_singleton_2; reflexivity ].
(** The paths of a call are good. *)
Ltac paths_tac := cbn; repeat (apply Forall_cons_2; [assumption|]); apply Forall_nil_2.

(** Reduce one statement of an adapter. *)
Ltac lib_step_tac l :=
  let u := eval cbn in (lib_usage l) in
  lazymatch u with
  | Plain => refine (wp_plain _ l _ _ _ eq_refl _ _); [paths_tac|intros ? ?]
  | Uses ?o => refine (wp_uses _ l o _ _ _ eq_refl _ _ _); [paths_tac|object_tac|intros ? ?]
  | Closes None => refine (wp_closes_local _ l _ _ eq_refl _ _); [paths_tac|intros ? ?]
  | Closes ?o => refine (wp_closes _ l o _ _ _ eq_refl _ _ _); [paths_tac|object_tac|intros ? ?]
  | Opens None ?f => refine (wp_opens_local _ l f _ _ eq_refl _ _ _); [paths_tac|intros ? ? ?..]
  | Opens (Some ?p) ?f =>
    refine (wp_opens_block _ l p f _ _ _ eq_refl _ _ _ _); [paths_tac|eassumption|intros ? ? ?..]
  end.
Ltac back_step :=
  lazymatch goal with
  | |- wp _ _ _ (mbind _ _ _) _ _ => apply wp_mbind
  | |- wp _ _ _ (mret _ _) _ _ => cbn [wp mret io_ret]
  | |- wp _ _ _ (io_fail _ _) _ _ => cbn [wp io_fail]
  | |- wp _ _ _ (io_reject ?b _ _) _ _ => unfold io_reject
  | |- wp _ _ _ (of_outcome ?o _) _ _ => cbn [wp of_outcome]; destruct o eqn:?
  | |- wp _ _ _ ((if ?b then _ else _) _) _ _ => destruct b eqn:?; try (exfalso; lia)
  | |- wp _ _ _ (match ?r with pair _ _ => _ end _) _ _ => destruct r
  | |- wp _ _ _ (malloc _ _) _ _ => apply wp_malloc; [|intros ? ? ?]
  | |- wp _ _ _ (free _ _) _ _ => eapply wp_free; [first [eassumption|apply lookup_insert_eq]|]
  | |- wp _ _ _ (access _ _ _) _ _ => eapply wp_access; [eassumption|]
  | |- wp _ _ _ (ask_policy _ _) _ _ => apply wp_policy; intros ?
  | |- wp _ _ _ (lib ?l _) _ _ => lib_step_tac l
  end; cbv beta iota zeta; cbn [fst snd].

(** What is left at the end of a callback. *)
Ltac back_end :=
  split_and!;
  [ reflexivity
  | first [reflexivity|rewrite delete_insert_id by assumption; reflexivity|rewrite objects_delete; reflexivity]
  | first [exact I|apply early_reply_good|idtac]
  | cbn [heap_after settle early_reply fst snd]; change (status_bad SSH_OK) with false; cbn match;
    first [reflexivity|apply delete_insert_id; assumption|by split_and!|idtac] ].

(** ** A session over an adapter *)
Section session.
Context {L : Type} {LR : L -> Type} `{!Library L LR} (path_good : list Z -> Prop).
Context {W : Type} (fs : ssh_portable_fs (bcall L) (breply LR) heap) `{!FsBackend path_good fs}.
Variable e : env (bcall L) (breply LR) W.
Hypothesis e_good : env_good backend_good e.

(** What holds between two callbacks, with the handles [open]: no fault so far,
    every call of the library was right, and the blocks on the heap, the open
    objects of the library and the open handles are the same. *)
Record in_step (open : list (Z * Z)) (w : backend L LR W) : Prop := {
  step_fault : back_fault w = false;
  step_null : back_heap w !! 0 = None;
  step_handles : handles (back_heap w) ≡ₚ open;
  step_log : accepted lib_step (lib_ok path_good) ∅ (back_log w);
  step_objects : final lib_step ∅ (back_log w) = objects (back_heap w)
}.

Lemma permits_asked ses x c w :
  permits ses x c -> in_step (open_handles x) w -> asked c (back_heap w).
Proof.
  intros Hp [_ _ Hh _ _].
  assert (forall b p, (kind_of b, p) ∈ open_handles x -> back_heap w !! p = Some b) as Hin.
  { intros b p. rewrite <- Hh. by rewrite handles_elem. }
  destruct c; cbn [permits] in Hp; cbn [asked]; unfold on_handle in Hp;
    first [exact I|by apply (Hin FileBlock); naive_solver|by apply (Hin DirBlock); naive_solver|naive_solver].
Qed.

Lemma heap_after_handles x c h r h' :
  asked c h -> h !! 0 = None -> handles h ≡ₚ open_handles x -> heap_after c h r h' ->
  h' !! 0 = None /\ handles h' ≡ₚ open_handles (watch_step x c r).
Proof.
  intros Ha H0 Hh Hr. destruct c; cbn [heap_after] in Hr; cbn [watch_step open_handles]; try by subst h'.
  - subst h'. by destruct (status_bad r).
  - destruct (status_bad (fst r)); [by subst h'|]. destruct Hr as (Hz & Hn & ->).
    rewrite lookup_insert_ne by done. split; [done|]. cbn [open_handles]. by rewrite handles_insert, Hh.
  - subst h'. rewrite lookup_delete_None. split; [by right|]. by apply (handles_delete h FileBlock).
  - destruct (status_bad (fst r)); [by subst h'|]. destruct Hr as (Hz & Hn & ->).
    rewrite lookup_insert_ne by done. split; [done|]. cbn [open_handles]. by rewrite handles_insert, Hh.
  - subst h'. rewrite lookup_delete_None. split; [by right|]. by apply (handles_delete h DirBlock).
Qed.

Lemma backend_linked ses :
  env_linked watch_step (permits ses) reply_good (backend_env fs e) (fun x _ w => in_step (open_handles x) w).
Proof.
  intros x past c w Hi Hp. pose proof (permits_asked _ _ _ _ Hp Hi) as Ha. destruct Hi as [Hf H0 Hh Hl Ho].
  pose proof (run_monitored _ _ _ e _ _ _ (back_world w) e_good (backend_keeps c _ Ha H0)) as H.
  unfold backend_env. destruct (run e _ (back_world w)) as [[[o h'] w'] evs].
  destruct H as (Hacc & Hof & Hobj & Hg & Hr).
  destruct (heap_after_handles x c _ _ h' Ha H0 Hh Hr) as [H0' Hh'].
  split; [done|]. split; cbn [back_fault back_heap back_log].
  - by rewrite Hf, Hof.
  - done.
  - done.
  - apply accepted_app. by rewrite Ho.
  - by rewrite final_trace_app, Ho.
Qed.

Lemma packets_linked cap pks ses w open :
  0 <= cap -> Forall (Forall is_byte) pks -> tracked ses (mk_watch [] open) -> in_step open w ->
  let '(xs, ses', w') := packets (backend_env fs e) cap pks ses w in
  exchanges_ok cap open xs /\ map ex_packet xs = pks /\
  exists open', tracked ses' (mk_watch [] open') /\ in_step open' w'.
Proof.
  intros Hc Hpks. revert ses w open. induction Hpks as [|pk pks Hpk _ IH]; intros ses w open Ht Hi; cbn [packets].
  { by split_and!; [| |exists open]. }
  unfold one_packet.
  assert (running cap ses (mk_server_state ses (Some (zeros cap))) (mk_watch [] open)) as Hr.
  { split; [done|by split|]. exists (zeros cap). rewrite zlen_zeros by done. split_and!; [done|lia..|by apply Forall_replicate]. }
  pose proof (run_linked _ _ _ (backend_env fs e) _ _ _ (mk_watch [] open) [] w (backend_linked ses) Hi
    (handle_packet_safe pk cap ses Hpk _ _ Hr)) as H.
  destruct (run (backend_env fs e) _ w) as [[[o s'] w1] evs]. destruct H as (Hacc & (Ht1 & Hs1 & Hans) & Hi1).
  apply (tracked_granted _ _ []) in Ht1. specialize (IH (st_session s') w1 _ Ht1 Hi1).
  destruct (packets (backend_env fs e) cap pks (st_session s') w1) as [[xs ses2] w2].
  destruct IH as (Hxs & Hps & Hend). split_and!; [split; [by split|exact Hxs]|cbn [map ex_packet]; by rewrite Hps|done].
Qed.

(** The session as a whole. *)
Lemma session_over_safe cap api policy pks w :
  0 <= cap -> Forall (Forall is_byte) pks -> fs_close api = true -> fs_closedir api = true ->
  let '(xs, w') := session_over fs e cap api policy pks w in
  (map ex_packet xs = pks /\ exchanges_ok cap [] xs) /\
  back_fault w' = false /\ back_heap w' = ∅ /\
  accepted lib_step (lib_ok path_good) ∅ (back_log w') /\ final lib_step ∅ (back_log w') = ∅.
Proof.
  intros Hc Hp H1 H2. unfold session_over.
  assert (in_step [] (backend_start (L:=L) (LR:=LR) w)) as H0 by (split; by vm_compute).
  pose proof (packets_linked cap pks _ _ [] Hc Hp (init_tracked api policy H1 H2) H0) as H.
  destruct (packets _ _ _ _ _) as [[xs ses1] w1]. destruct H as (Hx & Hm & open & Ht & Hi).
  pose proof (run_linked _ _ _ (backend_env fs e) _ _ _ (mk_watch [] open) [] w1 (backend_linked ses1) Hi
    (wp_deinit ses1 ses1 None _ Ht)) as H.
  destruct (run (backend_env fs e) _ w1) as [[r w2] evs]. destruct H as (_ & (_ & Hno) & [Hf _ Hh Hl Ho]).
  rewrite Hno in Hh. apply handles_empty in Hh. by rewrite Ho, Hh.
Qed.
End session.
