(* ===== verification/FatfsAdapter.v ===== *)
(** * The FatFs adapter: src/platform/fatfs_adapter.c

    The file system callbacks of the server on the functions of ff.h, which are
    calls of the library here.  The macros of ffconf.h on which the adapter
    depends are the fields of [ff_config].  Of the adapter the callbacks read
    only [path_prefix], so that is their context; the pointers through which
    they store results are never null.  The name buffers of a directory handle
    are written anew by every call that reads them, so they are local values. *)

From stdpp Require Import gmap.
From S2P Require Import Prelude Interaction Buffer Packet Codec Sftp SftpPath SftpServer PortableFs FsBackend.

Definition EMSSH_FATFS_ADAPTER_PATH_MAX : Z := 256.

(** ** The library *)
Inductive FRESULT : Type :=
| FR_OK | FR_DISK_ERR | FR_INT_ERR | FR_NOT_READY | FR_NO_FILE | FR_NO_PATH | FR_INVALID_NAME | FR_DENIED
| FR_EXIST | FR_INVALID_OBJECT | FR_WRITE_PROTECTED | FR_INVALID_DRIVE | FR_NOT_ENABLED | FR_NO_FILESYSTEM
| FR_MKFS_ABORTED | FR_TIMEOUT | FR_LOCKED | FR_NOT_ENOUGH_CORE | FR_TOO_MANY_OPEN_FILES | FR_INVALID_PARAMETER.
#[export] Instance FRESULT_eq_dec : EqDecision FRESULT.
Proof. solve_decision. Defined.

Definition FA_READ : Z := 1.
Definition FA_WRITE : Z := 2.
Definition FA_OPEN_EXISTING : Z := 0.
Definition FA_CREATE_NEW : Z := 4.
Definition FA_CREATE_ALWAYS : Z := 8.
Definition FA_OPEN_ALWAYS : Z := 16.
Definition AM_RDO : Z := 1.
Definition AM_DIR : Z := 16.

Record ff_config : Type := mk_ff_config {
  FF_USE_LFN : bool;
  FF_LFN_UNICODE : Z;
  FF_LFN_BUF : Z;
  FF_MIN_SS : Z
}.

(** [FILINFO]; the names are the characters before the terminator. *)
Record FILINFO : Type := mk_filinfo {
  fsize : Z; fattrib : Z; altname : list Z; fname : list Z
}.
(** The fields of [FATFS] that the adapter reads. *)
Record FATFS : Type := mk_fatfs { n_fatent : Z; csize : Z }.

Inductive ff_call : Type :=
| F_open (f : object) (path : list Z) (mode : Z)
| F_close (f : object)
| F_read (f : object) (btr : Z)
| F_write (f : object) (data : list Z)
| F_lseek (f : object) (ofs : Z)
| F_truncate (f : object)
| F_size (f : object)
| F_sync (f : object)
| F_opendir (d : object) (path : list Z)
| F_readdir (d : object)
| F_closedir (d : object)
| F_stat (path : list Z)
| F_mkdir (path : list Z)
| F_unlink (path : list Z)
| F_rename (old_path new_path : list Z)
| F_getfree (path : list Z).

Definition ff_reply (c : ff_call) : Type :=
  match c with
  | F_read _ _ => FRESULT * list Z * Z
  | F_write _ _ => FRESULT * Z
  | F_size _ => Z
  | F_readdir _ | F_stat _ => FRESULT * FILINFO
  | F_getfree _ => FRESULT * Z * FATFS
  | _ => FRESULT
  end.

Abbreviation FatM := (IO (bcall ff_call) (breply ff_reply) heap).

Definition f_open (f : object) (path : list Z) (mode : Z) : FatM FRESULT := lib (F_open f path mode).
Definition f_close (f : object) : FatM FRESULT := lib (F_close f).
Definition f_read (f : object) (btr : Z) : FatM (FRESULT * list Z * Z) := lib (F_read f btr).
Definition f_write (f : object) (data : list Z) : FatM (FRESULT * Z) := lib (F_write f data).
Definition f_lseek (f : object) (ofs : Z) : FatM FRESULT := lib (F_lseek f ofs).
Definition f_truncate (f : object) : FatM FRESULT := lib (F_truncate f).
Definition f_size (f : object) : FatM Z := lib (F_size f).
Definition f_sync (f : object) : FatM FRESULT := lib (F_sync f).
Definition f_opendir (d : object) (path : list Z) : FatM FRESULT := lib (F_opendir d path).
Definition f_readdir (d : object) : FatM (FRESULT * FILINFO) := lib (F_readdir d).
Definition f_closedir (d : object) : FatM FRESULT := lib (F_closedir d).
Definition f_stat (path : list Z) : FatM (FRESULT * FILINFO) := lib (F_stat path).
Definition f_mkdir (path : list Z) : FatM FRESULT := lib (F_mkdir path).
Definition f_unlink (path : list Z) : FatM FRESULT := lib (F_unlink path).
(** [#define f_rmdir(path) f_unlink(path)] *)
Definition f_rmdir (path : list Z) : FatM FRESULT := f_unlink path.
Definition f_rename (old_path new_path : list Z) : FatM FRESULT := lib (F_rename old_path new_path).
Definition f_getfree (path : list Z) : FatM (FRESULT * Z * FATFS) := lib (F_getfree path).

(** ** Helpers *)
Definition fatfs_status_from_fresult (fr : FRESULT) : ssh_status :=
  match fr with
  | FR_OK => SSH_OK
  | FR_NO_FILE | FR_NO_PATH | FR_INVALID_NAME => SSH_ERR_NOT_FOUND
  | FR_EXIST => SSH_ERR_ALREADY_EXISTS
  | FR_DENIED | FR_WRITE_PROTECTED => SSH_ERR_SECURITY
  | FR_INVALID_PARAMETER => SSH_ERR_INVALID_ARGUMENT
  | _ => SSH_ERR_PLATFORM
  end.

(** [fr != FR_OK] *)
Definition fr_bad (fr : FRESULT) : bool := negb (bool_decide (fr = FR_OK)).

Section adapter.
Variable cfg : ff_config.

(** What is in [dst] afterwards. *)
Definition fatfs_copy_tchar_to_char (dst_capacity : Z) (src : list Z) : outcome (list Z) :=
  if dst_capacity =? 0 then Err SSH_ERR_INVALID_ARGUMENT else
  if (FF_LFN_UNICODE cfg =? 1) || (FF_LFN_UNICODE cfg =? 3) then Err SSH_ERR_UNSUPPORTED else
  if u64 (zlen src + 1) >? dst_capacity then Err SSH_ERR_BUFFER_TOO_SMALL else Ret src.

(** [adapter] is the path prefix of the adapter, or nothing for a null pointer;
    the result is the string in [out]. *)
Definition fatfs_build_path (adapter : option (list Z)) (path : list Z) (out_capacity : Z) : outcome (list Z) :=
  match adapter with
  | None => Err SSH_ERR_INVALID_ARGUMENT
  | Some path_prefix =>
    if out_capacity =? 0 then Err SSH_ERR_INVALID_ARGUMENT else
    let relative := skip_slashes path in
    let prefix_len := zlen path_prefix in
    let relative_len := zlen relative in
    if prefix_len =? 0 then
      if relative_len =? 0 then
        if out_capacity <? 2 then Err SSH_ERR_BUFFER_TOO_SMALL else Ret [SLASH]
      else if u64 (relative_len + 1) >? out_capacity then Err SSH_ERR_BUFFER_TOO_SMALL
      else Ret relative
    else
    let needed := u64 (prefix_len + 1 + (if relative_len =? 0 then 0 else relative_len) + 1) in
    if needed >? out_capacity then Err SSH_ERR_BUFFER_TOO_SMALL else
    if List.last path_prefix 0 =? SLASH then
      if relative_len =? 0 then Ret path_prefix else Ret (path_prefix ++ relative)
    else if relative_len =? 0 then Ret (path_prefix ++ [SLASH])
    else Ret (path_prefix ++ [SLASH] ++ relative)
  end.

Definition fatfs_translate_attrs (info : FILINFO) : ssh_fs_attrs :=
  let perms := if has_flag (fattrib info) AM_DIR then 493 else 420 in
  let perms := if has_flag (fattrib info) AM_RDO then Z.land perms (u32 (Z.lnot 146)) else perms in
  mk_attrs (Z.lor SSH_FILEXFER_ATTR_SIZE SSH_FILEXFER_ATTR_PERMISSIONS) (fsize info) 0 0 perms 0 0.

(** ** Callbacks *)
Definition fatfs_path (ctx : option (list Z)) (path : list Z) : FatM (list Z) :=
  of_outcome (fatfs_build_path ctx path EMSSH_FATFS_ADAPTER_PATH_MAX).

(** The [mode] argument of [f_open]. *)
Definition fatfs_open_mode (flags : Z) : Z :=
  let mode := if has_flag flags SSH_FXF_READ then FA_READ else 0 in
  let mode := if has_flag flags SSH_FXF_WRITE then Z.lor mode FA_WRITE else mode in
  if has_flag flags SSH_FXF_CREAT && has_flag flags SSH_FXF_EXCL then Z.lor mode FA_CREATE_NEW
  else if has_flag flags SSH_FXF_CREAT && has_flag flags SSH_FXF_TRUNC then Z.lor mode FA_CREATE_ALWAYS
  else if has_flag flags SSH_FXF_CREAT then Z.lor mode FA_OPEN_ALWAYS
  else Z.lor mode FA_OPEN_EXISTING.

Definition fatfs_open_cb (ctx : option (list Z)) (path : list Z) (flags : Z) : FatM (ssh_status * Z) :=
  io_reject (is_null ctx) SSH_ERR_INVALID_ARGUMENT;;
  io_reject (negb (has_flag flags (Z.lor SSH_FXF_READ SSH_FXF_WRITE))) SSH_ERR_INVALID_ARGUMENT;;
  full_path ← fatfs_path ctx path;
  let mode := fatfs_open_mode flags in
  file_handle ← malloc FileBlock;
  io_reject (file_handle =? 0) SSH_ERR_PLATFORM;;
  let file := Some file_handle in
  fr ← f_open file full_path mode;
  if fr_bad fr then free file_handle;; mret (fatfs_status_from_fresult fr, 0) else
  fr ← (if has_flag flags SSH_FXF_TRUNC && negb (has_flag flags SSH_FXF_CREAT) then
          fr ← f_lseek file 0;
          if fr_bad fr then mret fr else f_truncate file
        else mret FR_OK);
  if fr_bad fr then f_close file;; free file_handle;; mret (fatfs_status_from_fresult fr, 0) else
  fr ← (if has_flag flags SSH_FXF_APPEND then size ← f_size file; f_lseek file size else mret FR_OK);
  if fr_bad fr then f_close file;; free file_handle;; mret (fatfs_status_from_fresult fr, 0) else
  mret (SSH_OK, file_handle).

Definition fatfs_close_cb (handle : Z) : FatM ssh_status :=
  io_reject (handle =? 0) SSH_ERR_INVALID_ARGUMENT;;
  access FileBlock handle;;
  fr ← f_close (Some handle);
  free handle;;
  mret (fatfs_status_from_fresult fr).

Definition fatfs_read_cb (handle len : Z) : FatM (ssh_status * list Z * Z) :=
  io_reject (handle =? 0) SSH_ERR_INVALID_ARGUMENT;;
  access FileBlock handle;;
  r ← f_read (Some handle) (u32 len);
  let '(fr, buf, bytes_read) := r in
  if fr_bad fr then mret (fatfs_status_from_fresult fr, buf, 0) else mret (SSH_OK, buf, bytes_read).

Definition fatfs_write_cb (handle : Z) (buf : list Z) : FatM (ssh_status * Z) :=
  io_reject (handle =? 0) SSH_ERR_INVALID_ARGUMENT;;
  access FileBlock handle;;
  r ← f_write (Some handle) (ztake (u32 (zlen buf)) buf);
  let '(fr, bytes_written) := r in
  if fr_bad fr then mret (fatfs_status_from_fresult fr, 0) else mret (SSH_OK, bytes_written).

Definition fatfs_read_at_cb (handle offset len : Z) : FatM (ssh_status * list Z * Z) :=
  io_reject ((handle =? 0) || (offset >? UINT32_MAX)) SSH_ERR_INVALID_ARGUMENT;;
  access FileBlock handle;;
  fr ← f_lseek (Some handle) offset;
  if fr_bad fr then mret (fatfs_status_from_fresult fr, [], 0) else
  fatfs_read_cb handle len.

Definition fatfs_write_at_cb (handle offset : Z) (buf : list Z) : FatM (ssh_status * Z) :=
  io_reject ((handle =? 0) || (offset >? UINT32_MAX)) SSH_ERR_INVALID_ARGUMENT;;
  access FileBlock handle;;
  fr ← f_lseek (Some handle) offset;
  if fr_bad fr then mret (fatfs_status_from_fresult fr, 0) else
  fatfs_write_cb handle buf.

Definition fatfs_stat_path (adapter : option (list Z)) (path : list Z) : FatM (ssh_status * option ssh_fs_attrs) :=
  full_path ← fatfs_path adapter path;
  r ← f_stat full_path;
  let '(fr, info) := r in
  if fr_bad fr then mret (fatfs_status_from_fresult fr, None) else
  mret (SSH_OK, Some (fatfs_translate_attrs info)).

Definition fatfs_stat_cb (ctx : option (list Z)) (path : list Z) : FatM (ssh_status * option ssh_fs_attrs) :=
  fatfs_stat_path ctx path.

Definition fatfs_lstat_cb (ctx : option (list Z)) (path : list Z) : FatM (ssh_status * option ssh_fs_attrs) :=
  fatfs_stat_path ctx path.

Definition fatfs_setstat_cb (ctx : option (list Z)) (path : list Z) (attrs : ssh_fs_attrs) : FatM ssh_status :=
  io_reject (is_null ctx) SSH_ERR_INVALID_ARGUMENT;;
  io_reject (negb (has_flag (attr_flags attrs) SSH_FILEXFER_ATTR_SIZE)) SSH_ERR_UNSUPPORTED;;
  io_reject (attr_size attrs >? UINT32_MAX) SSH_ERR_INVALID_ARGUMENT;;
  full_path ← fatfs_path ctx path;
  fr ← f_open None full_path (Z.lor FA_WRITE FA_OPEN_EXISTING);
  if fr_bad fr then mret (fatfs_status_from_fresult fr) else
  fr ← f_lseek None (attr_size attrs);
  fr ← (if fr_bad fr then mret fr else f_truncate None);
  f_close None;;
  mret (fatfs_status_from_fresult fr).

Definition fatfs_fsetstat_cb (handle : Z) (attrs : ssh_fs_attrs) : FatM ssh_status :=
  io_reject (handle =? 0) SSH_ERR_INVALID_ARGUMENT;;
  io_reject (negb (has_flag (attr_flags attrs) SSH_FILEXFER_ATTR_SIZE)) SSH_ERR_UNSUPPORTED;;
  io_reject (attr_size attrs >? UINT32_MAX) SSH_ERR_INVALID_ARGUMENT;;
  access FileBlock handle;;
  fr ← f_lseek (Some handle) (attr_size attrs);
  fr ← (if fr_bad fr then mret fr else f_truncate (Some handle));
  mret (fatfs_status_from_fresult fr).

Definition fatfs_opendir_cb (ctx : option (list Z)) (path : list Z) : FatM (ssh_status * Z) :=
  io_reject (is_null ctx) SSH_ERR_INVALID_ARGUMENT;;
  full_path ← fatfs_path ctx path;
  dir_handle ← malloc DirBlock;
  io_reject (dir_handle =? 0) SSH_ERR_PLATFORM;;
  fr ← f_opendir (Some dir_handle) full_path;
  if fr_bad fr then free dir_handle;; mret (fatfs_status_from_fresult fr, 0) else
  mret (SSH_OK, dir_handle).

(** The end mark comes without an entry. *)
Definition fatfs_readdir_cb (handle : Z) : FatM (ssh_status * ssh_fs_dirent * bool) :=
  io_reject (handle =? 0) SSH_ERR_INVALID_ARGUMENT;;
  access DirBlock handle;;
  r ← f_readdir (Some handle);
  let '(fr, info) := r in
  if fr_bad fr then io_fail (fatfs_status_from_fresult fr) else
  if bool_decide (fname info = []) then mret (SSH_OK, mk_dirent None None zero_attrs, true) else
  name ← of_outcome (fatfs_copy_tchar_to_char EMSSH_FATFS_ADAPTER_PATH_MAX (fname info));
  longname ← (if FF_USE_LFN cfg && negb (bool_decide (altname info = []))
              then of_outcome (fatfs_copy_tchar_to_char EMSSH_FATFS_ADAPTER_PATH_MAX (altname info))
              else if u64 (zlen name + 1) >? EMSSH_FATFS_ADAPTER_PATH_MAX
              then io_fail SSH_ERR_BUFFER_TOO_SMALL else mret name);
  mret (SSH_OK, mk_dirent (Some name) (Some longname) (fatfs_translate_attrs info), false).

Definition fatfs_closedir_cb (handle : Z) : FatM ssh_status :=
  io_reject (handle =? 0) SSH_ERR_INVALID_ARGUMENT;;
  access DirBlock handle;;
  fr ← f_closedir (Some handle);
  free handle;;
  mret (fatfs_status_from_fresult fr).

Definition fatfs_mkdir_cb (ctx : option (list Z)) (path : list Z) (attrs : ssh_fs_attrs) : FatM ssh_status :=
  io_reject (is_null ctx) SSH_ERR_INVALID_ARGUMENT;;
  full_path ← fatfs_path ctx path;
  fr ← f_mkdir full_path;
  mret (fatfs_status_from_fresult fr).

Definition fatfs_rmdir_cb (ctx : option (list Z)) (path : list Z) : FatM ssh_status :=
  io_reject (is_null ctx) SSH_ERR_INVALID_ARGUMENT;;
  full_path ← fatfs_path ctx path;
  fr ← f_rmdir full_path;
  mret (fatfs_status_from_fresult fr).

Definition fatfs_remove_cb (ctx : option (list Z)) (path : list Z) : FatM ssh_status :=
  io_reject (is_null ctx) SSH_ERR_INVALID_ARGUMENT;;
  full_path ← fatfs_path ctx path;
  fr ← f_unlink full_path;
  mret (fatfs_status_from_fresult fr).

Definition fatfs_rename_internal (ctx : option (list Z)) (old_path new_path : list Z) : FatM ssh_status :=
  io_reject (is_null ctx) SSH_ERR_INVALID_ARGUMENT;;
  full_old_path ← fatfs_path ctx old_path;
  full_new_path ← fatfs_path ctx new_path;
  fr ← f_rename full_old_path full_new_path;
  mret (fatfs_status_from_fresult fr).

Definition fatfs_rename_cb (ctx : option (list Z)) (old_path new_path : list Z) : FatM ssh_status :=
  fatfs_rename_internal ctx old_path new_path.

Definition fatfs_posix_rename_cb (ctx : option (list Z)) (old_path new_path : list Z) : FatM ssh_status :=
  fatfs_rename_internal ctx old_path new_path.

Definition fatfs_fsync_cb (handle : Z) : FatM ssh_status :=
  io_reject (handle =? 0) SSH_ERR_INVALID_ARGUMENT;;
  access FileBlock handle;;
  fr ← f_sync (Some handle);
  mret (fatfs_status_from_fresult fr).

Definition fatfs_hardlink_cb (old_path new_path : list Z) : FatM ssh_status := mret SSH_ERR_UNSUPPORTED.

Definition fatfs_statvfs_cb (ctx : option (list Z)) (path : list Z) : FatM (ssh_status * ssh_fs_statvfs) :=
  io_reject (is_null ctx) SSH_ERR_INVALID_ARGUMENT;;
  query_path ← fatfs_path ctx path;
  r ← f_getfree query_path;
  let '(fr, free_clusters, fatfs) := r in
  if fr_bad fr then io_fail (fatfs_status_from_fresult fr) else
  let total_clusters := if n_fatent fatfs >? 2 then n_fatent fatfs - 2 else 0 in
  mret (SSH_OK, mk_statvfs (FF_MIN_SS cfg) (u64 (FF_MIN_SS cfg * csize fatfs)) total_clusters free_clusters
                  free_clusters 0 0 0 0 0 (FF_LFN_BUF cfg)).

Definition fatfs_fstatvfs_cb (ctx : option (list Z)) (handle : Z) : FatM (ssh_status * ssh_fs_statvfs) :=
  fatfs_statvfs_cb ctx [SLASH].

(** ** The adapter *)
Record ssh_fatfs_adapter : Type := mk_fatfs_adapter {
  fatfs_fs : ssh_portable_fs (bcall ff_call) (breply ff_reply) heap;
  fatfs_path_prefix : list Z;
  fatfs_initialized : bool
}.

Definition zero_fatfs_adapter : ssh_fatfs_adapter := mk_fatfs_adapter (mk_portable_fs None zero_api) [] false.

Definition fatfs_ops (ctx : option (list Z)) : ssh_portable_fs_ops (bcall ff_call) (breply ff_reply) heap :=
  mk_fs_ops (Some (fatfs_open_cb ctx)) (Some fatfs_close_cb) (Some fatfs_read_cb) (Some fatfs_write_cb)
    (Some fatfs_read_at_cb) (Some fatfs_write_at_cb) (Some (fatfs_stat_cb ctx)) (Some (fatfs_lstat_cb ctx))
    (Some (fatfs_setstat_cb ctx)) (Some fatfs_fsetstat_cb) (Some (fatfs_opendir_cb ctx)) (Some fatfs_readdir_cb)
    (Some fatfs_closedir_cb) (Some (fatfs_mkdir_cb ctx)) (Some (fatfs_rmdir_cb ctx)) (Some (fatfs_remove_cb ctx))
    (Some (fatfs_rename_cb ctx)) (Some (fatfs_posix_rename_cb ctx)) (Some fatfs_fsync_cb)
    (Some fatfs_hardlink_cb) (Some (fatfs_statvfs_cb ctx)) (Some (fatfs_fstatvfs_cb ctx)).

(** The adapter afterwards, or the status; [adapter] is what the memory held. *)
Definition ssh_fatfs_adapter_init (adapter : option ssh_fatfs_adapter) (path_prefix : option (list Z))
    : outcome ssh_fatfs_adapter :=
  if is_null adapter then Err SSH_ERR_INVALID_ARGUMENT else
  let path_prefix := default [] path_prefix in
  if zlen path_prefix >=? EMSSH_FATFS_ADAPTER_PATH_MAX then Err SSH_ERR_BUFFER_TOO_SMALL else
  fs ← ssh_portable_fs_init (Some (mk_portable_fs None zero_api)) (Some (fatfs_ops (Some path_prefix)));
  Ret (mk_fatfs_adapter fs path_prefix true).

Definition ssh_fatfs_adapter_deinit (adapter : option ssh_fatfs_adapter) : option ssh_fatfs_adapter :=
  match adapter with None => None | Some _ => Some zero_fatfs_adapter end.

Definition ssh_fatfs_adapter_api (adapter : option ssh_fatfs_adapter) : option ssh_fs_api :=
  match adapter with
  | None => None
  | Some adapter => if negb (fatfs_initialized adapter) then None else ssh_portable_fs_api (Some (fatfs_fs adapter))
  end.
End adapter.
