(* ===== verification/FatfsSession.v ===== *)
(** * Sessions on a FatFs volume

    The theorems on FatfsAdapter.v: which strings it makes of the paths of the
    server, and that the adapter keeps the promise of FsBackend.v, with what
    follows for a whole session of the SFTP server on a FatFs volume.  A small
    volume in memory shows what the adapter does to the contents of files. *)

From stdpp Require Import gmap.
From S2P Require Import Prelude Interaction Buffer Packet Codec Sftp SftpPath SftpServer SftpServerSafe SftpSession.
From S2P Require Import PortableFs FsBackend FatfsAdapter.

(** ** The functions of ff.h and their objects *)

(** A read stores bytes, no more than it was asked for; names are bytes. *)
Definition ff_good (c : ff_call) : ff_reply c -> Prop :=
  match c return ff_reply c -> Prop with
  | F_read _ btr => fun r =>
    Forall is_byte (snd (fst r)) /\ zlen (snd (fst r)) <= Z.max 0 btr /\ 0 <= snd r
  | F_readdir _ => fun r => name_good (fname (snd r)) /\ name_good (altname (snd r))
  | _ => fun _ => True
  end.

#[export] Instance fatfs_library : Library ff_call ff_reply := {
  lib_usage c :=
    match c return usage (ff_reply c) with
    | F_open f _ _ => Opens f (fun fr => negb (fr_bad fr))
    | F_opendir d _ => Opens d (fun fr => negb (fr_bad fr))
    | F_close f => Closes f
    | F_closedir d => Closes d
    | F_read f _ => Uses f
    | F_write f _ => Uses f
    | F_lseek f _ => Uses f
    | F_truncate f => Uses f
    | F_size f => Uses f
    | F_sync f => Uses f
    | F_readdir d => Uses d
    | _ => Plain
    end;
  lib_paths c :=
    match c with
    | F_open _ p _ | F_opendir _ p | F_stat p | F_mkdir p | F_unlink p | F_getfree p => [p]
    | F_rename p q => [p; q]
    | _ => []
    end;
  lib_good := ff_good
}.

(** ** Paths

    The directory that a prefix names, with its slash, and the strings for the
    files in it: they fit the buffers of the adapter, and below the directory
    there are only proper segments. *)
Definition volume_dir (prefix : list Z) : list Z :=
  if bool_decide (prefix = []) then []
  else if List.last prefix 0 =? SLASH then prefix else prefix ++ [SLASH].

Definition fatfs_confined (prefix full : list Z) : Prop :=
  zlen full < EMSSH_FATFS_ADAPTER_PATH_MAX /\
  ((exists rel, relative_path rel /\ full = volume_dir prefix ++ rel) \/ (prefix = [] /\ full = [SLASH])).

Lemma build_path_confined prefix path :
  zlen prefix < EMSSH_FATFS_ADAPTER_PATH_MAX -> normal_path path ->
  match fatfs_build_path (Some prefix) path EMSSH_FATFS_ADAPTER_PATH_MAX with
  | Ret full => fatfs_confined prefix full
  | Err e => e = SSH_ERR_BUFFER_TOO_SMALL
  | Fault => False
  end.
Proof.
  intros Hp Hn. destruct (skip_slashes_normal path Hn) as [Hr Hl]. unfold fatfs_build_path, fatfs_confined, volume_dir.
  set (rel := skip_slashes path) in *. clearbody rel. change (EMSSH_FATFS_ADAPTER_PATH_MAX =? 0) with false.
  change (EMSSH_FATFS_ADAPTER_PATH_MAX <? 2) with false. unfold EMSSH_FATFS_ADAPTER_PATH_MAX, EMSSH_SFTP_MAX_PATH in *. cbn match.
  pose proof (zlen_nonneg rel). pose proof (zlen_nonneg prefix).
  destruct (Z.eqb_spec (zlen prefix) 0) as [Hz|Hz].
  - apply zlen_zero_inv in Hz as ->. rewrite bool_decide_true by done.
    destruct (Z.eqb_spec (zlen rel) 0); [split; [done|by right]|].
    unfold u64. rewrite Z.mod_small by lia. destruct (Z.gtb_spec (zlen rel + 1) 256); [done|].
    split; [lia|]. left. by exists rel.
  - rewrite (bool_decide_false (prefix = [])) by (intros ->; done).
    assert ((if zlen rel =? 0 then 0 else zlen rel) = zlen rel) as -> by (destruct (Z.eqb_spec (zlen rel) 0); lia).
    unfold u64. rewrite Z.mod_small by lia. destruct (Z.gtb_spec (zlen prefix + 1 + zlen rel + 1) 256); [done|].
    destruct (List.last prefix 0 =? SLASH) eqn:El, (Z.eqb_spec (zlen rel) 0) as [Hz'|Hz'];
      (split; [len_lia|left; exists rel; split; [done|]]).
    + apply zlen_zero_inv in Hz' as ->. by rewrite app_nil_r.
    + done.
    + apply zlen_zero_inv in Hz' as ->. by rewrite app_nil_r.
    + by rewrite <- app_assoc.
Qed.

(** ** The promise of the adapter *)
Section promise.
Variables (cfg : ff_config) (prefix : list Z).
Hypothesis prefix_fits : zlen prefix < EMSSH_FATFS_ADAPTER_PATH_MAX.

Abbreviation WP := (wp lib_step (lib_ok (fatfs_confined prefix)) backend_good).

Lemma fresult_bad fr : fr_bad fr = true -> status_bad (fatfs_status_from_fresult fr) = true.
Proof. by destruct fr. Qed.

Lemma wp_fatfs_path path (h : heap) x Q :
  normal_path path ->
  (forall full, fatfs_confined prefix full -> Q (Ret full, h) x) -> Q (Err SSH_ERR_BUFFER_TOO_SMALL, h) x ->
  WP (fatfs_path (Some prefix) path h) Q x.
Proof.
  intros Hn HQ He. pose proof (build_path_confined prefix path prefix_fits Hn) as H. unfold fatfs_path.
  cbn [wp of_outcome]. destruct (fatfs_build_path _ _ _); [by apply HQ|by subst|done].
Qed.
(** What comes of copying a name. *)
Lemma wp_copy_name src (h : heap) x Q :
  name_good src ->
  (text_ok src -> Q (Ret src, h) x) -> (forall e, Q (Err e, h) x) ->
  WP (of_outcome (fatfs_copy_tchar_to_char cfg EMSSH_FATFS_ADAPTER_PATH_MAX src) h) Q x.
Proof.
  intros [Hb Hl] HQ He. unfold fatfs_copy_tchar_to_char. cbn [wp of_outcome].
  change (EMSSH_FATFS_ADAPTER_PATH_MAX =? 0) with false. cbn match. case_bool; [apply He|].
  unfold u64. rewrite Z.mod_small by (pose proof (zlen_nonneg src); lia). unfold EMSSH_FATFS_ADAPTER_PATH_MAX.
  case_bool; [apply He|]. apply HQ. split; [done|lia].
Qed.

Ltac fat_step :=
  lazymatch goal with
  | |- wp _ _ _ (fatfs_path _ _ _) _ _ => apply wp_fatfs_path; [done|intros ? ?|]
  | |- wp _ _ _ (of_outcome (fatfs_copy_tchar_to_char _ _ _) _) _ _ =>
    apply wp_copy_name; [match goal with H : lib_good _ _ |- _ => by destruct H end|intros ?|intros ?]
  | |- wp _ _ _ _ _ _ =>
    first [ back_step
          | progress unfold f_open, f_close, f_read, f_write, f_lseek, f_truncate, f_size, f_sync, f_opendir,
              f_readdir, f_closedir, f_stat, f_mkdir, f_rmdir, f_unlink, f_rename, f_getfree ]
  end; cbv beta iota zeta; cbn [fst snd].

Ltac fat_entry :=
  portable_entry; cbv [fatfs_ops];
  unfold fatfs_open_cb, fatfs_close_cb, fatfs_read_at_cb, fatfs_write_at_cb, fatfs_read_cb, fatfs_write_cb,
    fatfs_stat_cb, fatfs_lstat_cb, fatfs_stat_path, fatfs_setstat_cb, fatfs_fsetstat_cb, fatfs_opendir_cb,
    fatfs_readdir_cb, fatfs_closedir_cb, fatfs_mkdir_cb, fatfs_rmdir_cb, fatfs_remove_cb, fatfs_rename_cb,
    fatfs_posix_rename_cb, fatfs_rename_internal, fatfs_fsync_cb, fatfs_hardlink_cb, fatfs_fstatvfs_cb,
    fatfs_statvfs_cb.

#[export] Instance fatfs_backend api :
  FsBackend (fatfs_confined prefix) (mk_portable_fs (Some (fatfs_ops cfg (Some prefix))) api).
Proof.
  intros c h Ha H0. assert (normal_path [SLASH]) as Hroot.
  { exists true, []. split_and!; [by constructor|done|done]. }
  destruct c; cbn [asked] in Ha; try match type of Ha with _ /\ _ => destruct Ha end;
    try match goal with Ha : _ !! ?p = Some _ |- _ => assert (p <> 0) by congruence end;
    fat_entry; repeat fat_step; back_end;
    first
    [ rewrite fresult_bad by assumption; by apply delete_insert_id
    | by split
    | match goal with H : lib_good _ _ |- _ => destruct H as (? & ? & ?); by apply stored_good end
    | apply (early_reply_good (FsReadAt _ _ _)) ].
Qed.
End promise.

(** ** A volume in memory, for the examples

    Files with their contents, the open objects with the path, the mode and the
    read/write pointer of each, the address of the next block, and a policy that
    refuses to remove files.  [f_lseek] past the end of a file that was opened
    for writing makes the file longer, as the FatFs manual says. *)
Record volume : Type := mk_volume {
  vol_files : gmap (list Z) (list Z);
  vol_open : gmap object (list Z * Z * Z);
  vol_next : Z
}.

Definition vol_contents (v : volume) (path : list Z) : list Z := default [] (vol_files v !! path).
Definition vol_object (v : volume) (o : object) : list Z * Z * Z := default ([], 0, 0) (vol_open v !! o).
Definition vol_store (v : volume) (path data : list Z) : volume :=
  mk_volume (<[path := data]> (vol_files v)) (vol_open v) (vol_next v).
Definition vol_seek (v : volume) (o : object) (ofs : Z) : volume :=
  let '(path, mode, _) := vol_object v o in
  mk_volume (vol_files v) (<[o := (path, mode, ofs)]> (vol_open v)) (vol_next v).
Definition vol_close (v : volume) (o : object) : volume :=
  mk_volume (vol_files v) (delete o (vol_open v)) (vol_next v).

Definition vol_open_file (v : volume) (o : object) (path : list Z) (mode : Z) : FRESULT * volume :=
  let found := negb (is_null (vol_files v !! path)) in
  let creates := has_flag mode (Z.lor FA_CREATE_NEW (Z.lor FA_CREATE_ALWAYS FA_OPEN_ALWAYS)) in
  if found && has_flag mode FA_CREATE_NEW then (FR_EXIST, v) else
  if negb found && negb creates then (FR_NO_FILE, v) else
  let v := if negb found || has_flag mode FA_CREATE_ALWAYS then vol_store v path [] else v in
  (FR_OK, mk_volume (vol_files v) (<[o := (path, mode, 0)]> (vol_open v)) (vol_next v)).

Definition vol_call (c : ff_call) : volume -> ff_reply c * volume :=
  match c return volume -> ff_reply c * volume with
  | F_open o path mode => fun v => vol_open_file v o path mode
  | F_opendir o path => fun v => vol_open_file v o path FA_OPEN_ALWAYS
  | F_close o => fun v => (FR_OK, vol_close v o)
  | F_closedir o => fun v => (FR_OK, vol_close v o)
  | F_read o btr => fun v =>
    let '(path, _, ptr) := vol_object v o in
    let data := map u8 (ztake (Z.max 0 btr) (zdrop ptr (vol_contents v path))) in
    (FR_OK, data, zlen data, vol_seek v o (ptr + zlen data))
  | F_write o data => fun v =>
    let '(path, _, ptr) := vol_object v o in
    let old := vol_contents v path in
    (FR_OK, zlen data,
     vol_seek (vol_store v path (ztake ptr old ++ data ++ zdrop (ptr + zlen data) old)) o (ptr + zlen data))
  | F_lseek o ofs => fun v =>
    let '(path, mode, _) := vol_object v o in
    let old := vol_contents v path in
    if ofs <=? zlen old then (FR_OK, vol_seek v o ofs)
    else if has_flag mode FA_WRITE then (FR_OK, vol_seek (vol_store v path (old ++ zeros (ofs - zlen old))) o ofs)
    else (FR_OK, vol_seek v o (zlen old))
  | F_truncate o => fun v =>
    let '(path, _, ptr) := vol_object v o in (FR_OK, vol_store v path (ztake ptr (vol_contents v path)))
  | F_size o => fun v => (zlen (vol_contents v (fst (fst (vol_object v o)))), v)
  | F_sync _ => fun v => (FR_OK, v)
  | F_readdir _ => fun v => (FR_OK, mk_filinfo 0 0 [] [], v)
  | F_stat path => fun v =>
    (if is_null (vol_files v !! path) then FR_NO_FILE else FR_OK,
     mk_filinfo (zlen (vol_contents v path)) 0 [] path, v)
  | F_mkdir _ => fun v => (FR_DENIED, v)
  | F_unlink path => fun v =>
    (if is_null (vol_files v !! path) then FR_NO_FILE else FR_OK,
     mk_volume (delete path (vol_files v)) (vol_open v) (vol_next v))
  | F_rename _ _ => fun v => (FR_DENIED, v)
  | F_getfree _ => fun v => (FR_OK, 0, mk_fatfs 2 1, v)
  end.

Definition vol_env : env (bcall ff_call) (breply ff_reply) volume := fun c =>
  match c return volume -> breply ff_reply c * volume with
  | Malloc live => fun v =>
    (if decide (vol_next v ∈ live) then 0 else vol_next v,
     mk_volume (vol_files v) (vol_open v) (vol_next v + 1))
  | Policy r => fun v =>
    (match po_operation r with SFTP_POLICY_REMOVE => SSH_ERR_SECURITY | _ => SSH_OK end, v)
  | Lib l => vol_call l
  end.

Lemma vol_env_good : env_good backend_good vol_env.
Proof.
  intros [live|r|l] v; [cbn; case_decide; by auto|done|]. destruct l; try done.
  cbn. destruct (vol_object v f) as [[path mode] ptr]. cbn [fst snd]. set (l := ztake _ _).
  assert (zlen (map u8 l) = zlen l) as -> by (unfold zlen; by rewrite length_map).
  split_and!; [|unfold l, ztake, zlen; rewrite length_take; lia|apply zlen_nonneg].
  apply Forall_map, Forall_true. intros x. apply Z.mod_pos_bound. lia.
Qed.

Definition demo_cfg : ff_config := mk_ff_config false 0 255 512.
Definition demo_volume : volume := mk_volume {[ cstr "0:/ssh/f" := cstr "ab" ]} ∅ 16.

(** The adapter with the prefix "0:/ssh", a session on the volume, and the files
    afterwards. *)
Definition demo_prefix : list Z := cstr "0:/ssh".
Definition demo_adapter : ssh_fatfs_adapter :=
  mk_fatfs_adapter (mk_portable_fs (Some (fatfs_ops demo_cfg (Some demo_prefix))) demo_fs) demo_prefix true.
Definition demo_session (policy : bool) (pks : list (list Z)) : list exchange * backend ff_call ff_reply volume :=
  session_over (fatfs_fs demo_adapter) vol_env 64 demo_fs policy pks demo_volume.
Definition demo_files (policy : bool) (pks : list (list Z)) : gmap (list Z) (list Z) :=
  vol_files (back_world (snd (demo_session policy pks))).

Definition open_packet (flags : Z) : list Z :=
  request_frame SSH_FXP_OPEN 1 (string_bytes (cstr "/f") ++ be_bytes 4 flags ++ be_bytes 4 0).
Definition write_packet (off : Z) (data : string) : list Z :=
  request_frame SSH_FXP_WRITE 2 (string_bytes (be_bytes 4 1) ++ be_bytes 8 off ++ string_bytes (cstr data)).

(** ** What the adapter does to files *)

(** A write on a handle that was opened to append goes to the offset of the
    request and overwrites the file: the adapter only moves the pointer to the
    end once, when it opens the file. *)
Theorem append_overwrites :
  demo_files false [open_packet (Z.lor SSH_FXF_WRITE SSH_FXF_APPEND); write_packet 0 "XY"] =
  {[ cstr "0:/ssh/f" := cstr "XY" ]}.
Proof. apply (bool_decide_unpack _). by vm_compute. Qed.

(** A read past the end on a handle that may also write makes the file longer. *)
Theorem read_grows_file :
  demo_files false [open_packet (Z.lor SSH_FXF_READ SSH_FXF_WRITE); read_packet 2 (be_bytes 4 1) 4 1] =
  {[ cstr "0:/ssh/f" := cstr "ab" ++ [0; 0] ]}.
Proof. apply (bool_decide_unpack _). by vm_compute. Qed.

(** Removing a directory and removing a file are the same function, so a policy
    that refuses to remove files does not keep a client from removing them. *)
Theorem rmdir_removes_files :
  fatfs_rmdir_cb = fatfs_remove_cb /\
  demo_files true [request_frame SSH_FXP_REMOVE 1 (string_bytes (cstr "/f"))] = vol_files demo_volume /\
  demo_files true [request_frame SSH_FXP_RMDIR 1 (string_bytes (cstr "/f"))] = ∅.
Proof. split_and!; [done|apply (bool_decide_unpack _); by vm_compute..]. Qed.

(** ** Properties *)

(** C10: whatever a client sends in an SFTP session on a FatFs volume, whatever
    the policy, FatFs and the allocator answer (a read stores at most the bytes
    it was asked for, a new block is not in use): every request is answered and
    causes only permitted callbacks; every path that reaches FatFs lies below
    the directory that the prefix of the adapter names and fits its buffers; no
    block is used before it is allocated or after it is freed, and none is freed
    twice; FatFs is called on a file or directory object only while it is open,
    and never opens one twice; and when the session ends every object that was
    opened has been closed and every block freed. *)
Theorem fatfs_session_contained cfg old prefix adapter api {W} (e : env (bcall ff_call) (breply ff_reply) W)
    cap policy pks w :
  ssh_fatfs_adapter_init cfg old prefix = Ret adapter -> ssh_fatfs_adapter_api (Some adapter) = Some api ->
  env_good backend_good e -> 0 <= cap -> Forall (Forall is_byte) pks ->
  let '(xs, w') := session_over (fatfs_fs adapter) e cap api policy pks w in
  (map ex_packet xs = pks /\ exchanges_ok cap [] xs) /\
  back_fault w' = false /\ back_heap w' = ∅ /\
  accepted lib_step (lib_ok (fatfs_confined (default [] prefix))) ∅ (back_log w') /\
  final lib_step ∅ (back_log w') = ∅.
Proof.
  intros Hi Ha He Hc Hp. unfold ssh_fatfs_adapter_init in Hi. destruct (is_null old); [done|].
  destruct (Z.geb_spec (zlen (default [] prefix)) EMSSH_FATFS_ADAPTER_PATH_MAX) as [|Hl]; [done|].
  injection Hi as <-. injection Ha as <-. cbn [fatfs_fs]. unshelve eapply session_over_safe; try done.
  by apply fatfs_backend.
Qed.

Definition demo_requests : list (list Z) :=
  [open_packet (Z.lor SSH_FXF_WRITE SSH_FXF_APPEND); write_packet 0 "XY"].

Lemma fatfs_session_contained_witness :
  ssh_fatfs_adapter_init demo_cfg (Some zero_fatfs_adapter) (Some demo_prefix) = Ret demo_adapter /\
  let w' := snd (demo_session false demo_requests) in
  back_heap w' = ∅ /\ final lib_step ∅ (back_log w') = ∅ /\ length (back_log w') = 8%nat.
Proof.
  assert (ssh_fatfs_adapter_init demo_cfg (Some zero_fatfs_adapter) (Some demo_prefix) = Ret demo_adapter) as E by done.
  split; [done|]. intros w'.
  pose proof (fatfs_session_contained demo_cfg _ _ demo_adapter demo_fs vol_env 64 false demo_requests demo_volume E
    eq_refl vol_env_good) as H.
  unfold w', demo_session. destruct (session_over _ _ _ _ _ _ _) as [xs w1] eqn:Er.
  destruct H as (_ & _ & Hh & _ & Hf); [lia|by apply (bool_decide_unpack _); vm_compute|].
  split_and!; [done|done|]. change w1 with (snd (xs, w1)). rewrite <- Er. by apply (bool_decide_unpack _); vm_compute.
Defined.
