(* ===== verification/LittlefsAdapter.v ===== *)
(** * The littlefs adapter: src/platform/littlefs_adapter.c

    The file system callbacks of the server on the functions of lfs.h, which are
    calls of the library here; [LFS_NAME_MAX] is a macro of that header.  A
    callback reads of the adapter only whether it and its [lfs] pointer are
    null.  The pointers through which callbacks store results are never null,
    and the name buffer of a directory handle, which every call that reads it
    writes anew, is a local value. *)

From stdpp Require Import gmap.
From S2P Require Import Prelude Interaction Buffer Packet Codec Sftp SftpPath SftpServer PortableFs FsBackend.

(** ** The library *)
Definition LFS_ERR_OK : Z := 0.
Definition LFS_ERR_NOENT : Z := -2.
Definition LFS_ERR_BADF : Z := -9.
Definition LFS_ERR_NOMEM : Z := -12.
Definition LFS_ERR_EXIST : Z := -17.
Definition LFS_ERR_NOTDIR : Z := -20.
Definition LFS_ERR_ISDIR : Z := -21.
Definition LFS_ERR_INVAL : Z := -22.
Definition LFS_ERR_NOSPC : Z := -28.
Definition LFS_ERR_NAMETOOLONG : Z := -36.
Definition LFS_ERR_NOTEMPTY : Z := -39.

Definition LFS_TYPE_DIR : Z := 2.
Definition LFS_O_RDONLY : Z := 1.
Definition LFS_O_WRONLY : Z := 2.
Definition LFS_O_RDWR : Z := 3.
Definition LFS_O_CREAT : Z := 256.
Definition LFS_O_EXCL : Z := 512.
Definition LFS_O_TRUNC : Z := 1024.
Definition LFS_O_APPEND : Z := 2048.
Definition LFS_SEEK_SET : Z := 0.

(** [struct lfs_info] and the fields of [struct lfs_fsinfo] that are read. *)
Record lfs_info : Type := mk_lfs_info { info_type : Z; info_size : Z; info_name : list Z }.
Record lfs_fsinfo : Type := mk_lfs_fsinfo { block_size : Z; block_count : Z; name_max : Z }.

Inductive lfs_call : Type :=
| Lfs_file_open (f : object) (path : list Z) (flags : Z)
| Lfs_file_close (f : object)
| Lfs_file_read (f : object) (size : Z)
| Lfs_file_write (f : object) (data : list Z)
| Lfs_file_seek (f : object) (off whence : Z)
| Lfs_file_truncate (f : object) (size : Z)
| Lfs_file_sync (f : object)
| Lfs_dir_open (d : object) (path : list Z)
| Lfs_dir_read (d : object)
| Lfs_dir_close (d : object)
| Lfs_stat (path : list Z)
| Lfs_mkdir (path : list Z)
| Lfs_remove (path : list Z)
| Lfs_rename (old_path new_path : list Z)
| Lfs_fs_stat.

(** The code a function returns, and what it stores: the bytes of a read, or a
    structure. *)
Definition lfs_reply (c : lfs_call) : Type :=
  match c with
  | Lfs_file_read _ _ => Z * list Z
  | Lfs_dir_read _ | Lfs_stat _ => Z * lfs_info
  | Lfs_fs_stat => Z * lfs_fsinfo
  | _ => Z
  end.

Abbreviation LfsM := (IO (bcall lfs_call) (breply lfs_reply) heap).

Definition lfs_file_open (f : object) (path : list Z) (flags : Z) : LfsM Z := lib (Lfs_file_open f path flags).
Definition lfs_file_close (f : object) : LfsM Z := lib (Lfs_file_close f).
Definition lfs_file_read (f : object) (size : Z) : LfsM (Z * list Z) := lib (Lfs_file_read f size).
Definition lfs_file_write (f : object) (data : list Z) : LfsM Z := lib (Lfs_file_write f data).
Definition lfs_file_seek (f : object) (off whence : Z) : LfsM Z := lib (Lfs_file_seek f off whence).
Definition lfs_file_truncate (f : object) (size : Z) : LfsM Z := lib (Lfs_file_truncate f size).
Definition lfs_file_sync (f : object) : LfsM Z := lib (Lfs_file_sync f).
Definition lfs_dir_open (d : object) (path : list Z) : LfsM Z := lib (Lfs_dir_open d path).
Definition lfs_dir_read (d : object) : LfsM (Z * lfs_info) := lib (Lfs_dir_read d).
Definition lfs_dir_close (d : object) : LfsM Z := lib (Lfs_dir_close d).
Definition lfs_stat (path : list Z) : LfsM (Z * lfs_info) := lib (Lfs_stat path).
Definition lfs_mkdir (path : list Z) : LfsM Z := lib (Lfs_mkdir path).
Definition lfs_remove (path : list Z) : LfsM Z := lib (Lfs_remove path).
Definition lfs_rename (old_path new_path : list Z) : LfsM Z := lib (Lfs_rename old_path new_path).
Definition lfs_fs_stat : LfsM (Z * lfs_fsinfo) := lib Lfs_fs_stat.

(** ** Helpers *)
Definition littlefs_status_from_lfs_error (code : Z) : ssh_status :=
  if code =? LFS_ERR_OK then SSH_OK
  else if (code =? LFS_ERR_NOENT) || (code =? LFS_ERR_NOTDIR) then SSH_ERR_NOT_FOUND
  else if code =? LFS_ERR_EXIST then SSH_ERR_ALREADY_EXISTS
  else if code =? LFS_ERR_NOTEMPTY then SSH_ERR_DIR_NOT_EMPTY
  else if code =? LFS_ERR_INVAL then SSH_ERR_INVALID_ARGUMENT
  else if (code =? LFS_ERR_NOSPC) || (code =? LFS_ERR_NOMEM) || (code =? LFS_ERR_NAMETOOLONG) then SSH_ERR_PLATFORM
  else if (code =? LFS_ERR_ISDIR) || (code =? LFS_ERR_BADF) then SSH_ERR_SECURITY
  else SSH_ERR_PLATFORM.

(** The string in [scratch], or nothing for a null result. *)
Definition littlefs_normalize_path (path : list Z) (scratch_capacity : Z) : option (list Z) :=
  if scratch_capacity =? 0 then None else
  let normalized := skip_slashes path in
  if bool_decide (normalized = []) then
    if scratch_capacity <? 2 then None else Some [DOT]
  else if u64 (zlen normalized + 1) >? scratch_capacity then None
  else Some normalized.

Definition littlefs_fill_attrs (info : lfs_info) : ssh_fs_attrs :=
  mk_attrs (Z.lor SSH_FILEXFER_ATTR_SIZE SSH_FILEXFER_ATTR_PERMISSIONS) (info_size info) 0 0
    (if info_type info =? LFS_TYPE_DIR then 493 else 420) 0 0.

Definition INT32_MAX : Z := 2147483647.

Section adapter.
Variable LFS_NAME_MAX : Z.

(** The [adapter->lfs] pointer, when [adapter] is not null. *)
Abbreviation context := (option (option Z)).
(** [adapter == NULL || adapter->lfs == NULL] *)
Definition no_lfs (ctx : context) : bool := match ctx with Some (Some _) => false | _ => true end.

(** A call of [littlefs_normalize_path] on a local array, with its error return. *)
Definition littlefs_path (path : list Z) : LfsM (list Z) :=
  match littlefs_normalize_path path (LFS_NAME_MAX + 64) with
  | None => io_fail SSH_ERR_BUFFER_TOO_SMALL
  | Some normalized => mret normalized
  end.

(** ** Callbacks *)

(** The [flags] argument of [lfs_file_open]. *)
Definition littlefs_open_flags (flags : Z) : Z :=
  let lfs_flags := if has_flag flags SSH_FXF_READ && has_flag flags SSH_FXF_WRITE then LFS_O_RDWR
                   else if has_flag flags SSH_FXF_WRITE then LFS_O_WRONLY else LFS_O_RDONLY in
  let lfs_flags := if has_flag flags SSH_FXF_CREAT then Z.lor lfs_flags LFS_O_CREAT else lfs_flags in
  let lfs_flags := if has_flag flags SSH_FXF_TRUNC then Z.lor lfs_flags LFS_O_TRUNC else lfs_flags in
  let lfs_flags := if has_flag flags SSH_FXF_EXCL then Z.lor lfs_flags LFS_O_EXCL else lfs_flags in
  if has_flag flags SSH_FXF_APPEND then Z.lor lfs_flags LFS_O_APPEND else lfs_flags.

Definition littlefs_open_cb (ctx : context) (path : list Z) (flags : Z) : LfsM (ssh_status * Z) :=
  io_reject (no_lfs ctx) SSH_ERR_INVALID_ARGUMENT;;
  io_reject (negb (has_flag flags (Z.lor SSH_FXF_READ SSH_FXF_WRITE))) SSH_ERR_INVALID_ARGUMENT;;
  normalized ← littlefs_path path;
  let lfs_flags := littlefs_open_flags flags in
  file_handle ← malloc FileBlock;
  io_reject (file_handle =? 0) SSH_ERR_PLATFORM;;
  rc ← lfs_file_open (Some file_handle) normalized lfs_flags;
  if rc <? 0 then free file_handle;; mret (littlefs_status_from_lfs_error rc, 0) else
  mret (SSH_OK, file_handle).

Definition littlefs_close_cb (ctx : context) (handle : Z) : LfsM ssh_status :=
  io_reject (no_lfs ctx || (handle =? 0)) SSH_ERR_INVALID_ARGUMENT;;
  access FileBlock handle;;
  rc ← lfs_file_close (Some handle);
  free handle;;
  mret (littlefs_status_from_lfs_error rc).

Definition littlefs_read_cb (ctx : context) (handle len : Z) : LfsM (ssh_status * list Z * Z) :=
  io_reject (no_lfs ctx || (handle =? 0)) SSH_ERR_INVALID_ARGUMENT;;
  access FileBlock handle;;
  r ← lfs_file_read (Some handle) (u32 len);
  let '(n, buf) := r in
  if n <? 0 then mret (littlefs_status_from_lfs_error n, buf, 0) else mret (SSH_OK, buf, n).

Definition littlefs_write_cb (ctx : context) (handle : Z) (buf : list Z) : LfsM (ssh_status * Z) :=
  io_reject (no_lfs ctx || (handle =? 0)) SSH_ERR_INVALID_ARGUMENT;;
  access FileBlock handle;;
  n ← lfs_file_write (Some handle) (ztake (u32 (zlen buf)) buf);
  if n <? 0 then mret (littlefs_status_from_lfs_error n, 0) else mret (SSH_OK, n).

Definition littlefs_read_at_cb (ctx : context) (handle offset len : Z) : LfsM (ssh_status * list Z * Z) :=
  io_reject (no_lfs ctx || (handle =? 0)) SSH_ERR_INVALID_ARGUMENT;;
  io_reject (offset >? INT32_MAX) SSH_ERR_INVALID_ARGUMENT;;
  access FileBlock handle;;
  seek_rc ← lfs_file_seek (Some handle) offset LFS_SEEK_SET;
  if seek_rc <? 0 then mret (littlefs_status_from_lfs_error seek_rc, [], 0) else
  littlefs_read_cb ctx handle len.

Definition littlefs_write_at_cb (ctx : context) (handle offset : Z) (buf : list Z) : LfsM (ssh_status * Z) :=
  io_reject (no_lfs ctx || (handle =? 0)) SSH_ERR_INVALID_ARGUMENT;;
  io_reject (offset >? INT32_MAX) SSH_ERR_INVALID_ARGUMENT;;
  access FileBlock handle;;
  seek_rc ← lfs_file_seek (Some handle) offset LFS_SEEK_SET;
  if seek_rc <? 0 then mret (littlefs_status_from_lfs_error seek_rc, 0) else
  littlefs_write_cb ctx handle buf.

Definition littlefs_stat_path (path : list Z) : LfsM (ssh_status * option ssh_fs_attrs) :=
  normalized ← littlefs_path path;
  r ← lfs_stat normalized;
  let '(rc, info) := r in
  if rc <? 0 then mret (littlefs_status_from_lfs_error rc, None) else
  mret (SSH_OK, Some (littlefs_fill_attrs info)).

Definition littlefs_stat_cb (ctx : context) (path : list Z) : LfsM (ssh_status * option ssh_fs_attrs) :=
  io_reject (no_lfs ctx) SSH_ERR_INVALID_ARGUMENT;;
  littlefs_stat_path path.

Definition littlefs_lstat_cb (ctx : context) (path : list Z) : LfsM (ssh_status * option ssh_fs_attrs) :=
  littlefs_stat_cb ctx path.

Definition littlefs_setstat_cb (ctx : context) (path : list Z) (attrs : ssh_fs_attrs) : LfsM ssh_status :=
  io_reject (no_lfs ctx) SSH_ERR_INVALID_ARGUMENT;;
  io_reject (negb (has_flag (attr_flags attrs) SSH_FILEXFER_ATTR_SIZE)) SSH_ERR_UNSUPPORTED;;
  io_reject (attr_size attrs >? INT32_MAX) SSH_ERR_INVALID_ARGUMENT;;
  normalized ← littlefs_path path;
  rc ← lfs_file_open None normalized LFS_O_WRONLY;
  if rc <? 0 then mret (littlefs_status_from_lfs_error rc) else
  rc ← lfs_file_truncate None (attr_size attrs);
  lfs_file_close None;;
  mret (littlefs_status_from_lfs_error rc).

Definition littlefs_fsetstat_cb (ctx : context) (handle : Z) (attrs : ssh_fs_attrs) : LfsM ssh_status :=
  io_reject (no_lfs ctx || (handle =? 0)) SSH_ERR_INVALID_ARGUMENT;;
  io_reject (negb (has_flag (attr_flags attrs) SSH_FILEXFER_ATTR_SIZE)) SSH_ERR_UNSUPPORTED;;
  io_reject (attr_size attrs >? INT32_MAX) SSH_ERR_INVALID_ARGUMENT;;
  access FileBlock handle;;
  rc ← lfs_file_truncate (Some handle) (attr_size attrs);
  mret (littlefs_status_from_lfs_error rc).

Definition littlefs_opendir_cb (ctx : context) (path : list Z) : LfsM (ssh_status * Z) :=
  io_reject (no_lfs ctx) SSH_ERR_INVALID_ARGUMENT;;
  normalized ← littlefs_path path;
  dir_handle ← malloc DirBlock;
  io_reject (dir_handle =? 0) SSH_ERR_PLATFORM;;
  rc ← lfs_dir_open (Some dir_handle) normalized;
  if rc <? 0 then free dir_handle;; mret (littlefs_status_from_lfs_error rc, 0) else
  mret (SSH_OK, dir_handle).

(** The end mark comes without an entry. *)
Definition littlefs_readdir_cb (ctx : context) (handle : Z) : LfsM (ssh_status * ssh_fs_dirent * bool) :=
  io_reject (no_lfs ctx || (handle =? 0)) SSH_ERR_INVALID_ARGUMENT;;
  access DirBlock handle;;
  r ← lfs_dir_read (Some handle);
  let '(rc, info) := r in
  if rc <? 0 then io_fail (littlefs_status_from_lfs_error rc) else
  if rc =? 0 then mret (SSH_OK, mk_dirent None None zero_attrs, true) else
  let name_len := zlen (info_name info) in
  io_reject (u64 (name_len + 1) >? LFS_NAME_MAX + 1) SSH_ERR_BUFFER_TOO_SMALL;;
  mret (SSH_OK, mk_dirent (Some (info_name info)) (Some (info_name info)) (littlefs_fill_attrs info), false).

Definition littlefs_closedir_cb (ctx : context) (handle : Z) : LfsM ssh_status :=
  io_reject (no_lfs ctx || (handle =? 0)) SSH_ERR_INVALID_ARGUMENT;;
  access DirBlock handle;;
  rc ← lfs_dir_close (Some handle);
  free handle;;
  mret (littlefs_status_from_lfs_error rc).

Definition littlefs_mkdir_cb (ctx : context) (path : list Z) (attrs : ssh_fs_attrs) : LfsM ssh_status :=
  io_reject (no_lfs ctx) SSH_ERR_INVALID_ARGUMENT;;
  normalized ← littlefs_path path;
  rc ← lfs_mkdir normalized;
  mret (littlefs_status_from_lfs_error rc).

Definition littlefs_rmdir_cb (ctx : context) (path : list Z) : LfsM ssh_status :=
  io_reject (no_lfs ctx) SSH_ERR_INVALID_ARGUMENT;;
  normalized ← littlefs_path path;
  rc ← lfs_remove normalized;
  mret (littlefs_status_from_lfs_error rc).

Definition littlefs_remove_cb (ctx : context) (path : list Z) : LfsM ssh_status :=
  littlefs_rmdir_cb ctx path.

Definition littlefs_rename_cb (ctx : context) (old_path new_path : list Z) : LfsM ssh_status :=
  io_reject (no_lfs ctx) SSH_ERR_INVALID_ARGUMENT;;
  old_normalized ← littlefs_path old_path;
  new_normalized ← littlefs_path new_path;
  rc ← lfs_rename old_normalized new_normalized;
  mret (littlefs_status_from_lfs_error rc).

Definition littlefs_posix_rename_cb (ctx : context) (old_path new_path : list Z) : LfsM ssh_status :=
  littlefs_rename_cb ctx old_path new_path.

Definition littlefs_fsync_cb (ctx : context) (handle : Z) : LfsM ssh_status :=
  io_reject (no_lfs ctx || (handle =? 0)) SSH_ERR_INVALID_ARGUMENT;;
  access FileBlock handle;;
  rc ← lfs_file_sync (Some handle);
  mret (littlefs_status_from_lfs_error rc).

Definition littlefs_hardlink_cb (old_path new_path : list Z) : LfsM ssh_status := mret SSH_ERR_UNSUPPORTED.

Definition littlefs_statvfs_cb (ctx : context) (path : list Z) : LfsM (ssh_status * ssh_fs_statvfs) :=
  io_reject (no_lfs ctx) SSH_ERR_INVALID_ARGUMENT;;
  r ← lfs_fs_stat;
  let '(rc, info) := r in
  if rc <? 0 then io_fail (littlefs_status_from_lfs_error rc) else
  mret (SSH_OK, mk_statvfs (block_size info) (block_size info) (block_count info) 0 0 0 0 0 0 0 (name_max info)).

Definition littlefs_fstatvfs_cb (ctx : context) (handle : Z) : LfsM (ssh_status * ssh_fs_statvfs) :=
  littlefs_statvfs_cb ctx [SLASH].

(** ** The adapter *)
Record ssh_littlefs_adapter : Type := mk_littlefs_adapter {
  littlefs_fs : ssh_portable_fs (bcall lfs_call) (breply lfs_reply) heap;
  littlefs_lfs : option Z;
  littlefs_initialized : bool
}.

Definition zero_littlefs_adapter : ssh_littlefs_adapter :=
  mk_littlefs_adapter (mk_portable_fs None zero_api) None false.

Definition littlefs_ops (ctx : context) : ssh_portable_fs_ops (bcall lfs_call) (breply lfs_reply) heap :=
  mk_fs_ops (Some (littlefs_open_cb ctx)) (Some (littlefs_close_cb ctx)) (Some (littlefs_read_cb ctx))
    (Some (littlefs_write_cb ctx)) (Some (littlefs_read_at_cb ctx)) (Some (littlefs_write_at_cb ctx))
    (Some (littlefs_stat_cb ctx)) (Some (littlefs_lstat_cb ctx)) (Some (littlefs_setstat_cb ctx))
    (Some (littlefs_fsetstat_cb ctx)) (Some (littlefs_opendir_cb ctx)) (Some (littlefs_readdir_cb ctx))
    (Some (littlefs_closedir_cb ctx)) (Some (littlefs_mkdir_cb ctx)) (Some (littlefs_rmdir_cb ctx))
    (Some (littlefs_remove_cb ctx)) (Some (littlefs_rename_cb ctx)) (Some (littlefs_posix_rename_cb ctx))
    (Some (littlefs_fsync_cb ctx)) (Some littlefs_hardlink_cb) (Some (littlefs_statvfs_cb ctx))
    (Some (littlefs_fstatvfs_cb ctx)).

(** The adapter afterwards, or the status; [adapter] is what the memory held. *)
Definition ssh_littlefs_adapter_init (adapter : option ssh_littlefs_adapter) (lfs : option Z)
    : outcome ssh_littlefs_adapter :=
  if is_null adapter || is_null lfs then Err SSH_ERR_INVALID_ARGUMENT else
  fs ← ssh_portable_fs_init (Some (mk_portable_fs None zero_api)) (Some (littlefs_ops (Some lfs)));
  Ret (mk_littlefs_adapter fs lfs true).

Definition ssh_littlefs_adapter_deinit (adapter : option ssh_littlefs_adapter) : option ssh_littlefs_adapter :=
  match adapter with None => None | Some _ => Some zero_littlefs_adapter end.

Definition ssh_littlefs_adapter_api (adapter : option ssh_littlefs_adapter) : option ssh_fs_api :=
  match adapter with
  | None => None
  | Some adapter =>
    if negb (littlefs_initialized adapter) then None else ssh_portable_fs_api (Some (littlefs_fs adapter))
  end.
End adapter.
