(* ===== verification/LittlefsSession.v ===== *)
(** * Sessions on a littlefs volume

    The theorems on LittlefsAdapter.v: the adapter keeps the promise of
    FsBackend.v, with what follows for a whole session of the SFTP server on a
    littlefs volume.  littlefs links an open file or directory object into a
    list of its own, so a block that is freed while its object is open would
    leave a dangling pointer there. *)

From stdpp Require Import gmap.
From S2P Require Import Prelude Interaction Buffer Packet Codec Sftp SftpPath SftpServer SftpServerSafe SftpSession.
From S2P Require Import PortableFs FsBackend LittlefsAdapter.

(** ** The functions of lfs.h and their objects *)
Definition lfs_good (c : lfs_call) : lfs_reply c -> Prop :=
  match c return lfs_reply c -> Prop with
  | Lfs_file_read _ size => fun r => Forall is_byte (snd r) /\ zlen (snd r) <= Z.max 0 size
  | Lfs_dir_read _ => fun r => name_good (info_name (snd r))
  | _ => fun _ => True
  end.

#[export] Instance littlefs_library : Library lfs_call lfs_reply := {
  lib_usage c :=
    match c return usage (lfs_reply c) with
    | Lfs_file_open f _ _ => Opens f (fun rc => negb (rc <? 0))
    | Lfs_dir_open d _ => Opens d (fun rc => negb (rc <? 0))
    | Lfs_file_close f => Closes f
    | Lfs_dir_close d => Closes d
    | Lfs_file_read f _ => Uses f
    | Lfs_file_write f _ => Uses f
    | Lfs_file_seek f _ _ => Uses f
    | Lfs_file_truncate f _ => Uses f
    | Lfs_file_sync f => Uses f
    | Lfs_dir_read d => Uses d
    | _ => Plain
    end;
  lib_paths c :=
    match c with
    | Lfs_file_open _ p _ | Lfs_dir_open _ p | Lfs_stat p | Lfs_mkdir p | Lfs_remove p => [p]
    | Lfs_rename p q => [p; q]
    | _ => []
    end;
  lib_good := lfs_good
}.

(** ** The promise of the adapter *)
Section promise.
Variables (LFS_NAME_MAX lfs : Z).
Hypothesis name_max : 0 <= LFS_NAME_MAX <= 1022.

(** A path without a slash in front and without [..], that fits the arrays. *)
Definition littlefs_confined (p : list Z) : Prop :=
  relative_path p /\ p <> [] /\ zlen p < LFS_NAME_MAX + 64.

Abbreviation WP := (wp lib_step (lib_ok littlefs_confined) backend_good).

Lemma normalize_path_confined path :
  normal_path path ->
  match littlefs_normalize_path path (LFS_NAME_MAX + 64) with
  | Some p => littlefs_confined p
  | None => True
  end.
Proof.
  intros Hn. destruct (skip_slashes_normal path Hn) as [Hr Hl]. unfold littlefs_normalize_path.
  destruct (Z.eqb_spec (LFS_NAME_MAX + 64) 0); [lia|]. case_bool_decide as He.
  - destruct (Z.ltb_spec (LFS_NAME_MAX + 64) 2); [lia|]. split_and!; [by left|done|]. change (zlen [DOT]) with 1. lia.
  - unfold EMSSH_SFTP_MAX_PATH in Hl. pose proof (zlen_nonneg (skip_slashes path)).
    unfold u64. rewrite Z.mod_small by lia. destruct (Z.gtb_spec (zlen (skip_slashes path) + 1) (LFS_NAME_MAX + 64)); [done|].
    split_and!; [done|done|lia].
Qed.

Lemma wp_littlefs_path path (h : heap) x Q :
  normal_path path ->
  (forall p, littlefs_confined p -> Q (Ret p, h) x) -> Q (Err SSH_ERR_BUFFER_TOO_SMALL, h) x ->
  WP (littlefs_path LFS_NAME_MAX path h) Q x.
Proof.
  intros Hn HQ He. pose proof (normalize_path_confined path Hn) as H. unfold littlefs_path.
  destruct (littlefs_normalize_path _ _); [by apply HQ|done].
Qed.

Lemma lfs_error_bad rc : (rc <? 0) = true -> status_bad (littlefs_status_from_lfs_error rc) = true.
Proof. unfold littlefs_status_from_lfs_error. destruct (Z.eqb_spec rc LFS_ERR_OK) as [->|]; [done|]. by repeat case_match. Qed.

Lemma dirent_good info :
  name_good (info_name info) -> (u64 (zlen (info_name info) + 1) >? LFS_NAME_MAX + 1) = false ->
  name_fits (Some (info_name info)) /\ name_fits (Some (info_name info)).
Proof.
  intros [Hb Hl]. pose proof (zlen_nonneg (info_name info)). unfold u64. rewrite Z.mod_small by lia.
  intros Hf. assert (zlen (info_name info) <= 2 ^ 30) by lia. by split.
Qed.

Ltac lfs_step :=
  lazymatch goal with
  | |- wp _ _ _ (littlefs_path _ _ _) _ _ => apply wp_littlefs_path; [done|intros ? ?|]
  | |- wp _ _ _ _ _ _ =>
    first [ back_step
          | progress unfold lfs_file_open, lfs_file_close, lfs_file_read, lfs_file_write, lfs_file_seek,
              lfs_file_truncate, lfs_file_sync, lfs_dir_open, lfs_dir_read, lfs_dir_close, lfs_stat, lfs_mkdir,
              lfs_remove, lfs_rename, lfs_fs_stat ]
  end; cbv beta iota zeta; cbn [fst snd].

Ltac lfs_entry :=
  portable_entry; cbv [littlefs_ops];
  unfold littlefs_open_cb, littlefs_close_cb, littlefs_read_at_cb, littlefs_write_at_cb, littlefs_read_cb,
    littlefs_write_cb, littlefs_lstat_cb, littlefs_stat_cb, littlefs_stat_path, littlefs_setstat_cb,
    littlefs_fsetstat_cb, littlefs_opendir_cb, littlefs_readdir_cb, littlefs_closedir_cb, littlefs_mkdir_cb,
    littlefs_remove_cb, littlefs_rmdir_cb, littlefs_posix_rename_cb, littlefs_rename_cb, littlefs_fsync_cb,
    littlefs_hardlink_cb, littlefs_fstatvfs_cb, littlefs_statvfs_cb; cbn [no_lfs orb].

#[export] Instance littlefs_backend api :
  FsBackend littlefs_confined (mk_portable_fs (Some (littlefs_ops LFS_NAME_MAX (Some (Some lfs)))) api).
Proof using name_max.
  intros c h Ha H0.
  destruct c; cbn [asked] in Ha; try match type of Ha with _ /\ _ => destruct Ha end;
    try match goal with Ha : _ !! ?p = Some _ |- _ => assert (p <> 0) by congruence end;
    lfs_entry; repeat lfs_step; back_end;
    first
    [ rewrite lfs_error_bad by assumption; by apply delete_insert_id
    | by split
    | match goal with H : lib_good _ _ |- _ => destruct H; apply stored_good; [assumption|assumption|cbn; lia] end
    | by apply dirent_good
    | apply (early_reply_good (FsReadAt _ _ _)) ].
Qed.
End promise.

(** ** A volume for the examples

    One file of two bytes; everything succeeds but closing a file, which is where
    littlefs writes what it has buffered.  Its world is the next address. *)
Definition flash_call (c : lfs_call) : lfs_reply c :=
  match c return lfs_reply c with
  | Lfs_file_close _ => LFS_ERR_NOSPC
  | Lfs_file_read _ size => (Z.min 2 (Z.max 0 size), ztake (Z.max 0 size) (cstr "hi"))
  | Lfs_file_write _ data => zlen data
  | Lfs_dir_read _ => (0, mk_lfs_info 0 0 [])
  | Lfs_stat _ => (0, mk_lfs_info 1 2 (cstr "f"))
  | Lfs_fs_stat => (0, mk_lfs_fsinfo 512 100 255)
  | _ => 0
  end.

Definition flash_env : env (bcall lfs_call) (breply lfs_reply) Z := fun c =>
  match c return Z -> breply lfs_reply c * Z with
  | Malloc live => fun next => (if decide (next ∈ live) then 0 else next, next + 1)
  | Policy _ => fun next => (SSH_OK, next)
  | Lib l => fun next => (flash_call l, next)
  end.

Lemma flash_env_good : env_good backend_good flash_env.
Proof.
  intros [live|r|l] v; [cbn; case_decide; by auto|done|]. destruct l; try done; cbn [flash_env fst].
  split; [by apply Forall_take, cstr_byte|]. cbn [flash_call snd]. unfold ztake, zlen. rewrite length_take. lia.
Qed.

Definition demo_adapter : ssh_littlefs_adapter :=
  mk_littlefs_adapter (mk_portable_fs (Some (littlefs_ops 255 (Some (Some 1)))) demo_fs) (Some 1) true.

(** ** What the adapter does to files *)

(** A size that could not be written is reported as set: the status of the close
    that writes it is dropped. *)
Theorem setstat_hides_failed_close :
  fst (backend_env (littlefs_fs demo_adapter) flash_env
         (FsSetstat (cstr "/f") (mk_attrs SSH_FILEXFER_ATTR_SIZE 1 0 0 0 0 0)) (backend_start 16)) = SSH_OK /\
  flash_call (Lfs_file_close None) = LFS_ERR_NOSPC.
Proof. split; [by vm_compute|done]. Qed.

(** Removing a file and removing a directory are the same function. *)
Theorem littlefs_rmdir_removes_files : littlefs_remove_cb = littlefs_rmdir_cb.
Proof. done. Qed.

(** ** Properties *)

(** C11: whatever a client sends in an SFTP session on a littlefs volume,
    whatever the policy, littlefs and the allocator answer (a read stores at
    most the bytes it was asked for, a new block is not in use, and LFS_NAME_MAX
    is in the range of lfs.h): every request is answered and causes only
    permitted callbacks; every path that reaches littlefs is relative, without
    parent segments, and fits the arrays of the adapter; no block is used before
    it is allocated or after it is freed, and none is freed twice; littlefs is
    called on a file or directory object only while it is open, and never opens
    one twice; and when the session ends every object that was opened has been
    closed and every block freed. *)
Theorem littlefs_session_contained LFS_NAME_MAX old lfs adapter api {W}
    (e : env (bcall lfs_call) (breply lfs_reply) W) cap policy pks w :
  0 <= LFS_NAME_MAX <= 1022 ->
  ssh_littlefs_adapter_init LFS_NAME_MAX old lfs = Ret adapter -> ssh_littlefs_adapter_api (Some adapter) = Some api ->
  env_good backend_good e -> 0 <= cap -> Forall (Forall is_byte) pks ->
  let '(xs, w') := session_over (littlefs_fs adapter) e cap api policy pks w in
  (map ex_packet xs = pks /\ exchanges_ok cap [] xs) /\
  back_fault w' = false /\ back_heap w' = ∅ /\
  accepted lib_step (lib_ok (littlefs_confined LFS_NAME_MAX)) ∅ (back_log w') /\
  final lib_step ∅ (back_log w') = ∅.
Proof.
  intros Hm Hi Ha He Hc Hp. unfold ssh_littlefs_adapter_init in Hi. destruct old as [old|], lfs as [lfs|]; try done.
  injection Hi as <-. injection Ha as <-. cbn [littlefs_fs]. unshelve eapply session_over_safe; try done.
  by apply littlefs_backend.
Qed.

Lemma littlefs_session_contained_witness :
  ssh_littlefs_adapter_init 255 (Some zero_littlefs_adapter) (Some 1) = Ret demo_adapter /\
  let w' := snd (session_over (littlefs_fs demo_adapter) flash_env 64 demo_fs true demo_packets 16) in
  back_heap w' = ∅ /\ final lib_step ∅ (back_log w') = ∅ /\ length (back_log w') = 8%nat.
Proof.
  assert (ssh_littlefs_adapter_init 255 (Some zero_littlefs_adapter) (Some 1) = Ret demo_adapter) as E by done.
  split; [done|]. intros w'.
  pose proof (littlefs_session_contained 255 _ _ demo_adapter demo_fs flash_env 64 true demo_packets 16
    ltac:(lia) E eq_refl flash_env_good) as H.
  unfold w'. destruct (session_over _ _ _ _ _ _ _) as [xs w1] eqn:Er.
  destruct H as (_ & _ & Hh & _ & Hf); [lia|by apply demo_packets_byte|].
  split_and!; [done|done|]. change w1 with (snd (xs, w1)). rewrite <- Er. by apply (bool_decide_unpack _); vm_compute.
Defined.
