(* ===== verification/ServerState.v ===== *)
(** * The state of the server

    [ssh_server_t], its configuration and its session options, the channel
    structures of include/emssh/ssh_server.h and the operations the server calls.
    The handlers are in Server.v.

    The server drives three other components, and here each of their operations
    is one call: the transport ([Transport], with the operations of
    TransportSession.v, [TransportInit] and the two fields of the session that
    the server reads), the SFTP session of a channel ([SftpInit] to
    [SftpDeinit]) and the terminal of the platform ([TermSpawnShell] to
    [TermClose]).  [RequestPolicy] and [AcceptHook] are functions of the
    application.  ServerLink.v runs the first two with the models of those
    components.

    - The transport's [authenticated_username] is written and read by the server
      only, and is a field of its state.
    - Timeouts are left out, as in the transport, and so are the trace lines,
      which are written to a log and change nothing. *)

From S2P Require Import Prelude Interaction Buffer Platform Packet Codec Service Kex UserPolicy.
From S2P Require Import Userauth Connection Ident TransportState Transport TransportSession.
From S2P Require Import Sftp SftpPath SftpServer.

Definition EMSSH_SFTP_MAX_PACKET_SIZE : Z := 131072.
Definition EMSSH_MAX_AUTH_TRIES : Z := 6.
Definition EMSSH_DEFAULT_SESSION_TIMEOUT_MS : Z := 10000.
Definition EMSSH_DEFAULT_CHANNEL_WINDOW_SIZE : Z := 65536.
Definition EMSSH_DEFAULT_CHANNEL_MAX_PACKET_SIZE : Z := 32768.
Definition SSH_OPEN_UNKNOWN_CHANNEL_TYPE : Z := 3.
Definition SSH_CHANNEL_REQUEST_X11_REQ : list Z := cstr "x11-req".

(** ** Platform, configuration, server *)

(** Which entries of [ssh_term_api_t] are set. *)
Record ssh_term_api : Type := mk_term_api {
  term_spawn_shell : bool;
  term_spawn_exec : bool;
  term_write : bool;
  term_read : bool;
  term_resize : bool;
  term_signal : bool;
  term_wait_exit : bool;
  term_close : bool
}.

(** The interfaces of [ssh_platform_t]; the flags are those of
    [transport_server], and [pf_signature_algorithms] is what the crypto backend
    returns from [ssh_crypto_publickey_signature_algorithms]. *)
Record ssh_platform : Type := mk_platform {
  pf_net_read : bool;
  pf_net_write : bool;
  pf_rng : bool;
  pf_crypto : option ssh_crypto_api;
  pf_kex_entries : bool;
  pf_derive_key : bool;
  pf_kexinit_defaults : option ssh_kexinit_algorithm_set;
  pf_signature_algorithms : option (list Z);
  pf_fs : option ssh_fs_api;
  pf_term : option ssh_term_api
}.

(** [auth_ctx] is part of the callbacks. *)
Record ssh_server_config : Type := mk_config {
  cfg_software_name : option (list Z);
  cfg_max_packet_size : Z;
  cfg_max_payload_size : Z;
  cfg_max_auth_tries : Z;
  cfg_listen_address : option (list Z);
  cfg_password_auth : option (ssh_password_auth_request -> bool);
  cfg_publickey_auth : option (ssh_publickey_auth_request -> bool);
  cfg_publickey_signature_algorithms : option (list Z);
  cfg_permit_root_login : Z;
  cfg_allow_users : option (list Z);
  cfg_authorized_keys_file : option (list Z)
}.

(** The [diag_*] fields; the type of the request is the string in its array. *)
Record server_diag : Type := mk_server_diag {
  diag_last_received_message_id : Z;
  diag_last_received_message_id_valid : bool;
  diag_last_channel_request_type : list Z;
  diag_last_channel_request_type_valid : bool;
  diag_last_channel_request_want_reply : bool
}.
Definition zero_server_diag : server_diag := mk_server_diag 0 false [] false false.

Record ssh_server : Type := mk_server {
  sv_platform : ssh_platform;
  sv_config : ssh_server_config;
  sv_initialized : bool;
  sv_diag : server_diag
}.

Definition zero_platform : ssh_platform := mk_platform false false false None false false None None None None.
Definition zero_config : ssh_server_config := mk_config None 0 0 0 None None None None 0 None None.
Definition zero_server : ssh_server := mk_server zero_platform zero_config false zero_server_diag.

Definition ssh_server_config_defaults : ssh_server_config :=
  mk_config (Some EMSSH_SOFTWARE_NAME) EMSSH_MAX_PACKET_SIZE EMSSH_MAX_PAYLOAD_SIZE EMSSH_MAX_AUTH_TRIES
    None None None None EMSSH_PERMIT_ROOT_LOGIN_PROHIBIT_PASSWORD None None.

(** The status and the structure, which is written even when the configuration is
    refused. *)
Definition ssh_server_init (platform : option ssh_platform) (config : option ssh_server_config)
    (server : ssh_server) : ssh_status * ssh_server :=
  match platform with
  | None => (SSH_ERR_INVALID_ARGUMENT, server)
  | Some platform =>
    let config := default ssh_server_config_defaults config in
    let server := mk_server platform config false zero_server_diag in
    if is_null (cfg_software_name config) || (cfg_max_packet_size config =? 0)
       || (cfg_max_payload_size config =? 0) || (cfg_max_payload_size config >? cfg_max_packet_size config)
    then (SSH_ERR_INVALID_ARGUMENT, server) else
    if (cfg_permit_root_login config <? EMSSH_PERMIT_ROOT_LOGIN_DEFAULT)
       || (cfg_permit_root_login config >? EMSSH_PERMIT_ROOT_LOGIN_PROHIBIT_PASSWORD)
    then (SSH_ERR_INVALID_ARGUMENT, server) else
    (SSH_OK, mk_server platform config true zero_server_diag)
  end.

Definition ssh_server_deinit (server : option ssh_server) : option ssh_server :=
  match server with None => None | Some _ => Some zero_server end.

(** The server as the transport and the authentication functions read it. *)
Definition auth_server_of (server : ssh_server) : auth_server :=
  let c := sv_config server in
  mk_auth_server (cfg_password_auth c) (cfg_publickey_auth c) (cfg_publickey_signature_algorithms c)
    (cfg_permit_root_login c) (cfg_allow_users c) (pf_crypto (sv_platform server))
    (pf_signature_algorithms (sv_platform server)).
Definition transport_server_of (server : ssh_server) : transport_server :=
  let p := sv_platform server in
  mk_transport_server (sv_initialized server) (cfg_software_name (sv_config server)) (auth_server_of server)
    (pf_net_read p) (pf_net_write p) (pf_rng p) (pf_kex_entries p) (pf_derive_key p) (pf_kexinit_defaults p).

(** ** Session options

    For the two policy functions, whether they are set. *)
Record ssh_server_session_options : Type := mk_options {
  opt_algorithms : option ssh_kexinit_algorithm_set;
  opt_timeout_ms : Z;
  opt_server_channel : Z;
  opt_channel_window_size : Z;
  opt_channel_max_packet_size : Z;
  opt_max_sftp_packets : Z;
  opt_rekey_after_packets : Z;
  opt_rekey_after_bytes : Z;
  opt_sftp_policy : bool;
  opt_non_sftp_channel_request_policy : bool;
  opt_sftp_subsystem_name : option (list Z);
  opt_sftp_trace_enabled : bool
}.

Definition ssh_server_session_options_defaults : ssh_server_session_options :=
  mk_options None EMSSH_DEFAULT_SESSION_TIMEOUT_MS 0 EMSSH_DEFAULT_CHANNEL_WINDOW_SIZE
    EMSSH_DEFAULT_CHANNEL_MAX_PACKET_SIZE 0 0 0 false false (Some SSH_SUBSYSTEM_SFTP) false.

Definition effective_session_options (options : option ssh_server_session_options) : ssh_server_session_options :=
  let d := ssh_server_session_options_defaults in
  match options with
  | None => d
  | Some o =>
    mk_options
      (match opt_algorithms o with Some a => Some a | None => opt_algorithms d end)
      (if opt_timeout_ms o =? 0 then opt_timeout_ms d else opt_timeout_ms o)
      (opt_server_channel o)
      (if opt_channel_window_size o =? 0 then opt_channel_window_size d else opt_channel_window_size o)
      (if opt_channel_max_packet_size o =? 0 then opt_channel_max_packet_size d
       else opt_channel_max_packet_size o)
      (opt_max_sftp_packets o) (opt_rekey_after_packets o) (opt_rekey_after_bytes o)
      (opt_sftp_policy o) (opt_non_sftp_channel_request_policy o)
      (match opt_sftp_subsystem_name o with Some n => Some n | None => opt_sftp_subsystem_name d end)
      (opt_sftp_trace_enabled o)
  end.

(** ** Channels

    The fields that [ssh_server_sftp_channel_t] and
    [ssh_server_terminal_channel_t] have in common. *)
Record channel_flow : Type := mk_flow {
  client_channel : Z;
  server_channel : Z;
  window_size : Z;
  window_max_size : Z;
  max_packet_size : Z;
  peer_window_size : Z;
  peer_max_packet_size : Z;
  ch_initialized : bool;
  eof_sent : bool;
  close_sent : bool
}.
Definition zero_flow : channel_flow := mk_flow 0 0 0 0 0 0 0 false false false.

(** An array with a length field is the list of the bytes in use.  The channel's
    SFTP session is behind the calls below. *)
Record sftp_channel : Type := mk_sftp_channel {
  sc_flow : channel_flow;
  sftp_rx : list Z;
  sftp_tx_pending : list Z
}.
Definition zero_sftp_channel : sftp_channel := mk_sftp_channel zero_flow [] [].

Inductive ssh_server_terminal_state : Type :=
| TERMINAL_STATE_INIT
| TERMINAL_STATE_SESSION_OPEN
| TERMINAL_STATE_PTY_CONFIGURED
| TERMINAL_STATE_RUNNING
| TERMINAL_STATE_CLOSED.

(** [term_type] is the string in its array, [term_handle] the pointer, 0 when
    null. *)
Record terminal_channel : Type := mk_terminal_channel {
  tc_flow : channel_flow;
  tc_cols : Z;
  tc_rows : Z;
  tc_width_px : Z;
  tc_height_px : Z;
  tc_term_type : list Z;
  tc_pty_requested : bool;
  tc_running : bool;
  tc_exit_status_sent : bool;
  tc_state : ssh_server_terminal_state;
  tc_handle : Z
}.
Definition zero_terminal_channel : terminal_channel :=
  mk_terminal_channel zero_flow 0 0 0 0 [] false false false TERMINAL_STATE_INIT 0.

Inductive ssh_server_channel_kind : Type := KIND_NONE | KIND_SFTP | KIND_TERMINAL.

(** [ss_username] has the first [authenticated_username_len] bytes of
    [authenticated_username]; a NUL follows them. *)
Record server_state : Type := mk_server_state {
  ss_username : list Z;
  ss_sftp : sftp_channel;
  ss_term : terminal_channel;
  ss_diag : server_diag
}.

(** *** Assignments to the fields *)
Definition set_username (v : list Z) (s : server_state) : server_state :=
  mk_server_state v (ss_sftp s) (ss_term s) (ss_diag s).
Definition set_sftp (v : sftp_channel) (s : server_state) : server_state :=
  mk_server_state (ss_username s) v (ss_term s) (ss_diag s).
Definition set_term (v : terminal_channel) (s : server_state) : server_state :=
  mk_server_state (ss_username s) (ss_sftp s) v (ss_diag s).
Definition set_server_diag (v : server_diag) (s : server_state) : server_state :=
  mk_server_state (ss_username s) (ss_sftp s) (ss_term s) v.

Definition set_rx (v : list Z) (s : server_state) : server_state :=
  set_sftp (mk_sftp_channel (sc_flow (ss_sftp s)) v (sftp_tx_pending (ss_sftp s))) s.
Definition set_pending (v : list Z) (s : server_state) : server_state :=
  set_sftp (mk_sftp_channel (sc_flow (ss_sftp s)) (sftp_rx (ss_sftp s)) v) s.

Definition set_size (cols rows width_px height_px : Z) (c : terminal_channel) : terminal_channel :=
  mk_terminal_channel (tc_flow c) cols rows width_px height_px (tc_term_type c) (tc_pty_requested c)
    (tc_running c) (tc_exit_status_sent c) (tc_state c) (tc_handle c).
Definition set_pty (term_type : list Z) (c : terminal_channel) : terminal_channel :=
  mk_terminal_channel (tc_flow c) (tc_cols c) (tc_rows c) (tc_width_px c) (tc_height_px c) term_type true
    (tc_running c) (tc_exit_status_sent c) TERMINAL_STATE_PTY_CONFIGURED (tc_handle c).
Definition set_handle (v : Z) (c : terminal_channel) : terminal_channel :=
  mk_terminal_channel (tc_flow c) (tc_cols c) (tc_rows c) (tc_width_px c) (tc_height_px c) (tc_term_type c)
    (tc_pty_requested c) (tc_running c) (tc_exit_status_sent c) (tc_state c) v.
Definition set_running (v : bool) (st : ssh_server_terminal_state) (c : terminal_channel) : terminal_channel :=
  mk_terminal_channel (tc_flow c) (tc_cols c) (tc_rows c) (tc_width_px c) (tc_height_px c) (tc_term_type c)
    (tc_pty_requested c) v (tc_exit_status_sent c) st (tc_handle c).
Definition set_exit_status_sent (c : terminal_channel) : terminal_channel :=
  mk_terminal_channel (tc_flow c) (tc_cols c) (tc_rows c) (tc_width_px c) (tc_height_px c) (tc_term_type c)
    (tc_pty_requested c) (tc_running c) true (tc_state c) (tc_handle c).
Definition set_term_flow (v : channel_flow) (c : terminal_channel) : terminal_channel :=
  mk_terminal_channel v (tc_cols c) (tc_rows c) (tc_width_px c) (tc_height_px c) (tc_term_type c)
    (tc_pty_requested c) (tc_running c) (tc_exit_status_sent c) (tc_state c) (tc_handle c).
Definition on_term (f : terminal_channel -> terminal_channel) (s : server_state) : server_state :=
  set_term (f (ss_term s)) s.

Definition with_window_size (v : Z) (f : channel_flow) : channel_flow :=
  mk_flow (client_channel f) (server_channel f) v (window_max_size f) (max_packet_size f) (peer_window_size f)
    (peer_max_packet_size f) (ch_initialized f) (eof_sent f) (close_sent f).
Definition with_peer_window_size (v : Z) (f : channel_flow) : channel_flow :=
  mk_flow (client_channel f) (server_channel f) (window_size f) (window_max_size f) (max_packet_size f) v
    (peer_max_packet_size f) (ch_initialized f) (eof_sent f) (close_sent f).
Definition with_eof_sent (f : channel_flow) : channel_flow :=
  mk_flow (client_channel f) (server_channel f) (window_size f) (window_max_size f) (max_packet_size f)
    (peer_window_size f) (peer_max_packet_size f) (ch_initialized f) true (close_sent f).
Definition with_close_sent (f : channel_flow) : channel_flow :=
  mk_flow (client_channel f) (server_channel f) (window_size f) (window_max_size f) (max_packet_size f)
    (peer_window_size f) (peer_max_packet_size f) (ch_initialized f) (eof_sent f) true.

(** The common fields of one of the two channels. *)
Inductive channel_ref : Type := SftpChannel | TerminalChannel.
Definition flow_of (r : channel_ref) (s : server_state) : channel_flow :=
  match r with SftpChannel => sc_flow (ss_sftp s) | TerminalChannel => tc_flow (ss_term s) end.
Definition set_flow (r : channel_ref) (v : channel_flow) (s : server_state) : server_state :=
  match r with
  | SftpChannel => set_sftp (mk_sftp_channel v (sftp_rx (ss_sftp s)) (sftp_tx_pending (ss_sftp s))) s
  | TerminalChannel => on_term (set_term_flow v) s
  end.
Definition on_flow (r : channel_ref) (f : channel_flow -> channel_flow) (s : server_state) : server_state :=
  set_flow r (f (flow_of r s)) s.

(** ** Calls *)

(** What a terminal is started with; null pointers are [None]. *)
Record spawn_args : Type := mk_spawn {
  spawn_username : option (list Z);
  spawn_term_type : option (list Z);
  spawn_cols : Z;
  spawn_rows : Z;
  spawn_width_px : Z;
  spawn_height_px : Z
}.

Inductive scall : Type :=
| TransportInit (algorithms : option ssh_kexinit_algorithm_set)
| Transport (op : transport_op)
| TransportSessionId
| TransportDiag
| SftpClear
| SftpInit
| SftpSetPolicy
| SftpHandle (packet : list Z) (response_capacity : Z)
| SftpDeinit
| TermSpawnShell (args : spawn_args)
| TermSpawnExec (command : list Z) (args : spawn_args)
| TermWrite (h : Z) (data : list Z)
| TermRead (h len : Z)
| TermResize (h cols rows width_px height_px : Z)
| TermSignal (h : Z) (signal_name : list Z)
| TermWaitExit (h : Z)
| TermClose (h : Z)
| RequestPolicy (request : ssh_channel_request)
| AcceptHook (kind : ssh_server_channel_kind).

(** The status of a call and what it stores: the value of a transport operation;
    the response of a packet; the handle of a terminal; the bytes read from it,
    their number being the count reported; the count a write reports; whether the
    program has ended, and its exit status. *)
Definition sreply (c : scall) : Type :=
  match c with
  | TransportInit _ => outcome unit
  | Transport op => outcome (top_value op)
  | TransportSessionId => list Z
  | TransportDiag => session_diag
  | SftpClear => unit
  | SftpHandle _ _ => outcome (list Z)
  | SftpDeinit => unit
  | TermSpawnShell _ | TermSpawnExec _ _ => ssh_status * Z
  | TermWrite _ _ => ssh_status * Z
  | TermRead _ _ => ssh_status * list Z
  | TermWaitExit _ => ssh_status * bool * Z
  | _ => ssh_status
  end.

Abbreviation SvM := (IO scall sreply server_state).

(** ** Helpers *)
Definition channel_request_is_subsystem_name (request : ssh_channel_request) (subsystem_name : option (list Z))
    : bool :=
  view_equals_cstr (rq_request_type request) (Some SSH_CHANNEL_REQUEST_SUBSYSTEM)
  && view_equals_cstr (rq_subsystem_name request) subsystem_name.

Definition is_request_type (request : ssh_channel_request) (type : list Z) : bool :=
  view_equals_cstr (rq_request_type request) (Some type).

Definition channel_request_is_putty_extension (request : ssh_channel_request) : bool :=
  is_request_type request (cstr "simple@putty.projects.tartarus.org")
  || is_request_type request (cstr "winadj@putty.projects.tartarus.org").

Definition channel_request_is_default_ignorable_non_sftp (request : ssh_channel_request) : bool :=
  is_request_type request (cstr "simple@putty.projects.tartarus.org")
  || is_request_type request (cstr "winadj@putty.projects.tartarus.org")
  || is_request_type request SSH_CHANNEL_REQUEST_X11_REQ
  || is_request_type request SSH_CHANNEL_REQUEST_PTY_REQ
  || is_request_type request SSH_CHANNEL_REQUEST_SHELL
  || is_request_type request SSH_CHANNEL_REQUEST_EXEC
  || is_request_type request SSH_CHANNEL_REQUEST_ENV
  || is_request_type request SSH_CHANNEL_REQUEST_WINDOW_CHANGE
  || is_request_type request SSH_CHANNEL_REQUEST_SIGNAL.

Definition should_reply_failure_for_non_sftp_request (request : ssh_channel_request) : bool :=
  if negb (rq_want_reply request) then false else
  if channel_request_is_putty_extension request then false else true.

Definition add_u32_saturating (lhs rhs : Z) : Z :=
  if UINT32_MAX - lhs <? rhs then UINT32_MAX else lhs + rhs.

Definition read_u32_be_local (data : list Z) : Z :=
  Z.lor (Z.lor (Z.lor (Z.shiftl (byte_at data 0) 24) (Z.shiftl (byte_at data 1) 16))
               (Z.shiftl (byte_at data 2) 8)) (byte_at data 3).

Definition min_u32_local (lhs rhs : Z) : Z := if lhs <? rhs then lhs else rhs.

(** The bytes copied to [out]; a NUL is stored after them. *)
Definition view_to_cstring (view : ssh_string_view) (out_capacity : Z) : outcome (list Z) :=
  if out_capacity =? 0 then Err SSH_ERR_INVALID_ARGUMENT else
  match view_data view with
  | None => Ret []
  | Some _ => if view_len view + 1 >? out_capacity then Err SSH_ERR_BUFFER_TOO_SMALL else Ret (view_bytes view)
  end.

Definition should_tolerate_pre_request_malformed (diag : session_diag) (status : ssh_status) : bool :=
  if negb (bool_decide (status = SSH_ERR_MALFORMED_PACKET)) then false else
  if negb (last_received_message_id_valid diag) then false else
  (last_received_message_id diag =? SSH_MSG_CHANNEL_DATA)
  || (last_received_message_id diag =? SSH_MSG_CHANNEL_EXTENDED_DATA).

(** [last_channel_request_type] is a string in an array of 64 bytes, as is its copy
    here. *)
Definition server_diag_from_transport (diag : session_diag) : server_diag :=
  mk_server_diag
    (if last_received_message_id_valid diag then last_received_message_id diag else 0)
    (last_received_message_id_valid diag)
    (if last_channel_request_type_valid diag
     then ztake 63 (array_string (TransportState.last_channel_request_type diag)) else [])
    (last_channel_request_type_valid diag)
    (last_channel_request_type_valid diag && TransportState.last_channel_request_want_reply diag).

Definition ssh_status_string (status : ssh_status) : list Z :=
  cstr (match status with
        | SSH_OK => "ok"
        | SSH_ERR_INVALID_ARGUMENT => "invalid argument"
        | SSH_ERR_BUFFER_TOO_SMALL => "buffer too small"
        | SSH_ERR_BUFFER_OVERFLOW => "no space left"
        | SSH_ERR_BUFFER_UNDERFLOW => "buffer underflow"
        | SSH_ERR_MALFORMED_PACKET => "malformed packet"
        | SSH_ERR_UNSUPPORTED => "unsupported"
        | SSH_ERR_PLATFORM => "platform error"
        | SSH_ERR_SECURITY => "security error"
        | SSH_ERR_CLOSED => "closed"
        | SSH_ERR_NOT_FOUND => "not found"
        | SSH_ERR_ALREADY_EXISTS => "already exists"
        | SSH_ERR_DIR_NOT_EMPTY => "directory not empty"
        | SSH_ERR_READ_ONLY => "read only"
        end)%string.
