(* ===== verification/Server.v ===== *)
(** * The server: src/core/ssh_server.c

    A connection from the version exchange to the end of its channel: setting up
    the transport, authentication, accepting an SFTP or a terminal channel,
    processing the messages of the channel with flow control in both directions,
    and releasing what the channel holds.

    Three loops of the source have no bound of their own: the authentication loop,
    where a public-key query is answered without counting as a try, and the
    message loops of the two kinds of sessions.  They get a number of [rounds], and
    the result is [None] when the loop is still running after that many. *)

From S2P Require Import Prelude Interaction Buffer Platform Packet Codec Service Kex UserPolicy.
From S2P Require Import Userauth Connection Ident TransportState Transport TransportSession.
From S2P Require Import Sftp SftpPath SftpServer ServerState.

(** ** Programs *)
Definition transport (op : transport_op) : SvM (top_value op) :=
  r ← perform (Transport op); of_outcome r.
(** [(void)operation(...)]. *)
Definition ignored {A} (p : SvM A) : SvM unit := attempt p;; mret tt.
(** [if (status != SSH_OK) return status;] *)
Definition check_status (status : ssh_status) : SvM unit :=
  if status_bad status then io_fail status else mret tt.
Definition when (c : bool) (p : SvM unit) : SvM unit := if c then p else mret tt.

Section server.
Context (server : ssh_server).

(** ** Setting up the transport

    [ssh_transport_session_init] clears the session, and with it the user name. *)
Definition ssh_server_run_transport_setup (options : option ssh_server_session_options) : SvM unit :=
  io_reject (negb (sv_initialized server)) SSH_ERR_INVALID_ARGUMENT;;
  let effective := effective_session_options options in
  r ← perform (TransportInit (opt_algorithms effective));
  of_outcome r;;
  io_modify (set_username []);;
  transport (OpSetRekeyLimits (opt_rekey_after_packets effective) (opt_rekey_after_bytes effective));;
  transport OpSendIdentification;;
  transport OpReceiveIdentification;;
  transport OpSendKexinit;;
  transport OpReceiveKexinit;;
  transport OpReceiveEcdhInit;;
  transport OpSendEcdhReply;;
  transport OpSendNewkeys;;
  transport OpSendExtInfo;;
  transport OpReceiveNewkeys.

(** ** Authentication *)
Fixpoint userauth_loop (rounds : nat) (tries : Z) : SvM (option unit) :=
  if negb (tries <? cfg_max_auth_tries (sv_config server)) then io_fail SSH_ERR_SECURITY else
  match rounds with
  | O => mret None
  | S rounds' =>
    request ← transport OpReceiveUserauth;
    session_id ← perform TransportSessionId;
    decision ← of_outcome (ssh_userauth_evaluate_request (auth_server_of server) request
                             (Some session_id) (zlen session_id));
    match decision with
    | SSH_USERAUTH_DECISION_SUCCESS =>
      name ← of_outcome (view_to_cstring (username request) EMSSH_MAX_USERAUTH_PAYLOAD);
      io_modify (set_username name);;
      transport OpSendSuccess;;
      mret (Some tt)
    | SSH_USERAUTH_DECISION_PK_OK =>
      transport (OpSendPkOk (publickey_algorithm request) (publickey_blob request));;
      userauth_loop rounds' tries
    | SSH_USERAUTH_DECISION_FAILURE =>
      let '(o, failure_methods) := ssh_userauth_failure_methods (auth_server_of server)
          EMSSH_MAX_USERAUTH_FAILURE_METHODS (zeros EMSSH_MAX_USERAUTH_FAILURE_METHODS) in
      of_outcome o;;
      transport (OpSendFailure (Some (array_string failure_methods)) false);;
      userauth_loop rounds' (tries + 1)
    end
  end.

Definition ssh_server_run_userauth (rounds : nat) : SvM (option unit) :=
  io_modify (set_username []);;
  service_request ← transport OpReceiveServiceRequest;
  io_reject (negb (view_equals_cstr (service_name service_request) (Some SSH_SERVICE_USERAUTH)))
    SSH_ERR_UNSUPPORTED;;
  transport (OpSendServiceAccept (Some SSH_SERVICE_USERAUTH));;
  userauth_loop rounds 0.

(** ** Channel requests *)
Definition non_sftp_channel_request_allowed_by_policy (effective : ssh_server_session_options)
    (request : ssh_channel_request) : SvM ssh_status :=
  policy_status ← (if opt_non_sftp_channel_request_policy effective then perform (RequestPolicy request)
                   else mret SSH_ERR_UNSUPPORTED);
  if negb (status_bad policy_status) then mret SSH_OK else
  mret (if channel_request_is_default_ignorable_non_sftp request then SSH_OK else SSH_ERR_UNSUPPORTED).

(** A request that is not acted on: a failure reply where one is due, and the
    policy function. *)
Definition refuse_request (effective : ssh_server_session_options) (channel : Z)
    (request : ssh_channel_request) : SvM unit :=
  when (should_reply_failure_for_non_sftp_request request)
    (ignored (transport (OpSendChannelFailure channel)));;
  non_sftp_channel_request_allowed_by_policy effective request;;
  mret tt.

(** [if (request.want_reply)], a success reply. *)
Definition reply_success (channel : Z) (request : ssh_channel_request) : SvM unit :=
  when (rq_want_reply request) (transport (OpSendChannelSuccess channel)).
Definition reply_failure (channel : Z) (request : ssh_channel_request) : SvM unit :=
  when (rq_want_reply request) (ignored (transport (OpSendChannelFailure channel))).

(** The request of one pass: the one the caller already has, or the next one
    received.  The status, and the structure, which keeps its fields when
    nothing was decoded. *)
Definition next_request (first : option ssh_channel_request) (request : ssh_channel_request)
    : SvM (ssh_status * ssh_channel_request) :=
  match first with
  | Some first_request => mret (SSH_OK, first_request)
  | None =>
    r ← perform (Transport (OpReceiveChannelRequest request));
    match r with
    | Ret (None, request') => mret (SSH_OK, request')
    | Ret (Some status, request') => mret (status, request')
    | Err status => mret (status, request)
    | Fault => of_outcome Fault
    end
  end.

(** The loops over requests: [body] handles a pass with status [SSH_OK] or
    [SSH_ERR_UNSUPPORTED] and returns a value to leave the loop with, or [None]
    for the next pass. *)
Fixpoint request_loop {A} (body : ssh_status -> ssh_channel_request -> SvM (option A))
    (attempts : nat) (first : option ssh_channel_request) (request : ssh_channel_request) : SvM A :=
  match attempts with
  | O => io_fail SSH_ERR_UNSUPPORTED
  | S attempts' =>
    sr ← next_request first request;
    let '(status, request) := sr in
    if status_bad status && negb (bool_decide (status = SSH_ERR_UNSUPPORTED)) then
      diag ← perform TransportDiag;
      if should_tolerate_pre_request_malformed diag status then request_loop body attempts' None request
      else io_fail status
    else
      r ← body status request;
      match r with
      | Some a => mret a
      | None => request_loop body attempts' None request
      end
  end.

(** ** Accepting an SFTP channel *)
Definition subsystem_name (effective : ssh_server_session_options) : option (list Z) :=
  match opt_sftp_subsystem_name effective with Some n => Some n | None => Some SSH_SUBSYSTEM_SFTP end.

Definition open_flow (effective : ssh_server_session_options) (open : ssh_channel_open) (old : channel_flow)
    : channel_flow :=
  mk_flow (sender_channel open) (opt_server_channel effective) (opt_channel_window_size effective)
    (opt_channel_window_size effective) (opt_channel_max_packet_size effective) (initial_window_size open)
    (maximum_packet_size open) true (eof_sent old) (close_sent old).

Definition sftp_accept_request (effective : ssh_server_session_options) (open : ssh_channel_open)
    (status : ssh_status) (request : ssh_channel_request) : SvM (option ssh_channel_request) :=
  io_reject (negb (status_bad status) && negb (rq_recipient_channel request =? opt_server_channel effective))
    SSH_ERR_SECURITY;;
  if negb (status_bad status) && channel_request_is_subsystem_name request (subsystem_name effective)
  then mret (Some request)
  else refuse_request effective (sender_channel open) request;; mret None.

Definition sftp_accept_after_open (options : option ssh_server_session_options) (open : ssh_channel_open)
    (first : option ssh_channel_request) : SvM unit :=
  io_reject (is_null (pf_fs (sv_platform server))) SSH_ERR_PLATFORM;;
  let effective := effective_session_options options in
  request ← request_loop (sftp_accept_request effective open) 8 first zero_request;
  reply_success (sender_channel open) request;;
  status ← perform SftpInit;
  check_status status;;
  when (opt_sftp_policy effective)
    (status ← perform SftpSetPolicy;
     when (status_bad status) (perform SftpDeinit;; io_fail status));;
  io_modify (on_flow SftpChannel (open_flow effective open)).

(** Waiting for the channel and confirming it: the same lines in the functions
    that accept a channel. *)
Definition accept_open (effective : ssh_server_session_options) : SvM ssh_channel_open :=
  open ← transport OpReceiveChannelOpenSkip;
  (if negb (ssh_channel_type_is_session (channel_type open)) then
     ignored (transport (OpSendOpenFailure (sender_channel open) SSH_OPEN_UNKNOWN_CHANNEL_TYPE
                           (Some (cstr "unsupported channel type"))));;
     io_fail SSH_ERR_UNSUPPORTED
   else mret tt);;
  transport (OpSendConfirmation (sender_channel open) (opt_server_channel effective)
    (opt_channel_window_size effective) (opt_channel_max_packet_size effective));;
  mret open.

(** [memset] of a channel. *)
Definition clear_sftp : SvM unit := perform SftpClear;; io_modify (set_sftp zero_sftp_channel).
Definition clear_term : SvM unit := io_modify (set_term zero_terminal_channel).

Definition ssh_server_accept_sftp_channel (options : option ssh_server_session_options) : SvM unit :=
  io_reject (is_null (pf_fs (sv_platform server))) SSH_ERR_PLATFORM;;
  let effective := effective_session_options options in
  clear_sftp;;
  open ← accept_open effective;
  sftp_accept_after_open (Some effective) open None.

Definition ssh_server_sftp_channel_deinit : SvM unit :=
  initialized ← io_get (fun s => ch_initialized (sc_flow (ss_sftp s)));
  when initialized (perform SftpDeinit;; io_modify (set_sftp zero_sftp_channel)).

(** ** Flow control *)

(** [maybe_replenish_receive_window] and
    [maybe_replenish_terminal_receive_window]. *)
Definition maybe_replenish_window (r : channel_ref) : SvM unit :=
  flow ← io_get (flow_of r);
  io_reject (window_max_size flow =? 0) SSH_ERR_INVALID_ARGUMENT;;
  let threshold := window_max_size flow / 2 in
  if window_size flow >? threshold then mret tt else
  let bytes_to_add := u32 (window_max_size flow - window_size flow) in
  if bytes_to_add =? 0 then mret tt else
  transport (OpSendWindowAdjust (client_channel flow) bytes_to_add);;
  io_modify (on_flow r (fun f => with_window_size (u32 (window_size f + bytes_to_add)) f)).

(** Data of [data_len] bytes has come on the channel. *)
Definition consume_window (r : channel_ref) (data_len : Z) : SvM unit :=
  flow ← io_get (flow_of r);
  io_reject (data_len >? window_size flow) SSH_ERR_SECURITY;;
  io_modify (on_flow r (fun f => with_window_size (u32 (window_size f - u32 data_len)) f));;
  maybe_replenish_window r.

Definition spend_peer_window (r : channel_ref) (len : Z) : SvM unit :=
  io_modify (on_flow r (fun f => with_peer_window_size (u32 (peer_window_size f - u32 len)) f)).
Definition grow_peer_window (r : channel_ref) (bytes : Z) : SvM unit :=
  io_modify (on_flow r (fun f => with_peer_window_size (add_u32_saturating (peer_window_size f) bytes) f)).

(** [if (!channel->eof_sent)] and [if (!channel->close_sent)], the message and the
    flag. *)
Definition send_eof_once (r : channel_ref) : SvM unit :=
  flow ← io_get (flow_of r);
  when (negb (eof_sent flow))
    (transport (OpSendEof (client_channel flow));; io_modify (on_flow r with_eof_sent)).
Definition send_close_once (r : channel_ref) : SvM unit :=
  flow ← io_get (flow_of r);
  when (negb (close_sent flow))
    (transport (OpSendClose (client_channel flow));; io_modify (on_flow r with_close_sent)).

(** ** An SFTP channel *)

(** Every pass sends a byte or is the last, so the pending bytes bound them. *)
Fixpoint flush_loop (fuel : nat) : SvM unit :=
  channel ← io_get ss_sftp;
  let flow := sc_flow channel in
  let pending := sftp_tx_pending channel in
  if (zlen pending =? 0) || (peer_window_size flow =? 0) then mret tt else
  match fuel with
  | O => of_outcome Fault
  | S fuel' =>
    let send_len := zlen pending in
    let send_len := if send_len >? peer_window_size flow then peer_window_size flow else send_len in
    let send_len := if negb (peer_max_packet_size flow =? 0) && (send_len >? peer_max_packet_size flow)
                    then peer_max_packet_size flow else send_len in
    if send_len =? 0 then mret tt else
    transport (OpSendChannelData (client_channel flow) (ztake send_len pending));;
    spend_peer_window SftpChannel send_len;;
    io_modify (set_pending (zdrop send_len pending));;
    flush_loop fuel'
  end.

Definition maybe_flush_pending_sftp_response : SvM unit :=
  pending ← io_get (fun s => sftp_tx_pending (ss_sftp s));
  flush_loop (length pending);;
  pending ← io_get (fun s => sftp_tx_pending (ss_sftp s));
  io_reject (negb (zlen pending =? 0)) SSH_ERR_NOT_FOUND.

(** The response in pieces of the peer's packet size. *)
Fixpoint send_response_loop (fuel : nat) (response : list Z) : SvM unit :=
  match response, fuel with
  | [], _ => mret tt
  | _ :: _, O => of_outcome Fault
  | _ :: _, S fuel' =>
    flow ← io_get (flow_of SftpChannel);
    let chunk_len := zlen response in
    let chunk_len := if negb (peer_max_packet_size flow =? 0) && (chunk_len >? peer_max_packet_size flow)
                     then peer_max_packet_size flow else chunk_len in
    io_reject (chunk_len =? 0) SSH_ERR_BUFFER_TOO_SMALL;;
    transport (OpSendChannelData (client_channel flow) (ztake chunk_len response));;
    send_response_loop fuel' (zdrop chunk_len response)
  end.

(** The requests in [sftp_rx]; every pass takes one off. *)
Fixpoint sftp_rx_loop (fuel : nat) : SvM unit :=
  rx ← io_get (fun s => sftp_rx (ss_sftp s));
  if zlen rx <? 4 then mret tt else
  match fuel with
  | O => of_outcome Fault
  | S fuel' =>
    let sftp_packet_length := read_u32_be_local rx in
    io_reject ((sftp_packet_length =? 0) || (sftp_packet_length >? EMSSH_SFTP_MAX_PACKET_SIZE - 4))
      SSH_ERR_MALFORMED_PACKET;;
    let sftp_wire_len := sftp_packet_length + 4 in
    if zlen rx <? sftp_wire_len then mret tt else
    r ← perform (SftpHandle (ztake sftp_wire_len rx) EMSSH_MAX_PACKET_SIZE);
    response ← of_outcome r;
    io_modify (set_rx (zdrop sftp_wire_len rx));;
    flow ← io_get (flow_of SftpChannel);
    if zlen response >? peer_window_size flow then
      io_reject (zlen response >? EMSSH_SFTP_MAX_PACKET_SIZE) SSH_ERR_BUFFER_TOO_SMALL;;
      io_modify (set_pending response);;
      maybe_flush_pending_sftp_response
    else
      send_response_loop (length response) response;;
      spend_peer_window SftpChannel (zlen response);;
      sftp_rx_loop fuel'
  end.

Definition process_sftp_rx : SvM unit :=
  maybe_flush_pending_sftp_response;;
  rx ← io_get (fun s => sftp_rx (ss_sftp s));
  sftp_rx_loop (length rx).

Definition sftp_channel_message (effective : ssh_server_session_options) (message : ssh_channel_message)
    (channel_data : list Z) : SvM unit :=
  flow ← io_get (flow_of SftpChannel);
  io_reject (negb (msg_recipient_channel message =? server_channel flow)) SSH_ERR_SECURITY;;
  let id := message_id message in
  if id =? SSH_MSG_CHANNEL_WINDOW_ADJUST then
    grow_peer_window SftpChannel (window_bytes message);;
    rx ← io_get (fun s => sftp_rx (ss_sftp s));
    if zlen rx =? 0 then mret tt else process_sftp_rx
  else if id =? SSH_MSG_CHANNEL_REQUEST then
    let request := channel_request message in
    when (should_reply_failure_for_non_sftp_request request)
      (transport (OpSendChannelFailure (client_channel flow)));;
    non_sftp_channel_request_allowed_by_policy effective request;;
    mret tt
  else if id =? SSH_MSG_CHANNEL_EOF then
    send_eof_once SftpChannel;;
    send_close_once SftpChannel
  else if id =? SSH_MSG_CHANNEL_CLOSE then
    send_close_once SftpChannel;;
    io_fail SSH_ERR_CLOSED
  else if id =? SSH_MSG_CHANNEL_DATA then
    consume_window SftpChannel (zlen channel_data);;
    rx ← io_get (fun s => sftp_rx (ss_sftp s));
    io_reject (zlen channel_data >? EMSSH_SFTP_MAX_PACKET_SIZE - zlen rx) SSH_ERR_BUFFER_TOO_SMALL;;
    io_modify (set_rx (rx ++ channel_data));;
    process_sftp_rx
  else io_fail SSH_ERR_UNSUPPORTED.

Definition ssh_server_process_sftp_channel_data (options : option ssh_server_session_options) : SvM unit :=
  channel ← io_get ss_sftp;
  io_reject (negb (ch_initialized (sc_flow channel))) SSH_ERR_INVALID_ARGUMENT;;
  let effective := effective_session_options options in
  r ← attempt (transport (OpReceiveChannelMessage zero_message EMSSH_MAX_PACKET_SIZE));
  match r with
  | inl status =>
    io_reject (negb (bool_decide (status = SSH_ERR_NOT_FOUND))) status;;
    if negb (zlen (sftp_rx channel) =? 0) then process_sftp_rx
    else if close_sent (sc_flow channel) then io_fail SSH_ERR_CLOSED
    else io_fail status
  | inr (message, channel_data) => sftp_channel_message effective message channel_data
  end.

(** ** A terminal channel *)
Definition term_api : option ssh_term_api := pf_term (sv_platform server).
(** The platform has terminals with the given entry. *)
Definition term_has (entry : ssh_term_api -> bool) : bool :=
  match term_api with Some t => entry t | None => false end.

(** [channel->running && term->entry != NULL && channel->term_handle != NULL]. *)
Definition term_ready (entry : ssh_term_api -> bool) (channel : terminal_channel) : bool :=
  tc_running channel && term_has entry && negb (tc_handle channel =? 0).

Definition store_size (request : ssh_channel_request) : SvM unit :=
  io_modify (on_term (set_size (rq_cols request) (rq_rows request) (rq_width_px request) (rq_height_px request))).

(** [term->resize] on a running terminal; [SSH_OK] when it is not called. *)
Definition maybe_resize : SvM ssh_status :=
  channel ← io_get ss_term;
  if term_ready term_resize channel then
    perform (TermResize (tc_handle channel) (tc_cols channel) (tc_rows channel) (tc_width_px channel)
               (tc_height_px channel))
  else mret SSH_OK.

Definition spawn_args_of (s : server_state) : spawn_args :=
  let channel := ss_term s in
  mk_spawn (if zlen (ss_username s) =? 0 then None else Some (array_string (ss_username s)))
    (if tc_pty_requested channel then Some (tc_term_type channel) else None)
    (tc_cols channel) (tc_rows channel) (tc_width_px channel) (tc_height_px channel).

(** The program of a shell or exec request: [None] when it is refused before it
    is started. *)
Definition start_program (request : ssh_channel_request) : SvM (option (ssh_status * Z)) :=
  args ← io_get spawn_args_of;
  if is_request_type request SSH_CHANNEL_REQUEST_SHELL then
    if negb (term_has term_spawn_shell) then mret None else
    r ← perform (TermSpawnShell args); mret (Some r)
  else
    if negb (term_has term_spawn_exec) then mret None else
    command ← attempt (of_outcome (view_to_cstring (rq_command request) 256));
    match command with
    | inl _ => mret None
    | inr command => r ← perform (TermSpawnExec (array_string command) args); mret (Some r)
    end.

Definition start_terminal (request : ssh_channel_request) : SvM (option unit) :=
  channel ← io_get ss_term;
  let client := client_channel (tc_flow channel) in
  if tc_running channel then reply_failure client request;; mret None else
  started ← start_program request;
  match started with
  | None => reply_failure client request;; mret None
  | Some (status, handle) =>
    io_modify (on_term (set_handle handle));;
    if status_bad status then reply_failure client request;; mret None else
    io_modify (on_term (set_running true TERMINAL_STATE_RUNNING));;
    reply_success client request;;
    mret (Some tt)
  end.

(** One pass of the loop of [terminal_accept_after_open]. *)
Definition terminal_accept_request (effective : ssh_server_session_options) (status : ssh_status)
    (request : ssh_channel_request) : SvM (option unit) :=
  flow ← io_get (flow_of TerminalChannel);
  let client := client_channel flow in
  io_reject (negb (status_bad status) && negb (rq_recipient_channel request =? server_channel flow))
    SSH_ERR_SECURITY;;
  if status_bad status then refuse_request effective client request;; mret None else
  if is_request_type request SSH_CHANNEL_REQUEST_PTY_REQ then
    term_type ← of_outcome (view_to_cstring (rq_term_type request) 64);
    io_modify (on_term (set_pty (array_string term_type)));;
    store_size request;;
    reply_success client request;;
    mret None
  else if is_request_type request SSH_CHANNEL_REQUEST_ENV then
    reply_success client request;; mret None
  else if is_request_type request SSH_CHANNEL_REQUEST_WINDOW_CHANGE then
    store_size request;;
    status ← maybe_resize;
    (if status_bad status && rq_want_reply request then reply_failure client request
     else reply_success client request);;
    mret None
  else if is_request_type request SSH_CHANNEL_REQUEST_SIGNAL then
    channel ← io_get ss_term;
    status ← (if term_ready term_signal channel then
                name ← of_outcome (view_to_cstring (rq_signal_name request) 64);
                perform (TermSignal (tc_handle channel) (array_string name))
              else mret SSH_OK);
    (if status_bad status && rq_want_reply request then reply_failure client request
     else reply_success client request);;
    mret None
  else if is_request_type request SSH_CHANNEL_REQUEST_SHELL || is_request_type request SSH_CHANNEL_REQUEST_EXEC then
    start_terminal request
  else refuse_request effective client request;; mret None.

Definition terminal_accept_after_open (options : option ssh_server_session_options) (open : ssh_channel_open)
    (first : option ssh_channel_request) : SvM unit :=
  io_reject (negb (term_has term_spawn_shell || term_has term_spawn_exec)) SSH_ERR_UNSUPPORTED;;
  let effective := effective_session_options options in
  io_modify (on_flow TerminalChannel (open_flow effective open));;
  io_modify (on_term (fun c => set_running (tc_running c) TERMINAL_STATE_SESSION_OPEN c));;
  request_loop (terminal_accept_request effective) 16 first zero_request.

Definition ssh_server_accept_terminal_channel (options : option ssh_server_session_options) : SvM unit :=
  let effective := effective_session_options options in
  clear_term;;
  open ← accept_open effective;
  terminal_accept_after_open (Some effective) open None.

(** Every pass sends a byte or is the last, so the peer's window bounds them. *)
Fixpoint pump_loop (fuel : nat) (handle : Z) : SvM unit :=
  flow ← io_get (flow_of TerminalChannel);
  if peer_window_size flow =? 0 then mret tt else
  match fuel with
  | O => of_outcome Fault
  | S fuel' =>
    let max_send := peer_window_size flow in
    let max_send := if negb (peer_max_packet_size flow =? 0)
                    then min_u32_local max_send (peer_max_packet_size flow) else max_send in
    let max_send := min_u32_local max_send 2048 in
    if max_send =? 0 then mret tt else
    r ← perform (TermRead handle max_send);
    let '(status, outbuf) := r in
    if bool_decide (status = SSH_ERR_NOT_FOUND) || bool_decide (status = SSH_ERR_UNSUPPORTED) then mret tt else
    check_status status;;
    if zlen outbuf =? 0 then mret tt else
    transport (OpSendChannelData (client_channel flow) outbuf);;
    io_reject (zlen outbuf >? peer_window_size flow) SSH_ERR_SECURITY;;
    spend_peer_window TerminalChannel (zlen outbuf);;
    pump_loop fuel' handle
  end.

Definition maybe_pump_terminal_output : SvM unit :=
  channel ← io_get ss_term;
  if negb (term_ready term_read channel) then mret tt else
  pump_loop (Z.to_nat (peer_window_size (tc_flow channel))) (tc_handle channel).

(** The value is [closed_now]. *)
Definition maybe_send_terminal_exit_and_close : SvM bool :=
  channel ← io_get ss_term;
  if negb (term_ready term_wait_exit channel) then mret false else
  r ← perform (TermWaitExit (tc_handle channel));
  let '(status, exited, exit_status) := r in
  check_status status;;
  if negb exited then mret false else
  when (negb (tc_exit_status_sent channel))
    (transport (OpSendExitStatus (client_channel (tc_flow channel)) exit_status);;
     io_modify (on_term set_exit_status_sent));;
  send_eof_once TerminalChannel;;
  send_close_once TerminalChannel;;
  io_modify (on_term (set_running false TERMINAL_STATE_CLOSED));;
  mret true.

(** The two in a row, and what the callers return after them. *)
Definition pump_and_close : SvM bool :=
  maybe_pump_terminal_output;;
  maybe_send_terminal_exit_and_close.
Definition pump_then (status : ssh_status) : SvM unit :=
  closed_now ← pump_and_close;
  check_status (if closed_now : bool then SSH_ERR_CLOSED else status).

Definition terminal_channel_request (request : ssh_channel_request) : SvM unit :=
  channel ← io_get ss_term;
  let client := client_channel (tc_flow channel) in
  request_status ←
    (if is_request_type request SSH_CHANNEL_REQUEST_WINDOW_CHANGE then
       store_size request;; maybe_resize
     else if is_request_type request SSH_CHANNEL_REQUEST_SIGNAL then
       if term_ready term_signal channel then
         name ← attempt (of_outcome (view_to_cstring (rq_signal_name request) 64));
         match name with
         | inl status => mret status
         | inr name => perform (TermSignal (tc_handle channel) (array_string name))
         end
       else mret SSH_OK
     else if is_request_type request SSH_CHANNEL_REQUEST_ENV then mret SSH_OK
     else mret SSH_ERR_UNSUPPORTED);
  when (rq_want_reply request)
    (if status_bad request_status then transport (OpSendChannelFailure client)
     else transport (OpSendChannelSuccess client));;
  if status_bad request_status then mret tt else pump_then SSH_OK.

Definition terminal_channel_data (channel_data : list Z) : SvM unit :=
  consume_window TerminalChannel (zlen channel_data);;
  channel ← io_get ss_term;
  io_reject (negb (term_ready term_write channel)) SSH_ERR_UNSUPPORTED;;
  r ← perform (TermWrite (tc_handle channel) channel_data);
  let '(status, written_len) := r in
  check_status status;;
  io_reject (written_len >? zlen channel_data) SSH_ERR_PLATFORM;;
  pump_then SSH_OK.

Definition terminal_channel_message (message : ssh_channel_message) (channel_data : list Z) : SvM unit :=
  flow ← io_get (flow_of TerminalChannel);
  io_reject (negb (msg_recipient_channel message =? server_channel flow)) SSH_ERR_SECURITY;;
  let id := message_id message in
  if id =? SSH_MSG_CHANNEL_WINDOW_ADJUST then
    grow_peer_window TerminalChannel (window_bytes message);; pump_then SSH_OK
  else if id =? SSH_MSG_CHANNEL_REQUEST then terminal_channel_request (channel_request message)
  else if id =? SSH_MSG_CHANNEL_EOF then pump_then SSH_OK
  else if id =? SSH_MSG_CHANNEL_CLOSE then
    send_close_once TerminalChannel;;
    io_modify (on_term (fun c => set_running (tc_running c) TERMINAL_STATE_CLOSED c));;
    io_fail SSH_ERR_CLOSED
  else if negb (id =? SSH_MSG_CHANNEL_DATA) then io_fail SSH_ERR_UNSUPPORTED
  else terminal_channel_data channel_data.

Definition ssh_server_process_terminal_channel_data : SvM unit :=
  initialized ← io_get (fun s => ch_initialized (tc_flow (ss_term s)));
  io_reject (negb initialized) SSH_ERR_INVALID_ARGUMENT;;
  closed_now ← pump_and_close;
  if (closed_now : bool) then io_fail SSH_ERR_CLOSED else
  r ← attempt (transport (OpReceiveChannelMessage zero_message EMSSH_MAX_PACKET_SIZE));
  match r with
  | inl status =>
    if bool_decide (status = SSH_ERR_NOT_FOUND) then pump_then SSH_ERR_NOT_FOUND else io_fail status
  | inr (message, channel_data) => terminal_channel_message message channel_data
  end.

Definition ssh_server_terminal_channel_deinit : SvM unit :=
  channel ← io_get ss_term;
  when (ch_initialized (tc_flow channel))
    (when (negb (tc_handle channel =? 0) && term_has term_close)
       (perform (TermClose (tc_handle channel));; mret tt);;
     clear_term).

(** ** A channel of either kind *)

(** [before_accept]: whether the caller gave a hook. *)
Definition auto_accept_request (before_accept : bool) (effective : ssh_server_session_options)
    (open : ssh_channel_open) (status : ssh_status) (request : ssh_channel_request)
    : SvM (option ssh_server_channel_kind) :=
  io_reject (negb (status_bad status) && negb (rq_recipient_channel request =? opt_server_channel effective))
    SSH_ERR_SECURITY;;
  if negb (status_bad status) && channel_request_is_subsystem_name request (subsystem_name effective) then
    when before_accept (status ← perform (AcceptHook KIND_SFTP); check_status status);;
    sftp_accept_after_open (Some effective) open (Some request);;
    mret (Some KIND_SFTP)
  else if negb (status_bad status) && ssh_channel_request_is_terminal (Some request) then
    when before_accept (status ← perform (AcceptHook KIND_TERMINAL); check_status status);;
    terminal_accept_after_open (Some effective) open (Some request);;
    mret (Some KIND_TERMINAL)
  else refuse_request effective (sender_channel open) request;; mret None.

(** The value is [*kind_out]; it stays [KIND_NONE] when the function fails. *)
Definition ssh_server_accept_auto_channel (options : option ssh_server_session_options) (before_accept : bool)
    : SvM ssh_server_channel_kind :=
  let effective := effective_session_options options in
  clear_sftp;;
  clear_term;;
  open ← accept_open effective;
  request_loop (auto_accept_request before_accept effective open) 16 None zero_request.

(** ** Sessions *)
Definition update_server_diag_from_transport : SvM unit :=
  diag ← perform TransportDiag;
  io_modify (set_server_diag (server_diag_from_transport diag)).

(** The message loop: the status it left the loop with and [processed], or [None]
    when it is still running after [rounds] passes. *)
Fixpoint session_loop (process : SvM unit) (max_packets : Z) (rounds : nat) (processed : Z)
    : SvM (option (ssh_status * Z)) :=
  if negb ((max_packets =? 0) || (processed <? max_packets)) then mret (Some (SSH_OK, processed)) else
  match rounds with
  | O => mret None
  | S rounds' =>
    r ← attempt process;
    match r with
    | inl status =>
      if bool_decide (status = SSH_ERR_CLOSED) then mret (Some (SSH_OK, processed)) else
      if bool_decide (status = SSH_ERR_NOT_FOUND) then session_loop process max_packets rounds' processed else
      mret (Some (status, processed))
    | inr _ => session_loop process max_packets rounds' (u32 (processed + 1))
    end
  end.

(** The message loop of an accepted channel and the end of the session. *)
Definition serve (process deinit : SvM unit) (max_packets : Z) (rounds : nat) : SvM (option unit) :=
  r ← session_loop process max_packets rounds 0;
  match r with
  | None => mret None
  | Some (status, processed) =>
    deinit;;
    update_server_diag_from_transport;;
    check_status (if negb (max_packets =? 0) && (processed =? max_packets) then SSH_OK else status);;
    mret (Some tt)
  end.

(** Leave the session with [status]. *)
Definition end_session (deinit : SvM unit) (status : ssh_status) : SvM (option unit) :=
  update_server_diag_from_transport;;
  deinit;;
  io_fail status.

Definition setup_and_auth (effective : ssh_server_session_options) (rounds : nat) : SvM (option unit) :=
  ssh_server_run_transport_setup (Some effective);;
  ssh_server_run_userauth rounds.

Definition ssh_server_run_sftp_session (options : option ssh_server_session_options) (rounds : nat)
    : SvM (option unit) :=
  io_reject (negb (sv_initialized server)) SSH_ERR_INVALID_ARGUMENT;;
  let effective := effective_session_options options in
  clear_sftp;;
  r ← attempt (a ← setup_and_auth effective rounds;
               match a with
               | None => mret None
               | Some _ => ssh_server_accept_sftp_channel (Some effective);; mret (Some tt)
               end);
  match r with
  | inl status => end_session ssh_server_sftp_channel_deinit status
  | inr None => mret None
  | inr (Some _) =>
    serve (ssh_server_process_sftp_channel_data (Some effective)) ssh_server_sftp_channel_deinit
      (opt_max_sftp_packets effective) rounds
  end.

Definition ssh_server_run_terminal_session (options : option ssh_server_session_options) (rounds : nat)
    : SvM (option unit) :=
  io_reject (negb (sv_initialized server)) SSH_ERR_INVALID_ARGUMENT;;
  let effective := effective_session_options options in
  clear_term;;
  r ← attempt (a ← setup_and_auth effective rounds;
               match a with
               | None => mret None
               | Some _ => ssh_server_accept_terminal_channel (Some effective);; mret (Some tt)
               end);
  match r with
  | inl status => end_session ssh_server_terminal_channel_deinit status
  | inr None => mret None
  | inr (Some _) =>
    serve ssh_server_process_terminal_channel_data ssh_server_terminal_channel_deinit
      (opt_max_sftp_packets effective) rounds
  end.

(** One pass of the loop of [ssh_server_run_auto_session] over the requests of a
    channel that is open; the value says how the session ended. *)
Definition auto_session_request (effective : ssh_server_session_options) (open : ssh_channel_open)
    (rounds : nat) (status : ssh_status) (request : ssh_channel_request) : SvM (option (option unit)) :=
  (if negb (status_bad status) && negb (rq_recipient_channel request =? opt_server_channel effective)
   then update_server_diag_from_transport;; io_fail SSH_ERR_SECURITY else mret tt);;
  if negb (status_bad status) && channel_request_is_subsystem_name request (subsystem_name effective) then
    r ← attempt (sftp_accept_after_open (Some effective) open (Some request));
    match r with
    | inl status =>
      ssh_server_sftp_channel_deinit;; update_server_diag_from_transport;; io_fail status
    | inr _ =>
      ended ← serve (ssh_server_process_sftp_channel_data (Some effective)) ssh_server_sftp_channel_deinit
                (opt_max_sftp_packets effective) rounds;
      mret (Some ended)
    end
  else if negb (status_bad status) && ssh_channel_request_is_terminal (Some request) then
    r ← attempt (terminal_accept_after_open (Some effective) open (Some request));
    match r with
    | inl status =>
      ssh_server_terminal_channel_deinit;; update_server_diag_from_transport;; io_fail status
    | inr _ =>
      ended ← serve ssh_server_process_terminal_channel_data ssh_server_terminal_channel_deinit
                (opt_max_sftp_packets effective) rounds;
      mret (Some ended)
    end
  else refuse_request effective (sender_channel open) request;; mret None.

(** The loop of [ssh_server_run_auto_session]: as [request_loop], and every way
    out records the diagnostics. *)
Fixpoint auto_session_loop (effective : ssh_server_session_options) (open : ssh_channel_open) (rounds : nat)
    (attempts : nat) (request : ssh_channel_request) : SvM (option unit) :=
  match attempts with
  | O => update_server_diag_from_transport;; io_fail SSH_ERR_UNSUPPORTED
  | S attempts' =>
    sr ← next_request None request;
    let '(status, request) := sr in
    if status_bad status && negb (bool_decide (status = SSH_ERR_UNSUPPORTED)) then
      diag ← perform TransportDiag;
      if should_tolerate_pre_request_malformed diag status
      then auto_session_loop effective open rounds attempts' request
      else update_server_diag_from_transport;; io_fail status
    else
      r ← auto_session_request effective open rounds status request;
      match r with
      | Some ended => mret ended
      | None => auto_session_loop effective open rounds attempts' request
      end
  end.

Definition ssh_server_run_auto_session (options : option ssh_server_session_options) (rounds : nat)
    : SvM (option unit) :=
  io_reject (negb (sv_initialized server)) SSH_ERR_INVALID_ARGUMENT;;
  let effective := effective_session_options options in
  clear_sftp;;
  clear_term;;
  r ← attempt (a ← setup_and_auth effective rounds;
               match a with
               | None => mret None
               | Some _ => open ← accept_open effective; mret (Some open)
               end);
  match r with
  | inl status => update_server_diag_from_transport;; io_fail status
  | inr None => mret None
  | inr (Some open) => auto_session_loop effective open rounds 16 zero_request
  end.
End server.
