(* ===== verification/ServerSafe.v ===== *)
(** * What the server does with a connection

    The specification of a connection as a monitor of the server's calls, the
    contract of the components it calls, and for every function of Server.v the
    proof that it keeps to the specification.

    The monitor is a small protocol machine that knows nothing of the server's
    structures.  It follows the key exchange, the authentication and the state of
    the channel from the calls alone, and says for each call whether it is in
    order: nothing is served before a request was evaluated as a success, data
    stays within the window the peer granted, what is sent is what the SFTP
    session or the program produced, in order and once, requests are handed on
    whole and in the order of the stream, and resources are released once. *)

From S2P Require Import Prelude Interaction Buffer Platform Packet Codec Service Kex UserPolicy.
From S2P Require Import Userauth Connection Ident TransportState Transport TransportSession.
From S2P Require Import Sftp SftpPath SftpServer ServerState Server.

(** ** The monitor *)
Record auth_watch : Type := mk_auth_watch {
  aw_setup : nat;
  aw_service : bool;
  aw_request : option ssh_userauth_request;
  aw_session_id : option (list Z);
  aw_failures : Z;
  aw_user : option (list Z)
}.

(** [kw_send] and [kw_recv] are the windows in the two directions, [kw_in] the
    data received and not yet passed on, [kw_out] the data produced and not yet
    sent.  [kw_broken]: a message of the channel could not be sent. *)
Record channel_watch : Type := mk_channel_watch {
  kw_open : option ssh_channel_open;
  kw_confirmed : bool;
  kw_send : Z;
  kw_recv : Z;
  kw_eof : bool;
  kw_close : bool;
  kw_in : list Z;
  kw_out : list Z;
  kw_broken : bool
}.

Record resource_watch : Type := mk_resource_watch {
  rw_sftp : bool;
  rw_term : option Z;
  rw_exit : option Z;
  rw_exit_sent : bool
}.

Record conn_watch : Type := mk_conn {
  cw_auth : auth_watch;
  cw_chan : channel_watch;
  cw_res : resource_watch
}.

Definition conn_start : conn_watch :=
  mk_conn (mk_auth_watch 0 false None None 0 None) (mk_channel_watch None false 0 0 false false [] [] false)
    (mk_resource_watch false None None false).

Definition on_auth (f : auth_watch -> auth_watch) (x : conn_watch) : conn_watch :=
  mk_conn (f (cw_auth x)) (cw_chan x) (cw_res x).
Definition on_chan (f : channel_watch -> channel_watch) (x : conn_watch) : conn_watch :=
  mk_conn (cw_auth x) (f (cw_chan x)) (cw_res x).
Definition on_res (f : resource_watch -> resource_watch) (x : conn_watch) : conn_watch :=
  mk_conn (cw_auth x) (cw_chan x) (f (cw_res x)).

Definition next_setup (a : auth_watch) : auth_watch :=
  mk_auth_watch (S (aw_setup a)) (aw_service a) (aw_request a) (aw_session_id a) (aw_failures a) (aw_user a).
Definition service_accepted (a : auth_watch) : auth_watch :=
  mk_auth_watch (aw_setup a) true (aw_request a) (aw_session_id a) (aw_failures a) (aw_user a).
Definition asked (r : ssh_userauth_request) (a : auth_watch) : auth_watch :=
  mk_auth_watch (aw_setup a) (aw_service a) (Some r) (aw_session_id a) (aw_failures a) (aw_user a).
Definition identified (sid : list Z) (a : auth_watch) : auth_watch :=
  mk_auth_watch (aw_setup a) (aw_service a) (aw_request a) (Some sid) (aw_failures a) (aw_user a).
Definition answered_with (failures : Z) (user : option (list Z)) (a : auth_watch) : auth_watch :=
  mk_auth_watch (aw_setup a) (aw_service a) None (aw_session_id a) failures user.

Definition channel_asked (o : ssh_channel_open) (k : channel_watch) : channel_watch :=
  mk_channel_watch (Some o) (kw_confirmed k) (kw_send k) (kw_recv k) (kw_eof k) (kw_close k) (kw_in k)
    (kw_out k) (kw_broken k).
Definition channel_confirmed (window : Z) (k : channel_watch) : channel_watch :=
  mk_channel_watch (kw_open k) true (match kw_open k with Some o => initial_window_size o | None => 0 end)
    window (kw_eof k) (kw_close k) (kw_in k) (kw_out k) (kw_broken k).
Definition with_windows (send recv : Z) (k : channel_watch) : channel_watch :=
  mk_channel_watch (kw_open k) (kw_confirmed k) send recv (kw_eof k) (kw_close k) (kw_in k) (kw_out k)
    (kw_broken k).
Definition with_ends (eof close : bool) (k : channel_watch) : channel_watch :=
  mk_channel_watch (kw_open k) (kw_confirmed k) (kw_send k) (kw_recv k) eof close (kw_in k) (kw_out k)
    (kw_broken k).
Definition with_streams (inp out : list Z) (k : channel_watch) : channel_watch :=
  mk_channel_watch (kw_open k) (kw_confirmed k) (kw_send k) (kw_recv k) (kw_eof k) (kw_close k) inp out
    (kw_broken k).
Definition broken (k : channel_watch) : channel_watch :=
  mk_channel_watch (kw_open k) (kw_confirmed k) (kw_send k) (kw_recv k) (kw_eof k) (kw_close k) (kw_in k)
    (kw_out k) true.

Definition with_sftp (v : bool) (r : resource_watch) : resource_watch :=
  mk_resource_watch v (rw_term r) (rw_exit r) (rw_exit_sent r).
Definition with_term (v : option Z) (r : resource_watch) : resource_watch :=
  mk_resource_watch (rw_sftp r) v (rw_exit r) (rw_exit_sent r).
Definition with_exit (v : option Z) (sent : bool) (r : resource_watch) : resource_watch :=
  mk_resource_watch (rw_sftp r) (rw_term r) v sent.

(** The operations that set up the transport, in their order; the first is its
    initialisation. *)
Definition setup_index (op : transport_op) : option nat :=
  match op with
  | OpSetRekeyLimits _ _ => Some 1
  | OpSendIdentification => Some 2
  | OpReceiveIdentification => Some 3
  | OpSendKexinit => Some 4
  | OpReceiveKexinit => Some 5
  | OpReceiveEcdhInit => Some 6
  | OpSendEcdhReply => Some 7
  | OpSendNewkeys => Some 8
  | OpSendExtInfo => Some 9
  | OpReceiveNewkeys => Some 10
  | _ => None
  end%nat.
Definition setup_done : nat := 11.

Section monitor.
Context (server : ssh_server) (eff : ssh_server_session_options).

(** A message for the server's channel has come. *)
Definition message_seen (m : ssh_channel_message) (data : list Z) (k : channel_watch) : channel_watch :=
  if negb (msg_recipient_channel m =? opt_server_channel eff) then k else
  if message_id m =? SSH_MSG_CHANNEL_WINDOW_ADJUST then with_windows (kw_send k + window_bytes m) (kw_recv k) k
  else if message_id m =? SSH_MSG_CHANNEL_DATA then
    with_streams (kw_in k ++ data) (kw_out k) (with_windows (kw_send k) (kw_recv k - zlen data) k)
  else k.

(** An operation of the transport has returned. *)
Definition done_step (op : transport_op) : top_value op -> conn_watch -> conn_watch :=
  match op return top_value op -> conn_watch -> conn_watch with
  | OpSetRekeyLimits _ _ | OpSendIdentification | OpReceiveIdentification | OpSendKexinit | OpReceiveKexinit
  | OpReceiveEcdhInit | OpSendEcdhReply | OpSendNewkeys | OpSendExtInfo | OpReceiveNewkeys =>
    fun _ => on_auth next_setup
  | OpSendServiceAccept _ => fun _ => on_auth service_accepted
  | OpReceiveUserauth => fun r => on_auth (asked r)
  | OpSendSuccess => fun _ => on_auth (fun a =>
      answered_with (aw_failures a) (match aw_request a with Some r => Some (view_bytes (username r)) | None => None end) a)
  | OpSendPkOk _ _ => fun _ => on_auth (fun a => answered_with (aw_failures a) (aw_user a) a)
  | OpSendFailure _ _ => fun _ => on_auth (fun a => answered_with (aw_failures a + 1) (aw_user a) a)
  | OpReceiveChannelOpenSkip => fun o => on_chan (channel_asked o)
  | OpSendConfirmation _ _ w _ => fun _ => on_chan (channel_confirmed w)
  | OpReceiveChannelMessage _ _ => fun r => on_chan (message_seen (fst r) (snd r))
  | OpSendChannelData _ d => fun _ => on_chan (fun k =>
      with_streams (kw_in k) (zdrop (zlen d) (kw_out k)) (with_windows (kw_send k - zlen d) (kw_recv k) k))
  | OpSendWindowAdjust _ n => fun _ => on_chan (fun k => with_windows (kw_send k) (kw_recv k + n) k)
  | OpSendEof _ => fun _ => on_chan (fun k => with_ends true (kw_close k) k)
  | OpSendClose _ => fun _ => on_chan (fun k => with_ends (kw_eof k) true k)
  | OpSendExitStatus _ _ => fun _ => on_res (fun r => with_exit (rw_exit r) true r)
  | _ => fun _ x => x
  end.

(** The operations whose failure ends the channel. *)
Definition must_succeed (op : transport_op) : bool :=
  match op with
  | OpSendChannelData _ _ | OpSendWindowAdjust _ _ | OpSendEof _ | OpSendClose _ | OpSendExitStatus _ _ => true
  | _ => false
  end.

Definition started (r : ssh_status * Z) (x : conn_watch) : conn_watch :=
  if status_bad (fst r) then x
  else on_res (with_term (if snd r =? 0 then None else Some (snd r))) x.

Definition conn_step (x : conn_watch) (c : scall) : sreply c -> conn_watch :=
  match c return sreply c -> conn_watch with
  | TransportInit _ => fun r => match r with Ret _ => on_auth next_setup x | _ => x end
  | Transport op => fun r =>
    match r with
    | Ret v => done_step op v x
    | _ => if must_succeed op then on_chan broken x else x
    end
  | TransportSessionId => fun r => on_auth (identified r) x
  | SftpInit => fun r => if status_bad r then x else on_res (with_sftp true) x
  | SftpHandle pk _ => fun r =>
    match r with
    | Ret response => on_chan (fun k => with_streams (zdrop (zlen pk) (kw_in k)) (kw_out k ++ response) k) x
    | _ => on_chan broken x
    end
  | SftpDeinit => fun _ => on_res (with_sftp false) x
  | TermSpawnShell _ | TermSpawnExec _ _ => fun r => started r x
  | TermWrite _ _ => fun _ => on_chan (fun k => with_streams [] (kw_out k) k) x
  | TermRead _ _ => fun r =>
    if status_bad (fst r) then x else on_chan (fun k => with_streams (kw_in k) (kw_out k ++ snd r) k) x
  | TermWaitExit _ => fun r =>
    if status_bad (fst (fst r)) || negb (snd (fst r)) then x
    else on_res (fun w => with_exit (Some (snd r)) (rw_exit_sent w) w) x
  | TermClose _ => fun _ => on_res (with_term None) x
  | _ => fun _ => x
  end.

(** *** Which calls are in order

    Arguments are as C has them ([top_ok]). *)
Definition decides (x : conn_watch) (d : ssh_userauth_decision) : Prop :=
  exists r sid, aw_request (cw_auth x) = Some r /\ aw_session_id (cw_auth x) = Some sid /\
    ssh_userauth_evaluate_request (auth_server_of server) r (Some sid) (zlen sid) = Ret d.

Definition logged_in (x : conn_watch) : Prop := exists name, aw_user (cw_auth x) = Some name.

(** The channel the peer opened, after it was confirmed. *)
Definition channel_is (x : conn_watch) (o : ssh_channel_open) : Prop :=
  logged_in x /\ kw_open (cw_chan x) = Some o /\ kw_confirmed (cw_chan x) = true.
Definition to_peer (x : conn_watch) (rc : Z) : Prop :=
  exists o, channel_is x o /\ sender_channel o = rc.

(** The channel works and the peer has kept to its window. *)
Definition live (x : conn_watch) : Prop :=
  kw_broken (cw_chan x) = false /\ 0 <= kw_recv (cw_chan x).

Definition packet_fits (x : conn_watch) (n : Z) : Prop :=
  0 < n <= kw_send (cw_chan x) /\
  forall o, kw_open (cw_chan x) = Some o -> maximum_packet_size o <> 0 -> n <= maximum_packet_size o.

(** [pk] is one whole message: four bytes of length and as many as they say. *)
Definition one_frame (pk : list Z) : Prop :=
  zlen pk = 4 + be_value (ztake 4 pk) /\ 5 <= zlen pk <= EMSSH_SFTP_MAX_PACKET_SIZE.

(** No whole message is at the front of the buffer. *)
Definition incomplete (l : list Z) : Prop := forall pk rest, l = pk ++ rest -> ~ one_frame pk.

(** What can be passed on or sent at once was: the SFTP session has had every whole
    request, unless a response waits to be sent; a program has had everything, and
    everything it wrote was sent. *)
Definition caught_up (x : conn_watch) : Prop :=
  (kw_out (cw_chan x) = [] -> incomplete (kw_in (cw_chan x))) /\
  (rw_sftp (cw_res x) = false -> kw_in (cw_chan x) = [] /\ kw_out (cw_chan x) = []).

Definition transport_permits (x : conn_watch) (op : transport_op) : Prop :=
  let a := cw_auth x in let k := cw_chan x in
  match op with
  | OpSetRekeyLimits _ _ | OpSendIdentification | OpReceiveIdentification | OpSendKexinit | OpReceiveKexinit
  | OpReceiveEcdhInit | OpSendEcdhReply | OpSendNewkeys | OpSendExtInfo | OpReceiveNewkeys =>
    setup_index op = Some (aw_setup a)
  | OpReceiveServiceRequest => aw_setup a = setup_done /\ aw_service a = false
  | OpSendServiceAccept name => aw_setup a = setup_done /\ name = Some SSH_SERVICE_USERAUTH
  | OpReceiveUserauth => aw_service a = true /\ aw_user a = None /\ aw_request a = None /\
      aw_failures a < cfg_max_auth_tries (sv_config server)
  | OpSendSuccess => decides x SSH_USERAUTH_DECISION_SUCCESS
  | OpSendPkOk alg blob => decides x SSH_USERAUTH_DECISION_PK_OK /\
      forall r, aw_request a = Some r -> alg = publickey_algorithm r /\ blob = publickey_blob r
  | OpSendFailure _ partial => decides x SSH_USERAUTH_DECISION_FAILURE /\ partial = false /\
      aw_failures a < cfg_max_auth_tries (sv_config server)
  | OpReceiveChannelOpenSkip => logged_in x /\ kw_open k = None
  | OpSendConfirmation rc sc w m => logged_in x /\ kw_confirmed k = false /\
      sc = opt_server_channel eff /\ w = opt_channel_window_size eff /\ m = opt_channel_max_packet_size eff /\
      exists o, kw_open k = Some o /\ ssh_channel_type_is_session (channel_type o) = true /\ rc = sender_channel o
  | OpSendOpenFailure rc _ _ => logged_in x /\
      exists o, kw_open k = Some o /\ ssh_channel_type_is_session (channel_type o) = false /\ rc = sender_channel o
  | OpReceiveChannelRequest _ => exists o, channel_is x o
  | OpSendChannelSuccess rc | OpSendChannelFailure rc => to_peer x rc
  | OpReceiveChannelMessage _ cap => (exists o, channel_is x o) /\ live x /\ caught_up x /\
      cap = EMSSH_MAX_PACKET_SIZE
  | OpSendChannelData rc d => to_peer x rc /\ live x /\ packet_fits x (zlen d) /\ ztake (zlen d) (kw_out k) = d
  | OpSendWindowAdjust rc n => to_peer x rc /\ live x /\ 0 < n /\ kw_recv k + n <= opt_channel_window_size eff
  | OpSendEof rc => to_peer x rc /\ live x /\ kw_eof k = false /\ kw_close k = false
  | OpSendClose rc => to_peer x rc /\ live x /\ kw_close k = false
  | OpSendExitStatus rc st => to_peer x rc /\ live x /\ kw_eof k = false /\ kw_close k = false /\
      rw_exit (cw_res x) = Some st /\ rw_exit_sent (cw_res x) = false
  | _ => False
  end.

(** A program is started for the user who was authenticated; the name it gets is
    a C string, or null when the name is empty. *)
Definition spawn_permits (x : conn_watch) (args : spawn_args) : Prop :=
  (exists o, channel_is x o) /\ rw_term (cw_res x) = None /\
  exists name, aw_user (cw_auth x) = Some name /\
    spawn_username args = match name with [] => None | _ => Some (array_string name) end.

Definition on_terminal (x : conn_watch) (h : Z) : Prop :=
  (exists o, channel_is x o) /\ rw_term (cw_res x) = Some h.

Definition conn_permits (x : conn_watch) (c : scall) : Prop :=
  let k := cw_chan x in let w := cw_res x in
  match c with
  | TransportInit algorithms => aw_setup (cw_auth x) = 0%nat /\ algorithms = opt_algorithms eff
  | Transport op => transport_permits x op /\ top_ok op
  | TransportSessionId => aw_setup (cw_auth x) = setup_done
  | TransportDiag => True
  | SftpClear => rw_sftp w = false
  | SftpInit => (exists o, channel_is x o) /\ rw_sftp w = false
  | SftpSetPolicy => rw_sftp w = true
  | SftpHandle pk cap => (exists o, channel_is x o) /\ live x /\ rw_sftp w = true /\ kw_out k = [] /\
      one_frame pk /\ Forall is_byte pk /\ ztake (zlen pk) (kw_in k) = pk /\ cap = EMSSH_MAX_PACKET_SIZE
  | SftpDeinit => rw_sftp w = true
  | TermSpawnShell args | TermSpawnExec _ args => spawn_permits x args
  | TermWrite h d => on_terminal x h /\ live x /\ d = kw_in k
  | TermRead h n => on_terminal x h /\ live x /\ kw_out k = [] /\ packet_fits x n
  | TermResize h _ _ _ _ | TermSignal h _ | TermWaitExit h => on_terminal x h
  | TermClose h => rw_term w = Some h
  | RequestPolicy _ | AcceptHook _ => exists o, channel_is x o
  end.
End monitor.

Lemma incomplete_short l : zlen l < 4 -> incomplete l.
Proof. intros Hl pk rest -> [_ ?]. rewrite zlen_app in Hl. pose proof (zlen_nonneg rest). lia. Qed.

(** ** The contract of the components

    The transport does not reach undefined behaviour and delivers what its
    decoders accept; a message of the channel that cannot be sent is not reported
    as [SSH_ERR_NOT_FOUND], the status of a receive that timed out.  The SFTP
    session answers within the capacity it is given, or says that the answer does
    not fit.  The terminal reads no more than asked, and stores no handle when
    a program could not be started. *)
Definition sreply_good (c : scall) : sreply c -> Prop :=
  match c return sreply c -> Prop with
  | TransportInit _ => fun r => r <> Fault
  | Transport op => fun r =>
    match r with
    | Ret v => top_good op v
    | Err e => must_succeed op = true -> e <> SSH_ERR_NOT_FOUND
    | Fault => False
    end
  | TransportSessionId => fun sid => Forall is_byte sid /\ zlen sid <= EMSSH_MAX_EXCHANGE_HASH
  | SftpHandle _ cap => fun r =>
    match r with
    | Ret response => Forall is_byte response /\ zlen response <= cap
    | Err e => e = SSH_ERR_BUFFER_TOO_SMALL \/ e = SSH_ERR_BUFFER_OVERFLOW
    | Fault => False
    end
  | TermSpawnShell _ | TermSpawnExec _ _ => fun r => status_bad (fst r) = true -> snd r = 0
  | TermRead _ len => fun r => Forall is_byte (snd r) /\ zlen (snd r) <= Z.max 0 len
  | _ => fun _ => True
  end.

(** ** Rules *)
Section rules.
Context (server : ssh_server) (eff : ssh_server_session_options).
Implicit Types (s : server_state) (x y : conn_watch).

Abbreviation swp := (wp (conn_step eff) (conn_permits server eff) sreply_good).

(** The postcondition of a function: [Q] of its value or [E] of its status. *)
Definition post {A} (Q : A -> server_state -> conn_watch -> Prop)
    (E : ssh_status -> server_state -> conn_watch -> Prop) : outcome A * server_state -> conn_watch -> Prop :=
  fun '(o, s) x => match o with Ret a => Q a s x | Err e => E e s x | Fault => False end.

Lemma post_mono {A} (t : tree scall sreply (outcome A * server_state)) (Q Q' : A -> server_state -> conn_watch -> Prop) E E' x :
  swp t (post Q E) x -> (forall a s y, Q a s y -> Q' a s y) -> (forall e s y, E e s y -> E' e s y) ->
  swp t (post Q' E') x.
Proof. intros H HQ HE. eapply wp_conseq; [exact H|]. intros [[a|e|] s] y; cbn; auto. Qed.

Section cps.
Context {A B : Type} (Q : B -> server_state -> conn_watch -> Prop) (E : ssh_status -> server_state -> conn_watch -> Prop).

Lemma w_bind (p : SvM A) (k : A -> SvM B) s x :
  swp (p s) (post (fun a s' y => swp (k a s') (post Q E) y) E) x -> swp ((a ← p; k a) s) (post Q E) x.
Proof. intros H. apply wp_mbind. eapply wp_conseq; [exact H|]. by intros [[a|e|] s'] y. Qed.

Lemma w_if (b : bool) (p q : SvM B) s x :
  (b = true -> swp (p s) (post Q E) x) -> (b = false -> swp (q s) (post Q E) x) ->
  swp ((if b then p else q) s) (post Q E) x.
Proof. destruct b; auto. Qed.
End cps.

Lemma w_attempt {A B} (Q : B -> server_state -> conn_watch -> Prop) (E : ssh_status -> server_state -> conn_watch -> Prop) (p : SvM A) (k : ssh_status + A -> SvM B) s x :
  swp (p s) (post (fun a s' y => swp (k (inr a) s') (post Q E) y) (fun e s' y => swp (k (inl e) s') (post Q E) y)) x ->
  swp ((r ← attempt p; k r) s) (post Q E) x.
Proof.
  intros H. apply w_bind, wp_attempt. eapply wp_conseq; [exact H|]. by intros [[a|e|] s'] y.
Qed.

Section cps.
Context {A : Type} (Q : A -> server_state -> conn_watch -> Prop) (E : ssh_status -> server_state -> conn_watch -> Prop).
Implicit Types U : unit -> server_state -> conn_watch -> Prop.

Lemma w_ret a s x : Q a s x -> swp (mret (M:=SvM) a s) (post Q E) x.
Proof. done. Qed.
Lemma w_fail e s x : E e s x -> swp (io_fail (A:=A) e s) (post Q E) x.
Proof. done. Qed.
Lemma w_outcome (o : outcome A) s x :
  match o with Ret a => Q a s x | Err e => E e s x | Fault => False end -> swp (of_outcome o s) (post Q E) x.
Proof. done. Qed.
Lemma w_get (f : server_state -> A) s x : Q (f s) s x -> swp (io_get f s) (post Q E) x.
Proof. done. Qed.
Lemma w_modify (f : server_state -> server_state) U s x : U tt (f s) x -> swp (io_modify f s) (post U E) x.
Proof. done. Qed.
Lemma w_reject c e U s x :
  (c = true -> E e s x) -> (c = false -> U tt s x) -> swp (io_reject c e s) (post U E) x.
Proof. destruct c; intros H1 H2; [by apply H1|by apply H2]. Qed.
Lemma w_check st U s x :
  (status_bad st = true -> E st s x) -> (status_bad st = false -> U tt s x) ->
  swp (check_status st s) (post U E) x.
Proof. unfold check_status. destruct (status_bad st); intros H1 H2; [by apply H1|by apply H2]. Qed.
Lemma w_when c (p : SvM unit) U s x :
  (c = true -> swp (p s) (post U E) x) -> (c = false -> U tt s x) -> swp (when c p s) (post U E) x.
Proof. destruct c; intros H1 H2; [exact (H1 eq_refl)|exact (H2 eq_refl)]. Qed.
Lemma w_perform c (R : sreply c -> server_state -> conn_watch -> Prop) s x :
  conn_permits server eff x c -> (forall r, sreply_good c r -> R r s (conn_step eff x c r)) ->
  swp (perform c s) (post R E) x.
Proof. intros Hp Hr. split; [done|]. intros r Hg. by apply Hr. Qed.
End cps.

Lemma w_transport op E (R : top_value op -> server_state -> conn_watch -> Prop) s x :
  transport_permits server eff x op -> top_ok op ->
  (forall v, top_good op v -> R v s (done_step eff op v x)) ->
  (forall e, (must_succeed op = true -> e <> SSH_ERR_NOT_FOUND) ->
    E e s (if must_succeed op then on_chan broken x else x)) ->
  swp (transport op s) (post R E) x.
Proof.
  intros Hp Ho Hv He. unfold transport. apply w_bind. split; [by split|]. intros [v|e|] Hg; [by apply Hv|by apply He|done].
Qed.

Lemma w_ignored {A} (p : SvM A) (U : unit -> server_state -> conn_watch -> Prop) E s x :
  swp (p s) (post (fun _ s' y => U tt s' y) (fun _ s' y => U tt s' y)) x -> swp (ignored p s) (post U E) x.
Proof.
  intros H. unfold ignored. apply w_attempt. eapply post_mono; [exact H|done|done].
Qed.
End rules.

(** One step of a function. *)
Ltac step :=
  lazymatch goal with
  | |- wp _ _ _ (mbind _ (attempt _) _) _ _ => apply w_attempt
  | |- wp _ _ _ (mbind _ _ _) _ _ => apply w_bind
  | |- wp _ _ _ (mret _ _) _ _ => apply w_ret
  | |- wp _ _ _ (io_fail _ _) _ _ => apply w_fail
  | |- wp _ _ _ (io_get _ _) _ _ => apply w_get
  | |- wp _ _ _ (io_modify _ _) _ _ => apply w_modify
  | |- wp _ _ _ (io_reject _ _ _) _ _ => apply w_reject; [intros ?|intros ?]
  | |- wp _ _ _ (check_status _ _) _ _ => apply w_check; [intros ?|intros ?]
  | |- wp _ _ _ (when _ _ _) _ _ => apply w_when; [intros ?|intros ?]
  | |- wp _ _ _ (ignored _ _) _ _ => apply w_ignored
  | |- wp _ _ _ ((if ?b then _ else _) _) _ _ => apply w_if; [intros ?|intros ?]
  | |- wp _ _ _ (perform _ _) _ _ => apply w_perform; [|intros ? ?]
  | |- wp _ _ _ (transport _ _) _ _ => apply w_transport; [|try done|intros ? ?|intros ? ?]
  | |- wp _ _ _ (of_outcome _ _) _ _ => apply w_outcome
  end; cbv beta iota zeta.
Ltac steps := repeat step.
