(* ===== verification/ServerFlow.v ===== *)
(** * The server keeps to its specification: one function at a time

    The invariants that tie the structures of the server to what the monitor of
    ServerSafe.v has seen, and for each function of Server.v that runs before or
    inside a session the proof that it makes only calls that are in order and
    keeps the invariant. *)

From S2P Require Import Prelude Interaction Buffer Platform Packet Codec Service Kex UserPolicy.
From S2P Require Import Userauth Connection Ident TransportState Transport TransportSafe TransportSession.
From S2P Require Import Sftp SftpPath SftpServer ServerState Server ServerSafe.

(** Options as C has them, with the defaults filled in. *)
Record options_ok (eff : ssh_server_session_options) : Prop := {
  oo_effective : effective_session_options (Some eff) = eff;
  oo_window : 0 < opt_channel_window_size eff < 2 ^ 32
}.

(** Arithmetic on the counters of the monitor. *)
Ltac watch_lia := cbn [done_step on_chan on_res cw_chan cw_res cw_auth with_windows with_streams kw_recv kw_send]; lia.
(** A text that is a literal. *)
Ltac text_tac := split; [by apply (bool_decide_unpack _); vm_compute|by vm_compute].

Section flow.
Context (server : ssh_server) (eff : ssh_server_session_options) (Heff : options_ok eff).
Implicit Types (s : server_state) (x y : conn_watch).

Abbreviation swp := (wp (conn_step eff) (conn_permits server eff) sreply_good).

(** ** Setup and authentication *)

(** Nothing is held: no channel, no SFTP session, no program. *)
Definition idle x : Prop :=
  cw_chan x = cw_chan conn_start /\ cw_res x = cw_res conn_start.

(** The transport is set up and no request is under evaluation. *)
Record before_login (n : Z) x : Prop := {
  bl_setup : aw_setup (cw_auth x) = setup_done;
  bl_request : aw_request (cw_auth x) = None;
  bl_user : aw_user (cw_auth x) = None;
  bl_failures : aw_failures (cw_auth x) = n
}.

Definition same_channels s s' : Prop :=
  ss_sftp s' = ss_sftp s /\ ss_term s' = ss_term s.

Lemma setup_safe options s x :
  idle x -> cw_auth x = cw_auth conn_start ->
  opt_algorithms (effective_session_options options) = opt_algorithms eff ->
  (forall o, options = Some o -> is_u64 (opt_rekey_after_packets o) /\ is_u64 (opt_rekey_after_bytes o)) ->
  swp (ssh_server_run_transport_setup server options s)
    (post (fun _ s' y => idle y /\ same_channels s s' /\ before_login 0 y /\ aw_service (cw_auth y) = false)
       (fun _ s' y => idle y /\ same_channels s s')) x.
Proof.
  intros [Hk Hw] Ha Halg Ho. destruct x as [a k w]. cbn [cw_auth cw_chan cw_res] in *. subst.
  assert (top_ok (OpSetRekeyLimits (opt_rekey_after_packets (effective_session_options options))
    (opt_rekey_after_bytes (effective_session_options options)))) as Hr.
  { destruct options as [o|]; [exact (Ho o eq_refl)|done]. }
  unfold ssh_server_run_transport_setup. step. step; [done|].
  step. step; [done|]. destruct r as [[]|e|]; [|done|done].
  steps; try done.
Qed.

(** The peer was authenticated under the name the server recorded. *)
Definition logged_as s x : Prop := aw_user (cw_auth x) = Some (ss_username s).

Lemma request_algorithm_ok r sid n :
  request_ok r -> ssh_userauth_evaluate_request (auth_server_of server) r sid n = Ret SSH_USERAUTH_DECISION_PK_OK ->
  null_or_ok (publickey_algorithm r) /\ null_or_ok (publickey_blob r).
Proof.
  intros (_ & _ & _ & Hf) _. unfold method_fields_ok, no_publickey, null_or_ok, nonempty_view in *.
  repeat case_decide; destruct_and?; tauto.
Qed.

Lemma userauth_loop_safe rounds n s x :
  idle x -> before_login n x -> aw_service (cw_auth x) = true ->
  swp (userauth_loop server rounds n s)
    (post (fun a s' y => idle y /\ same_channels s s' /\ (a = Some tt -> logged_as s' y))
       (fun _ s' y => idle y /\ same_channels s s')) x.
Proof.
  revert n s x. induction rounds as [|rounds IH]; intros n s x Hi [Hs Hr Hu Hn] Hv; cbn [userauth_loop];
    (step; [by step|]); [by step; split_and!|].
  assert (n < cfg_max_auth_tries (sv_config server)) as Hlt by lia.
  step. step; [by split_and!; try done; rewrite Hn| |done]. destruct H0 as [Hq Hl]. step. step; [done|]. destruct H0 as [Hb Hz].
  step. step. pose proof (evaluate_no_fault (auth_server_of server) v r Hq Hl (conj Hb Hz)) as Hnf.
  destruct (ssh_userauth_evaluate_request _ _ _ _) as [d|e|] eqn:Ed; [|done|done].
  assert (decides server (conn_step eff (done_step eff OpReceiveUserauth v x) TransportSessionId r) d) as Hd
    by (by exists v, r).
  destruct d.
  - destruct (failure_methods_text (auth_server_of server) (zeros EMSSH_MAX_USERAUTH_FAILURE_METHODS)) as [m' E];
      [by vm_compute|]. rewrite E. cbv beta iota zeta. step. step.
    rewrite methods_string. step. step; [split_and!; [done|done|cbn; lia]| | |done].
    + unfold offered_methods.
      destruct (cfg_publickey_auth (sv_config server)) eqn:E1, (cfg_password_auth (sv_config server)) eqn:E2;
        cbn [auth_server_of password_auth publickey_auth]; rewrite ?E1, ?E2;
        text_tac.
    + apply IH; [done| |done]. split; try done. cbn. lia.
  - step. step. unfold view_to_cstring. destruct (proj1 Hq) as [(u & Eu & _) _]. rewrite Eu.
    cbn [view_data view_of Z.eqb EMSSH_MAX_USERAUTH_PAYLOAD]. case_bool; [by split|].
    step. step. step. step; [done| |done]. step.
    split_and!; [done|done|]. intros _. unfold logged_as. cbn. by rewrite Eu.
  - apply request_algorithm_ok in Ed as [Ha Hb']; [|done].
    step. step; [split; [done|]; intros q Eq; cbn in Eq; by injection Eq as <-| |done].
    apply IH; [done|by split|done].
Qed.

Lemma userauth_safe rounds s x :
  idle x -> before_login 0 x -> aw_service (cw_auth x) = false ->
  swp (ssh_server_run_userauth server rounds s)
    (post (fun a s' y => idle y /\ same_channels s s' /\ (a = Some tt -> logged_as s' y))
       (fun _ s' y => idle y /\ same_channels s s')) x.
Proof.
  intros Hi [Hs Hr Hu Hn] Hv. unfold ssh_server_run_userauth. step. step. step. step; [by split| |done].
  step. step; [done|]. step. step; [by split|text_tac| |done].
  eapply post_mono; [apply userauth_loop_safe; [done|by split|done]|done|done].
Qed.

(** ** Waiting for requests *)

(** Nothing has changed. *)
Definition same {A} s x : A -> server_state -> conn_watch -> Prop := fun _ s' y => s' = s /\ y = x.

Lemma to_peer_is x rc : to_peer x rc -> exists o, channel_is x o.
Proof. intros (o & Ho & _). by exists o. Qed.

Lemma failure_ignored rc s x U :
  to_peer x rc -> U tt s x -> swp (ignored (transport (OpSendChannelFailure rc)) s) (post U (fun _ _ _ => False)) x.
Proof. intros Hp HU. step. step; done. Qed.

Lemma policy_safe request s x o :
  channel_is x o ->
  swp (non_sftp_channel_request_allowed_by_policy eff request s) (post (same s x) (fun _ _ _ => False)) x.
Proof.
  intros Ho. unfold non_sftp_channel_request_allowed_by_policy. step. step.
  - step; [by exists o|]. step; by step.
  - step. step; by step.
Qed.

Lemma refuse_safe rc request s x :
  to_peer x rc -> swp (refuse_request eff rc request s) (post (same s x) (fun _ _ _ => False)) x.
Proof.
  intros Hp. destruct (to_peer_is x rc Hp) as [o Ho]. unfold refuse_request.
  assert (swp ((non_sftp_channel_request_allowed_by_policy eff request;; mret tt) s)
    (post (same s x) (fun _ _ _ => False)) x) as Hpol.
  { step. eapply post_mono; [by eapply policy_safe|intros st ? ? [-> ->]; by step|done]. }
  step. step; [by apply failure_ignored|exact Hpol].
Qed.

Lemma reply_success_safe rc request s x (E : ssh_status -> server_state -> conn_watch -> Prop) :
  to_peer x rc -> (forall e, E e s x) -> swp (reply_success rc request s) (post (same s x) E) x.
Proof. intros Hp HE. unfold reply_success. step; [|done]. step; [done|done|]. apply HE. Qed.

Lemma reply_failure_safe rc request s x :
  to_peer x rc -> swp (reply_failure rc request s) (post (same s x) (fun _ _ _ => False)) x.
Proof. intros Hp. unfold reply_failure. step; [|done]. by apply failure_ignored. Qed.

Section request_loop.
Context {A : Type} (I : server_state -> conn_watch -> Prop) (Q : A -> server_state -> conn_watch -> Prop)
  (E : ssh_status -> server_state -> conn_watch -> Prop) (body : ssh_status -> ssh_channel_request -> SvM (option A)).
Hypothesis Hopen : forall s x, I s x -> exists o, channel_is x o.
Hypothesis Herr : forall e s x, I s x -> E e s x.
Hypothesis Hbody : forall status request s x, I s x ->
  swp (body status request s) (post (fun r s' y => match r with Some a => Q a s' y | None => I s' y end) E) x.

Lemma next_request_safe first request s x :
  I s x -> swp (next_request first request s) (post (same s x) E) x.
Proof.
  intros Hi. unfold next_request. destruct first as [q|]; [by step|]. step.
  step; [by split; [by apply (Hopen s)|]|]. destruct r as [[[e|] q]|e|]; cbv iota; by step.
Qed.

Lemma request_loop_safe attempts first request s x :
  I s x -> swp (request_loop body attempts first request s) (post Q E) x.
Proof.
  revert first request s x. induction attempts as [|n IH]; intros first request s x Hi; cbn [request_loop];
    [step; by apply Herr|].
  step. eapply post_mono; [by apply next_request_safe|intros [st q] ? ? [-> ->]|done]. cbv beta iota.
  step.
  - step. step; [done|]. step; [by apply IH|step; by apply Herr].
  - step. eapply post_mono; [by apply Hbody|intros [a|] s' y Hy|done]; [by step|by apply IH].
Qed.
End request_loop.

(** ** Accepting a channel *)

(** The channel [o] is open and confirmed, and nothing has happened on it. *)
Record accepting (o : ssh_channel_open) s x : Prop := {
  ac_user : logged_as s x;
  ac_open : kw_open (cw_chan x) = Some o;
  ac_confirmed : kw_confirmed (cw_chan x) = true;
  ac_ok : channel_open_ok o;
  ac_send : kw_send (cw_chan x) = initial_window_size o;
  ac_recv : kw_recv (cw_chan x) = opt_channel_window_size eff;
  ac_ends : kw_eof (cw_chan x) = false /\ kw_close (cw_chan x) = false;
  ac_streams : kw_in (cw_chan x) = [] /\ kw_out (cw_chan x) = [];
  ac_broken : kw_broken (cw_chan x) = false;
  ac_res : cw_res x = cw_res conn_start
}.

(** What a session holds is what the structure of its channel says. *)
Definition res_ok (r : channel_ref) s x : Prop :=
  match r with
  | SftpChannel =>
    rw_sftp (cw_res x) = ch_initialized (sc_flow (ss_sftp s)) /\ rw_term (cw_res x) = None
  | TerminalChannel =>
    rw_sftp (cw_res x) = false /\ tc_handle (ss_term s) = default 0 (rw_term (cw_res x)) /\
    (forall h, rw_term (cw_res x) = Some h -> h <> 0 /\ ch_initialized (tc_flow (ss_term s)) = true)
  end.
Definition released {A} (r : channel_ref) : A -> server_state -> conn_watch -> Prop := fun _ s x => res_ok r s x.

Definition fresh (r : channel_ref) s : Prop :=
  match r with SftpChannel => ss_sftp s = zero_sftp_channel | TerminalChannel => ss_term s = zero_terminal_channel end.

Lemma fresh_res r s x : fresh r s -> cw_res x = cw_res conn_start -> res_ok r s x.
Proof. destruct r; cbn; intros Hf Hw; rewrite Hw, Hf; done. Qed.

Lemma accepting_is o s x : accepting o s x -> channel_is x o.
Proof. intros []. split_and!; [|done|done]. by exists (ss_username s). Qed.
Lemma accepting_peer o s x : accepting o s x -> to_peer x (sender_channel o).
Proof. intros H. exists o. split; [by eapply accepting_is|done]. Qed.

Lemma accept_open_safe s x :
  idle x -> logged_as s x ->
  swp (accept_open eff s)
    (post (fun o s' y => accepting o s' y /\ s' = s) (fun _ s' y => s' = s /\ cw_res y = cw_res conn_start)) x.
Proof.
  intros [Hk Hw] Hu. unfold accept_open.
  assert (logged_in x) as Hl by (by exists (ss_username s)).
  step. step; [split; [done|]; by rewrite Hk| |done]. step. step.
  - step. step. step; [split; [done|]; exists v; by split_and!; [|apply negb_true_iff|]|text_tac|done|done].
  - step. step. step; [| |done].
    + split_and!; [done|by cbn; rewrite Hk|done..|]. exists v. split_and!; [done|by apply negb_false_iff|done].
    + step. split; [|done]. destruct x as [a k w]. cbn [cw_auth cw_chan cw_res] in *. subst. by split.
Qed.

(** ** The invariant of a channel

    [owed]: bytes received whose window was not yet taken off; [sent]: bytes sent
    whose window was not yet taken off. *)
Record flow_ok (owed sent : Z) (f : channel_flow) x : Prop := {
  fo_open : exists o, channel_is x o /\ sender_channel o = client_channel f /\
    maximum_packet_size o = peer_max_packet_size f /\ is_u32 (maximum_packet_size o);
  fo_server : server_channel f = opt_server_channel eff;
  fo_init : ch_initialized f = true;
  fo_max : window_max_size f = opt_channel_window_size eff;
  fo_window : window_size f = kw_recv (cw_chan x) + owed;
  fo_range : 0 <= window_size f <= window_max_size f;
  fo_peer : is_u32 (peer_window_size f) /\ peer_window_size f <= kw_send (cw_chan x) + sent;
  fo_eof : eof_sent f = kw_eof (cw_chan x);
  fo_close : close_sent f = kw_close (cw_chan x);
  fo_broken : kw_broken (cw_chan x) = false
}.

(** What else the server holds: with an SFTP channel its session and no program;
    with a terminal channel the program that runs in it. *)
Definition held (r : channel_ref) s x : Prop :=
  match r with
  | SftpChannel => rw_sftp (cw_res x) = true /\ rw_term (cw_res x) = None
  | TerminalChannel =>
    rw_sftp (cw_res x) = false /\
    tc_handle (ss_term s) = default 0 (rw_term (cw_res x)) /\
    (forall h, rw_term (cw_res x) = Some h -> h <> 0) /\
    (tc_running (ss_term s) = true -> tc_exit_status_sent (ss_term s) = false /\
       rw_exit_sent (cw_res x) = false /\ kw_eof (cw_chan x) = false /\ kw_close (cw_chan x) = false)
  end.

Record chan_ok (r : channel_ref) (owed sent : Z) s x : Prop := {
  co_flow : flow_ok owed sent (flow_of r s) x;
  co_held : held r s x
}.
Definition streams (inp out : list Z) x : Prop := kw_in (cw_chan x) = inp /\ kw_out (cw_chan x) = out.

Definition bytes_within (n : Z) (l : list Z) : Prop := Forall is_byte l /\ zlen l <= n.

(** Between two messages. *)
Record sftp_ok s x : Prop := {
  sk_chan : chan_ok SftpChannel 0 0 s x;
  sk_streams : streams (sftp_rx (ss_sftp s)) (sftp_tx_pending (ss_sftp s)) x;
  sk_rx : bytes_within EMSSH_SFTP_MAX_PACKET_SIZE (sftp_rx (ss_sftp s));
  sk_pending : Forall is_byte (sftp_tx_pending (ss_sftp s));
  sk_order : kw_close (cw_chan x) = true -> kw_eof (cw_chan x) = true
}.
Definition terminal_ok s x : Prop := chan_ok TerminalChannel 0 0 s x /\ streams [] [] x.

Lemma chan_res r owed sent s x : chan_ok r owed sent s x -> res_ok r s x.
Proof.
  intros [[] Hh]. destruct r; cbn [held flow_of] in *.
  - destruct Hh as (H1 & H2). split; [congruence|done].
  - destruct Hh as (H1 & H3 & H4 & _). split_and!; [done|done|]. intros h Hh. split; [by apply H4|done].
Qed.

Lemma flow_live sent f x : flow_ok 0 sent f x -> live x.
Proof. intros []. split; [done|lia]. Qed.
Lemma flow_is owed sent f x : flow_ok owed sent f x -> exists o, channel_is x o.
Proof. intros [(o & Ho & _)]. by exists o. Qed.
Lemma flow_peer owed sent f x : flow_ok owed sent f x -> to_peer x (client_channel f).
Proof. intros [(o & Ho & Hs & _)]. by exists o. Qed.

(** A message of the right length for the peer. *)
Lemma flow_fits sent f x n :
  flow_ok 0 sent f x -> 0 < n -> n + sent <= peer_window_size f ->
  (peer_max_packet_size f <> 0 -> n <= peer_max_packet_size f) -> packet_fits x n.
Proof.
  intros [(o & (_ & Ho & _) & _ & Hm & _) _ _ _ _ _ [_ Hp]] Hn Hw Hmax. split; [lia|].
  rewrite Ho. intros o' [= <-]. by rewrite Hm.
Qed.

(** ** Accepting an SFTP channel *)
Lemma sftp_accept_request_safe o status request s x :
  accepting o s x -> fresh SftpChannel s ->
  swp (sftp_accept_request eff o status request s)
    (post (fun r s' y => accepting o s' y /\ fresh SftpChannel s') (released SftpChannel)) x.
Proof.
  intros Ha Hf. unfold sftp_accept_request. step.
  step; [by apply fresh_res, (ac_res o s x Ha)|]. step; [by step|]. step.
  eapply post_mono; [apply refuse_safe; by eapply accepting_peer|intros ? ? ? [-> ->]; by step|done].
Qed.

Lemma flow_ok_res owed sent f g x : flow_ok owed sent f x -> flow_ok owed sent f (on_res g x).
Proof. intros []. by split. Qed.

Lemma open_flow_ok o s x :
  accepting o s x -> flow_ok 0 0 (open_flow eff o zero_flow) x.
Proof.
  intros Ha. pose proof (accepting_is _ _ _ Ha) as Hi. destruct Ha as [? ? ? [Hu1 Hu2]]. destruct_and!.
  pose proof (oo_window eff Heff). split; cbn; try done; try lia.
  - exists o. done.
  - unfold is_u32 in *. split; [done|lia].
Qed.

Lemma sftp_requests_safe o n first request s x :
  accepting o s x -> fresh SftpChannel s ->
  swp (request_loop (sftp_accept_request eff o) n first request s)
    (post (fun _ s' y => accepting o s' y /\ fresh SftpChannel s') (released SftpChannel)) x.
Proof.
  intros Ha Hf. apply (request_loop_safe (fun s' y => accepting o s' y /\ fresh SftpChannel s')); [| | |done].
  - intros s' y [? _]. eexists. by eapply accepting_is.
  - intros e s' y [? ?]. by apply fresh_res, (ac_res o s' y).
  - intros st q s' y [? ?]. eapply post_mono; [by apply sftp_accept_request_safe|by intros [|]|done].
Qed.

(** A channel on which nothing was received yet. *)
Definition sftp_new s x : Prop :=
  sftp_ok s x /\ sftp_rx (ss_sftp s) = [] /\ sftp_tx_pending (ss_sftp s) = [].

Lemma sftp_opened o s x :
  accepting o s x -> fresh SftpChannel s ->
  sftp_new (on_flow SftpChannel (open_flow eff o) s) (on_res (with_sftp true) x).
Proof.
  intros Ha Hs. cbn in Hs. split; [|by cbn; rewrite Hs]. split.
  - split.
    + unfold on_flow. cbn [flow_of set_flow set_sftp ss_sftp sc_flow]. rewrite Hs.
      by eapply flow_ok_res, open_flow_ok.
    + split; [done|]. cbn. by rewrite (ac_res _ _ _ Ha).
  - unfold on_flow. cbn. rewrite Hs. apply (ac_streams _ _ _ Ha).
  - cbn. by rewrite Hs.
  - cbn. by rewrite Hs.
  - intros H. exfalso. cbn in H. destruct (ac_ends _ _ _ Ha). congruence.
Qed.

Lemma sftp_accept_safe o first s x :
  accepting o s x -> fresh SftpChannel s ->
  swp (sftp_accept_after_open server (Some eff) o first s) (post (fun _ => sftp_new) (released SftpChannel)) x.
Proof.
  intros Ha Hf. assert (res_ok SftpChannel s x) as Hr by (by apply fresh_res, (ac_res o s x Ha)).
  unfold sftp_accept_after_open. rewrite (oo_effective _ Heff). step. step; [done|]. step.
  eapply post_mono; [by apply sftp_requests_safe| |done]. intros q s' y [Ha' Hf']. cbv beta.
  assert (res_ok SftpChannel s' y) as Hr' by (by apply fresh_res, (ac_res o s' y Ha')).
  step. eapply post_mono; [apply (reply_success_safe _ _ _ _ (released SftpChannel)); [by eapply accepting_peer|by intros ?]| |done].
  intros _ ? ? [-> ->]. step. step.
  { split; [eexists; by eapply accepting_is|by rewrite (ac_res _ _ _ Ha')]. }
  cbn [conn_step]. destruct (status_bad r) eqn:Eb; (step; step; [|]); try congruence; [done|]. pose proof (sftp_opened o s' y Ha' Hf') as Hok.
  step. step.
  - step. step; [done|]. cbn [conn_step]. step.
    + step. step; [done|]. step. apply fresh_res; [done|]. cbn. by rewrite (ac_res _ _ _ Ha').
    + step. exact Hok.
  - step. exact Hok.
Qed.

(** ** Flow control *)
Lemma flow_of_set r f s : flow_of r (set_flow r f s) = f.
Proof. by destruct r. Qed.
Lemma set_flow_set r f g s : set_flow r f (set_flow r g s) = set_flow r f s.
Proof. by destruct r. Qed.
Lemma set_flow_same r s : set_flow r (flow_of r s) s = s.
Proof. by destruct r, s as [? [] []]. Qed.

(** Only the windows have changed. *)
Record moved (r : channel_ref) s x s' y : Prop := {
  mv_state : s' = set_flow r (flow_of r s') s;
  mv_streams : kw_in (cw_chan y) = kw_in (cw_chan x) /\ kw_out (cw_chan y) = kw_out (cw_chan x);
  mv_ends : kw_eof (cw_chan y) = kw_eof (cw_chan x) /\ kw_close (cw_chan y) = kw_close (cw_chan x)
}.
Lemma windows_moved_refl r s x : moved r s x s x.
Proof. split; [by rewrite set_flow_same|done|done]. Qed.
Lemma windows_moved_trans r s1 x1 s2 x2 s3 x3 : moved r s1 x1 s2 x2 -> moved r s2 x2 s3 x3 -> moved r s1 x1 s3 x3.
Proof.
  intros [A [B1 B2] [C1 C2]] [A' [B1' B2'] [C1' C2']]. split; [|split; congruence..].
  rewrite A' at 1. rewrite A, set_flow_set. done.
Qed.

(** A status that ends the session. *)
Definition fatal (r : channel_ref) : ssh_status -> server_state -> conn_watch -> Prop := fun e s x =>
  res_ok r s x /\ e <> SSH_ERR_NOT_FOUND.

Lemma res_ok_chan r g s x : res_ok r s x -> res_ok r s (on_chan g x).
Proof. by destruct r. Qed.
Lemma fatal_broken r op e s x :
  res_ok r s x -> (must_succeed op = true -> e <> SSH_ERR_NOT_FOUND) -> must_succeed op = true ->
  fatal r e s (if must_succeed op then on_chan broken x else x).
Proof. intros Hr He Hm. rewrite Hm. split; [by apply res_ok_chan|by apply He]. Qed.

(** A window changes: the one kept by the server, the one it was granted, or both
    as the monitor counts them. *)
Lemma chan_window r owed sent s x w owed' :
  chan_ok r owed sent s x -> w = kw_recv (cw_chan x) + owed' -> 0 <= w <= opt_channel_window_size eff ->
  let s' := on_flow r (with_window_size w) s in chan_ok r owed' sent s' x /\ moved r s x s' x.
Proof.
  intros [[] Hh] Hw Hr. split.
  - split; [unfold on_flow; rewrite flow_of_set; split; cbn; try done; lia|by destruct r].
  - split; [|done|done]. unfold on_flow. by rewrite flow_of_set.
Qed.

Lemma chan_peer_window r owed sent s x p sent' :
  chan_ok r owed sent s x -> is_u32 p -> p <= kw_send (cw_chan x) + sent' ->
  let s' := on_flow r (with_peer_window_size p) s in chan_ok r owed sent' s' x /\ moved r s x s' x.
Proof.
  intros [[] Hh] Hu Hp. split.
  - split; [unfold on_flow; rewrite flow_of_set; by split|by destruct r].
  - split; [|done|done]. unfold on_flow. by rewrite flow_of_set.
Qed.

(** The windows and the streams may differ. *)
Record same_channel x y : Prop := {
  sm_auth : cw_auth y = cw_auth x;
  sm_res : cw_res y = cw_res x;
  sm_open : kw_open (cw_chan y) = kw_open (cw_chan x) /\ kw_confirmed (cw_chan y) = kw_confirmed (cw_chan x);
  sm_ends : kw_eof (cw_chan y) = kw_eof (cw_chan x) /\ kw_close (cw_chan y) = kw_close (cw_chan x);
  sm_broken : kw_broken (cw_chan y) = kw_broken (cw_chan x)
}.

Lemma chan_seen r owed sent s x y owed' sent' :
  chan_ok r owed sent s x -> same_channel x y ->
  kw_recv (cw_chan x) + owed = kw_recv (cw_chan y) + owed' ->
  kw_send (cw_chan x) + sent <= kw_send (cw_chan y) + sent' ->
  chan_ok r owed' sent' s y.
Proof.
  intros [[] Hh] [Ha Hw [Ho1 Ho2] [He1 He2] Hb] Hr Hs. split.
  - split; try congruence.
    + destruct fo_open0 as (o & (Hl & Hop & Hcf) & ?). exists o. split; [|done]. split_and!; try congruence.
      unfold logged_in in *. by rewrite Ha.
    + destruct fo_peer0. split; [done|lia].
  - destruct r; cbn [held] in *; by rewrite Hw, ?He1, ?He2.
Qed.


Lemma replenish_safe r s x :
  chan_ok r 0 0 s x ->
  swp (maybe_replenish_window r s) (post (fun _ s' y => chan_ok r 0 0 s' y /\ moved r s x s' y) (fatal r)) x.
Proof.
  intros Hc. pose proof (co_flow _ _ _ _ _ Hc) as Hf. pose proof Hf as []. pose proof (oo_window _ Heff).
  unfold maybe_replenish_window. step. step. step.
  step; [split; [by eapply chan_res|done]|]. step; [step; by split; [|apply windows_moved_refl]|].
  step; [step; by split; [|apply windows_moved_refl]|]. set (n := u32 _) in *.
  assert (n = window_max_size (flow_of r s) - window_size (flow_of r s)) as En
    by (subst n; unfold u32; apply Z.mod_small; lia).
  step. step; [| |by apply fatal_broken; [eapply chan_res| |]].
  { split_and!; [by eapply flow_peer|by eapply flow_live|lia|lia]. }
  step. cbn [done_step].
  assert (chan_ok r (- n) 0 s (on_chan (fun k => with_windows (kw_send k) (kw_recv k + n) k) x)) as Hc'
    by (eapply chan_seen; [exact Hc|done|watch_lia|watch_lia]).
  destruct (chan_window r _ _ _ _ (window_size (flow_of r s) + n) 0 Hc') as [H4 H5]; [watch_lia|lia|].
  unfold on_flow in *. replace (u32 (window_size (flow_of r s) + n)) with (window_size (flow_of r s) + n);
    [|unfold u32; symmetry; apply Z.mod_small; lia]. split; [exact H4|]. by destruct H5.
Qed.

Lemma consume_safe r n s x :
  chan_ok r n 0 s x -> 0 <= n < 2 ^ 32 ->
  swp (consume_window r n s) (post (fun _ s' y => chan_ok r 0 0 s' y /\ moved r s x s' y) (fatal r)) x.
Proof.
  intros Hc Hn. pose proof (co_flow _ _ _ _ _ Hc) as []. pose proof (oo_window _ Heff).
  unfold consume_window. step. step. step. step; [split; [by eapply chan_res|done]|]. step. step.
  unfold on_flow at 1. cbv beta. replace (u32 (window_size (flow_of r s) - u32 n)) with (window_size (flow_of r s) - n);
    [|unfold u32; rewrite (Z.mod_small n), Z.mod_small; lia].
  destruct (chan_window r _ _ _ _ (window_size (flow_of r s) - n) 0 Hc) as [H1 H2]; [lia|lia|].
  fold (on_flow r (with_window_size (window_size (flow_of r s) - n)) s).
  eapply post_mono; [by apply replenish_safe| |done]. intros _ s' y [H3 H4]. split; [done|].
  by eapply windows_moved_trans.
Qed.

Definition same_ends x y : Prop :=
  kw_eof (cw_chan y) = kw_eof (cw_chan x) /\ kw_close (cw_chan y) = kw_close (cw_chan x).

Lemma send_data_safe r sent d s x :
  chan_ok r 0 sent s x -> Forall is_byte d -> 0 < zlen d -> zlen d + sent <= peer_window_size (flow_of r s) ->
  (peer_max_packet_size (flow_of r s) <> 0 -> zlen d <= peer_max_packet_size (flow_of r s)) ->
  ztake (zlen d) (kw_out (cw_chan x)) = d ->
  swp (transport (OpSendChannelData (client_channel (flow_of r s)) d) s)
    (post (fun _ s' y => s' = s /\ chan_ok r 0 (sent + zlen d) s y /\
       streams (kw_in (cw_chan x)) (zdrop (zlen d) (kw_out (cw_chan x))) y /\ same_ends x y) (fatal r)) x.
Proof.
  intros Hc Hb Hd Hw Hm Ho. pose proof (co_flow _ _ _ _ _ Hc) as Hf.
  step; [| |by apply fatal_broken; [eapply chan_res| |]].
  - split_and!; [by eapply flow_peer|by eapply flow_live|by eapply flow_fits|done].
  - split_and!; try done. eapply chan_seen; [exact Hc|done|watch_lia|watch_lia].
Qed.

Lemma spend_safe r n s x (E : ssh_status -> server_state -> conn_watch -> Prop) :
  chan_ok r 0 n s x -> 0 <= n <= peer_window_size (flow_of r s) ->
  swp (spend_peer_window r n s) (post (fun _ s' y => chan_ok r 0 0 s' y /\ moved r s x s' y /\ y = x /\
    peer_window_size (flow_of r s') = peer_window_size (flow_of r s) - n) E) x.
Proof.
  intros Hc Hn. destruct (fo_peer _ _ _ _ (co_flow _ _ _ _ _ Hc)) as [Hu Hp]. unfold is_u32 in Hu.
  unfold spend_peer_window. step. unfold on_flow. cbv beta.
  replace (u32 (peer_window_size (flow_of r s) - u32 n)) with (peer_window_size (flow_of r s) - n);
    [|unfold u32; rewrite (Z.mod_small n), Z.mod_small; lia].
  destruct (chan_peer_window r 0 n s x (peer_window_size (flow_of r s) - n) 0 Hc) as [H1 H2];
    [unfold is_u32; lia|lia|].
  split_and!; [exact H1|exact H2|done|]. by rewrite flow_of_set.
Qed.

Lemma grow_safe r n s x (E : ssh_status -> server_state -> conn_watch -> Prop) :
  chan_ok r 0 0 s x -> is_u32 n ->
  swp (grow_peer_window r n s)
    (post (fun _ s' y => chan_ok r 0 0 s' y /\ moved r s (on_chan (fun k => with_windows (kw_send k) (kw_recv k) k) x) s' y) E)
    (on_chan (fun k => with_windows (kw_send k + n) (kw_recv k) k) x).
Proof.
  intros Hc Hn. destruct (fo_peer _ _ _ _ (co_flow _ _ _ _ _ Hc)) as [Hu Hp]. unfold is_u32 in *.
  unfold grow_peer_window. step. unfold on_flow. cbv beta. set (p := add_u32_saturating _ _).
  assert (0 <= p < 2 ^ 32 /\ p <= peer_window_size (flow_of r s) + n) as [Hp1 Hp2].
  { subst p. unfold add_u32_saturating, UINT32_MAX. case_bool; lia. }
  assert (chan_ok r 0 (- n) s (on_chan (fun k => with_windows (kw_send k + n) (kw_recv k) k) x)) as Hc'
    by (eapply chan_seen; [exact Hc|done|watch_lia|watch_lia]).
  destruct (chan_peer_window r 0 (- n) s _ p 0 Hc') as [H1 H2]; [done|watch_lia|].
  split; [exact H1|]. by destruct H2.
Qed.

(** *** The end of a channel *)
Lemma res_ok_flow r f s x :
  res_ok r s x -> ch_initialized f = ch_initialized (flow_of r s) -> res_ok r (set_flow r f s) x.
Proof. intros Hr Hf. destruct r; cbn [flow_of] in Hf; cbn; by rewrite Hf. Qed.

(** Only the end marks have changed. *)
Record ending (r : channel_ref) s x s' y : Prop := {
  en_state : s' = set_flow r (flow_of r s') s;
  en_window : peer_window_size (flow_of r s') = peer_window_size (flow_of r s);
  en_streams : kw_in (cw_chan y) = kw_in (cw_chan x) /\ kw_out (cw_chan y) = kw_out (cw_chan x);
  en_res : cw_res y = cw_res x
}.
Lemma ending_refl r s x : ending r s x s x.
Proof. split; [by rewrite set_flow_same|done|done|done]. Qed.

Lemma send_eof_safe r s x :
  flow_ok 0 0 (flow_of r s) x -> res_ok r s x -> (kw_close (cw_chan x) = true -> kw_eof (cw_chan x) = true) ->
  swp (send_eof_once r s) (post (fun _ s' y => flow_ok 0 0 (flow_of r s') y /\ res_ok r s' y /\ ending r s x s' y /\
    kw_eof (cw_chan y) = true /\ kw_close (cw_chan y) = kw_close (cw_chan x)) (fatal r)) x.
Proof.
  intros Hf Hr Ho. unfold send_eof_once. step. step. pose proof Hf as []. step.
  - step. assert (kw_eof (cw_chan x) = false) as He by (rewrite <- fo_eof0; by apply negb_true_iff).
    step; [| |by apply fatal_broken].
    + split_and!; [by eapply flow_peer|by eapply flow_live|done|].
      destruct (kw_close (cw_chan x)); [by rewrite Ho in He|done].
    + step. unfold on_flow. rewrite flow_of_set. split_and!; [by split| |split|done|done].
      * apply res_ok_flow; [by apply res_ok_chan|done].
      * by rewrite flow_of_set.
      * by rewrite flow_of_set.
      * done.
      * done.
  - split_and!; [done|done|apply ending_refl| |done]. rewrite <- fo_eof0. by apply negb_false_iff.
Qed.

Lemma send_close_safe r s x :
  flow_ok 0 0 (flow_of r s) x -> res_ok r s x ->
  swp (send_close_once r s) (post (fun _ s' y => flow_ok 0 0 (flow_of r s') y /\ res_ok r s' y /\ ending r s x s' y /\
    kw_eof (cw_chan y) = kw_eof (cw_chan x)) (fatal r)) x.
Proof.
  intros Hf Hr. unfold send_close_once. step. step. pose proof Hf as []. step.
  - step. assert (kw_close (cw_chan x) = false) as He by (rewrite <- fo_close0; by apply negb_true_iff).
    step; [| |by apply fatal_broken].
    + split_and!; [by eapply flow_peer|by eapply flow_live|done].
    + step. unfold on_flow. rewrite flow_of_set. split_and!; [by split| |split|done].
      * apply res_ok_flow; [by apply res_ok_chan|done].
      * by rewrite flow_of_set.
      * by rewrite flow_of_set.
      * done.
      * done.
  - split_and!; [done|done|apply ending_refl|done].
Qed.

(** A status after which the session goes on with [Q] is that of a receive that timed
    out. *)
Definition sending (r : channel_ref) (Q : server_state -> conn_watch -> Prop)
    : ssh_status -> server_state -> conn_watch -> Prop :=
  fun e s x => res_ok r s x /\ (e = SSH_ERR_NOT_FOUND -> Q s x).
Lemma fatal_sending r Q e s x : fatal r e s x -> sending r Q e s x.
Proof. intros [? ?]. by split. Qed.
End flow.
