(* ===== verification/ServerSftp.v ===== *)
(** * The messages of an SFTP channel

    For the functions of Server.v behind [ssh_server_process_sftp_channel_data]:
    they keep to the specification of ServerSafe.v and to the invariant [sftp_ok],
    and a pass that returns leaves no whole request in the buffer and no response
    unsent. *)

From S2P Require Import Prelude Interaction Buffer Platform Packet Codec Service Kex UserPolicy.
From S2P Require Import Userauth Connection Ident TransportState Transport TransportSession.
From S2P Require Import Sftp SftpPath SftpServer ServerState Server ServerSafe ServerFlow.

Section sftp_channel.
Context (server : ssh_server) (eff : ssh_server_session_options) (Heff : options_ok eff).
Implicit Types (s : server_state) (x y : conn_watch).

Abbreviation swp := (wp (conn_step eff) (conn_permits server eff) sreply_good).
Abbreviation flow_ok := (flow_ok eff).
Abbreviation chan_ok := (chan_ok eff).
Abbreviation sftp_ok := (sftp_ok eff).
Abbreviation res_ok := (res_ok SftpChannel).
Abbreviation fatal := (fatal SftpChannel).
Abbreviation sending := (sending SftpChannel).

(** ** The messages of an SFTP channel *)

(** Between two pieces of a pending response. *)
Record responding s x : Prop := {
  rp_chan : chan_ok SftpChannel 0 0 s x;
  rp_out : kw_out (cw_chan x) = sftp_tx_pending (ss_sftp s);
  rp_bytes : Forall is_byte (sftp_tx_pending (ss_sftp s))
}.
(** The input side is as it was. *)
Record kept s x s' y : Prop := {
  kp_rx : sftp_rx (ss_sftp s') = sftp_rx (ss_sftp s);
  kp_in : kw_in (cw_chan y) = kw_in (cw_chan x);
  kp_ends : same_ends x y
}.
Lemma kept_refl s x : kept s x s x.
Proof. by split. Qed.
Lemma kept_trans s1 x1 s2 x2 s3 x3 : kept s1 x1 s2 x2 -> kept s2 x2 s3 x3 -> kept s1 x1 s3 x3.
Proof. intros [? ? []] [? ? []]. split; [congruence..|split; congruence]. Qed.

Lemma moved_kept s x s' y : moved SftpChannel s x s' y -> kept s x s' y.
Proof. intros [-> [] ?]. by split. Qed.
Lemma moved_pending s x s' y :
  moved SftpChannel s x s' y -> sftp_tx_pending (ss_sftp s') = sftp_tx_pending (ss_sftp s).
Proof. by intros [-> _ _]. Qed.

Lemma flush_piece len (k : SvM unit) s x Q :
  responding s x -> let pending := sftp_tx_pending (ss_sftp s) in let flow := sc_flow (ss_sftp s) in
  0 < len <= zlen pending -> len <= peer_window_size flow ->
  (peer_max_packet_size flow <> 0 -> len <= peer_max_packet_size flow) ->
  (forall s' y, responding s' y -> kept s x s' y -> sftp_tx_pending (ss_sftp s') = zdrop len pending ->
    peer_window_size (sc_flow (ss_sftp s')) = peer_window_size flow - len -> swp (k s') (post Q fatal) y) ->
  swp ((transport (OpSendChannelData (client_channel flow) (ztake len pending));;
        spend_peer_window SftpChannel len;;
        io_modify (set_pending (zdrop len pending));; k) s) (post Q fatal) x.
Proof.
  intros [Hc Ho Hb] pending flow Hl Hw Hm HQ.
  assert (zlen (ztake len pending) = len) as Hz by (rewrite zlen_ztake by lia; lia).
  step. eapply post_mono; [apply (send_data_safe server eff SftpChannel 0 (ztake len pending) s x); rewrite ?Hz| |done].
  { done. } { by apply Forall_take. } { lia. } { cbn [flow_of]. fold flow. lia. } { done. } { by rewrite Ho. }
  intros _ s1 y (-> & Hc1 & [Hi1 Ho1] & He1). cbv beta. rewrite Hz in *.
  step. eapply post_mono; [apply (spend_safe server eff SftpChannel len _ _ fatal); [exact Hc1|cbn [flow_of]; fold flow; lia]| |done].
  intros _ s2 y2 ([Hf2 Hh2] & Hm2 & -> & Hp2). step. step. apply HQ.
  - split; [by split| |].
    + cbn. rewrite Ho1, Ho. done.
    + by apply Forall_drop.
  - destruct (moved_kept _ _ _ _ Hm2). split; [done|congruence|done].
  - done.
  - exact Hp2.
Qed.

(** What is pending beyond the window. *)
Definition backlog s : Z := zlen (sftp_tx_pending (ss_sftp s)) - peer_window_size (sc_flow (ss_sftp s)).

(** The pending response is sent as far as the window goes. *)
Lemma flush_loop_safe n s x :
  responding s x -> (length (sftp_tx_pending (ss_sftp s)) <= n)%nat ->
  swp (flush_loop n s)
    (post (fun _ s' y => responding s' y /\ kept s x s' y /\ backlog s' = backlog s /\
       (sftp_tx_pending (ss_sftp s') = [] \/ peer_window_size (sc_flow (ss_sftp s')) = 0)) fatal) x.
Proof.
  revert s x. induction n as [|n IH]; intros s x Hr Hn; cbn [flush_loop]; step; step;
    (step; [step; split_and!; [done|apply kept_refl|done|]; apply orb_true_iff in H as [H|H];
       [left; apply Z.eqb_eq in H; by destruct (sftp_tx_pending (ss_sftp s))|right; by apply Z.eqb_eq]|]).
  - exfalso. destruct (sftp_tx_pending (ss_sftp s)); [done|]. cbn in Hn. lia.
  - pose proof (rp_chan _ _ Hr) as Hc.
    destruct (fo_peer _ _ _ _ _ (co_flow _ _ _ _ _ _ Hc)) as [Hu _].
    destruct (fo_open _ _ _ _ _ (co_flow _ _ _ _ _ _ Hc)) as (o & _ & _ & Hmo & Hmu). cbn [flow_of] in *.
    set (pending := sftp_tx_pending (ss_sftp s)) in *. set (flow := sc_flow (ss_sftp s)) in *.
    set (len1 := if zlen pending >? peer_window_size flow then _ else _).
    set (len := if negb (peer_max_packet_size flow =? 0) && _ then _ else len1).
    unfold is_u32 in *. pose proof (zlen_nonneg pending).
    assert (0 < len1 <= zlen pending /\ len1 <= peer_window_size flow) as [L1 L2] by (subst len1; case_bool; lia).
    assert (0 < len <= len1 /\ (peer_max_packet_size flow <> 0 -> len <= peer_max_packet_size flow)) as [L3 L4].
    { subst len. destruct (Z.eqb_spec (peer_max_packet_size flow) 0) as [Em|Em]; cbn [negb andb]; [lia|].
      destruct (Z.gtb_spec len1 (peer_max_packet_size flow)); lia. }
    clearbody len len1. step; [lia|].
    subst pending flow. apply flush_piece; [done|lia|lia|done|]. intros s' y Hr' Hk' Hp' Hw'.
    eapply post_mono; [apply IH; [done|]| |done].
    + rewrite Hp'. unfold zdrop. rewrite length_drop. lia.
    + intros _ s2 y2 (? & ? & Hb & ?). split_and!; [done|by eapply kept_trans| |done].
      rewrite Hb. unfold backlog. rewrite Hp', Hw', zlen_zdrop by lia. lia.
Qed.

(** The peer has to grant more window before the rest can be sent. *)
Definition awaiting s : Prop :=
  sftp_tx_pending (ss_sftp s) <> [] /\ peer_window_size (sc_flow (ss_sftp s)) = 0.

Lemma flush_safe s x :
  responding s x ->
  swp (maybe_flush_pending_sftp_response s)
    (post (fun _ s' y => responding s' y /\ kept s x s' y /\ sftp_tx_pending (ss_sftp s') = [] /\ backlog s <= 0)
       (sending (fun s' y => responding s' y /\ kept s x s' y /\ awaiting s'))) x.
Proof.
  intros Hr. unfold maybe_flush_pending_sftp_response. step. step. step.
  eapply post_mono; [by apply flush_loop_safe| |intros; by apply fatal_sending].
  intros _ s' y (Hr' & Hk' & Hbl & Hend). cbv beta. step. step. step.
  - split; [eapply chan_res, rp_chan, Hr'|]. intros _. split_and!; [done..|].
    destruct Hend as [Hp|Hw]; [by rewrite Hp in H|]. split; [|done]. intros Hp. by rewrite Hp in H.
  - assert (sftp_tx_pending (ss_sftp s') = []) as Hp.
    { destruct (sftp_tx_pending (ss_sftp s')); [done|].
      apply negb_false_iff, Z.eqb_eq in H. pose proof (zlen_nonneg l). rewrite zlen_cons in H. lia. }
    split_and!; [done..|]. rewrite <- Hbl. unfold backlog. rewrite Hp, zlen_nil.
    destruct (fo_peer _ _ _ _ _ (co_flow _ _ _ _ _ _ (rp_chan _ _ Hr'))) as [Hu _]. cbn [flow_of] in Hu.
    unfold is_u32 in Hu. lia.
Qed.

(** A response that fits the window is sent in pieces; the state is not changed. *)
Lemma send_response_safe n rem total s x :
  chan_ok SftpChannel 0 (total - zlen rem) s x -> total <= peer_window_size (sc_flow (ss_sftp s)) ->
  kw_out (cw_chan x) = rem -> Forall is_byte rem -> (length rem <= n)%nat ->
  swp (send_response_loop n rem s)
    (post (fun _ s' y => s' = s /\ chan_ok SftpChannel 0 total s y /\ kw_out (cw_chan y) = [] /\
       kw_in (cw_chan y) = kw_in (cw_chan x) /\ same_ends x y) fatal) x.
Proof.
  revert rem x. induction n as [|n IH]; intros rem x Hc Ht Ho Hb Hn; destruct rem as [|b rem]; cbn [send_response_loop].
  1, 3: change (zlen []) with 0 in Hc; rewrite Z.sub_0_r in Hc; step; by split_and!.
  - cbn in Hn. lia.
  - set (l := b :: rem) in *. step. step. cbn [flow_of].
    destruct (fo_open _ _ _ _ _ (co_flow _ _ _ _ _ _ Hc)) as (o & _ & _ & Hmo & Hmu). cbn [flow_of] in Hmo.
    set (flow := sc_flow (ss_sftp s)) in *. set (len := if _ && _ then _ else _).
    unfold is_u32 in Hmu. assert (0 < zlen l) as Hl by (subst l; rewrite zlen_cons; pose proof (zlen_nonneg rem); lia).
    assert (0 < len <= zlen l /\ (peer_max_packet_size flow <> 0 -> len <= peer_max_packet_size flow)) as [L1 L2].
    { subst len. destruct (Z.eqb_spec (peer_max_packet_size flow) 0); cbn [negb andb]; [lia|].
      destruct (Z.gtb_spec (zlen l) (peer_max_packet_size flow)); lia. }
    clearbody len l. assert (zlen (ztake len l) = len) as Hz by (rewrite zlen_ztake by lia; lia).
    step. step; [lia|].
    step. eapply post_mono; [apply (send_data_safe server eff SftpChannel (total - zlen l) (ztake len l) s x); rewrite ?Hz| |done].
    { done. } { by apply Forall_take. } { lia. } { cbn [flow_of]. fold flow. lia. } { done. } { by rewrite Ho. }
    intros _ s1 y (-> & Hc1 & [Hi1 Ho1] & He1). cbv beta. rewrite Hz in *.
    eapply post_mono; [apply IH| |done].
    + replace (total - zlen (zdrop len l)) with (total - zlen l + len) by (rewrite zlen_zdrop; lia). exact Hc1.
    + done.
    + by rewrite Ho1, Ho.
    + by apply Forall_drop.
    + unfold zdrop. rewrite length_drop. lia.
    + intros _ s2 y2 (-> & ? & ? & Hi2 & [? ?]). destruct He1. split_and!; [done..|congruence|split; congruence].
Qed.

Lemma frame_length l :
  Forall is_byte l -> 4 <= zlen l -> read_u32_be_local l = be_value (ztake 4 l) /\ is_u32 (read_u32_be_local l).
Proof.
  intros Hb Hl. change (read_u32_be_local l) with (Sftp.read_u32_be l).
  assert (zlen (ztake 4 l) = 4) as Hz by (rewrite zlen_ztake; lia).
  assert (Forall is_byte (ztake 4 l)) as Hb4 by (by apply Forall_take).
  rewrite <- (ztake_zdrop 4 l) at 1 3. rewrite Sftp.read_u32_be_value by done. split; [done|].
  pose proof (be_value_bound _ Hb4) as Hv. rewrite Hz in Hv. unfold is_u32. lia.
Qed.

Lemma incomplete_frame l :
  Forall is_byte l -> 4 <= zlen l -> zlen l < read_u32_be_local l + 4 -> incomplete l.
Proof.
  intros Hb Hl Hn pk rest E [H1 H2]. rewrite (proj1 (frame_length l Hb Hl)) in Hn. subst l.
  assert (ztake 4 (pk ++ rest) = ztake 4 pk) as E4.
  { unfold ztake. rewrite firstn_app. replace (Z.to_nat 4 - length pk)%nat with 0%nat by (unfold zlen in *; lia).
    by rewrite firstn_O, app_nil_r. }
  rewrite E4, zlen_app in Hn. pose proof (zlen_nonneg rest). lia.
Qed.

(** Nothing is left to do but to wait: every whole request was handled and every
    response sent, or the rest of a response waits for the peer's window.  The last
    case, where nothing is in the receive buffer, is one where the source does not
    send the rest although it could. *)
Definition settled s : Prop :=
  (sftp_tx_pending (ss_sftp s) = [] /\ incomplete (sftp_rx (ss_sftp s))) \/
  (sftp_tx_pending (ss_sftp s) <> [] /\
   (peer_window_size (sc_flow (ss_sftp s)) = 0 \/ sftp_rx (ss_sftp s) = [])).
Definition ready s x : Prop := sftp_ok s x /\ settled s.

Lemma ready_caught_up s x : ready s x -> caught_up x.
Proof.
  intros [Hk Hs]. destruct (sk_streams _ _ _ Hk) as [Hi Ho]. destruct (co_held _ _ _ _ _ _ (sk_chan _ _ _ Hk)) as [Hq _].
  split; rewrite ?Hi, ?Ho, ?Hq; [|done]. intros Hp. by destruct Hs as [[_ ?]|[? _]].
Qed.

Lemma new_ready s x : sftp_new eff s x -> ready s x.
Proof. intros (Hk & Hr & Hp). split; [done|]. left. rewrite Hr. split; [done|]. by apply incomplete_short. Qed.

Lemma bytes_within_zdrop n k l : bytes_within n l -> 0 <= k <= zlen l -> bytes_within n (zdrop k l).
Proof. intros [Hb Hl] Hk. split; [by apply Forall_drop|]. rewrite zlen_zdrop; lia. Qed.

(** From the pieces of a response back to the whole invariant. *)
Lemma responding_sftp s x :
  responding s x -> kw_in (cw_chan x) = sftp_rx (ss_sftp s) ->
  bytes_within EMSSH_SFTP_MAX_PACKET_SIZE (sftp_rx (ss_sftp s)) ->
  (kw_close (cw_chan x) = true -> kw_eof (cw_chan x) = true) -> sftp_ok s x.
Proof. intros [Hc Ho Hb] Hi Hr He. split; [done|by split|done..]. Qed.
Lemma sftp_responding s x : sftp_ok s x -> responding s x.
Proof. intros [Hc [Hi Ho] Hr Hp He]. by split. Qed.
Lemma kept_sftp s x s' y : sftp_ok s x -> responding s' y -> kept s x s' y -> sftp_ok s' y.
Proof.
  intros [Hc [Hi Ho] Hr Hp He] Hrp [Hk1 Hk2 [Hk3 Hk4]]. apply responding_sftp; [done|congruence|by rewrite Hk1|].
  by rewrite Hk3, Hk4.
Qed.

Lemma rx_frame l n :
  Forall is_byte l -> 4 <= zlen l -> n = read_u32_be_local l -> 0 < n <= EMSSH_SFTP_MAX_PACKET_SIZE - 4 ->
  n + 4 <= zlen l -> one_frame (ztake (n + 4) l) /\ zlen (ztake (n + 4) l) = n + 4.
Proof.
  intros Hb Hl En Hn Hz. assert (zlen (ztake (n + 4) l) = n + 4) as E by (rewrite zlen_ztake; lia). split; [|done].
  split; [|lia]. rewrite E. destruct (frame_length l Hb Hl) as [Hv _].
  replace (ztake 4 (ztake (n + 4) l)) with (ztake 4 l); [lia|].
  unfold ztake. rewrite take_take. f_equal. lia.
Qed.

Lemma chan_set_rx owed sent s x v : chan_ok SftpChannel owed sent s x -> chan_ok SftpChannel owed sent (set_rx v s) x.
Proof. by intros [[] ?]. Qed.
Lemma chan_set_pending owed sent s x v :
  chan_ok SftpChannel owed sent s x -> chan_ok SftpChannel owed sent (set_pending v s) x.
Proof. by intros [[] ?]. Qed.

(** A response: the state after the request [pk] was handled and taken off. *)
Lemma response_ready (pk response : list Z) s x :
  sftp_ok s x -> sftp_tx_pending (ss_sftp s) = [] -> Forall is_byte response -> 0 <= zlen pk <= zlen (sftp_rx (ss_sftp s)) ->
  let s1 := set_rx (zdrop (zlen pk) (sftp_rx (ss_sftp s))) s in
  let y := on_chan (fun k => with_streams (zdrop (zlen pk) (kw_in k)) (kw_out k ++ response) k) x in
  chan_ok SftpChannel 0 0 s1 y /\ sftp_ok (set_pending response s1) y.
Proof.
  intros Hk Hp Hb Hl s1 y. pose proof Hk as [Hc [Hi Ho] Hr _ He].
  assert (chan_ok SftpChannel 0 0 s1 y) as Hc1 by (by apply chan_set_rx; eapply chan_seen; [exact Hc|..]).
  split; [done|]. split; [by apply chan_set_pending| |by apply bytes_within_zdrop|done|done].
  split; cbn; [by rewrite Hi|by rewrite Ho, Hp].
Qed.

(** The server answers one request. *)
Lemma sftp_rx_loop_safe fuel s x :
  sftp_ok s x -> sftp_tx_pending (ss_sftp s) = [] -> (length (sftp_rx (ss_sftp s)) <= fuel)%nat ->
  swp (sftp_rx_loop fuel s) (post (fun _ => ready) (sending ready)) x.
Proof.
  revert s x. induction fuel as [|fuel IH]; intros s x Hk Hp Hf; cbn [sftp_rx_loop]; step; step;
    pose proof (sk_rx _ _ _ Hk) as [Hb Hmax];
    (step; [step; split; [done|]; left; split; [done|]; apply incomplete_short; lia|]).
  { exfalso. unfold zlen in *. lia. }
  set (rx := sftp_rx (ss_sftp s)) in *. set (n := read_u32_be_local rx).
  pose proof (sk_chan _ _ _ Hk) as Hc. pose proof (co_flow _ _ _ _ _ _ Hc) as Hfl. cbn [flow_of] in Hfl.
  assert (res_ok s x) as Hres by (by eapply chan_res).
  step. step; [by split|]. destruct (proj2 (frame_length rx Hb ltac:(lia))) as [Hn0 Hn1]. fold n in Hn0, Hn1.
  apply orb_false_iff in H0 as [H1 H2]. apply Z.eqb_neq in H1.
  step; [step; split; [done|]; left; split; [done|]; apply incomplete_frame; fold rx; [done|lia|fold n; lia]|].
  destruct (rx_frame rx n) as [Hfr Hzf]; [done|lia|done|lia|lia|].
  step. step.
  { split_and!; try done; try by apply Forall_take; try apply Hfr.
    - by eapply flow_is.
    - by eapply flow_live.
    - apply Hc.
    - rewrite (proj2 (sk_streams _ _ _ Hk)). done.
    - rewrite Hzf, (proj1 (sk_streams _ _ _ Hk)). done. }
  step. step. cbn [conn_step]. destruct r as [response|e|]; [|split; [by apply res_ok_chan|by destruct H3 as [-> | ->]]|done].
  destruct H3 as [Hrb Hrl]. step. step. step. step.
  set (pk := ztake (n + 4) rx) in *. replace (zdrop (n + 4) rx) with (zdrop (zlen pk) rx) by (by rewrite Hzf).
  destruct (response_ready pk response s x) as [Hc1 Hk1]; [done|done|done|fold rx; lia|].
  cbv zeta in Hc1, Hk1. fold rx in Hc1, Hk1. set (s1 := set_rx _ s) in *. set (y := on_chan _ x) in *. cbn [flow_of].
  step.
  - step. step; [split; [by eapply chan_res|done]|]. step. step.
    eapply post_mono; [apply flush_safe, sftp_responding, Hk1| |].
    + intros _ s' z (_ & _ & _ & Hbl). exfalso. unfold backlog in Hbl. subst s1. cbn in *. lia.
    + intros e s' z [Hr Hq]. split; [done|]. intros He. destruct (Hq He) as (Hrp & Hkp & [Ha1 Ha2]).
      split; [by eapply kept_sftp|]. right. by split; [|left].
  - step. eapply post_mono; [apply (send_response_safe (length response) response (zlen response) s1 y)| |intros; by apply fatal_sending].
    { by rewrite Z.sub_diag. } { subst s1. cbn in *. lia. } { apply Hk1. } { done. } { done. }
    intros _ s2 z (-> & Hc2 & Ho2 & Hi2 & [He2 He3]). cbv beta. step.
    eapply post_mono; [apply (spend_safe server eff SftpChannel (zlen response) s1 z (sending ready)); [exact Hc2|pose proof (zlen_nonneg response); subst s1; cbn in *; lia]| |done].
    intros _ s2 y2 (Hc3 & Hm3 & -> & _). cbv beta. pose proof (mv_state _ _ _ _ _ Hm3) as Es2.
    set (f := flow_of SftpChannel s2) in Es2. clearbody f. subst s2. apply IH; [|done|].
    + split; cbn; [done| | |by rewrite Hp|].
      * split; cbn; [rewrite Hi2; apply Hk1|by rewrite Ho2, Hp].
      * apply Hk1.
      * rewrite He2, He3. apply Hk.
    + cbn. unfold zdrop, zlen in *. rewrite length_drop. lia.
Qed.

Lemma process_sftp_rx_safe s x :
  sftp_ok s x -> swp (process_sftp_rx s) (post (fun _ => ready) (sending ready)) x.
Proof.
  intros Hk. unfold process_sftp_rx. step.
  eapply post_mono; [by apply flush_safe, sftp_responding| |].
  - intros _ s' y (Hr & Hkp & Hp & _). cbv beta. step. step. apply sftp_rx_loop_safe; [by eapply kept_sftp|done|done].
  - intros e s' y [Hr Hq]. split; [done|]. intros He. destruct (Hq He) as (Hrp & Hkp & [Ha1 Ha2]).
    split; [by eapply kept_sftp|]. right. by split; [|left].
Qed.

(** ** A message of the channel *)
Definition seen (m : ssh_channel_message) (data : list Z) : conn_watch -> conn_watch := on_chan (message_seen eff m data).

Lemma sftp_end_safe s x :
  ready s x -> swp ((send_eof_once SftpChannel;; send_close_once SftpChannel) s) (post (fun _ => ready) fatal) x.
Proof.
  intros [Hk Hs]. pose proof Hk as [[Hf Hh] [Hi Ho] Hr Hp He].
  step. eapply post_mono; [apply send_eof_safe; [done|by eapply chan_res|done]| |done].
  intros _ s1 y (Hf1 & Hr1 & [E1 W1 [I1 O1] R1] & He1 & Hc1). cbv beta.
  eapply post_mono; [by apply send_close_safe| |done].
  intros _ s2 z (Hf2 & Hr2 & [E2 W2 [I2 O2] R2] & He2). cbn [flow_of] in *.
  set (f1 := sc_flow (ss_sftp s1)) in E1. clearbody f1. set (f2 := sc_flow (ss_sftp s2)) in E2. clearbody f2. subst.
  cbn in *. split; [split|].
  - split; [done|]. unfold held in *. by rewrite R2, R1.
  - split; cbn; congruence.
  - done.
  - done.
  - congruence.
  - unfold settled in *. cbn. by rewrite W2, W1.
Qed.

Lemma seen_data_safe m data s x :
  ready s x -> (msg_recipient_channel m =? opt_server_channel eff) = true -> message_id m = SSH_MSG_CHANNEL_DATA ->
  Forall is_byte data -> zlen data <= EMSSH_MAX_PACKET_SIZE ->
  swp ((consume_window SftpChannel (zlen data);;
        rx ← io_get (fun s => sftp_rx (ss_sftp s));
        io_reject (zlen data >? EMSSH_SFTP_MAX_PACKET_SIZE - zlen rx) SSH_ERR_BUFFER_TOO_SMALL;;
        io_modify (set_rx (rx ++ data));;
        process_sftp_rx) s) (post (fun _ => ready) (sending ready)) (seen m data x).
Proof.
  intros [Hk _] Hm Hid Hb Hl. pose proof Hk as [Hc [Hi Ho] Hr Hp He]. pose proof (zlen_nonneg data).
  assert (seen m data x = on_chan (fun k => with_streams (kw_in k ++ data) (kw_out k)
    (with_windows (kw_send k) (kw_recv k - zlen data) k)) x) as ->.
  { unfold seen, on_chan, message_seen. by rewrite Hm, Hid. }
  set (y := on_chan _ x).
  assert (chan_ok SftpChannel (zlen data) 0 s y) as Hy
    by (eapply chan_seen; [exact Hc|done|subst y; watch_lia|subst y; watch_lia]).
  step. eapply post_mono; [apply consume_safe; [done|exact Hy|unfold EMSSH_MAX_PACKET_SIZE in *; lia]| |intros; by apply fatal_sending].
  intros _ s1 z [Hc1 [E1 [I1 O1] [X1 X2]]]. cbv beta. cbn [flow_of] in E1. pose proof (chan_res _ _ _ _ _ _ Hc1) as Hr1.
  set (f1 := sc_flow (ss_sftp s1)) in E1. clearbody f1. subst s1.
  step. step. cbn [set_flow set_sftp ss_sftp sftp_rx]. step. step; [by split|]. step. step.
  apply process_sftp_rx_safe. destruct Hr as [Hrb Hrl]. split.
  - by apply chan_set_rx.
  - split; [by rewrite I1; cbn; rewrite Hi|by rewrite O1; cbn].
  - cbn. split; [by apply Forall_app|]. rewrite zlen_app. lia.
  - done.
  - by rewrite X1, X2.
Qed.

Lemma adjust_safe m data s x :
  ready s x -> (msg_recipient_channel m =? opt_server_channel eff) = true ->
  message_id m = SSH_MSG_CHANNEL_WINDOW_ADJUST -> is_u32 (window_bytes m) ->
  swp ((grow_peer_window SftpChannel (window_bytes m);;
        rx ← io_get (fun s => sftp_rx (ss_sftp s));
        if zlen rx =? 0 then mret tt else process_sftp_rx) s)
    (post (fun _ => ready) (sending ready)) (seen m data x).
Proof.
  intros [Hk Hs] Hm Hid Hu. pose proof Hk as [Hc [Hi Ho] Hr Hp He].
  assert (seen m data x = on_chan (fun k => with_windows (kw_send k + window_bytes m) (kw_recv k) k) x) as ->.
  { unfold seen, on_chan, message_seen. by rewrite Hm, Hid. }
  step. eapply post_mono; [apply (grow_safe server eff SftpChannel (window_bytes m) s x (sending ready)); [done|done]| |done].
  intros _ s1 z [Hc1 [E1 [I1 O1] [X1 X2]]]. cbv beta. cbn [flow_of] in E1.
  set (f1 := sc_flow (ss_sftp s1)) in E1. clearbody f1. subst s1.
  assert (sftp_ok (set_flow SftpChannel f1 s) z) as Hk1.
  { cbn in I1, O1, X1, X2. split; [done|split; cbn; congruence|done|done|by rewrite X1, X2]. }
  step. step. cbn [set_flow set_sftp ss_sftp sftp_rx]. step; [|by apply process_sftp_rx_safe].
  step. split; [done|]. apply Z.eqb_eq in H.
  assert (sftp_rx (ss_sftp s) = []) as E by (destruct (sftp_rx (ss_sftp s)); [done|rewrite zlen_cons in H; pose proof (zlen_nonneg l); lia]).
  unfold settled in *. cbn. rewrite E in *. destruct Hs as [[? ?]|[? ?]]; [by left|right; auto].
Qed.

Lemma sftp_channel_message_safe m data s x :
  ready s x -> is_u32 (window_bytes m) -> Forall is_byte data -> zlen data <= EMSSH_MAX_PACKET_SIZE ->
  swp (sftp_channel_message eff m data s) (post (fun _ => ready) (sending ready)) (seen m data x).
Proof.
  intros Hr Hu Hb Hl. pose proof Hr as [Hk Hs]. unfold sftp_channel_message. step. step. cbn [flow_of].
  assert (res_ok s (seen m data x)) as Hres by (apply res_ok_chan; eapply chan_res, Hk).
  pose proof (fo_server _ _ _ _ _ (co_flow _ _ _ _ _ _ (sk_chan _ _ _ Hk))) as Esc. cbn [flow_of] in Esc.
  step. step; [by split|]. rewrite Esc in H. apply negb_false_iff in H.
  step; [by apply adjust_safe; [| |apply Z.eqb_eq|]|].
  destruct (Z.eqb_spec (message_id m) SSH_MSG_CHANNEL_DATA) as [Ed|Ed].
  - rewrite Ed. change (SSH_MSG_CHANNEL_DATA =? _) with false. cbv iota. by apply seen_data_safe.
  - assert (seen m data x = x) as ->.
    { unfold seen, on_chan, message_seen. rewrite H, H0. apply Z.eqb_neq in Ed. rewrite Ed. by destruct x. }
    pose proof (co_flow _ _ _ _ _ _ (sk_chan _ _ _ Hk)) as Hf. cbn [flow_of] in Hf.
    destruct (flow_is _ _ _ _ _ Hf) as [o Ho].
    assert (res_ok s x) as Hx by (eapply chan_res, Hk).
    step; [|step; [|step]].
    + assert (swp ((non_sftp_channel_request_allowed_by_policy eff (channel_request m);; mret tt) s)
        (post (fun _ => ready) (sending ready)) x) as Hpol.
      { step. eapply post_mono; [by eapply policy_safe|intros st ? ? [-> ->]; by step|done]. }
      step. step; [|exact Hpol]. step; [by eapply flow_peer|exact Hpol|by split].
    + eapply post_mono; [by apply sftp_end_safe|done|intros; by apply fatal_sending].
    + step. eapply post_mono; [apply send_close_safe; [exact Hf|done]| |intros; by apply fatal_sending].
      intros _ s1 z (_ & ? & _). cbv beta. step. by split.
    + destruct (Z.eqb_spec (message_id m) SSH_MSG_CHANNEL_DATA); [done|]. step. by split.
Qed.

(** ** [ssh_server_process_sftp_channel_data] *)
Lemma process_sftp_safe s x :
  ready s x ->
  swp (ssh_server_process_sftp_channel_data (Some eff) s) (post (fun _ => ready) (sending ready)) x.
Proof.
  intros Hr. pose proof Hr as [Hk Hs]. unfold ssh_server_process_sftp_channel_data.
  pose proof (sk_chan _ _ _ Hk) as Hc. pose proof (co_flow _ _ _ _ _ _ Hc) as Hf. cbn [flow_of] in Hf.
  assert (res_ok s x) as Hx by (by eapply chan_res).
  step. step. step. step; [by split|]. rewrite (oo_effective _ Heff). step. step.
  - split_and!; [by eapply flow_is|by eapply flow_live|by eapply ready_caught_up|done].
  - cbv iota. destruct v as [m data]. cbn in H0. destruct H0 as (? & ? & ?). by apply sftp_channel_message_safe.
  - cbn [must_succeed]. cbv iota. step. step; [by split; [|intros ->]|].
    step; [by apply process_sftp_rx_safe|]. step; step; by split.
Qed.
End sftp_channel.
