(* ===== verification/ServerTerminal.v ===== *)
(** * The messages of a terminal channel

    For the functions of Server.v that accept a terminal channel and for those
    behind [ssh_server_process_terminal_channel_data]: they keep to the
    specification of ServerSafe.v and to the invariant [terminal_ok]. *)

From S2P Require Import Prelude Interaction Buffer Platform Packet Codec Service Kex UserPolicy.
From S2P Require Import Userauth Connection Ident TransportState Transport TransportSession.
From S2P Require Import Sftp SftpPath SftpServer ServerState Server ServerSafe ServerFlow.

Section terminal_channel.
Context (server : ssh_server) (eff : ssh_server_session_options) (Heff : options_ok eff).
Implicit Types (s : server_state) (x y : conn_watch).

Abbreviation swp := (wp (conn_step eff) (conn_permits server eff) sreply_good).
Abbreviation flow_ok := (flow_ok eff).
Abbreviation chan_ok := (chan_ok eff).
Abbreviation terminal_ok := (terminal_ok eff).
Abbreviation res_ok := (res_ok TerminalChannel).
Abbreviation fatal := (fatal TerminalChannel).
Abbreviation sending := (sending TerminalChannel).
Abbreviation released := (released TerminalChannel).
Abbreviation fresh := (fresh TerminalChannel).

Lemma view_to_cstring_no_fault v n : view_to_cstring v n <> Fault.
Proof. unfold view_to_cstring. case_bool; [done|]. destruct (view_data v); [|done]. by case_bool. Qed.

(** ** Accepting the channel

    The channel is open and no program was started. *)
Record unstarted s x : Prop := {
  us_user : logged_as s x;
  us_chan : terminal_ok s x;
  us_ends : kw_eof (cw_chan x) = false /\ kw_close (cw_chan x) = false;
  us_exit : tc_exit_status_sent (ss_term s) = false /\ rw_exit_sent (cw_res x) = false;
  us_term : tc_running (ss_term s) = false /\ tc_handle (ss_term s) = 0 /\ rw_term (cw_res x) = None
}.

Lemma unstarted_flow s x : unstarted s x -> flow_ok 0 0 (tc_flow (ss_term s)) x.
Proof. intros [_ [[Hf _] _] _ _ _]. exact Hf. Qed.
Lemma unstarted_peer s x : unstarted s x -> to_peer x (client_channel (tc_flow (ss_term s))).
Proof. intros H. by eapply flow_peer, unstarted_flow. Qed.
Lemma unstarted_is s x : unstarted s x -> exists o, channel_is x o.
Proof. intros H. by eapply flow_is, unstarted_flow. Qed.
Lemma unstarted_res s x : unstarted s x -> res_ok s x.
Proof. intros [_ [Hc _] _ _ _]. by eapply chan_res. Qed.

Lemma opened_unstarted o s x :
  accepting eff o s x -> fresh s ->
  unstarted (on_term (fun c => set_running (tc_running c) TERMINAL_STATE_SESSION_OPEN c)
    (on_flow TerminalChannel (open_flow eff o) s)) x.
Proof.
  intros Ha Ht. cbn in Ht. pose proof (open_flow_ok eff Heff o s x Ha) as Hf.
  destruct Ha as [? ? ? ? ? ? ? Hst ? Hw]. split; cbn; rewrite ?Ht, ?Hw; try done.
  split; [split; [|split_and!]|done]; cbn; rewrite ?Ht, ?Hw; try done.
Qed.

(** Changes of the other fields of the channel. *)
Lemma unstarted_update f s x :
  unstarted s x ->
  tc_flow (f (ss_term s)) = tc_flow (ss_term s) -> tc_running (f (ss_term s)) = tc_running (ss_term s) ->
  tc_exit_status_sent (f (ss_term s)) = tc_exit_status_sent (ss_term s) ->
  tc_handle (f (ss_term s)) = tc_handle (ss_term s) -> unstarted (on_term f s) x.
Proof.
  intros [? [[Hf Hh] Hst] ? ? ?] E1 E2 E3 E4. split; cbn; rewrite ?E1, ?E2, ?E3, ?E4; try done.
  split; [split; [|unfold held in *]|done]; cbn; rewrite ?E1, ?E2, ?E3, ?E4; done.
Qed.

(** The program runs, or runs without a handle. *)
Lemma started_ok h s x st :
  unstarted s x ->
  terminal_ok (on_term (set_running true st) (on_term (set_handle h) s)) 
    (on_res (with_term (if h =? 0 then None else Some h)) x).
Proof.
  intros [_ [[Hf (Hh1 & _)] Hst] [? ?] [? ?] [? [? ?]]]. split; [split; [|split_and!]|done]; cbn; try done.
  - by apply flow_ok_res.
  - destruct (Z.eqb_spec h 0); done.
  - intros h'. destruct (Z.eqb_spec h 0); [done|]. by intros [= <-].
Qed.

Lemma spawn_permitted s x : unstarted s x -> spawn_permits x (spawn_args_of s).
Proof.
  intros H. split; [by apply (unstarted_is s)|]. pose proof (us_term _ _ H) as (_ & _ & Ht). split; [done|].
  exists (ss_username s). split; [apply (us_user _ _ H)|]. cbn. destruct (ss_username s) as [|b l]; [done|].
  rewrite zlen_cons. pose proof (zlen_nonneg l). by case_bool; [lia|].
Qed.

Lemma start_program_safe request s x :
  unstarted s x ->
  swp (start_program server request s)
    (post (fun r s' y => s' = s /\ match r with
       | None => y = x
       | Some (st, h) => y = started (st, h) x /\ (status_bad st = true -> h = 0)
       end) (fun _ _ _ => False)) x.
Proof.
  intros Hu. pose proof (spawn_permitted _ _ Hu) as Hsp. unfold start_program. step. step. step.
  - step; [by step|]. step. step; [done|]. step. destruct r as [st h]. by split_and!.
  - step; [by step|]. step. step. pose proof (view_to_cstring_no_fault (rq_command request) 256).
    destruct (view_to_cstring _ _) as [c|e|]; cbv iota; [| |done].
    + step. step; [done|]. step. destruct r as [st h]. by split_and!.
    + by step.
Qed.

Lemma start_terminal_safe request s x :
  unstarted s x ->
  swp (start_terminal server request s)
    (post (fun r s' y => match r with None => unstarted s' y | Some _ => terminal_ok s' y end) (sending terminal_ok)) x.
Proof.
  intros Hu. unfold start_terminal. step. step. step.
  { step. eapply post_mono; [apply reply_failure_safe; by apply unstarted_peer|intros ? ? ? [-> ->]; by step|done]. }
  step. eapply post_mono; [by apply start_program_safe| |done]. intros [[st h]|] s' y [-> Hy]; cbv beta iota.
  - destruct Hy as [-> Hh]. step. step. unfold started. cbn [fst snd]. destruct (status_bad st) eqn:Eb.
    + rewrite Hh by done. assert (unstarted (on_term (set_handle 0) s) x) as Hu'.
      { apply unstarted_update; try done. cbn. by destruct (us_term _ _ Hu) as (_ & -> & _). }
      step. eapply post_mono; [apply reply_failure_safe; by apply unstarted_peer in Hu'|intros ? ? ? [-> ->]; by step|done].
    + step. step. step. assert (terminal_ok (on_term (set_running true TERMINAL_STATE_RUNNING) (on_term (set_handle h) s))
        (on_res (with_term (if h =? 0 then None else Some h)) x)) as Hok by (by apply started_ok).
      pose proof Hok as [[Hf _] _]. cbn [flow_of] in Hf.
      eapply post_mono; [apply (reply_success_safe server eff _ _ _ _ (sending terminal_ok)); [by eapply flow_peer in Hf|]| |done].
      * intros e. split; [destruct Hok; by eapply chan_res|done].
      * intros ? ? ? [-> ->]. by step.
  - subst. step. eapply post_mono; [apply reply_failure_safe; by apply unstarted_peer|intros ? ? ? [-> ->]; by step|done].
Qed.

(** Answers to the requests that do not start a program. *)
Lemma unstarted_reply (b : bool) request s x :
  unstarted s x -> let client := client_channel (tc_flow (ss_term s)) in
  swp (((if b then reply_failure client request else reply_success client request);; mret None) s)
    (post (fun (r : option unit) s' y => match r with None => unstarted s' y | Some _ => terminal_ok s' y end) released) x.
Proof.
  intros Hu client. pose proof (unstarted_peer _ _ Hu) as Hp. step. destruct b.
  - eapply post_mono; [by apply reply_failure_safe|intros ? ? ? [-> ->]; by step|done].
  - eapply post_mono; [apply (reply_success_safe server eff _ _ _ _ released); [done|]|intros ? ? ? [-> ->]; by step|done].
    intros e. by apply unstarted_res.
Qed.

Lemma unstarted_refuse request s x :
  unstarted s x ->
  swp ((refuse_request eff (client_channel (tc_flow (ss_term s))) request;; mret None) s)
    (post (fun (r : option unit) s' y => match r with None => unstarted s' y | Some _ => terminal_ok s' y end) released) x.
Proof.
  intros Hu. step. eapply post_mono; [by apply refuse_safe, unstarted_peer|intros ? ? ? [-> ->]; by step|done].
Qed.

(** Before a program runs the platform is not called. *)
Lemma unstarted_not_ready entry s x : unstarted s x -> term_ready server entry (ss_term s) = false.
Proof. intros Hu. unfold term_ready. by destruct (us_term _ _ Hu) as (-> & _). Qed.

Lemma store_size_safe request s x (E : ssh_status -> server_state -> conn_watch -> Prop) :
  unstarted s x ->
  swp (store_size request s) (post (fun _ s' y => unstarted s' y /\ tc_flow (ss_term s') = tc_flow (ss_term s)) E) x.
Proof. intros Hu. unfold store_size. step. split; [by apply unstarted_update|done]. Qed.

Lemma terminal_accept_request_safe status request s x :
  unstarted s x ->
  swp (terminal_accept_request server eff status request s)
    (post (fun r s' y => match r with None => unstarted s' y | Some _ => terminal_ok s' y end) released) x.
Proof.
  intros Hu. pose proof (unstarted_res _ _ Hu) as Hres. unfold terminal_accept_request. step. step. cbn [flow_of].
  step. step; [done|]. step; [by apply unstarted_refuse|].
  step; [|step; [|step; [|step; [|step; [|by apply unstarted_refuse]]]]].
  - step. step. pose proof (view_to_cstring_no_fault (rq_term_type request) 64).
    destruct (view_to_cstring _ _) as [name|e|]; [|done|done]. step. step.
    step. eapply post_mono; [apply (store_size_safe request _ _ released), unstarted_update; done| |done].
    intros _ s' y [Hu' Ef]. cbv beta. cbn in Ef. rewrite <- Ef. by apply (unstarted_reply false).
  - by apply (unstarted_reply false).
  - step. eapply post_mono; [by apply (store_size_safe request _ _ released)| |done].
    intros _ s' y [Hu' Ef]. cbv beta. rewrite <- Ef. unfold maybe_resize. step. step. step.
    step; [by rewrite (unstarted_not_ready _ _ _ Hu') in *|]. step. by apply (unstarted_reply _).
  - step. step. step. step; [by rewrite (unstarted_not_ready _ _ _ Hu) in *|]. step. by apply (unstarted_reply _).
  - eapply post_mono; [by apply start_terminal_safe|done|by intros e s' y []].
Qed.

Lemma terminal_accept_safe o first s x :
  accepting eff o s x -> fresh s ->
  swp (terminal_accept_after_open server (Some eff) o first s) (post (fun _ => terminal_ok) released) x.
Proof.
  intros Ha Hf. unfold terminal_accept_after_open. rewrite (oo_effective _ Heff).
  step. step; [by apply fresh_res, (ac_res eff o s x Ha)|]. step. step. step. step.
  apply (request_loop_safe server eff unstarted); [| | |by apply opened_unstarted].
  - intros s' y. apply unstarted_is.
  - intros e s' y. apply unstarted_res.
  - intros st q s' y Hu. eapply post_mono; [by apply terminal_accept_request_safe|by intros [|]|done].
Qed.

(** ** Output of the program *)
Lemma terminal_is s x : terminal_ok s x -> exists o, channel_is x o.
Proof. intros [[Hf _] _]. by eapply flow_is. Qed.
Lemma terminal_res s x : terminal_ok s x -> res_ok s x.
Proof. intros [Hc _]. by eapply chan_res. Qed.
Lemma terminal_live s x : terminal_ok s x -> live x.
Proof. intros [[Hf _] _]. by eapply flow_live. Qed.

Lemma ready_terminal entry s x :
  terminal_ok s x -> term_ready server entry (ss_term s) = true ->
  tc_running (ss_term s) = true /\ on_terminal x (tc_handle (ss_term s)).
Proof.
  intros Hk Hr. unfold term_ready in Hr. apply andb_true_iff in Hr as [Hr Hn].
  apply andb_true_iff in Hr as [Hr _]. split; [done|]. split; [by eapply terminal_is|].
  destruct Hk as [[_ (_ & Eh & _)] _]. apply negb_true_iff, Z.eqb_neq in Hn.
  rewrite Eh in *. by destruct (rw_term (cw_res x)).
Qed.

Lemma moved_handle s x s' y :
  moved TerminalChannel s x s' y -> tc_handle (ss_term s') = tc_handle (ss_term s) /\
    tc_running (ss_term s') = tc_running (ss_term s).
Proof. by intros [-> _ _]. Qed.

Lemma pump_loop_safe fuel s x :
  terminal_ok s x -> tc_handle (ss_term s) <> 0 -> (Z.to_nat (peer_window_size (tc_flow (ss_term s))) <= fuel)%nat ->
  swp (pump_loop fuel (tc_handle (ss_term s)) s)
    (post (fun _ s' y => terminal_ok s' y /\ moved TerminalChannel s x s' y) (sending terminal_ok)) x.
Proof.
  revert s x. induction fuel as [|fuel IH]; intros s x Hk Hh Hf; cbn [pump_loop]; step; step; cbn [flow_of];
    pose proof Hk as [Hc [Hin Hout]]; pose proof (co_flow _ _ _ _ _ _ Hc) as Hfl; cbn [flow_of] in Hfl;
    destruct (fo_peer _ _ _ _ _ Hfl) as [Hu _]; unfold is_u32 in Hu;
    (step; [step; by split; [|apply windows_moved_refl]|]); [exfalso; lia|].
  destruct (fo_open _ _ _ _ _ Hfl) as (o & _ & _ & Hmo & Hmu). unfold is_u32 in Hmu.
  set (flow := tc_flow (ss_term s)) in *. set (n1 := if negb _ then _ else _). set (n := min_u32_local n1 2048).
  assert (0 < n1 <= peer_window_size flow /\ (peer_max_packet_size flow <> 0 -> n1 <= peer_max_packet_size flow)) as [N1 N2].
  { subst n1. unfold min_u32_local. destruct (Z.eqb_spec (peer_max_packet_size flow) 0); cbn [negb]; [lia|case_bool; lia]. }
  assert (0 < n <= n1) as N3 by (subst n; unfold min_u32_local; case_bool; lia).
  clearbody n n1. step; [lia|]. step. step.
  { split_and!; [|by eapply terminal_live|done|by eapply flow_fits; [exact Hfl|lia..]].
    split; [by eapply terminal_is|]. destruct Hc as [_ (_ & Eh & _)]. rewrite Eh in *. by destruct (rw_term (cw_res x)). }
  destruct r as [st d]. destruct H1 as [Hdb Hdl]. cbn [fst snd] in *. cbn [conn_step fst snd].
  step; [step|].
  { assert (status_bad st = true) as -> by (apply orb_true_iff in H1 as [H1|H1]; apply bool_decide_eq_true in H1; by subst).
    by split; [|apply windows_moved_refl]. }
  step. step; rewrite H2; [split; [by eapply terminal_res|done]|].
  set (y := on_chan _ x).
  assert (chan_ok TerminalChannel 0 0 s y) as Hy by (by eapply chan_seen; [exact Hc|..]).
  step; [step|].
  { apply Z.eqb_eq in H3. destruct d as [|b d]; [|rewrite zlen_cons in H3; pose proof (zlen_nonneg d); lia].
    assert (y = x) as ->. { subst y. unfold on_chan. rewrite app_nil_r. by destruct x as [? [] ?]. }
    by split; [|apply windows_moved_refl]. }
  pose proof (zlen_nonneg d). step.
  eapply post_mono; [apply (send_data_safe server eff TerminalChannel 0 d s y Hy); cbn [flow_of]; fold flow; [done|lia|lia|lia|]
    | |intros; by apply fatal_sending].
  { subst y. cbn. rewrite Hout. cbn. unfold ztake, zlen. by rewrite Nat2Z.id, firstn_all. }
  intros _ s1 z (-> & Hz & [Hzi Hzo] & He). cbv beta. step. step; [lia|]. step.
  eapply post_mono; [apply (spend_safe server eff TerminalChannel (zlen d) s z (sending terminal_ok));
    [exact Hz|cbn [flow_of]; fold flow; lia]| |done].
  intros _ s2 z2 (Hc2 & Hm2 & -> & Hw2). cbv beta. cbn [flow_of] in Hw2. fold flow in Hw2.
  destruct (moved_handle _ _ _ _ Hm2) as [Eh2 _]. rewrite <- Eh2.
  assert (kw_in (cw_chan z) = [] /\ kw_out (cw_chan z) = []) as [Zi Zo].
  { rewrite Hzi, Hzo. subst y. cbn. rewrite Hin, Hout. split; [done|]. cbn. unfold zdrop, zlen.
    by rewrite Nat2Z.id, skipn_all. }
  eapply post_mono; [apply IH| |done].
  - split; [done|]. by split.
  - by rewrite Eh2.
  - rewrite Hw2. lia.
  - intros _ s3 z3 [Hk3 Hm3]. split; [done|]. eapply windows_moved_trans; [|exact Hm3].
    destruct Hm2 as [E2 _ _]. split; [done|by rewrite Zi, Zo|].
    destruct He as [-> ->]. done.
Qed.

Lemma pump_safe s x :
  terminal_ok s x ->
  swp (maybe_pump_terminal_output server s)
    (post (fun _ s' y => terminal_ok s' y /\ moved TerminalChannel s x s' y) (sending terminal_ok)) x.
Proof.
  intros Hk. unfold maybe_pump_terminal_output. step. step. step; [step; by split; [|apply windows_moved_refl]|].
  apply pump_loop_safe; [done| |done]. apply negb_false_iff in H. unfold term_ready in H.
  apply andb_true_iff in H as [_ H]. by apply negb_true_iff, Z.eqb_neq in H.
Qed.

(** ** The end of the program *)
Lemma exit_and_close_safe s x :
  terminal_ok s x ->
  swp (maybe_send_terminal_exit_and_close server s) (post (fun _ => terminal_ok) (sending terminal_ok)) x.
Proof.
  intros Hk. unfold maybe_send_terminal_exit_and_close. step. step. step; [by step|].
  apply negb_false_iff in H. destruct (ready_terminal _ _ _ Hk H) as [Hrun Hon].
  pose proof Hk as [[Hf (H1 & H3 & H4 & H5)] Hst]. cbn [flow_of] in Hf.
  destruct (H5 Hrun) as (Hx1 & Hx2 & He & Hc).
  step. step; [done|]. destruct r as [[st ex] xs]. cbn [conn_step fst snd]. step. step; rewrite H2.
  { split; [by eapply terminal_res|done]. }
  cbn [orb]. step; rewrite H6; [by step|]. rewrite Hx1. cbn [negb when orb].
  set (y := on_res _ x).
  assert (res_ok s y) as Hy by (by destruct (terminal_res _ _ Hk)). assert (flow_ok 0 0 (tc_flow (ss_term s)) y) as Hfy by (by apply flow_ok_res).
  step. step. step; [| |by apply fatal_sending, fatal_broken].
  { split_and!; [by eapply flow_peer|by eapply flow_live|done..]. }
  step. cbn [done_step]. set (z := on_res _ y). set (s1 := on_term set_exit_status_sent s).
  step. eapply post_mono; [apply (send_eof_safe server eff TerminalChannel s1 z)| |intros; by apply fatal_sending].
  { cbn [flow_of]. by apply flow_ok_res. } { by destruct Hy. } { intros Hz. cbn in Hz. congruence. }
  intros _ s2 z2 (Hf2 & Hr2 & [E2 W2 [I2 O2] R2] & He2 & Hc2). cbv beta.
  step. eapply post_mono; [by apply send_close_safe| |intros; by apply fatal_sending].
  intros _ s3 z3 (Hf3 & Hr3 & [E3 W3 [I3 O3] R3] & He3). cbv beta. step. step. step.
  set (f2 := flow_of TerminalChannel s2) in E2. clearbody f2. set (f3 := flow_of TerminalChannel s3) in E3. clearbody f3. subst s3 s2.
  split; [split; [exact Hf3|]|].
  - unfold held. rewrite R3, R2. by split_and!.
  - destruct Hst as [Si So]. by split; rewrite ?I3, ?O3, ?I2, ?O2.
Qed.

Lemma pump_and_close_safe s x :
  terminal_ok s x -> swp (pump_and_close server s) (post (fun _ => terminal_ok) (sending terminal_ok)) x.
Proof.
  intros Hk. unfold pump_and_close. step. eapply post_mono; [by apply pump_safe| |done].
  intros _ s' y [Hk' _]. by apply exit_and_close_safe.
Qed.

Lemma pump_then_safe st s x :
  terminal_ok s x -> swp (pump_then server st s) (post (fun _ => terminal_ok) (sending terminal_ok)) x.
Proof.
  intros Hk. unfold pump_then. step. eapply post_mono; [by apply pump_and_close_safe| |done].
  intros b s' y Hk'. cbv beta. step; [|done]. split; [by eapply terminal_res|done].
Qed.

(** ** A message of the channel *)
Lemma terminal_peer s x : terminal_ok s x -> to_peer x (client_channel (tc_flow (ss_term s))).
Proof. intros [[Hf _] _]. by eapply flow_peer. Qed.
Lemma stopped e s x : terminal_ok s x -> sending terminal_ok e s x.
Proof. intros Hk. by split; [eapply terminal_res|]. Qed.
Lemma terminal_set_size c r w h s x : terminal_ok s x -> terminal_ok (on_term (set_size c r w h) s) x.
Proof. intros [[Hf Hh] Hs]. by split; [split|]. Qed.

(** The reply to a request that has come while the program runs. *)
Lemma request_reply_safe client request st s x :
  terminal_ok s x -> client = client_channel (tc_flow (ss_term s)) ->
  swp ((when (rq_want_reply request)
      (if status_bad st then transport (OpSendChannelFailure client)
       else transport (OpSendChannelSuccess client));;
      if status_bad st then mret tt else pump_then server SSH_OK) s)
    (post (fun _ => terminal_ok) (sending terminal_ok)) x.
Proof.
  intros Hk ->. pose proof (terminal_peer _ _ Hk) as Hp. step.
  assert (swp ((if status_bad st then mret tt else pump_then server SSH_OK) s)
    (post (fun _ => terminal_ok) (sending terminal_ok)) x) as Hrest by (step; [by step|by apply pump_then_safe]).
  step; [|exact Hrest]. by step; (step; [|exact Hrest|by apply stopped]).
Qed.

Lemma terminal_channel_request_safe request s x :
  terminal_ok s x ->
  swp (terminal_channel_request server request s) (post (fun _ => terminal_ok) (sending terminal_ok)) x.
Proof.
  intros Hk. unfold terminal_channel_request. step. step. step.
  step; [|step; [|step; step; by apply request_reply_safe]].
  - step. unfold store_size. step. unfold maybe_resize. step. step.
    set (s1 := on_term _ s). assert (terminal_ok s1 x) as Hk1 by (by apply terminal_set_size).
    step; [|step; by apply request_reply_safe]. step; [by eapply ready_terminal|by apply request_reply_safe].
  - step; [|step; by apply request_reply_safe].
    step. step. pose proof (view_to_cstring_no_fault (rq_signal_name request) 64).
    destruct (view_to_cstring _ _) as [name|e|]; cbv iota; [| |done].
    + step; [by eapply ready_terminal|by apply request_reply_safe].
    + step. by apply request_reply_safe.
Qed.

Lemma terminal_channel_data_safe data s x y :
  terminal_ok s x -> Forall is_byte data -> zlen data <= EMSSH_MAX_PACKET_SIZE ->
  y = on_chan (fun k => with_streams (kw_in k ++ data) (kw_out k)
        (with_windows (kw_send k) (kw_recv k - zlen data) k)) x ->
  swp (terminal_channel_data server data s) (post (fun _ => terminal_ok) (sending terminal_ok)) y.
Proof.
  intros [Hc [Hi Ho]] Hb Hl Ey. pose proof (zlen_nonneg data). unfold terminal_channel_data.
  assert (chan_ok TerminalChannel (zlen data) 0 s y) as Hy
    by (subst y; eapply chan_seen; [exact Hc|done|watch_lia|watch_lia]).
  step. eapply post_mono; [apply consume_safe; [done|exact Hy|unfold EMSSH_MAX_PACKET_SIZE in *; lia]| |intros; by apply fatal_sending].
  intros _ s1 z [Hc1 [E1 [I1 O1] [X1 X2]]]. cbv beta. subst y. cbn in I1, O1. rewrite Hi in I1. rewrite Ho in O1.
  set (z' := on_chan (fun k => with_streams [] (kw_out k) k) z).
  assert (terminal_ok s1 z') as Hk1 by (split; [by eapply chan_seen; [exact Hc1|..]|by split]).
  step. step. step. step; [by apply fatal_sending; split; [eapply chan_res|]|]. apply negb_false_iff in H0.
  step. step.
  { split_and!; [|by eapply flow_live, co_flow|done]. by apply (ready_terminal term_write s1 z') in H0 as [_ ?]. }
  destruct r as [st n]. cbn [conn_step]. fold z'. step. step; [by apply stopped|]. step. step; [by apply stopped|].
  by apply pump_then_safe.
Qed.

Lemma terminal_channel_message_safe m data s x :
  terminal_ok s x -> is_u32 (window_bytes m) -> Forall is_byte data -> zlen data <= EMSSH_MAX_PACKET_SIZE ->
  swp (terminal_channel_message server m data s) (post (fun _ => terminal_ok) (sending terminal_ok))
    (on_chan (message_seen eff m data) x).
Proof.
  intros Hk Hu Hb Hl. pose proof Hk as [Hc [Hi Ho]]. unfold terminal_channel_message. step. step. cbn [flow_of].
  set (y := on_chan _ x). assert (res_ok s y) as Hres by (apply res_ok_chan; by eapply chan_res).
  pose proof (fo_server _ _ _ _ _ (co_flow _ _ _ _ _ _ Hc)) as Esc. cbn [flow_of] in Esc.
  step. step; [by split|]. rewrite Esc in H. apply negb_false_iff in H.
  step.
  { apply Z.eqb_eq in H0. assert (y = on_chan (fun k => with_windows (kw_send k + window_bytes m) (kw_recv k) k) x) as ->.
    { subst y. unfold on_chan, message_seen. by rewrite H, H0. }
    step. eapply post_mono; [apply (grow_safe server eff TerminalChannel (window_bytes m) s x (sending terminal_ok)); done| |done].
    intros _ s1 z [Hc1 [E1 [I1 O1] _]]. apply pump_then_safe. split; [done|]. cbn in I1, O1. split; congruence. }
  destruct (Z.eqb_spec (message_id m) SSH_MSG_CHANNEL_DATA) as [Ed|Ed].
  - rewrite Ed. change (SSH_MSG_CHANNEL_DATA =? SSH_MSG_CHANNEL_REQUEST) with false.
    change (SSH_MSG_CHANNEL_DATA =? SSH_MSG_CHANNEL_EOF) with false.
    change (SSH_MSG_CHANNEL_DATA =? SSH_MSG_CHANNEL_CLOSE) with false. cbn [negb].
    apply (terminal_channel_data_safe data s x); [done..|]. subst y. unfold on_chan, message_seen. by rewrite H, Ed.
  - assert (y = x) as ->.
    { subst y. unfold on_chan, message_seen. rewrite H, H0. apply Z.eqb_neq in Ed. rewrite Ed. by destruct x. }
    step; [by apply terminal_channel_request_safe|]. step; [by apply pump_then_safe|]. step; [|by step; [step; split|]].
    step. eapply post_mono; [apply send_close_safe; [apply Hc|done]| |intros; by apply fatal_sending].
    intros _ s1 z (_ & Hr1 & _). cbv beta. step. step. step. split; [|done]. by destruct Hr1.
Qed.

(** ** [ssh_server_process_terminal_channel_data] *)
Lemma terminal_caught_up s x : terminal_ok s x -> caught_up x.
Proof. intros [_ [Hi Ho]]. split; rewrite Hi, Ho; [intros _; by apply incomplete_short|done]. Qed.

Lemma process_terminal_safe s x :
  terminal_ok s x ->
  swp (ssh_server_process_terminal_channel_data server s) (post (fun _ => terminal_ok) (sending terminal_ok)) x.
Proof.
  intros Hk. unfold ssh_server_process_terminal_channel_data. step. step. step.
  step; [split; [by eapply terminal_res|done]|].
  step. eapply post_mono; [by apply pump_and_close_safe| |done]. intros closed s1 y Hk1. cbv beta in Hk1 |- *.
  step; [step; split; [by eapply terminal_res|done]|]. step. step.
  - split_and!; [by eapply terminal_is|by eapply terminal_live|by eapply terminal_caught_up|done].
  - cbv iota. destruct v as [m data]. cbn in H1. destruct H1 as (? & ? & ?). by apply terminal_channel_message_safe.
  - cbn [must_succeed]. cbv iota. step; [by apply pump_then_safe|]. step. by apply stopped.
Qed.
End terminal_channel.
