(* ===== verification/ServerRun.v ===== *)
(** * Whole sessions of the server

    The three functions of ssh_server.c that run a connection from its first byte
    keep to the specification of ServerSafe.v, and what the session of the channel
    holds was released when they return. *)

From S2P Require Import Prelude Interaction Buffer Platform Packet Codec Service Kex UserPolicy.
From S2P Require Import Userauth Connection Ident TransportState Transport TransportSession.
From S2P Require Import Sftp SftpPath SftpServer ServerState Server ServerSafe ServerFlow ServerSftp ServerTerminal.

Lemma effective_idempotent options :
  effective_session_options (Some (effective_session_options options)) = effective_session_options options.
Proof.
  destruct options as [[alg t sc w m mp rp rb pol npol name trace]|]; [|done].
  cbn. repeat case_bool; destruct alg, name; try done; congruence.
Qed.

(** The fields are unsigned integers of the widths they have in the source. *)
Record options_in_range (o : ssh_server_session_options) : Prop := {
  or_window : is_u32 (opt_channel_window_size o);
  or_packets : is_u64 (opt_rekey_after_packets o);
  or_bytes : is_u64 (opt_rekey_after_bytes o)
}.
Definition options_fit (options : option ssh_server_session_options) : Prop :=
  match options with Some o => options_in_range o | None => True end.

Lemma effective_fit options : options_fit options -> options_in_range (effective_session_options options).
Proof.
  destruct options as [[alg t sc w m mp rp rb pol npol name trace]|]; [|done].
  intros [Hw Hp Hb]. cbn in *. split; cbn; try done. by case_bool.
Qed.
Lemma effective_ok options : options_fit options -> options_ok (effective_session_options options).
Proof.
  intros Hf. split; [by apply effective_idempotent|]. pose proof (or_window _ (effective_fit _ Hf)) as Hw.
  unfold is_u32 in Hw. destruct options as [o|]; cbn in *; [|done]. case_bool; [done|lia].
Qed.

Section run.
Context (server : ssh_server) (options : option ssh_server_session_options) (Hfit : options_fit options).
Implicit Types (s : server_state) (x y : conn_watch).

Abbreviation eff := (effective_session_options options).
Abbreviation swp := (wp (conn_step eff) (conn_permits server eff) sreply_good).

(** What a session has to release: the SFTP session, and the program when the
    platform can close it. *)
Definition clean x : Prop :=
  rw_sftp (cw_res x) = false /\ (term_has server term_close = true -> rw_term (cw_res x) = None).
Definition cleaned {A} : A -> server_state -> conn_watch -> Prop := fun _ _ x => clean x.

(** While the session runs, what it has not passed on and not sent is what the state of
    its SFTP channel holds; a program is handed and sends everything at once. *)
Definition running s x : Prop := streams [] [] x \/ ready eff s x.

(** What the three functions return with: nothing left to release, or still running. *)
Definition served : option unit -> server_state -> conn_watch -> Prop :=
  fun a s y => match a with Some _ => clean y | None => running s y end.

Lemma idle_running s x : idle x -> running s x.
Proof. intros [Hc _]. left. unfold streams. by rewrite Hc. Qed.

Lemma clean_start x : cw_res x = cw_res conn_start -> clean x.
Proof. intros Hw. unfold clean. by rewrite Hw. Qed.

Lemma sftp_deinit_safe s x :
  res_ok SftpChannel s x ->
  swp (ssh_server_sftp_channel_deinit s) (post (fun _ _ y => clean y) (fun _ _ _ => False)) x.
Proof.
  intros [Hs Ht]. unfold ssh_server_sftp_channel_deinit. step. step. step.
  - step. step; [cbn; congruence|]. step. split; [done|]. cbn. by rewrite Ht.
  - split; [congruence|]. by rewrite Ht.
Qed.

Lemma terminal_deinit_safe s x :
  res_ok TerminalChannel s x ->
  swp (ssh_server_terminal_channel_deinit server s) (post (fun _ _ y => clean y) (fun _ _ _ => False)) x.
Proof.
  intros (Hs & Hh & Hi). unfold ssh_server_terminal_channel_deinit. step. step. step.
  - step. step.
    + apply andb_true_iff in H0 as [H0 _]. apply negb_true_iff, Z.eqb_neq in H0.
      step. step. { cbn. rewrite Hh in *. by destruct (rw_term (cw_res x)). }
      step. unfold clear_term. step. by split.
    + unfold clear_term. step. split; [done|]. intros Hc. rewrite Hc, andb_true_r in H0.
      apply negb_false_iff, Z.eqb_eq in H0. destruct (rw_term (cw_res x)) as [h|] eqn:E; [|done].
      destruct (Hi h eq_refl). cbn in Hh. congruence.
  - split; [done|]. intros _. destruct (rw_term (cw_res x)) as [h|]; [|done].
    destruct (Hi h eq_refl). congruence.
Qed.

Lemma diag_safe s x :
  swp (update_server_diag_from_transport s)
    (post (fun _ s' y => y = x /\ same_channels s s') (fun _ _ _ => False)) x.
Proof. unfold update_server_diag_from_transport. step. step; [done|]. by step. Qed.

Lemma same_channels_trans s1 s2 s3 : same_channels s1 s2 -> same_channels s2 s3 -> same_channels s1 s3.
Proof. intros [? ?] [? ?]. split; congruence. Qed.
Lemma same_res r s s' x : res_ok r s x -> same_channels s s' -> res_ok r s' x.
Proof. intros Hr [E1 E2]. destruct r; cbn in *; by rewrite ?E1, ?E2. Qed.
Lemma same_fresh r s s' : fresh r s -> same_channels s s' -> fresh r s'.
Proof. intros Hr [E1 E2]. destruct r; cbn in *; congruence. Qed.

(** ** The message loop *)
Section serve.
Context (r : channel_ref) (I : server_state -> conn_watch -> Prop) (process deinit : SvM unit).
Hypothesis Hres : forall s x, I s x -> res_ok r s x.
Hypothesis Hrunning : forall s x, I s x -> running s x.
Hypothesis Hprocess : forall s x, I s x -> swp (process s) (post (fun _ => I) (sending r I)) x.
Hypothesis Hdeinit : forall s x, res_ok r s x ->
  swp (deinit s) (post (fun _ _ y => clean y) (fun _ _ _ => False)) x.

Lemma session_loop_safe max rounds n s x :
  I s x ->
  swp (session_loop process max rounds n s)
    (post (fun a s' y => match a with Some _ => res_ok r s' y | None => I s' y end) (fun _ _ _ => False)) x.
Proof.
  revert n s x. induction rounds as [|rounds IH]; intros n s x Hi; cbn [session_loop];
    (step; [step; by apply Hres|]); [by step|].
  step. eapply post_mono; [by apply Hprocess| |].
  - intros [] s' y Hi'. by apply IH.
  - intros e s' y [Hr Hq]. cbv iota. step; [by step|].
    step; [apply IH, Hq; by apply bool_decide_eq_true in H1|by step].
Qed.

Lemma serve_safe max rounds s x :
  I s x ->
  swp (serve process deinit max rounds s) (post served cleaned) x.
Proof.
  intros Hi. unfold serve. step. eapply post_mono; [by apply session_loop_safe| |done].
  intros [[st n]|] s' y Hy; [|step; by apply Hrunning]. cbv beta iota in Hy |- *. step. eapply post_mono; [by apply Hdeinit| |done].
  intros [] s2 z Hc. cbv beta in Hc |- *. step. eapply post_mono; [apply diag_safe| |done]. intros _ s3 z2 [-> _]. cbv beta.
  step. step; [done|]. by step.
Qed.

Lemma end_session_safe st s x :
  res_ok r s x ->
  swp (end_session deinit st s) (post served cleaned) x.
Proof.
  intros Hr. unfold end_session. step. eapply post_mono; [apply diag_safe| |done].
  intros _ s' y [-> Hs]. cbv beta. step. eapply post_mono; [by apply Hdeinit, (same_res r s)| |done].
  intros [] s2 z Hc. cbv beta in Hc |- *. by step.
Qed.
End serve.

(** ** Up to the channel *)
Lemma setup_and_auth_safe rounds s x :
  idle x -> cw_auth x = cw_auth conn_start ->
  swp (setup_and_auth server eff rounds s)
    (post (fun a s' y => match a with
       | Some _ => idle y /\ logged_as s' y /\ same_channels s s'
       | None => idle y end) (fun _ s' y => idle y /\ same_channels s s')) x.
Proof.
  intros Hi Ha. unfold setup_and_auth. step.
  eapply post_mono; [apply setup_safe; [done|done|by rewrite effective_idempotent|]| |done].
  { intros o [= <-]. destruct (effective_fit _ Hfit). by split. }
  intros _ s1 y (Hi1 & Hs1 & Hb & Hv). cbv beta. eapply post_mono; [by apply userauth_safe| |].
  - intros [[]|] s2 z (Hi2 & Hs2 & Hl); [|exact Hi2]. split_and!; [done|by apply Hl|]. by eapply same_channels_trans.
  - intros e s2 z [Hi2 Hs2]. split; [done|]. by eapply same_channels_trans.
Qed.

(** ** The sessions *)

(** Nothing was received. *)
Definition at_start x : Prop := idle x /\ cw_auth x = cw_auth conn_start.

Lemma accept_sftp_safe s x :
  idle x -> logged_as s x -> fresh SftpChannel s ->
  swp (ssh_server_accept_sftp_channel server (Some eff) s) (post (fun _ => ready eff) (released SftpChannel)) x.
Proof.
  intros Hi Hl Hf. pose proof (effective_ok _ Hfit) as Heff. unfold ssh_server_accept_sftp_channel.
  rewrite (oo_effective _ Heff). step. step; [by apply fresh_res, Hi|]. step. unfold clear_sftp. step.
  step; [cbn; by rewrite (proj2 Hi)|]. step. step.
  eapply post_mono; [by apply accept_open_safe| |intros e s' y [-> Hw]; by apply fresh_res].
  intros o s' y [Ha ->]. cbv beta.
  eapply post_mono; [by apply sftp_accept_safe|intros [] s' z Hn; by apply new_ready|done].
Qed.

Lemma accept_terminal_safe s x :
  idle x -> logged_as s x -> fresh TerminalChannel s ->
  swp (ssh_server_accept_terminal_channel server (Some eff) s)
    (post (fun _ => terminal_ok eff) (released TerminalChannel)) x.
Proof.
  intros Hi Hl Hf. pose proof (effective_ok _ Hfit) as Heff. unfold ssh_server_accept_terminal_channel, clear_term.
  rewrite (oo_effective _ Heff). step. step. step.
  eapply post_mono; [by apply accept_open_safe| |intros e s' y [-> Hw]; by apply fresh_res].
  intros o s' y [Ha ->]. cbv beta. by apply terminal_accept_safe.
Qed.

Lemma sftp_session_safe rounds s x :
  at_start x -> swp (ssh_server_run_sftp_session server options rounds s) (post served cleaned) x.
Proof.
  intros [Hi Ha]. pose proof (effective_ok _ Hfit) as Heff. unfold ssh_server_run_sftp_session.
  step. step; [by apply clean_start, Hi|]. step. unfold clear_sftp. step. step; [cbn; by rewrite (proj2 Hi)|].
  step. set (s1 := set_sftp _ s). assert (fresh SftpChannel s1) as Hf by done. clearbody s1.
  step. step. eapply post_mono; [by apply setup_and_auth_safe| |].
  - intros [[]|] s2 y Hy; [|step; step; by apply idle_running]. destruct Hy as (Hy & Hl & Hs). step.
    eapply post_mono; [apply accept_sftp_safe; [done|done|by eapply same_fresh]| |].
    + intros [] s3 z Hr. step. cbv iota. eapply serve_safe; [| |apply process_sftp_safe, Heff|apply sftp_deinit_safe|exact Hr]; [|by right].
      intros s' x' [Hk _]. eapply chan_res, Hk.
    + intros e s3 z Hr. cbv iota. apply (end_session_safe SftpChannel); [apply sftp_deinit_safe|done].
  - intros e s2 y [Hy Hs]. cbv iota. apply (end_session_safe SftpChannel); [apply sftp_deinit_safe|].
    apply fresh_res; [by eapply same_fresh|apply Hy].
Qed.

Lemma terminal_session_safe rounds s x :
  at_start x -> swp (ssh_server_run_terminal_session server options rounds s) (post served cleaned) x.
Proof.
  intros [Hi Ha]. pose proof (effective_ok _ Hfit) as Heff. unfold ssh_server_run_terminal_session, clear_term.
  step. step; [by apply clean_start, Hi|]. step.
  step. set (s1 := set_term _ s). assert (fresh TerminalChannel s1) as Hf by done. clearbody s1.
  step. step. eapply post_mono; [by apply setup_and_auth_safe| |].
  - intros [[]|] s2 y Hy; [|step; step; by apply idle_running]. destruct Hy as (Hy & Hl & Hs). step.
    eapply post_mono; [apply accept_terminal_safe; [done|done|by eapply same_fresh]| |].
    + intros [] s3 z Hr. step. cbv iota.
      eapply serve_safe; [| |apply process_terminal_safe, Heff|apply terminal_deinit_safe|exact Hr]; [|by intros ? ? [_ ?]; left].
      intros s' x' [Hk _]. by eapply chan_res.
    + intros e s3 z Hr. cbv iota. apply (end_session_safe TerminalChannel); [apply terminal_deinit_safe|done].
  - intros e s2 y [Hy Hs]. cbv iota. apply (end_session_safe TerminalChannel); [apply terminal_deinit_safe|].
    apply fresh_res; [by eapply same_fresh|apply Hy].
Qed.

(** *** A channel of either kind *)
Definition waiting (o : ssh_channel_open) s x : Prop :=
  accepting eff o s x /\ fresh SftpChannel s /\ fresh TerminalChannel s.
Lemma waiting_clean o s x : waiting o s x -> clean x.
Proof. intros (Ha & _). apply clean_start, (ac_res _ _ _ _ Ha). Qed.
Lemma waiting_same o s s' x : waiting o s x -> same_channels s s' -> ss_username s' = ss_username s -> waiting o s' x.
Proof.
  intros (Ha & H1 & H2) Hs Hu. split_and!; [|by eapply same_fresh..]. destruct Ha. split; try done.
  unfold logged_as in *. by rewrite Hu.
Qed.

(** The diagnostics are recorded and the session ends with [st]. *)
Lemma fail_with_diag_safe {A} (Q : A -> server_state -> conn_watch -> Prop) st s x :
  clean x -> swp ((update_server_diag_from_transport;; io_fail st) s) (post Q cleaned) x.
Proof. intros Hc. step. eapply post_mono; [apply diag_safe|intros _ s' y [-> _]; by step|done]. Qed.

Lemma auto_request_safe o rounds status request s x :
  waiting o s x ->
  swp (auto_session_request server eff o rounds status request s)
    (post (fun r s' y => match r with Some ended => served ended s' y | None => waiting o s' y end) cleaned) x.
Proof.
  intros Hw. pose proof Hw as (Ha & Hfs & Hft). pose proof (waiting_clean _ _ _ Hw) as Hc.
  pose proof (effective_ok _ Hfit) as Heff. unfold auto_session_request.
  step. step; [by apply fail_with_diag_safe|]. step. step; [|step].
  - step. eapply post_mono; [by apply sftp_accept_safe| |].
    + intros [] s1 y Hn. cbv iota. step.
      eapply post_mono; [eapply serve_safe; [| |apply process_sftp_safe, Heff|apply sftp_deinit_safe|by apply new_ready]| |done].
      { intros s' x' [Hk _]. eapply chan_res, Hk. } { by right. }
      intros a s2 z Hz. cbv beta. by step.
    + intros e s1 y Hr. cbv iota. step. eapply post_mono; [by apply sftp_deinit_safe| |done].
      intros [] s2 z Hz. by apply fail_with_diag_safe.
  - step. eapply post_mono; [by apply terminal_accept_safe| |].
    + intros [] s1 y Hn. cbv iota. step.
      eapply post_mono; [eapply serve_safe; [| |apply process_terminal_safe, Heff|apply terminal_deinit_safe|exact Hn]| |done].
      { intros s' x' [Hk _]. by eapply chan_res. } { intros ? ? [_ ?]. by left. }
      intros a s2 z Hz. cbv beta. by step.
    + intros e s1 y Hr. cbv iota. step. eapply post_mono; [by apply terminal_deinit_safe| |done].
      intros [] s2 z Hz. by apply fail_with_diag_safe.
  - step. eapply post_mono; [apply refuse_safe; by eapply accepting_peer|intros ? ? ? [-> ->]; by step|done].
Qed.

Lemma auto_loop_safe o rounds attempts request s x :
  waiting o s x ->
  swp (auto_session_loop server eff o rounds attempts request s) (post served cleaned) x.
Proof.
  revert request s x. induction attempts as [|n IH]; intros request s x Hw; cbn [auto_session_loop];
    [by apply fail_with_diag_safe, (waiting_clean o s)|].
  step. eapply post_mono; [apply (next_request_safe server eff (waiting o) cleaned); [|done]| |done].
  { intros s' y [Ha' _]. eexists. by eapply accepting_is. }
  intros [st q] s1 y [-> ->]. cbv beta iota. step.
  - step. step; [done|]. step; [by apply IH|]. by apply fail_with_diag_safe, (waiting_clean o s).
  - step. eapply post_mono; [by apply auto_request_safe|intros [ended|] s' y Hy; [by step|by apply IH]|done].
Qed.

Lemma auto_session_safe rounds s x :
  at_start x -> swp (ssh_server_run_auto_session server options rounds s) (post served cleaned) x.
Proof.
  intros [Hi Ha]. unfold ssh_server_run_auto_session, clear_sftp, clear_term.
  step. step; [by apply clean_start, Hi|]. step. step. step; [cbn; by rewrite (proj2 Hi)|]. step. step. step.
  set (s1 := set_term _ _). assert (fresh SftpChannel s1 /\ fresh TerminalChannel s1) as [Hf1 Hf2] by done.
  clearbody s1. step. step. eapply post_mono; [by apply setup_and_auth_safe| |].
  - intros [[]|] s2 y Hy; [|step; step; by apply idle_running]. destruct Hy as (Hy & Hl & Hs). step.
    eapply post_mono; [by apply accept_open_safe| |].
    + intros o s3 z [Ho ->]. step. apply auto_loop_safe. split_and!; [done|by eapply same_fresh..].
    + intros e s3 z [-> Hw]. by apply fail_with_diag_safe, clean_start.
  - intros e s2 y [Hy Hs]. by apply fail_with_diag_safe, clean_start, Hy.
Qed.

(** [ssh_server_accept_auto_channel] leaves one channel in the state its kind
    says. *)
Definition accepted_kind (k : ssh_server_channel_kind) s x : Prop :=
  match k with KIND_SFTP => ready eff s x | KIND_TERMINAL => terminal_ok eff s x | KIND_NONE => False end.

Lemma accept_auto_safe hook s x :
  idle x -> logged_as s x ->
  swp (ssh_server_accept_auto_channel server (Some eff) hook s)
    (post accepted_kind (fun _ s' y => res_ok SftpChannel s' y \/ res_ok TerminalChannel s' y)) x.
Proof.
  intros Hi Hl. pose proof (effective_ok _ Hfit) as Heff.
  unfold ssh_server_accept_auto_channel, clear_sftp, clear_term. rewrite (oo_effective _ Heff).
  step. step. step; [cbn; by rewrite (proj2 Hi)|]. step. step. step. set (s1 := set_term _ _).
  assert (fresh SftpChannel s1 /\ fresh TerminalChannel s1) as [Hf1 Hf2] by done.
  assert (logged_as s1 x) as Hl1 by done. clearbody s1.
  step. eapply post_mono; [by apply accept_open_safe| |intros e s' y [-> Hw]; left; by apply fresh_res].
  intros o s' y [Ho ->]. cbv beta.
  apply (request_loop_safe server eff (waiting o)); [| | |by split].
  { intros s2 z [Ha _]. eexists. by eapply accepting_is. }
  { intros e s2 z (Ha & Hf & _). left. by apply fresh_res, (ac_res _ _ _ _ Ha). }
  intros st q s2 z Hw. pose proof Hw as (Ha & H1 & H2). pose proof (accepting_is _ _ _ _ Ha) as Hch.
  assert (res_ok SftpChannel s2 z) as Hres by (by apply fresh_res, (ac_res _ _ _ _ Ha)).
  unfold auto_accept_request. step. step; [by left|]. step; [|step].
  - step. assert (swp ((sftp_accept_after_open server (Some eff) o (Some q);; mret (Some KIND_SFTP)) s2)
      (post (fun r s' y => match r with Some a => accepted_kind a s' y | None => waiting o s' y end)
         (fun _ s' y => res_ok SftpChannel s' y \/ res_ok TerminalChannel s' y)) z) as Hrest.
    { step. eapply post_mono; [by apply sftp_accept_safe|intros [] s3 w Hn; step; by apply new_ready|intros; by left]. }
    step; [|done]. step. step; [by eexists|]. step; [by left|done].
  - step. assert (swp ((terminal_accept_after_open server (Some eff) o (Some q);; mret (Some KIND_TERMINAL)) s2)
      (post (fun r s' y => match r with Some a => accepted_kind a s' y | None => waiting o s' y end)
         (fun _ s' y => res_ok SftpChannel s' y \/ res_ok TerminalChannel s' y)) z) as Hrest.
    { step. eapply post_mono; [by apply terminal_accept_safe|intros [] s3 w Hn; by step|intros; by right]. }
    step; [|done]. step. step; [by eexists|]. step; [by left|done].
  - step. eapply post_mono; [apply refuse_safe; by eapply accepting_peer|intros ? ? ? [-> ->]; by step|done].
Qed.
End run.
