(* ===== verification/ServerTrace.v ===== *)
(** * What a session of the server shows to the outside

    The specification of ServerSafe.v is a machine; here are its consequences for
    the calls of a session as a list: what was called before what, how many bytes
    were sent, and what became of the bytes received and produced. *)

From S2P Require Import Prelude Interaction Buffer Platform Packet Codec Service Kex UserPolicy.
From S2P Require Import Userauth Connection Ident TransportState Transport TransportSession.
From S2P Require Import Sftp SftpPath SftpServer ServerState Server ServerSafe.

Abbreviation sevent := (event scall sreply).

(** ** Counting *)

(** The sum of [f] over the calls of a trace, and the concatenation of [f]. *)
Definition total (f : sevent -> Z) (evs : list sevent) : Z := foldr (fun ev n => f ev + n) 0 evs.
Definition gathered (f : sevent -> list Z) (evs : list sevent) : list Z := concat (map f evs).

Lemma total_snoc f evs ev : total f (evs ++ [ev]) = total f evs + f ev.
Proof. unfold total. induction evs as [|e evs IH]; cbn in *; [lia|]. rewrite IH. lia. Qed.
Lemma gathered_snoc f evs ev : gathered f (evs ++ [ev]) = gathered f evs ++ f ev.
Proof. unfold gathered. rewrite map_app, concat_app. cbn. by rewrite app_nil_r. Qed.

(** *** Windows *)
Section windows.
Context (eff : ssh_server_session_options).

(** Bytes the peer granted: its initial window and its adjustments. *)
Definition granted (ev : sevent) : Z :=
  match ev with
  | existT (Transport op) r =>
    match op return outcome (top_value op) -> Z with
    | OpReceiveChannelOpenSkip => fun r => match r with Ret o => initial_window_size o | _ => 0 end
    | OpReceiveChannelMessage _ _ => fun r =>
      match r with
      | Ret (m, _) => if (msg_recipient_channel m =? opt_server_channel eff) && (message_id m =? SSH_MSG_CHANNEL_WINDOW_ADJUST)
                      then window_bytes m else 0
      | _ => 0
      end
    | _ => fun _ => 0
    end r
  | _ => 0
  end.

(** The data of a message on the server's channel. *)
Definition received_data (ev : sevent) : list Z :=
  match ev with
  | existT (Transport op) r =>
    match op return outcome (top_value op) -> list Z with
    | OpReceiveChannelMessage _ _ => fun r =>
      match r with
      | Ret (m, d) => if (msg_recipient_channel m =? opt_server_channel eff) && (message_id m =? SSH_MSG_CHANNEL_DATA)
                      then d else []
      | _ => []
      end
    | _ => fun _ => []
    end r
  | _ => []
  end.
End windows.

(** The channel the peer asked for. *)
Definition opened (ev : sevent) : option ssh_channel_open :=
  match ev with
  | existT (Transport OpReceiveChannelOpenSkip) (Ret o) => Some o
  | _ => None
  end.

(** The data of a message that was sent. *)
Definition sent_data (ev : sevent) : list Z :=
  match ev with
  | existT (Transport (OpSendChannelData _ d)) (Ret _) => d
  | _ => []
  end.
(** Window given to the peer. *)
Definition offered (ev : sevent) : Z :=
  match ev with
  | existT (Transport (OpSendWindowAdjust _ n)) (Ret _) => n
  | _ => 0
  end.

(** What the SFTP session or the program was given, and what they produced. *)
Definition passed_on (ev : sevent) : list Z :=
  match ev with
  | existT (SftpHandle pk _) (Ret _) => pk
  | existT (TermWrite _ d) _ => d
  | _ => []
  end.
Definition produced (ev : sevent) : list Z :=
  match ev with
  | existT (SftpHandle _ _) (Ret response) => response
  | existT (TermRead _ _) (st, d) => if status_bad st then [] else d
  | _ => []
  end.

(** *** Authentication *)
Definition refusals (ev : sevent) : Z :=
  match ev with
  | existT (Transport (OpSendFailure _ _)) (Ret _) => 1
  | _ => 0
  end.

(** *** Resources *)
Definition sftp_opened_by (ev : sevent) : Z :=
  match ev with
  | existT SftpInit st => if status_bad st then 0 else 1
  | existT SftpDeinit _ => -1
  | _ => 0
  end.
Definition programs_started_by (ev : sevent) : Z :=
  match ev with
  | existT (TermSpawnShell _) r | existT (TermSpawnExec _ _) r =>
    if status_bad (fst r) then 0 else if snd r =? 0 then 0 else 1
  | existT (TermClose _) _ => -1
  | _ => 0
  end.

(** ** What the monitor knows of the trace *)
Section tracking.
Context (server : ssh_server) (eff : ssh_server_session_options).
Implicit Types (x : conn_watch) (evs : list sevent).

(** A case for every call, every operation of the transport and every reply. *)
Local Ltac calls c r :=
  destruct c as [?|op| | | | | |? ?| |?|? ?|? ?|? ?|? ? ? ? ?|? ?|?|?|?|?]; [|destruct op|..];
  try (destruct r as [?|?|]); cbn in *.

(** The two messages that count, told apart. *)
Lemma message_cases m data k :
  let mine := msg_recipient_channel m =? opt_server_channel eff in
  let adjusted := if mine && (message_id m =? SSH_MSG_CHANNEL_WINDOW_ADJUST) then window_bytes m else 0 in
  let received := if mine && (message_id m =? SSH_MSG_CHANNEL_DATA) then data else [] in
  message_seen eff m data k =
    with_streams (kw_in k ++ received) (kw_out k) (with_windows (kw_send k + adjusted) (kw_recv k - zlen received) k).
Proof.
  cbv zeta. unfold message_seen. destruct (_ =? opt_server_channel eff); cbn [negb andb].
  - destruct (Z.eqb_spec (message_id m) SSH_MSG_CHANNEL_WINDOW_ADJUST) as [->|_].
    + cbn. rewrite (zlen_nil (A:=Z)), app_nil_r, Z.sub_0_r. by destruct k.
    + case_bool; cbn; [by rewrite Z.add_0_r|]. rewrite (zlen_nil (A:=Z)), app_nil_r, Z.sub_0_r, Z.add_0_r. by destruct k.
  - cbn. rewrite (zlen_nil (A:=Z)), app_nil_r, Z.sub_0_r, Z.add_0_r. by destruct k.
Qed.

Record counts_windows evs x : Prop := {
  wt_open : kw_confirmed (cw_chan x) = true -> exists o, kw_open (cw_chan x) = Some o;
  wt_send : kw_confirmed (cw_chan x) = true -> kw_send (cw_chan x) =
    total (granted eff) evs - zlen (gathered sent_data evs);
  wt_recv : kw_confirmed (cw_chan x) = true -> kw_recv (cw_chan x) =
    opt_channel_window_size eff + total offered evs - zlen (gathered (received_data eff) evs);
  wt_asked ev o : In ev evs -> opened ev = Some o -> kw_open (cw_chan x) = Some o;
  wt_before : kw_confirmed (cw_chan x) = false ->
    gathered sent_data evs = [] /\ total offered evs = 0 /\ gathered (received_data eff) evs = [] /\
    total (granted eff) evs = match kw_open (cw_chan x) with Some o => initial_window_size o | None => 0 end
}.

(** A call that concerns neither the windows nor the data. *)
Lemma windows_skip pre y z ev :
  counts_windows pre y ->
  opened ev = None -> granted eff ev = 0 -> sent_data ev = [] -> offered ev = 0 -> received_data eff ev = [] ->
  kw_open (cw_chan z) = kw_open (cw_chan y) -> kw_confirmed (cw_chan z) = kw_confirmed (cw_chan y) ->
  kw_send (cw_chan z) = kw_send (cw_chan y) -> kw_recv (cw_chan z) = kw_recv (cw_chan y) ->
  counts_windows (pre ++ [ev]) z.
Proof.
  intros [] Hev E1 E2 E3 E4 F1 F2 F3 F4.
  split; try (intros ev' o [Hin|[<-|[]]]%in_app_iff Ho; [rewrite F1; by eapply wt_asked0|congruence]); rewrite ?total_snoc, ?gathered_snoc, ?E1, ?E2, ?E3, ?E4, ?F1, ?F2, ?F3, ?F4, ?Z.add_0_r, ?app_nil_r; done.
Qed.

Lemma asked_snoc pre x ev0 :
  (forall ev o, In ev pre -> opened ev = Some o -> kw_open (cw_chan x) = Some o) -> opened ev0 = None ->
  forall ev o, In ev (pre ++ [ev0]) -> opened ev = Some o -> kw_open (cw_chan x) = Some o.
Proof. intros Ha H0 ev o [Hin|[<-|[]]]%in_app_iff Hev; [by eapply Ha|congruence]. Qed.

Lemma tracks_windows pre y c r :
  counts_windows pre y -> conn_permits server eff y c ->
  counts_windows (pre ++ [existT c r]) (conn_step eff y c r).
Proof.
  intros HJ Hp. calls c r; try (by apply (windows_skip pre y));
    try (by unfold started; case_match; apply (windows_skip pre y)).
  - destruct HJ as [Ho _ _ Ha Hb]. destruct Hp as [[_ Hn] _].
    destruct (kw_confirmed (cw_chan y)) eqn:Ec; [destruct (Ho eq_refl); congruence|].
    destruct (Hb eq_refl) as (H1 & H2 & H3 & H4). rewrite Hn in H4.
    split; rewrite ?total_snoc, ?gathered_snoc, ?H1, ?H2, ?H3, ?H4; cbn; rewrite ?Ec; try done.
    intros ev o [Hin|[<-|[]]]%in_app_iff Hev; [|done]. specialize (Ha ev o Hin Hev). congruence.
  - destruct HJ as [_ _ _ Ha Hb]. destruct Hp as [(_ & Hc & _ & -> & _ & o & Ho & _) _].
    destruct (Hb Hc) as (H1 & H2 & H3 & H4). rewrite Ho in H4.
    split; rewrite ?total_snoc, ?gathered_snoc, ?H1, ?H2, ?H3, ?H4; cbn; rewrite ?Ho, ?(zlen_nil (A:=Z));
      [by eexists|intros _; lia..| |done].
    rewrite <- Ho. by apply (asked_snoc pre y).
  - destruct a as [m d]. destruct Hp as [((o & _ & Ho & Hc) & _) _]. destruct HJ as [_ Hs Hr Ha _].
    specialize (Hs Hc). specialize (Hr Hc). unfold on_chan. cbn [fst snd]. rewrite message_cases.
    split; rewrite ?total_snoc, ?gathered_snoc, ?zlen_app; cbn; rewrite ?Hc, ?(zlen_nil (A:=Z)); intros;
      [by eexists|lia..|eapply (asked_snoc pre y); [exact Ha| |eassumption..]; done|done].
  - destruct Hp as [((o & (_ & Ho & Hc) & _) & _) _]. destruct HJ as [_ Hs Hr Ha _]. specialize (Hs Hc). specialize (Hr Hc).
    split; rewrite ?total_snoc, ?gathered_snoc, ?zlen_app; cbn; rewrite ?Hc, ?(zlen_nil (A:=Z)); intros;
      [by eexists|lia..|eapply (asked_snoc pre y); [exact Ha| |eassumption..]; done|done].
  - destruct Hp as [((o & (_ & Ho & Hc) & _) & _) _]. destruct HJ as [_ Hs Hr Ha _]. specialize (Hs Hc). specialize (Hr Hc).
    split; rewrite ?total_snoc, ?gathered_snoc, ?zlen_app; cbn; rewrite ?Hc, ?(zlen_nil (A:=Z)); intros;
      [by eexists|lia..|eapply (asked_snoc pre y); [exact Ha| |eassumption..]; done|done].
Qed.

(** *** Streams *)
Definition counts_streams evs x : Prop :=
  gathered (received_data eff) evs = gathered passed_on evs ++ kw_in (cw_chan x) /\
  gathered produced evs = gathered sent_data evs ++ kw_out (cw_chan x).

Lemma streams_skip pre y z ev :
  counts_streams pre y -> received_data eff ev = [] -> passed_on ev = [] -> produced ev = [] -> sent_data ev = [] ->
  kw_in (cw_chan z) = kw_in (cw_chan y) -> kw_out (cw_chan z) = kw_out (cw_chan y) ->
  counts_streams (pre ++ [ev]) z.
Proof.
  intros [H1 H2] E1 E2 E3 E4 F1 F2. unfold counts_streams. rewrite !gathered_snoc, E1, E2, E3, E4, F1, F2, !app_nil_r. done.
Qed.

Lemma ztake_split (l : list Z) n d : ztake n l = d -> l = d ++ zdrop n l.
Proof. intros <-. symmetry. apply ztake_zdrop. Qed.

Lemma tracks_streams pre y c r :
  counts_streams pre y -> conn_permits server eff y c ->
  counts_streams (pre ++ [existT c r]) (conn_step eff y c r).
Proof.
  intros HJ Hp. calls c r; try (by apply (streams_skip pre y));
    try (by unfold started; case_match; apply (streams_skip pre y)).
  all: destruct HJ as [H1 H2]; unfold counts_streams; rewrite !gathered_snoc.
  - destruct a as [m d]. unfold on_chan. cbn [fst snd]. rewrite message_cases. cbn.
    rewrite H1, !app_nil_r, app_assoc. done.
  - destruct Hp as [(_ & _ & _ & Hd) _]. cbn. rewrite !app_nil_r, <- app_assoc, <- (ztake_split _ _ _ Hd). done.
  - destruct Hp as (_ & _ & _ & _ & _ & _ & Hpk & _). cbn.
    rewrite !app_nil_r, <- app_assoc, <- (ztake_split _ _ _ Hpk), H2, app_assoc. done.
  - destruct Hp as (_ & _ & ->). cbn. rewrite !app_nil_r. done.
  - destruct r as [st d]. cbn. destruct (status_bad st); cbn; rewrite !app_nil_r; [done|]. by rewrite H2, app_assoc.
Qed.

(** *** Authentication *)

(** The request [request] was received and evaluated as a success. *)
Record logged_in_by (request : ssh_userauth_request) evs : Prop := {
  lb_request : In (existT (Transport OpReceiveUserauth) (Ret request) : sevent) evs;
  lb_success : exists sid, In (existT TransportSessionId sid : sevent) evs /\
    ssh_userauth_evaluate_request (auth_server_of server) request (Some sid) (zlen sid)
    = Ret SSH_USERAUTH_DECISION_SUCCESS
}.

Record counts_auth evs x : Prop := {
  at_request r : aw_request (cw_auth x) = Some r -> In (existT (Transport OpReceiveUserauth) (Ret r) : sevent) evs;
  at_session_id sid : aw_session_id (cw_auth x) = Some sid -> In (existT TransportSessionId sid : sevent) evs;
  at_user name : aw_user (cw_auth x) = Some name ->
    exists request, logged_in_by request evs /\ name = view_bytes (username request);
  at_refusals : aw_failures (cw_auth x) = total refusals evs /\
    0 <= total refusals evs <= Z.max 0 (cfg_max_auth_tries (sv_config server))
}.

Lemma logged_in_snoc request evs ev : logged_in_by request evs -> logged_in_by request (evs ++ [ev]).
Proof. intros [H1 (sid & H2 & H3)]. split; [|exists sid; split; [|done]]; apply in_app_iff; by left. Qed.

Lemma auth_skip pre y z ev :
  counts_auth pre y -> refusals ev = 0 ->
  (forall r, aw_request (cw_auth z) = Some r -> aw_request (cw_auth y) = Some r \/ existT (Transport OpReceiveUserauth) (Ret r) = ev) ->
  (forall sid, aw_session_id (cw_auth z) = Some sid -> aw_session_id (cw_auth y) = Some sid \/ existT TransportSessionId sid = ev) ->
  aw_user (cw_auth z) = aw_user (cw_auth y) -> aw_failures (cw_auth z) = aw_failures (cw_auth y) ->
  counts_auth (pre ++ [ev]) z.
Proof.
  intros [H1 H2 H3 H4] E1 Fr Fs Fu Ff. split.
  - intros r Hr. apply in_app_iff. destruct (Fr r Hr) as [Hq|<-]; [left; by apply H1|right; by left].
  - intros sid Hs. apply in_app_iff. destruct (Fs sid Hs) as [Hq|<-]; [left; by apply H2|right; by left].
  - rewrite Fu. intros name Hn. destruct (H3 name Hn) as (q & Hq & ->). exists q. by split; [apply logged_in_snoc|].
  - by rewrite total_snoc, Ff, E1, Z.add_0_r.
Qed.

Lemma tracks_auth pre y c r :
  counts_auth pre y -> conn_permits server eff y c ->
  counts_auth (pre ++ [existT c r]) (conn_step eff y c r).
Proof.
  intros HJ Hp. calls c r; try (by apply (auth_skip pre y); auto);
    try (by unfold started; case_match; apply (auth_skip pre y); auto).
  - apply (auth_skip pre y); auto. cbn. intros r [= <-]. by right.
  - destruct Hp as [(q & sid & Hq & Hs & He) _]. destruct HJ as [H1 H2 _ H4]. split.
    + done.
    + intros sid' Hs'. apply in_app_iff. left. by apply H2.
    + cbn. rewrite Hq. intros name [= <-]. exists q. split; [|done]. apply logged_in_snoc.
      split; [by apply H1|]. exists sid. by split; [apply H2|].
    + cbn. by rewrite total_snoc, Z.add_0_r.
  - destruct Hp as [(_ & _ & Hlt) _]. destruct HJ as [_ H2 H3 [H4 H5]]. split.
    + done.
    + intros sid Hs. apply in_app_iff. left. by apply H2.
    + intros name Hn. destruct (H3 name Hn) as (q & Hq & ->). exists q. by split; [apply logged_in_snoc|].
    + cbn. rewrite total_snoc. cbn. lia.
  - apply (auth_skip pre y); auto. cbn. intros sid [= <-]. by right.
Qed.

(** *** Resources *)
Definition counts_resources evs x : Prop :=
  total sftp_opened_by evs = (if rw_sftp (cw_res x) then 1 else 0) /\
  total programs_started_by evs = (match rw_term (cw_res x) with Some _ => 1 | None => 0 end).

Lemma resources_skip pre y z ev :
  counts_resources pre y -> sftp_opened_by ev = 0 -> programs_started_by ev = 0 ->
  rw_sftp (cw_res z) = rw_sftp (cw_res y) -> rw_term (cw_res z) = rw_term (cw_res y) ->
  counts_resources (pre ++ [ev]) z.
Proof.
  intros [H1 H2] E1 E2 F1 F2. unfold counts_resources. by rewrite !total_snoc, E1, E2, F1, F2, !Z.add_0_r.
Qed.

Lemma tracks_resources pre y c r :
  counts_resources pre y -> conn_permits server eff y c ->
  counts_resources (pre ++ [existT c r]) (conn_step eff y c r).
Proof.
  intros HJ Hp. calls c r; try (by apply (resources_skip pre y)).
  all: try (by case_match; apply (resources_skip pre y)).
  all: destruct HJ as [H1 H2]; unfold counts_resources; rewrite !total_snoc; cbn.
  - destruct Hp as [_ Hf]. rewrite Hf in H1. destruct (status_bad r); cbn; rewrite ?Hf, ?Z.add_0_r; lia.
  - rewrite Hp in H1. lia.
  - destruct Hp as (_ & Hf & _). rewrite Hf in H2. unfold started. destruct (status_bad (fst r)); cbn; rewrite ?Hf; [lia|].
    destruct (snd r =? 0); lia.
  - destruct Hp as (_ & Hf & _). rewrite Hf in H2. unfold started. destruct (status_bad (fst r)); cbn; rewrite ?Hf; [lia|].
    destruct (snd r =? 0); lia.
  - rewrite Hp in H2. lia.
Qed.

(** *** Service *)

(** The calls that serve a user: everything that concerns a channel. *)
Definition serves (c : scall) : bool :=
  match c with
  | Transport op =>
    match op with
    | OpReceiveChannelOpenSkip | OpSendConfirmation _ _ _ _ | OpSendOpenFailure _ _ _ | OpReceiveChannelRequest _
    | OpSendChannelSuccess _ | OpSendChannelFailure _ | OpReceiveChannelMessage _ _ | OpSendChannelData _ _
    | OpSendWindowAdjust _ _ | OpSendEof _ | OpSendClose _ | OpSendExitStatus _ _ => true
    | _ => false
    end
  | SftpInit | SftpHandle _ _ | TermSpawnShell _ | TermSpawnExec _ _ | TermWrite _ _ | TermRead _ _
  | TermResize _ _ _ _ _ | TermSignal _ _ | TermWaitExit _ | RequestPolicy _ | AcceptHook _ => true
  | _ => false
  end.

(** The arguments a program is started with. *)
Definition spawned_with (c : scall) : option spawn_args :=
  match c with TermSpawnShell args | TermSpawnExec _ args => Some args | _ => None end.

Lemma peer_logged_in x rc : to_peer x rc -> logged_in x.
Proof. by intros (o & (H & _) & _). Qed.

Lemma serves_logged_in x c : conn_permits server eff x c -> serves c = true -> logged_in x.
Proof.
  intros Hp Hs. destruct c; try done; [destruct op; try done; destruct Hp as [Hp _]|..]; cbn in Hp;
    repeat match goal with
    | H : _ /\ _ |- _ => destruct H
    | H : exists _, _ |- _ => destruct H
    | H : to_peer _ _ |- _ => apply peer_logged_in in H
    | H : channel_is _ _ |- _ => destruct H
    end; try done.
  all: by match goal with H : on_terminal _ _ |- _ => destruct H as [(? & ? & _) _] | H : spawn_permits _ _ |- _ => destruct H as [(? & ? & _) _] end.
Qed.
End tracking.
