(* ===== verification/ServerSession.v ===== *)
(** * The server: its theorems

    What holds of whole connections, for every peer, platform and application that
    keep the contract of ServerSafe.v: authentication comes before service, data
    stays within the windows, the SFTP session or the program is handed the data
    of the peer in order and once, and what was acquired is released.
    Then the parts of the server that can be told without its surroundings. *)

From S2P Require Import Prelude Interaction Buffer Platform Packet Codec Service Kex UserPolicy.
From S2P Require Import Userauth Connection Ident TransportState Transport TransportSession.
From S2P Require Import Sftp SftpPath SftpServer ServerState Server ServerSafe ServerFlow ServerSftp ServerTerminal ServerRun ServerTrace.

(** ** Sessions *)
Inductive session_kind : Type := SftpOnly | TerminalOnly | Either.

Definition run_session (server : ssh_server) (kind : session_kind) (options : option ssh_server_session_options)
    (rounds : nat) : SvM (option unit) :=
  match kind with
  | SftpOnly => ssh_server_run_sftp_session server options rounds
  | TerminalOnly => ssh_server_run_terminal_session server options rounds
  | Either => ssh_server_run_auto_session server options rounds
  end.

(** The session is over: an error, or the end of its message loop. *)
Definition over (o : outcome (option unit)) : Prop := o <> Ret None.

Section sessions.
Context (server : ssh_server) (options : option ssh_server_session_options) (Hfit : options_fit options).
Abbreviation eff := (effective_session_options options).

Lemma session_wp kind rounds s :
  wp (conn_step eff) (conn_permits server eff) sreply_good (run_session server kind options rounds s)
    (post (served server options) (cleaned server)) conn_start.
Proof. destruct kind; [by apply sftp_session_safe|by apply terminal_session_safe|by apply auto_session_safe]. Qed.

Lemma session_result o s y :
  post (served server options) (cleaned server) (o, s) y -> o <> Fault /\ (over o -> clean server y).
Proof. by destruct o as [[[]|]|err|]. Qed.
Lemma session_running s y :
  post (served server options) (cleaned server) (Ret None, s) y -> running options s y.
Proof. done. Qed.

Context {W : Type} (e : env scall sreply W) (He : env_good sreply_good e).

Lemma session_runs kind rounds s w :
  let '((o, s'), _, evs) := run e (run_session server kind options rounds s) w in
  let x := final (conn_step eff) conn_start evs in
  accepted (conn_step eff) (conn_permits server eff) conn_start evs /\ o <> Fault /\
  (over o -> clean server x) /\ (o = Ret None -> running options s' x).
Proof.
  pose proof (run_monitored _ _ _ e _ _ _ w He (session_wp kind rounds s)) as Hr.
  destruct (run e _ w) as [[[o s'] w'] evs]. destruct Hr as [Ha Ho].
  pose proof (session_result _ _ _ Ho) as [Hf Hc]. split_and!; [done..|]. intros ->. by apply session_running.
Qed.

(** The invariants of ServerTrace.v hold of every session. *)
Lemma session_counts kind rounds s w :
  let '((o, _), _, evs) := run e (run_session server kind options rounds s) w in
  forall pre post, evs = pre ++ post ->
  let x := final (conn_step eff) conn_start pre in
  counts_windows eff pre x /\ counts_streams eff pre x /\ counts_auth server pre x /\ counts_resources pre x /\
  match post with existT c _ :: _ => conn_permits server eff x c | [] => True end.
Proof.
  pose proof (session_runs kind rounds s w) as Hr. destruct (run e _ w) as [[[o s'] w'] evs].
  destruct Hr as (Ha & _). intros pre post ->. cbv zeta. pose proof Ha as [Hp _]%accepted_app.
  split_and!.
  - eapply accepted_tracks; [by split| |exact Hp]. apply tracks_windows.
  - eapply accepted_tracks; [by split| |exact Hp]. apply tracks_streams.
  - eapply accepted_tracks; [split; cbn; try done; lia| |exact Hp]. apply tracks_auth.
  - eapply accepted_tracks; [by split| |exact Hp]. apply tracks_resources.
  - destruct post as [|[c r] post]; [done|]. by apply accepted_at in Ha.
Qed.
End sessions.

(** *** Streams *)

(** What the peer sent and what was handed on, what was produced and what was sent:
    [buffered] and [pending] are left. *)
Definition leaves (eff : ssh_server_session_options) (evs : list sevent) (buffered pending : list Z) : Prop :=
  gathered (received_data eff) evs = gathered passed_on evs ++ buffered /\
  gathered produced evs = gathered sent_data evs ++ pending.

(** The call [c] after the calls [pre] takes from the front of what is left, and the
    server waits for a message only when nothing else can be done. *)
Definition next_in_order (pre : list sevent) (buffered pending : list Z) (c : scall) : Prop :=
  match c with
  | TermWrite _ d => d = buffered
  | TermRead _ _ => pending = []
  | SftpHandle pk _ => pending = [] /\ one_frame pk /\ exists rest, buffered = pk ++ rest
  | Transport (OpSendChannelData _ d) => exists rest, pending = d ++ rest
  | Transport (OpReceiveChannelMessage _ _) =>
    (pending = [] -> incomplete buffered) /\
    (total sftp_opened_by pre = 0 -> buffered = [] /\ pending = [])
  | _ => True
  end.

(** The state of a session that still runs. *)
Definition held_back (s : server_state) (buffered pending : list Z) : Prop :=
  (buffered = [] /\ pending = []) \/
  (buffered = sftp_rx (ss_sftp s) /\ pending = sftp_tx_pending (ss_sftp s) /\
   (pending = [] -> incomplete buffered) /\
   (pending <> [] -> peer_window_size (sc_flow (ss_sftp s)) = 0 \/ buffered = [])).

Lemma permitted_in_order server eff pre x c :
  conn_permits server eff x c -> total sftp_opened_by pre = (if rw_sftp (cw_res x) then 1 else 0) ->
  next_in_order pre (kw_in (cw_chan x)) (kw_out (cw_chan x)) c.
Proof.
  intros Hp Hq. destruct c; try done; [destruct op; try done|..].
  - destruct Hp as [(_ & _ & [Hi Ht] & _) _]. split; [done|]. rewrite Hq. by destruct (rw_sftp _); [|auto].
  - destruct Hp as [(_ & _ & _ & Hd) _]. eexists. by apply ztake_split.
  - destruct Hp as (_ & _ & _ & Ho & Hf & _ & Hd & _). split_and!; [done..|]. eexists. by apply ztake_split.
  - by destruct Hp as (_ & _ & ?).
  - by destruct Hp as (_ & _ & ? & _).
Qed.

Lemma running_held_back options s x :
  running options s x -> held_back s (kw_in (cw_chan x)) (kw_out (cw_chan x)).
Proof.
  intros [[-> ->]|[Hk Hs]]; [by left|right]. destruct (sk_streams _ _ _ Hk) as [-> ->].
  split_and!; [done..| |]; destruct Hs as [[? ?]|[? ?]]; tauto.
Qed.

(** ** Surroundings for the examples

    A peer that logs in, opens a channel, asks for the SFTP subsystem or a shell
    and then sends the messages of a script; an SFTP session that answers every
    request with the same five bytes, and a shell that reads its input and writes
    nothing. *)
Definition demo_channel_request (type name : list Z) : ssh_channel_request :=
  mk_channel_request 0 (view_of type) true (view_of name) null_view null_view null_view null_view null_view
    null_view 0 0 0 0.
Definition demo_open : ssh_channel_open := mk_channel_open (view_of (cstr "session")) 7 9 0.
Definition demo_data (d : list Z) : ssh_channel_message * list Z :=
  (mk_channel_message SSH_MSG_CHANNEL_DATA 0 0 (view_of d) zero_request, d).
Definition demo_adjust (n : Z) : ssh_channel_message * list Z :=
  (mk_channel_message SSH_MSG_CHANNEL_WINDOW_ADJUST 0 n null_view zero_request, []).

(** A script: the window the peer grants, and the data it sends. *)
Definition demo_script : Type := list (Z + list Z).
Definition demo_message (capacity : Z) (m : Z + list Z) : ssh_channel_message * list Z :=
  match m with
  | inl n => demo_adjust (u32 n)
  | inr d => demo_data (if bool_decide (Forall is_byte d) && (zlen d <=? capacity) then d else [])
  end.

Definition demo_top (request : ssh_channel_request) (op : transport_op)
    : demo_script -> outcome (top_value op) * demo_script :=
  match op with
  | OpReceivePayload _ | OpReceiveChannelOpen | OpReceiveChannelData _ => fun w => (Err SSH_ERR_UNSUPPORTED, w)
  | OpReceiveServiceRequest => fun w => (Ret (mk_service_request (view_of SSH_SERVICE_USERAUTH)), w)
  | OpReceiveUserauth => fun w => (Ret demo_password_request, w)
  | OpReceiveChannelOpenSkip => fun w => (Ret demo_open, w)
  | OpReceiveChannelRequest _ => fun w => (Ret (None, request), w)
  | OpReceiveChannelMessage _ capacity => fun w =>
    match w with
    | m :: w' => if capacity <? 0 then (Err SSH_ERR_INVALID_ARGUMENT, w) else (Ret (demo_message capacity m), w')
    | [] => (Err SSH_ERR_CLOSED, w)
    end
  | _ => fun w => (Ret tt, w)
  end.

Definition demo_surroundings (request : ssh_channel_request) : env scall sreply demo_script :=
  fun c =>
  match c with
  | TransportInit _ => fun w => (Ret tt, w)
  | Transport op => demo_top request op
  | TransportSessionId => fun w => ([1; 2], w)
  | TransportDiag => fun w => (mk_diag 0 false [] false false, w)
  | SftpClear | SftpDeinit => fun w => (tt, w)
  | SftpHandle _ capacity => fun w => (if capacity <? 5 then Err SSH_ERR_BUFFER_TOO_SMALL else Ret [0; 0; 0; 1; 2], w)
  | TermSpawnShell _ | TermSpawnExec _ _ => fun w => ((SSH_OK, 5), w)
  | TermWrite _ d => fun w => ((SSH_OK, zlen d), w)
  | TermRead _ _ => fun w => ((SSH_ERR_NOT_FOUND, []), w)
  | TermWaitExit _ => fun w => ((SSH_OK, false, 0), w)
  | _ => fun w => (SSH_OK, w)
  end.

Definition demo_ssh_server : ssh_server :=
  mk_server (mk_platform true true true (server_crypto demo_server) true true None None
      (Some (mk_fs_api true true true true true true true true true true true true true true true true true true true
        true true true))
      (Some (mk_term_api true true true true true true true true)))
    (mk_config (Some (cstr "demo")) EMSSH_MAX_PACKET_SIZE EMSSH_MAX_PAYLOAD_SIZE 3 None
      (password_auth demo_server) None None 0 None None) true zero_server_diag.

Lemma demo_open_ok : channel_open_ok demo_open.
Proof. split_and!; [apply view_ok_of; [by apply (bool_decide_unpack _); vm_compute|by vm_compute]|done..]. Qed.

Lemma demo_surroundings_good request : env_good sreply_good (demo_surroundings request).
Proof.
  intros c w. destruct c; try done.
  - destruct op; try done.
    + split; [apply demo_password_request_ok|by vm_compute].
    + apply demo_open_ok.
    + cbn. destruct w as [|m w]; [done|]. case_bool; [done|]. destruct m as [n|d]; cbn.
      * split_and!; [|done|rewrite (zlen_nil (A:=Z)); lia]. unfold is_u32, u32. apply Z.mod_pos_bound. lia.
      * destruct (bool_decide_reflect (Forall is_byte d)); cbn [andb]; [case_bool; [by split_and!; [..|lia]|]|];
          (split_and!; [done|done|rewrite (zlen_nil (A:=Z)); lia]).
  - by split; [apply (bool_decide_unpack _); vm_compute|].
  - cbn. case_bool; [by left|]. split; [by apply (bool_decide_unpack _); vm_compute|].
    rewrite !zlen_cons, (zlen_nil (A:=Z)). lia.
  - split; [done|]. cbn. rewrite (zlen_nil (A:=Z)). lia.
Qed.

(** What was examined below: an SFTP channel on which two requests arrive, the peer
    grants more window and sends a third request; and a shell with input. *)
Definition demo_frame : list Z := [0; 0; 0; 5; 1; 0; 0; 0; 3].
Definition demo_sftp_request : ssh_channel_request :=
  demo_channel_request SSH_CHANNEL_REQUEST_SUBSYSTEM SSH_SUBSYSTEM_SFTP.
Definition demo_shell_request : ssh_channel_request := demo_channel_request SSH_CHANNEL_REQUEST_SHELL [].
Definition demo_start : server_state := mk_server_state [] zero_sftp_channel zero_terminal_channel zero_server_diag.
Definition demo_traffic : demo_script := [inr demo_frame; inr demo_frame; inl 100; inr demo_frame].
Abbreviation demo_run kind request script :=
  (run (demo_surroundings request) (run_session demo_ssh_server kind None 20 demo_start) script).

(** ** The properties *)

(** C15: a connection of any kind, whatever the peer sends and whatever the
    platform and the application reply within their contract, makes only calls
    that are in order: the transport is set up in its order and once, a success
    is sent only for a request that was evaluated as one, nothing concerns a
    channel before the user was authenticated and the channel confirmed, the SFTP
    session and the program are used only while they exist, and an SFTP request
    is handed on whole.  It never runs into undefined behaviour, whichever error
    ends it.  Three loops, for the requests of the authentication, the requests of
    the channel and the messages of the session, go on as long as the peer keeps
    them busy; [rounds] is how often they are followed, it may be any number, and
    [Ret None] says that the session still runs then.  That a session ends is not
    claimed. *)
Theorem connection_safe server kind options rounds s {W} (e : env scall sreply W) w :
  options_fit options -> env_good sreply_good e ->
  let '((o, _), _, evs) := run e (run_session server kind options rounds s) w in
  accepted (conn_step (effective_session_options options)) (conn_permits server (effective_session_options options))
    conn_start evs /\ o <> Fault.
Proof.
  intros Hf He. pose proof (session_runs server options Hf e He kind rounds s w) as Hr.
  destruct (run e _ w) as [[[o s'] w'] evs]. by destruct Hr as (? & ? & _).
Qed.

Lemma connection_safe_witness :
  let '((o, _), w, evs) := demo_run Either demo_sftp_request demo_traffic in
  (accepted (conn_step (effective_session_options None)) (conn_permits demo_ssh_server (effective_session_options None))
     conn_start evs /\ o <> Fault) /\ length evs = 36%nat /\ w = [].
Proof.
  assert (let '((o, _), w, evs) := demo_run Either demo_sftp_request demo_traffic in length evs = 36%nat /\ w = [])
    as H1 by (by vm_compute).
  pose proof (connection_safe demo_ssh_server Either None 20 demo_start (demo_surroundings demo_sftp_request)
    demo_traffic I (demo_surroundings_good _)) as H.
  destruct (demo_run Either demo_sftp_request demo_traffic) as [[[o s'] w'] evs]. exact (conj H H1).
Defined.

(** C16: nobody is served before they were authenticated: before any call that
    concerns a channel, starts the SFTP session or a program, a request was
    received that was evaluated as a success under the session identifier of the
    transport, and a program is started for the user that request names. *)
Theorem server_login_first server kind options rounds s {W} (e : env scall sreply W) w :
  options_fit options -> env_good sreply_good e ->
  let '(_, _, evs) := run e (run_session server kind options rounds s) w in
  forall pre c r post, evs = pre ++ existT c r :: post -> serves c = true ->
  exists request, logged_in_by server request pre /\
    forall args, spawned_with c = Some args ->
      spawn_username args = match view_bytes (username request) with [] => None | name => Some (array_string name) end.
Proof.
  intros Hf He. pose proof (session_counts server options Hf e He kind rounds s w) as Hc.
  destruct (run e _ w) as [[[o s'] w'] evs]. intros pre c r post -> Hs.
  destruct (Hc pre (existT c r :: post) eq_refl) as (_ & _ & [_ _ Hu _] & _ & Hp).
  destruct (serves_logged_in _ _ _ _ Hp Hs) as [name Hn]. destruct (Hu name Hn) as (q & Hq & Eq).
  exists q. split; [done|]. intros args Ha.
  assert (spawn_permits (final (conn_step (effective_session_options options)) conn_start pre) args) as (_ & _ & n & En & Hsp)
    by (by destruct c; simplify_eq/=).
  rewrite Hn in En. injection En as <-. subst name. rewrite Hsp. by destruct (view_bytes (username q)).
Qed.

Lemma server_login_first_witness :
  let '(_, _, evs) := demo_run Either demo_shell_request demo_traffic in
  exists pre r post, evs = pre ++ existT (TermSpawnShell (mk_spawn (Some (cstr "alice")) None 0 0 0 0)) r :: post /\
  exists request, logged_in_by demo_ssh_server request pre.
Proof.
  set (args := mk_spawn (Some (cstr "alice")) None 0 0 0 0).
  assert (let '(_, _, evs) := demo_run Either demo_shell_request demo_traffic in
    evs = ztake 20 evs ++ existT (TermSpawnShell args) (SSH_OK, 5) :: zdrop 21 evs) as H1 by (by vm_compute).
  pose proof (server_login_first demo_ssh_server Either None 20 demo_start (demo_surroundings demo_shell_request)
    demo_traffic I (demo_surroundings_good _)) as H.
  destruct (demo_run Either demo_shell_request demo_traffic) as [[[o s'] w'] evs].
  destruct (H _ _ _ _ H1 eq_refl) as (q & Hq & _). by exists (ztake 20 evs), (SSH_OK, 5), (zdrop 21 evs); split; [|exists q].
Defined.

(** C20: the tries of a connection are bounded: at most as many failures are sent as
    the configuration allows tries, and requests are only received while fewer
    were sent. *)
Theorem server_tries_bounded server kind options rounds s {W} (e : env scall sreply W) w :
  options_fit options -> env_good sreply_good e ->
  let '(_, _, evs) := run e (run_session server kind options rounds s) w in
  total refusals evs <= Z.max 0 (cfg_max_auth_tries (sv_config server)) /\
  forall pre r post, evs = pre ++ existT (Transport OpReceiveUserauth) r :: post ->
    total refusals pre < cfg_max_auth_tries (sv_config server).
Proof.
  intros Hf He. pose proof (session_counts server options Hf e He kind rounds s w) as Hc.
  destruct (run e _ w) as [[[o s'] w'] evs]. split.
  - destruct (Hc evs [] (eq_sym (app_nil_r evs))) as (_ & _ & [_ _ _ [_ H]] & _). lia.
  - intros pre r post ->. destruct (Hc pre _ eq_refl) as (_ & _ & [_ _ _ [H _]] & _ & Hp & _).
    destruct Hp as (_ & _ & _ & Hlt). by rewrite <- H.
Qed.

Lemma server_tries_bounded_witness :
  let '((o, _), w, evs) := demo_run Either demo_sftp_request demo_traffic in
  total refusals evs <= 3 /\ exists pre r post, evs = pre ++ existT (Transport OpReceiveUserauth) r :: post /\
    total refusals pre < 3.
Proof.
  assert (let '((o, _), w, evs) := demo_run Either demo_sftp_request demo_traffic in evs = ztake 14 evs ++ existT (Transport OpReceiveUserauth) (Ret demo_password_request) :: zdrop 15 evs)
    as H1 by (by vm_compute).
  pose proof (server_tries_bounded demo_ssh_server Either None 20 demo_start (demo_surroundings demo_sftp_request)
    demo_traffic I (demo_surroundings_good _)) as H.
  destruct (demo_run Either demo_sftp_request demo_traffic) as [[[o s'] w'] evs]. destruct H as [Hl Hr].
  split; [exact Hl|]. exists (ztake 14 evs), (Ret demo_password_request), (zdrop 15 evs). split; [exact H1|]. exact (Hr _ _ _ H1).
Defined.

(** C18: flow control.  Every piece of channel data fits the packet size of the peer
    and the window it has granted so far, its initial window and its adjustments,
    less what was sent before; and the window given back to the peer never exceeds
    what has been received from it. *)
Theorem server_flow_control server kind options rounds s {W} (e : env scall sreply W) w :
  options_fit options -> env_good sreply_good e ->
  let eff := effective_session_options options in
  let '(_, _, evs) := run e (run_session server kind options rounds s) w in
  (forall pre rc d r post, evs = pre ++ existT (Transport (OpSendChannelData rc d)) r :: post ->
     0 < zlen d /\ zlen (gathered sent_data pre) + zlen d <= total (granted eff) pre /\
     forall ev o, In ev pre -> opened ev = Some o -> maximum_packet_size o <> 0 -> zlen d <= maximum_packet_size o) /\
  (forall pre rc n r post, evs = pre ++ existT (Transport (OpSendWindowAdjust rc n)) r :: post ->
     0 < n /\ total offered pre + n <= zlen (gathered (received_data eff) pre)).
Proof.
  intros Hf He eff. pose proof (session_counts server options Hf e He kind rounds s w) as Hc. fold eff in Hc.
  destruct (run e _ w) as [[[o s'] w'] evs]. split.
  - intros pre rc d r post ->. destruct (Hc pre _ eq_refl) as ([_ Hs _ Ha _] & _ & _ & _ & (Hp & _ & [[H1 H2] H3] & _) & _).
    destruct Hp as (q & (_ & Hq & Hcf) & _). rewrite (Hs Hcf) in H2. split_and!; [done|lia|].
    intros ev o' Hin Ho. apply H3. by eapply Ha.
  - intros pre rc n r post ->. destruct (Hc pre _ eq_refl) as ([_ _ Hr _ _] & _ & _ & _ & (Hp & _ & H1 & H2) & _).
    destruct Hp as (q & (_ & Hq & Hcf) & _). rewrite (Hr Hcf) in H2. split; [done|lia].
Qed.

Lemma server_flow_control_witness :
  let '((o, _), w, evs) := demo_run Either demo_sftp_request demo_traffic in
  exists pre r post, evs = pre ++ existT (Transport (OpSendChannelData 7 [2])) r :: post /\
  zlen (gathered sent_data pre) + 1 <= total (granted ssh_server_session_options_defaults) pre.
Proof.
  assert (let '((o, _), w, evs) := demo_run Either demo_sftp_request demo_traffic in evs = ztake 30 evs ++ existT (Transport (OpSendChannelData 7 [2])) (Ret tt) :: zdrop 31 evs)
    as H1 by (by vm_compute).
  pose proof (server_flow_control demo_ssh_server Either None 20 demo_start (demo_surroundings demo_sftp_request)
    demo_traffic I (demo_surroundings_good _)) as H.
  destruct (demo_run Either demo_sftp_request demo_traffic) as [[[o s'] w'] evs]. destruct H as [H _].
  exists (ztake 30 evs), (Ret tt), (zdrop 31 evs). split; [exact H1|]. by destruct (H _ _ _ _ _ H1) as (_ & ? & _).
Defined.

(** C17: the data of a channel is passed on in order, without a gap, a repetition or
    an insertion, and as soon as it can be.  At every call of a session, what the
    SFTP session or the program was handed so far is what the peer sent so far but
    for the end, and what was sent so far is what they produced so far but for the
    end.  A write to the program hands it all of that end.  A request handed to the
    SFTP session is one whole message at the front of it, and no response is left
    then to be sent.  The program is read only when nothing is left to be sent, and
    what is sent is the front of what is left.  When the server waits for a message
    of the peer, a program has had everything and everything it wrote was sent, and
    the SFTP session has had every whole request or a response waits to be sent.
    While a session runs, the ends are what the receive buffer and the pending
    response of its state hold, and a response waits only for the window of the
    peer or with an empty receive buffer; when a session is over they are dropped.

    A request the SFTP session fails on is not counted as handed on; it ends the
    session.  Handed on is what the program is called with: of what it does not take, see
    [terminal_input_lost], and of output that is never read, see
    [terminal_output_cut], the server keeps nothing. *)
Theorem server_streams_exact server kind options rounds s {W} (e : env scall sreply W) w :
  options_fit options -> env_good sreply_good e ->
  let eff := effective_session_options options in
  let '((o, s'), _, evs) := run e (run_session server kind options rounds s) w in
  (forall pre c r post, evs = pre ++ existT c r :: post ->
   exists buffered pending, leaves eff pre buffered pending /\ next_in_order pre buffered pending c) /\
  (exists buffered pending, leaves eff evs buffered pending /\ (o = Ret None -> held_back s' buffered pending)).
Proof.
  intros Hf He eff. pose proof (session_counts server options Hf e He kind rounds s w) as Hc. fold eff in Hc.
  pose proof (session_runs server options Hf e He kind rounds s w) as Hr.
  destruct (run e _ w) as [[[o s'] w'] evs]. destruct Hr as (_ & _ & _ & Hr). split.
  - intros pre c r post ->. destruct (Hc pre _ eq_refl) as (_ & Hs & _ & [Hq _] & Hp).
    do 2 eexists. split; [exact Hs|]. by eapply permitted_in_order.
  - destruct (Hc evs [] (eq_sym (app_nil_r evs))) as (_ & Hs & _). do 2 eexists. split; [exact Hs|].
    intros Ho. by eapply running_held_back, Hr.
Qed.

(** Two messages of a session that still runs: the second request was handed on, two
    bytes of a third are buffered, and one byte of a response waits for window. *)
Lemma server_streams_exact_witness :
  let script := [inr demo_frame; inr (demo_frame ++ [0; 0]); inr demo_frame] in
  let '((o, s'), _, evs) :=
    run (demo_surroundings demo_sftp_request) (run_session demo_ssh_server SftpOnly None 2 demo_start) script in
  (exists pre r post, evs = pre ++ existT (SftpHandle demo_frame EMSSH_MAX_PACKET_SIZE) r :: post /\
   exists buffered pending, leaves ssh_server_session_options_defaults pre buffered pending /\
     next_in_order pre buffered pending (SftpHandle demo_frame EMSSH_MAX_PACKET_SIZE)) /\
  sftp_rx (ss_sftp s') = [0; 0] /\ sftp_tx_pending (ss_sftp s') = [2] /\
  exists buffered pending, leaves ssh_server_session_options_defaults evs buffered pending /\
    held_back s' buffered pending.
Proof.
  intros script.
  assert (let '((o, s'), _, evs) :=
    run (demo_surroundings demo_sftp_request) (run_session demo_ssh_server SftpOnly None 2 demo_start) script in
    evs = ztake 27 evs ++ existT (SftpHandle demo_frame EMSSH_MAX_PACKET_SIZE) (Ret [0; 0; 0; 1; 2]) :: zdrop 28 evs /\
    o = Ret None /\ sftp_rx (ss_sftp s') = [0; 0] /\ sftp_tx_pending (ss_sftp s') = [2]) as H1 by (by vm_compute).
  pose proof (server_streams_exact demo_ssh_server SftpOnly None 2 demo_start (demo_surroundings demo_sftp_request)
    script I (demo_surroundings_good _)) as H.
  destruct (run (demo_surroundings demo_sftp_request) _ _) as [[[o s'] w'] evs]. destruct H as [H (b & q & Hl & Hb)], H1 as (H1 & H2 & H3 & H4).
  split_and!; [|done..|by exists b, q; split; [|apply Hb]].
  exists (ztake 27 evs), (Ret [0; 0; 0; 1; 2]), (zdrop 28 evs). split; [exact H1|]. exact (H _ _ _ _ H1).
Defined.

(** C19: when a session is over, its SFTP session was closed as often as it was
    opened, and on a platform that can close programs every program that was
    started was closed. *)
Theorem server_releases server kind options rounds s {W} (e : env scall sreply W) w :
  options_fit options -> env_good sreply_good e ->
  let '((o, _), _, evs) := run e (run_session server kind options rounds s) w in
  over o ->
  total sftp_opened_by evs = 0 /\
  (term_has server term_close = true -> total programs_started_by evs = 0).
Proof.
  intros Hf He. pose proof (session_counts server options Hf e He kind rounds s w) as Hc.
  pose proof (session_runs server options Hf e He kind rounds s w) as Hr.
  destruct (run e _ w) as [[[o s'] w'] evs]. destruct Hr as (_ & _ & Hr & _). intros Ho. destruct (Hr Ho) as [Hs Ht].
  destruct (Hc evs [] (eq_sym (app_nil_r evs))) as (_ & _ & _ & [H1 H2] & _). rewrite H1, H2, Hs.
  split; [done|]. intros Hcl. by rewrite (Ht Hcl).
Qed.

Lemma server_releases_witness :
  let '((o, _), w, evs) := demo_run Either demo_sftp_request demo_traffic in
  o = Ret (Some tt) /\ total sftp_opened_by evs = 0.
Proof.
  assert (let '((o, _), w, evs) := demo_run Either demo_sftp_request demo_traffic in o = Ret (Some tt))
    as H1 by (by vm_compute).
  pose proof (server_releases demo_ssh_server Either None 20 demo_start (demo_surroundings demo_sftp_request)
    demo_traffic I (demo_surroundings_good _)) as H.
  destruct (demo_run Either demo_sftp_request demo_traffic) as [[[o s'] w'] evs]. split; [exact H1|]. apply H. rewrite H1. discriminate.
Defined.

(** ** Parts of the server *)

(** Data of [n] bytes is accepted exactly when it fits the window.  The window is
    then taken down by [n] or, when half of it or less would be left, filled up
    again with one adjustment of the missing bytes; when that cannot be sent the
    status is returned. *)
Theorem consume_window_exact r n s {W} (e : env scall sreply W) w :
  let f := flow_of r s in let left := window_size f - n in
  0 <= n -> 0 <= window_size f <= window_max_size f -> 0 < window_max_size f < 2 ^ 32 ->
  run e (consume_window r n s) w =
    if window_size f <? n then ((Err SSH_ERR_SECURITY, s), w, [])
    else if window_max_size f / 2 <? left then ((Ret tt, on_flow r (with_window_size left) s), w, [])
    else
      let c := Transport (OpSendWindowAdjust (client_channel f) (window_max_size f - left)) in
      let '(reply, w') := e c w in
      ((reply, on_flow r (with_window_size (match reply with Ret _ => window_max_size f | _ => left end)) s), w',
       [existT c reply]).
Proof.
  intros f left Hn Hw Hm. unfold consume_window, maybe_replenish_window, transport, perform, of_outcome, mbind,
    io_bind, io_get, io_reject, io_modify, io_fail. cbn. fold f.
  replace (n >? window_size f) with (window_size f <? n) by (rewrite Z.gtb_ltb; done).
  destruct (Z.ltb_spec (window_size f) n) as [?|Hle]; [done|]. cbn. unfold on_flow. rewrite flow_of_set. cbn. fold f.
  replace (u32 (window_size f - u32 n)) with left by (unfold u32; rewrite (Z.mod_small n), Z.mod_small; lia).
  rewrite (proj2 (Z.eqb_neq _ _)) by lia. cbn. rewrite Z.gtb_ltb.
  destruct (Z.ltb_spec (window_max_size f / 2) left) as [?|Hl]; [done|].
  assert (window_max_size f / 2 < window_max_size f) by (apply Z.div_lt; lia).
  replace (u32 (window_max_size f - left)) with (window_max_size f - left) by (unfold u32; rewrite Z.mod_small; lia).
  rewrite (proj2 (Z.eqb_neq _ _)) by lia. cbn. destruct (e _ w) as [[[]|err|] w']; cbn; try done.
  rewrite flow_of_set, set_flow_set. cbn. fold f. unfold with_window_size. cbn. repeat f_equal.
  unfold u32. rewrite Z.mod_small; lia.
Qed.

Lemma consume_window_exact_witness :
  let f := mk_flow 7 0 40000 65536 32768 0 0 true false false in
  let s := set_flow SftpChannel f demo_start in
  run (demo_surroundings demo_sftp_request) (consume_window SftpChannel 10000 s) [] =
    ((Ret tt, set_flow SftpChannel (with_window_size 65536 f) s), [],
     [existT (Transport (OpSendWindowAdjust 7 35536)) (Ret tt)]).
Proof.
  apply (consume_window_exact SftpChannel 10000
    (set_flow SftpChannel (mk_flow 7 0 40000 65536 32768 0 0 true false false) demo_start)
    (demo_surroundings demo_sftp_request) []); cbn; lia.
Defined.

(** What [ssh_server_init] accepts, and that the server is usable exactly then:
    with a platform, a software name, a packet size that holds the payload size and
    a known PermitRootLogin value.  Without a configuration the defaults are taken,
    which are accepted. *)
Theorem server_init_exact platform config old :
  let c := default ssh_server_config_defaults config in
  let valid := cfg_software_name c <> None /\ 0 < cfg_max_payload_size c <= cfg_max_packet_size c /\
    EMSSH_PERMIT_ROOT_LOGIN_DEFAULT <= cfg_permit_root_login c <= EMSSH_PERMIT_ROOT_LOGIN_PROHIBIT_PASSWORD in
  (forall cfg, config = Some cfg -> 0 <= cfg_max_packet_size cfg /\ 0 <= cfg_max_payload_size cfg) ->
  let '(st, server) := ssh_server_init platform config old in
  (st = SSH_OK <-> platform <> None /\ valid) /\
  (platform <> None -> sv_initialized server = bool_decide (st = SSH_OK) /\ sv_config server = c /\
     Some (sv_platform server) = platform /\ sv_diag server = zero_server_diag) /\
  (platform = None -> server = old) /\ (config = None -> valid) /\
  (st <> SSH_OK -> st = SSH_ERR_INVALID_ARGUMENT).
Proof.
  intros c valid Hc. assert (0 <= cfg_max_packet_size c /\ 0 <= cfg_max_payload_size c) as [H1 H2]
    by (subst c; destruct config as [cfg|]; [by apply Hc|done]).
  assert (config = None -> valid) as Hd by (intros ->; by vm_compute).
  unfold ssh_server_init. destruct platform as [p|]; [|by split_and!; [split; [|intros []]|..]]. fold c.
  assert (valid <-> (is_null (cfg_software_name c) || (cfg_max_packet_size c =? 0) || (cfg_max_payload_size c =? 0)
      || (cfg_max_payload_size c >? cfg_max_packet_size c)) = false /\
    ((cfg_permit_root_login c <? EMSSH_PERMIT_ROOT_LOGIN_DEFAULT)
      || (cfg_permit_root_login c >? EMSSH_PERMIT_ROOT_LOGIN_PROHIBIT_PASSWORD)) = false) as Hv.
  { subst valid. rewrite !orb_false_iff, !Z.eqb_neq, Z.ltb_ge, !Z.gtb_ltb, !Z.ltb_ge.
    destruct (cfg_software_name c); cbn; intuition (try done; lia). }
  destruct (_ || (_ >? cfg_max_packet_size c)); [|destruct (_ || _) eqn:E2].
  all: split_and!; try done; try (intros _; by split_and!); split; [try done|try by intros [_ [? ?]%Hv]].
  intros _. split; [done|]. by apply Hv.
Qed.

Lemma server_init_exact_witness :
  let c := mk_config (Some (cstr "emsshd")) 35000 35001 6 None None None None 0 None None in
  0 <= cfg_max_packet_size c /\ fst (ssh_server_init (Some zero_platform) (Some c) zero_server) = SSH_ERR_INVALID_ARGUMENT.
Proof.
  split; [done|]. set (c := mk_config _ _ _ _ _ _ _ _ _ _ _).
  pose proof (server_init_exact (Some zero_platform) (Some c) zero_server ltac:(by intros cfg [= <-])) as H.
  cbv zeta in H. destruct (ssh_server_init _ _ _) as [st sv] eqn:E. destruct H as ([H _] & _ & _ & _ & Herr).
  apply Herr. intros Hst. destruct (H Hst) as (_ & _ & [_ Hp] & _). cbn in Hp. lia.
Defined.

(** The options a session runs with: those given, with a default for every field
    that is zero or null; the result does not change when they are filled in again,
    and the window is a positive 32-bit number. *)
Theorem session_options_exact o :
  options_fit (Some o) ->
  let eff := effective_session_options (Some o) in let d := ssh_server_session_options_defaults in
  effective_session_options (Some eff) = eff /\
  0 < opt_channel_window_size eff < 2 ^ 32 /\
  opt_channel_window_size eff = (if opt_channel_window_size o =? 0 then opt_channel_window_size d else opt_channel_window_size o) /\
  opt_channel_max_packet_size eff =
    (if opt_channel_max_packet_size o =? 0 then opt_channel_max_packet_size d else opt_channel_max_packet_size o) /\
  opt_timeout_ms eff = (if opt_timeout_ms o =? 0 then opt_timeout_ms d else opt_timeout_ms o) /\
  (exists name, opt_sftp_subsystem_name eff = Some name) /\
  opt_server_channel eff = opt_server_channel o /\ opt_max_sftp_packets eff = opt_max_sftp_packets o /\
  opt_rekey_after_packets eff = opt_rekey_after_packets o /\ opt_rekey_after_bytes eff = opt_rekey_after_bytes o /\
  opt_sftp_policy eff = opt_sftp_policy o /\
  opt_non_sftp_channel_request_policy eff = opt_non_sftp_channel_request_policy o.
Proof.
  intros Hf eff d. destruct (effective_ok (Some o) Hf) as [He Hw]. fold eff in He, Hw.
  split_and!; try done; try lia. cbn. destruct (opt_sftp_subsystem_name o) as [n|]; by eexists.
Qed.

Lemma session_options_exact_witness :
  let o := mk_options None 0 3 0 0 0 0 0 false false None false in
  options_fit (Some o) /\ opt_channel_window_size (effective_session_options (Some o)) = 65536.
Proof.
  assert (options_fit (Some (mk_options None 0 3 0 0 0 0 0 false false None false))) as Hf by (by split).
  split; [exact Hf|]. by destruct (session_options_exact _ Hf) as (_ & _ & H & _).
Defined.

(** A pass over an SFTP channel leaves nothing undone.  From a channel in order, a
    pass that goes on leaves a channel in order: every whole request in the buffer
    was answered and every response sent, or the rest of a response waits for the
    window of the peer.  (Or it waits although there is window: when the receive
    buffer is empty, see [sftp_response_stalls].) *)
Theorem sftp_pass_settles eff s x {W} (e : env scall sreply W) w :
  options_ok eff -> env_good sreply_good e -> ready eff s x ->
  let '((o, s'), _, _) := run e (ssh_server_process_sftp_channel_data (Some eff) s) w in
  o <> Fault /\
  (o = Ret tt \/ o = Err SSH_ERR_NOT_FOUND ->
   (exists y, ready eff s' y) /\
   let channel := ss_sftp s' in
   (sftp_tx_pending channel = [] /\ forall pk rest, sftp_rx channel = pk ++ rest -> ~ one_frame pk) \/
   (sftp_tx_pending channel <> [] /\ (peer_window_size (sc_flow channel) = 0 \/ sftp_rx channel = []))).
Proof.
  intros Ho He Hr. pose proof (run_monitored _ _ _ e _ _ x w He (process_sftp_safe zero_server eff Ho s x Hr)) as H.
  destruct (run e _ w) as [[[o s'] w'] evs]. destruct H as [_ H].
  assert (forall y, ready eff s' y -> (exists y, ready eff s' y) /\ settled s') as Hready by (intros y Hy; split; [by exists y|apply Hy]).
  destruct o as [[]|err|]; cbn in H; [|destruct H as [_ Hq]|done].
  - split; [done|]. intros _. by apply (Hready _ H).
  - split; [done|]. intros [?|[= ->]]; [done|]. apply (Hready _ (Hq eq_refl)).
Qed.

(** A channel in order: the peer granted nine bytes, nothing was received. *)
Definition demo_flow : channel_flow := mk_flow 7 0 65536 65536 32768 9 0 true false false.
Definition demo_channel_state : server_state := set_flow SftpChannel demo_flow (set_username (cstr "alice") demo_start).
Definition demo_watch : conn_watch :=
  mk_conn (mk_auth_watch setup_done true None (Some [1; 2]) 0 (Some (cstr "alice")))
    (mk_channel_watch (Some demo_open) true 9 65536 false false [] [] false) (mk_resource_watch true None None false).

Lemma demo_channel_ready : ready ssh_server_session_options_defaults demo_channel_state demo_watch.
Proof.
  apply new_ready. split; [|by split]. split; try done. split; [|by split].
  split; try done. exists demo_open. split; [|done]. split; [by eexists|done].
Qed.

Lemma sftp_pass_settles_witness :
  let '((o, s'), _, _) := run (demo_surroundings demo_sftp_request)
    (ssh_server_process_sftp_channel_data (Some ssh_server_session_options_defaults) demo_channel_state)
    [inr (demo_frame ++ demo_frame)] in
  (sftp_rx (ss_sftp s') = [] /\ sftp_tx_pending (ss_sftp s') = [2] /\ o = Err SSH_ERR_NOT_FOUND) /\
  exists y, ready ssh_server_session_options_defaults s' y.
Proof.
  assert (let '((o, s'), _, _) := run (demo_surroundings demo_sftp_request)
    (ssh_server_process_sftp_channel_data (Some ssh_server_session_options_defaults) demo_channel_state)
    [inr (demo_frame ++ demo_frame)] in
    sftp_rx (ss_sftp s') = [] /\ sftp_tx_pending (ss_sftp s') = [2] /\ o = Err SSH_ERR_NOT_FOUND) as H1 by (by vm_compute).
  pose proof (sftp_pass_settles _ demo_channel_state demo_watch (demo_surroundings demo_sftp_request)
    [inr (demo_frame ++ demo_frame)] (effective_ok None I) (demo_surroundings_good _) demo_channel_ready) as H.
  destruct (run (demo_surroundings demo_sftp_request) _ _) as [[[o s'] w'] evs].
  split; [exact H1|]. destruct H1 as (_ & _ & ->). by apply H; right.
Defined.

(** ** What the code does not mean to do *)

(** The end of a response is not sent although the peer grants window for it: the
    window adjustment is handled without a look at the pending response when the
    receive buffer is empty, and so is a receive that times out. *)
Lemma sftp_response_stalls :
  let '(_, _, evs) := demo_run SftpOnly demo_sftp_request [inr demo_frame; inr demo_frame; inl 100] in
  gathered produced evs = gathered sent_data evs ++ [2] /\
  zlen (gathered sent_data evs) = 9 /\ total (granted ssh_server_session_options_defaults) evs = 109.
Proof. by vm_compute. Qed.

(** A terminal channel whose program runs. *)
Definition demo_terminal (peer_window : Z) : server_state :=
  on_term (set_running true TERMINAL_STATE_RUNNING)
    (on_term (set_handle 5) (set_flow TerminalChannel (with_peer_window_size peer_window demo_flow) demo_start)).
Definition demo_terminal_pass (e : env scall sreply demo_script) (peer_window : Z) (script : demo_script) :=
  run e (ssh_server_process_terminal_channel_data demo_ssh_server (demo_terminal peer_window)) script.

(** A program that has written a byte and ended. *)
Definition demo_ended : env scall sreply demo_script := fun c =>
  match c return demo_script -> sreply c * demo_script with
  | TermRead _ _ => fun w => ((SSH_OK, [42]), w)
  | TermWaitExit _ => fun w => ((SSH_OK, true, 3), w)
  | c' => demo_surroundings demo_shell_request c'
  end.

(** The output of a program that has ended is thrown away when the peer's window is
    used up: the channel is closed without reading it. *)
Lemma terminal_output_cut :
  let '((o, s), _, evs) := demo_terminal_pass demo_ended 0 [] in
  o = Err SSH_ERR_CLOSED /\ close_sent (tc_flow (ss_term s)) = true /\
  Forall (fun ev : sevent => match ev with existT (TermRead _ _) _ => False | _ => True end) evs.
Proof. vm_compute. split_and!; [done..|]. repeat (constructor; [done|]). constructor. Qed.

(** A terminal that takes none of its input. *)
Definition demo_busy : env scall sreply demo_script := fun c =>
  match c return demo_script -> sreply c * demo_script with
  | TermWrite _ _ => fun w => ((SSH_OK, 0), w)
  | c' => demo_surroundings demo_shell_request c'
  end.

(** Input the program does not take is lost: after a write of nothing the channel is
    in the same state as after a write of everything, and goes on. *)
Lemma terminal_input_lost :
  let '(r, _, _) := demo_terminal_pass demo_busy 9 [inr [1; 2; 3]] in
  let '(r', _, _) := demo_terminal_pass (demo_surroundings demo_shell_request) 9 [inr [1; 2; 3]] in
  r = r' /\ fst r = Ret tt.
Proof. by vm_compute. Qed.

(** A name that ends in a NUL is not the name root for PermitRootLogin, and is root
    for the platform, which gets it as a C string. *)
Definition demo_nul_request : ssh_userauth_request :=
  mk_userauth_request (view_of (cstr "root" ++ [0])) (view_of SSH_SERVICE_CONNECTION)
    (view_of SSH_AUTH_METHOD_PASSWORD) false (view_of (cstr "pw")) false null_view null_view null_view.
Definition demo_no_root : auth_server :=
  mk_auth_server (Some (fun r => bytes_eqb (view_bytes (pa_password r)) (cstr "pw"))) None None
    EMSSH_PERMIT_ROOT_LOGIN_NO None None None.

Lemma nul_name_is_root :
  request_ok demo_nul_request /\
  ssh_userauth_evaluate_request demo_no_root demo_nul_request (Some [1]) 1 = Ret SSH_USERAUTH_DECISION_SUCCESS /\
  spawn_username (spawn_args_of (set_username (view_bytes (username demo_nul_request)) demo_start)) = Some (cstr "root").
Proof.
  split; [|by vm_compute]. unfold request_ok, method_fields_ok, nonempty_view. rewrite decide_True by done.
  split_and!; try done; solve_view_ok.
Qed.
