(* ===== verification/ServerLink.v ===== *)
(** * The linked program

    The server model calls the transport and the SFTP session; the models of both
    are programs that call the platform.  Here they are put together: [link] is the
    environment of the server in which a transport operation runs the operation of
    Transport.v on the session, an SFTP request runs the dispatcher of SftpServer.v,
    and only the network, the crypto backend, the file system and the terminal are
    left open.  The contract that the theorems about the server assume of its
    components ([sreply_good]) is proved here from the theorems about them, and the
    theorems about the components are carried over to the whole program. *)

From S2P Require Import Prelude Interaction Buffer Platform Packet Codec Service Kex UserPolicy.
From S2P Require Import Userauth Connection Ident TransportState Transport TransportSafe TransportSession TransportQuiet.
From S2P Require Import Sftp SftpPath SftpServer SftpServerSafe SftpSession.
From S2P Require Import ServerState Server ServerSafe ServerFlow ServerSftp ServerTerminal ServerRun ServerTrace ServerSession.

(** ** The linked environment *)

(** An SFTP session that has ended: its exchanges, and the calls of its end. *)
Definition sftp_life : Type := list exchange * list (event call reply).

(** The sessions the server keeps, what has happened on them, and the worlds of the
    callbacks: the network and crypto backend, the file system, the rest. *)
Record linked {N F T : Type} : Type := mk_linked {
  lk_transport : option transport_session;
  lk_transport_calls : list (event tcall treply);
  lk_sftp : option sftp_server_session;
  lk_exchanges : list exchange;
  lk_past : list sftp_life;
  lk_net : N;
  lk_fs : F;
  lk_rest : T
}.
Arguments linked : clear implicits.

Section link.
Context (server : ssh_server) {N F T : Type}.
Context (net : env tcall treply N) (fs : env call reply F) (rest : env scall sreply T).
Abbreviation world := (linked N F T).

Definition with_transport (t : transport_session) (n : N) (evs : list (event tcall treply)) (w : world) : world :=
  mk_linked _ _ _ (Some t) (lk_transport_calls w ++ evs) (lk_sftp w) (lk_exchanges w) (lk_past w) n (lk_fs w) (lk_rest w).
Definition with_sftp_session (ses : option sftp_server_session) (xs : list exchange) (f : F) (w : world) : world :=
  mk_linked _ _ _ (lk_transport w) (lk_transport_calls w) ses xs (lk_past w) (lk_net w) f (lk_rest w).
Definition with_past (past : list sftp_life) (w : world) : world :=
  mk_linked _ _ _ (lk_transport w) (lk_transport_calls w) (lk_sftp w) (lk_exchanges w) past (lk_net w) (lk_fs w) (lk_rest w).
Definition with_rest (t : T) (w : world) : world :=
  mk_linked _ _ _ (lk_transport w) (lk_transport_calls w) (lk_sftp w) (lk_exchanges w) (lk_past w) (lk_net w) (lk_fs w) t.

(** [ssh_transport_session_init] *)
Definition link_init (algorithms : option ssh_kexinit_algorithm_set) (w : world) : outcome unit * world :=
  match ssh_transport_session_init (Some (transport_server_of server)) algorithms with
  | Ret t => (Ret tt, with_transport t (lk_net w) [] w)
  | Err e => (Err e, w)
  | Fault => (Fault, w)
  end.

(** An operation on a session that was not initialised is one on arbitrary memory. *)
Definition link_transport (op : transport_op) (w : world) : outcome (top_value op) * world :=
  match lk_transport w with
  | None => (Fault, w)
  | Some t =>
    let '((o, t'), n, evs) := run net (perform_op op t) (lk_net w) in (o, with_transport t' n evs w)
  end.

Definition link_handle (pk : list Z) (cap : Z) (w : world) : outcome (list Z) * world :=
  match lk_sftp w with
  | None => (Fault, w)
  | Some ses =>
    let '(x, ses', f) := one_packet fs cap pk ses (lk_fs w) in
    (match ex_outcome x with
     | Ret n => Ret (ztake n (default [] (ex_response x)))
     | Err e => Err e
     | Fault => Fault
     end, with_sftp_session (Some ses') (lk_exchanges w ++ [x]) f w)
  end.

Definition link_deinit (w : world) : world :=
  match lk_sftp w with
  | None => w
  | Some ses =>
    let '(_, f, evs) := run fs (sftp_server_session_deinit (SftpServer.mk_server_state ses None)) (lk_fs w) in
    with_past (lk_past w ++ [(lk_exchanges w, evs)]) (with_sftp_session None [] f w)
  end.

Definition link : env scall sreply world := fun c =>
  match c return world -> sreply c * world with
  | TransportInit algorithms => link_init algorithms
  | Transport op => link_transport op
  | TransportSessionId => fun w => (match lk_transport w with Some t => t_session_id t | None => [] end, w)
  | TransportDiag => fun w =>
      (match lk_transport w with Some t => t_diag t | None => mk_diag 0 false [] false false end, w)
  | SftpClear => fun w => (tt, with_sftp_session None [] (lk_fs w) w)
  | SftpInit => fun w =>
      (SSH_OK, with_sftp_session (Some (sftp_server_session_init (pf_fs (sv_platform server)))) [] (lk_fs w) w)
  | SftpSetPolicy => fun w =>
      (SSH_OK, with_sftp_session (option_map (sftp_server_session_set_policy true) (lk_sftp w)) (lk_exchanges w) (lk_fs w) w)
  | SftpHandle pk cap => link_handle pk cap
  | SftpDeinit => fun w => (tt, link_deinit w)
  | c' => fun w => let '(r, t) := rest c' (lk_rest w) in (r, with_rest t w)
  end.

(** Before the session. *)
Definition link_start (n : N) (f : F) (t : T) : world := mk_linked _ _ _ None [] None [] [] n f t.

(** ** The components keep the contract *)

(** What is asked of the configuration and the platform. *)
Record linkable (options : option ssh_server_session_options) (f : cipher_crypt_fn) (g : mac_compute_fn) : Prop := {
  ln_options : options_fit options;
  ln_crypto : ServerCrypto (transport_server_of server) f g;
  ln_algorithms : config_ok (transport_server_of server) (opt_algorithms (effective_session_options options));
  ln_fs : exists api, pf_fs (sv_platform server) = Some api /\ fs_close api = true /\ fs_closedir api = true;
  ln_net_good : env_good treply_good net;
  ln_fs_good : env_good reply_good fs;
  ln_rest_good : env_good sreply_good rest
}.

Definition handles_after (xs : list exchange) : list (Z * Z) := foldl (fun o x => open_after (ex_events x) o) [] xs.

(** A session that has ended: every request was answered and made only permitted
    calls, and what was opened was closed. *)
Definition life_ok (l : sftp_life) : Prop :=
  exchanges_ok EMSSH_MAX_PACKET_SIZE [] l.1 /\ open_after l.2 (handles_after l.1) = [].

Section contract.
Context (options : option ssh_server_session_options) (f : cipher_crypt_fn) (g : mac_compute_fn).
Hypothesis Hlink : linkable options f g.
Abbreviation eff := (effective_session_options options).
Abbreviation conn := (final kex_step kex_start).

Record transport_linked (t : transport_session) (calls : list (event tcall treply)) : Prop := {
  tl_session : TransportSafe.session_ok (transport_server_of server) f g t;
  tl_watched : watched t (conn calls)
}.

(** The world and the monitor of the server agree. *)
Record agrees (x : conn_watch) (past : list (event scall sreply)) (w : world) : Prop := {
  ag_setup : lk_transport w = None -> aw_setup (cw_auth x) = 0%nat;
  ag_start : aw_setup (cw_auth x) = 0%nat ->
    aw_service (cw_auth x) = false /\ aw_request (cw_auth x) = None /\ aw_user (cw_auth x) = None /\
    lk_transport w = None /\ lk_transport_calls w = [];
  ag_transport t : lk_transport w = Some t -> transport_linked t (lk_transport_calls w);
  ag_calls : accepted kex_step kex_permits kex_start (lk_transport_calls w);
  ag_id sid : In (existT TransportSessionId sid) past -> sid <> [] ->
    exists t, lk_transport w = Some t /\ t_session_id t = sid;
  ag_open : rw_sftp (cw_res x) = bool_decide (is_Some (lk_sftp w));
  ag_closed : lk_sftp w = None -> lk_exchanges w = [];
  ag_sftp ses : lk_sftp w = Some ses -> tracked ses (mk_watch [] (handles_after (lk_exchanges w)));
  ag_exchanges : exchanges_ok EMSSH_MAX_PACKET_SIZE [] (lk_exchanges w);
  ag_past : Forall life_ok (lk_past w);
  ag_served : is_Some (lk_sftp w) \/ lk_past w <> [] -> logged_in x
}.

Lemma agrees_start n f0 t : agrees conn_start [] (link_start n f0 t).
Proof. split; try done. by intros [[? ?]|?]. Qed.
(** *** Calls that concern neither the transport nor the SFTP session *)
Lemma in_snoc_id sid past (ev : event scall sreply) :
  (forall s, ev <> existT TransportSessionId s) ->
  In (existT TransportSessionId sid) (past ++ [ev]) -> In (existT TransportSessionId sid) past.
Proof. intros Hev [?|[E|[]]]%in_app_iff; [done|]. by destruct (Hev sid). Qed.

(** The two sessions are as before. *)
Record same_sessions (w w' : world) : Prop := {
  sm_transport : lk_transport w' = lk_transport w;
  sm_calls : lk_transport_calls w' = lk_transport_calls w;
  sm_sftp : lk_sftp w' = lk_sftp w;
  sm_exchanges : lk_exchanges w' = lk_exchanges w;
  sm_past : lk_past w' = lk_past w
}.

Lemma agrees_same x y past ev w w' :
  agrees x past w -> same_sessions w w' -> cw_auth y = cw_auth x -> rw_sftp (cw_res y) = rw_sftp (cw_res x) ->
  (forall s, ev <> existT TransportSessionId s) -> agrees y (past ++ [ev]) w'.
Proof.
  intros [] [E1 E2 E3 E4 E5] Ha Hr Hev.
  split; rewrite ?Ha, ?Hr, ?E1, ?E2, ?E3, ?E4, ?E5; try done.
  - intros sid Hin. apply ag_id0. by eapply in_snoc_id.
  - intros Hs. destruct (ag_served0 Hs) as [name Hn]. exists name. by rewrite Ha.
Qed.

Lemma started_same r x : cw_auth (started r x) = cw_auth x /\ rw_sftp (cw_res (started r x)) = rw_sftp (cw_res x).
Proof. unfold started. by destruct (status_bad _). Qed.

(** *** The transport *)
Lemma permits_set_up x past w op : agrees x past w -> transport_permits server eff x op -> aw_setup (cw_auth x) <> 0%nat.
Proof.
  intros [] Hp H0. destruct (ag_start0 H0) as (Hs & Hq & Hu & _).
  assert (~ logged_in x) as Hl by (intros [name Hn]; congruence).
  destruct op; cbn in Hp; unfold decides, to_peer, channel_is in Hp; rewrite ?H0, ?Hs, ?Hq in Hp; try done;
    repeat match goal with H : _ /\ _ |- _ => destruct H | H : exists _, _ |- _ => destruct H end; congruence || by apply Hl.
Qed.

Lemma must_succeed_prompt op : must_succeed op = true -> never SSH_ERR_NOT_FOUND (perform_op op).
Proof.
  intros H. destruct op; try discriminate H; clear H; cbn [perform_op].
  - apply prompt_data.
  - apply prompt_adjust.
  - apply prompt_simple.
  - apply prompt_simple.
  - apply prompt_exit_status.
Qed.

Lemma transport_step_keeps x op r :
  transport_permits server eff x op ->
  let y := conn_step eff x (Transport op) r in
  rw_sftp (cw_res y) = rw_sftp (cw_res x) /\ (aw_setup (cw_auth x) <> 0%nat -> aw_setup (cw_auth y) <> 0%nat) /\
  (logged_in x -> logged_in y).
Proof.
  intros Hp. destruct op, r; cbn; try done; (split_and!; [done|done|]); try done.
  destruct Hp as (q & sid & Hq & _). intros _. unfold logged_in. cbn. rewrite Hq. by eexists.
Qed.

Lemma final_app calls evs : conn (calls ++ evs) = final kex_step (conn calls) evs.
Proof. unfold final. by rewrite fold_left_app. Qed.

Lemma link_transport_ok x past w op :
  agrees x past w -> transport_permits server eff x op -> top_ok op ->
  let '(r, w') := link_transport op w in
  sreply_good (Transport op) r /\
  agrees (conn_step eff x (Transport op) r) (past ++ [existT (Transport op) r]) w'.
Proof.
  intros Ha Hp Ho. pose proof (permits_set_up _ _ _ _ Ha Hp) as Hset. destruct Ha, Hlink. unfold link_transport.
  destruct (lk_transport w) as [t|] eqn:Et; [|by destruct Hset; apply ag_setup0].
  destruct (ag_transport0 t eq_refl) as [Hs Hw].
  pose proof (run_monitored kex_step kex_permits treply_good net _ _ _ (lk_net w) ln_net_good0
    (safe_perform_op _ f g op (proj2 ln_algorithms0) Ho t _ Hs Hw I)) as H.
  assert (must_succeed op = true -> all_ends (fun r => fst r <> Err SSH_ERR_NOT_FOUND) (perform_op op t)) as Hq
    by (intros Hm; by apply must_succeed_prompt).
  pose proof (fun Hm => all_ends_run net _ _ (lk_net w) (Hq Hm)) as Hn.
  destruct (run net (perform_op op t) (lk_net w)) as [[[o t'] n] evs].
  destruct H as (Hacc & Hs' & Hw' & [Hid _ _] & Hv). split.
  { destruct o as [v|e|]; [done| |done]. intros Hm E. by apply (Hn Hm); subst. }
  destruct (transport_step_keeps x op o Hp) as (Er & Hset' & Hlog).
  split; cbn [lk_transport lk_transport_calls lk_sftp lk_exchanges lk_past with_transport]; try done.
  - intros H0. by destruct (Hset' Hset).
  - intros t1 [= <-]. split; [done|]. by rewrite final_app.
  - apply accepted_app. by split.
  - intros sid Hin%in_snoc_id Hsid; [|done]. destruct (ag_id0 sid Hin Hsid) as (t1 & [= <-] & E).
    exists t'. split; [done|]. rewrite <- E. apply Hid. by rewrite E.
  - by rewrite Er.
  - intros Hl. by apply Hlog, ag_served0.
Qed.

Lemma link_start_ok x past w :
  agrees x past w -> aw_setup (cw_auth x) = 0%nat ->
  let c := TransportInit (opt_algorithms eff) in
  let '(r, w') := link c w in sreply_good c r /\ agrees (conn_step eff x c r) (past ++ [existT c r]) w'.
Proof.
  intros Ha H0 c. destruct (ag_start _ _ _ Ha H0) as (_ & _ & _ & H3 & H4). cbn. unfold link_init.
  destruct (ssh_transport_session_init _ _) as [t|err|] eqn:E.
  - destruct (init_ok _ f g _ _ (ln_algorithms _ _ _ Hlink) E) as [Hs Hw]. destruct Ha. split; [done|].
    split; cbn [lk_transport lk_transport_calls lk_sftp lk_exchanges lk_past with_transport]; try done.
    + intros t' [= <-]. rewrite H4. by split.
    + by rewrite app_nil_r.
    + intros sid Hin%in_snoc_id Hsid; [|done]. destruct (ag_id0 sid Hin Hsid) as (t' & Et & _).
      by rewrite H3 in Et.
  - split; [done|]. by eapply agrees_same.
  - unfold ssh_transport_session_init in E. by case_bool.
Qed.

Lemma link_id_ok x past w :
  agrees x past w -> aw_setup (cw_auth x) = setup_done ->
  let '(r, w') := link TransportSessionId w in
  sreply_good TransportSessionId r /\
  agrees (conn_step eff x TransportSessionId r) (past ++ [existT TransportSessionId r]) w'.
Proof.
  intros Ha H0. cbn. destruct (lk_transport w) as [t|] eqn:Et; [|by rewrite (ag_setup _ _ _ Ha Et) in H0].
  destruct (ag_transport _ _ _ Ha t Et) as [Hs _]. pose proof (so_session_id _ _ _ _ Hs) as Hid. destruct Ha. split; [done|].
  split; try done.
  - intros sid [Hin|[E|[]]]%in_app_iff Hsid; [by apply ag_id0|].
    apply (f_equal (fun ev : sevent => match ev with existT TransportSessionId s => s | _ => [] end)) in E.
    by exists t.
Qed.

(** *** The SFTP session *)
Lemma exchanges_snoc cap open xs x :
  exchanges_ok cap open xs -> exchange_ok cap (foldl (fun o x => open_after (ex_events x) o) open xs) x ->
  exchanges_ok cap open (xs ++ [x]).
Proof. revert open. induction xs as [|y xs IH]; intros open; cbn; [done|]. intros [Hy Hxs] Hx. split; [done|]. by apply IH. Qed.

Lemma handles_snoc xs x : handles_after (xs ++ [x]) = open_after (ex_events x) (handles_after xs).
Proof. unfold handles_after. by rewrite foldl_app. Qed.

Lemma answered_reply pk cap o m :
  answered pk cap o m ->
  sreply_good (SftpHandle pk cap)
    (match o with Ret n => Ret (ztake n (default [] m)) | Err e => Err e | Fault => Fault end).
Proof.
  destruct o as [n|e|]; [|done|done]. intros (ty & body & rest' & -> & -> & Hc & [Hty Hb]%Forall_cons_1 & _). cbn [from_option id].
  assert (zlen (sftp_frame ty body) = 5 + zlen body) as Hl by (unfold sftp_frame; len_lia).
  rewrite <- Hl, ztake_app. split; [|by rewrite Hl].
  unfold sftp_frame. apply Forall_app_2; [apply be_bytes_byte|]. by constructor.
Qed.

Lemma sftp_present x past w : agrees x past w -> rw_sftp (cw_res x) = true -> exists ses, lk_sftp w = Some ses.
Proof. intros [] Hr. rewrite Hr in ag_open0. by apply eq_sym, bool_decide_eq_true in ag_open0. Qed.

Lemma sftp_absent x past w : agrees x past w -> rw_sftp (cw_res x) = false -> lk_sftp w = None.
Proof.
  intros [] Hr. rewrite Hr in ag_open0. apply eq_sym, bool_decide_eq_false in ag_open0.
  by destruct (lk_sftp w) as [ses|]; [destruct ag_open0; eexists|].
Qed.

(** The transport is as before. *)
Lemma agrees_sftp x y past ev (w : world) ses xs fw past' :
  agrees x past w -> cw_auth y = cw_auth x -> (forall s, ev <> existT TransportSessionId s) ->
  rw_sftp (cw_res y) = bool_decide (is_Some ses) -> (ses = None -> xs = []) ->
  (forall s, ses = Some s -> tracked s (mk_watch [] (handles_after xs))) ->
  exchanges_ok EMSSH_MAX_PACKET_SIZE [] xs -> Forall life_ok past' ->
  (is_Some ses \/ past' <> [] -> logged_in x) ->
  agrees y (past ++ [ev]) (with_past past' (with_sftp_session ses xs fw w)).
Proof.
  intros [] Ea Hev Hr Hc Ht Hx Hp Hl. split; rewrite ?Ea; try done.
  - intros sid Hin. apply ag_id0. by eapply in_snoc_id.
  - intros Hs. destruct (Hl Hs) as [name Hn]. exists name. by rewrite Ea.
Qed.

Lemma with_past_same (w : world) ses xs fw :
  with_sftp_session ses xs fw w = with_past (lk_past w) (with_sftp_session ses xs fw w).
Proof. by destruct w. Qed.

Lemma link_init_ok x past w :
  agrees x past w -> (exists o, channel_is x o) -> rw_sftp (cw_res x) = false ->
  let '(r, w') := link SftpInit w in agrees (conn_step eff x SftpInit r) (past ++ [existT SftpInit r]) w'.
Proof.
  intros Ha (o & Hl & _) Hr. destruct (ln_fs _ _ _ Hlink) as (api & Efs & H1 & H2). cbn. rewrite with_past_same, Efs.
  eapply agrees_sftp; try done; [|apply Ha].
  intros s [= <-]. apply (init_tracked api false H1 H2).
Qed.

Lemma link_policy_ok x past w :
  agrees x past w -> rw_sftp (cw_res x) = true ->
  let '(r, w') := link SftpSetPolicy w in agrees (conn_step eff x SftpSetPolicy r) (past ++ [existT SftpSetPolicy r]) w'.
Proof.
  intros Ha Hr. destruct (sftp_present _ _ _ Ha Hr) as [ses Es]. cbn. rewrite Es, with_past_same.
  eapply agrees_sftp; try done; cbn.
  - intros s [= <-]. by destruct (ag_sftp _ _ _ Ha ses Es) as [[? ?] ? ?].
  - apply Ha.
  - apply Ha.
  - intros _. apply Ha. left. by eexists.
Qed.

Lemma link_handle_ok x past w pk :
  agrees x past w -> rw_sftp (cw_res x) = true -> Forall is_byte pk ->
  let c := SftpHandle pk EMSSH_MAX_PACKET_SIZE in
  let '(r, w') := link c w in sreply_good c r /\ agrees (conn_step eff x c r) (past ++ [existT c r]) w'.
Proof.
  intros Ha Hr Hb c. destruct (sftp_present _ _ _ Ha Hr) as [ses Es]. cbn. unfold link_handle. rewrite Es.
  pose proof (one_packet_ok fs EMSSH_MAX_PACKET_SIZE pk ses (lk_fs w) _ (ln_fs_good _ _ _ Hlink) ltac:(done) Hb
    (ag_sftp _ _ _ Ha ses Es)) as H.
  destruct (one_packet _ _ _ _ _) as [[e ses'] fw]. destruct H as (_ & Hpk & [Hacc Hans] & Ht & _).
  rewrite Hpk in Hans. split; [by eapply answered_reply|]. rewrite with_past_same.
  eapply agrees_sftp; try done; cbn.
  - by destruct (match ex_outcome e with Ret _ => _ | _ => _ end).
  - by destruct (match ex_outcome e with Ret _ => _ | _ => _ end).
  - intros s [= <-]. by rewrite handles_snoc.
  - apply exchanges_snoc; [apply Ha|]. split; [done|by rewrite Hpk].
  - apply Ha.
  - intros _. apply Ha. left. by eexists.
Qed.

Lemma link_deinit_ok x past w :
  agrees x past w -> rw_sftp (cw_res x) = true ->
  agrees (conn_step eff x SftpDeinit tt) (past ++ [existT SftpDeinit tt]) (link_deinit w).
Proof.
  intros Ha Hr. destruct (sftp_present _ _ _ Ha Hr) as [ses Es]. unfold link_deinit. rewrite Es.
  pose proof (run_monitored _ _ _ fs _ _ _ (lk_fs w) (ln_fs_good _ _ _ Hlink)
    (wp_deinit ses ses None _ (ag_sftp _ _ _ Ha ses Es))) as H.
  destruct (run fs _ (lk_fs w)) as [[r fw] evs]. destruct H as (_ & _ & Hopen).
  eapply agrees_sftp; try done.
  - apply Forall_app_2; [apply Ha|]. constructor; [|done]. split; [apply Ha|exact Hopen].
  - intros _. apply Ha. left. by eexists.
Qed.

(** ** The link *)
Lemma link_keeps : env_linked (conn_step eff) (conn_permits server eff) sreply_good link agrees.
Proof.
  intros x past c w Ha Hp.
  assert (forall c' : scall, (forall w', link c' w' = let '(r, t) := rest c' (lk_rest w') in (r, with_rest t w')) ->
    (forall r, cw_auth (conn_step eff x c' r) = cw_auth x /\ rw_sftp (cw_res (conn_step eff x c' r)) = rw_sftp (cw_res x)) ->
    c' <> TransportSessionId ->
    let '(r, w') := link c' w in
    sreply_good c' r /\ agrees (conn_step eff x c' r) (past ++ [existT c' r]) w') as Houter.
  { intros c' El Hstep Hne. rewrite El. pose proof (ln_rest_good _ _ _ Hlink c' (lk_rest w)) as Hg.
    destruct (rest c' (lk_rest w)) as [r t]. split; [done|]. destruct (Hstep r).
    eapply agrees_same; try done. intros s E. by apply Hne, (f_equal (@projT1 _ _) E). }
  destruct c as [a|op| | | | | |pk cap| |?|? ?|? ?|? ?|? ? ? ? ?|? ?|?|?|?|?]; cbn [conn_permits] in Hp.
  - destruct Hp as [H0 ->]. by apply link_start_ok.
  - destruct Hp. by apply link_transport_ok.
  - by apply link_id_ok.
  - split; [done|]. by eapply agrees_same.
  - split; [done|]. cbn. rewrite with_past_same. pose proof (sftp_absent _ _ _ Ha Hp) as En.
    eapply agrees_sftp; try done; [apply Ha|].
    intros Hs. apply Ha. right. by destruct Hs as [[? ?]|?].
  - destruct Hp. split; [done|]. by apply link_init_ok.
  - split; [done|]. by apply link_policy_ok.
  - destruct Hp as (_ & _ & Hr & _ & _ & Hb & _ & ->). by apply link_handle_ok.
  - split; [done|]. by apply link_deinit_ok.
  - apply Houter; [done|intros r; apply started_same|done].
  - apply Houter; [done|intros r; apply started_same|done].
  - by apply Houter.
  - apply Houter; [done|intros r; cbn; by destruct (status_bad _)|done].
  - by apply Houter.
  - by apply Houter.
  - apply Houter; [done|intros r; cbn; by destruct (_ || _)|done].
  - by apply Houter.
  - by apply Houter.
  - by apply Houter.
Qed.

Lemma linked_runs kind rounds s n f0 t0 :
  let '((o, _), w, evs) := run link (run_session server kind options rounds s) (link_start n f0 t0) in
  let x := final (conn_step eff) conn_start evs in
  accepted (conn_step eff) (conn_permits server eff) conn_start evs /\ o <> Fault /\
  (over o -> rw_sftp (cw_res x) = false) /\ agrees x evs w.
Proof.
  pose proof (run_linked _ _ _ link agrees _ _ _ [] (link_start n f0 t0) link_keeps (agrees_start _ _ _)
    (session_wp server options (ln_options _ _ _ Hlink) kind rounds s)) as H.
  destruct (run link _ _) as [[[o s'] w] evs]. destruct H as (Ha & Ho & Hw).
  apply session_result in Ho as [Hf Hc]. split_and!; [done|done| |done]. intros Hover. by apply Hc.
Qed.
End contract.
End link.

(** ** An example

    A client that goes through the key exchange, logs in with a password, opens a
    channel for SFTP, opens a file and reads from it, all of it as bytes on the
    network: plain packets, then packets under the keys of the exchange. *)
Definition demo_linked_server : ssh_server :=
  mk_server (mk_platform true true true (Some demo_crypto_api) true true None None (Some demo_fs)
      (pf_term (sv_platform demo_ssh_server)))
    (sv_config demo_ssh_server) true zero_server_diag.

(** The packets of the client, one after the other. *)
Fixpoint demo_sealed (p : ssh_packet_protection) (payloads : list (list Z)) : list Z :=
  match payloads with
  | [] => []
  | pl :: payloads' =>
    match ssh_packet_encode_protected packet_array (Some pl) (zlen pl) None (mk_packet_io p (Some (zeros packet_array))) with
    | (Ret n, io) => packet_of n (io_mem io) ++ demo_sealed (io_prot io) payloads'
    | _ => []
    end
  end.

(** The keys the client shares with the server. *)
Definition demo_client_keys : ssh_packet_protection :=
  match ssh_transport_session_init (Some demo_transport_server) None with
  | Ret t => t_inbound (snd (fst (fst (run demo_transport_env (session_run demo_ops t) demo_handshake))))
  | _ => ssh_packet_protection_init
  end.

Definition demo_login : list (list Z) :=
  [ demo_written (ssh_service_request_encode (Some SSH_SERVICE_USERAUTH));
    request_bytes demo_password_request;
    demo_written (ssh_channel_open_session_encode 7 100000 1000);
    demo_written (ssh_channel_request_subsystem_encode 0 true (Some SSH_SUBSYSTEM_SFTP));
    demo_written (ssh_channel_data_encode 0 (Some (concat demo_packets)) (zlen (concat demo_packets))) ].
Definition demo_client : list Z := demo_handshake ++ demo_sealed demo_client_keys demo_login.

Lemma demo_linkable : linkable demo_linked_server demo_transport_env demo_env (demo_surroundings demo_sftp_request)
  None xor_cipher (sum_mac 32).
Proof.
  split; [done| | |by eexists|apply demo_transport_env_good|apply demo_env_good|apply demo_surroundings_good].
  - split; [apply _|apply (sum_mac_ok 32)|]. intros api [= <-]. done.
  - exact demo_config_ok.
Qed.

Abbreviation demo_linked_run rounds :=
  (run (link demo_linked_server demo_transport_env demo_env (demo_surroundings demo_sftp_request))
     (run_session demo_linked_server Either None rounds demo_start) (@link_start (list Z) unit demo_script demo_client tt [])).

(** ** The properties *)

(** C12: the whole program, from the bytes on the network to the calls of the file
    system.  Whatever the peer, the network, the crypto backend, the file system
    and the terminal do within their contracts, a connection of any kind never
    runs into undefined behaviour; the server's calls are in order; the key
    exchange callbacks are used in turn, in the first exchange and in every
    later one; and every SFTP request makes only calls of the file system and the
    policy that are permitted, and is answered. *)
Theorem linked_session_safe server {N F T} (net : env tcall treply N) (fs : env call reply F) (rest : env scall sreply T)
    options f g kind rounds s n f0 t0 :
  linkable server net fs rest options f g ->
  let eff := effective_session_options options in
  let '((o, _), w, evs) :=
    run (link server net fs rest) (run_session server kind options rounds s) (link_start n f0 t0) in
  o <> Fault /\
  accepted (conn_step eff) (conn_permits server eff) conn_start evs /\
  accepted kex_step kex_permits kex_start (lk_transport_calls w) /\
  Forall (exchanges_ok EMSSH_MAX_PACKET_SIZE []) (lk_exchanges w :: map fst (lk_past w)).
Proof.
  intros Hl eff. pose proof (linked_runs server net fs rest options f g Hl kind rounds s n f0 t0) as H.
  destruct (run _ _ _) as [[[o s'] w] evs]. destruct H as (Ha & Ho & _ & []). split_and!; [done..|].
  constructor; [done|]. apply Forall_map. eapply Forall_impl; [|exact ag_past0]. by intros l [? _].
Qed.

Lemma linked_session_safe_witness :
  let '((o, _), w, evs) := demo_linked_run 6 in
  accepted kex_step kex_permits kex_start (lk_transport_calls w) /\ o = Ret (Some tt) /\ lk_net w = [] /\
  map (fun l => length (fst l)) (lk_past w) = [2]%nat.
Proof.
  assert (let '((o, _), w, evs) := demo_linked_run 6 in
    o = Ret (Some tt) /\ lk_net w = [] /\ map (fun l => length (fst l)) (lk_past w) = [2]%nat) as H1 by (by vm_compute).
  pose proof (linked_session_safe _ (T:=demo_script) _ _ _ _ _ _ Either 6 demo_start demo_client tt [] demo_linkable) as H.
  destruct (demo_linked_run 6) as [[[o s'] w] evs]. cbv zeta in H. destruct H as (_ & _ & H & _). exact (conj H H1).
Defined.

(** C14: nothing stays open: when a connection is over, however it ended, its SFTP
    session is gone, and in each SFTP session it had, the calls of the requests
    and of the end opened and closed the same handles of the file system. *)
Theorem linked_files_closed server {N F T} (net : env tcall treply N) (fs : env call reply F) (rest : env scall sreply T)
    options f g kind rounds s n f0 t0 :
  linkable server net fs rest options f g ->
  let '((o, _), w, _) :=
    run (link server net fs rest) (run_session server kind options rounds s) (link_start n f0 t0) in
  over o ->
  lk_sftp w = None /\ lk_exchanges w = [] /\
  Forall (fun l : sftp_life => open_after l.2 (handles_after l.1) = []) (lk_past w).
Proof.
  intros Hl. pose proof (linked_runs server net fs rest options f g Hl kind rounds s n f0 t0) as H.
  destruct (run _ _ _) as [[[o s'] w] evs]. destruct H as (_ & _ & Hc & Ha). intros Ho.
  pose proof (sftp_absent _ _ _ _ _ _ Ha (Hc Ho)) as En. destruct Ha. split_and!; [done|by apply ag_closed0|].
  eapply Forall_impl; [|exact ag_past0]. by intros l [_ ?].
Qed.

Lemma linked_files_closed_witness :
  let '((o, _), w, _) := demo_linked_run 6 in
  (map (fun l => handles_after (fst l)) (lk_past w) = [[(SFTP_HANDLE_KIND_FILE, 7)]]) /\
  Forall (fun l : sftp_life => open_after l.2 (handles_after l.1) = []) (lk_past w).
Proof.
  assert (let '((o, _), w, _) := demo_linked_run 6 in
    o = Ret (Some tt) /\ map (fun l => handles_after (fst l)) (lk_past w) = [[(SFTP_HANDLE_KIND_FILE, 7)]]) as H1
    by (by vm_compute).
  pose proof (linked_files_closed _ (T:=demo_script) _ _ _ _ _ _ Either 6 demo_start demo_client tt [] demo_linkable) as H.
  destruct (demo_linked_run 6) as [[[o s'] w] evs]. destruct H1 as [-> H1]. split; [exact H1|].
  apply H. discriminate.
Defined.

(** C13: no file is touched for a peer that was not authenticated: when a request was
    handed to an SFTP session, or a session was opened at all, a request for
    authentication was received and evaluated as a success by the configured
    rules and callbacks, and the session identifier it was checked under, when
    there is one, is the identifier of the transport session that the request came
    through, at the time and to the end. *)
Theorem linked_login_first server {N F T} (net : env tcall treply N) (fs : env call reply F) (rest : env scall sreply T)
    options f g kind rounds s n f0 t0 :
  linkable server net fs rest options f g ->
  let '(_, w, evs) :=
    run (link server net fs rest) (run_session server kind options rounds s) (link_start n f0 t0) in
  is_Some (lk_sftp w) \/ lk_past w <> [] ->
  exists request sid,
    In (existT (Transport OpReceiveUserauth) (Ret request)) evs /\ In (existT TransportSessionId sid) evs /\
    ssh_userauth_evaluate_request (auth_server_of server) request (Some sid) (zlen sid)
      = Ret SSH_USERAUTH_DECISION_SUCCESS /\
    (sid <> [] -> exists t, lk_transport w = Some t /\ t_session_id t = sid).
Proof.
  intros Hl. pose proof (linked_runs server net fs rest options f g Hl kind rounds s n f0 t0) as H.
  destruct (run _ _ _) as [[[o s'] w] evs]. destruct H as (Hacc & _ & _ & []). intros Hs.
  assert (counts_auth server evs (final (conn_step (effective_session_options options)) conn_start evs)) as [_ _ Hu _].
  { eapply accepted_tracks; [split; cbn; try done; lia| |exact Hacc]. apply tracks_auth. }
  destruct (ag_served0 Hs) as [name Hn]. destruct (Hu name Hn) as (q & [Hq (sid & Hid & Hsucc)] & _).
  exists q, sid. split_and!; [done..|]. by apply ag_id0.
Qed.

Lemma linked_login_first_witness :
  let '(_, w, evs) := demo_linked_run 6 in
  exists request sid, In (existT (Transport OpReceiveUserauth) (Ret request)) evs /\
    ssh_userauth_evaluate_request (auth_server_of demo_linked_server) request (Some sid) (zlen sid)
      = Ret SSH_USERAUTH_DECISION_SUCCESS.
Proof.
  assert (let '(_, w, _) := demo_linked_run 6 in length (lk_past w) = 1%nat) as H1 by (by vm_compute).
  pose proof (linked_login_first _ (T:=demo_script) _ _ _ _ _ _ Either 6 demo_start demo_client tt [] demo_linkable) as H.
  destruct (demo_linked_run 6) as [[[o s'] w] evs].
  destruct H as (q & sid & Hq & _ & Hs & _); [right; intros E; rewrite E in H1; discriminate|].
  exists q, sid. exact (conj Hq Hs).
Defined.
