(* ===== verification/ConfigFile.v ===== *)
(** * The configuration file: sshd_config_file.c

    The parser of the daemon's configuration file: the values and patterns of a
    line, the [Match] blocks, the directives, the loop that cuts what the file
    system delivers into lines, and the transfer of the result to the
    configuration of the server and the options of a session.

    A string that is only read is the list of its bytes before the terminator, and a
    pointer into it the bytes from there on.  The array in which a [Match]
    expression is taken apart is written while it is read; it is modelled as an
    array, with positions ([peek], [skip_while]). *)

From S2P Require Import Prelude Interaction Buffer Platform Packet UserPolicy Userauth TransportState Transport.
From S2P Require Import Sftp SftpPath SftpServer ServerState.

(** ** Characters and strings *)
Definition is_space_char (ch : Z) : bool := (ch =? 32) || (ch =? 9) || (ch =? 13) || (ch =? 10).
Definition not_space_char (ch : Z) : bool := negb (is_space_char ch).

Definition trim_left (text : list Z) : list Z := snd (scan_until not_space_char text).

(** [while (len > 0u && is_space_char(text[len - 1u]))] *)
Fixpoint trim_right_loop (len : nat) (text : list Z) : list Z :=
  match len with
  | O => []
  | S len' => if is_space_char (byte_at text len') then trim_right_loop len' text else take len text
  end.
Definition trim_right_inplace (text : list Z) : list Z := trim_right_loop (length text) text.

Definition to_lower (c : Z) : Z := if (65 <=? c) && (c <=? 90) then c - 65 + 97 else c.

Fixpoint str_ieq (a b : list Z) : bool :=
  match a, b with
  | ca :: a', cb :: b' => if negb (to_lower ca =? to_lower cb) then false else str_ieq a' b'
  | [], [] => true
  | _, _ => false
  end.

Definition first_token_is_all (value : list Z) : bool :=
  match trim_left value with
  | [] => false
  | p =>
    let start := fst (scan_until is_space_char p) in
    (zlen start =? 3) &&
    ((byte_at start 0 =? 97) || (byte_at start 0 =? 65)) &&
    ((byte_at start 1 =? 108) || (byte_at start 1 =? 76)) &&
    ((byte_at start 2 =? 108) || (byte_at start 2 =? 76))
  end.

(** ** Patterns *)

(** The same loop as that of [username_pattern_matches]. *)
Definition pattern_matches_wildcards (pattern value : list Z) : bool :=
  default false (pattern_loop (pattern_fuel pattern value) pattern value None).

Definition is_list_separator (ch : Z) : bool := (ch =? COMMA) || is_space_char ch.
Definition EXCLAMATION : Z := 33.

(** Every pass takes at least one character of [p]. *)
Fixpoint pattern_list_loop (fuel : nat) (p value : list Z) (saw_positive matched_positive : bool) : bool :=
  let finish := if negb saw_positive then true else matched_positive in
  match fuel with
  | O => finish
  | S fuel' =>
    match snd (scan_until (fun ch => negb (is_list_separator ch)) p) with
    | [] => finish
    | c :: p' =>
      let negated := c =? EXCLAMATION in
      let '(token, rest) := scan_until is_list_separator (if negated then p' else c :: p') in
      if zlen token =? 0 then pattern_list_loop fuel' rest value saw_positive matched_positive else
      let saw := if negb negated then true else saw_positive in
      if pattern_matches_wildcards token value then
        if negated then false else pattern_list_loop fuel' rest value saw true
      else pattern_list_loop fuel' rest value saw matched_positive
    end
  end.

Definition list_pattern_matches (pattern_list : list Z) (value : option (list Z)) : bool :=
  match value with
  | None | Some [] => false
  | Some value => pattern_list_loop (S (length pattern_list)) pattern_list value false false
  end.

(** ** Numbers

    [unsigned long] is 64 bits wide. *)
Fixpoint digits_loop (max_value parsed : Z) (value : list Z) : outcome Z :=
  match value with
  | [] => Ret parsed
  | c :: value' =>
    if (c <? 48) || (c >? 57) then Err SSH_ERR_INVALID_ARGUMENT else
    let digit := c - 48 in
    if parsed >? u64 (max_value - digit) / 10 then Err SSH_ERR_INVALID_ARGUMENT else
    digits_loop max_value (u64 (parsed * 10 + digit)) value'
  end.

Definition parse_uint_in_range (value : list Z) (max_value : Z) : outcome Z :=
  if zlen value =? 0 then Err SSH_ERR_INVALID_ARGUMENT else
  parsed ← digits_loop max_value 0 value;
  if parsed =? 0 then Err SSH_ERR_INVALID_ARGUMENT else Ret parsed.

(** The same statements with 65535 for the bound. *)
Definition parse_local_port_token (token : list Z) : outcome Z :=
  if zlen token =? 0 then Err SSH_ERR_INVALID_ARGUMENT else
  parsed ← digits_loop 65535 0 token;
  if parsed =? 0 then Err SSH_ERR_INVALID_ARGUMENT else Ret (parsed mod 2 ^ 16).

Fixpoint port_list_loop (fuel : nat) (p : list Z) (local_port : Z) (saw_positive matched_positive : bool) : bool :=
  let finish := if negb saw_positive then true else matched_positive in
  match fuel with
  | O => finish
  | S fuel' =>
    match snd (scan_until (fun ch => negb (is_list_separator ch)) p) with
    | [] => finish
    | c :: p' =>
      let negated := c =? EXCLAMATION in
      let '(token, rest) := scan_until is_list_separator (if negated then p' else c :: p') in
      if (zlen token =? 0) || (zlen token >=? 16) then false else
      match parse_local_port_token token with
      | Ret parsed_port =>
        let saw := if negb negated then true else saw_positive in
        if parsed_port =? local_port then
          if negated then false else port_list_loop fuel' rest local_port saw true
        else port_list_loop fuel' rest local_port saw matched_positive
      | _ => false
      end
    end
  end.

Definition match_local_port_list (pattern_list : list Z) (local_port : Z) : bool :=
  if (zlen pattern_list =? 0) || (local_port =? 0) then false
  else port_list_loop (S (length pattern_list)) pattern_list local_port false false.

(** ** [Match] blocks *)
Definition EMSSH_SSHD_CONFIG_VALUE_MAX : Z := 512.

Record ssh_sshd_match_context : Type := mk_match_context {
  mc_user : option (list Z);
  mc_group : option (list Z);
  mc_host : option (list Z);
  mc_address : option (list Z);
  mc_local_address : option (list Z);
  mc_local_port : Z;
  mc_rdomain : option (list Z)
}.

Definition evaluate_match_criterion (keyword pattern_list : list Z) (ctx : option ssh_sshd_match_context)
    : outcome bool :=
  let is_match (field : ssh_sshd_match_context -> option (list Z)) : outcome bool :=
    Ret (match ctx with Some c => list_pattern_matches pattern_list (field c) | None => false end) in
  if str_ieq keyword (cstr "User") then is_match mc_user else
  if str_ieq keyword (cstr "Group") then is_match mc_group else
  if str_ieq keyword (cstr "Host") then is_match mc_host else
  if str_ieq keyword (cstr "Address") then is_match mc_address else
  if str_ieq keyword (cstr "LocalAddress") then is_match mc_local_address else
  if str_ieq keyword (cstr "LocalPort") then
    Ret (match ctx with Some c => match_local_port_list pattern_list (mc_local_port c) | None => false end) else
  if str_ieq keyword (cstr "RDomain") then is_match mc_rdomain else
  Err SSH_ERR_UNSUPPORTED.

(** [*p] in the array [work]. *)
Definition peek (work : list Z) (p : nat) : outcome Z :=
  match work !! p with Some c => Ret c | None => Fault end.

(** [++p] up to the terminator or a character that does not satisfy [f]. *)
Fixpoint skip_while (f : Z -> bool) (fuel : nat) (work : list Z) (p : nat) : outcome nat :=
  c ← peek work p;
  if (c =? 0) || negb (f c) then Ret p else
  match fuel with
  | O => Fault
  | S fuel' => skip_while f fuel' work (S p)
  end.
Definition skip (f : Z -> bool) (work : list Z) (p : nat) : outcome nat := skip_while f (length work) work p.

(** The string at [p]. *)
Definition string_from (work : list Z) (p : nat) : list Z := array_string (drop p work).

Fixpoint match_loop (fuel : nat) (work : list Z) (p : nat) (matched : bool) (ctx : option ssh_sshd_match_context)
    : outcome bool :=
  c ← peek work p;
  if c =? 0 then Ret matched else
  match fuel with
  | O => Fault
  | S fuel' =>
    p ← skip is_space_char work p;
    c ← peek work p;
    if c =? 0 then Ret matched else
    let negate_keyword := c =? EXCLAMATION in
    let keyword_start := if negate_keyword then S p else p in
    keyword_end ← skip not_space_char work keyword_start;
    if (keyword_end =? keyword_start)%nat then Err SSH_ERR_INVALID_ARGUMENT else
    c ← peek work keyword_end;
    if c =? 0 then Err SSH_ERR_INVALID_ARGUMENT else
    let work := <[keyword_end := 0]> work in
    arg_start ← skip is_space_char work (S keyword_end);
    c ← peek work arg_start;
    if c =? 0 then Err SSH_ERR_INVALID_ARGUMENT else
    arg_end ← skip not_space_char work arg_start;
    let work := <[arg_end := 0]> work in
    c ← peek work arg_end;
    let p := if negb (c =? 0) then S arg_end else arg_end in
    criterion_match ← evaluate_match_criterion (string_from work keyword_start) (string_from work arg_start) ctx;
    let criterion_match := if negate_keyword then negb criterion_match else criterion_match in
    match_loop fuel' work p (matched && criterion_match) ctx
  end.

Definition evaluate_match_expression (value : list Z) (ctx : option ssh_sshd_match_context) : outcome bool :=
  if (zlen value =? 0) || (zlen value >=? EMSSH_SSHD_CONFIG_VALUE_MAX) then Err SSH_ERR_INVALID_ARGUMENT else
  let work := value ++ [0] in
  p ← skip is_space_char work 0;
  if negb (first_token_is_all value) then match_loop (length work) work p true ctx else
  q ← skip not_space_char work p;
  q ← skip is_space_char work q;
  c ← peek work q;
  if negb (c =? 0) then Err SSH_ERR_INVALID_ARGUMENT else Ret true.

(** ** Directives

    A field [has_x] with its [x] is an option: the code sets both or neither.
    [port] can be set without [has_port].  The arrays for algorithm lists, which
    are cleared and not used, are left out. *)
Record ssh_sshd_config_file : Type := mk_config_file {
  cf_has_port : bool;
  cf_port : Z;
  cf_listen_address : option (list Z);
  cf_max_auth_tries : option Z;
  cf_password_authentication : option bool;
  cf_pubkey_authentication : option bool;
  cf_permit_root_login : option Z;
  cf_allow_users : option (list Z);
  cf_subsystem_name : option (list Z);
  cf_authorized_keys_file : option (list Z);
  cf_chroot_directory : option (list Z);
  cf_host_key_file : option (list Z)
}.

Definition ssh_sshd_config_file_defaults : ssh_sshd_config_file :=
  mk_config_file false 0 None None None None None None None None None None.

Definition parse_bool_value (value : list Z) : outcome bool :=
  if str_ieq value (cstr "yes") || str_ieq value (cstr "true") || str_ieq value (cstr "on") || str_ieq value (cstr "1")
  then Ret true else
  if str_ieq value (cstr "no") || str_ieq value (cstr "false") || str_ieq value (cstr "off") || str_ieq value (cstr "0")
  then Ret false else
  Err SSH_ERR_INVALID_ARGUMENT.

Definition parse_permit_root_login_value (value : list Z) : outcome Z :=
  if str_ieq value (cstr "yes") then Ret EMSSH_PERMIT_ROOT_LOGIN_YES else
  if str_ieq value (cstr "no") then Ret EMSSH_PERMIT_ROOT_LOGIN_NO else
  if str_ieq value (cstr "prohibit-password") || str_ieq value (cstr "without-password")
     || str_ieq value (cstr "forced-commands-only")
  then Ret EMSSH_PERMIT_ROOT_LOGIN_PROHIBIT_PASSWORD else
  Err SSH_ERR_INVALID_ARGUMENT.

Definition COLON : Z := 58.

(** [strrchr(value, ch)]: the bytes before the last [ch] and those behind it. *)
Definition split_last (ch : Z) (value : list Z) : option (list Z * list Z) :=
  let '(after, rest) := scan_until (fun c => c =? ch) (rev value) in
  match rest with
  | [] => None
  | _ :: before => Some (rev before, rev after)
  end.

(** The state is the object behind [port_out], [None] when it is null. *)
Definition parse_listen_address (value : list Z) (host_out_capacity : Z) : Prog (option Z) (list Z) :=
  reject (zlen value =? 0) SSH_ERR_INVALID_ARGUMENT;;
  port_out ← get_state;
  host ←
    (match value with
     | c :: value' =>
       if c =? 91 then
         let '(host, rest) := scan_until (fun c => c =? 93) value' in
         match rest with
         | [] => fail SSH_ERR_INVALID_ARGUMENT
         | _ :: rest =>
           reject (zlen host =? 0) SSH_ERR_INVALID_ARGUMENT;;
           match port_out, rest with
           | Some _, c :: d :: digits =>
             if c =? COLON then
               match parse_uint_in_range (d :: digits) 65535 with
               | Ret parsed => put_state (Some (parsed mod 2 ^ 16));; mret host
               | Err e => fail e
               | Fault => fault
               end
             else mret host
           | _, _ => mret host
           end
         end
       else
         match port_out, split_last COLON value with
         | Some _, Some (before, after) =>
           if negb (existsb (fun c => c =? COLON) after) && negb (zlen after =? 0) then
             match parse_uint_in_range after 65535 with
             | Ret parsed => put_state (Some (parsed mod 2 ^ 16));; mret before
             | Err _ => mret value
             | Fault => fault
             end
           else mret value
         | _, _ => mret value
         end
     | [] => mret value
     end);
  reject ((zlen host =? 0) || (zlen host >=? host_out_capacity)) SSH_ERR_INVALID_ARGUMENT;;
  mret host.

Definition parse_subsystem_value (value : list Z) (name_out_capacity : Z) : outcome (list Z) :=
  match trim_left value with
  | [] => Err SSH_ERR_INVALID_ARGUMENT
  | p =>
    let name := fst (scan_until is_space_char p) in
    if (zlen name =? 0) || (zlen name >=? name_out_capacity) then Err SSH_ERR_INVALID_ARGUMENT else Ret name
  end.

Definition set_string_value (dst_capacity : Z) (src : list Z) : outcome (list Z) :=
  if (zlen src =? 0) || (zlen src >=? dst_capacity) then Err SSH_ERR_INVALID_ARGUMENT else Ret src.

Definition with_port (has : bool) (v : Z) (c : ssh_sshd_config_file) : ssh_sshd_config_file :=
  mk_config_file has v (cf_listen_address c) (cf_max_auth_tries c) (cf_password_authentication c)
    (cf_pubkey_authentication c) (cf_permit_root_login c) (cf_allow_users c) (cf_subsystem_name c)
    (cf_authorized_keys_file c) (cf_chroot_directory c) (cf_host_key_file c).
Definition with_listen_address (v : list Z) (c : ssh_sshd_config_file) : ssh_sshd_config_file :=
  mk_config_file (cf_has_port c) (cf_port c) (Some v) (cf_max_auth_tries c) (cf_password_authentication c)
    (cf_pubkey_authentication c) (cf_permit_root_login c) (cf_allow_users c) (cf_subsystem_name c)
    (cf_authorized_keys_file c) (cf_chroot_directory c) (cf_host_key_file c).
Definition with_max_auth_tries (v : Z) (c : ssh_sshd_config_file) : ssh_sshd_config_file :=
  mk_config_file (cf_has_port c) (cf_port c) (cf_listen_address c) (Some v) (cf_password_authentication c)
    (cf_pubkey_authentication c) (cf_permit_root_login c) (cf_allow_users c) (cf_subsystem_name c)
    (cf_authorized_keys_file c) (cf_chroot_directory c) (cf_host_key_file c).
Definition with_password_authentication (v : bool) (c : ssh_sshd_config_file) : ssh_sshd_config_file :=
  mk_config_file (cf_has_port c) (cf_port c) (cf_listen_address c) (cf_max_auth_tries c) (Some v)
    (cf_pubkey_authentication c) (cf_permit_root_login c) (cf_allow_users c) (cf_subsystem_name c)
    (cf_authorized_keys_file c) (cf_chroot_directory c) (cf_host_key_file c).
Definition with_pubkey_authentication (v : bool) (c : ssh_sshd_config_file) : ssh_sshd_config_file :=
  mk_config_file (cf_has_port c) (cf_port c) (cf_listen_address c) (cf_max_auth_tries c)
    (cf_password_authentication c) (Some v) (cf_permit_root_login c) (cf_allow_users c) (cf_subsystem_name c)
    (cf_authorized_keys_file c) (cf_chroot_directory c) (cf_host_key_file c).
Definition with_permit_root_login (v : Z) (c : ssh_sshd_config_file) : ssh_sshd_config_file :=
  mk_config_file (cf_has_port c) (cf_port c) (cf_listen_address c) (cf_max_auth_tries c)
    (cf_password_authentication c) (cf_pubkey_authentication c) (Some v) (cf_allow_users c) (cf_subsystem_name c)
    (cf_authorized_keys_file c) (cf_chroot_directory c) (cf_host_key_file c).
Definition with_allow_users (v : list Z) (c : ssh_sshd_config_file) : ssh_sshd_config_file :=
  mk_config_file (cf_has_port c) (cf_port c) (cf_listen_address c) (cf_max_auth_tries c)
    (cf_password_authentication c) (cf_pubkey_authentication c) (cf_permit_root_login c) (Some v)
    (cf_subsystem_name c) (cf_authorized_keys_file c) (cf_chroot_directory c) (cf_host_key_file c).
Definition with_subsystem_name (v : list Z) (c : ssh_sshd_config_file) : ssh_sshd_config_file :=
  mk_config_file (cf_has_port c) (cf_port c) (cf_listen_address c) (cf_max_auth_tries c)
    (cf_password_authentication c) (cf_pubkey_authentication c) (cf_permit_root_login c) (cf_allow_users c)
    (Some v) (cf_authorized_keys_file c) (cf_chroot_directory c) (cf_host_key_file c).
Definition with_authorized_keys_file (v : list Z) (c : ssh_sshd_config_file) : ssh_sshd_config_file :=
  mk_config_file (cf_has_port c) (cf_port c) (cf_listen_address c) (cf_max_auth_tries c)
    (cf_password_authentication c) (cf_pubkey_authentication c) (cf_permit_root_login c) (cf_allow_users c)
    (cf_subsystem_name c) (Some v) (cf_chroot_directory c) (cf_host_key_file c).
Definition with_chroot_directory (v : list Z) (c : ssh_sshd_config_file) : ssh_sshd_config_file :=
  mk_config_file (cf_has_port c) (cf_port c) (cf_listen_address c) (cf_max_auth_tries c)
    (cf_password_authentication c) (cf_pubkey_authentication c) (cf_permit_root_login c) (cf_allow_users c)
    (cf_subsystem_name c) (cf_authorized_keys_file c) (Some v) (cf_host_key_file c).
Definition with_host_key_file (v : list Z) (c : ssh_sshd_config_file) : ssh_sshd_config_file :=
  mk_config_file (cf_has_port c) (cf_port c) (cf_listen_address c) (cf_max_auth_tries c)
    (cf_password_authentication c) (cf_pubkey_authentication c) (cf_permit_root_login c) (cf_allow_users c)
    (cf_subsystem_name c) (cf_authorized_keys_file c) (cf_chroot_directory c) (Some v).

(** [rc = parse(...); if (rc != SSH_OK) return rc;] and the assignments behind it. *)
Definition assign {A} (parsed : outcome A) (set : A -> ssh_sshd_config_file -> ssh_sshd_config_file)
    : Prog ssh_sshd_config_file unit := fun c =>
  match parsed with
  | Ret v => (Ret tt, set v c)
  | Err e => (Err e, c)
  | Fault => (Fault, c)
  end.

(** The port that was parsed stays when the host is refused. *)
Definition assign_listen_address (value : list Z) : Prog ssh_sshd_config_file unit := fun c =>
  let port_out := if cf_has_port c then None else Some (cf_port c) in
  let '(host, port_out) := parse_listen_address value EMSSH_SSHD_CONFIG_VALUE_MAX port_out in
  let c := match port_out with Some p => with_port (cf_has_port c) p c | None => c end in
  match host with
  | Ret host =>
    let c := with_listen_address host c in
    (Ret tt, if negb (cf_has_port c) && negb (cf_port c =? 0) then with_port true (cf_port c) c else c)
  | Err e => (Err e, c)
  | Fault => (Fault, c)
  end.

Definition parse_one_directive (key value : list Z) : Prog ssh_sshd_config_file unit :=
  let text := set_string_value EMSSH_SSHD_CONFIG_VALUE_MAX value in
  if str_ieq key (cstr "Port") then assign (parse_uint_in_range value 65535) (fun p => with_port true (p mod 2 ^ 16)) else
  if str_ieq key (cstr "ListenAddress") then assign_listen_address value else
  if str_ieq key (cstr "MaxAuthTries") then assign (parse_uint_in_range value 255) with_max_auth_tries else
  if str_ieq key (cstr "PasswordAuthentication") then assign (parse_bool_value value) with_password_authentication else
  if str_ieq key (cstr "PubkeyAuthentication") then assign (parse_bool_value value) with_pubkey_authentication else
  if str_ieq key (cstr "PermitRootLogin") then
    assign (parse_permit_root_login_value value) with_permit_root_login else
  if str_ieq key (cstr "AllowUsers") then assign text with_allow_users else
  if str_ieq key (cstr "Subsystem") then
    assign (parse_subsystem_value value EMSSH_SSHD_CONFIG_VALUE_MAX) with_subsystem_name else
  if str_ieq key (cstr "AuthorizedKeysFile") then assign text with_authorized_keys_file else
  if str_ieq key (cstr "ChrootDirectory") then assign text with_chroot_directory else
  if str_ieq key (cstr "HostKey") then assign text with_host_key_file else
  mret tt.

(** ** Lines *)

(** The configuration so far, and whether the directives apply. *)
Record parse_state : Type := mk_parse {
  ps_config : ssh_sshd_config_file;
  ps_match_block_active : bool
}.

(** The quotes around a value are taken off. *)
Definition unquote (value : list Z) : list Z :=
  match value with
  | q :: value' =>
    if ((q =? 34) || (q =? 39)) && (zlen value >=? 2) && (byte_at value (length value - 1) =? q)
    then take (length value' - 1) value'
    else value
  | [] => []
  end.

Definition parse_line_inplace (line : list Z) (match_context : option ssh_sshd_match_context)
    : Prog parse_state unit := fun s =>
  let line := fst (scan_until (fun c => c =? 35) line) in
  let text := trim_left (trim_right_inplace line) in
  if zlen text =? 0 then (Ret tt, s) else
  let '(key, rest) := scan_until (fun c => is_space_char c || (c =? 61)) text in
  match rest with
  | [] => (Ret tt, s)
  | _ :: rest =>
    let value := snd (scan_until (fun c => negb (is_space_char c || (c =? 61))) rest) in
    let value := trim_left (trim_right_inplace value) in
    if zlen value =? 0 then (Err SSH_ERR_INVALID_ARGUMENT, s) else
    let value := unquote value in
    if str_ieq key (cstr "Match") then
      match evaluate_match_expression value match_context with
      | Ret is_match => (Ret tt, mk_parse (ps_config s) is_match)
      | Err e => (Err e, s)
      | Fault => (Fault, s)
      end
    else if negb (ps_match_block_active s) then (Ret tt, s)
    else
      let '(o, config) := parse_one_directive key value (ps_config s) in
      (o, mk_parse config (ps_match_block_active s))
  end.

(** ** Loading a file *)

(** The characters of the line that is being read, [line] up to [line_len], and
    the state of the parser. *)
Record read_state : Type := mk_read {
  rd_line : list Z;
  rd_parse : parse_state
}.
Abbreviation ReadM := (IO call reply read_state).

Definition CONFIG_CHUNK_SIZE : Z := 512.
Definition CONFIG_LINE_SIZE : Z := 1024.

Section load.
Context (match_context : option ssh_sshd_match_context).

(** [line[line_len] = '\0'; status = parse_line_inplace(line, ...);] *)
Definition parse_line : ReadM unit := fun s =>
  let '(o, p) := parse_line_inplace (array_string (rd_line s)) match_context (rd_parse s) in
  Done (o, mk_read (rd_line s) p).

(** The loop over the characters of a chunk. *)
Fixpoint feed_chunk (chunk : list Z) : ReadM unit :=
  match chunk with
  | [] => mret tt
  | c :: chunk' =>
    if c =? 10 then
      parse_line;;
      io_modify (fun s => mk_read [] (rd_parse s));;
      feed_chunk chunk'
    else
      line ← io_get rd_line;
      io_reject (zlen line + 1 >=? CONFIG_LINE_SIZE) SSH_ERR_BUFFER_TOO_SMALL;;
      io_modify (fun s => mk_read (line ++ [c]) (rd_parse s));;
      feed_chunk chunk'
  end.

(** [(void)fs->close(fs->ctx, handle); return status;] when a chunk is refused. *)
Definition or_close (handle : Z) (p : ReadM unit) : ReadM unit :=
  r ← attempt p;
  match r with
  | inl status => perform (FsClose handle);; io_fail status
  | inr _ => mret tt
  end.

(** [None]: the file goes on after [rounds] reads.  The first [read_len] bytes of
    the array are read; those behind what was stored have no value. *)
Fixpoint read_loop (rounds : nat) (handle : Z) : ReadM (option unit) :=
  match rounds with
  | O => mret None
  | S rounds' =>
    r ← perform (FsRead handle CONFIG_CHUNK_SIZE);
    let '(status, chunk, read_len) := r in
    if status_bad status then perform (FsClose handle);; io_fail status else
    if read_len =? 0 then mret (Some tt) else
    if (read_len <? 0) || (read_len >? zlen chunk) then of_outcome Fault else
    or_close handle (feed_chunk (ztake read_len chunk));;
    read_loop rounds' handle
  end.

Definition read_and_parse_file_via_fs (fs : option ssh_fs_api) (path : option (list Z)) (rounds : nat)
    : ReadM (option unit) :=
  match fs, path with
  | Some api, Some path =>
    io_reject (negb (fs_open api) || negb (fs_read api) || negb (fs_close api)) SSH_ERR_INVALID_ARGUMENT;;
    r ← perform (FsOpen path SSH_FXF_READ);
    let '(status, handle) := r in
    if status_bad status then io_fail status else
    finished ← read_loop rounds handle;
    match finished with
    | None => mret None
    | Some _ =>
      line ← io_get rd_line;
      (if negb (zlen line =? 0) then or_close handle parse_line else mret tt);;
      perform (FsClose handle);;
      mret (Some tt)
    end
  | _, _ => io_fail SSH_ERR_INVALID_ARGUMENT
  end.
End load.

(** The status and the configuration that is stored. *)
Definition ssh_sshd_config_file_load_with_match_context (fs : option ssh_fs_api) (path : option (list Z))
    (match_context : option ssh_sshd_match_context) (rounds : nat)
    : tree call reply (outcome (option unit) * ssh_sshd_config_file) :=
  tree_bind
    (read_and_parse_file_via_fs match_context fs path rounds
       (mk_read [] (mk_parse ssh_sshd_config_file_defaults true)))
    (fun '(o, s) => Done (o, ps_config (rd_parse s))).

Definition ssh_sshd_config_file_load (fs : option ssh_fs_api) (path : option (list Z)) (rounds : nat)
    : tree call reply (outcome (option unit) * ssh_sshd_config_file) :=
  ssh_sshd_config_file_load_with_match_context fs path None rounds.

(** ** Applying a configuration

    The objects behind the pointers, [None] for a null pointer. *)
Record config_targets : Type := mk_targets {
  tg_server_config : option ssh_server_config;
  tg_session_options : option ssh_server_session_options;
  tg_port : option Z;
  tg_chroot_directory : option (option (list Z));
  tg_host_key_file : option (option (list Z))
}.

(** [if (config->has_x) y = config->x;] *)
Definition override {A B} (x : option A) (set : A -> B -> B) (y : B) : B :=
  match x with Some v => set v y | None => y end.

Definition apply_server_config (config : ssh_sshd_config_file) (c : ssh_server_config) : ssh_server_config :=
  mk_config (cfg_software_name c) (cfg_max_packet_size c) (cfg_max_payload_size c)
    (override (cf_max_auth_tries config) (fun v _ => v) (cfg_max_auth_tries c))
    (override (cf_listen_address config) (fun v _ => Some v) (cfg_listen_address c))
    (override (cf_password_authentication config) (fun v old => if negb v then None else old) (cfg_password_auth c))
    (override (cf_pubkey_authentication config) (fun v old => if negb v then None else old) (cfg_publickey_auth c))
    (cfg_publickey_signature_algorithms c)
    (override (cf_permit_root_login config) (fun v _ => v) (cfg_permit_root_login c))
    (override (cf_allow_users config) (fun v _ => Some v) (cfg_allow_users c))
    (override (cf_authorized_keys_file config) (fun v _ => Some v) (cfg_authorized_keys_file c)).

Definition set_subsystem_name (v : list Z) (o : ssh_server_session_options) : ssh_server_session_options :=
  mk_options (opt_algorithms o) (opt_timeout_ms o) (opt_server_channel o) (opt_channel_window_size o)
    (opt_channel_max_packet_size o) (opt_max_sftp_packets o) (opt_rekey_after_packets o) (opt_rekey_after_bytes o)
    (opt_sftp_policy o) (opt_non_sftp_channel_request_policy o) (Some v) (opt_sftp_trace_enabled o).

Definition ssh_sshd_config_file_apply (config : option ssh_sshd_config_file) (t : config_targets)
    : ssh_status * config_targets :=
  match config with
  | None => (SSH_ERR_INVALID_ARGUMENT, t)
  | Some config =>
    (SSH_OK,
     mk_targets (option_map (apply_server_config config) (tg_server_config t))
       (option_map (override (cf_subsystem_name config) set_subsystem_name) (tg_session_options t))
       (option_map (fun port => if cf_has_port config then cf_port config else port) (tg_port t))
       (option_map (override (cf_chroot_directory config) (fun v _ => Some v)) (tg_chroot_directory t))
       (option_map (override (cf_host_key_file config) (fun v _ => Some v)) (tg_host_key_file t)))
  end.
