(* ===== verification/ConfigValues.v ===== *)
(** * The configuration file: numbers and pattern lists

    What the numbers and the comma-separated lists of a configuration file mean,
    as definitions on the words of the text, and that the scanning loops of
    [ConfigFile] compute it. *)

From S2P Require Import Prelude Interaction Buffer Platform Packet UserPolicy Userauth TransportState Transport.
From S2P Require Import Sftp SftpPath SftpServer ServerState ConfigFile.

(** ** Numbers *)
Definition is_digit (c : Z) : bool := (48 <=? c) && (c <=? 57).
Definition decimal_from (acc : Z) (text : list Z) : Z := fold_left (fun n c => n * 10 + (c - 48)) text acc.
Definition decimal (text : list Z) : Z := decimal_from 0 text.
(** The text is a number from 1 to [max_value]. *)
Definition number_in_range (text : list Z) (max_value : Z) : bool :=
  forallb is_digit text && (1 <=? decimal text) && (decimal text <=? max_value).

Lemma decimal_from_grows text acc : 0 <= acc -> forallb is_digit text = true -> acc <= decimal_from acc text.
Proof.
  revert acc. induction text as [|c text IH]; intros acc Ha; [cbn; lia|]. intros [Hc Ht]%andb_prop.
  assert (48 <= c <= 57) by (unfold is_digit in Hc; bool_lia). change (decimal_from acc (c :: text)) with (decimal_from (acc * 10 + (c - 48)) text).
  specialize (IH (acc * 10 + (c - 48)) ltac:(lia) Ht). lia.
Qed.

Lemma digits_loop_exact max_value text acc :
  9 <= max_value < 2 ^ 64 -> 0 <= acc <= max_value ->
  digits_loop max_value acc text =
    if forallb is_digit text && (decimal_from acc text <=? max_value) then Ret (decimal_from acc text)
    else Err SSH_ERR_INVALID_ARGUMENT.
Proof.
  intros Hm. revert acc. induction text as [|c text IH]; intros acc Ha; cbn [digits_loop forallb].
  { by rewrite (proj2 (Z.leb_le _ _)) by (cbn; lia). }
  change (decimal_from acc (c :: text)) with (decimal_from (acc * 10 + (c - 48)) text).
  replace ((c <? 48) || (c >? 57)) with (negb (is_digit c)) by (unfold is_digit; bool_lia).
  destruct (is_digit c) eqn:Hc; cbn [negb andb]; [|done].
  assert (48 <= c <= 57) by (unfold is_digit in Hc; bool_lia).
  unfold u64 at 1. rewrite (Z.mod_small (max_value - _)) by lia.
  pose proof (Z.div_mod (max_value - (c - 48)) 10 ltac:(lia)). pose proof (Z.mod_pos_bound (max_value - (c - 48)) 10 ltac:(lia)).
  destruct (acc >? (max_value - (c - 48)) / 10) eqn:Eg.
  - destruct (forallb is_digit text) eqn:Ht; [|done]. cbn [andb].
    pose proof (decimal_from_grows text (acc * 10 + (c - 48)) ltac:(lia) Ht).
    by rewrite (proj2 (Z.leb_gt _ _)) by lia.
  - unfold u64. rewrite Z.mod_small by lia. apply IH. lia.
Qed.

Lemma nonzero_number max_value text :
  9 <= max_value < 2 ^ 64 ->
  (if zlen text =? 0 then Err SSH_ERR_INVALID_ARGUMENT else
   parsed ← digits_loop max_value 0 text;
   if parsed =? 0 then Err SSH_ERR_INVALID_ARGUMENT else Ret parsed) =
  if number_in_range text max_value then Ret (decimal text) else Err SSH_ERR_INVALID_ARGUMENT.
Proof.
  intros Hm. unfold number_in_range. destruct text as [|c text]; [done|].
  rewrite (proj2 (Z.eqb_neq (zlen _) 0)) by (rewrite zlen_cons; pose proof (zlen_nonneg text); lia).
  rewrite digits_loop_exact by lia. change (decimal_from 0 (c :: text)) with (decimal (c :: text)).
  destruct (forallb is_digit (c :: text)) eqn:Hd; cbn [andb]; [|done].
  pose proof (decimal_from_grows (c :: text) 0 ltac:(lia) Hd). change (decimal_from 0 (c :: text)) with (decimal (c :: text)) in *.
  destruct (decimal (c :: text) <=? max_value); cbn [mbind outcome_bind]; [|by rewrite andb_false_r].
  destruct (Z.eqb_spec (decimal (c :: text)) 0) as [->|]; [done|]. by rewrite (proj2 (Z.leb_le 1 _)) by lia.
Qed.

Lemma parse_uint_number max_value text :
  9 <= max_value < 2 ^ 64 ->
  parse_uint_in_range text max_value =
    if number_in_range text max_value then Ret (decimal text) else Err SSH_ERR_INVALID_ARGUMENT.
Proof. apply nonzero_number. Qed.

Lemma number_bounds text max_value : number_in_range text max_value = true -> 1 <= decimal text <= max_value.
Proof. unfold number_in_range. intros [[_ ?]%andb_prop ?]%andb_prop. lia. Qed.

Lemma parse_port_number text :
  parse_local_port_token text =
    if number_in_range text 65535 then Ret (decimal text) else Err SSH_ERR_INVALID_ARGUMENT.
Proof.
  pose proof (nonzero_number 65535 text ltac:(lia)) as H. unfold parse_local_port_token.
  destruct (zlen text =? 0); [exact H|].
  destruct (digits_loop 65535 0 text) as [n|e|]; cbn [mbind outcome_bind] in *; [|exact H|exact H].
  destruct (n =? 0); [exact H|]. destruct (number_in_range text 65535) eqn:E; [|done].
  apply number_bounds in E. injection H as ->. by rewrite Z.mod_small by lia.
Qed.

(** ** Lists *)

(** A word of a list is a pattern, or an exclamation mark and a pattern. *)
Definition list_item (word : list Z) : bool * list Z :=
  match word with
  | c :: rest => if c =? EXCLAMATION then (true, rest) else (false, word)
  | [] => (false, [])
  end.
Definition list_items (text : list Z) : list (bool * list Z) :=
  map list_item (filter (fun w => w <> []) (split_on is_list_separator text)).

(** No negated pattern matches, and one of the others does if there are any. *)
Definition items_match (matches : list Z -> bool) (items : list (bool * list Z)) : bool :=
  negb (existsb (fun it => fst it && matches (snd it)) items) &&
  (negb (existsb (fun it => negb (fst it)) items) || existsb (fun it => negb (fst it) && matches (snd it)) items).

Definition nonempty_items (items : list (bool * list Z)) : list (bool * list Z) :=
  filter (fun it => snd it <> []) items.

Definition port_word (word : list Z) : bool := (zlen word <? 16) && number_in_range word 65535.

Lemma list_items_sep b l : is_list_separator b = true -> list_items (b :: l) = list_items l.
Proof. intros E. unfold list_items. cbn [split_on]. by rewrite E, filter_cons_False by naive_solver. Qed.

Lemma skip_list_separators l :
  let l' := snd (scan_until (fun ch => negb (is_list_separator ch)) l) in
  list_items l' = list_items l /\ (length l' <= length l)%nat /\
  match l' with [] => True | b :: _ => is_list_separator b = false end.
Proof.
  cbv zeta. induction l as [|b l IH]; [done|]. cbn [scan_until].
  destruct (is_list_separator b) eqn:E; cbn [negb].
  - destruct (scan_until _ l) as [tok rest]. cbn [snd] in *. destruct IH as (E1 & E2 & E3).
    rewrite E1, (list_items_sep b l E). split_and!; [done|cbn; lia|done].
  - cbn [snd]. done.
Qed.

(** The first item, as the loops read it, and the text behind it. *)
Lemma list_items_first c l :
  is_list_separator c = false ->
  let negated := c =? EXCLAMATION in
  let '(token, rest) := scan_until is_list_separator (if negated then l else c :: l) in
  list_items (c :: l) = (negated, token) :: list_items rest /\ (length rest <= length l)%nat.
Proof.
  intros Hc. cbv zeta.
  assert (forall w r, scan_until is_list_separator (c :: l) = (w, r) -> w <> [] ->
    list_items (c :: l) = list_item w :: list_items r) as Hfirst.
  { intros w r E Hw. pose proof (scan_until_split is_list_separator (c :: l)) as Hs. rewrite E in Hs.
    destruct Hs as (Es & _ & Hr). unfold list_items at 1. rewrite Es, filter_cons_True by done. cbn [map]. f_equal.
    destruct Hr as [->|(b & r' & -> & Hb)]; [done|]. by rewrite list_items_sep. }
  pose proof (scan_until_split is_list_separator l) as Hs. destruct (scan_until is_list_separator l) as [w r] eqn:E.
  destruct Hs as (_ & El & _). assert (length r <= length l)%nat by (rewrite El, length_app; lia).
  assert (scan_until is_list_separator (c :: l) = (c :: w, r)) as Ec by (cbn [scan_until]; by rewrite Hc, E).
  specialize (Hfirst _ _ Ec ltac:(done)). destruct (c =? EXCLAMATION) eqn:Ex; cbn [list_item] in Hfirst; rewrite Ex in Hfirst.
  - rewrite E. done.
  - rewrite Ec. done.
Qed.

(** The end of both loops, after the flags [saw] and [matched] were set on the way. *)
Definition items_match_from (matches : list Z -> bool) (saw matched : bool) (items : list (bool * list Z)) : bool :=
  negb (existsb (fun it => fst it && matches (snd it)) items) &&
  (negb (saw || existsb (fun it => negb (fst it)) items) || matched || existsb (fun it => negb (fst it) && matches (snd it)) items).

Lemma items_match_step matches saw matched negated token items :
  items_match_from matches saw matched ((negated, token) :: items) =
    if matches token then
      if negated then false else items_match_from matches true true items
    else items_match_from matches (if negb negated then true else saw) matched items.
Proof.
  unfold items_match_from. cbn [existsb fst snd].
  destruct negated, (matches token); cbn [negb andb orb]; rewrite ?orb_true_r, ?andb_false_r; try done.
Qed.

Lemma pattern_list_loop_exact fuel l value saw matched :
  (length l < fuel)%nat -> (matched = true -> saw = true) ->
  pattern_list_loop fuel l value saw matched =
    items_match_from (fun t => pattern_matches_wildcards t value) saw matched (nonempty_items (list_items l)).
Proof.
  revert l saw matched. induction fuel as [|fuel IH]; intros l saw matched Hf Hm; [lia|]. cbn [pattern_list_loop].
  destruct (skip_list_separators l) as (E & Hl & Hns). rewrite <- E.
  destruct (snd (scan_until _ l)) as [|c l'].
  { cbn. destruct saw, matched; cbn in *; try done. }
  pose proof (list_items_first c l' Hns) as Hi. cbv zeta in Hi.
  destruct (scan_until is_list_separator _) as [token rest]. destruct Hi as [-> Hr]. cbn [length] in Hl.
  destruct (Z.eqb_spec (zlen token) 0) as [Et|Et].
  { apply zlen_zero_inv in Et as ->. rewrite IH by (done || lia). done. }
  unfold nonempty_items. rewrite filter_cons_True by (cbn; by intros ->). fold (nonempty_items (list_items rest)).
  rewrite items_match_step. destruct (pattern_matches_wildcards token value), (c =? EXCLAMATION); cbn [negb]; try done.
  all: apply IH; [lia|]; auto.
Qed.

Lemma port_list_loop_exact fuel l port saw matched :
  (length l < fuel)%nat -> (matched = true -> saw = true) -> 0 < port ->
  port_list_loop fuel l port saw matched =
    forallb (fun it => port_word (snd it)) (list_items l) &&
    items_match_from (fun t => decimal t =? port) saw matched (list_items l).
Proof.
  revert l saw matched. induction fuel as [|fuel IH]; intros l saw matched Hf Hm Hp; [lia|]. cbn [port_list_loop].
  destruct (skip_list_separators l) as (E & Hl & Hns). rewrite <- E.
  destruct (snd (scan_until _ l)) as [|c l'].
  { cbn. destruct saw, matched; cbn in *; try done. }
  pose proof (list_items_first c l' Hns) as Hi. cbv zeta in Hi.
  destruct (scan_until is_list_separator _) as [token rest]. destruct Hi as [-> Hr]. cbn [length forallb snd] in *.
  rewrite parse_port_number, items_match_step. unfold port_word at 1.
  replace ((zlen token =? 0) || (zlen token >=? 16)) with ((zlen token =? 0) || negb (zlen token <? 16)) by bool_lia.
  destruct (Z.eqb_spec (zlen token) 0) as [->%zlen_zero_inv|_]; [done|].
  destruct (zlen token <? 16); cbn [orb negb andb]; [|done].
  destruct (number_in_range token 65535); cbn [andb]; [|done].
  destruct (decimal token =? port), (c =? EXCLAMATION); cbn [negb]; rewrite ?andb_false_r; try done.
  all: apply IH; [lia|auto|done].
Qed.

(** ** The properties *)

(** A number of the configuration file, for every text and every bound the
    parser uses: it is accepted exactly when it is all digits and its decimal value
    is between 1 and the bound, and that value is returned; no intermediate result
    wraps around. *)
Theorem parse_uint_exact text max_value :
  9 <= max_value < 2 ^ 64 ->
  (forall n, parse_uint_in_range text max_value = Ret n <->
     forallb is_digit text = true /\ decimal text = n /\ 1 <= n <= max_value) /\
  (forall n, parse_local_port_token text = Ret n <-> parse_uint_in_range text 65535 = Ret n) /\
  parse_uint_in_range text max_value <> Fault.
Proof.
  intros Hm. rewrite parse_uint_number by done. split_and!.
  - intros n. unfold number_in_range.
    destruct (forallb is_digit text); cbn [andb]; [|naive_solver].
    destruct (Z.leb_spec 1 (decimal text)), (Z.leb_spec (decimal text) max_value); cbn [andb];
      (split; [by intros [= <-]|intros (_ & <- & ?)]; try done; lia).
  - intros n. by rewrite parse_port_number, parse_uint_number.
  - by destruct (number_in_range text max_value).
Qed.

Lemma parse_uint_exact_witness :
  parse_uint_in_range (cstr "0022") 65535 = Ret 22 /\ parse_uint_in_range (cstr "65536") 65535 <> Ret 65536.
Proof.
  split; [apply (parse_uint_exact (cstr "0022") 65535); [lia|by vm_compute]|].
  intros E. apply (parse_uint_exact (cstr "65536") 65535) in E as (_ & _ & ?); lia.
Defined.

(** The lists of a [Match] criterion, read as their words: a negated pattern that
    matches refuses, and one of the others must match if there are any; where the value
    has no star byte, a pattern matches exactly its instances.  A list of ports
    is refused as a whole when one of its words is not a port. *)
Theorem match_lists_exact l value port :
  list_pattern_matches l (Some value) =
    negb (zlen value =? 0) &&
    items_match (fun t => pattern_matches_wildcards t value) (nonempty_items (list_items l)) /\
  (Forall (fun c => c <> STAR) value ->
   forall t, pattern_matches_wildcards t value = true <-> glob t value) /\
  (0 < port ->
   match_local_port_list l port =
     negb (zlen l =? 0) && forallb (fun it => port_word (snd it)) (list_items l) &&
     items_match (fun t => decimal t =? port) (list_items l)).
Proof.
  split_and!.
  - unfold list_pattern_matches. destruct value as [|c value]; [done|].
    rewrite (proj2 (Z.eqb_neq (zlen _) 0)) by (rewrite zlen_cons; pose proof (zlen_nonneg value); lia).
    rewrite pattern_list_loop_exact by (done || lia). unfold items_match_from, items_match. cbn [orb]. by rewrite orb_false_r.
  - intros Hv t. by apply (pattern_matches_glob t value).
  - intros Hp. unfold match_local_port_list. rewrite (proj2 (Z.eqb_neq port 0)), orb_false_r by lia.
    destruct (zlen l =? 0); [done|]. rewrite port_list_loop_exact by (done || lia).
    unfold items_match_from, items_match. cbn [orb]. by rewrite orb_false_r.
Qed.

Lemma match_lists_exact_witness :
  list_pattern_matches (cstr "10.*, !10.0.0.1") (Some (cstr "10.0.0.1")) = false /\
  glob (cstr "10.*") (cstr "10.0.0.1") /\
  match_local_port_list (cstr "22,!2200") 22 = true.
Proof.
  destruct (match_lists_exact (cstr "10.*, !10.0.0.1") (cstr "10.0.0.1") 22) as (E & Hg & _).
  destruct (match_lists_exact (cstr "22,!2200") [] 22) as (_ & _ & Hp).
  split; [rewrite E; by vm_compute|]. split.
  - apply Hg; [apply (bool_decide_unpack _); by vm_compute|by vm_compute].
  - rewrite Hp by lia. by vm_compute.
Defined.
