(* ===== verification/ConfigMatch.v ===== *)
(** * The configuration file: [Match] lines

    Names compared without case, and what the expression of a [Match] line is taken for:
    its first criterion, whatever stands behind it; for an expression of one criterion
    that is what Doc/Plan/sshd_config_file_supported_options.md says. *)

From S2P Require Import Prelude Interaction Buffer Platform Packet UserPolicy Userauth Ident TransportState Transport.
From S2P Require Import Sftp SftpPath SftpServer ServerState ConfigFile ConfigValues.

Definition text (l : list Z) : Prop := Forall (fun c => c <> 0) l.

(** ** Names *)
Lemma str_ieq_lower a b : str_ieq a b = bool_decide (map to_lower a = map to_lower b).
Proof.
  revert b. induction a as [|ca a IH]; intros [|cb b]; cbn [str_ieq map]; [done|done|done|].
  destruct (Z.eqb_spec (to_lower ca) (to_lower cb)) as [E|E]; cbn [negb].
  - rewrite IH, E. apply bool_decide_ext. split; congruence.
  - rewrite bool_decide_false; [done|]. by intros [= ?].
Qed.

(** The first word of a text, and what follows it. *)
Definition first_word (l : list Z) : list Z * list Z := scan_until is_space_char (trim_left l).

Lemma lower_is c l u : 97 <= l <= 122 -> u = l - 32 -> (to_lower c =? l) = (c =? l) || (c =? u).
Proof. intros Hl ->. unfold to_lower. repeat case_bool; bool_lia. Qed.

Lemma first_token_is_all_exact value : first_token_is_all value = str_ieq (fst (first_word value)) (cstr "all").
Proof.
  unfold first_token_is_all, first_word. destruct (trim_left value) as [|b p]; [done|].
  destruct (scan_until is_space_char (b :: p)) as [[|x [|y [|z [|w start]]]] rest]; cbn [fst]; try done.
  1, 2, 4: rewrite str_ieq_lower, bool_decide_false by (intros [=]); try done.
  - unfold zlen. cbn [length]. by rewrite (proj2 (Z.eqb_neq _ 3)) by lia.
  - change (cstr "all") with [97; 108; 108]. cbn -[to_lower Z.eqb].
    change (to_lower 97) with 97. change (to_lower 108) with 108.
    rewrite (lower_is _ 97 65), !(lower_is _ 108 76) by lia.
    by destruct ((x =? 97) || (x =? 65)), ((y =? 108) || (y =? 76)), ((z =? 108) || (z =? 76)).
Qed.

(** ** [Match] expressions

    What the expression says, read from left to right as a text. *)
Definition match_meaning (value : list Z) (ctx : option ssh_sshd_match_context) : outcome bool :=
  if (zlen value =? 0) || (zlen value >=? EMSSH_SSHD_CONFIG_VALUE_MAX) then Err SSH_ERR_INVALID_ARGUMENT else
  let '(word, rest) := first_word value in
  if str_ieq word (cstr "all") then
    if zlen (trim_left rest) =? 0 then Ret true else Err SSH_ERR_INVALID_ARGUMENT
  else
    match word with
    | [] => Ret true
    | c :: word' =>
      let negated := c =? EXCLAMATION in
      let keyword := if negated then word' else word in
      let '(argument, _) := first_word rest in
      if (zlen keyword =? 0) || (zlen argument =? 0) then Err SSH_ERR_INVALID_ARGUMENT else
      matches ← evaluate_match_criterion keyword argument ctx;
      Ret (if negated then negb matches else matches)
    end.

(** *** Positions in the array *)
Lemma peek_at pre c post : peek (pre ++ c :: post) (length pre) = Ret c.
Proof. unfold peek. by rewrite list_lookup_middle. Qed.

Lemma skip_while_at f fuel pre tok c post :
  (length tok <= fuel)%nat -> Forall (fun b => b <> 0 /\ f b = true) tok -> c = 0 \/ f c = false ->
  skip_while f fuel (pre ++ tok ++ c :: post) (length pre) = Ret (length pre + length tok)%nat.
Proof.
  revert fuel pre. induction tok as [|b tok IH]; intros fuel pre Hf Ht Hc.
  - replace (skip_while f fuel _ _) with
      (c' ← peek (pre ++ c :: post) (length pre);
       if (c' =? 0) || negb (f c') then Ret (length pre) else
       match fuel with O => Fault | S fuel' => skip_while f fuel' (pre ++ c :: post) (S (length pre)) end)
      by (by destruct fuel).
    rewrite peek_at. cbn. replace ((c =? 0) || negb (f c)) with true by (destruct Hc as [->| ->]; bool_lia).
    f_equal. lia.
  - destruct fuel as [|fuel]; [cbn in Hf; lia|]. apply Forall_cons_1 in Ht as [[Hb Hfb] Ht]. cbn [skip_while app].
    rewrite peek_at. cbn. rewrite Hfb, (proj2 (Z.eqb_neq _ _) Hb). cbn.
    replace (pre ++ b :: tok ++ c :: post) with ((pre ++ [b]) ++ tok ++ c :: post) by (by rewrite <- app_assoc).
    replace (S (length pre)) with (length (pre ++ [b])) by (rewrite length_app; cbn; lia).
    rewrite IH; [|cbn in Hf; lia|done|done]. f_equal. rewrite length_app. cbn. lia.
Qed.

Lemma skip_at f pre tok c post :
  Forall (fun b => b <> 0 /\ f b = true) tok -> c = 0 \/ f c = false ->
  skip f (pre ++ tok ++ c :: post) (length pre) = Ret (length pre + length tok)%nat.
Proof. intros Ht Hc. apply skip_while_at; [|done|done]. rewrite !length_app. lia. Qed.

Lemma insert_at (pre : list Z) b c post : <[length pre := b]> (pre ++ c :: post) = pre ++ b :: post.
Proof. induction pre as [|x pre IH]; [done|]. exact (f_equal (cons x) IH). Qed.

Lemma string_from_at pre tok post : text tok -> string_from (pre ++ tok ++ 0 :: post) (length pre) = tok.
Proof.
  intros Ht. unfold string_from, array_string. rewrite drop_app_length.
  rewrite (proj2 (scan_until_exact _ _ tok (0 :: post))); [done|]. split_and!; [done| |right; by eexists _, _].
  eapply Forall_impl; [|exact Ht]. intros c Hc. by apply Z.eqb_neq.
Qed.

(** *** One criterion *)
Lemma trim_left_split l : exists sp, l = sp ++ trim_left l /\ Forall (fun c => is_space_char c = true) sp /\
  (trim_left l = [] \/ exists c r, trim_left l = c :: r /\ is_space_char c = false).
Proof.
  unfold trim_left. destruct (scan_until not_space_char l) as [sp r] eqn:E.
  apply scan_until_exact in E as (-> & Hs & Hr). exists sp. split_and!; [done| |].
  - eapply Forall_impl; [|exact Hs]. intros c Hc. by apply negb_false_iff in Hc.
  - destruct Hr as [->|(c & q & -> & Hc)]; [by left|right]. exists c, q. split; [done|]. by apply negb_true_iff in Hc.
Qed.

(** The array holds [pre], the text [l] and a terminator. *)
Lemma skip_run f stop pre l post :
  text l -> (forall c, stop c = negb (f c)) ->
  skip f (pre ++ l ++ 0 :: post) (length pre) = Ret (length (pre ++ fst (scan_until stop l))).
Proof.
  intros Hl Hstop. destruct (scan_until stop l) as [tok rest] eqn:E. cbn [fst].
  apply scan_until_exact in E as (-> & Ht & Hr). apply Forall_app in Hl as [Htok Hrest]. rewrite length_app.
  assert (Forall (fun b => b <> 0 /\ f b = true) tok) as Hrun.
  { clear -Htok Ht Hstop. induction Htok; inversion_clear Ht; constructor; auto. split; [done|].
    match goal with H : stop _ = false |- _ => rewrite Hstop in H; by apply negb_false_iff in H end. }
  destruct Hr as [->|(b & r & -> & Hb)]; rewrite <- app_assoc; cbn [app]; apply skip_at; auto.
  right. rewrite Hstop in Hb. by apply negb_true_iff in Hb.
Qed.

Lemma peek_run pre l post : peek (pre ++ l ++ 0 :: post) (length pre) = Ret (hd 0 l).
Proof. destruct l as [|c l]; apply peek_at. Qed.

Lemma skip_spaces pre l post :
  text l -> exists sp, l = sp ++ trim_left l /\ Forall (fun c => is_space_char c = true) sp /\
  skip is_space_char (pre ++ l ++ 0 :: post) (length pre) = Ret (length (pre ++ sp)).
Proof.
  intros Hl. destruct (trim_left_split l) as (sp & E & Hs & Hr). exists sp. split_and!; [done..|].
  rewrite (skip_run _ not_space_char) by done. unfold trim_left in *.
  destruct (scan_until not_space_char l) as [sp' r] eqn:Es. cbn [fst snd] in *.
  apply scan_until_exact in Es as (El & _). subst l. apply app_inv_tail in E. by subst.
Qed.

Lemma skip_word pre l post :
  text l -> skip not_space_char (pre ++ l ++ 0 :: post) (length pre) = Ret (length (pre ++ fst (scan_until is_space_char l))).
Proof. intros Hl. apply skip_run; [done|]. intros c. unfold not_space_char. by rewrite negb_involutive. Qed.

Lemma text_app a b : text (a ++ b) <-> text a /\ text b.
Proof. apply Forall_app. Qed.

Lemma hd_text l : text l -> (hd 0 l =? 0) = (zlen l =? 0).
Proof. destruct 1 as [|c l Hc _]; [done|]. rewrite zlen_cons. pose proof (zlen_nonneg l). cbn. bool_lia. Qed.

Lemma match_loop_done fuel pre post matched ctx : match_loop fuel (pre ++ 0 :: post) (length pre) matched ctx = Ret matched.
Proof. by destruct fuel; cbn [match_loop]; rewrite peek_at. Qed.

(** From the start of the argument: it is cut off, and the loop stops at the cut. *)
Lemma argument_cut fuel pre l matched ctx kw keyword (negated : bool) :
  (forall rest, kw (pre ++ rest) = keyword) -> text l ->
  let argument := fst (scan_until is_space_char l) in
  (arg_end ← skip not_space_char (pre ++ l ++ [0]) (length pre);
   let work := <[arg_end := 0]> (pre ++ l ++ [0]) in
   c ← peek work arg_end;
   let p := if negb (c =? 0) then S arg_end else arg_end in
   criterion_match ← evaluate_match_criterion (kw work) (string_from work (length pre)) ctx;
   let criterion_match := if negated then negb criterion_match else criterion_match in
   match_loop fuel work p (matched && criterion_match) ctx) =
  (matches ← evaluate_match_criterion keyword argument ctx; Ret (matched && if negated then negb matches else matches)).
Proof.
  intros Hk Hl argument. rewrite skip_word by done. cbn [mbind outcome_bind]. fold argument.
  destruct (scan_until is_space_char l) as [arg rest] eqn:E. subst argument. cbn [fst].
  apply scan_until_exact in E as (-> & _). apply text_app in Hl as [Ha _].
  assert (exists post, <[length (pre ++ arg) := 0]> (pre ++ (arg ++ rest) ++ [0]) = (pre ++ arg) ++ 0 :: post) as [post Ei].
  { destruct rest as [|b rest]; [exists []|exists (rest ++ [0])].
    - replace (pre ++ (arg ++ []) ++ [0]) with ((pre ++ arg) ++ 0 :: []) by (by rewrite app_nil_r, <- app_assoc).
      apply insert_at.
    - replace (pre ++ (arg ++ b :: rest) ++ [0]) with ((pre ++ arg) ++ b :: rest ++ [0]) by (by rewrite <- !app_assoc).
      apply insert_at. }
  rewrite Ei, peek_at. cbn [mbind outcome_bind]. cbn [Z.eqb negb].
  rewrite <- app_assoc, Hk, string_from_at by done. destruct (evaluate_match_criterion _ _ _); cbn; [|done|done].
  rewrite app_assoc. apply match_loop_done.
Qed.

Lemma first_word_space b r : is_space_char b = true -> first_word (b :: r) = first_word r.
Proof.
  intros Hb. unfold first_word, trim_left. cbn [scan_until]. unfold not_space_char at 1. rewrite Hb. cbn.
  by destruct (scan_until not_space_char r).
Qed.

Lemma trim_left_idem l : trim_left (trim_left l) = trim_left l.
Proof.
  destruct (trim_left_split l) as (sp & _ & _ & [->|(c & r & -> & Hc)]); [done|]. unfold trim_left. cbn [scan_until].
  unfold not_space_char at 1. by rewrite Hc.
Qed.

Lemma trim_left_text l : text l -> text (trim_left l).
Proof. destruct (trim_left_split l) as (sp & E & _). rewrite E at 1. by intros [_ ?]%text_app. Qed.

(** From the start of the keyword. *)
Lemma keyword_cut fuel pre l matched ctx (negated : bool) :
  text l ->
  let '(keyword, rest) := scan_until is_space_char l in
  (keyword_end ← skip not_space_char (pre ++ l ++ [0]) (length pre);
   if (keyword_end =? length pre)%nat then Err SSH_ERR_INVALID_ARGUMENT else
   c ← peek (pre ++ l ++ [0]) keyword_end;
   if c =? 0 then Err SSH_ERR_INVALID_ARGUMENT else
   let work := <[keyword_end := 0]> (pre ++ l ++ [0]) in
   arg_start ← skip is_space_char work (S keyword_end);
   c ← peek work arg_start;
   if c =? 0 then Err SSH_ERR_INVALID_ARGUMENT else
   arg_end ← skip not_space_char work arg_start;
   let work := <[arg_end := 0]> work in
   c ← peek work arg_end;
   let p := if negb (c =? 0) then S arg_end else arg_end in
   criterion_match ← evaluate_match_criterion (string_from work (length pre)) (string_from work arg_start) ctx;
   let criterion_match := if negated then negb criterion_match else criterion_match in
   match_loop fuel work p (matched && criterion_match) ctx) =
  (let argument := fst (first_word rest) in
   if (zlen keyword =? 0) || (zlen argument =? 0) then Err SSH_ERR_INVALID_ARGUMENT else
   matches ← evaluate_match_criterion keyword argument ctx;
   Ret (matched && if negated then negb matches else matches)).
Proof.
  intros Hl. rewrite skip_word by done. cbn [mbind outcome_bind].
  destruct (scan_until is_space_char l) as [kw rest] eqn:E. cbn [fst].
  apply scan_until_exact in E as (-> & Hkw & Hr). apply text_app in Hl as [Hk Hrest].
  replace (length (pre ++ kw) =? length pre)%nat with (zlen kw =? 0)
    by (rewrite length_app; unfold zlen; destruct (Z.eqb_spec (Z.of_nat (length kw)) 0); symmetry; [apply Nat.eqb_eq|apply Nat.eqb_neq]; lia).
  destruct (zlen kw =? 0); [done|].
  replace (pre ++ (kw ++ rest) ++ [0]) with ((pre ++ kw) ++ rest ++ [0]) by (by rewrite <- !app_assoc).
  rewrite peek_run. cbn [mbind outcome_bind orb].
  destruct Hr as [->|(b & r & -> & Hb)]; [done|]. cbn [hd app]. apply Forall_cons_1 in Hrest as [Hb0 Hr].
  rewrite (proj2 (Z.eqb_neq _ _) Hb0), insert_at, first_word_space by done.
  set (pre' := pre ++ kw ++ [0]). replace ((pre ++ kw) ++ 0 :: r ++ [0]) with (pre' ++ r ++ [0])
    by (unfold pre'; by rewrite <- !app_assoc).
  replace (S (length (pre ++ kw))) with (length pre') by (unfold pre'; rewrite !length_app; cbn; lia).
  destruct (skip_spaces pre' r [] Hr) as (sp & Er & _ & Es). rewrite Es. cbn [mbind outcome_bind].
  pose proof (trim_left_text _ Hr) as Ht. unfold first_word. set (l := trim_left r) in *.
  rewrite Er. replace (pre' ++ (sp ++ l) ++ [0]) with ((pre' ++ sp) ++ l ++ [0]) by (by rewrite <- !app_assoc).
  rewrite peek_run. cbn [mbind outcome_bind]. rewrite hd_text by done.
  assert ((zlen (fst (scan_until is_space_char l)) =? 0) = (zlen l =? 0)) as ->.
  { destruct (trim_left_split r) as (_ & _ & _ & [El|(c & q & El & Hc)]); fold l in El; rewrite El; [done|].
    cbn [scan_until]. rewrite Hc. destruct (scan_until _ q). cbn [fst]. rewrite !zlen_cons.
    pose proof (zlen_nonneg l0). pose proof (zlen_nonneg q). bool_lia. }
  destruct (zlen l =? 0); [done|].
  apply (argument_cut fuel (pre' ++ sp) l matched ctx (fun work => string_from work (length pre)) kw); [|done].
  intros tl. unfold pre'. rewrite <- !app_assoc. by apply string_from_at.
Qed.

(** The loop looks at one criterion: it ends at the first argument it cuts off. *)
Lemma match_loop_one fuel pre l ctx :
  text l -> trim_left l = l -> (0 < fuel)%nat ->
  match_loop fuel (pre ++ l ++ [0]) (length pre) true ctx =
    match l with
    | [] => Ret true
    | c :: l' =>
      let negated := c =? EXCLAMATION in
      let '(keyword, rest) := scan_until is_space_char (if negated then l' else l) in
      let argument := fst (first_word rest) in
      if (zlen keyword =? 0) || (zlen argument =? 0) then Err SSH_ERR_INVALID_ARGUMENT else
      matches ← evaluate_match_criterion keyword argument ctx;
      Ret (if negated then negb matches else matches)
    end.
Proof.
  intros Hl Htrim Hf. destruct fuel as [|fuel]; [lia|]. cbn [match_loop]. rewrite peek_run. cbn [mbind outcome_bind].
  destruct l as [|c l]; [done|]. pose proof Hl as [Hc Hl']%Forall_cons_1. cbn [hd]. rewrite (proj2 (Z.eqb_neq _ _) Hc).
  destruct (skip_spaces pre (c :: l) [] Hl) as (sp & El & _ & Es). rewrite Htrim in El.
  assert (sp = []) as -> by (apply (app_inv_tail (c :: l)); by rewrite <- El). rewrite app_nil_r in Es.
  rewrite Es. cbn [mbind outcome_bind]. rewrite peek_run. cbn [mbind outcome_bind hd]. rewrite (proj2 (Z.eqb_neq _ _) Hc).
  destruct (c =? EXCLAMATION) eqn:En.
  - pose proof (keyword_cut fuel (pre ++ [c]) l true ctx true Hl') as H.
    destruct (scan_until is_space_char l) as [kw rest].
    replace (pre ++ (c :: l) ++ [0]) with ((pre ++ [c]) ++ l ++ [0]) by (by rewrite <- app_assoc).
    replace (S (length pre)) with (length (pre ++ [c])) by (rewrite length_app; cbn; lia). exact H.
  - pose proof (keyword_cut fuel pre (c :: l) true ctx false Hl) as H.
    destruct (scan_until is_space_char (c :: l)) as [kw rest]. exact H.
Qed.

Lemma match_expression_meaning value ctx :
  text value -> evaluate_match_expression value ctx = match_meaning value ctx.
Proof.
  intros Hv. unfold evaluate_match_expression, match_meaning. destruct (_ || _); [done|].
  destruct (skip_spaces [] value [] Hv) as (sp & Ev & Hsp & Es). cbn [app length] in Es. rewrite Es. cbn [mbind outcome_bind].
  rewrite first_token_is_all_exact. unfold first_word. pose proof (trim_left_text _ Hv) as Hp.
  pose proof (trim_left_idem value) as Hi. pose proof (skip_word sp (trim_left value) [] Hp) as Hw.
  set (p := trim_left value) in *.
  assert (value ++ [0] = sp ++ p ++ [0]) as Ew by (rewrite Ev at 1; by rewrite <- app_assoc). rewrite Ew in *.
  clearbody p. clear Ev Es Ew Hv. destruct (scan_until is_space_char p) as [w r] eqn:E. cbn [fst] in *.
  destruct (str_ieq w (cstr "all")); cbn [negb].
  - apply scan_until_exact in E as (-> & _). apply text_app in Hp as [_ Hr]. rewrite Hw. cbn [mbind outcome_bind].
    replace (sp ++ (w ++ r) ++ [0]) with ((sp ++ w) ++ r ++ [0]) by (by rewrite <- !app_assoc).
    destruct (skip_spaces (sp ++ w) r [] Hr) as (sp2 & Er & _ & Es). rewrite Es. cbn [mbind outcome_bind].
    assert ((sp ++ w) ++ r ++ [0] = ((sp ++ w) ++ sp2) ++ trim_left r ++ [0]) as ->.
    { transitivity ((sp ++ w) ++ (sp2 ++ trim_left r) ++ [0]); [by f_equal; f_equal|by rewrite <- !app_assoc]. }
    rewrite peek_run. cbn [mbind outcome_bind]. rewrite hd_text by (by apply trim_left_text).
    by destruct (zlen (trim_left r) =? 0).
  - rewrite match_loop_one by (try done; rewrite !length_app; cbn; lia). destruct p as [|c l]; [by injection E as <- <-|].
    assert (is_space_char c = false) as Hc.
    { destruct (trim_left_split (c :: l)) as (_ & _ & _ & [H|(b & q & H & Hb)]); rewrite Hi in H; [done|]. by injection H as -> ->. }
    cbn [scan_until] in E. rewrite Hc in E. destruct (scan_until is_space_char l) as [w' r'] eqn:E'. injection E as <- <-.
    unfold first_word.
    destruct (c =? EXCLAMATION); cbn [scan_until]; rewrite ?Hc, E'; by destruct (scan_until is_space_char (trim_left r')).
Qed.

(** The rest of the expression is not looked at, although several criteria are meant to be
    combined with AND: this one is to match [root] from one network only. *)
Lemma second_criterion_ignored :
  let ctx := Some (mk_match_context (Some (cstr "root")) None None (Some (cstr "10.0.0.1")) None 2200 None) in
  evaluate_match_expression (cstr "User root Address 192.168.*") ctx = Ret true /\
  evaluate_match_expression (cstr "Address 192.168.* User root") ctx = Ret false /\
  evaluate_match_expression (cstr "User root nonsense") ctx = Ret true.
Proof. by vm_compute. Qed.

(** ** Expressions of one criterion, as they are documented *)
Inductive criterion : Type := CUser | CGroup | CHost | CAddress | CLocalAddress | CLocalPort | CRDomain.

Definition keywords : list (list Z * criterion) :=
  [(cstr "User", CUser); (cstr "Group", CGroup); (cstr "Host", CHost); (cstr "Address", CAddress);
   (cstr "LocalAddress", CLocalAddress); (cstr "LocalPort", CLocalPort); (cstr "RDomain", CRDomain)].

(** The criterion a keyword stands for, in any case. *)
Definition keyword_criterion (keyword : list Z) : option criterion :=
  snd <$> List.find (fun k => bool_decide (map to_lower keyword = map to_lower (fst k))) keywords.

(** A text is matched by a list of patterns if it is there, is not empty, matches no
    negated pattern and one of the others if there are any. *)
Definition text_holds (patterns : list Z) (value : option (list Z)) : bool :=
  match value with
  | None | Some [] => false
  | Some v => items_match (fun t => pattern_matches_wildcards t v) (nonempty_items (list_items patterns))
  end.

Definition criterion_holds (c : criterion) (patterns : list Z) (ctx : ssh_sshd_match_context) : bool :=
  match c with
  | CUser => text_holds patterns (mc_user ctx)
  | CGroup => text_holds patterns (mc_group ctx)
  | CHost => text_holds patterns (mc_host ctx)
  | CAddress => text_holds patterns (mc_address ctx)
  | CLocalAddress => text_holds patterns (mc_local_address ctx)
  | CRDomain => text_holds patterns (mc_rdomain ctx)
  | CLocalPort => negb (mc_local_port ctx =? 0) && forallb (fun it => port_word (snd it)) (list_items patterns) &&
                  items_match (fun t => decimal t =? mc_local_port ctx) (list_items patterns)
  end.

Definition word (w : list Z) : Prop := w <> [] /\ Forall (fun c => c <> 0 /\ is_space_char c = false) w.
Definition spaces (sp : list Z) : Prop := Forall (fun c => is_space_char c = true) sp.

Lemma criterion_exact keyword patterns ctx :
  word patterns -> 0 <= from_option mc_local_port 0 ctx ->
  evaluate_match_criterion keyword patterns ctx =
    match keyword_criterion keyword with
    | Some c => Ret (from_option (criterion_holds c patterns) false ctx)
    | None => Err SSH_ERR_UNSUPPORTED
    end.
Proof.
  intros [Hne _] Hport.
  assert (forall field : ssh_sshd_match_context -> option (list Z),
    (Ret (match ctx with Some c => list_pattern_matches patterns (field c) | None => false end) : outcome bool) =
      Ret (from_option (fun c => text_holds patterns (field c)) false ctx)) as Htext.
  { intros field. destruct ctx as [c|]; [|done]. cbn. f_equal. destruct (field c) as [v|]; [|done].
    destruct (match_lists_exact patterns v 1) as [-> _]. by destruct v. }
  assert ((Ret (match ctx with Some c => match_local_port_list patterns (mc_local_port c) | None => false end) : outcome bool) =
    Ret (from_option (criterion_holds CLocalPort patterns) false ctx)) as Hlist.
  { destruct ctx as [c|]; [|done]. cbn in *. f_equal. destruct (Z.eqb_spec (mc_local_port c) 0) as [E|E].
    - unfold match_local_port_list. by rewrite E, orb_true_r.
    - destruct (match_lists_exact patterns [] (mc_local_port c)) as (_ & _ & ->); [|lia].
      rewrite (proj2 (Z.eqb_neq (zlen patterns) 0)); [done|]. by intros ->%zlen_zero_inv. }
  unfold evaluate_match_criterion, keyword_criterion, keywords. cbv zeta. rewrite !str_ieq_lower. cbn [List.find fst].
  rewrite !Htext, Hlist. repeat (case_bool_decide; [done|]). done.
Qed.

Lemma first_word_at sp w rest :
  spaces sp -> word w -> rest = [] \/ (exists c r, rest = c :: r /\ is_space_char c = true) -> first_word (sp ++ w ++ rest) = (w, rest).
Proof.
  intros Hsp [Hne Hw] Hr. unfold first_word, trim_left.
  rewrite (proj2 (scan_until_exact not_space_char (sp ++ w ++ rest) sp (w ++ rest))).
  - cbn [snd]. apply scan_until_exact. split_and!; [done| |done]. eapply Forall_impl; [|exact Hw]. by intros c [_ ?].
  - split_and!; [done| |].
    + eapply Forall_impl; [|exact Hsp]. intros c Hc. unfold not_space_char. by rewrite Hc.
    + right. destruct w as [|c w]; [done|]. apply Forall_cons_1 in Hw as [[_ Hc] _]. exists c, (w ++ rest). split; [done|].
      unfold not_space_char. by rewrite Hc.
Qed.

Lemma text_of_word w : word w -> text w.
Proof. intros [_ Hw]. eapply Forall_impl; [|exact Hw]. by intros c [? _]. Qed.

Lemma text_of_spaces sp : spaces sp -> text sp.
Proof. intros Hs. eapply Forall_impl; [|exact Hs]. intros c Hc ->. done. Qed.

Lemma spaces_end sp : spaces sp -> sp = [] \/ (exists c r, sp = c :: r /\ is_space_char c = true).
Proof. intros Hs. destruct Hs as [|c r Hc _]; [by left|right]. by exists c, r. Qed.

(** [all] with nothing behind it. *)
Lemma match_all sp1 w sp2 ctx :
  spaces sp1 -> spaces sp2 -> word w -> map to_lower w = cstr "all" -> zlen (sp1 ++ w ++ sp2) < EMSSH_SSHD_CONFIG_VALUE_MAX ->
  evaluate_match_expression (sp1 ++ w ++ sp2) ctx = Ret true.
Proof.
  intros H1 H2 Hw Hall Hl. rewrite match_expression_meaning
    by (apply text_app; split; [by apply text_of_spaces|apply text_app; split; [by apply text_of_word|by apply text_of_spaces]]).
  unfold match_meaning. assert (0 < zlen w) by (destruct Hw as [? _]; destruct w; [done|]; rewrite zlen_cons; pose proof (zlen_nonneg w); lia).
  replace (_ || _) with false by (rewrite !zlen_app in *; pose proof (zlen_nonneg sp1); pose proof (zlen_nonneg sp2); bool_lia).
  rewrite first_word_at by (try done; by apply spaces_end). rewrite str_ieq_lower, Hall, bool_decide_true by done.
  assert (trim_left sp2 = []) as ->; [|done]. destruct (trim_left_split sp2) as (sp & E & _ & [?|(c & r & Er & Hc)]); [done|].
  rewrite E, Er in H2. apply Forall_app in H2 as [_ [Hc' _]%Forall_cons_1]. congruence.
Qed.

Lemma match_one (negated : bool) sp1 keyword sp2 patterns sp3 ctx :
  spaces sp1 -> spaces sp2 -> sp2 <> [] -> spaces sp3 -> word keyword -> word patterns -> hd 0 keyword <> EXCLAMATION ->
  map to_lower keyword <> cstr "all" ->
  let value := sp1 ++ ((if negated then [EXCLAMATION] else []) ++ keyword) ++ sp2 ++ patterns ++ sp3 in
  zlen value < EMSSH_SSHD_CONFIG_VALUE_MAX ->
  evaluate_match_expression value ctx =
    (matches ← evaluate_match_criterion keyword patterns ctx; Ret (if negated then negb matches else matches)).
Proof.
  intros H1 H2 Hne2 H3 Hk Hp Hx Hall. set (first := (if negated then [EXCLAMATION] else []) ++ keyword). intros value Hl.
  assert (word first) as Hf.
  { unfold first. destruct negated; [|done]. destruct Hk as [? Hk]. split; [done|]. by apply Forall_cons_2. }
  rewrite match_expression_meaning.
  2: { unfold value. apply text_app. split; [by apply text_of_spaces|]. apply text_app. split; [by apply text_of_word|].
       apply text_app. split; [by apply text_of_spaces|]. apply text_app. split; [by apply text_of_word|by apply text_of_spaces]. }
  unfold match_meaning. assert (0 < zlen first) by (destruct Hf as [? _]; destruct first as [|c f]; [done|]; rewrite zlen_cons; pose proof (zlen_nonneg f); lia).
  replace ((zlen value =? 0) || _) with false.
  2: { unfold value in *. rewrite !zlen_app in *. pose proof (zlen_nonneg sp1). pose proof (zlen_nonneg sp2). pose proof (zlen_nonneg sp3).
       pose proof (zlen_nonneg patterns). bool_lia. }
  unfold value. rewrite first_word_at; [|done|done|].
  2: { right. destruct H2 as [|c r Hc _]; [done|]. by exists c, (r ++ patterns ++ sp3). }
  rewrite (first_word_at sp2 patterns sp3) by (try done; by apply spaces_end).
  assert (forall w, word w -> (zlen w =? 0) = false) as Hz by (intros w [? _]; apply Z.eqb_neq; by intros ->%zlen_zero_inv).
  rewrite str_ieq_lower, bool_decide_false.
  2: { unfold first. destruct negated; [|done]. cbn. intros [=]. }
  unfold first in *. destruct negated; cbn [app] in *.
  - rewrite Z.eqb_refl, (Hz keyword), (Hz patterns) by done. done.
  - destruct keyword as [|c kw]; [by destruct Hk|]. cbn [hd] in Hx. rewrite (proj2 (Z.eqb_neq _ _) Hx), (Hz (c :: kw)), (Hz patterns) by done. done.
Qed.

(** ** The property *)


