(* ===== verification/ConfigLine.v ===== *)
(** * The configuration file: what a line can do

    The invariant of a configuration: the numbers are in range and the strings fit
    the arrays that hold them.  Every line of every file keeps it, and no line is
    undefined behaviour. *)

From S2P Require Import Prelude Interaction Buffer Platform Packet UserPolicy Userauth Ident TransportState Transport.
From S2P Require Import Sftp SftpPath SftpServer ServerState ConfigFile ConfigMatch ConfigValues.

(** ** The pieces of a text *)
Lemma scan_text stop l : text l -> text (fst (scan_until stop l)) /\ text (snd (scan_until stop l)).
Proof.
  intros Hl. destruct (scan_until stop l) as [a b] eqn:E. apply scan_until_exact in E as (-> & _). by apply text_app.
Qed.

Lemma take_text n l : text l -> text (take n l).
Proof. apply Forall_take. Qed.

Lemma trim_right_take l : exists n, trim_right_inplace l = take n l.
Proof.
  unfold trim_right_inplace. induction (length l) as [|n IH]; cbn [trim_right_loop]; [by exists 0%nat|].
  destruct (is_space_char _); [done|by exists (S n)].
Qed.

Lemma trim_right_text l : text l -> text (trim_right_inplace l).
Proof. destruct (trim_right_take l) as [n ->]. apply take_text. Qed.

Lemma array_text m : text (array_string m).
Proof.
  unfold array_string. destruct (scan_until _ m) as [a b] eqn:E. apply scan_until_exact in E as (_ & H & _). cbn [fst].
  eapply Forall_impl; [|exact H]. intros c Hc. by apply Z.eqb_neq in Hc.
Qed.

Lemma unquote_text l : text l -> text (unquote l).
Proof.
  destruct l as [|q l]; [done|]. intros Hl. cbn [unquote]. destruct (_ && _); [|done].
  apply take_text. by apply Forall_cons_1 in Hl as [_ ?].
Qed.

(** ** The invariant *)
Definition stored_text (v : list Z) : Prop := text v /\ 0 < zlen v < EMSSH_SSHD_CONFIG_VALUE_MAX.
Definition opt_holds {A} (P : A -> Prop) (x : option A) : Prop := match x with Some v => P v | None => True end.

Record config_ok (c : ssh_sshd_config_file) : Prop := {
  ok_port : 0 <= cf_port c <= 65535;
  ok_has_port : cf_has_port c = true -> 1 <= cf_port c;
  ok_listen_address : opt_holds stored_text (cf_listen_address c);
  ok_max_auth_tries : opt_holds (fun n => 1 <= n <= 255) (cf_max_auth_tries c);
  ok_permit_root_login : opt_holds (fun n => EMSSH_PERMIT_ROOT_LOGIN_NO <= n <= EMSSH_PERMIT_ROOT_LOGIN_PROHIBIT_PASSWORD)
    (cf_permit_root_login c);
  ok_allow_users : opt_holds stored_text (cf_allow_users c);
  ok_subsystem_name : opt_holds stored_text (cf_subsystem_name c);
  ok_authorized_keys_file : opt_holds stored_text (cf_authorized_keys_file c);
  ok_chroot_directory : opt_holds stored_text (cf_chroot_directory c);
  ok_host_key_file : opt_holds stored_text (cf_host_key_file c)
}.

Lemma defaults_ok : config_ok ssh_sshd_config_file_defaults.
Proof. by split; cbn. Qed.

(** ** Directives *)

(** The value that was parsed, if it was, satisfies [P]. *)
Definition parses_to {A} (P : A -> Prop) (o : outcome A) : Prop :=
  match o with Ret v => P v | Err _ => True | Fault => False end.

Lemma uint_parses l max : 9 <= max < 2 ^ 64 -> parses_to (fun n => 1 <= n <= max) (parse_uint_in_range l max).
Proof.
  intros Hm. rewrite parse_uint_number by done. destruct (number_in_range l max) eqn:E; [|done]. by apply number_bounds.
Qed.

Lemma bool_parses l : parses_to (fun _ => True) (parse_bool_value l).
Proof. unfold parse_bool_value. by repeat case_bool. Qed.

Lemma permit_parses l :
  parses_to (fun n => EMSSH_PERMIT_ROOT_LOGIN_NO <= n <= EMSSH_PERMIT_ROOT_LOGIN_PROHIBIT_PASSWORD)
    (parse_permit_root_login_value l).
Proof. unfold parse_permit_root_login_value. by repeat case_bool. Qed.

Lemma stored_parses l : text l -> zlen l <> 0 -> zlen l < EMSSH_SSHD_CONFIG_VALUE_MAX -> stored_text l.
Proof. pose proof (zlen_nonneg l). intros ? ? ?. split; [done|lia]. Qed.

Lemma string_parses l : text l -> parses_to stored_text (set_string_value EMSSH_SSHD_CONFIG_VALUE_MAX l).
Proof.
  intros Hl. unfold set_string_value. destruct (_ || _) eqn:E; [done|]. apply stored_parses; [done|bool_lia|bool_lia].
Qed.

Lemma subsystem_parses l : text l -> parses_to stored_text (parse_subsystem_value l EMSSH_SSHD_CONFIG_VALUE_MAX).
Proof.
  intros Hl. unfold parse_subsystem_value. pose proof (trim_left_text _ Hl) as Ht. destruct (trim_left l) as [|c p]; [done|].
  pose proof (proj1 (scan_text is_space_char _ Ht)) as Hn. destruct (scan_until _ _) as [name rest]. cbn [fst] in *.
  destruct (_ || _) eqn:E; [done|]. apply stored_parses; [done|bool_lia|bool_lia].
Qed.

Lemma split_last_text ch l before after : text l -> split_last ch l = Some (before, after) -> text before /\ text after.
Proof.
  intros Hl. unfold split_last. pose proof (scan_text (fun c => c =? ch) (rev l) ltac:(by apply Forall_rev)) as [Ha Hb].
  destruct (scan_until _ (rev l)) as [a [|x b]]; [done|]. intros [= <- <-]. cbn [fst snd] in *.
  apply Forall_cons_1 in Hb as [_ Hb]. by split; apply Forall_rev.
Qed.

Definition is_port (p : Z) : Prop := 0 <= p <= 65535.

(** A port that the value names is one from 1 to 65535. *)
Lemma listen_address_parses l port_out :
  text l -> opt_holds is_port port_out ->
  let '(host, port_out') := parse_listen_address l EMSSH_SSHD_CONFIG_VALUE_MAX port_out in
  parses_to stored_text host /\ opt_holds is_port port_out' /\ (port_out = None -> port_out' = None).
Proof.
  intros Hl Hp. unfold parse_listen_address.
  assert (forall host (p : option Z), text host -> opt_holds is_port p -> (port_out = None -> p = None) ->
    let '(h, p') := (reject ((zlen host =? 0) || (zlen host >=? EMSSH_SSHD_CONFIG_VALUE_MAX)) SSH_ERR_INVALID_ARGUMENT;; mret host) p in
    parses_to stored_text h /\ opt_holds is_port p' /\ (port_out = None -> p' = None)) as Hend.
  { intros host p Ht Ho Hn. unfold reject. destruct (_ || _) eqn:E; cbn; [done|]. split_and!; [|done..].
    apply stored_parses; [done|bool_lia|bool_lia]. }
  assert (forall v, parses_to (fun n => 1 <= n <= 65535) (parse_uint_in_range v 65535)) as Hu by (intros v; by apply uint_parses).
  assert (forall n, 1 <= n <= 65535 -> opt_holds is_port (Some (n mod 2 ^ 16))) as Hport
    by (intros n Hn; cbn; rewrite Z.mod_small by lia; unfold is_port; lia).
  unfold reject at 1. destruct (zlen l =? 0); [done|]. cbn [mbind prog_bind mret prog_ret get_state].
  destruct l as [|c l]; [by apply Hend|]. pose proof Hl as [_ Hl']%Forall_cons_1. destruct (c =? 91).
  - pose proof (scan_text (fun c => c =? 93) _ Hl') as [Hh Hr]. destruct (scan_until _ l) as [host [|x rest]]; [done|].
    cbn [fst snd] in *. unfold reject at 1. destruct (zlen host =? 0); [done|]. cbn [mbind prog_bind mret prog_ret].
    destruct port_out as [p|]; [|by apply Hend]. destruct rest as [|y [|d digits]]; try (by apply Hend).
    destruct (y =? COLON); [|by apply Hend]. specialize (Hu (d :: digits)).
    destruct (parse_uint_in_range _ _) as [n|e|]; cbn in Hu; [|done|done]. cbn [mbind prog_bind mret prog_ret put_state].
    apply Hend; [done|by apply Hport|done].
  - destruct port_out as [p|]; [|by apply Hend].
    destruct (split_last COLON (c :: l)) as [[before after]|] eqn:Es; [|by apply Hend].
    apply split_last_text in Es as [Hb _]; [|done]. destruct (_ && _); [|by apply Hend]. specialize (Hu after).
    destruct (parse_uint_in_range _ _) as [n|e|]; cbn in Hu; [|by apply Hend|done]. cbn [mbind prog_bind mret prog_ret put_state].
    apply Hend; [done|by apply Hport|done].
Qed.

(** A step keeps the invariant and is defined. *)
Definition keeps_config {A} (r : outcome A * ssh_sshd_config_file) : Prop := fst r <> Fault /\ config_ok (snd r).

Lemma keeps_assign {A} (P : A -> Prop) parsed set c :
  parses_to P parsed -> config_ok c -> (forall v, P v -> config_ok (set v c)) -> keeps_config (assign parsed set c).
Proof. intros Hp Hc Hs. destruct parsed; cbn in *; [split; cbn; auto|done|done]. Qed.

Lemma keeps_listen_address value c : text value -> config_ok c -> keeps_config (assign_listen_address value c).
Proof.
  intros Hv Hc. unfold assign_listen_address. set (port_out := if cf_has_port c then None else Some (cf_port c)).
  assert (opt_holds is_port port_out) as Hp by (unfold port_out; destruct (cf_has_port c); [done|apply Hc]).
  pose proof (listen_address_parses value port_out Hv Hp) as H. destruct (parse_listen_address _ _ _) as [host port'].
  destruct H as (Hh & Hp' & Hn).
  set (c1 := match port' with Some p => with_port (cf_has_port c) p c | None => c end).
  assert (config_ok c1) as Hc1.
  { unfold c1. destruct port' as [p|]; [|done]. destruct Hc; split; cbn in *; try done. intros Hhas. subst port_out.
    rewrite Hhas in Hn. by specialize (Hn eq_refl). }
  clearbody c1. destruct host as [h|e|]; [|done|done]. split; [done|]. cbn [snd].
  assert (config_ok (with_listen_address h c1)) as Hc2 by (by destruct Hc1; split).
  destruct (negb _ && negb _) eqn:E; [|done]. apply andb_prop in E as [_ E%negb_true_iff%Z.eqb_neq].
  destruct Hc2 as [Hport]. split; cbn in *; try done. intros _. lia.
Qed.

Lemma keeps_directive key value c : text value -> config_ok c -> keeps_config (parse_one_directive key value c).
Proof.
  intros Hv Hc. unfold parse_one_directive. pose proof (string_parses value Hv) as Hs.
  repeat match goal with |- keeps_config ((if ?b then _ else _) c) => destruct b end; try (by split);
  lazymatch goal with
  | |- keeps_config (assign (parse_uint_in_range _ ?m) _ _) => apply (keeps_assign _ _ _ _ (uint_parses value m ltac:(lia)) Hc)
  | |- keeps_config (assign (parse_bool_value _) _ _) => apply (keeps_assign _ _ _ _ (bool_parses value) Hc)
  | |- keeps_config (assign (parse_permit_root_login_value _) _ _) => apply (keeps_assign _ _ _ _ (permit_parses value) Hc)
  | |- keeps_config (assign (set_string_value _ _) _ _) => apply (keeps_assign _ _ _ _ Hs Hc)
  | |- keeps_config (assign (parse_subsystem_value _ _) _ _) => apply (keeps_assign _ _ _ _ (subsystem_parses value Hv) Hc)
  | |- keeps_config (assign_listen_address _ _) => by apply keeps_listen_address
  end; intros v Pv; destruct Hc; split; cbn in *; try done; rewrite Z.mod_small by lia; lia.
Qed.

(** ** Lines *)
Lemma criterion_parses keyword l ctx : parses_to (fun _ => True) (evaluate_match_criterion keyword l ctx).
Proof. unfold evaluate_match_criterion. by repeat case_bool. Qed.

Lemma match_parses value ctx : text value -> parses_to (fun _ => True) (evaluate_match_expression value ctx).
Proof.
  intros Hv. rewrite match_expression_meaning by done. unfold match_meaning. destruct (_ || _); [done|].
  destruct (first_word value) as [[|c w] rest]; [done|]. destruct (str_ieq _ _); [by case_bool|].
  cbv zeta. destruct (first_word rest) as [argument r]. destruct (_ || _); [done|].
  pose proof (criterion_parses (if c =? EXCLAMATION then w else c :: w) argument ctx) as H.
  by destruct (evaluate_match_criterion _ _ _).
Qed.

Lemma keeps_line line ctx s :
  text line -> config_ok (ps_config s) ->
  let '(o, s') := parse_line_inplace line ctx s in o <> Fault /\ config_ok (ps_config s').
Proof.
  intros Hl Hc. unfold parse_line_inplace. apply (scan_text (fun c => c =? 35)) in Hl as [Hl _].
  apply trim_right_text, trim_left_text in Hl. set (body := trim_left _) in *. clearbody body.
  destruct (zlen body =? 0); [done|]. apply (scan_text (fun c => is_space_char c || (c =? 61))) in Hl as [_ Hr].
  destruct (scan_until _ body) as [key [|x rest]]; [done|]. cbn [fst snd] in *. apply Forall_cons_1 in Hr as [_ Hr].
  apply (scan_text (fun c => negb (is_space_char c || (c =? 61)))) in Hr as [_ Hr].
  apply trim_right_text, trim_left_text in Hr. set (value := trim_left _) in *. clearbody value.
  destruct (zlen value =? 0); [done|]. apply unquote_text in Hr. destruct (str_ieq key _).
  - pose proof (match_parses _ ctx Hr) as H. by destruct (evaluate_match_expression _ _).
  - destruct (negb _); [done|]. pose proof (keeps_directive key _ _ Hr Hc) as H.
    by destruct (parse_one_directive _ _ _).
Qed.
