(* ===== verification/ConfigLoad.v ===== *)
(** * The configuration file: loading

    The loop that reads the file in pieces computes what its lines say, wherever the
    pieces end, and ends for every file; whatever the file system answers, the file
    is closed and nothing is read from it afterwards. *)

From S2P Require Import Prelude Interaction Buffer Platform Packet UserPolicy Userauth Ident TransportState Transport.
From S2P Require Import Sftp SftpPath SftpServer ServerState ConfigFile ConfigMatch ConfigValues ConfigLine.

Definition is_newline (c : Z) : bool := c =? 10.

(** ** The meaning of a file *)
Section meaning.
Context (match_context : option ssh_sshd_match_context).

(** A line, with or without the newline that ends it. *)
Definition load_line (line : list Z) : Prog parse_state unit :=
  if CONFIG_LINE_SIZE <=? zlen line then fail SSH_ERR_BUFFER_TOO_SMALL
  else parse_line_inplace (array_string line) match_context.

Fixpoint load_lines (lines : list (list Z)) : Prog parse_state unit :=
  match lines with
  | [] => mret tt
  | line :: lines' => load_line line;; load_lines lines'
  end.

Definition load_text (content : list Z) : outcome unit * ssh_sshd_config_file :=
  let '(o, s) := load_lines (split_on is_newline content) (mk_parse ssh_sshd_config_file_defaults true) in
  (o, ps_config s).

(** The lines of [text], the first of which goes on after [line]. *)
Definition load_from (line text : list Z) : Prog parse_state unit :=
  match split_on is_newline text with
  | t :: ts => load_lines ((line ++ t) :: ts)
  | [] => mret tt
  end.

Lemma load_text_from content :
  load_text content =
    let '(o, s) := load_from [] content (mk_parse ssh_sshd_config_file_defaults true) in (o, ps_config s).
Proof. unfold load_text, load_from. by destruct (split_on_cons is_newline content) as (t & ts & ->). Qed.

Lemma load_from_newline line text p :
  load_from line (10 :: text) p = (load_line line;; load_from [] text) p.
Proof.
  unfold load_from. cbn [split_on is_newline Z.eqb Pos.eqb]. rewrite app_nil_r.
  by destruct (split_on_cons is_newline text) as (t & ts & ->).
Qed.

Lemma load_from_char line c text p :
  c <> 10 -> load_from line (c :: text) p = load_from (line ++ [c]) text p.
Proof.
  intros Hc. unfold load_from. cbn [split_on]. unfold is_newline at 1. rewrite (proj2 (Z.eqb_neq _ _) Hc).
  destruct (split_on_cons is_newline text) as (t & ts & ->). by rewrite <- app_assoc.
Qed.

Lemma load_from_long line text p :
  CONFIG_LINE_SIZE <= zlen line -> load_from line text p = (Err SSH_ERR_BUFFER_TOO_SMALL, p).
Proof.
  intros Hl. unfold load_from. destruct (split_on_cons is_newline text) as (t & ts & ->).
  cbn [load_lines mbind prog_bind]. unfold load_line. rewrite zlen_app. pose proof (zlen_nonneg t).
  by rewrite (proj2 (Z.leb_le _ _)) by lia.
Qed.

Lemma load_from_end line p : load_from line [] p = load_line line p.
Proof.
  unfold load_from. cbn [split_on load_lines]. rewrite app_nil_r. unfold mbind, prog_bind. by destruct (load_line line p) as [[[]|e|] q].
Qed.

Lemma load_line_short line :
  zlen line < CONFIG_LINE_SIZE -> load_line line = parse_line_inplace (array_string line) match_context.
Proof. intros Hl. unfold load_line. by rewrite (proj2 (Z.leb_gt _ _)) by lia. Qed.

(** ** A piece of the file

    What is left to do after a piece. *)
Definition left_after (o : outcome unit) (s : read_state) (more : list Z) : outcome unit * parse_state :=
  match o with
  | Ret _ => load_from (rd_line s) more (rd_parse s)
  | Err e => (Err e, rd_parse s)
  | Fault => (Fault, rd_parse s)
  end.

Lemma feed_chunk_exact chunk s more :
  zlen (rd_line s) < CONFIG_LINE_SIZE ->
  exists o s', feed_chunk match_context chunk s = Done (o, s') /\ (o = Ret tt -> zlen (rd_line s') < CONFIG_LINE_SIZE) /\
    load_from (rd_line s) (chunk ++ more) (rd_parse s) = left_after o s' more.
Proof.
  revert s. induction chunk as [|c chunk IH]; intros s Hs; cbn [feed_chunk app].
  { by exists (Ret tt), s. }
  destruct (Z.eqb_spec c 10) as [->|Hc].
  - rewrite load_from_newline. unfold mbind, prog_bind, io_bind. rewrite load_line_short by done. unfold parse_line at 1.
    destruct (parse_line_inplace (array_string (rd_line s)) match_context (rd_parse s)) as [[[]|e|] q]; cbn [tree_bind io_modify].
    + apply (IH (mk_read [] q)). cbn. by compute.
    + by exists (Err e), (mk_read (rd_line s) q).
    + by exists Fault, (mk_read (rd_line s) q).
  - rewrite load_from_char by done. unfold mbind, io_bind. cbn [io_get tree_bind]. unfold io_reject.
    destruct (zlen (rd_line s) + 1 >=? CONFIG_LINE_SIZE) eqn:E; cbn [tree_bind].
    + exists (Err SSH_ERR_BUFFER_TOO_SMALL), s. split_and!; [done|done|]. apply load_from_long. len_lia.
    + apply (IH (mk_read (rd_line s ++ [c]) (rd_parse s))). cbn. len_lia.
Qed.

End meaning.

(** ** A file system that serves a file

    Opening [path] gives the handle [h] with [content] unread; a read takes a piece of
    what is unread, an empty one only at the end. *)
Record serves_file {W} (e : env call reply W) (path content : list Z) (h : Z) (unread : W -> list Z) : Prop := {
  serves_open : forall w, let '(r, w') := e (FsOpen path SSH_FXF_READ) w in r = (SSH_OK, h) /\ unread w' = content;
  serves_read : forall w, let '(r, w') := e (FsRead h CONFIG_CHUNK_SIZE) w in
    exists bytes n, r = (SSH_OK, bytes, n) /\ 0 <= n <= zlen bytes /\ unread w = ztake n bytes ++ unread w' /\
      (n = 0 -> unread w = [])
}.

Section serving.
Context (match_context : option ssh_sshd_match_context).
Context {W : Type} (e : env call reply W) (path content : list Z) (h : Z) (unread : W -> list Z).
Context (He : serves_file e path content h unread).

Lemma read_loop_exact rounds s w :
  zlen (rd_line s) < CONFIG_LINE_SIZE -> (length (unread w) < rounds)%nat ->
  exists o s' w' evs,
    run e (read_loop match_context rounds h s) w = ((o, s'), w', evs) /\ o <> Ret None /\
    (o = Ret (Some tt) -> zlen (rd_line s') < CONFIG_LINE_SIZE) /\
    load_from match_context (rd_line s) (unread w) (rd_parse s) =
      left_after match_context (match o with Ret _ => Ret tt | Err err => Err err | Fault => Fault end) s' [].
Proof.
  revert s w. induction rounds as [|rounds IH]; intros s w Hs Hr; [lia|]. cbn [read_loop].
  pose proof (serves_read _ _ _ _ _ He w) as H. unfold mbind, io_bind. cbn [perform tree_bind run].
  destruct (e (FsRead h CONFIG_CHUNK_SIZE) w) as [r w1]. destruct H as (bytes & n & -> & Hn & Hu & H0).
  change (status_bad SSH_OK) with false. cbn [negb]. destruct (Z.eqb_spec n 0) as [->|Hn0].
  { rewrite H0 by done. exists (Ret (Some tt)), s, w1. eexists. cbn [mret io_ret run]. split_and!; done. }
  replace ((n <? 0) || (n >? zlen bytes)) with false by bool_lia.
  destruct (feed_chunk_exact match_context (ztake n bytes) s (unread w1) Hs) as (o & s1 & Ef & Hl & Eq).
  rewrite Hu, Eq. unfold or_close, attempt, mbind, io_bind. rewrite Ef. cbn [tree_bind].
  destruct o as [[]|err|]; cbn [tree_bind left_after].
  - specialize (Hl eq_refl). assert (length (unread w1) < rounds)%nat as Hr1.
    { apply (f_equal length) in Hu. rewrite length_app in Hu. unfold ztake in Hu. rewrite length_take in Hu.
      unfold zlen in Hn. lia. }
    destruct (IH s1 w1 Hl Hr1) as (o & s2 & w2 & evs & Erun & H1 & H2 & H3).
    exists o, s2, w2. eexists. cbn [mret io_ret tree_bind]. rewrite Erun. done.
  - unfold perform, io_fail. cbn [tree_bind run]. destruct (e (FsClose h) w1) as [r2 w2].
    exists (Err err), s1, w2. eexists. done.
  - exists Fault, s1, w1. eexists. done.
Qed.

(** The status and the configuration, with the mark that the file came to its end. *)
Definition load_result (r : outcome unit * ssh_sshd_config_file) : outcome (option unit) * ssh_sshd_config_file :=
  (match fst r with Ret _ => Ret (Some tt) | Err err => Err err | Fault => Fault end, snd r).

Lemma load_run api rounds w :
  fs_open api = true -> fs_read api = true -> fs_close api = true -> (length content < rounds)%nat ->
  exists w' evs,
    run e (ssh_sshd_config_file_load_with_match_context (Some api) (Some path) match_context rounds) w =
      (load_result (load_text match_context content), w', evs).
Proof.
  intros Ho Hr Hc Hrounds. unfold ssh_sshd_config_file_load_with_match_context, read_and_parse_file_via_fs.
  rewrite Ho, Hr, Hc. cbn [negb orb io_reject]. unfold mbind, io_bind, mret, io_ret. cbn [tree_bind perform run].
  pose proof (serves_open _ _ _ _ _ He w) as H. destruct (e (FsOpen path SSH_FXF_READ) w) as [r w1]. destruct H as [-> Hu].
  change (status_bad SSH_OK) with false. cbn match.
  set (s0 := mk_read [] (mk_parse ssh_sshd_config_file_defaults true)).
  assert (zlen (rd_line s0) < CONFIG_LINE_SIZE) as Hs0 by (by compute).
  destruct (read_loop_exact rounds s0 w1 Hs0 ltac:(by rewrite Hu)) as (o & s1 & w2 & evs & Erun & Hne & Hl & Eq).
  rewrite load_text_from. rewrite Hu in Eq. cbn [rd_line rd_parse s0] in Eq. rewrite Eq.
  match goal with |- context [tree_bind (tree_bind (read_loop _ _ _ _) ?K) _] => set (k := K) end.
  set (res := left_after _ _ _ _) in *.
  assert (exists s2 w3 evs3, run e (k (o, s1)) w2 = ((fst (load_result (let '(o, s) := res in (o, ps_config s))), s2), w3, evs3) /\
    ps_config (rd_parse s2) = snd (let '(o, s) := res in (o, ps_config s))) as (s2 & w3 & evs3 & Ek & Es2).
  { unfold res, k. clear -Hl Hne. destruct o as [[[]|]|err|]; [|done|by eexists _, _, _..]. specialize (Hl eq_refl).
    cbn [left_after]. rewrite load_from_end, load_line_short by done. cbn [io_get tree_bind].
    destruct (Z.eqb_spec (zlen (rd_line s1)) 0) as [E|E]; cbn [negb].
    - apply zlen_zero_inv in E. rewrite E. cbn [tree_bind run]. destruct (e (FsClose h) w2) as [r w3]. by eexists _, _, _.
    - unfold or_close, attempt, mbind, io_bind, parse_line. destruct (parse_line_inplace _ _ _) as [[[]|err|] q]; cbn [tree_bind fst snd run].
      + unfold mret, io_ret. cbn [tree_bind run]. destruct (e (FsClose h) w2) as [r w3]. by eexists _, _, _.
      + unfold perform, io_fail. cbn [tree_bind run]. destruct (e (FsClose h) w2) as [r w3]. by eexists _, _, _.
      + by eexists _, _, _. }
  pose proof (run_tree_bind e _ k w1 _ w2 evs _ w3 evs3 Erun Ek) as Erun2.
  erewrite run_tree_bind; [|exact Erun2|reflexivity]. rewrite Es2. by eexists _, _.
Qed.
End serving.

(** ** The file, whatever the file system answers *)
Inductive file_watch : Type := NotOpened | Opened (handle : Z) | Closed.

Definition file_step (x : file_watch) (c : call) : reply c -> file_watch :=
  match c return reply c -> file_watch with
  | FsOpen _ _ => fun r => if status_bad (fst r) then Closed else Opened (snd r)
  | FsClose _ => fun _ => Closed
  | _ => fun _ => x
  end.

(** The named file is opened once, for reading; the handle is read a chunk at a time
    and closed once; there are no other calls. *)
Definition file_permits (path : option (list Z)) (x : file_watch) (c : call) : Prop :=
  match c with
  | FsOpen p flags => x = NotOpened /\ path = Some p /\ flags = SSH_FXF_READ
  | FsRead h len => x = Opened h /\ len = CONFIG_CHUNK_SIZE
  | FsClose h => x = Opened h
  | _ => False
  end.

(** A read counts at most what it stored. *)
Definition file_reply_good (c : call) : reply c -> Prop :=
  match c return reply c -> Prop with
  | FsRead _ _ => fun r => status_bad (fst (fst r)) = false -> 0 <= snd r <= zlen (snd (fst r))
  | _ => fun _ => True
  end.

Section safety.
Context (match_context : option ssh_sshd_match_context) (path : option (list Z)).
Abbreviation fwp := (wp file_step (file_permits path) file_reply_good).

Lemma line_done s :
  config_ok (ps_config (rd_parse s)) ->
  exists o s', parse_line match_context s = Done (o, s') /\ o <> Fault /\ config_ok (ps_config (rd_parse s')).
Proof.
  intros Hs. unfold parse_line. pose proof (keeps_line (array_string (rd_line s)) match_context (rd_parse s) (array_text _) Hs) as H.
  destruct (parse_line_inplace _ _ _) as [o q]. by exists o, (mk_read (rd_line s) q).
Qed.

Lemma chunk_done chunk s :
  config_ok (ps_config (rd_parse s)) ->
  exists o s', feed_chunk match_context chunk s = Done (o, s') /\ o <> Fault /\ config_ok (ps_config (rd_parse s')).
Proof.
  revert s. induction chunk as [|c chunk IH]; intros s Hs; cbn [feed_chunk].
  { by exists (Ret tt), s. }
  unfold mbind, io_bind. destruct (c =? 10).
  - destruct (line_done s Hs) as (o & s1 & -> & Hf & Hs1). cbn [tree_bind].
    destruct o as [[]|e|]; [|by eexists _, _|done]. cbn [io_modify tree_bind]. by apply IH.
  - cbn [io_get tree_bind]. unfold io_reject. destruct (_ >=? _); cbn [tree_bind].
    + by eexists _, _.
    + unfold mret, io_ret. cbn [io_modify tree_bind]. by apply IH.
Qed.

(** The end of a run: the configuration is in order, and the file is in the state [x]. *)
Definition file_end (h : Z) {A} (r : outcome A * read_state) (x : file_watch) : Prop :=
  fst r <> Fault /\ config_ok (ps_config (rd_parse (snd r))) /\
  match fst r with Ret _ => x = Opened h | _ => x = Closed end.

Lemma or_close_ends h (p : ReadM unit) s :
  (exists o s', p s = Done (o, s') /\ o <> Fault /\ config_ok (ps_config (rd_parse s'))) ->
  fwp (or_close h p s) (file_end h) (Opened h).
Proof.
  intros (o & s' & E & Hf & Hs). unfold or_close, attempt, mbind, io_bind. rewrite E. by destruct o as [[]|e|].
Qed.

Lemma read_loop_ends rounds h s :
  config_ok (ps_config (rd_parse s)) -> fwp (read_loop match_context rounds h s) (file_end h) (Opened h).
Proof.
  revert s. induction rounds as [|rounds IH]; intros s Hs; cbn [read_loop]; [done|].
  apply wp_mbind. split; [done|]. intros [[st chunk] n] Hr. cbn in Hr. cbn [file_step wp].
  destruct (status_bad st); [by split|]. specialize (Hr eq_refl). destruct (n =? 0); [done|].
  replace ((n <? 0) || (n >? zlen chunk)) with false by bool_lia.
  apply wp_mbind. eapply wp_conseq; [apply or_close_ends, chunk_done, Hs|].
  intros [o s'] x (Hf & Hs' & Hx). cbn [fst snd] in *. destruct o as [[]|e|]; [subst x; by apply IH|done|done].
Qed.

Lemma load_ends fs rounds :
  fwp (ssh_sshd_config_file_load_with_match_context fs path match_context rounds)
    (fun '(o, c) x => o <> Fault /\ config_ok c /\ forall h, x = Opened h -> o = Ret None) NotOpened.
Proof.
  unfold ssh_sshd_config_file_load_with_match_context. apply wp_tree_bind.
  apply (wp_conseq _ _ _ _ (fun r x => fst r <> Fault /\ config_ok (ps_config (rd_parse (snd r))) /\
    forall h, x = Opened h -> fst r = Ret None)); [|by intros [o s] x].
  pose proof defaults_ok as Hs. set (s0 := mk_read _ _). change ssh_sshd_config_file_defaults with (ps_config (rd_parse s0)) in Hs.
  clearbody s0. unfold read_and_parse_file_via_fs. destruct fs as [api|]; [|done]. destruct path as [p|] eqn:Ep; [|done].
  unfold io_reject. destruct (_ || _); [done|]. apply wp_mbind. cbn [wp mret io_ret].
  apply wp_mbind. split; [done|]. intros [st h] _. cbn [file_step fst snd wp].
  destruct (status_bad st); [done|]. apply wp_mbind. eapply wp_conseq; [rewrite <- Ep; by apply read_loop_ends|].
  intros [o s] x (Hf & Hc & Hx). cbn [fst snd] in *. destruct o as [[u|]|e|]; [|by split_and!|by subst x|done]. subst x.
  apply wp_mbind. cbn [wp io_get]. apply wp_mbind.
  apply (wp_conseq _ _ _ _ (file_end h)).
  - destruct (negb _); [rewrite <- Ep; by apply or_close_ends, line_done|done].
  - intros [o s1] x (Hf1 & Hc1 & Hx1). cbn [fst snd] in *. destruct o as [[]|e|]; [|by subst x|done]. subst x.
    apply wp_mbind. by split.
Qed.
End safety.

(** ** The properties *)

(** A file system that serves [content] in pieces of [size] bytes and has nothing else. *)
Definition piecewise (content : list Z) (size : nat) : env call reply (list Z) := fun c unread =>
  match c return reply c * list Z with
  | FsOpen _ _ | FsOpendir _ => ((SSH_OK, 7), content)
  | FsRead _ _ | FsReadAt _ _ _ => ((SSH_OK, take size unread, zlen (take size unread)), drop size unread)
  | FsWrite _ _ | FsWriteAt _ _ _ => ((SSH_ERR_UNSUPPORTED, 0), unread)
  | FsStat _ | FsLstat _ => ((SSH_ERR_UNSUPPORTED, None), unread)
  | FsReaddir _ => ((SSH_ERR_UNSUPPORTED, mk_dirent None None zero_attrs, true), unread)
  | FsStatvfs _ | FsFstatvfs _ => ((SSH_ERR_UNSUPPORTED, mk_statvfs 0 0 0 0 0 0 0 0 0 0 0), unread)
  | _ => (SSH_ERR_UNSUPPORTED, unread)
  end.

Lemma piecewise_serves content size h path :
  h = 7 -> (0 < size)%nat -> serves_file (piecewise content size) path content h (fun unread => unread).
Proof.
  intros -> Hs. split; [done|]. intros w. cbn. exists (take size w), (zlen (take size w)).
  split_and!; [done|apply zlen_nonneg|done|by rewrite ztake_all, take_drop|].
  intros H%zlen_zero_inv. destruct w, size; done || lia.
Qed.

(** C22: loading returns, and computes what the lines of the file say, one after
    the other up to the first that is refused, for every file system that serves the
    file, wherever it ends the pieces; a line of 1024 characters or more is refused. *)
Theorem config_load_exact {W} (e : env call reply W) path content h unread match_context api rounds w :
  serves_file e path content h unread ->
  fs_open api = true -> fs_read api = true -> fs_close api = true -> (length content < rounds)%nat ->
  fst (fst (run e (ssh_sshd_config_file_load_with_match_context (Some api) (Some path) match_context rounds) w)) =
    load_result (load_text match_context content).
Proof.
  intros He Ho Hr Hc Hl. by destruct (load_run match_context e path content h unread He api rounds w Ho Hr Hc Hl) as (w' & evs & ->).
Qed.

Definition demo_api : ssh_fs_api :=
  mk_fs_api true true true false false false false false false false false false false false false
    false false false false false false false.
(** Two directives and a block that does not apply. *)
Definition demo_file : list Z :=
  cstr "Port 2200" ++ [10] ++ cstr "  PermitRootLogin = no # never" ++ [10] ++ cstr "Match User bob" ++ [10] ++ cstr "Port 22".
Definition demo_configuration : ssh_sshd_config_file :=
  with_permit_root_login EMSSH_PERMIT_ROOT_LOGIN_NO (with_port true 2200 ssh_sshd_config_file_defaults).

Lemma config_load_exact_witness :
  fst (fst (run (piecewise demo_file 5) (ssh_sshd_config_file_load_with_match_context (Some demo_api) (Some (cstr "c")) None 100) [])) =
    (Ret (Some tt), demo_configuration).
Proof.
  rewrite (config_load_exact (piecewise demo_file 5) (cstr "c") demo_file 7 (fun unread => unread) None demo_api 100 []);
    [by vm_compute|apply piecewise_serves; [done|lia]|done|done|done|].
  apply (bool_decide_unpack _). by vm_compute.
Defined.

(** C23: whatever the file system answers and whatever the file holds: it is opened once
    and for reading only, read through the handle that was returned, and closed before
    the function returns, on success and on every error; there is no undefined
    behaviour, and the configuration has its numbers in range and strings that fit. *)
Theorem config_load_safe {W} (e : env call reply W) fs path match_context rounds w :
  env_good file_reply_good e ->
  let '((o, config), _, evs) := run e (ssh_sshd_config_file_load_with_match_context fs path match_context rounds) w in
  accepted file_step (file_permits path) NotOpened evs /\ o <> Fault /\ config_ok config /\
  forall h, final file_step NotOpened evs = Opened h -> o = Ret None.
Proof.
  intros He. pose proof (run_monitored _ _ _ e _ _ NotOpened w He (load_ends match_context path fs rounds)) as H.
  by destruct (run e _ w) as [[[o c] w'] evs].
Qed.

Lemma config_load_safe_witness :
  let '((o, config), _, evs) :=
    run (piecewise demo_file 5) (ssh_sshd_config_file_load_with_match_context (Some demo_api) (Some (cstr "c")) None 100) [] in
  o = Ret (Some tt) /\ config_ok config /\ final file_step NotOpened evs = Closed.
Proof.
  assert (env_good file_reply_good (piecewise demo_file 5)) as He.
  { intros c w. destruct c; cbn; try done. intros _. pose proof (zlen_nonneg (take 5 w)). lia. }
  pose proof (config_load_safe (piecewise demo_file 5) (Some demo_api) (Some (cstr "c")) None 100 [] He) as H.
  assert (fst (fst (fst (run (piecewise demo_file 5)
    (ssh_sshd_config_file_load_with_match_context (Some demo_api) (Some (cstr "c")) None 100) []))) = Ret (Some tt)) as Ho by (by vm_compute).
  assert (final file_step NotOpened (snd (run (piecewise demo_file 5)
    (ssh_sshd_config_file_load_with_match_context (Some demo_api) (Some (cstr "c")) None 100) [])) = Closed) as Hf by (by vm_compute).
  destruct (run _ _ _) as [[[o c] w] evs]. cbn [fst snd] in *. by destruct H as (_ & _ & Hc & _).
Defined.
