(* ===== verification/ConfigRound.v ===== *)
(** * The configuration file: writing one and reading it back

    A configuration written as lines of keywords and values, and that loading these
    lines gives the configuration again. *)

From S2P Require Import Prelude Interaction Buffer Platform Packet UserPolicy Userauth Ident TransportState Transport.
From S2P Require Import Sftp SftpPath SftpServer ServerState ConfigFile ConfigMatch ConfigValues ConfigLine ConfigLoad.

(** ** Writing *)
Fixpoint show_number (fuel : nat) (n : Z) : list Z :=
  match fuel with
  | O => []
  | S fuel' => if n <? 10 then [48 + n] else show_number fuel' (n / 10) ++ [48 + n mod 10]
  end.
(** Five digits hold every number of the configuration. *)
Definition show_uint (n : Z) : list Z := show_number 5 n.
Definition show_bool (b : bool) : list Z := if b then cstr "yes" else cstr "no".
Definition show_permit_root_login (n : Z) : list Z :=
  if n =? EMSSH_PERMIT_ROOT_LOGIN_YES then cstr "yes" else
  if n =? EMSSH_PERMIT_ROOT_LOGIN_NO then cstr "no" else cstr "prohibit-password".

Definition directive_line (key value : list Z) : list Z := key ++ 32 :: value.
Definition option_lines {A} (key : string) (show : A -> list Z) (x : option A) : list (list Z) :=
  match x with Some v => [directive_line (cstr key) (show v)] | None => [] end.
Definition set_port (c : ssh_sshd_config_file) : option Z := if cf_has_port c then Some (cf_port c) else None.

Definition show_config (c : ssh_sshd_config_file) : list (list Z) :=
  option_lines "Port" show_uint (set_port c) ++
  option_lines "ListenAddress" id (cf_listen_address c) ++
  option_lines "MaxAuthTries" show_uint (cf_max_auth_tries c) ++
  option_lines "PasswordAuthentication" show_bool (cf_password_authentication c) ++
  option_lines "PubkeyAuthentication" show_bool (cf_pubkey_authentication c) ++
  option_lines "PermitRootLogin" show_permit_root_login (cf_permit_root_login c) ++
  option_lines "AllowUsers" id (cf_allow_users c) ++
  option_lines "Subsystem" id (cf_subsystem_name c) ++
  option_lines "AuthorizedKeysFile" id (cf_authorized_keys_file c) ++
  option_lines "ChrootDirectory" id (cf_chroot_directory c) ++
  option_lines "HostKey" id (cf_host_key_file c).

(** Every line ends with a newline. *)
Definition file_of (lines : list (list Z)) : list Z := concat (map (fun line => line ++ [10]) lines).

(** ** Text that stands for itself *)
Definition plain_char (c : Z) : bool := negb ((c =? 0) || (c =? 10) || (c =? 35)).
Definition key_char (c : Z) : bool := plain_char c && negb (is_space_char c || (c =? 61)).
Definition first_char (c : Z) : bool := negb (is_space_char c || (c =? 61) || (c =? 34) || (c =? 39)).

Record plain_value (v : list Z) : Prop := {
  plain_chars : forallb plain_char v = true;
  plain_first : first_char (hd 32 v) = true;
  plain_last : is_space_char (List.last v 32) = false;
  plain_size : zlen v < EMSSH_SSHD_CONFIG_VALUE_MAX
}.
Definition plain_key (k : list Z) : bool := forallb key_char k && (0 <? zlen k) && (zlen k <? 100).

Lemma plain_char_facts c : plain_char c = true -> c <> 0 /\ c <> 10 /\ (c =? 35) = false.
Proof. unfold plain_char. intros H. split_and!; bool_lia. Qed.
Lemma key_char_facts c :
  key_char c = true -> plain_char c = true /\ is_space_char c = false /\ (c =? 61) = false.
Proof. unfold key_char. intros [? [? ?]%negb_true_iff%orb_false_iff]%andb_prop. done. Qed.

Lemma trim_left_first c l : is_space_char c = false -> trim_left (c :: l) = c :: l.
Proof. intros Hc. unfold trim_left. cbn [scan_until]. unfold not_space_char at 1. by rewrite Hc. Qed.

Lemma trim_right_last l : is_space_char (List.last l 32) = false -> trim_right_inplace l = l.
Proof.
  destruct l as [|c l _] using rev_ind; [done|]. rewrite List.last_last. intros Hc. unfold trim_right_inplace.
  rewrite length_app, Nat.add_comm. cbn [trim_right_loop length Nat.add]. unfold byte_at.
  rewrite app_nth2, Nat.sub_diag by lia. cbn [nth]. rewrite Hc. by rewrite take_ge by (rewrite length_app; cbn; lia).
Qed.

Lemma last_app_cons (a : list Z) c b d : List.last (a ++ c :: b) d = List.last (c :: b) d.
Proof. induction a as [|x a IH]; [done|]. cbn [app List.last]. rewrite IH. by destruct (a ++ c :: b) eqn:E; [destruct a|]. Qed.

Lemma plain_key_chars k : plain_key k = true -> Forall (fun c => key_char c = true) k /\ 0 < zlen k < 100.
Proof.
  intros [[Hk H1]%andb_prop H2]%andb_prop. split; [|lia]. by apply Forall_forall, forallb_forall.
Qed.

Lemma parse_directive_line key value ctx c :
  plain_key key = true -> str_ieq key (cstr "Match") = false -> plain_value value ->
  parse_line_inplace (directive_line key value) ctx (mk_parse c true) =
    let '(o, c') := parse_one_directive key value c in (o, mk_parse c' true).
Proof.
  intros Hk Hm Hv. apply plain_key_chars in Hk as [Hk Hkl]. pose proof (plain_chars _ Hv) as Hp.
  pose proof (plain_first _ Hv) as Hf. pose proof (plain_last _ Hv) as Hla. unfold parse_line_inplace, directive_line.
  destruct value as [|b value]; [done|]. cbn [hd] in Hf. unfold first_char in Hf. rewrite negb_true_iff, !orb_false_iff in Hf.
  destruct Hf as [[[Hb1 Hb2] Hb3] Hb4].
  assert (scan_until (fun c => c =? 35) (key ++ 32 :: b :: value) = (key ++ 32 :: b :: value, [])) as ->.
  { apply scan_until_exact. split_and!; [by rewrite app_nil_r| |by left]. apply Forall_app. split.
    - eapply Forall_impl; [|exact Hk]. by intros x [(_ & _ & ?)%plain_char_facts _]%key_char_facts.
    - constructor; [done|]. apply Forall_forall. by intros x (_ & _ & ?)%(proj1 (forallb_forall _ _) Hp)%plain_char_facts. }
  cbn [fst]. rewrite trim_right_last by (by rewrite last_app_cons).
  destruct key as [|k key]; [by destruct Hkl|]. pose proof Hk as [Hk1 _]%Forall_cons_1. cbn [app].
  rewrite trim_left_first by (by apply key_char_facts). change (k :: key ++ 32 :: b :: value) with ((k :: key) ++ 32 :: b :: value).
  rewrite (proj2 (Z.eqb_neq (zlen _) 0)) by (pose proof (zlen_nonneg value); len_lia).
  rewrite (proj2 (scan_until_exact _ _ (k :: key) (32 :: b :: value))).
  2:{ split_and!; [done| |right; by eexists _, _]. eapply Forall_impl; [|exact Hk]. by intros x (_ & -> & ->)%key_char_facts. }
  cbn [scan_until]. rewrite Hb1, Hb2. cbn [orb negb snd]. rewrite trim_right_last, trim_left_first by done.
  rewrite (proj2 (Z.eqb_neq (zlen _) 0)) by (pose proof (zlen_nonneg value); len_lia).
  cbn [unquote]. rewrite Hb3, Hb4. cbn [orb andb]. rewrite Hm. cbn [ps_match_block_active ps_config negb].
  done.
Qed.

(** ** Lines *)
Lemma plain_line key value :
  plain_key key = true -> plain_value value ->
  Forall (fun c => c <> 0 /\ c <> 10) (directive_line key value) /\ zlen (directive_line key value) < CONFIG_LINE_SIZE.
Proof.
  intros [Hk Hl]%plain_key_chars Hv. pose proof (plain_size _ Hv) as Hs. split.
  - apply Forall_app. split; [|constructor; [done|]].
    + eapply Forall_impl; [|exact Hk]. by intros x [(? & ? & _)%plain_char_facts _]%key_char_facts.
    + apply Forall_forall. by intros x (? & ? & _)%(proj1 (forallb_forall _ _) (plain_chars _ Hv))%plain_char_facts.
  - unfold directive_line, CONFIG_LINE_SIZE, EMSSH_SSHD_CONFIG_VALUE_MAX in *. len_lia.
Qed.

Lemma array_string_plain l : Forall (fun c => c <> 0 /\ c <> 10) l -> array_string l = l.
Proof.
  intros Hl. unfold array_string. rewrite (proj2 (scan_until_exact _ l l [])); [done|]. split_and!; [by rewrite app_nil_r| |by left].
  eapply Forall_impl; [|exact Hl]. intros c [Hc _]. by apply Z.eqb_neq.
Qed.

Lemma split_file lines :
  Forall (fun line => Forall (fun c => c <> 0 /\ c <> 10) line) lines ->
  split_on is_newline (file_of lines) = lines ++ [[]].
Proof.
  induction 1 as [|line lines Hl _ IH]; [done|]. unfold file_of in *. cbn [map concat]. rewrite <- app_assoc.
  pose proof (scan_until_split is_newline (line ++ [10] ++ concat (map (fun line => line ++ [10]) lines))) as Hs.
  rewrite (proj2 (scan_until_exact _ _ line ([10] ++ concat (map (fun line => line ++ [10]) lines)))) in Hs.
  - destruct Hs as (-> & _). cbn [app]. by rewrite IH.
  - split_and!; [done| |right; by eexists _, _]. eapply Forall_impl; [|exact Hl]. intros c [_ Hc]. by apply Z.eqb_neq.
Qed.

(** The line of an optional field, where [C] is the configuration with the field. *)
Lemma load_option_line {A} key (show : A -> list Z) (x : option A) (C : option A -> ssh_sshd_config_file) ctx more :
  plain_key (cstr key) && negb (str_ieq (cstr key) (cstr "Match")) = true ->
  opt_holds (fun v => plain_value (show v) /\ parse_one_directive (cstr key) (show v) (C None) = (Ret tt, C (Some v))) x ->
  load_lines ctx (option_lines key show x ++ more) (mk_parse (C None) true) = load_lines ctx more (mk_parse (C x) true) /\
  Forall (fun line => Forall (fun c => c <> 0 /\ c <> 10) line) (option_lines key show x).
Proof.
  intros [Hk Hm%negb_true_iff]%andb_prop Hx. destruct x as [v|]; cbn [option_lines opt_holds] in *; [|done].
  destruct Hx as [Hv Hd]. destruct (plain_line _ _ Hk Hv) as [Hl Hs]. split; [|by repeat constructor]. cbn [app load_lines].
  unfold mbind, prog_bind. rewrite load_line_short, array_string_plain, parse_directive_line by done. by rewrite Hd.
Qed.

(** ** Values *)
Lemma show_number_exact fuel n :
  0 <= n < 10 ^ Z.of_nat fuel -> (0 < fuel)%nat ->
  forallb is_digit (show_number fuel n) = true /\ decimal (show_number fuel n) = n /\
  0 < zlen (show_number fuel n) <= Z.of_nat fuel.
Proof.
  revert n. induction fuel as [|fuel IH]; intros n Hn Hf; [lia|]. cbn [show_number].
  rewrite Nat2Z.inj_succ, Z.pow_succ_r in Hn by lia. destruct (Z.ltb_spec n 10).
  { split_and!; [unfold is_digit; cbn; bool_lia|unfold decimal, decimal_from; cbn; lia|done|unfold zlen; cbn; lia]. }
  pose proof (Z.div_mod n 10 ltac:(lia)). pose proof (Z.mod_pos_bound n 10 ltac:(lia)).
  assert (0 <= n / 10 < 10 ^ Z.of_nat fuel) as Hd by (split; [apply Z.div_pos; lia|apply Z.div_lt_upper_bound; lia]).
  assert (0 < fuel)%nat as Hf1 by (destruct fuel; [cbn in Hd; lia|lia]).
  destruct (IH _ Hd Hf1) as (Hi1 & Hi2 & Hi3). split_and!.
  - rewrite forallb_app, Hi1. unfold is_digit. cbn. bool_lia.
  - unfold decimal, decimal_from in *. rewrite fold_left_app, Hi2. cbn. lia.
  - len_lia.
  - len_lia.
Qed.

Lemma digits_plain l : forallb is_digit l = true -> 0 < zlen l < EMSSH_SSHD_CONFIG_VALUE_MAX -> plain_value l.
Proof.
  intros Hl Hs. assert (forall c, c ∈ l -> 48 <= c <= 57) as Hd.
  { intros c Hc%list_elem_of_In. pose proof (proj1 (forallb_forall _ _) Hl c Hc) as H. unfold is_digit in H. bool_lia. }
  assert (forall c, 48 <= c <= 57 -> is_space_char c = false) as Hns by (intros c Hc; unfold is_space_char; bool_lia).
  split; [|..|lia].
  - apply forallb_forall. intros c Hc%list_elem_of_In%Hd. unfold plain_char. bool_lia.
  - destruct l as [|c l]; [by destruct Hs|]. cbn. unfold first_char. specialize (Hd c ltac:(left)). rewrite Hns by done. bool_lia.
  - destruct l as [|c l _] using rev_ind; [by destruct Hs|]. rewrite List.last_last. apply Hns, Hd, elem_of_app. right. left.
Qed.

Lemma uint_written n max :
  1 <= n <= max -> 9 <= max <= 65535 ->
  plain_value (show_uint n) /\ parse_uint_in_range (show_uint n) max = Ret n.
Proof.
  intros Hn Hm. destruct (show_number_exact 5 n) as (H1 & H2 & H3); [cbn; lia|lia|]. fold (show_uint n) in *. split.
  - apply digits_plain; [done|unfold EMSSH_SSHD_CONFIG_VALUE_MAX; lia].
  - rewrite parse_uint_number by lia. unfold number_in_range. rewrite H1, H2. cbn [andb].
    by rewrite !(proj2 (Z.leb_le _ _)) by lia.
Qed.

Lemma plain_word s :
  let v := cstr s in
  forallb plain_char v && first_char (hd 32 v) && negb (is_space_char (List.last v 32)) && (zlen v <? EMSSH_SSHD_CONFIG_VALUE_MAX) = true ->
  plain_value v.
Proof. intros v [[[? ?]%andb_prop ?%negb_true_iff]%andb_prop ?%Z.ltb_lt]%andb_prop. by split. Qed.

Lemma bool_written b : plain_value (show_bool b) /\ parse_bool_value (show_bool b) = Ret b.
Proof. split; destruct b; try done; by apply plain_word. Qed.

Lemma permit_written n :
  EMSSH_PERMIT_ROOT_LOGIN_NO <= n <= EMSSH_PERMIT_ROOT_LOGIN_PROHIBIT_PASSWORD ->
  plain_value (show_permit_root_login n) /\ parse_permit_root_login_value (show_permit_root_login n) = Ret n.
Proof.
  intros Hn. unfold EMSSH_PERMIT_ROOT_LOGIN_NO, EMSSH_PERMIT_ROOT_LOGIN_PROHIBIT_PASSWORD in *.
  assert (n = 1 \/ n = 2 \/ n = 3) as [->|[->| ->]] by lia; (split; [by apply plain_word|done]).
Qed.

Lemma string_written v : plain_value v -> set_string_value EMSSH_SSHD_CONFIG_VALUE_MAX v = Ret v.
Proof.
  intros Hv. pose proof (plain_size _ Hv) as Hs. unfold set_string_value.
  rewrite (proj2 (Z.eqb_neq (zlen v) 0)) by (intros ->%zlen_zero_inv; by destruct Hv). cbn [orb].
  by replace (zlen v >=? EMSSH_SSHD_CONFIG_VALUE_MAX) with false by bool_lia.
Qed.

(** The configurations that can be written: the strings have no character with a
    meaning of its own, the name of the subsystem is one word, and the address is
    written without a port. *)
Record writable (c : ssh_sshd_config_file) : Prop := {
  writable_ok : config_ok c;
  writable_port : cf_has_port c = false -> cf_port c = 0;
  writable_listen : opt_holds (fun v => plain_value v /\ hd 0 v <> 91 /\ (cf_has_port c = true \/ Forall (fun b => b <> COLON) v))
    (cf_listen_address c);
  writable_users : opt_holds plain_value (cf_allow_users c);
  writable_subsystem : opt_holds (fun v => plain_value v /\ Forall (fun b => is_space_char b = false) v) (cf_subsystem_name c);
  writable_keys : opt_holds plain_value (cf_authorized_keys_file c);
  writable_chroot : opt_holds plain_value (cf_chroot_directory c);
  writable_host_key : opt_holds plain_value (cf_host_key_file c)
}.

Lemma subsystem_written v :
  plain_value v -> Forall (fun b => is_space_char b = false) v ->
  parse_subsystem_value v EMSSH_SSHD_CONFIG_VALUE_MAX = Ret v.
Proof.
  intros Hv Hw. pose proof (plain_size _ Hv) as Hs. pose proof (plain_first _ Hv) as Hf. unfold parse_subsystem_value.
  destruct v as [|c v]; [done|]. pose proof Hw as [Hc _]%Forall_cons_1. rewrite trim_left_first by done.
  rewrite (proj2 (scan_until_exact _ _ (c :: v) [])) by (split_and!; [by rewrite app_nil_r|done|by left]). cbn [fst].
  rewrite (proj2 (Z.eqb_neq (zlen _) 0)) by (pose proof (zlen_nonneg v); len_lia). cbn [orb].
  by replace (zlen (c :: v) >=? EMSSH_SSHD_CONFIG_VALUE_MAX) with false by bool_lia.
Qed.

Lemma listen_written v (port_out : option Z) :
  plain_value v -> hd 0 v <> 91 -> port_out = None \/ Forall (fun b => b <> COLON) v ->
  parse_listen_address v EMSSH_SSHD_CONFIG_VALUE_MAX port_out = (Ret v, port_out).
Proof.
  intros Hv H91 Hp. pose proof (plain_size _ Hv) as Hs. pose proof (plain_first _ Hv) as Hf.
  assert ((zlen v =? 0) = false) as H0 by (apply Z.eqb_neq; intros ->%zlen_zero_inv; done).
  unfold parse_listen_address, reject. rewrite H0. destruct v as [|c v]; [done|]. cbn [hd] in H91.
  unfold mbind, prog_bind, mret, prog_ret, get_state. rewrite (proj2 (Z.eqb_neq _ _) H91).
  assert (match port_out, split_last COLON (c :: v) with Some _, Some _ => False | _, _ => True end) as Hn.
  { destruct port_out as [p|]; [|done]. destruct Hp as [?|Hp]; [done|]. unfold split_last.
    rewrite (proj2 (scan_until_exact _ _ (rev (c :: v)) [])); [done|]. split_and!; [by rewrite app_nil_r| |by left].
    apply Forall_rev. eapply Forall_impl; [|exact Hp]. intros b Hb. by apply Z.eqb_neq. }
  destruct port_out as [p|]; [destruct (split_last COLON (c :: v)) as [[before after]|]; [done|]|]; rewrite H0; cbn [orb];
    by replace (zlen (c :: v) >=? EMSSH_SSHD_CONFIG_VALUE_MAX) with false by bool_lia.
Qed.

(** ** Directives *)
Ltac run_directive :=
  unfold parse_one_directive, assign;
  repeat match goal with |- context [str_ieq (cstr ?a) (cstr ?b)] =>
    let v := eval vm_compute in (str_ieq (cstr a) (cstr b)) in change (str_ieq (cstr a) (cstr b)) with v
  end; cbn match.

(** The keyword with the value [show v] is accepted and does [set v]. *)
Definition sets {A} (key : string) (show : A -> list Z) (P : A -> Prop) (set : A -> ssh_sshd_config_file -> ssh_sshd_config_file) : Prop :=
  forall v c, P v -> plain_value (show v) /\ parse_one_directive (cstr key) (show v) c = (Ret tt, set v c).

Lemma port_sets : sets "Port" show_uint (fun n => 1 <= n <= 65535) (with_port true).
Proof.
  intros n c Hn. destruct (uint_written n 65535 Hn ltac:(lia)) as [Hp E]. split; [done|]. run_directive. rewrite E.
  by rewrite Z.mod_small by lia.
Qed.
Lemma tries_sets : sets "MaxAuthTries" show_uint (fun n => 1 <= n <= 255) with_max_auth_tries.
Proof.
  intros n c Hn. destruct (uint_written n 255 Hn ltac:(lia)) as [Hp E]. split; [done|]. run_directive. by rewrite E.
Qed.
Lemma password_sets : sets "PasswordAuthentication" show_bool (fun _ => True) with_password_authentication.
Proof. intros b c _. destruct (bool_written b) as [Hp E]. split; [done|]. run_directive. by rewrite E. Qed.
Lemma pubkey_sets : sets "PubkeyAuthentication" show_bool (fun _ => True) with_pubkey_authentication.
Proof. intros b c _. destruct (bool_written b) as [Hp E]. split; [done|]. run_directive. by rewrite E. Qed.
Lemma root_sets :
  sets "PermitRootLogin" show_permit_root_login
    (fun n => EMSSH_PERMIT_ROOT_LOGIN_NO <= n <= EMSSH_PERMIT_ROOT_LOGIN_PROHIBIT_PASSWORD) with_permit_root_login.
Proof. intros n c Hn. destruct (permit_written n Hn) as [Hp E]. split; [done|]. run_directive. by rewrite E. Qed.
Lemma users_sets : sets "AllowUsers" id plain_value with_allow_users.
Proof. intros v c Hv. split; [done|]. run_directive. by rewrite string_written. Qed.
Lemma keys_sets : sets "AuthorizedKeysFile" id plain_value with_authorized_keys_file.
Proof. intros v c Hv. split; [done|]. run_directive. by rewrite string_written. Qed.
Lemma chroot_sets : sets "ChrootDirectory" id plain_value with_chroot_directory.
Proof. intros v c Hv. split; [done|]. run_directive. by rewrite string_written. Qed.
Lemma host_key_sets : sets "HostKey" id plain_value with_host_key_file.
Proof. intros v c Hv. split; [done|]. run_directive. by rewrite string_written. Qed.
Lemma subsystem_sets :
  sets "Subsystem" id (fun v => plain_value v /\ Forall (fun b => is_space_char b = false) v) with_subsystem_name.
Proof. intros v c [Hv Hw]. split; [done|]. run_directive. by rewrite subsystem_written. Qed.
(** Without a port in the file so far, the address may not look like one with a port. *)
Lemma listen_sets v c :
  plain_value v /\ hd 0 v <> 91 /\ (cf_has_port c = true \/ Forall (fun b => b <> COLON) v) ->
  (cf_has_port c = false -> cf_port c = 0) ->
  plain_value v /\ parse_one_directive (cstr "ListenAddress") v c = (Ret tt, with_listen_address v c).
Proof.
  intros (Hv & H91 & Hc) Hp. split; [done|]. run_directive. unfold assign_listen_address.
  rewrite listen_written by (done || (destruct (cf_has_port c); naive_solver)).
  destruct c as [[] p]; cbn in *; [done|]. by rewrite Hp.
Qed.

(** The two restrictions on a written address are needed: a bare IPv6 address is cut
    at its last colon, and once a port is known the port of an address is left in it. *)
Lemma ipv6_address_cut :
  parse_listen_address (cstr "2001:db8::5") EMSSH_SSHD_CONFIG_VALUE_MAX (Some 0) = (Ret (cstr "2001:db8:"), Some 5).
Proof. by vm_compute. Qed.
Lemma listen_port_in_host :
  let '(o, config) := load_text None (file_of [cstr "Port 22"; cstr "ListenAddress 10.0.0.1:2222"]) in
  o = Ret tt /\ cf_port config = 22 /\ cf_listen_address config = Some (cstr "10.0.0.1:2222").
Proof. by vm_compute. Qed.

(** ** The whole file *)
Definition config_of (port : option Z) (listen : option (list Z)) (tries : option Z) (password pubkey : option bool)
    (root : option Z) (users subsystem keys chroot host_key : option (list Z)) : ssh_sshd_config_file :=
  mk_config_file (bool_decide (is_Some port)) (default 0 port) listen tries password pubkey root users subsystem keys chroot host_key.

Definition lines_plain (lines : list (list Z)) : Prop := Forall (fun line => Forall (fun c => c <> 0 /\ c <> 10) line) lines.

(** One field after the other. *)
Lemma load_sets {A} key (show : A -> list Z) P set (x : option A) C ctx more :
  plain_key (cstr key) && negb (str_ieq (cstr key) (cstr "Match")) = true ->
  sets key show P set -> opt_holds P x -> (forall v, set v (C None) = C (Some v)) ->
  load_lines ctx (option_lines key show x ++ more) (mk_parse (C None) true) = load_lines ctx more (mk_parse (C x) true) /\
  lines_plain (option_lines key show x).
Proof.
  intros Hk Hs Hx HC. apply load_option_line; [done|]. destruct x as [v|]; [|done]. cbn in *. rewrite <- HC. by apply Hs.
Qed.

Ltac next_field sets_lemma C :=
  match goal with |- context [load_lines ?ctx (option_lines ?key ?show ?x ++ ?more)] =>
    let H := fresh in let Hl := fresh "Hl" in
    destruct (load_sets key show _ _ x C ctx more eq_refl sets_lemma) as [H Hl];
      [try done; by destruct x|by intros v|cbv beta in H; rewrite H; clear H]
  end.

Lemma show_config_loads c ctx :
  writable c ->
  load_lines ctx (show_config c ++ [[]]) (mk_parse ssh_sshd_config_file_defaults true) = (Ret tt, mk_parse c true) /\
  lines_plain (show_config c).
Proof.
  intros [[Hp Hhas _ Htries Hroot _ _ _ _ _] Hport Hlisten Husers Hsub Hkeys Hchroot Hhost].
  destruct c as [has p la mt pw pk pr au sn ak cd hk]. cbn in *. unfold show_config, lines_plain. cbn.
  assert (opt_holds (fun n => 1 <= n <= 65535) (set_port (mk_config_file has p la mt pw pk pr au sn ak cd hk))) as Hset.
  { unfold set_port. destruct has; cbn; [|done]. specialize (Hhas eq_refl). lia. }
  set (port := set_port _) in *.
  replace (mk_config_file has p la mt pw pk pr au sn ak cd hk) with (config_of port la mt pw pk pr au sn ak cd hk)
    by (unfold config_of, port, set_port; destruct has; cbn; [done|by rewrite Hport]).
  assert (la = la /\ opt_holds (fun v => plain_value v /\ hd 0 v <> 91 /\ (is_Some port \/ Forall (fun b => b <> COLON) v)) la) as [_ Hla].
  { split; [done|]. unfold port, set_port. destruct has, la; cbn in *; naive_solver eauto. }
  clearbody port. clear Hp Hhas Hport Hlisten has p. rewrite <- !app_assoc.
  change ssh_sshd_config_file_defaults with (config_of None None None None None None None None None None None).
  next_field port_sets (fun x => config_of x None None None None None None None None None None).
  match goal with |- context [load_lines ctx (option_lines "ListenAddress" id la ++ ?more)] =>
    destruct (load_option_line "ListenAddress" id la
      (fun x => config_of port x None None None None None None None None None) ctx more eq_refl) as [H Hl0]
  end.
  { destruct la as [v|]; cbn in *; [|done]. apply (listen_sets v); cbn.
    - destruct port; naive_solver.
    - by destruct port. }
  cbv beta in H. rewrite H. clear H.
  next_field tries_sets (fun x => config_of port la x None None None None None None None None).
  next_field password_sets (fun x => config_of port la mt x None None None None None None None).
  next_field pubkey_sets (fun x => config_of port la mt pw x None None None None None None).
  next_field root_sets (fun x => config_of port la mt pw pk x None None None None None).
  next_field users_sets (fun x => config_of port la mt pw pk pr x None None None None).
  next_field subsystem_sets (fun x => config_of port la mt pw pk pr au x None None None).
  next_field keys_sets (fun x => config_of port la mt pw pk pr au sn x None None).
  next_field chroot_sets (fun x => config_of port la mt pw pk pr au sn ak x None).
  next_field host_key_sets (fun x => config_of port la mt pw pk pr au sn ak cd x).
  split; [done|]. by repeat apply Forall_app_2.
Qed.

(** ** The property *)

(** C24: a configuration that can be written, written line by line as [Keyword value] and
    loaded from any file system that serves the file, comes back as it was, for every
    connection.  It can be written ([writable]) if its numbers are in their ranges; if each
    of its strings has 1 to 511 characters, none of them NUL, a line end or a number sign,
    does not start with a space, a quote or an equals sign and does not end with a space; if
    the name of the subsystem is one word; if there is no port number behind an unset port;
    and if the listen address does not start with a bracket and has no colon unless the
    port is set.  Other strings are not claimed to come back: a bare IPv6 address without
    a port does not ([ipv6_address_cut]). *)
Theorem config_roundtrip {W} (e : env call reply W) path h unread match_context api rounds w config :
  writable config ->
  serves_file e path (file_of (show_config config)) h unread ->
  fs_open api = true -> fs_read api = true -> fs_close api = true ->
  (length (file_of (show_config config)) < rounds)%nat ->
  fst (fst (run e (ssh_sshd_config_file_load_with_match_context (Some api) (Some path) match_context rounds) w)) =
    (Ret (Some tt), config).
Proof.
  intros Hw He Ho Hr Hc Hl. destruct (show_config_loads config match_context Hw) as [E Hp].
  destruct (load_run match_context e path _ h unread He api rounds w Ho Hr Hc Hl) as (w' & evs & ->). cbn [fst].
  unfold load_text. rewrite split_file by done. by rewrite E.
Qed.

Definition demo_written : ssh_sshd_config_file :=
  mk_config_file true 2222 (Some (cstr "10.0.0.1")) (Some 3) (Some false) (Some true) (Some EMSSH_PERMIT_ROOT_LOGIN_NO)
    (Some (cstr "alice, bob")) (Some (cstr "sftp")) None (Some (cstr "/srv/data files")) None.

Lemma demo_written_ok : writable demo_written.
Proof.
  assert (forall s, forallb (fun c => negb (c =? 0)) (cstr s) && (0 <? zlen (cstr s)) && (zlen (cstr s) <? EMSSH_SSHD_CONFIG_VALUE_MAX) = true ->
    stored_text (cstr s)) as Hs.
  { intros s [[Ht ?]%andb_prop ?]%andb_prop. split; [|lia]. apply Forall_forall.
    intros c Hc%(proj1 (forallb_forall _ _) Ht). bool_lia. }
  split; [split|..]; cbn -[cstr]; try done; try (by apply Hs); try (by apply plain_word).
  - split_and!; [by apply plain_word|done|by left].
  - split; [by apply plain_word|]. by repeat constructor.
Qed.

Lemma config_roundtrip_witness :
  fst (fst (run (piecewise (file_of (show_config demo_written)) 100)
    (ssh_sshd_config_file_load_with_match_context (Some demo_api) (Some (cstr "c")) None 300) [])) =
  (Ret (Some tt), demo_written).
Proof.
  apply (config_roundtrip (piecewise (file_of (show_config demo_written)) 100) (cstr "c") 7 (fun unread => unread));
    [apply demo_written_ok|apply piecewise_serves; [done|lia]|done|done|done|].
  apply (bool_decide_unpack _). by vm_compute.
Defined.
