(* ===== verification/ConfigApply.v ===== *)
(** * The configuration file: what it makes of the server

    The configuration that was loaded, applied to the configuration of a server and
    the options of a session: the server still starts, and a user it lets in is one
    the file admits. *)

From S2P Require Import Prelude Interaction Buffer Platform Packet UserPolicy Userauth Ident TransportState Transport.
From S2P Require Import Sftp SftpPath SftpServer ServerState ConfigFile ConfigMatch ConfigValues ConfigLine ConfigLoad.

(** What the file says about a login. *)
Definition admits (config : ssh_sshd_config_file) (r : ssh_userauth_request) : Prop :=
  let password := view_eq (method_name r) (Some SSH_AUTH_METHOD_PASSWORD) = true in
  let root := username_is_root (username r) = true in
  opt_holds (fun l => username_allowed_by_allow_users (Some l) (username r) = true) (cf_allow_users config) /\
  (cf_password_authentication config = Some false -> ~ password) /\
  (cf_pubkey_authentication config = Some false -> password) /\
  (cf_permit_root_login config = Some EMSSH_PERMIT_ROOT_LOGIN_NO -> ~ root) /\
  (cf_permit_root_login config = Some EMSSH_PERMIT_ROOT_LOGIN_PROHIBIT_PASSWORD -> root -> ~ password).

Definition applied_server (config : ssh_sshd_config_file) (c : ssh_server_config) (platform : ssh_platform) : auth_server :=
  auth_server_of (mk_server platform (apply_server_config config c) true zero_server_diag).

Lemma view_eq_unique v a b : view_eq v (Some a) = true -> view_eq v (Some b) = true -> a = b.
Proof.
  unfold view_eq, bytes_eqb. destruct (view_data v); [|done]. intros [_ Ha]%andb_prop [_ Hb]%andb_prop.
  apply bool_decide_eq_true in Ha, Hb. congruence.
Qed.

Lemma policy_root server r :
  request_allowed_by_server_policy server r = true ->
  username_allowed_by_allow_users (allow_users server) (username r) = true /\
  (username_is_root (username r) = true -> permit_root_login server <> EMSSH_PERMIT_ROOT_LOGIN_NO) /\
  (username_is_root (username r) = true -> permit_root_login server = EMSSH_PERMIT_ROOT_LOGIN_PROHIBIT_PASSWORD ->
   view_eq (method_name r) (Some SSH_AUTH_METHOD_PASSWORD) <> true).
Proof.
  unfold request_allowed_by_server_policy. destruct (username_allowed_by_allow_users _ _); [|done]. cbn [negb].
  intros H. split; [done|]. destruct (username_is_root _); [|done]. split; intros _ E; [by rewrite E in H|].
  intros Hp. by rewrite E, Hp in H.
Qed.

Lemma applied_admits config c platform r sid sid_len :
  ssh_userauth_evaluate_request (applied_server config c platform) r sid sid_len = Ret SSH_USERAUTH_DECISION_SUCCESS ->
  admits config r.
Proof.
  intros [Hpol Hev]%success_evidence. apply policy_root in Hpol as (Hu & Hroot & Hpr).
  unfold applied_server, auth_server_of in *. cbn in Hu, Hroot, Hpr, Hev. unfold admits, override in *.
  destruct config as [has p la mt pw pk pr au sn ak cd hk]. cbn in *. split_and!.
  - by destruct au.
  - intros -> Hm. destruct Hev as [(_ & _ & cb & [=] & _)|(Hk & _)]. by specialize (view_eq_unique _ _ _ Hm Hk).
  - intros ->. destruct Hev as [(Hm & _)|(_ & _ & _ & (cb & [=] & _) & _)]. exact Hm.
  - intros -> ?. by apply Hroot.
  - intros -> ? ?. by apply Hpr.
Qed.

Lemma applied_starts config c platform old server :
  config_ok config -> ssh_server_init (Some platform) (Some c) old = (SSH_OK, server) ->
  ssh_server_init (Some platform) (Some (apply_server_config config c)) old =
    (SSH_OK, mk_server platform (apply_server_config config c) true zero_server_diag).
Proof.
  intros Hok. unfold ssh_server_init. cbn. destruct (_ || _); [done|].
  destruct ((cfg_permit_root_login c <? _) || _) eqn:E; [done|]. intros _.
  pose proof (ok_permit_root_login _ Hok) as Hr. unfold override. destruct (cf_permit_root_login config) as [n|]; [|by rewrite E].
  cbn in Hr. unfold EMSSH_PERMIT_ROOT_LOGIN_DEFAULT, EMSSH_PERMIT_ROOT_LOGIN_NO, EMSSH_PERMIT_ROOT_LOGIN_PROHIBIT_PASSWORD in *.
  by replace ((n <? 0) || (n >? 3)) with false by bool_lia.
Qed.

(** ** The property *)

(** The file is loaded and applied, the server is started, and a request is answered. *)
Definition applied_targets (config : ssh_sshd_config_file) (t : config_targets) : config_targets :=
  snd (ssh_sshd_config_file_apply (Some config) t).

(** C21: from the file to the login: whatever the file system answers, when loading
    succeeds and the configuration is applied to one the server would start with,
    the server still starts, with the attempts the file allows; and a request it
    grants, for every request, comes from a user and by a method that the file
    admits: a listed user, no password where passwords are off, no key where keys
    are off, and root only as [PermitRootLogin] says. *)
Theorem config_governs_logins {W} (e : env call reply W) fs path match_context rounds w t c platform old started :
  env_good file_reply_good e ->
  let '((o, config), _, _) := run e (ssh_sshd_config_file_load_with_match_context fs path match_context rounds) w in
  tg_server_config t = Some c -> ssh_server_init (Some platform) (Some c) old = (SSH_OK, started) ->
  exists c' server,
    tg_server_config (applied_targets config t) = Some c' /\
    ssh_server_init (Some platform) (Some c') old = (SSH_OK, server) /\
    opt_holds (fun n => cfg_max_auth_tries (sv_config server) = n /\ 1 <= n <= 255) (cf_max_auth_tries config) /\
    forall r sid sid_len,
      ssh_userauth_evaluate_request (auth_server_of server) r sid sid_len = Ret SSH_USERAUTH_DECISION_SUCCESS ->
      admits config r.
Proof.
  intros He. pose proof (run_monitored _ _ _ e _ _ NotOpened w He (load_ends match_context path fs rounds)) as H.
  destruct (run e _ w) as [[[o config] w'] evs]. destruct H as (_ & _ & Hok & _). intros Ht Hi.
  exists (apply_server_config config c), (mk_server platform (apply_server_config config c) true zero_server_diag).
  split_and!; [cbn; by rewrite Ht|by eapply applied_starts| |intros r sid n; apply applied_admits].
  pose proof (ok_max_auth_tries _ Hok) as Hm. cbn. destruct (cf_max_auth_tries config); [|done]. by split.
Qed.

(** Passwords that are always right, and a file that keeps root out. *)
Definition demo_target : ssh_server_config :=
  mk_config (Some (cstr "emsshd")) 35000 32768 6 None (Some (fun _ => true)) None None 0 None None.

Lemma config_governs_logins_witness :
  let r := run (piecewise demo_file 5) (ssh_sshd_config_file_load_with_match_context (Some demo_api) (Some (cstr "c")) None 100) [] in
  let config := snd (fst (fst r)) in
  cf_permit_root_login config = Some EMSSH_PERMIT_ROOT_LOGIN_NO /\
  forall request,
    ssh_userauth_evaluate_request (applied_server config demo_target zero_platform) request None 0 = Ret SSH_USERAUTH_DECISION_SUCCESS ->
    admits config request.
Proof.
  assert (env_good file_reply_good (piecewise demo_file 5)) as He.
  { intros c w. destruct c; cbn; try done. intros _. pose proof (zlen_nonneg (take 5 w)). lia. }
  pose proof (config_governs_logins (piecewise demo_file 5) (Some demo_api) (Some (cstr "c")) None 100 []
    (mk_targets (Some demo_target) None None None None) demo_target zero_platform zero_server
    (mk_server zero_platform demo_target true zero_server_diag) He) as H.
  assert (cf_permit_root_login (snd (fst (fst (run (piecewise demo_file 5)
    (ssh_sshd_config_file_load_with_match_context (Some demo_api) (Some (cstr "c")) None 100) [])))) = Some EMSSH_PERMIT_ROOT_LOGIN_NO)
    as Hc by (by vm_compute).
  cbv zeta. destruct (run _ _ _) as [[[o config] w] evs]. cbn [fst snd] in *. split; [exact Hc|]. intros request Hr.
  destruct H as (c' & server & Ht & Hs & _ & Ha); [done|by vm_compute|]. cbn in Ht. injection Ht as <-.
  apply (Ha request None 0). unfold ssh_server_init in Hs. cbn in Hs. rewrite Hc in Hs. injection Hs as <-. exact Hr.
Defined.
