(* ===== verification/PasswdAuth.v ===== *)
(** * Passwords from a passwd and a shadow file: posix_passwd_auth.c

    The callback for passwords that looks the user up in two files, read through the
    file system table, and compares the hash there with crypt.

    [crypt] is a function of the C library: a parameter, from the password and the
    setting, both C strings, to the string it returns.  The arrays for the hash and the
    fields hold C strings and are results; wiping them is not represented. *)

From S2P Require Import Prelude Interaction Buffer Platform Packet UserPolicy Userauth Ident TransportState Transport.
From S2P Require Import Sftp SftpPath SftpServer ServerState.

Definition EMSSH_POSIX_PASSWD_PATH : list Z := cstr "/etc/passwd".
Definition EMSSH_POSIX_SHADOW_PATH : list Z := cstr "/etc/shadow".
Definition EMSSH_POSIX_PASSWD_AUTH_LINE_MAX : Z := 2048.
Definition EMSSH_POSIX_PASSWD_AUTH_HASH_MAX : Z := 512.
Definition EMSSH_POSIX_PASSWD_AUTH_USERNAME_MAX : Z := 256.
Definition EMSSH_POSIX_PASSWD_AUTH_PASSWORD_MAX : Z := 256.
Definition PASSWD_CHUNK_SIZE : Z := 512.

(** What the array holds, as a C string. *)
Definition copy_request_field (field : ssh_string_view) (out_capacity : Z) : outcome (list Z) :=
  if (out_capacity =? 0) || (is_null (view_data field) && negb (view_len field =? 0)) then Err SSH_ERR_INVALID_ARGUMENT else
  if u64 (view_len field + 1) >? out_capacity then Err SSH_ERR_BUFFER_TOO_SMALL else
  Ret (array_string (view_bytes field)).

(** ** Lines *)
Definition is_colon (c : Z) : bool := c =? 58.

(** [strchr(p, ':')]: what is before the colon and behind it. *)
Definition strchr_colon (p : list Z) : option (list Z * list Z) :=
  match scan_until is_colon p with
  | (before, _ :: behind) => Some (before, behind)
  | (_, []) => None
  end.

Definition line_extract_hash_for_user (line username : list Z) : option (list Z) :=
  match strchr_colon line with
  | None => None
  | Some (user, rest) =>
    if negb (zlen user =? zlen username) || negb (bytes_eqb user username) then None else
    match strchr_colon rest with
    | None => None
    | Some (hash, _) => if zlen hash =? 0 then None else Some hash
    end
  end.

Definition hash_field_requires_shadow (hash : list Z) : bool :=
  if zlen hash =? 0 then false else
  if (zlen hash =? 1) && ((byte_at hash 0 =? 120) || (byte_at hash 0 =? 42) || (byte_at hash 0 =? 33)) then true else
  (zlen hash =? 2) && (byte_at hash 0 =? 33) && (byte_at hash 1 =? 33).

Definition hash_field_is_usable (hash : list Z) : bool :=
  if zlen hash =? 0 then false else
  if (zlen hash =? 1) && ((byte_at hash 0 =? 120) || (byte_at hash 0 =? 42) || (byte_at hash 0 =? 33)) then false else
  negb ((zlen hash =? 2) && (byte_at hash 0 =? 33) && (byte_at hash 1 =? 33)).

Definition crypt_fn : Type := list Z -> list Z -> option (list Z).

Definition verify_password_against_hash (crypt : crypt_fn) (password hash : list Z) : bool :=
  if (zlen hash =? 0) || (zlen hash >=? EMSSH_POSIX_PASSWD_AUTH_HASH_MAX) then false else
  match crypt password hash with
  | None => false
  | Some result => (zlen result =? zlen hash) && bytes_eqb result hash
  end.

(** [None]: the line is not that of the user. *)
Definition parse_line_copy_hash_if_match (line username : list Z) (hash_capacity : Z) : outcome (option (list Z)) :=
  match line_extract_hash_for_user line username with
  | None => Ret None
  | Some hash => if u64 (zlen hash + 1) >? hash_capacity then Err SSH_ERR_BUFFER_TOO_SMALL else Ret (Some hash)
  end.

(** ** Files

    The state is what is in the array [line]. *)
Abbreviation LineM := (IO call reply (list Z)).

(** [if (line_len != 0u && line[line_len - 1u] == '\r') --line_len;] *)
Definition strip_cr (line : list Z) : list Z :=
  if negb (zlen line =? 0) && (byte_at line (Z.to_nat (zlen line - 1)) =? 13) then ztake (zlen line - 1) line else line.

(** The line is closed by a terminator and looked at. *)
Definition check_line (username : list Z) (hash_capacity : Z) : LineM (option (list Z)) :=
  line ← io_get strip_cr;
  of_outcome (parse_line_copy_hash_if_match (array_string line) username hash_capacity).

Fixpoint scan_chunk (username : list Z) (hash_capacity : Z) (chunk : list Z) : LineM (option (list Z)) :=
  match chunk with
  | [] => mret None
  | c :: chunk' =>
    if c =? 10 then
      matched ← check_line username hash_capacity;
      match matched with
      | Some hash => mret (Some hash)
      | None => io_modify (fun _ => []);; scan_chunk username hash_capacity chunk'
      end
    else
      line ← io_get id;
      io_reject (zlen line + 1 >=? EMSSH_POSIX_PASSWD_AUTH_LINE_MAX) SSH_ERR_BUFFER_TOO_SMALL;;
      io_modify (fun line => line ++ [c]);;
      scan_chunk username hash_capacity chunk'
  end.

(** The file is closed when the step fails or finds the user. *)
Definition closing (handle : Z) (p : LineM (option (list Z))) : LineM (option (list Z)) :=
  r ← attempt p;
  match r with
  | inl status => perform (FsClose handle);; io_fail status
  | inr (Some hash) => perform (FsClose handle);; mret (Some hash)
  | inr None => mret None
  end.

(** [None]: the file goes on after [rounds] reads; [Some None]: it ended. *)
Fixpoint hash_loop (rounds : nat) (username : list Z) (hash_capacity handle : Z) : LineM (option (option (list Z))) :=
  match rounds with
  | O => mret None
  | S rounds' =>
    r ← perform (FsRead handle PASSWD_CHUNK_SIZE);
    let '(status, chunk, read_len) := r in
    if status_bad status then perform (FsClose handle);; io_fail status else
    if read_len =? 0 then mret (Some None) else
    if (read_len <? 0) || (read_len >? zlen chunk) then of_outcome Fault else
    found ← closing handle (scan_chunk username hash_capacity (ztake read_len chunk));
    match found with
    | Some hash => mret (Some (Some hash))
    | None => hash_loop rounds' username hash_capacity handle
    end
  end.

Definition read_hash_from_file (fs : ssh_fs_api) (path username : list Z) (hash_capacity : Z) (rounds : nat) : LineM (option (list Z)) :=
  io_reject (negb (fs_open fs) || negb (fs_read fs) || negb (fs_close fs)) SSH_ERR_INVALID_ARGUMENT;;
  r ← perform (FsOpen path SSH_FXF_READ);
  let '(status, handle) := r in
  if status_bad status then io_fail status else
  found ← hash_loop rounds username hash_capacity handle;
  match found with
  | None => mret None
  | Some (Some hash) => mret (Some hash)
  | Some None =>
    line ← io_get id;
    found ← (if negb (zlen line =? 0) then closing handle (check_line username hash_capacity) else mret None);
    match found with
    | Some hash => mret (Some hash)
    | None => perform (FsClose handle);; io_fail SSH_ERR_NOT_FOUND
    end
  end.

(** ** The callback *)
Section callback.
Context (crypt : crypt_fn) (rounds : nat).
Abbreviation answer := (tree call reply (outcome (option bool))).

(** What follows a lookup: [k] of its status or hash; [None] and [Fault] are passed on. *)
Definition looked_up (fs : ssh_fs_api) (path username : list Z) (k : ssh_status + list Z -> answer) : answer :=
  tree_bind (read_hash_from_file fs path username EMSSH_POSIX_PASSWD_AUTH_HASH_MAX rounds [])
    (fun '(o, _) =>
      match o with
      | Ret (Some hash) => k (inr hash)
      | Ret None => Done (Ret None)
      | Err status => k (inl status)
      | Fault => Done Fault
      end).

Definition refused : answer := Done (Ret (Some false)).

Definition passwd_auth_verify (fs : ssh_fs_api) (passwd_path : list Z) (shadow_path : option (list Z)) (username password : list Z) : answer :=
  let decide_hash hash :=
    if negb (hash_field_is_usable hash) then refused
    else Done (Ret (Some (verify_password_against_hash crypt password hash))) in
  looked_up fs passwd_path username (fun r =>
    match r with
    | inl _ => refused
    | inr hash =>
      match shadow_path with
      | Some ((_ :: _) as shadow_path) =>
        if hash_field_requires_shadow hash then
          looked_up fs shadow_path username (fun r => match r with inl _ => refused | inr hash => decide_hash hash end)
        else decide_hash hash
      | _ => decide_hash hash
      end
    end).

(** [ssh_posix_passwd_auth_t]; the paths are never null once it is initialized. *)
Record ssh_posix_passwd_auth : Type := mk_passwd_auth {
  pw_fs : option ssh_fs_api;
  pw_passwd_path : list Z;
  pw_shadow_path : list Z;
  pw_initialized : bool
}.
Definition zero_passwd_auth : ssh_posix_passwd_auth := mk_passwd_auth None [] [] false.

(** [(path != NULL && path[0] != 0) ? path : preset] *)
Definition path_or (preset : list Z) (path : option (list Z)) : list Z :=
  match path with Some ((_ :: _) as p) => p | _ => preset end.

Definition ssh_posix_passwd_auth_init (fs : option ssh_fs_api) (passwd_path shadow_path : option (list Z)) : outcome ssh_posix_passwd_auth :=
  match fs with
  | None => Err SSH_ERR_INVALID_ARGUMENT
  | Some api =>
    if negb (fs_open api) || negb (fs_read api) || negb (fs_close api) then Err SSH_ERR_INVALID_ARGUMENT else
    Ret (mk_passwd_auth (Some api) (path_or EMSSH_POSIX_PASSWD_PATH passwd_path) (path_or EMSSH_POSIX_SHADOW_PATH shadow_path) true)
  end.

Definition ssh_posix_passwd_auth_deinit : ssh_posix_passwd_auth := zero_passwd_auth.

Definition ssh_posix_passwd_auth_cb (auth : ssh_posix_passwd_auth) (request : ssh_password_auth_request) : answer :=
  if negb (pw_initialized auth) then refused else
  match copy_request_field (pa_username request) EMSSH_POSIX_PASSWD_AUTH_USERNAME_MAX with
  | Ret username =>
    match copy_request_field (pa_password request) EMSSH_POSIX_PASSWD_AUTH_PASSWORD_MAX with
    | Ret password =>
      match pw_fs auth with
      | None => refused
      | Some fs => passwd_auth_verify fs (pw_passwd_path auth) (Some (pw_shadow_path auth)) username password
      end
    | _ => refused
    end
  | _ => refused
  end.
End callback.
