(* ===== verification/PasswdLookup.v ===== *)
(** * Passwords from two files: what is looked up

    The entry that is found is the first of the user, wherever the pieces of the file
    end; a password is accepted exactly when crypt maps it to the hash of that entry. *)

From S2P Require Import Prelude Interaction Buffer Platform Packet UserPolicy Userauth Ident TransportState Transport.
From S2P Require Import Sftp SftpPath SftpServer ServerState PasswdAuth.

(** ** Entries *)
Definition COLON_BYTE : Z := 58.

(** The line of a user: the name, the hash and the rest. *)
Definition user_entry (username line hash : list Z) : Prop :=
  exists rest, line = username ++ [COLON_BYTE] ++ hash ++ [COLON_BYTE] ++ rest /\
    (COLON_BYTE ∉ username) /\ (COLON_BYTE ∉ hash) /\ hash <> [].

Lemma strchr_exact p before behind :
  strchr_colon p = Some (before, behind) <-> p = before ++ [COLON_BYTE] ++ behind /\ (COLON_BYTE ∉ before).
Proof.
  assert (forall l, Forall (fun c => is_colon c = false) l <-> COLON_BYTE ∉ l) as Hin.
  { intros l. unfold is_colon. rewrite Forall_forall. split; intros H.
    - intros Hc. by specialize (H _ (proj1 (list_elem_of_In _ _) Hc)).
    - intros c Hc%list_elem_of_In. apply Z.eqb_neq. by intros ->. }
  unfold strchr_colon. destruct (scan_until is_colon p) as [tok rest] eqn:E. apply scan_until_exact in E as (-> & Htok & Hrest).
  apply Hin in Htok. split.
  - destruct rest as [|b r]; [done|]. intros [= -> ->]. destruct Hrest as [?|(b' & r' & [= <- <-] & Hb)]; [done|].
    apply Z.eqb_eq in Hb as ->. done.
  - intros [E Hb]. assert (scan_until is_colon (tok ++ rest) = (before, [COLON_BYTE] ++ behind)) as E1.
    { apply scan_until_exact. split; [exact E|]. split; [by apply Hin|]. right. by exists COLON_BYTE, behind. }
    assert (scan_until is_colon (tok ++ rest) = (tok, rest)) as E2.
    { apply scan_until_exact. split; [done|]. split; [by apply Hin|done]. }
    rewrite E1 in E2. by injection E2 as <- <-.
Qed.

Lemma extract_exact line username hash :
  line_extract_hash_for_user line username = Some hash <-> user_entry username line hash.
Proof.
  unfold line_extract_hash_for_user, user_entry. destruct (strchr_colon line) as [[user rest]|] eqn:E.
  - apply strchr_exact in E as [-> Hu]. split.
    + destruct (negb (zlen user =? zlen username) || negb (bytes_eqb user username)) eqn:En; [done|].
      apply orb_false_iff in En as [_ En]. apply negb_false_iff, bool_decide_eq_true in En as <-.
      destruct (strchr_colon rest) as [[h r]|] eqn:Er; [|done]. apply strchr_exact in Er as [-> Hh].
      destruct (zlen h =? 0) eqn:E0; [done|]. intros [= <-]. exists r. split_and!; try done. by intros ->.
    + intros (r & El & Hn & Hh & Hne).
      assert (strchr_colon (user ++ [COLON_BYTE] ++ rest) = Some (user, rest)) as E1 by (by apply strchr_exact).
      rewrite El in E1. rewrite (proj2 (strchr_exact _ username (hash ++ [COLON_BYTE] ++ r))) in E1 by done. injection E1 as <- <-.
      rewrite Z.eqb_refl. unfold bytes_eqb. rewrite bool_decide_true by done. cbn [negb orb].
      rewrite (proj2 (strchr_exact _ hash r)) by done. destruct (zlen hash =? 0) eqn:E0; [|done].
      apply Z.eqb_eq, zlen_zero_inv in E0. done.
  - split; [done|]. intros (r & -> & Hn & _). by rewrite (proj2 (strchr_exact _ username (hash ++ [COLON_BYTE] ++ r))) in E.
Qed.

(** ** Files *)
Section lookup.
Context (username : list Z) (capacity : Z).

Definition line_hash (line : list Z) : outcome (option (list Z)) :=
  if EMSSH_POSIX_PASSWD_AUTH_LINE_MAX <=? zlen line then Err SSH_ERR_BUFFER_TOO_SMALL
  else parse_line_copy_hash_if_match (array_string (strip_cr line)) username capacity.

Fixpoint lookup_lines (lines : list (list Z)) : outcome (option (list Z)) :=
  match lines with
  | [] => Ret None
  | line :: lines' =>
    found ← line_hash line;
    match found with Some hash => Ret (Some hash) | None => lookup_lines lines' end
  end.

Definition is_lf (c : Z) : bool := c =? 10.

(** The lines of [text], the first of which goes on after [line]. *)
Definition lookup_from (line text : list Z) : outcome (option (list Z)) :=
  match split_on is_lf text with
  | t :: ts => lookup_lines ((line ++ t) :: ts)
  | [] => Ret None
  end.

Lemma lookup_newline line text :
  lookup_from line (10 :: text) = (found ← line_hash line; match found with Some hash => Ret (Some hash) | None => lookup_from [] text end).
Proof.
  unfold lookup_from. cbn [split_on is_lf Z.eqb Pos.eqb]. rewrite app_nil_r.
  by destruct (split_on_cons is_lf text) as (t & ts & ->).
Qed.

Lemma lookup_char line c text : c <> 10 -> lookup_from line (c :: text) = lookup_from (line ++ [c]) text.
Proof.
  intros Hc. unfold lookup_from. cbn [split_on]. unfold is_lf at 1. rewrite (proj2 (Z.eqb_neq _ _) Hc).
  destruct (split_on_cons is_lf text) as (t & ts & ->). by rewrite <- app_assoc.
Qed.

Lemma lookup_long line text : EMSSH_POSIX_PASSWD_AUTH_LINE_MAX <= zlen line -> lookup_from line text = Err SSH_ERR_BUFFER_TOO_SMALL.
Proof.
  intros Hl. unfold lookup_from. destruct (split_on_cons is_lf text) as (t & ts & ->).
  cbn [lookup_lines]. unfold line_hash. rewrite zlen_app. pose proof (zlen_nonneg t).
  by rewrite (proj2 (Z.leb_le _ _)) by lia.
Qed.

Lemma line_hash_short line :
  zlen line < EMSSH_POSIX_PASSWD_AUTH_LINE_MAX ->
  line_hash line = parse_line_copy_hash_if_match (array_string (strip_cr line)) username capacity.
Proof. intros Hl. unfold line_hash. by rewrite (proj2 (Z.leb_gt _ _)) by lia. Qed.

(** What a line gives: its hash, nothing, or an error. *)
Lemma parse_line_no_fault line : parse_line_copy_hash_if_match line username capacity <> Fault.
Proof. unfold parse_line_copy_hash_if_match. destruct (line_extract_hash_for_user _ _); [|done]. by destruct (_ >? _). Qed.

Lemma scan_chunk_exact chunk line more :
  zlen line < EMSSH_POSIX_PASSWD_AUTH_LINE_MAX ->
  exists o line', scan_chunk username capacity chunk line = Done (o, line') /\
    match o with
    | Ret None => zlen line' < EMSSH_POSIX_PASSWD_AUTH_LINE_MAX /\ lookup_from line (chunk ++ more) = lookup_from line' more
    | Ret (Some hash) => lookup_from line (chunk ++ more) = Ret (Some hash)
    | Err e => lookup_from line (chunk ++ more) = Err e
    | Fault => False
    end.
Proof.
  revert line. induction chunk as [|c chunk IH]; intros line Hl; cbn [scan_chunk app].
  { by exists (Ret None), line. }
  destruct (Z.eqb_spec c 10) as [->|Hc].
  - rewrite lookup_newline, line_hash_short by done. unfold check_line, mbind, io_bind. cbn [io_get tree_bind of_outcome].
    pose proof (parse_line_no_fault (array_string (strip_cr line))) as Hnf.
    destruct (parse_line_copy_hash_if_match _ _ _) as [[hash|]|e|]; cbn [tree_bind outcome_bind]; [by eexists _, _| |by eexists _, _|done].
    unfold mret, io_ret. cbn [io_modify tree_bind]. apply IH. by vm_compute.
  - rewrite lookup_char by done. unfold mbind, io_bind. cbn [io_get tree_bind id]. unfold io_reject.
    destruct (zlen line + 1 >=? EMSSH_POSIX_PASSWD_AUTH_LINE_MAX) eqn:E; cbn [tree_bind].
    + eexists _, line. split; [done|]. cbn. apply lookup_long. len_lia.
    + unfold mret, io_ret. cbn [io_modify tree_bind]. apply IH. len_lia.
Qed.

(** The first entry of the user; the lines before it are neither his nor too long. *)
Definition others (line : list Z) : Prop :=
  zlen line < EMSSH_POSIX_PASSWD_AUTH_LINE_MAX /\ forall hash, ~ user_entry username (array_string (strip_cr line)) hash.

Definition first_entry (lines : list (list Z)) (hash : list Z) : Prop :=
  exists before line after, lines = before ++ line :: after /\ Forall others before /\
    zlen line < EMSSH_POSIX_PASSWD_AUTH_LINE_MAX /\ user_entry username (array_string (strip_cr line)) hash /\ zlen hash < capacity.

Lemma entry_length line hash :
  zlen line < EMSSH_POSIX_PASSWD_AUTH_LINE_MAX -> user_entry username (array_string (strip_cr line)) hash -> zlen hash < 2048.
Proof.
  intros Hl (rest & E & _). apply (f_equal zlen) in E. rewrite !zlen_app in E. unfold array_string in E.
  pose proof (scan_until_split (fun c => c =? 0) (strip_cr line)) as H. destruct (scan_until _ (strip_cr line)) as [tok r]. cbn [fst] in E.
  destruct H as (_ & Hs & _). apply (f_equal zlen) in Hs. rewrite zlen_app in Hs.
  assert (zlen (strip_cr line) <= zlen line) as Hc.
  { pose proof (zlen_nonneg line). unfold strip_cr. destruct (negb (zlen line =? 0) && _) eqn:Ec; [|lia]. rewrite zlen_ztake by lia. lia. }
  unfold EMSSH_POSIX_PASSWD_AUTH_LINE_MAX in Hl. pose proof (zlen_nonneg r). pose proof (zlen_nonneg username). pose proof (zlen_nonneg rest).
  change (zlen [COLON_BYTE]) with 1 in E. lia.
Qed.

(** A line that is too long, of another user, or the entry. *)
Lemma line_hash_cases line hash :
  (line_hash line = Ret None -> others line) /\
  (line_hash line = Ret (Some hash) <->
    zlen line < EMSSH_POSIX_PASSWD_AUTH_LINE_MAX /\ user_entry username (array_string (strip_cr line)) hash /\ zlen hash < capacity).
Proof.
  unfold line_hash, others. destruct (EMSSH_POSIX_PASSWD_AUTH_LINE_MAX <=? zlen line) eqn:El; [split; [done|]; split; [done|lia]|].
  assert (zlen line < EMSSH_POSIX_PASSWD_AUTH_LINE_MAX) as Hl by lia. unfold parse_line_copy_hash_if_match.
  pose proof (extract_exact (array_string (strip_cr line)) username) as Hex.
  destruct (line_extract_hash_for_user _ username) as [h|].
  - pose proof (proj1 (Hex h) eq_refl) as Hh. pose proof (entry_length line h Hl Hh) as Hhl. pose proof (zlen_nonneg h).
    unfold u64. rewrite Z.mod_small by lia. split; [by destruct (_ >? _)|]. split.
    + destruct (zlen h + 1 >? capacity) eqn:Ec; [done|]. intros [= <-]. split_and!; [done|done|lia].
    + intros (_ & He & Hc). apply Hex in He as [= ->]. by replace (zlen hash + 1 >? capacity) with false by lia.
  - split; [|split; [done|]].
    + intros _. split; [done|]. intros h Hh%Hex. done.
    + intros (_ & He%Hex & _). done.
Qed.

Lemma others_line line : others line -> line_hash line = Ret None.
Proof.
  intros [Hl Ho]. rewrite line_hash_short by done. unfold parse_line_copy_hash_if_match.
  destruct (line_extract_hash_for_user _ _) as [h|] eqn:E; [|done]. by apply extract_exact, Ho in E.
Qed.

Lemma lookup_first lines hash : lookup_lines lines = Ret (Some hash) <-> first_entry lines hash.
Proof.
  induction lines as [|line lines IH]; cbn [lookup_lines].
  { split; [done|]. intros (before & l & after & E & _). by destruct before. }
  destruct (line_hash_cases line hash) as [Hnone Hsome]. split.
  - destruct (line_hash line) as [[h|]|err|] eqn:E; cbn [mbind outcome_bind]; [| |done|done].
    + intros [= ->]. destruct (proj1 Hsome eq_refl) as (Hl & He & Hc). by exists [], line, lines.
    + intros (before & l & after & -> & Hb & H)%IH. exists (line :: before), l, after. split; [done|].
      split; [apply Forall_cons_2; [by apply Hnone|done]|done].
  - intros (before & l & after & E & Hb & Hl & He & Hc). destruct before as [|b before]; injection E as -> ->.
    + by rewrite (proj2 Hsome).
    + apply Forall_cons_1 in Hb as [Ho Hb]. rewrite (others_line b Ho). cbn [mbind outcome_bind]. apply IH.
      by exists before, l, after.
Qed.

Lemma lookup_text content hash : lookup_from [] content = Ret (Some hash) <-> first_entry (split_on is_lf content) hash.
Proof. unfold lookup_from. destruct (split_on_cons is_lf content) as (t & ts & ->). apply lookup_first. Qed.
End lookup.
