(* ===== verification/PasswdLogin.v ===== *)
(** * Passwords from two files: logins

    The callback on a file system that serves the two files, and the decision about an
    authentication request on top of it. *)

From S2P Require Import Prelude Interaction Buffer Platform Packet Codec UserPolicy Userauth Ident TransportState Transport.
From S2P Require Import Sftp SftpPath SftpServer ServerState PasswdAuth PasswdLookup.

(** ** A file system that serves files

    Opening a file that there is gives a handle with its content unread; a read takes a
    piece of what is unread, an empty one only at the end. *)
Record serves_files {W} (e : env call reply W) (file : list Z -> option (list Z)) (current : W -> Z) (unread : W -> list Z) : Prop := {
  files_open : forall w path, let '(r, w') := e (FsOpen path SSH_FXF_READ) w in
    match file path with
    | Some content => r = (SSH_OK, current w') /\ unread w' = content
    | None => status_bad (fst r) = true
    end;
  files_read : forall w, let '(r, w') := e (FsRead (current w) PASSWD_CHUNK_SIZE) w in
    current w' = current w /\
    exists bytes n, r = (SSH_OK, bytes, n) /\ 0 <= n <= zlen bytes /\ unread w = ztake n bytes ++ unread w' /\
      (n = 0 -> unread w = [])
}.

(** The hash of a user in a file. *)
Definition text_hash (username content : list Z) : option (list Z) :=
  match lookup_from username EMSSH_POSIX_PASSWD_AUTH_HASH_MAX [] content with Ret (Some hash) => Some hash | _ => None end.

Section serving.
Context {W : Type} (e : env call reply W) (file : list Z -> option (list Z)) (current : W -> Z) (unread : W -> list Z).
Context (He : serves_files e file current unread) (username : list Z).
Abbreviation capacity := EMSSH_POSIX_PASSWD_AUTH_HASH_MAX.
Abbreviation from := (lookup_from username capacity).

Definition file_hash (path : list Z) : option (list Z) := content ← file path; text_hash username content.

Lemma hash_loop_exact rounds line w :
  zlen line < EMSSH_POSIX_PASSWD_AUTH_LINE_MAX -> (length (unread w) < rounds)%nat ->
  exists o line' w' evs, run e (hash_loop rounds username capacity (current w) line) w = ((o, line'), w', evs) /\
    match o with
    | Ret (Some None) => zlen line' < EMSSH_POSIX_PASSWD_AUTH_LINE_MAX /\ from line (unread w) = from line' []
    | Ret (Some (Some hash)) => from line (unread w) = Ret (Some hash)
    | Err err => from line (unread w) = Err err
    | _ => False
    end.
Proof.
  revert line w. induction rounds as [|rounds IH]; intros line w Hl Hr; [lia|]. cbn [hash_loop].
  pose proof (files_read _ _ _ _ He w) as H. unfold mbind, io_bind. cbn [perform tree_bind run].
  destruct (e (FsRead (current w) PASSWD_CHUNK_SIZE) w) as [r w1]. destruct H as (Hcur & bytes & n & -> & Hn & Hu & H0).
  change (status_bad SSH_OK) with false. cbn [negb]. destruct (Z.eqb_spec n 0) as [->|Hn0].
  { rewrite H0 by done. eexists (Ret (Some None)), line, w1, _. by cbn [mret io_ret run]. }
  replace ((n <? 0) || (n >? zlen bytes)) with false by bool_lia.
  destruct (scan_chunk_exact username capacity (ztake n bytes) line (unread w1) Hl) as (o & line1 & Ef & Ho).
  rewrite Hu. unfold closing, attempt, mbind, io_bind. rewrite Ef. cbn [tree_bind]. destruct o as [[hash|]|err|]; [| | |done].
  - unfold perform, mret, io_ret. cbn [tree_bind run]. destruct (e (FsClose (current w)) w1) as [r2 w2]. by eexists (Ret (Some (Some hash))), line1, w2, _.
  - destruct Ho as [Hl1 ->]. assert (length (unread w1) < rounds)%nat as Hr1.
    { apply (f_equal length) in Hu. rewrite length_app in Hu. unfold ztake in Hu. rewrite length_take in Hu. unfold zlen in Hn. lia. }
    destruct (IH line1 w1 Hl1 Hr1) as (o & line2 & w2 & evs & Erun & Ho). rewrite Hcur in Erun.
    exists o, line2, w2. eexists. unfold mret, io_ret. cbn [tree_bind]. by rewrite Erun.
  - unfold perform, io_fail. cbn [tree_bind run]. destruct (e (FsClose (current w)) w1) as [r2 w2]. by eexists (Err err), line1, w2, _.
Qed.

(** The result of a lookup: the hash, or that there is none. *)
Definition found (r : ssh_status + list Z) (hash : option (list Z)) : Prop :=
  match hash with Some h => r = inr h | None => exists status, r = inl status end.

Lemma last_line_exact line h w :
  zlen line < EMSSH_POSIX_PASSWD_AUTH_LINE_MAX ->
  exists o line' w' evs,
    run e ((matched ← (if negb (zlen line =? 0) then closing h (check_line username capacity) else mret None);
            match matched with Some hash => mret (Some hash) | None => perform (FsClose h);; io_fail SSH_ERR_NOT_FOUND end) line) w = ((o, line'), w', evs) /\
    match o with
    | Ret (Some hash) => from line [] = Ret (Some hash)
    | Err _ => forall hash, from line [] <> Ret (Some hash)
    | _ => False
    end.
Proof.
  intros Hl. unfold lookup_from. cbn [split_on lookup_lines]. rewrite app_nil_r, line_hash_short by done. unfold mbind, io_bind.
  destruct (Z.eqb_spec (zlen line) 0) as [E|E]; cbn [negb].
  - apply zlen_zero_inv in E as ->. unfold mret, io_ret, perform, io_fail. cbn [tree_bind run].
    destruct (e (FsClose h) w) as [r w1]. by eexists _, _, _, _.
  - unfold closing, check_line, attempt, mbind, io_bind. cbn [io_get tree_bind of_outcome].
    pose proof (parse_line_no_fault username capacity (array_string (strip_cr line))) as Hnf.
    destruct (parse_line_copy_hash_if_match _ _ _) as [[hash|]|err|]; [| | |done];
      unfold perform, mret, io_ret, io_fail, outcome_bind; cbn [tree_bind run]; destruct (e (FsClose h) w) as [r w1]; by eexists _, _, _, _.
Qed.

Lemma read_hash_exact rounds fs path w :
  fs_open fs = true -> fs_read fs = true -> fs_close fs = true ->
  (forall content, file path = Some content -> (length content < rounds)%nat) ->
  exists o line w' evs, run e (read_hash_from_file fs path username capacity rounds []) w = ((o, line), w', evs) /\
    match o with
    | Ret (Some hash) => file_hash path = Some hash
    | Err _ => file_hash path = None
    | _ => False
    end.
Proof.
  intros Ho Hr Hc Hrounds. unfold read_hash_from_file, file_hash. rewrite Ho, Hr, Hc. cbn [negb orb io_reject].
  unfold mbind at 1 2, io_bind at 1 2. unfold mret, io_ret. cbn [tree_bind perform run].
  pose proof (files_open _ _ _ _ He w path) as H. destruct (e (FsOpen path SSH_FXF_READ) w) as [[status handle] w1].
  destruct (file path) as [content|] eqn:Ef; cycle 1.
  { cbn [fst] in H. rewrite H. by eexists (Err status), [], w1, _. }
  destruct H as [[= -> ->] Hu]. change (status_bad SSH_OK) with false. cbn match. specialize (Hrounds content eq_refl).
  destruct (hash_loop_exact rounds [] w1) as (o & line1 & w2 & evs & Erun & Hres); [by vm_compute|by rewrite Hu|].
  rewrite Hu in Hres. cbn [mbind option_bind]. unfold text_hash.
  destruct o as [[[hash|]|]|err|]; [| |done| |done].
  - exists (Ret (Some hash)), line1, w2. eexists. split; [|by rewrite Hres]. unfold mbind, io_bind.
    erewrite run_tree_bind; [|exact Erun|reflexivity]. done.
  - destruct Hres as [Hl ->]. destruct (last_line_exact line1 (current w1) w2 Hl) as (o & line2 & w3 & evs2 & Elast & Hlast).
    exists o, line2, w3. eexists. split.
    + unfold mbind at 1, io_bind at 1. erewrite run_tree_bind; [|exact Erun|exact Elast]. done.
    + destruct o as [[hash|]|err|]; [by rewrite Hlast|done| |done].
      destruct (lookup_from _ _ line1 []) as [[hash|]|err2|]; [by destruct (Hlast hash)|done..].
  - exists (Err err), line1, w2. eexists. split; [|by rewrite Hres]. unfold mbind, io_bind.
    erewrite run_tree_bind; [|exact Erun|reflexivity]. done.
Qed.

Lemma looked_up_run rounds fs path k w :
  fs_open fs = true -> fs_read fs = true -> fs_close fs = true ->
  (forall content, file path = Some content -> (length content < rounds)%nat) ->
  exists r w1, found r (file_hash path) /\ fst (fst (run e (looked_up rounds fs path username k) w)) = fst (fst (run e (k r) w1)).
Proof.
  intros Ho Hr Hc Hrounds. destruct (read_hash_exact rounds fs path w Ho Hr Hc Hrounds) as (o & line & w1 & evs & Erun & Hres).
  unfold looked_up. destruct o as [[hash|]|err|]; [|done| |done]; rewrite Hres.
  - exists (inr hash), w1. split; [done|]. destruct (run e (k (inr hash)) w1) as [[a w2] evs2] eqn:Ek.
    by erewrite run_tree_bind; [|exact Erun|exact Ek].
  - exists (inl err), w1. split; [by eexists|]. destruct (run e (k (inl err)) w1) as [[a w2] evs2] eqn:Ek.
    by erewrite run_tree_bind; [|exact Erun|exact Ek].
Qed.

(** ** The password of a user *)
Context (crypt : crypt_fn).

(** The hash that counts: that of the passwd file, unless it points to the shadow file. *)
Definition account_hash (passwd_path shadow_path : list Z) : option (list Z) :=
  hash ← file_hash passwd_path;
  if hash_field_requires_shadow hash then file_hash shadow_path else Some hash.

(** The entry of the user in a file. *)
Definition file_entry (path hash : list Z) : Prop :=
  exists content, file path = Some content /\ first_entry username capacity (split_on is_lf content) hash.

Definition account_entry (passwd_path shadow_path hash : list Z) : Prop :=
  exists field, file_entry passwd_path field /\
    if hash_field_requires_shadow field then file_entry shadow_path hash else hash = field.

Definition password_good (passwd_path shadow_path password : list Z) : Prop :=
  exists hash, account_entry passwd_path shadow_path hash /\ hash_field_is_usable hash = true /\ crypt password hash = Some hash.

Lemma file_hash_exact path hash : file_hash path = Some hash <-> file_entry path hash.
Proof.
  unfold file_hash, file_entry, text_hash. destruct (file path) as [content|]; cbn [mbind option_bind]; [|by split; [|intros (? & ? & _)]]. split.
  - intros E. exists content. split; [done|]. apply lookup_text. by destruct (from [] content) as [[h|]|err|]; [injection E as ->|..].
  - intros (c & [= <-] & Hf). apply lookup_text in Hf. by rewrite Hf.
Qed.

Lemma account_hash_exact passwd_path shadow_path hash :
  account_hash passwd_path shadow_path = Some hash <-> account_entry passwd_path shadow_path hash.
Proof.
  unfold account_hash, account_entry. destruct (file_hash passwd_path) as [field|] eqn:E; cbn [mbind option_bind].
  - pose proof (proj1 (file_hash_exact passwd_path field) E) as Hf. split.
    + intros H. exists field. split; [done|]. destruct (hash_field_requires_shadow field); [by apply file_hash_exact|congruence].
    + intros (f & Hf2%file_hash_exact & H). assert (f = field) as -> by congruence.
      destruct (hash_field_requires_shadow field); [by apply file_hash_exact|congruence].
  - split; [done|]. intros (f & Hf%file_hash_exact & _). congruence.
Qed.

Lemma account_entry_short passwd_path shadow_path hash : account_entry passwd_path shadow_path hash -> zlen hash < capacity.
Proof.
  intros (field & Hf & H). assert (forall path h, file_entry path h -> zlen h < capacity) as Hs.
  { intros path h (content & _ & before & l & after & _ & _ & _ & _ & Hc). done. }
  destruct (hash_field_requires_shadow field); [by eapply Hs|]. subst hash. by eapply Hs.
Qed.

Lemma password_good_hash passwd_path shadow_path password :
  password_good passwd_path shadow_path password <->
  exists hash, account_hash passwd_path shadow_path = Some hash /\ hash_field_is_usable hash = true /\
    zlen hash < EMSSH_POSIX_PASSWD_AUTH_HASH_MAX /\ crypt password hash = Some hash.
Proof.
  unfold password_good. split.
  - intros (hash & Hent & Hu & Hc). exists hash. split; [by apply account_hash_exact|]. split; [done|]. split; [|done]. by eapply account_entry_short.
  - intros (hash & Hent%account_hash_exact & Hu & _ & Hc). by exists hash.
Qed.

Lemma verify_hash_exact password hash :
  verify_password_against_hash crypt password hash = true <->
  hash <> [] /\ zlen hash < EMSSH_POSIX_PASSWD_AUTH_HASH_MAX /\ crypt password hash = Some hash.
Proof.
  unfold verify_password_against_hash. destruct ((zlen hash =? 0) || (zlen hash >=? _)) eqn:E.
  - split; [done|]. intros (Hne & Hl & _). apply orb_true_iff in E as [E|E]; [apply Z.eqb_eq, zlen_zero_inv in E; done|lia].
  - apply orb_false_iff in E as [E0 E1]. assert (hash <> []) as Hne by (by intros ->). destruct (crypt password hash) as [result|]; [|by split; [|intros (_ & _ & ?)]].
    rewrite andb_true_iff. unfold bytes_eqb. rewrite bool_decide_eq_true. split.
    + intros [_ ->]. split_and!; [done|lia|done].
    + intros (_ & _ & [= ->]). split; [apply Z.eqb_refl|done].
Qed.

Lemma usable_nonempty hash : hash_field_is_usable hash = true -> hash <> [].
Proof. by intros H ->. Qed.

Definition accepts (r : outcome (option bool)) : bool := match r with Ret (Some b) => b | _ => false end.

Lemma verify_run rounds fs passwd_path shadow_path password w :
  fs_open fs = true -> fs_read fs = true -> fs_close fs = true -> shadow_path <> [] ->
  (forall path content, file path = Some content -> (length content < rounds)%nat) ->
  exists b, fst (fst (run e (passwd_auth_verify crypt rounds fs passwd_path (Some shadow_path) username password) w)) = Ret (Some b) /\
    (b = true <-> password_good passwd_path shadow_path password).
Proof.
  intros Ho Hr Hc Hs Hrounds. setoid_rewrite password_good_hash. unfold passwd_auth_verify, account_hash.
  match goal with |- context [looked_up _ _ passwd_path _ ?K] => destruct (looked_up_run rounds fs passwd_path K w Ho Hr Hc (Hrounds _)) as (r & w1 & Hf & ->) end.
  unfold found in Hf. destruct (file_hash passwd_path) as [hash|].
  2: { destruct Hf as [status ->]. exists false. split; [done|]. split; [done|]. by intros (h & ? & _). }
  subst r. cbn [mbind option_bind]. destruct shadow_path as [|c s]; [done|].
  assert (forall h w, exists b, fst (fst (run e (if negb (hash_field_is_usable h) then refused
      else Done (Ret (Some (verify_password_against_hash crypt password h)))) w)) = Ret (Some b) /\
    (b = true <-> exists h', Some h = Some h' /\ hash_field_is_usable h' = true /\ zlen h' < EMSSH_POSIX_PASSWD_AUTH_HASH_MAX /\ crypt password h' = Some h')) as Hdec.
  { intros h w2. destruct (hash_field_is_usable h) eqn:Eu; cbn [negb].
    - eexists. split; [done|]. rewrite verify_hash_exact. split.
      + intros (_ & Hl & Hcr). by exists h.
      + intros (h' & [= <-] & _ & Hl & Hcr). split; [by apply usable_nonempty|done].
    - exists false. split; [done|]. split; [done|]. intros (h' & [= <-] & Hu & _). congruence. }
  destruct (hash_field_requires_shadow hash); [|apply Hdec].
  match goal with |- context [looked_up _ _ (c :: s) _ ?K] => destruct (looked_up_run rounds fs (c :: s) K w1 Ho Hr Hc (Hrounds _)) as (r & w2 & Hf & ->) end.
  unfold found in Hf. destruct (file_hash (c :: s)) as [hash2|].
  - subst r. apply Hdec.
  - destruct Hf as [status ->]. exists false. split; [done|]. split; [done|]. by intros (h & ? & _).
Qed.
End serving.

(** ** The callback *)
Section login.
Context {W : Type} (e : env call reply W) (file : list Z -> option (list Z)) (current : W -> Z) (unread : W -> list Z).
Context (He : serves_files e file current unread) (crypt : crypt_fn) (rounds : nat).
Hypothesis enough : forall path content, file path = Some content -> (length content < rounds)%nat.

(** What an account accepts: a password that fits, up to its first NUL. *)
Definition account_admits (auth : ssh_posix_passwd_auth) (username password : list Z) : Prop :=
  zlen username < EMSSH_POSIX_PASSWD_AUTH_USERNAME_MAX /\ zlen password < EMSSH_POSIX_PASSWD_AUTH_PASSWORD_MAX /\
  password_good file (array_string username) crypt (pw_passwd_path auth) (pw_shadow_path auth) (array_string password).

Lemma copy_field_exact field capacity :
  view_ok field -> 0 < capacity ->
  copy_request_field field capacity =
    if zlen (view_bytes field) <? capacity then Ret (array_string (view_bytes field)) else Err SSH_ERR_BUFFER_TOO_SMALL.
Proof.
  intros (l & -> & Hb & Hl) Hc. unfold copy_request_field. cbn [view_of view_data view_len is_null andb orb].
  rewrite (proj2 (Z.eqb_neq capacity 0)) by lia. change (mk_view (Some l) (zlen l)) with (view_of l). rewrite view_bytes_of.
  pose proof (zlen_nonneg l). unfold u64, UINT32_MAX in *. rewrite Z.mod_small by lia.
  destruct (zlen l <? capacity) eqn:E.
  - by replace (zlen l + 1 >? capacity) with false by lia.
  - by replace (zlen l + 1 >? capacity) with true by lia.
Qed.

Lemma callback_exact fs passwd_path shadow_path auth request w :
  ssh_posix_passwd_auth_init fs passwd_path shadow_path = Ret auth ->
  view_ok (pa_username request) -> view_ok (pa_password request) ->
  exists b, fst (fst (run e (ssh_posix_passwd_auth_cb crypt rounds auth request) w)) = Ret (Some b) /\
    (b = true <-> account_admits auth (view_bytes (pa_username request)) (view_bytes (pa_password request))).
Proof.
  intros Hinit Hu Hp. unfold ssh_posix_passwd_auth_init in Hinit. destruct fs as [api|]; [|done].
  destruct (negb (fs_open api) || negb (fs_read api) || negb (fs_close api)) eqn:Eapi; [done|].
  apply orb_false_iff in Eapi as [[Ho Hr]%orb_false_iff Hc]. apply negb_false_iff in Ho, Hr, Hc.
  injection Hinit as <-. unfold ssh_posix_passwd_auth_cb, account_admits. cbn [pw_initialized negb pw_fs pw_passwd_path pw_shadow_path].
  rewrite !copy_field_exact by done. unfold EMSSH_POSIX_PASSWD_AUTH_USERNAME_MAX, EMSSH_POSIX_PASSWD_AUTH_PASSWORD_MAX.
  destruct (zlen (view_bytes (pa_username request)) <? 256) eqn:E1; [|by exists false; split; [|split; [|lia]]].
  destruct (zlen (view_bytes (pa_password request)) <? 256) eqn:E2; [|by exists false; split; [|split; [|lia]]].
  destruct (verify_run e file current unread He (array_string (view_bytes (pa_username request))) crypt rounds api
    (path_or EMSSH_POSIX_PASSWD_PATH passwd_path) (path_or EMSSH_POSIX_SHADOW_PATH shadow_path)
    (array_string (view_bytes (pa_password request))) w Ho Hr Hc) as (b & Hrun & Hb).
  - by destruct shadow_path as [[|]|].
  - exact enough.
  - exists b. split; [done|]. rewrite Hb. split; [|by intros (_ & _ & ?)]. intros Hg. split_and!; [lia|lia|done].
Qed.

(** The callback in the table of the server, at a world of the file system. *)
Definition passwd_callback (auth : ssh_posix_passwd_auth) (w : W) (request : ssh_password_auth_request) : bool :=
  accepts (fst (fst (run e (ssh_posix_passwd_auth_cb crypt rounds auth request) w))).
End login.

(** A password login is decided by the callback. *)
Lemma password_decision server r sid cb :
  password_auth server = Some cb ->
  request_ok r -> zlen (request_bytes r) <= EMSSH_MAX_USERAUTH_PAYLOAD ->
  view_bytes (method_name r) = SSH_AUTH_METHOD_PASSWORD -> password_change_request r = false ->
  Forall is_byte sid -> 0 < zlen sid <= EMSSH_MAX_EXCHANGE_HASH ->
  ssh_userauth_evaluate_request server r (Some sid) (zlen sid) = Ret SSH_USERAUTH_DECISION_SUCCESS <->
  request_allowed_by_server_policy server r = true /\
  cb (mk_password_auth_request (username r) (ua_service_name r) (password r)) = true.
Proof.
  intros Hcb Hr Hl Hm Hch Hsid Hsl. rewrite evaluate_decides by done. unfold auth_decision, method_is.
  rewrite decide_True by done. rewrite Hch. unfold password_accepts. rewrite Hcb.
  rewrite <- andb_true_iff. by destruct (_ && _).
Qed.

(** C5: who may log in with a password: with this callback in the server and a file
    system that serves the two files, a decoded request of the password method that asks
    for no change succeeds exactly when the policy admits the user, name and password
    fit, and crypt maps the password to the hash in the first entry of the user in the
    passwd file, or in the shadow file when that entry points there; the lookups end,
    wherever the pieces of the files do. *)
Theorem password_login_exact {W} (e : env call reply W) file current unread crypt rounds fs passwd_path shadow_path auth w server r sid :
  serves_files e file current unread ->
  (forall path content, file path = Some content -> (length content < rounds)%nat) ->
  ssh_posix_passwd_auth_init fs passwd_path shadow_path = Ret auth ->
  password_auth server = Some (passwd_callback e crypt rounds auth w) ->
  request_ok r -> zlen (request_bytes r) <= EMSSH_MAX_USERAUTH_PAYLOAD ->
  view_bytes (method_name r) = SSH_AUTH_METHOD_PASSWORD -> password_change_request r = false ->
  Forall is_byte sid -> 0 < zlen sid <= EMSSH_MAX_EXCHANGE_HASH ->
  ssh_userauth_evaluate_request server r (Some sid) (zlen sid) = Ret SSH_USERAUTH_DECISION_SUCCESS <->
  request_allowed_by_server_policy server r = true /\
  account_admits file crypt auth (view_bytes (username r)) (view_bytes (password r)).
Proof.
  intros He Hen Hinit Hcb Hr Hl Hm Hch Hsid Hsl. rewrite (password_decision server r sid _ Hcb Hr Hl Hm Hch Hsid Hsl).
  destruct Hr as ((Hu & _) & _ & _ & Hf). unfold method_fields_ok, method_is in Hf. rewrite decide_True in Hf by done. destruct Hf as [Hp _].
  destruct (callback_exact e file current unread He crypt rounds Hen fs passwd_path shadow_path auth
    (mk_password_auth_request (username r) (ua_service_name r) (password r)) w Hinit Hu Hp) as (b & Hrun & Hb).
  cbn [pa_username pa_password] in Hb. rewrite <- Hb. unfold passwd_callback. by rewrite Hrun.
Qed.

(** ** Two files, and a toy for crypt *)
Definition toy_files (path : list Z) : option (list Z) :=
  if decide (path = EMSSH_POSIX_PASSWD_PATH) then Some (cstr "root:x:0:0::/root:" ++ [13; 10] ++ cstr "alice:x:1000:1000::/home/alice:" ++ [10])
  else if decide (path = EMSSH_POSIX_SHADOW_PATH) then Some (cstr "root:!:1:" ++ [10; 10] ++ cstr "alice:$1$pw:1:")
  else None.

(** Pieces of nine bytes; the world is what is unread. *)
Definition toy_disk : env call reply (list Z) := fun c unread =>
  match c return reply c * list Z with
  | FsOpen path _ => match toy_files path with Some content => ((SSH_OK, 7), content) | None => ((SSH_ERR_NOT_FOUND, 0), unread) end
  | FsRead _ _ | FsReadAt _ _ _ => ((SSH_OK, take 9 unread, zlen (take 9 unread)), drop 9 unread)
  | FsOpendir _ => ((SSH_ERR_UNSUPPORTED, 0), unread)
  | FsWrite _ _ | FsWriteAt _ _ _ => ((SSH_ERR_UNSUPPORTED, 0), unread)
  | FsStat _ | FsLstat _ => ((SSH_ERR_UNSUPPORTED, None), unread)
  | FsReaddir _ => ((SSH_ERR_UNSUPPORTED, mk_dirent None None zero_attrs, true), unread)
  | FsStatvfs _ | FsFstatvfs _ => ((SSH_ERR_UNSUPPORTED, mk_statvfs 0 0 0 0 0 0 0 0 0 0 0), unread)
  | _ => (SSH_ERR_UNSUPPORTED, unread)
  end.

Lemma toy_disk_serves : serves_files toy_disk toy_files (fun _ => 7) (fun unread => unread).
Proof.
  split.
  - intros w path. cbn. by destruct (toy_files path).
  - intros w. cbn. split; [done|]. exists (take 9 w), (zlen (take 9 w)). split; [done|]. split; [pose proof (zlen_nonneg (take 9 w)); lia|].
    split; [by rewrite ztake_all, take_drop|]. intros H%zlen_zero_inv. by destruct w.
Qed.

Lemma toy_files_short path content : toy_files path = Some content -> (length content < 100)%nat.
Proof.
  unfold toy_files. destruct (decide (path = EMSSH_POSIX_PASSWD_PATH)); [intros [= <-]; by apply (bool_decide_unpack _); vm_compute|].
  destruct (decide (path = EMSSH_POSIX_SHADOW_PATH)); [intros [= <-]; by apply (bool_decide_unpack _); vm_compute|done].
Qed.

(** The setting, three characters, and the password. *)
Definition toy_crypt : crypt_fn := fun password setting => Some (take 3 setting ++ password).

Definition toy_fs : ssh_fs_api :=
  mk_fs_api true true true false false false false false false false false false false false false
    false false false false false false false.
Definition toy_auth : ssh_posix_passwd_auth := mk_passwd_auth (Some toy_fs) EMSSH_POSIX_PASSWD_PATH EMSSH_POSIX_SHADOW_PATH true.
Definition toy_passwd_server : auth_server :=
  mk_auth_server (Some (passwd_callback toy_disk toy_crypt 100 toy_auth [])) None None EMSSH_PERMIT_ROOT_LOGIN_DEFAULT None None None.

Lemma password_login_exact_witness :
  account_admits toy_files toy_crypt toy_auth (cstr "alice") (cstr "pw").
Proof.
  destruct (password_login_exact toy_disk toy_files (fun _ => 7) (fun unread => unread) toy_crypt 100 (Some toy_fs) None None toy_auth []
    toy_passwd_server demo_password_request (replicate 32 1)) as [H _].
  - exact toy_disk_serves.
  - exact toy_files_short.
  - done.
  - done.
  - exact demo_password_request_ok.
  - by vm_compute.
  - done.
  - done.
  - apply Forall_replicate. by unfold is_byte.
  - by vm_compute.
  - apply H. by vm_compute.
Defined.

(** The fields are handed on as C strings, so what follows a NUL byte does not count: the
    password of alice and a NUL byte with anything behind it is her password as well. *)
Lemma password_after_nul_ignored :
  passwd_callback toy_disk toy_crypt 100 toy_auth [] (mk_password_auth_request (view_of (cstr "alice")) null_view (view_of (cstr "pw" ++ [0; 33]))) = true /\
  passwd_callback toy_disk toy_crypt 100 toy_auth [] (mk_password_auth_request (view_of (cstr "alice")) null_view (view_of (cstr "pw!"))) = false.
Proof. by vm_compute. Qed.
