(* ===== verification/OpensshText.v ===== *)
(** * Private keys: base64 and the text around it

    What the base64 decoder accepts and returns, for every text, and that it undoes
    the lines the encoder writes, between the markers of a PEM file. *)

From S2P Require Import Prelude Buffer Packet OpensshKey.

(** ** Writing at the end of what was written

    [appends cap p off bs r]: at the offset [off] of an array with room for [cap]
    bytes, [p] writes [bs] and returns [r] when they fit; otherwise it is refused,
    and changes nothing before [off] and nothing of the array's size. *)
Definition appends {A} (cap : Z) (p : OutM A) (off : Z) (bs : list Z) (r : A) : Prop :=
  forall w f, zlen w = off -> off <= cap -> cap <= zlen w + zlen f ->
  if off + zlen bs <=? cap then p (Some (w ++ f)) = (Ret r, Some (w ++ bs ++ zdrop (zlen bs) f))
  else exists f', zlen f' = zlen f /\ p (Some (w ++ f)) = (Err SSH_ERR_BUFFER_TOO_SMALL, Some (w ++ f')).

Lemma out_write_end w f bs :
  zlen bs <= zlen f -> out_write (zlen w) bs (Some (w ++ f)) = (Ret tt, Some (w ++ bs ++ zdrop (zlen bs) f)).
Proof.
  intros Hl. pose proof (zlen_nonneg bs). destruct (zsplit f (zlen bs)) as (x & r & -> & Hx); [lia|].
  unfold out_write. rewrite mem_write_app by done. by rewrite <- Hx, zdrop_app.
Qed.

Lemma appends_ret {A} cap off (r : A) : appends cap (mret r) off [] r.
Proof. intros w f <- Ho Hf. by rewrite (proj2 (Z.leb_le _ _)) by (rewrite zlen_nil; lia). Qed.

Lemma appends_bind {A B} cap off (p : OutM A) (k : A -> OutM B) bs1 bs2 r1 r2 :
  appends cap p off bs1 r1 -> appends cap (k r1) (off + zlen bs1) bs2 r2 ->
  appends cap (x ← p; k x) off (bs1 ++ bs2) r2.
Proof.
  intros Hp Hk w f Hw Ho Hf. specialize (Hp w f Hw Ho Hf). rewrite zlen_app. pose proof (zlen_nonneg bs2).
  pose proof (zlen_nonneg bs1). destruct (Z.leb_spec (off + zlen bs1) cap) as [H1|H1].
  - specialize (Hk (w ++ bs1) (zdrop (zlen bs1) f)).
    assert (zlen (zdrop (zlen bs1) f) = zlen f - zlen bs1) as Hz by (rewrite zlen_zdrop; lia).
    specialize (Hk ltac:(len_lia) ltac:(lia) ltac:(len_lia)). rewrite (bind_ret _ _ _ _ _ Hp). rewrite <- !app_assoc in Hk.
    destruct (Z.leb_spec (off + zlen bs1 + zlen bs2) cap).
    + rewrite (proj2 (Z.leb_le _ _)) by lia. by rewrite Hk, zdrop_zdrop, <- app_assoc by lia.
    + rewrite (proj2 (Z.leb_gt _ _)) by lia. destruct Hk as (f' & Hf' & ->). exists (bs1 ++ f'). split; [len_lia|by rewrite <- app_assoc].
  - rewrite (proj2 (Z.leb_gt _ _)) by lia. destruct Hp as (f' & Hf' & Hp). exists f'. split; [done|].
    by rewrite (bind_err _ _ _ _ _ Hp).
Qed.

Lemma appends_checked cap off bs {A} (c : bool) (k : OutM A) bs' r :
  (c = true <-> cap < off + zlen bs) -> appends cap k (off + zlen bs) bs' r ->
  appends cap (reject c SSH_ERR_BUFFER_TOO_SMALL;; out_write off bs;; k) off (bs ++ bs') r.
Proof.
  intros Hc Hk w f Hw Ho Hf. pose proof (zlen_nonneg bs). pose proof (zlen_nonneg bs'). rewrite zlen_app.
  destruct c.
  - destruct Hc as [Hc _]. specialize (Hc eq_refl). rewrite (proj2 (Z.leb_gt _ _)) by lia. by exists f.
  - assert (off + zlen bs <= cap) as H1 by (destruct (Z_le_gt_dec (off + zlen bs) cap); [done|assert (cap < off + zlen bs) as Hlt by lia; by apply Hc in Hlt]).
    pose proof (out_write_end w f bs ltac:(lia)) as Hp. rewrite Hw in Hp.
    specialize (Hk (w ++ bs) (zdrop (zlen bs) f)).
    assert (zlen (zdrop (zlen bs) f) = zlen f - zlen bs) as Hz by (rewrite zlen_zdrop; lia).
    specialize (Hk ltac:(len_lia) ltac:(lia) ltac:(len_lia)).
    rewrite (bind_ret _ _ _ tt (Some (w ++ f))) by done. rewrite (bind_ret _ _ _ _ _ Hp). rewrite <- !app_assoc in Hk.
    rewrite Z.add_assoc. destruct (_ <=? cap).
    + by rewrite Hk, zdrop_zdrop, <- app_assoc by lia.
    + destruct Hk as (f' & Hf' & ->). exists (bs ++ f'). split; [len_lia|by rewrite <- app_assoc].
Qed.

(** ** What base64 text says *)

(** The values of its characters; blanks are skipped, and nothing may follow the first
    equals sign but blanks and more of them. *)
Fixpoint sextets (padded : bool) (text : list Z) : option (list Z) :=
  match text with
  | [] => Some []
  | ch :: text' =>
    let value := base64_value ch in
    if value =? -3 then sextets padded text' else
    if value =? -2 then sextets true text' else
    if (value <? 0) || padded then None else
    match sextets padded text' with Some vs => Some (value :: vs) | None => None end
  end.

(** The bytes of the values, when [bits] bits with the value [r] are left over from the
    values before. *)
Fixpoint unpack (r bits : Z) (vs : list Z) : list Z :=
  match vs with
  | [] => []
  | v :: vs' =>
    let x := r * 64 + v in
    if bits + 6 >=? 8 then x / 2 ^ (bits - 2) :: unpack (x mod 2 ^ (bits - 2)) (bits - 2) vs'
    else unpack x (bits + 6) vs'
  end.

Lemma base64_value_range ch : base64_value ch < 64.
Proof. unfold base64_value. repeat case_bool; bool_lia. Qed.

(** The accumulator keeps more bits than are needed. *)
Lemma acc_step acc v bits :
  0 <= bits <= 26 -> 0 <= v < 64 ->
  Z.lor (u32 (Z.shiftl acc 6)) v mod 2 ^ (bits + 6) = (acc mod 2 ^ bits) * 64 + v.
Proof.
  intros Hb Hv. unfold u32. rewrite Z.shiftl_mul_pow2 by lia. change (2 ^ 32) with (2 ^ 26 * 2 ^ 6).
  rewrite Z.mul_mod_distr_r by lia. rewrite <- Z.shiftl_mul_pow2, lor_shiftl_add by lia. change (2 ^ 6) with 64.
  rewrite Z.pow_add_r by lia. change (2 ^ 6) with 64.
  assert (2 ^ 26 = 2 ^ (26 - bits) * 2 ^ bits) as E by (rewrite <- Z.pow_add_r by lia; f_equal; lia).
  assert (0 < 2 ^ bits) by (apply Z.pow_pos_nonneg; lia). assert (0 < 2 ^ (26 - bits)) by (apply Z.pow_pos_nonneg; lia).
  pose proof (Z.mod_pos_bound acc (2 ^ 26) ltac:(lia)).
  assert ((acc mod 2 ^ 26) mod 2 ^ bits = acc mod 2 ^ bits) as Em.
  { rewrite E. rewrite Z.mul_comm, Z.rem_mul_r by lia. rewrite (Z.mul_comm (2 ^ bits)), Z.mod_add by lia. by rewrite Zmod_mod. }
  rewrite <- Em. symmetry. apply (Z.mod_unique_pos _ _ ((acc mod 2 ^ 26) / 2 ^ bits)).
  - pose proof (Z.mod_pos_bound (acc mod 2 ^ 26) (2 ^ bits) ltac:(lia)). nia.
  - pose proof (Z.div_mod (acc mod 2 ^ 26) (2 ^ bits) ltac:(lia)). nia.
Qed.

(** The byte that is taken out, and what stays. *)
Lemma acc_byte acc b :
  0 <= b -> u8 (Z.land (Z.shiftr acc b) 255) = (acc mod 2 ^ (b + 8)) / 2 ^ b /\
  acc mod 2 ^ b = (acc mod 2 ^ (b + 8)) mod 2 ^ b.
Proof.
  intros Hb. assert (0 < 2 ^ b) by (apply Z.pow_pos_nonneg; lia). rewrite Z.pow_add_r by lia. change (2 ^ 8) with 256.
  unfold u8. rewrite land_255, Zmod_mod, Z.shiftr_div_pow2 by lia. rewrite Z.rem_mul_r by lia. split.
  - rewrite (Z.mul_comm (2 ^ b)), Z.div_add by lia. rewrite (Z.div_small (acc mod 2 ^ b)) by (apply Z.mod_pos_bound; lia). done.
  - rewrite (Z.mul_comm (2 ^ b)), Z.mod_add by lia. by rewrite Zmod_mod.
Qed.

Lemma base64_loop_appends cap text acc bits written saw vs :
  0 <= bits < 8 -> sextets saw text = Some vs ->
  appends cap (base64_loop cap text acc bits written saw) written (unpack (acc mod 2 ^ bits) bits vs)
    ((bits + 6 * zlen vs) mod 8, written + zlen (unpack (acc mod 2 ^ bits) bits vs)).
Proof.
  revert acc bits written saw vs. induction text as [|ch text IH]; intros acc bits written saw vs Hb Hs; cbn [sextets base64_loop] in *.
  { injection Hs as <-. cbn [unpack]. change (zlen (@nil Z)) with 0. rewrite Z.mul_0_r, !Z.add_0_r, Z.mod_small by lia. apply appends_ret. }
  cbv zeta in *. destruct (_ =? -3); [by apply IH|]. destruct (_ =? -2); [by apply IH|].
  destruct (base64_value ch <? 0) eqn:Ev; [done|]. destruct saw; [done|]. cbn [orb] in Hs.
  destruct (sextets false text) as [vs'|] eqn:Evs; [|done]. injection Hs as <-.
  pose proof (base64_value_range ch). assert (0 <= base64_value ch < 64) as Hv by lia.
  pose proof (acc_step acc (base64_value ch) bits ltac:(lia) Hv) as Hstep. cbn [unpack]. rewrite <- Hstep.
  set (acc' := Z.lor _ _) in *. rewrite zlen_cons. destruct (bits + 6 >=? 8) eqn:E8.
  - destruct (acc_byte acc' (bits + 6 - 8) ltac:(lia)) as [-> Hr].
    replace (bits + 6 - 8 + 8) with (bits + 6) in * by lia. replace (bits - 2) with (bits + 6 - 8) by lia. rewrite <- Hr.
    apply (appends_checked cap written [_] (written >=? cap)); [unfold zlen; cbn; bool_lia|].
    specialize (IH acc' (bits + 6 - 8) (written + 1) false vs' ltac:(lia) Evs).
    replace ((bits + 6 * (1 + zlen vs')) mod 8) with ((bits + 6 - 8 + 6 * zlen vs') mod 8)
      by (rewrite <- (Z.mod_add (bits + 6 - 8 + 6 * zlen vs') 1 8) by lia; f_equal; lia).
    rewrite !zlen_cons. change (zlen (@nil Z)) with 0. replace (written + (1 + 0)) with (written + 1) by lia.
    replace (written + (1 + zlen (unpack (acc' mod 2 ^ (bits + 6 - 8)) (bits + 6 - 8) vs')))
      with (written + 1 + zlen (unpack (acc' mod 2 ^ (bits + 6 - 8)) (bits + 6 - 8) vs')) by lia. exact IH.
  - replace (bits + 6 * (1 + zlen vs')) with (bits + 6 + 6 * zlen vs') by lia. apply IH; [lia|done].
Qed.

(** Text that is not base64 is refused, before or after some bytes were written. *)
Lemma base64_loop_refuses cap text acc bits written saw mem :
  0 <= bits < 8 -> 0 <= written -> cap <= zlen mem -> sextets saw text = None ->
  exists e mem', (e = SSH_ERR_MALFORMED_PACKET \/ e = SSH_ERR_BUFFER_TOO_SMALL) /\ zlen mem' = zlen mem /\
    base64_loop cap text acc bits written saw (Some mem) = (Err e, Some mem').
Proof.
  revert acc bits written saw mem.
  induction text as [|ch text IH]; intros acc bits written saw mem Hb Hw Hm Hs; cbn [sextets base64_loop] in *; [done|].
  cbv zeta in *. destruct (_ =? -3); [by apply IH|]. destruct (_ =? -2); [by apply IH|].
  destruct (base64_value ch <? 0); [by exists SSH_ERR_MALFORMED_PACKET, mem; auto|].
  destruct saw; [by exists SSH_ERR_MALFORMED_PACKET, mem; auto|]. cbn [orb] in Hs.
  destruct (sextets false text) as [vs'|] eqn:Evs; [done|]. destruct (bits + 6 >=? 8) eqn:E8; [|apply IH; (done || lia)].
  destruct (written >=? cap) eqn:Ec; [by exists SSH_ERR_BUFFER_TOO_SMALL, mem; auto|]. destruct (zsplit mem written) as (w & f & -> & <-); [lia|].
  rewrite (bind_ret _ _ _ tt (Some (w ++ f))) by done. rewrite (bind_ret _ _ _ _ _ (out_write_end w f [_] ltac:(unfold zlen in *; rewrite length_app in *; cbn; lia))).
  set (b := u8 _). assert (zlen (w ++ [b] ++ zdrop (zlen [b]) f) = zlen (w ++ f)) as Hz
    by (rewrite !zlen_app, zlen_zdrop by (pose proof (zlen_nonneg [b]); lia); change (zlen [b]) with 1; len_lia).
  destruct (IH (Z.lor (u32 (Z.shiftl acc 6)) (base64_value ch)) (bits + 6 - 8) (zlen w + 1) false (w ++ [b] ++ zdrop (zlen [b]) f))
    as (e & mem' & He & Hm' & E); [lia|lia|lia|done|]. exists e, mem'. split_and!; [done|lia|exact E].
Qed.

(** ** Encoding

    The groups of four characters of the encoder, one for three bytes. *)
Definition quad_char (triple k : Z) : Z := b64_char (Z.shiftr triple k).
Definition triple_of (a b c : Z) : Z := a * 65536 + b * 256 + c.

Fixpoint quads (der : list Z) : list (list Z) :=
  match der with
  | [] => []
  | [a] => let t := triple_of a 0 0 in [[quad_char t 18; quad_char t 12; EQUALS; EQUALS]]
  | [a; b] => let t := triple_of a b 0 in [[quad_char t 18; quad_char t 12; quad_char t 6; EQUALS]]
  | a :: b :: c :: der' =>
    let t := triple_of a b c in [quad_char t 18; quad_char t 12; quad_char t 6; quad_char t 0] :: quads der'
  end.

(** The text, from [line] characters on the line, and the characters on the last one. *)
Fixpoint pem_text (line : Z) (qs : list (list Z)) : list Z * Z :=
  match qs with
  | [] => ([], line)
  | q :: qs' =>
    if line + 4 >=? 64 then let '(text, last) := pem_text 0 qs' in (q ++ NEWLINE :: text, last)
    else let '(text, last) := pem_text (line + 4) qs' in (q ++ text, last)
  end.

Definition pem_body (der : list Z) : list Z :=
  let '(text, last) := pem_text 0 (quads der) in text ++ (if last =? 0 then [] else [NEWLINE]).
Definition pem_of (der : list Z) : list Z := pem_begin ++ pem_body der ++ pem_end.

(** Induction three bytes at a time. *)
Lemma three_ind (P : list Z -> Prop) :
  P [] -> (forall a, P [a]) -> (forall a b, P [a; b]) -> (forall a b c l, P l -> P (a :: b :: c :: l)) -> forall l, P l.
Proof.
  intros H0 H1 H2 H3 l. enough (P l /\ (forall a, P (a :: l)) /\ (forall a b, P (a :: b :: l))) by tauto.
  induction l as [|c l (I0 & I1 & I2)]; [done|]. split_and!; [apply I1|intros; apply I2|]. intros a b. by apply H3.
Qed.

Lemma b64_decodes x : base64_value (b64_char x) = x mod 64.
Proof.
  unfold b64_char. replace (Z.land x 63) with (x mod 64) by (symmetry; apply (Z.land_ones x 6); lia).
  pose proof (Z.mod_pos_bound x 64 ltac:(lia)) as H. set (y := x mod 64) in *. clearbody y.
  assert (Forall (fun n => base64_value (byte_at b64 n) = Z.of_nat n) (seq 0 64)) as Hall
    by (apply (bool_decide_unpack _); by vm_compute).
  rewrite <- (Z2Nat.id y) at 2 by lia. apply (proj1 (Forall_forall _ _) Hall). apply in_seq. lia.
Qed.

Lemma sextets_char padded x text :
  sextets padded (b64_char x :: text) =
    if padded then None else match sextets padded text with Some vs => Some (x mod 64 :: vs) | None => None end.
Proof.
  cbn [sextets]. rewrite b64_decodes. pose proof (Z.mod_pos_bound x 64 ltac:(lia)).
  rewrite !(proj2 (Z.eqb_neq (x mod 64) _)), (proj2 (Z.ltb_ge _ _)) by lia. by destruct padded.
Qed.

Lemma sextets_newline padded text : sextets padded (NEWLINE :: text) = sextets padded text.
Proof. done. Qed.

Lemma quad_values a b c tl :
  let t := triple_of a b c in
  sextets false ([quad_char t 18; quad_char t 12; quad_char t 6; quad_char t 0] ++ tl) =
    match sextets false tl with
    | Some vs => Some ([Z.shiftr t 18 mod 64; Z.shiftr t 12 mod 64; Z.shiftr t 6 mod 64; Z.shiftr t 0 mod 64] ++ vs)
    | None => None
    end.
Proof. cbv zeta. cbn [app]. unfold quad_char. rewrite !sextets_char. by destruct (sextets false tl). Qed.

Lemma unpack_0 r v vs : unpack r 0 (v :: vs) = unpack (r * 64 + v) 6 vs.
Proof. done. Qed.
Lemma unpack_6 r v vs : unpack r 6 (v :: vs) = (r * 64 + v) / 16 :: unpack ((r * 64 + v) mod 16) 4 vs.
Proof. done. Qed.
Lemma unpack_4 r v vs : unpack r 4 (v :: vs) = (r * 64 + v) / 4 :: unpack ((r * 64 + v) mod 4) 2 vs.
Proof. done. Qed.
Lemma unpack_2 r v vs : unpack r 2 (v :: vs) = r * 64 + v :: unpack 0 0 vs.
Proof. cbn [unpack]. change (2 ^ (2 - 2)) with 1. by rewrite Z.div_1_r, Z.mod_1_r. Qed.

Ltac div_lia := Z.to_euclidean_division_equations; lia.
Ltac unpack_bytes := repeat first [rewrite unpack_0 | rewrite unpack_6 | rewrite unpack_4 | rewrite unpack_2]; cbn [unpack]; repeat (f_equal; [div_lia|]); try (f_equal; div_lia).

Lemma unpack_quad a b c vs :
  is_byte a -> is_byte b -> is_byte c ->
  let t := triple_of a b c in
  unpack 0 0 ([Z.shiftr t 18 mod 64; Z.shiftr t 12 mod 64; Z.shiftr t 6 mod 64; Z.shiftr t 0 mod 64] ++ vs) = a :: b :: c :: unpack 0 0 vs.
Proof.
  unfold is_byte. intros Ha Hb Hc. cbv zeta. unfold triple_of. rewrite !Z.shiftr_div_pow2 by lia. cbn [app].
  change (2 ^ 18) with 262144. change (2 ^ 12) with 4096. change (2 ^ 6) with 64. change (2 ^ 0) with 1. unpack_bytes.
Qed.

(** What a line may end with. *)
Definition blank (rest : list Z) : Prop := forall padded, sextets padded rest = Some [].

(** The text of one group. *)
Lemma pem_text_one line q rest : fst (pem_text line [q]) ++ rest = q ++ (if line + 4 >=? 64 then NEWLINE :: rest else rest).
Proof. cbn [pem_text]. destruct (_ >=? _); cbn [fst]; rewrite <- app_assoc; done. Qed.

Lemma sextets_end line rest padded : blank rest -> sextets padded (if line + 4 >=? 64 then NEWLINE :: rest else rest) = Some [].
Proof. intros Hr. destruct (_ >=? _); [rewrite sextets_newline|]; apply Hr. Qed.

(** The encoder's text, followed by blanks, says the bytes that were encoded. *)
Lemma decode_pem_text der line rest :
  Forall is_byte der -> blank rest ->
  exists vs, sextets false (fst (pem_text line (quads der)) ++ rest) = Some vs /\ unpack 0 0 vs = der /\
    (6 * zlen vs) mod 8 < 6.
Proof.
  intros Hd Hr. revert line Hd. induction der as [|a|a b|a b c der IH] using three_ind; intros line Hd.
  - exists []. cbn. by rewrite Hr.
  - apply Forall_cons_1 in Hd as [Ha _]. cbn [quads]. rewrite pem_text_one. cbn [app]. unfold quad_char.
    rewrite !sextets_char. change (sextets false (EQUALS :: EQUALS :: ?t)) with (sextets true t). rewrite sextets_end by done.
    eexists. split; [done|]. split; [|done]. unfold is_byte, triple_of in *. rewrite !Z.shiftr_div_pow2 by lia.
    change (2 ^ 18) with 262144. change (2 ^ 12) with 4096. unpack_bytes.
  - apply Forall_cons_1 in Hd as [Ha [Hb _]%Forall_cons_1]. cbn [quads]. rewrite pem_text_one. cbn [app]. unfold quad_char.
    rewrite !sextets_char. change (sextets false (EQUALS :: ?t)) with (sextets true t). rewrite sextets_end by done.
    eexists. split; [done|]. split; [|done]. unfold is_byte, triple_of in *. rewrite !Z.shiftr_div_pow2 by lia.
    change (2 ^ 18) with 262144. change (2 ^ 12) with 4096. change (2 ^ 6) with 64. unpack_bytes.
  - apply Forall_cons_1 in Hd as [Ha [Hb [Hc Hd]%Forall_cons_1]%Forall_cons_1].
    assert (exists line', fst (pem_text line (quads (a :: b :: c :: der))) ++ rest =
      [quad_char (triple_of a b c) 18; quad_char (triple_of a b c) 12; quad_char (triple_of a b c) 6; quad_char (triple_of a b c) 0] ++
      (if line + 4 >=? 64 then [NEWLINE] else []) ++ fst (pem_text line' (quads der)) ++ rest) as [line' ->].
    { cbn [quads pem_text]. destruct (line + 4 >=? 64); [exists 0|exists (line + 4)]; by destruct (pem_text _ (quads der)). }
    rewrite quad_values. destruct (IH line' Hd) as (vs & E & Hu & Hm). 
    assert (sextets false ((if line + 4 >=? 64 then [NEWLINE] else []) ++ fst (pem_text line' (quads der)) ++ rest) = Some vs) as ->
      by (destruct (line + 4 >=? 64); [cbn [app]; by rewrite sextets_newline|done]).
    eexists. split; [done|]. rewrite unpack_quad, Hu by done. split; [done|]. rewrite zlen_app. change (zlen [_; _; _; _]) with 4.
    replace (6 * (4 + zlen vs)) with (6 * zlen vs + 3 * 8) by lia. by rewrite Z.mod_add by lia.
Qed.

(** ** Writing the text *)

(** [p] writes [bs] at [off] where there is room in the memory, and returns [r]. *)
Definition writes {A} (p : OutM A) (off : Z) (bs : list Z) (r : A) : Prop :=
  forall w f, zlen w = off -> zlen bs <= zlen f -> p (Some (w ++ f)) = (Ret r, Some (w ++ bs ++ zdrop (zlen bs) f)).

Lemma writes_ret {A} off (r : A) : writes (mret r) off [] r.
Proof. by intros w f <- Hf. Qed.

Lemma writes_bytes off bs : writes (out_write off bs) off bs tt.
Proof. intros w f <- Hf. by apply out_write_end. Qed.

Lemma writes_bind {A B} (p : OutM A) (k : A -> OutM B) off bs1 bs2 r1 r2 :
  writes p off bs1 r1 -> writes (k r1) (off + zlen bs1) bs2 r2 -> writes (x ← p; k x) off (bs1 ++ bs2) r2.
Proof.
  intros Hp Hk w f Hw Hf. rewrite zlen_app in *. pose proof (zlen_nonneg bs1). pose proof (zlen_nonneg bs2).
  rewrite (bind_ret _ _ _ _ _ (Hp w f Hw ltac:(lia))).
  specialize (Hk (w ++ bs1) (zdrop (zlen bs1) f)). rewrite zlen_zdrop in Hk by lia.
  specialize (Hk ltac:(len_lia) ltac:(lia)). rewrite <- !app_assoc in Hk. by rewrite Hk, zdrop_zdrop, <- !app_assoc by lia.
Qed.

(** The characters of a group, and the newline behind it. *)
Definition quad_text (line : Z) (q : list Z) : list Z := if line + 4 >=? 64 then q ++ [NEWLINE] else q.
Definition quad_line (line : Z) : Z := if line + 4 >=? 64 then 0 else line + 4.

(** One statement that writes, and the rest. *)
Lemma writes_then {B} (k : OutM B) off off' bs bs2 r :
  off' = off + zlen bs -> writes k off' bs2 r -> writes (out_write off bs;; k) off (bs ++ bs2) r.
Proof. intros -> Hk. eapply writes_bind; [apply writes_bytes|exact Hk]. Qed.

Ltac zlen_lia := unfold zlen; cbn [length app]; lia.

Lemma put_quad_writes cap used line c0 c1 c2 c3 :
  used + 4 + 2 + zlen pem_end + 1 <= cap ->
  writes (put_quad cap used line c0 c1 c2 c3) used (quad_text line [c0; c1; c2; c3])
    (used + zlen (quad_text line [c0; c1; c2; c3]), quad_line line).
Proof.
  intros Hc. unfold put_quad. replace (_ >? cap) with false by bool_lia.
  apply (writes_bind _ _ used [] _ tt); [apply writes_ret|]. rewrite Z.add_0_r. unfold quad_text, quad_line.
  destruct (line + 4 >=? 64) eqn:E; cbv zeta; rewrite ?E.
  - apply (writes_then _ used (used + 1) [c0] [c1; c2; c3; NEWLINE]); [done|]. apply (writes_then _ (used + 1) (used + 2) [c1] [c2; c3; NEWLINE]); [zlen_lia|].
    apply (writes_then _ (used + 2) (used + 3) [c2] [c3; NEWLINE]); [zlen_lia|]. apply (writes_then _ (used + 3) (used + 4) [c3] [NEWLINE]); [zlen_lia|].
    apply (writes_then _ (used + 4) (used + 4 + 1) [NEWLINE] []); [zlen_lia|].
    replace (used + 4 + 1) with (used + zlen ([c0; c1; c2; c3] ++ [NEWLINE])) by zlen_lia. apply writes_ret.
  - apply (writes_then _ used (used + 1) [c0] [c1; c2; c3]); [done|]. apply (writes_then _ (used + 1) (used + 2) [c1] [c2; c3]); [zlen_lia|].
    apply (writes_then _ (used + 2) (used + 3) [c2] [c3]); [zlen_lia|]. apply (writes_then _ (used + 3) (used + 4) [c3] []); [zlen_lia|].
    apply writes_ret.
Qed.

(** The room that is kept for what follows the lines. *)
Definition tail_room (cap used line : Z) : Prop := used + (if line =? 0 then 0 else 1) + zlen pem_end + 1 <= cap.

Lemma pem_text_last line qs : 0 <= line < 64 -> 0 <= snd (pem_text line qs) < 64.
Proof.
  revert line. induction qs as [|q qs IH]; intros line Hl; cbn [pem_text]; [done|]. destruct (line + 4 >=? 64) eqn:E.
  - specialize (IH 0 ltac:(lia)). by destruct (pem_text 0 qs).
  - specialize (IH (line + 4) ltac:(lia)). by destruct (pem_text (line + 4) qs).
Qed.

Lemma pem_text_cons line q qs :
  pem_text line (q :: qs) = (quad_text line q ++ fst (pem_text (quad_line line) qs), snd (pem_text (quad_line line) qs)).
Proof.
  cbn [pem_text]. unfold quad_text, quad_line. destruct (line + 4 >=? 64); destruct (pem_text _ qs); cbn; [|done].
  by rewrite <- app_assoc.
Qed.

(** A group is written, and room is left for the end, or it is refused. *)
Lemma put_quad_room cap used line c0 c1 c2 c3 w f :
  zlen w = used -> cap <= zlen w + zlen f -> 0 <= line ->
  let text := quad_text line [c0; c1; c2; c3] in
  (put_quad cap used line c0 c1 c2 c3 (Some (w ++ f)) =
     (Ret (used + zlen text, quad_line line), Some ((w ++ text) ++ zdrop (zlen text) f)) /\
   tail_room cap (used + zlen text) (quad_line line) /\ zlen text <= zlen f) \/
  (cap < used + 37 /\ put_quad cap used line c0 c1 c2 c3 (Some (w ++ f)) = (Err SSH_ERR_BUFFER_TOO_SMALL, Some (w ++ f))).
Proof.
  intros Hw Hf Hl. cbv zeta. change 37 with (4 + 2 + zlen pem_end + 1). destruct (Z_le_gt_dec (used + 4 + 2 + zlen pem_end + 1) cap) as [Hc|Hc].
  - left. assert (zlen (quad_text line [c0; c1; c2; c3]) = 4 + (if line + 4 >=? 64 then 1 else 0)) as Ht
      by (unfold quad_text; by destruct (_ >=? _)).
    assert (zlen (quad_text line [c0; c1; c2; c3]) <= zlen f) as Hfit.
    { change (zlen pem_end) with 30 in *. destruct (_ >=? _); lia. }
    split_and!; [|unfold tail_room, quad_line|done].
    + rewrite (put_quad_writes cap used line c0 c1 c2 c3 ltac:(lia) w f Hw Hfit). by rewrite <- app_assoc.
    + rewrite Ht. change (zlen pem_end) with 30 in *. destruct (_ >=? _); cbn; [|destruct (_ =? 0)]; lia.
  - right. split; [lia|]. unfold put_quad. by replace (_ >? cap) with true by bool_lia.
Qed.

Lemma shift_two a b : is_byte b -> Z.lor (Z.shiftl a 16) (Z.shiftl b 8) = triple_of a b 0.
Proof.
  unfold is_byte, triple_of. intros Hb. rewrite (Z.shiftl_mul_pow2 b) by lia. change (2 ^ 8) with 256.
  rewrite lor_shiftl_add by lia. lia.
Qed.
Lemma shift_three a b c : is_byte b -> is_byte c -> Z.lor (Z.lor (Z.shiftl a 16) (Z.shiftl b 8)) c = triple_of a b c.
Proof.
  intros Hb Hc. rewrite shift_two by done. unfold is_byte, triple_of in *.
  replace (a * 65536 + b * 256 + 0) with (Z.shiftl (a * 256 + b) 8) by (rewrite Z.shiftl_mul_pow2 by lia; lia).
  rewrite lor_shiftl_add by lia. lia.
Qed.
Lemma shift_one a : Z.shiftl a 16 = triple_of a 0 0.
Proof. unfold triple_of. rewrite Z.shiftl_mul_pow2 by lia. lia. Qed.

Lemma quad_text_len line q : zlen q = 4 -> zlen (quad_text line q) <= 5.
Proof. intros Hq. unfold quad_text. destruct (_ >=? _); [rewrite zlen_app, Hq; by cbn|lia]. Qed.

(** The loop writes its text, or reports that the array is too small. *)
Lemma pem_loop_writes cap der used line w f :
  Forall is_byte der -> zlen w = used -> cap <= zlen w + zlen f -> 0 <= line < 64 -> tail_room cap used line ->
  let '(text, last) := pem_text line (quads der) in
  (pem_loop cap der used line (Some (w ++ f)) =
     (Ret (used + zlen text, last), Some ((w ++ text) ++ zdrop (zlen text) f)) /\
   tail_room cap (used + zlen text) last /\ zlen text <= zlen f) \/
  (cap < used + zlen text + 37 /\
   exists f', zlen f' = zlen f /\ pem_loop cap der used line (Some (w ++ f)) = (Err SSH_ERR_BUFFER_TOO_SMALL, Some (w ++ f'))).
Proof.
  revert used line w f. induction der as [|a|a b|a b c der IH] using three_ind; intros used line w f Hd Hw Hf Hl Hr.
  - left. cbn. rewrite app_nil_r, Z.add_0_r. split_and!; [done|done|apply zlen_nonneg].
  - apply Forall_cons_1 in Hd as [Ha _]. cbn [quads]. cbv zeta. rewrite pem_text_cons. cbn [pem_text fst snd]. rewrite app_nil_r.
    cbn [pem_loop]. rewrite shift_one. cbv zeta.
    destruct (put_quad_room cap used line (quad_char (triple_of a 0 0) 18) (quad_char (triple_of a 0 0) 12) EQUALS EQUALS w f Hw Hf ltac:(lia))
      as [H|[Hc E]]; [by left|right]. split; [pose proof (zlen_nonneg (quad_text line [quad_char (triple_of a 0 0) 18; quad_char (triple_of a 0 0) 12; EQUALS; EQUALS])); lia|by exists f].
  - apply Forall_cons_1 in Hd as [Ha [Hb _]%Forall_cons_1]. cbn [quads]. cbv zeta. rewrite pem_text_cons. cbn [pem_text fst snd]. rewrite app_nil_r.
    cbn [pem_loop]. rewrite shift_two by done. cbv zeta.
    destruct (put_quad_room cap used line (quad_char (triple_of a b 0) 18) (quad_char (triple_of a b 0) 12) (quad_char (triple_of a b 0) 6) EQUALS w f Hw Hf ltac:(lia))
      as [H|[Hc E]]; [by left|right]. split; [pose proof (zlen_nonneg (quad_text line [quad_char (triple_of a b 0) 18; quad_char (triple_of a b 0) 12; quad_char (triple_of a b 0) 6; EQUALS])); lia|by exists f].
  - apply Forall_cons_1 in Hd as [Ha [Hb [Hc Hd]%Forall_cons_1]%Forall_cons_1]. cbn [quads]. cbv zeta. rewrite pem_text_cons.
    set (q := [_; _; _; _]). set (t := quad_text line q). cbn [pem_loop]. rewrite shift_three by done.
    pose proof (put_quad_room cap used line (quad_char (triple_of a b c) 18) (quad_char (triple_of a b c) 12)
      (quad_char (triple_of a b c) 6) (quad_char (triple_of a b c) 0) w f Hw Hf ltac:(lia)) as H.
    cbv zeta in H. fold q t in H. pose proof (zlen_nonneg t).
    destruct (pem_text (quad_line line) (quads der)) as [text last] eqn:Et. cbn [fst snd]. pose proof (zlen_nonneg text).
    rewrite zlen_app. destruct H as [(E & Hr' & Hfit)|[Hc' E]].
    + unfold mbind, prog_bind. change (b64_char (triple_of a b c)) with (quad_char (triple_of a b c) 0).
      change (b64_char (Z.shiftr (triple_of a b c) ?k)) with (quad_char (triple_of a b c) k). rewrite E.
      assert (zlen (zdrop (zlen t) f) = zlen f - zlen t) as Hz by (rewrite zlen_zdrop; lia).
      specialize (IH (used + zlen t) (quad_line line) (w ++ t) (zdrop (zlen t) f) Hd ltac:(len_lia) ltac:(len_lia)
        ltac:(unfold quad_line; case_bool; lia) Hr'). rewrite Et in IH. destruct IH as [(E2 & Hr2 & Hf2)|(Hc2 & f' & Hf' & E2)].
      * left. rewrite E2. rewrite zdrop_zdrop, <- !app_assoc by lia. rewrite Z.add_assoc. split_and!; [done|done|lia].
      * right. split; [lia|]. exists (t ++ f'). split; [len_lia|]. rewrite E2. by rewrite <- !app_assoc.
    + right. split; [lia|]. exists f. split; [done|]. unfold mbind, prog_bind.
      change (b64_char (triple_of a b c)) with (quad_char (triple_of a b c) 0).
      change (b64_char (Z.shiftr (triple_of a b c) ?k)) with (quad_char (triple_of a b c) k). by rewrite E.
Qed.

(** ** What the bytes of a base64 text are

    They are the number the characters spell in base 64, without the bits that are
    left over. *)
Definition base64_number (vs : list Z) : Z := fold_left (fun acc v => acc * 64 + v) vs 0.

Lemma base64_number_acc vs acc : fold_left (fun acc v => acc * 64 + v) vs acc = acc * 64 ^ zlen vs + base64_number vs.
Proof.
  unfold base64_number. revert acc. induction vs as [|v vs IH]; intros acc; [cbn [fold_left]; change (zlen (@nil Z)) with 0; rewrite Z.pow_0_r; lia|].
  cbn [fold_left]. rewrite IH, (IH (0 * 64 + v)), zlen_cons. pose proof (zlen_nonneg vs).
  rewrite Z.pow_add_r by lia. change (64 ^ 1) with 64. lia.
Qed.

Lemma base64_number_cons v vs : base64_number (v :: vs) = v * 64 ^ zlen vs + base64_number vs.
Proof. unfold base64_number. cbn [fold_left]. by rewrite base64_number_acc. Qed.

Lemma sextets_range text padded vs : sextets padded text = Some vs -> Forall (fun v => 0 <= v < 64) vs.
Proof.
  revert padded vs. induction text as [|ch text IH]; intros padded vs; cbn [sextets]; [by intros [= <-]|].
  cbv zeta. destruct (_ =? -3); [apply IH|]. destruct (_ =? -2); [apply IH|].
  destruct (base64_value ch <? 0) eqn:Ev; [done|]. destruct padded; [done|]. cbn [orb].
  destruct (sextets false text) as [vs'|] eqn:E; [|done]. intros [= <-]. pose proof (base64_value_range ch).
  constructor; [lia|by eapply IH].
Qed.

Lemma pow_256_64 n k m : 0 <= m -> 0 <= k -> 8 * k + m = n -> 256 ^ k * 2 ^ m = 2 ^ n.
Proof. intros Hm Hk <-. rewrite Z.pow_add_r, Z.pow_mul_r by lia. done. Qed.

Lemma unpack_value r bits vs :
  0 <= bits < 8 -> 0 <= r < 2 ^ bits -> Forall (fun v => 0 <= v < 64) vs ->
  zlen (unpack r bits vs) = (bits + 6 * zlen vs) / 8 /\ Forall is_byte (unpack r bits vs) /\
  be_value (unpack r bits vs) = (r * 64 ^ zlen vs + base64_number vs) / 2 ^ ((bits + 6 * zlen vs) mod 8).
Proof.
  intros Hb Hr Hvs. revert r bits Hb Hr. induction Hvs as [|v vs Hv Hvs IH]; intros r bits Hb Hr; cbn [unpack].
  { change (zlen (@nil Z)) with 0. rewrite Z.mul_0_r, Z.add_0_r, Z.div_small, Z.mod_small by lia. split_and!; [done|done|].
    cbn. by rewrite Z.mul_1_r, Z.add_0_r, Z.div_small. }
  rewrite base64_number_cons, zlen_cons. pose proof (zlen_nonneg vs). rewrite (Z.pow_add_r 64 1) by lia. change (64 ^ 1) with 64.
  replace (r * (64 * 64 ^ zlen vs) + (v * 64 ^ zlen vs + base64_number vs)) with ((r * 64 + v) * 64 ^ zlen vs + base64_number vs) by lia.
  assert (0 <= r * 64 + v < 2 ^ (bits + 6)) as Hx by (rewrite Z.pow_add_r by lia; change (2 ^ 6) with 64; nia).
  set (x := r * 64 + v) in *. clearbody x. destruct (bits + 6 >=? 8) eqn:E8.
  - set (b := bits - 2). assert (0 < 2 ^ b) by (apply Z.pow_pos_nonneg; lia).
    assert (2 ^ (bits + 6) = 256 * 2 ^ b) as Hp by (change 256 with (2 ^ 8); rewrite <- Z.pow_add_r by lia; f_equal; lia).
    assert (0 <= b < 8) as Hb8 by lia. destruct (IH (x mod 2 ^ b) b Hb8) as (Hl & Hy & Hn); [by apply Z.mod_pos_bound|].
    replace (bits + 6 * (1 + zlen vs)) with (b + 6 * zlen vs + 1 * 8) by lia. rewrite Z.div_add, Z.mod_add by lia.
    set (n := b + 6 * zlen vs) in *. pose proof (Z.mod_pos_bound n 8 ltac:(lia)).
    split_and!; [rewrite zlen_cons; lia| |].
    + constructor; [|done]. unfold is_byte. split; [apply Z.div_pos; lia|]. apply Z.div_lt_upper_bound; lia.
    + rewrite be_value_cons, Hn, Hl. assert (0 < 2 ^ (n mod 8)) by (apply Z.pow_pos_nonneg; lia).
      assert (256 ^ (n / 8) * 2 ^ (n mod 8) = 2 ^ b * 64 ^ zlen vs) as Hpow.
      { rewrite (pow_256_64 n) by (try (apply Z.div_pos; lia); try lia; symmetry; apply Z.div_mod; lia).
        unfold n. rewrite Z.pow_add_r, Z.pow_mul_r by lia. done. }
      rewrite <- Z.div_add_l by lia. f_equal. rewrite <- Z.mul_assoc, Hpow. pose proof (Z.div_mod x (2 ^ b) ltac:(lia)). nia.
  - replace (bits + 6 * (1 + zlen vs)) with (bits + 6 + 6 * zlen vs) by lia. by apply IH; [lia|].
Qed.

(** What base64 text says: the bytes of that number, at least one, when fewer than six
    bits are left over. *)
Definition base64_bytes (text : list Z) : option (list Z) :=
  match sextets false text with
  | Some vs =>
    let k := 6 * zlen vs in
    if (k mod 8 <? 6) && (k >=? 8) then Some (be_bytes (Z.to_nat (k / 8)) (base64_number vs / 2 ^ (k mod 8))) else None
  | None => None
  end.

Lemma unpack_bytes_of vs :
  Forall (fun v => 0 <= v < 64) vs ->
  let k := 6 * zlen vs in
  unpack 0 0 vs = be_bytes (Z.to_nat (k / 8)) (base64_number vs / 2 ^ (k mod 8)) /\ zlen (unpack 0 0 vs) = k / 8.
Proof.
  intros Hvs k. destruct (unpack_value 0 0 vs ltac:(lia) ltac:(cbn; lia) Hvs) as (Hl & Hb & Hn).
  rewrite Z.mul_0_l, !Z.add_0_l in *. fold k in Hl, Hn. split; [|done]. rewrite <- Hn, <- Hl.
  unfold zlen. by rewrite Nat2Z.id, be_bytes_value.
Qed.

(** The decoder on text of a given meaning. *)
Definition base64_result (bytes : option (list Z)) (cap : Z) (mem : list Z) (r : outcome Z * option (list Z)) : Prop :=
  match bytes with
  | Some bs =>
    if zlen bs <=? cap then r = (Ret (zlen bs), Some (bs ++ zdrop (zlen bs) mem))
    else exists mem', zlen mem' = zlen mem /\ r = (Err SSH_ERR_BUFFER_TOO_SMALL, Some mem')
  | None =>
    exists e mem', (e = SSH_ERR_MALFORMED_PACKET \/ e = SSH_ERR_BUFFER_TOO_SMALL) /\ zlen mem' = zlen mem /\ r = (Err e, Some mem')
  end.

Lemma mem_read_all (l : list Z) : mem_read l 0 (zlen l) = Some l.
Proof. pose proof (mem_read_app [] l []) as H. by rewrite app_nil_r in H. Qed.

Lemma decode_base64_spec text cap mem :
  0 <= cap <= zlen mem -> base64_result (base64_bytes text) cap mem (decode_base64_data (Some text) (zlen text) cap (Some mem)).
Proof.
  intros Hc. unfold decode_base64_data, base64_result, base64_bytes. rewrite (bind_ret _ _ _ (Some mem) (Some mem)) by done.
  cbn [is_null orb default]. rewrite (bind_ret _ _ _ tt (Some mem)) by done. rewrite mem_read_all.
  destruct (sextets false text) as [vs|] eqn:Es.
  - destruct (unpack_bytes_of vs (sextets_range _ _ _ Es)) as [Hu Hl]. rewrite <- Hu. set (k := 6 * zlen vs) in *.
    pose proof (base64_loop_appends cap text 0 0 0 false vs ltac:(lia) Es [] mem eq_refl ltac:(lia) ltac:(rewrite zlen_nil; lia)) as H.
    rewrite Z.mod_0_l in H by lia. rewrite !Z.add_0_l in H. cbn [app] in H. fold k in H.
    destruct (zlen (unpack 0 0 vs) <=? cap) eqn:Ef.
    + rewrite (bind_ret _ _ _ _ _ H). destruct (k mod 8 <? 6) eqn:E6; cbn [andb].
      * replace (k mod 8 >=? 6) with false by lia. destruct (k >=? 8) eqn:E8.
        -- rewrite Ef. replace (zlen (unpack 0 0 vs) =? 0) with false; [done|]. rewrite Hl.
           assert (1 <= k / 8) by (apply Z.div_le_lower_bound; lia). lia.
        -- replace (zlen (unpack 0 0 vs) =? 0) with true by (rewrite Hl, Z.div_small; [done|pose proof (zlen_nonneg vs); lia]).
           eexists _, _. split_and!; [by left| |done]. rewrite !zlen_app, zlen_zdrop by apply zlen_nonneg. lia.
      * replace (k mod 8 >=? 6) with true by lia. eexists _, _. split_and!; [by left| |done].
        rewrite !zlen_app, zlen_zdrop by apply zlen_nonneg. lia.
    + destruct H as (f' & Hf' & H). rewrite (bind_err _ _ _ _ _ H). destruct (_ && _); [rewrite Ef; by exists f'|].
      exists SSH_ERR_BUFFER_TOO_SMALL, f'. auto.
  - destruct (base64_loop_refuses cap text 0 0 0 false mem ltac:(lia) ltac:(lia) ltac:(lia) Es) as (e & mem' & He & Hm & E).
    rewrite (bind_err _ _ _ _ _ E). by exists e, mem'.
Qed.

(** Base64 text is decoded exactly: for every text, the decoder returns the bytes of
    the number the characters spell in base 64 without the bits left over, and writes
    nothing behind them; text with another character, with one behind an equals sign,
    with six bits or more left over or for no byte at all is refused, and bytes that do
    not fit are reported as such; memory outside of the array is never touched. *)
Theorem decode_base64_exact text cap mem :
  0 <= cap <= zlen mem ->
  base64_result (base64_bytes text) cap mem (decode_base64_data (Some text) (zlen text) cap (Some mem)).
Proof. exact (decode_base64_spec text cap mem). Qed.

Definition base64_example : list Z := cstr "SGVsbG8h" ++ [NEWLINE] ++ cstr "Cg==".

Lemma decode_base64_exact_witness :
  base64_bytes base64_example = Some (cstr "Hello!" ++ [10]) /\
  decode_base64_data (Some base64_example) (zlen base64_example) 8 (Some (replicate 8 0)) =
    (Ret 7, Some (cstr "Hello!" ++ [10; 0])).
Proof.
  split; [reflexivity|]. exact (decode_base64_exact base64_example 8 (replicate 8 0) ltac:(by vm_compute)).
Defined.
