(* ===== verification/OpensshDer.v ===== *)
(** * Private keys: DER

    The bytes that [pkcs1_private_der_encode] writes are the DER encoding of the
    integers of the key: a reader of DER that accepts the shortest forms only gets the
    integers back, and an array that is too small is reported. *)

From S2P Require Import Prelude Buffer Packet Codec OpensshKey OpensshText.

(** ** The encoding *)

(** The number of bytes of a length above 127. *)
Definition der_len (len : Z) : list Z :=
  if len <? 128 then [len] else
  let n := count_bytes 8 len in (128 + n) :: be_bytes (Z.to_nat n) len.

Definition der_tlv (tag : Z) (content : list Z) : list Z := tag :: der_len (zlen content) ++ content.

(** The content of an integer is that of the mpint of the SSH protocol. *)
Definition der_integer (l : list Z) : list Z := der_tlv 2 (mpint_bytes l).

(** The version, zero, and the integers. *)
Definition der_version : list Z := [2; 1; 0].
Definition pkcs1_der (ls : list (list Z)) : list Z := der_tlv 48 (der_version ++ concat (map der_integer ls)).

(** ** A reader *)
Definition der_read_len (bs : list Z) : option (Z * list Z) :=
  match bs with
  | [] => None
  | b :: bs =>
    if b <? 128 then Some (b, bs) else
    let n := b - 128 in
    let len := be_value (ztake n bs) in
    if (zlen bs <? n) || (len <? 128) || (hd 0 bs =? 0) then None else Some (len, zdrop n bs)
  end.

Definition der_read_tlv (tag : Z) (bs : list Z) : option (list Z * list Z) :=
  match bs with
  | t :: bs =>
    if negb (t =? tag) then None else
    match der_read_len bs with
    | Some (len, bs) => if zlen bs <? len then None else Some (ztake len bs, zdrop len bs)
    | None => None
    end
  | [] => None
  end.

(** The integers up to the end, in their shortest form. *)
Definition shortest (content : list Z) : bool :=
  match content with
  | [] => false
  | [b] => b <? 128
  | b :: b' :: _ => (b <? 128) && (negb (b =? 0) || (128 <=? b'))
  end.

Fixpoint der_read_integers (n : nat) (bs : list Z) : option (list Z) :=
  match n with
  | O => match bs with [] => Some [] | _ => None end
  | S n =>
    match der_read_tlv 2 bs with
    | Some (content, bs) =>
      if negb (shortest content) then None else
      match der_read_integers n bs with Some vs => Some (be_value content :: vs) | None => None end
    | None => None
    end
  end.

(** [RSAPrivateKey] of RFC 8017: the version and eight integers. *)
Definition der_read_key (bs : list Z) : option (list Z) :=
  match der_read_tlv 48 bs with
  | Some (content, []) => der_read_integers 9 content
  | _ => None
  end.

(** ** Lengths *)
Lemma count_bytes_spec fuel len :
  0 < len < 256 ^ Z.of_nat fuel ->
  1 <= count_bytes fuel len <= Z.of_nat fuel /\ 256 ^ (count_bytes fuel len - 1) <= len < 256 ^ count_bytes fuel len.
Proof.
  revert len. induction fuel as [|fuel IH]; intros len Hl; [change (256 ^ Z.of_nat 0) with 1 in Hl; lia|].
  cbn [count_bytes]. replace (len =? 0) with false by lia. rewrite Z.shiftr_div_pow2 by lia. change (2 ^ 8) with 256.
  rewrite Nat2Z.inj_succ, Z.pow_succ_r in Hl by lia. destruct (Z_lt_le_dec len 256) as [Hs|Hs].
  - rewrite Z.div_small by lia. assert (count_bytes fuel 0 = 0) as -> by (by destruct fuel). change (256 ^ (1 + 0)) with 256.
    change (256 ^ (1 + 0 - 1)) with 1. lia.
  - destruct (IH (len / 256)) as [H1 H2]; [split; [apply Z.div_str_pos; lia|apply Z.div_lt_upper_bound; lia]|].
    set (k := count_bytes fuel (len / 256)) in *. split; [lia|].
    replace (1 + k - 1) with (Z.succ (k - 1)) by lia. replace (1 + k) with (Z.succ k) by lia. rewrite !Z.pow_succ_r by lia.
    pose proof (Z.div_mod len 256 ltac:(lia)). pose proof (Z.mod_pos_bound len 256 ltac:(lia)). nia.
Qed.

(** What is known of a length that is stored in a [size_t]. *)
Lemma der_len_long len :
  128 <= len < 2 ^ 64 ->
  let n := count_bytes 8 len in 1 <= n <= 8 /\ 256 ^ (n - 1) <= len < 256 ^ n.
Proof. intros Hl. apply (count_bytes_spec 8). change (256 ^ Z.of_nat 8) with (2 ^ 64). lia. Qed.

Lemma zlen_der_len len : 0 <= len < 2 ^ 64 -> zlen (der_len len) = der_length_size len.
Proof.
  intros Hl. unfold der_len, der_length_size. destruct (len <? 128) eqn:E; [done|].
  destruct (der_len_long len ltac:(lia)) as [Hn _]. rewrite zlen_cons, zlen_be_bytes. lia.
Qed.

Lemma der_len_size_bound len : 0 <= len < 2 ^ 64 -> 1 <= der_length_size len <= 9.
Proof.
  intros Hl. unfold der_length_size. destruct (len <? 128) eqn:E; [lia|]. destruct (der_len_long len ltac:(lia)). lia.
Qed.

Lemma be_bytes_hd n v : v < 256 ^ Z.of_nat (S n) -> 256 ^ Z.of_nat n <= v -> hd 0 (be_bytes (S n) v) <> 0.
Proof.
  intros Hv Hn. cbn [be_bytes hd]. intros H. rewrite Z.mod_small in H.
  - assert (1 <= v / 256 ^ Z.of_nat n); [|lia]. apply Z.div_le_lower_bound; [apply Z.pow_pos_nonneg; lia|lia].
  - rewrite Nat2Z.inj_succ, Z.pow_succ_r in Hv by lia. assert (0 < 256 ^ Z.of_nat n) by (apply Z.pow_pos_nonneg; lia).
    split; [apply Z.div_pos; lia|]. apply Z.div_lt_upper_bound; lia.
Qed.

Lemma der_read_len_correct len rest : 0 <= len < 2 ^ 64 -> der_read_len (der_len len ++ rest) = Some (len, rest).
Proof.
  intros Hl. unfold der_len. destruct (len <? 128) eqn:E; [cbn; by rewrite E|].
  destruct (der_len_long len ltac:(lia)) as [Hn Hp]. set (n := count_bytes 8 len) in *. cbn [app der_read_len].
  replace (128 + n <? 128) with false by lia. replace (128 + n - 128) with n by lia.
  assert (zlen (be_bytes (Z.to_nat n) len) = n) as Hz by (rewrite zlen_be_bytes; lia).
  pose proof (ztake_app (be_bytes (Z.to_nat n) len) rest) as Ht. pose proof (zdrop_app (be_bytes (Z.to_nat n) len) rest) as Hr.
  rewrite Hz in Ht, Hr. rewrite Ht, Hr, be_value_bytes by (rewrite Z2Nat.id; lia).
  replace (_ <? n) with false by (rewrite zlen_app; pose proof (zlen_nonneg rest); lia).
  replace (len <? 128) with false by lia. replace (hd 0 _ =? 0) with false; [done|].
  destruct (Z.to_nat n) as [|k] eqn:Ek; [lia|]. pose proof (be_bytes_hd k len) as H. cbn [be_bytes hd app] in *.
  symmetry. apply Z.eqb_neq, H; [replace (Z.of_nat (S k)) with n by lia; lia|replace (Z.of_nat k) with (n - 1) by lia; lia].
Qed.

Lemma der_read_tlv_correct tag content rest :
  zlen content < 2 ^ 64 -> der_read_tlv tag (der_tlv tag content ++ rest) = Some (content, rest).
Proof.
  intros Hl. unfold der_tlv. cbn [app der_read_tlv]. rewrite Z.eqb_refl, <- app_assoc. cbn [negb].
  rewrite der_read_len_correct by (split; [apply zlen_nonneg|done]). rewrite ztake_app, zdrop_app.
  replace (_ <? _) with false; [done|]. rewrite zlen_app. pose proof (zlen_nonneg rest). lia.
Qed.

Lemma zlen_der_tlv tag content :
  zlen content < 2 ^ 64 -> zlen (der_tlv tag content) = 1 + der_length_size (zlen content) + zlen content.
Proof. intros Hl. unfold der_tlv. rewrite zlen_cons, zlen_app, zlen_der_len by (split; [apply zlen_nonneg|done]). lia. Qed.

(** ** The integers of a key *)
Definition int_ok (l : list Z) : Prop := Forall is_byte l /\ zlen l <= UINT32_MAX /\ be_value l <> 0.

(** A number that is not zero has a first byte. *)
Lemma strip_zeros_value l :
  Forall is_byte l -> if be_value l =? 0 then strip_zeros l = [] else exists b m, strip_zeros l = b :: m /\ is_byte b.
Proof.
  intros Hb. rewrite <- be_value_strip. pose proof (strip_zeros_byte l Hb) as Hs. pose proof (strip_zeros_hd l) as Hhd.
  destruct (strip_zeros l) as [|b m]; [done|]. apply Forall_cons_1 in Hs as [H1 Hm]. specialize (Hhd b m eq_refl).
  rewrite be_value_cons. pose proof (be_value_bound m Hm). unfold is_byte in H1. replace (_ =? 0) with false by (symmetry; apply Z.eqb_neq; nia).
  by exists b, m.
Qed.

Lemma int_ok_strip l : int_ok l -> exists b m, strip_zeros l = b :: m /\ is_byte b.
Proof. intros (Hb & _ & Hv). pose proof (strip_zeros_value l Hb) as H. by rewrite (proj2 (Z.eqb_neq _ _) Hv) in H. Qed.

Lemma zlen_mpint l : zlen (mpint_bytes l) <= 1 + zlen l.
Proof.
  pose proof (zlen_strip l) as Hs. pose proof (count_leading_zeros_bound l). unfold mpint_bytes.
  destruct (strip_zeros l) as [|b m]; [rewrite zlen_nil; lia|]. rewrite zlen_cons in Hs.
  case_bool; rewrite !zlen_cons; lia.
Qed.

Lemma shortest_mpint l : int_ok l -> shortest (mpint_bytes l) = true.
Proof.
  intros Hl. destruct (int_ok_strip l Hl) as (b & m & E & Hb). pose proof (strip_zeros_hd _ _ _ E). unfold is_byte in Hb.
  unfold mpint_bytes. rewrite E. destruct (b <? 128) eqn:E1; [|cbn; bool_lia]. destruct m; cbn; bool_lia.
Qed.

Lemma mpint_small l : int_ok l -> zlen (mpint_bytes l) < 2 ^ 64.
Proof. intros (_ & Hl & _). pose proof (zlen_mpint l). unfold UINT32_MAX in Hl. lia. Qed.

Lemma der_read_integers_correct ls :
  Forall int_ok ls -> der_read_integers (length ls) (concat (map der_integer ls)) = Some (map be_value ls).
Proof.
  induction 1 as [|l ls Hl Hls IH]; [done|]. cbn [length map concat der_read_integers]. unfold der_integer at 1.
  rewrite der_read_tlv_correct by by apply mpint_small. by rewrite shortest_mpint, IH, mpint_bytes_value by done.
Qed.

Lemma zlen_der_integer l :
  int_ok l -> zlen (der_integer l) = 1 + der_length_size (zlen (mpint_bytes l)) + zlen (mpint_bytes l) /\ 0 <= zlen (der_integer l) <= UINT32_MAX + 11.
Proof.
  intros Hl. pose proof (mpint_small l Hl). unfold der_integer. rewrite zlen_der_tlv by done. split; [done|].
  pose proof (zlen_mpint l). pose proof (zlen_nonneg (mpint_bytes l)). destruct Hl as (_ & Hl & _).
  pose proof (der_len_size_bound (zlen (mpint_bytes l)) ltac:(lia)). lia.
Qed.

Lemma zlen_der_integers ls : Forall int_ok ls -> 0 <= zlen (concat (map der_integer ls)) <= zlen ls * (UINT32_MAX + 11).
Proof.
  induction 1 as [|l ls Hl Hls IH]; [done|]. cbn [map concat]. rewrite zlen_app, zlen_cons.
  destruct (zlen_der_integer l Hl). lia.
Qed.

Definition pkcs1_content (ls : list (list Z)) : list Z := der_version ++ concat (map der_integer ls).

Lemma zlen_pkcs1_content ls : Forall int_ok ls -> length ls = 8%nat -> zlen (pkcs1_content ls) < 2 ^ 36.
Proof.
  intros Hls Hn. pose proof (zlen_der_integers ls Hls) as H. unfold pkcs1_content. rewrite zlen_app.
  unfold zlen at 3 in H. rewrite Hn in H. change (zlen der_version) with 3. unfold UINT32_MAX in H. lia.
Qed.

Lemma der_read_key_correct ls :
  Forall int_ok ls -> length ls = 8%nat -> der_read_key (pkcs1_der ls) = Some (0 :: map be_value ls).
Proof.
  intros Hls Hn. pose proof (zlen_pkcs1_content ls Hls Hn). unfold der_read_key, pkcs1_der. fold (pkcs1_content ls).
  rewrite <- (app_nil_r (der_tlv 48 _)), der_read_tlv_correct by lia. unfold pkcs1_content.
  change der_version with (der_tlv 2 [0]). cbn [der_read_integers]. rewrite der_read_tlv_correct by done. cbn [shortest negb].
  pose proof (der_read_integers_correct ls Hls) as H1. rewrite Hn in H1. cbn [der_read_integers] in H1. by rewrite H1.
Qed.

(** ** Writing it *)

(** A check for all that follows, which then is written without one. *)
Lemma appends_writes {A} cap off (c : bool) (k : OutM A) bs r :
  (c = true <-> cap < off + zlen bs) -> writes k off bs r ->
  appends cap (reject c SSH_ERR_BUFFER_TOO_SMALL;; k) off bs r.
Proof.
  intros Hc Hk w f Hw Ho Hf. destruct c.
  - rewrite (proj2 (Z.leb_gt _ _)) by by apply Hc. by exists f.
  - assert (off + zlen bs <= cap) as Hle by (destruct (Z_le_gt_dec (off + zlen bs) cap) as [H|H]; [done|assert (cap < off + zlen bs) as Hlt by lia; by apply Hc in Hlt]).
    rewrite (proj2 (Z.leb_le _ _) Hle). rewrite (bind_ret _ _ _ tt (Some (w ++ f))) by done. apply Hk; [done|lia].
Qed.

(** The test for a null pointer. *)
Lemma appends_live {A} cap off (k : OutM A) e bs r :
  appends cap k off bs r -> appends cap (out ← get_state; reject (is_null out) e;; k) off bs r.
Proof. intros Hk w f Hw Ho Hf. exact (Hk w f Hw Ho Hf). Qed.

Lemma put_length_bytes_writes i off len :
  0 <= len -> writes (put_length_bytes i off len) off (be_bytes i len) (off + Z.of_nat i).
Proof.
  intros Hl. revert off. induction i as [|i IH]; intros off; cbn [put_length_bytes be_bytes].
  - rewrite Z.add_0_r. apply writes_ret.
  - rewrite Z.shiftr_div_pow2 by lia. rewrite Z.mul_comm, Z.pow_mul_r by lia. unfold u8. change (2 ^ 8) with 256.
    change (?b :: be_bytes i len) with ([b] ++ be_bytes i len). eapply writes_then; [done|].
    replace (off + Z.of_nat (S i)) with (off + 1 + Z.of_nat i) by lia. apply IH.
Qed.

Lemma lor_128 n : 0 <= n < 128 -> Z.lor 128 n = 128 + n.
Proof. intros Hn. change 128 with (Z.shiftl 1 7) at 1. by rewrite lor_shiftl_add by (change (2 ^ 7) with 128; lia). Qed.

Lemma der_put_length_appends cap off len :
  0 <= len < 2 ^ 64 -> appends cap (der_put_length cap off len) off (der_len len) (off + zlen (der_len len)).
Proof.
  intros Hl. unfold der_put_length. apply appends_live. pose proof (der_len_size_bound len Hl). pose proof (zlen_der_len len Hl) as Hz.
  apply appends_writes; [rewrite Hz; bool_lia|]. revert Hz. unfold der_len, der_length_size in *.
  destruct (len <? 128) eqn:E; intros Hz.
  - unfold u8. rewrite Z.mod_small by lia. apply (writes_then _ off (off + 1) [_] []); [done|]. apply writes_ret.
  - destruct (der_len_long len ltac:(lia)) as [Hn _]. set (n := count_bytes 8 len) in *.
    replace (1 + n - 1) with n by lia. rewrite lor_128 by lia. unfold u8. rewrite Z.mod_small by lia.
    change (?b :: be_bytes _ len) with ([b] ++ be_bytes (Z.to_nat n) len). eapply writes_then; [done|].
    rewrite zlen_app. change (zlen [128 + n]) with 1. rewrite zlen_be_bytes, Z.add_assoc. apply put_length_bytes_writes. lia.
Qed.

(** The first byte that is not zero, and whether it has the highest bit set. *)
Lemma mpint_payload_value l :
  Forall is_byte l ->
  mpint_payload (view_of l) =
    if be_value l =? 0 then Err SSH_ERR_MALFORMED_PACKET
    else Ret (count_leading_zeros l, zlen (strip_zeros l), negb (hd 0 (strip_zeros l) <? 128)).
Proof.
  intros Hb. unfold mpint_payload. rewrite view_bytes_of. cbn [view_of view_data view_len]. rewrite zlen_strip.
  pose proof (strip_zeros_value l Hb) as Hs. pose proof (zlen_strip l) as Hz. pose proof (count_leading_zeros_bound l) as Hc.
  fold (strip_zeros l). destruct (be_value l =? 0).
  - rewrite Hs, zlen_nil in Hz. by replace (_ =? _) with true by lia.
  - destruct Hs as (b & m & E & Hby). rewrite E, zlen_cons in Hz. pose proof (zlen_nonneg m).
    replace (_ =? _) with false by lia. rewrite E. cbn [hd]. by rewrite land_128.
Qed.

(** The content of an integer: the byte zero that may be needed, and the rest. *)
Lemma mpint_bytes_parts l :
  int_ok l -> mpint_bytes l = (if negb (hd 0 (strip_zeros l) <? 128) then [0] else []) ++ strip_zeros l.
Proof.
  intros Hl. destruct (int_ok_strip l Hl) as (b & m & E & _). unfold mpint_bytes. rewrite E. cbn [hd]. by destruct (b <? 128).
Qed.

Lemma der_put_integer_appends cap off l :
  int_ok l -> appends cap (der_put_integer cap off (view_of l)) off (der_integer l) (off + zlen (der_integer l)).
Proof.
  intros Hl. unfold der_put_integer. apply appends_live. pose proof (mpint_small l Hl) as Hsmall.
  rewrite mpint_payload_value by apply Hl. rewrite (proj2 (Z.eqb_neq _ _)) by apply Hl. unfold der_integer, der_tlv.
  pose proof (mpint_bytes_parts l Hl) as Hp. set (zero := negb _) in *. set (m := mpint_bytes l) in *.
  assert (zlen (strip_zeros l) + int_of_bool zero = zlen m) as -> by (rewrite Hp, zlen_app; destruct zero; cbn [int_of_bool]; zlen_lia).
  change (2 :: der_len (zlen m) ++ m) with ([2] ++ der_len (zlen m) ++ m).
  apply (appends_checked cap off [2]); [change (zlen [2]) with 1; bool_lia|]. rewrite zlen_app.
  replace (off + (zlen [2] + zlen (der_len (zlen m) ++ m))) with (off + zlen [2] + zlen (der_len (zlen m)) + zlen m) by (rewrite zlen_app; lia).
  change (off + 1) with (off + zlen [2]). eapply appends_bind; [apply der_put_length_appends; split; [apply zlen_nonneg|done]|].
  set (off1 := off + zlen [2] + zlen (der_len (zlen m))). rewrite Hp, zlen_app, Z.add_assoc.
  eapply appends_bind.
  - instantiate (1 := off1 + zlen (if zero then [0] else [])). destruct zero.
    + apply (appends_checked cap off1 [0] (off1 >=? cap) (mret (off1 + 1)) []); [change (zlen [0]) with 1; bool_lia|]. apply appends_ret.
    + change (zlen []) with 0. rewrite Z.add_0_r. apply appends_ret.
  - set (off2 := off1 + _). pose proof (zlen_nonneg (strip_zeros l)).
    apply appends_writes; [bool_lia|]. rewrite view_bytes_of.
    assert (mem_read l (count_leading_zeros l) (zlen (strip_zeros l)) = Some (strip_zeros l)) as ->.
    { pose proof (count_leading_zeros_bound l) as Hc. destruct (zsplit l (count_leading_zeros l) Hc) as (z & s & E & Hz).
      assert (strip_zeros l = s) as -> by (unfold strip_zeros; rewrite E at 2; rewrite <- Hz; apply zdrop_app).
      rewrite E at 1. rewrite <- Hz. pose proof (mem_read_app z s []) as H1. by rewrite app_nil_r in H1. }
    rewrite <- (app_nil_r (strip_zeros l)) at 2. eapply writes_then; [done|]. apply writes_ret.
Qed.

Lemma put_integers_appends cap off ls :
  Forall int_ok ls ->
  appends cap (put_integers cap off (map view_of ls)) off (concat (map der_integer ls)) (off + zlen (concat (map der_integer ls))).
Proof.
  intros Hls. revert off. induction Hls as [|l ls Hl Hls IH]; intros off; cbn [map concat put_integers].
  - rewrite zlen_nil, Z.add_0_r. apply appends_ret.
  - rewrite zlen_app, Z.add_assoc. eapply appends_bind; [by apply der_put_integer_appends|]. apply IH.
Qed.

(** The length that is computed first is that of what is written. *)
Lemma der_integer_total_len_value l :
  Forall is_byte l -> zlen l <= UINT32_MAX ->
  der_integer_total_len (view_of l) = if be_value l =? 0 then Err SSH_ERR_MALFORMED_PACKET else Ret (zlen (der_integer l)).
Proof.
  intros Hb Hl. unfold der_integer_total_len. rewrite mpint_payload_value by done. destruct (be_value l =? 0) eqn:E; [done|].
  assert (int_ok l) as Hok by (split_and!; [done|done|lia]). cbn [mbind outcome_bind]. f_equal.
  rewrite (proj1 (zlen_der_integer l Hok)). rewrite (mpint_bytes_parts l Hok). rewrite zlen_app.
  destruct (negb _); cbn [int_of_bool]; [change (zlen [0]) with 1|change (zlen []) with 0]; rewrite ?(Z.add_comm _ (zlen (strip_zeros l))); lia.
Qed.

(** ** The whole encoding *)

(** The fields of a key: views of bytes. *)
Definition field_ok (l : list Z) : Prop := Forall is_byte l /\ zlen l <= UINT32_MAX.
Definition nonzero (l : list Z) : bool := negb (be_value l =? 0).

Lemma fields_int_ok ls : Forall field_ok ls -> forallb nonzero ls = true -> Forall int_ok ls.
Proof.
  induction 1 as [|l ls [Hb Hl] Hls IH]; cbn [forallb]; [by constructor|]. intros [H1 H2]%andb_true_iff.
  unfold nonzero in H1. constructor; [split_and!; [done|done|lia]|by apply IH].
Qed.

Lemma sum_lengths_value ls s :
  Forall field_ok ls -> 0 <= s -> s + zlen ls * (UINT32_MAX + 11) <= UINT64_MAX ->
  sum_lengths (map view_of ls) s =
    if forallb nonzero ls then Ret (s + zlen (concat (map der_integer ls))) else Err SSH_ERR_MALFORMED_PACKET.
Proof.
  intros Hls. revert s. induction Hls as [|l ls [Hb Hl] Hls IH]; intros s Hs Hmax; cbn [map sum_lengths forallb concat].
  - by rewrite zlen_nil, Z.add_0_r.
  - rewrite der_integer_total_len_value by done. unfold nonzero at 1. destruct (be_value l =? 0) eqn:E; [done|]. cbn [mbind outcome_bind negb andb].
    destruct (zlen_der_integer l ltac:(split_and!; [done|done|lia])) as [_ Hd]. rewrite zlen_cons in Hmax. pose proof (zlen_nonneg ls).
    unfold UINT32_MAX, UINT64_MAX in *. replace (s >? _) with false by lia. rewrite IH by lia. by rewrite zlen_app, Z.add_assoc.
Qed.

Lemma appends_ext {A} cap (p q : OutM A) off bs r : (forall s, q s = p s) -> appends cap p off bs r -> appends cap q off bs r.
Proof. intros E Hp w f Hw Ho Hf. rewrite E. by apply Hp. Qed.

(** Three bytes behind one check, and the rest. *)
Lemma appends_checked_three {A} cap off a b c (k : OutM A) bs r :
  appends cap k (off + 3) bs r ->
  appends cap (reject (off + 3 >? cap) SSH_ERR_BUFFER_TOO_SMALL;;
               out_write off [a];; out_write (off + 1) [b];; out_write (off + 2) [c];; k) off ([a; b; c] ++ bs) r.
Proof.
  intros Hk. apply (appends_ext _ (_ ← (reject (off + 3 >? cap) SSH_ERR_BUFFER_TOO_SMALL;;
    (out_write off [a];; out_write (off + 1) [b];; out_write (off + 2) [c])); k)).
  { intros s. rewrite bind_assoc. unfold mbind, prog_bind. destruct (reject _ _ s) as [[[]|e|] s1]; [|done|done].
    destruct (out_write off _ _) as [[[]|e|] s2]; [|done|done]. by destruct (out_write (off + 1) _ _) as [[[]|e|] s3]. }
  eapply (appends_bind _ _ _ _ _ _ tt); [|change (zlen [a; b; c]) with 3; exact Hk]. apply appends_writes; [change (zlen [a; b; c]) with 3; bool_lia|].
  apply (writes_then _ off (off + 1) [a] [b; c]); [done|]. apply (writes_then _ (off + 1) (off + 2) [b] [c]); [zlen_lia|]. apply writes_bytes.
Qed.

Definition pkcs1_views (ls : list (list Z)) (cap : Z) : OutM Z :=
  match map view_of ls with
  | [n; e; d; p; q; dmp1; dmq1; iqmp] => pkcs1_private_der_encode n e d p q dmp1 dmq1 iqmp cap
  | _ => fault
  end.

(** The possible results for the integers [ls] and an array of [cap] bytes. *)
Definition pkcs1_result (ls : list (list Z)) (cap : Z) (mem : list Z) (r : outcome Z * option (list Z)) : Prop :=
  if forallb nonzero ls then
    let der := pkcs1_der ls in
    if zlen der <=? cap then r = (Ret (zlen der), Some (der ++ zdrop (zlen der) mem))
    else exists mem', zlen mem' = zlen mem /\ r = (Err SSH_ERR_BUFFER_TOO_SMALL, Some mem')
  else r = (Err SSH_ERR_MALFORMED_PACKET, Some mem).

Lemma pkcs1_encode_spec ls cap mem :
  Forall field_ok ls -> length ls = 8%nat -> 0 <= cap <= zlen mem -> pkcs1_result ls cap mem (pkcs1_views ls cap (Some mem)).
Proof.
  intros Hls Hn Hc. pose proof (sum_lengths_value ls 3 Hls ltac:(lia)) as Hsum. unfold zlen at 1 in Hsum. rewrite Hn in Hsum.
  specialize (Hsum ltac:(unfold UINT32_MAX, UINT64_MAX; lia)). unfold pkcs1_result.
  assert (pkcs1_views ls cap (Some mem) = match sum_lengths (map view_of ls) 3 with
    | Err e => (Err e, Some mem) | Fault => (Fault, Some mem)
    | Ret len => (reject (cap <? 1) SSH_ERR_BUFFER_TOO_SMALL;; out_write 0 [48];; offset ← der_put_length cap 1 len;
        reject (offset + 3 >? cap) SSH_ERR_BUFFER_TOO_SMALL;;
        out_write offset [2];; out_write (offset + 1) [1];; out_write (offset + 2) [0];;
        put_integers cap (offset + 3) (map view_of ls)) (Some mem)
    end) as ->.
  { do 8 (destruct ls as [|? ls]; [done|]). destruct ls; [|done]. unfold pkcs1_views, pkcs1_private_der_encode. cbn [map].
    rewrite (bind_ret _ _ _ (Some mem) (Some mem)) by done. cbn [is_null]. rewrite (bind_ret _ _ _ tt (Some mem)) by done. by destruct (sum_lengths _ 3). }
  rewrite Hsum. destruct (forallb nonzero ls) eqn:Hz; [|done]. pose proof (fields_int_ok ls Hls Hz) as Hi.
  pose proof (zlen_pkcs1_content ls Hi Hn) as Hlen. unfold pkcs1_der. fold (pkcs1_content ls).
  assert (3 + zlen (concat (map der_integer ls)) = zlen (pkcs1_content ls)) as -> by (unfold pkcs1_content; by rewrite zlen_app).
  set (p := (reject _ _;; _)). assert (appends cap p 0 (der_tlv 48 (pkcs1_content ls)) (zlen (der_tlv 48 (pkcs1_content ls)))) as H.
  { unfold p, der_tlv. change (48 :: ?t) with ([48] ++ t). apply (appends_checked cap 0 [48]); [change (zlen [48]) with 1; bool_lia|].
    change (0 + zlen [48]) with 1. eapply appends_bind; [apply der_put_length_appends; split; [apply zlen_nonneg|lia]|].
    set (off := 1 + zlen (der_len (zlen (pkcs1_content ls)))). unfold pkcs1_content at 1. apply appends_checked_three.
    replace (zlen ([48] ++ _)) with (off + 3 + zlen (concat (map der_integer ls))); [by apply put_integers_appends|].
    unfold off, pkcs1_content. rewrite !zlen_app. change (zlen [48]) with 1. change (zlen der_version) with 3. lia. }
  specialize (H [] mem eq_refl ltac:(lia) ltac:(rewrite zlen_nil; lia)). cbn [app] in H. by rewrite Z.add_0_l in H.
Qed.

(** The encoder of a private key writes exactly its PKCS#1 encoding: a strict reader of
    DER gets the version and the eight integers back from the bytes that are written; an
    integer without a byte other than zero is refused, before anything is written, and an
    array that is too small is reported; nothing behind the encoding is changed. *)
Theorem pkcs1_encode_exact n e d p q dmp1 dmq1 iqmp cap mem :
  let ls := [n; e; d; p; q; dmp1; dmq1; iqmp] in
  Forall field_ok ls -> 0 <= cap <= zlen mem ->
  pkcs1_result ls cap mem
    (pkcs1_private_der_encode (view_of n) (view_of e) (view_of d) (view_of p) (view_of q) (view_of dmp1) (view_of dmq1)
       (view_of iqmp) cap (Some mem)) /\
  (forallb nonzero ls = true -> der_read_key (pkcs1_der ls) = Some (0 :: map be_value ls)).
Proof.
  intros ls Hls Hc. split; [by apply (pkcs1_encode_spec ls)|]. intros Hz. apply der_read_key_correct; [by apply fields_int_ok|done].
Qed.

Lemma pkcs1_encode_exact_witness :
  let ls := [[0; 200]; [1; 0; 1]; [77]; [13]; [17]; [5]; [13]; [4]] in
  let der := [48; 30; 2; 1; 0; 2; 2; 0; 200; 2; 3; 1; 0; 1; 2; 1; 77; 2; 1; 13; 2; 1; 17; 2; 1; 5; 2; 1; 13; 2; 1; 4] in
  pkcs1_der ls = der /\ der_read_key der = Some [0; 200; 65537; 77; 13; 17; 5; 13; 4] /\
  pkcs1_views ls 40 (Some (replicate 40 0)) = (Ret 32, Some (der ++ replicate 8 0)).
Proof.
  intros ls der. destruct (pkcs1_encode_exact [0; 200] [1; 0; 1] [77] [13] [17] [5] [13] [4] 40 (replicate 40 0)) as [H1 H2].
  - apply (bool_decide_unpack _). vm_compute. exact I.
  - by vm_compute.
  - split; [reflexivity|]. split; [exact (H2 eq_refl)|exact H1].
Defined.
