(* ===== verification/OpensshRead.v ===== *)
(** * Private keys: the format of OpenSSH

    The images of unencrypted RSA keys, as [openssh_image] writes them, are what
    [openssh_parse] accepts, and it returns the numbers they hold. *)

From S2P Require Import Prelude Buffer Packet Codec OpensshKey OpensshText OpensshDer.

(** ** The image of a key *)

(** The fields of a key as byte strings. *)
Record key_fields : Type := mk_fields {
  kf_n : list Z;
  kf_e : list Z;
  kf_d : list Z;
  kf_iqmp : list Z;
  kf_p : list Z;
  kf_q : list Z
}.

Definition key_list (k : key_fields) : list (list Z) := [kf_n k; kf_e k; kf_d k; kf_iqmp k; kf_p k; kf_q k].

Definition key_views (k : key_fields) : openssh_rsa :=
  mk_rsa (view_of (kf_n k)) (view_of (kf_e k)) (view_of (kf_d k)) (view_of (kf_iqmp k)) (view_of (kf_p k)) (view_of (kf_q k)).

(** One, two, three and so on; one again behind 255. *)
Fixpoint padding_bytes (k : nat) (expected : Z) : list Z :=
  match k with
  | O => []
  | S k => expected :: padding_bytes k (if expected =? 255 then 1 else expected + 1)
  end.

Definition public_bytes (k : key_fields) : list Z := string_bytes SSH_RSA ++ string_bytes (kf_e k) ++ string_bytes (kf_n k).

Definition private_bytes (alg : list Z) (k : key_fields) (check : Z) (comment : list Z) (padding : nat) : list Z :=
  be_bytes 4 check ++ be_bytes 4 check ++ string_bytes alg ++ string_bytes (kf_n k) ++ string_bytes (kf_e k) ++
  string_bytes (kf_d k) ++ string_bytes (kf_iqmp k) ++ string_bytes (kf_p k) ++ string_bytes (kf_q k) ++
  string_bytes comment ++ padding_bytes padding 1.

Definition outer_bytes (o : openssh_outer) : list Z :=
  string_bytes (view_bytes (ok_ciphername o)) ++ string_bytes (view_bytes (ok_kdfname o)) ++ string_bytes (view_bytes (ok_kdfoptions o)) ++
  be_bytes 4 1 ++ string_bytes (view_bytes (ok_public_blob o)) ++ string_bytes (view_bytes (ok_private_blob o)).

Definition NONE : list Z := cstr "none".

Definition openssh_outer_of (public private : list Z) : openssh_outer :=
  mk_outer (view_of NONE) (view_of NONE) (view_of []) (view_of public) (view_of private).

Definition openssh_image (k : key_fields) (check : Z) (comment : list Z) (padding : nat) : list Z :=
  k_magic ++ outer_bytes (openssh_outer_of (public_bytes k) (private_bytes SSH_RSA k check comment padding)).

(** Everything has a length that can be written. *)
Definition image_ok (k : key_fields) (check : Z) (comment : list Z) (padding : nat) : Prop :=
  Forall field_ok (key_list k) /\ is_u32 check /\ field_ok comment /\
  zlen (public_bytes k) <= UINT32_MAX /\ zlen (private_bytes SSH_RSA k check comment padding) <= UINT32_MAX.

(** ** Readers *)
Lemma parses_of l rest : field_ok l -> parses ssh_buffer_get_string_view (string_bytes l) rest (view_of l).
Proof. intros [Hb Hl]. by apply parses_string. Qed.

Lemma parses_skip_string l rest : field_ok l -> parses openssh_skip_string (string_bytes l) rest tt.
Proof.
  intros Hl. rewrite <- (app_nil_r (string_bytes l)). unfold openssh_skip_string. eapply parses_bind; [by apply parses_of|]. apply parses_ret.
Qed.

Lemma decodes_skip_string : decodes openssh_skip_string (fun _ u1 _ => exists l, field_ok l /\ u1 = string_bytes l).
Proof.
  unfold openssh_skip_string. eapply decodes_bind; [apply decodes_view|]. intros v _ _ _. apply decodes_ret.
  intros rest u1 _ [Hv ->]. rewrite app_nil_r. exists (view_bytes v). split; [|done].
  split; [by apply view_ok_byte|by apply (view_ok_len v Hv)].
Qed.

Lemma remaining_read_run w u f cap : remaining_read (Some (Bf w u f cap)) = (Ret (zlen u), Some (Bf w u f cap)).
Proof. unfold remaining_read. by rewrite remaining_read_Bf. Qed.

(** The loop accepts the padding and nothing else. *)
Lemma padding_loop_run fuel expected w u f cap :
  Forall is_byte u -> 1 <= expected <= 255 -> (length u <= fuel)%nat ->
  exists o u1 u2, u = u1 ++ u2 /\ padding_loop fuel expected (Some (Bf w u f cap)) = (o, Some (Bf (w ++ u1) u2 f cap)) /\
    o <> Fault /\ (o = Ret tt <-> u = padding_bytes (length u) expected) /\ (o = Ret tt -> u2 = []).
Proof.
  revert fuel expected w. induction u as [|b u IH]; intros fuel expected w Hu He Hf.
  - exists (Ret tt), [], []. rewrite app_nil_r. refine (conj eq_refl (conj _ (conj _ (conj _ _)))); [|done|done|done].
    destruct fuel; cbn [padding_loop]; rewrite (bind_ret _ _ _ _ _ (remaining_read_run w [] f cap)). 
    all: by rewrite app_nil_r.
  - destruct fuel as [|fuel]; [cbn [length] in Hf; lia|]. apply Forall_cons_1 in Hu as [Hb Hu]. cbn [padding_loop].
    rewrite (bind_ret _ _ _ _ _ (remaining_read_run w (b :: u) f cap)).
    rewrite zlen_cons. pose proof (zlen_nonneg u). replace (_ =? 0) with false by lia.
    pose proof (parses_u8_byte b u w f cap) as Hg. cbn [app] in Hg. rewrite (bind_ret _ _ _ _ _ Hg).
    destruct (Z.eqb_spec b expected) as [->|Hne]; cbn [negb].
    + rewrite (bind_ret _ _ _ tt (Some (Bf (w ++ [expected]) u f cap))) by done.
      assert ((if expected =? 255 then 1 else u8 (expected + 1)) = if expected =? 255 then 1 else expected + 1) as ->
        by (unfold u8; destruct (Z.eqb_spec expected 255); [done|rewrite Z.mod_small by lia; done]).
      destruct (IH fuel (if expected =? 255 then 1 else expected + 1) (w ++ [expected]) Hu ltac:(case_bool; lia) ltac:(cbn [length] in Hf; lia))
        as (o & u1 & u2 & E & Er & Ho & Hiff & Hend).
      exists o, (expected :: u1), u2. refine (conj _ (conj _ (conj Ho (conj _ Hend)))); [by rewrite E| |].
      * rewrite Er. by rewrite <- app_assoc.
      * rewrite Hiff. cbn [length padding_bytes]. split; [intros H1; by rewrite <- H1|by intros [=]].
    + exists (Err SSH_ERR_MALFORMED_PACKET), [b], u. refine (conj eq_refl (conj eq_refl (conj _ (conj _ _)))); [done| |done].
      split; [done|]. cbn [length padding_bytes]. by intros [= ->].
Qed.

Lemma padding_fuel w u f cap : Z.to_nat (ssh_buffer_remaining_read (Some (Bf w u f cap))) = length u.
Proof. rewrite remaining_read_Bf. unfold zlen. lia. Qed.

Lemma padding_bytes_byte k expected : 1 <= expected <= 255 -> Forall is_byte (padding_bytes k expected) /\ length (padding_bytes k expected) = k.
Proof.
  revert expected. induction k as [|k IH]; intros expected He; [done|]. cbn [padding_bytes length].
  destruct (IH (if expected =? 255 then 1 else expected + 1)) as [H1 H2]; [case_bool; lia|].
  split; [constructor; [unfold is_byte; lia|done]|by rewrite H2].
Qed.

Lemma parses_padding k : parses openssh_check_private_padding (padding_bytes k 1) [] tt.
Proof.
  intros w f cap. rewrite app_nil_r. unfold openssh_check_private_padding. rewrite padding_fuel.
  destruct (padding_bytes_byte k 1 ltac:(lia)) as [Hb Hk].
  destruct (padding_loop_run (length (padding_bytes k 1)) 1 w (padding_bytes k 1) f cap Hb ltac:(lia) ltac:(lia)) as (o & u1 & u2 & E & Er & _ & Hiff & Hend).
  rewrite Hk in Hiff. assert (o = Ret tt) as -> by by apply Hiff. rewrite (Hend eq_refl), app_nil_r in E. by rewrite Er, (Hend eq_refl), E.
Qed.

Lemma decodes_padding : decodes openssh_check_private_padding (fun _ u1 u2 => u2 = [] /\ exists k, u1 = padding_bytes k 1).
Proof.
  intros w u f cap Hu. unfold openssh_check_private_padding. rewrite padding_fuel.
  destruct (padding_loop_run (length u) 1 w u f cap Hu ltac:(lia) ltac:(lia)) as (o & u1 & u2 & E & Er & Ho & Hiff & Hend).
  exists o, u1, u2. split_and!; [done|done|]. destruct o as [[]|e|]; [|done|done]. split; [by apply Hend|]. exists (length u).
  rewrite (Hend eq_refl), app_nil_r in E. rewrite <- E. by apply Hiff.
Qed.

(** ** The two parts of an image *)
Ltac key_field :=
  first [apply parses_u32; assumption | apply parses_of; assumption | apply parses_skip_string; assumption | apply parses_padding].

Ltac parse_key :=
  cbv zeta;
  lazymatch goal with
  | |- parses (mbind (fun _ => _) (reject _ _)) _ _ _ => apply parses_reject; [|]
  | |- parses (mbind _ remaining_read) _ _ _ => apply parses_remaining
  | |- parses (mbind _ _) (_ ++ _) _ _ => eapply parses_bind; [key_field|]
  | |- parses (mret _) [] _ _ => apply parses_ret
  end.

Lemma parses_private k check comment padding :
  Forall field_ok (key_list k) -> is_u32 check -> field_ok comment ->
  parses read_private (private_bytes SSH_RSA k check comment padding) [] (key_views k).
Proof.
  unfold key_list. intros Hk Hc Hm. repeat (apply Forall_cons_1 in Hk as [? Hk]). unfold private_bytes, read_private.
  assert (field_ok SSH_RSA) by (split; [apply (bool_decide_unpack _); vm_compute; exact I|by vm_compute]).
  rewrite <- (app_nil_r (padding_bytes padding 1)). repeat parse_key.
  - by rewrite Z.eqb_refl.
  - by rewrite view_eq_same.
Qed.

Lemma view_field v : view_ok v -> field_ok (view_bytes v).
Proof. intros Hv. split; [by apply view_ok_byte|by apply view_ok_len]. Qed.

Lemma decodes_private :
  decodes read_private (fun key u1 u2 => u2 = [] /\ exists k check comment padding, key = key_views k /\
    Forall field_ok (key_list k) /\ is_u32 check /\ field_ok comment /\ u1 = private_bytes SSH_RSA k check comment padding).
Proof.
  unfold read_private.
  repeat first [decode_step | eapply decodes_bind; [apply decodes_skip_string|intros ? ? ? _] | eapply decodes_bind; [apply decodes_padding|intros ? ? ? _]].
  guards.
  repeat match goal with H : exists _, _ |- _ => destruct H end. guards. split; [done|].
  eexists (mk_fields (view_bytes _) (view_bytes _) (view_bytes _) (view_bytes _) (view_bytes _) (view_bytes _)), _, _, _.
  split; [unfold key_views; cbn [kf_n kf_e kf_d kf_iqmp kf_p kf_q]; f_equal; by apply view_ok_eta|].
  split; [repeat constructor; by apply view_field|]. split; [eassumption|]. split; [eassumption|].
  unfold private_bytes. cbn [kf_n kf_e kf_d kf_iqmp kf_p kf_q]. repeat f_equal.
  match goal with H : view_eq _ (Some SSH_RSA) = true |- _ => by apply view_ok_eq in H end.
Qed.

(** The fields around the keys. *)
Definition outer_ok (o : openssh_outer) : Prop :=
  view_ok (ok_ciphername o) /\ view_ok (ok_kdfname o) /\ view_ok (ok_kdfoptions o) /\ view_ok (ok_public_blob o) /\
  view_ok (ok_private_blob o).

#[export] Instance outer_message : Message read_outer outer_ok outer_bytes.
Proof.
  split.
  - intros [v1 v2 v3 v4 v5] (H1 & H2 & H3 & H4 & H5). unfold outer_bytes, read_outer.
    cbn [ok_ciphername ok_kdfname ok_kdfoptions ok_public_blob ok_private_blob] in *. parse_message.
  - unfold read_outer. decode_message. unfold outer_ok, outer_bytes. by cbn [ok_ciphername ok_kdfname ok_kdfoptions ok_public_blob ok_private_blob].
Qed.

(** ** The public key inside the image *)
Definition read_public : BufM (ssh_string_view * ssh_string_view * ssh_string_view) :=
  alg ← ssh_buffer_get_string_view;
  pub_e ← ssh_buffer_get_string_view;
  pub_n ← ssh_buffer_get_string_view;
  remaining ← remaining_read;
  reject (negb (remaining =? 0)) SSH_ERR_MALFORMED_PACKET;;
  mret (alg, pub_e, pub_n).

#[export] Instance public_message :
  Message read_public (fun '(a, e, n) => view_ok a /\ view_ok e /\ view_ok n)
    (fun '(a, e, n) => string_bytes (view_bytes a) ++ string_bytes (view_bytes e) ++ string_bytes (view_bytes n)).
Proof.
  split.
  - intros [[a e] n] (H1 & H2 & H3). unfold read_public. parse_message.
  - unfold read_public. by decode_message.
Qed.

Lemma views_equal v l : view_ok v -> (view_len v =? zlen l) && bytes_eqb (view_bytes v) l = bool_decide (view_bytes v = l).
Proof.
  intros Hv. destruct (view_ok_len v Hv) as [-> _]. unfold bytes_eqb. case_bool_decide as H; [|by rewrite andb_false_r].
  by rewrite H, Z.eqb_refl.
Qed.

(** It must be that of the private key. *)
Lemma check_public_value bs n e :
  Forall is_byte bs -> field_ok n -> field_ok e ->
  openssh_check_public_blob (view_of bs) (view_of n) (view_of e) =
    if bool_decide (bs = string_bytes SSH_RSA ++ string_bytes e ++ string_bytes n) then Ret tt else Err SSH_ERR_MALFORMED_PACKET.
Proof.
  intros Hb Hn He. unfold openssh_check_public_blob. fold read_public. cbv zeta. change (view_data (view_of bs)) with (Some bs). cbn [view_len view_of].
  set (good := (view_of SSH_RSA, view_of e, view_of n)).
  assert (decode_from read_public bs = Ret good <-> bs = string_bytes SSH_RSA ++ string_bytes e ++ string_bytes n) as Hgood.
  { rewrite (message_exact _ _ _ bs good Hb). unfold good. rewrite !view_bytes_of. split; [by intros [_ H]|]. intros H. split; [|done].
    split; [|split; by apply view_ok_of; apply He || apply Hn]. apply view_ok_of; [apply (bool_decide_unpack _)|]; by vm_compute. }
  pose proof (message_no_fault _ _ _ bs (Message0:=public_message) Hb) as Hnf.
  pose proof (fun x => proj1 (message_exact _ _ _ bs x Hb (Message0:=public_message))) as Hex. unfold decode_from in *.
  destruct (read_public _) as [[[[a e'] n']|err|] s]; cbn [fst] in *; [| |done].
  - destruct (Hex (a, e', n') eq_refl) as [(Ha & He' & Hn') Ebs].
    rewrite !view_bytes_of. rewrite <- (negb_involutive (_ || _)). rewrite !negb_orb, !negb_involutive, <- !andb_assoc.
    rewrite (andb_assoc (view_len e' =? _)), !views_equal, view_ok_eqb by done.
    destruct (decide (bs = string_bytes SSH_RSA ++ string_bytes e ++ string_bytes n)) as [H1|H1].
    + rewrite (bool_decide_true _ H1). apply Hgood in H1 as [= -> -> ->]. rewrite !view_bytes_of. by rewrite !bool_decide_true.
    + rewrite (bool_decide_false _ H1). case_bool_decide as Ea; [|done]. case_bool_decide as Ee; [|done]. case_bool_decide as En; [|done].
      destruct H1. by rewrite Ebs, Ea, Ee, En.
  - rewrite bool_decide_false; [done|]. by intros [=]%Hgood.
Qed.

(** ** The whole image *)
Lemma byte_ascii l : forallb (fun b => (0 <=? b) && (b <? 256)) l = true -> Forall is_byte l.
Proof. rewrite forallb_forall, Forall_forall. intros H x Hx. apply H in Hx. unfold is_byte. lia. Qed.

Lemma field_ascii l : forallb (fun b => (0 <=? b) && (b <? 256)) l = true -> zlen l <= UINT32_MAX -> field_ok l.
Proof. split; [by apply byte_ascii|done]. Qed.

Lemma field_view l : field_ok l -> view_ok (view_of l).
Proof. intros [Hb Hl]. by apply view_ok_of. Qed.

Lemma image_outer_ok k check comment padding :
  image_ok k check comment padding ->
  outer_ok (openssh_outer_of (public_bytes k) (private_bytes SSH_RSA k check comment padding)).
Proof.
  intros (Hk & Hc & Hm & Hpub & Hpriv). unfold key_list in Hk. repeat (apply Forall_cons_1 in Hk as [[? ?] Hk]). destruct Hm as [Hm _].
  assert (Forall is_byte SSH_RSA) by by apply byte_ascii.
  unfold outer_ok, openssh_outer_of. cbn [ok_ciphername ok_kdfname ok_kdfoptions ok_public_blob ok_private_blob].
  split_and!; apply field_view; try (by apply field_ascii); (split; [|done]).
  - unfold public_bytes. rewrite !Forall_app. split_and!; by apply string_bytes_byte.
  - unfold private_bytes. rewrite !Forall_app. split_and!; try (by apply string_bytes_byte); try apply be_bytes_byte.
    by apply padding_bytes_byte.
Qed.

Lemma private_fst bs : fst (read_private (ssh_buffer_wrap uninit_buffer (view_data (view_of bs)) (view_len (view_of bs)))) = decode_from read_private bs.
Proof. done. Qed.

Lemma openssh_parse_image k check comment padding :
  image_ok k check comment padding -> openssh_parse (openssh_image k check comment padding) = Ret (key_views k).
Proof.
  intros Hok. pose proof (image_outer_ok _ _ _ _ Hok) as Hout. unfold openssh_parse, openssh_image. rewrite ztake_app, zdrop_app, zlen_app.
  set (o := openssh_outer_of _ _) in *. pose proof (zlen_nonneg (outer_bytes o)). replace (_ <? _) with false by lia.
  unfold bytes_eqb. rewrite bool_decide_true by done. cbn [orb negb].
  rewrite (parses_decode_from _ _ _ (message_parses o Hout)). cbn [mbind outcome_bind]. unfold o, openssh_outer_of.
  cbn [ok_ciphername ok_kdfname ok_kdfoptions ok_public_blob ok_private_blob]. rewrite !view_eq_same. cbn [negb orb].
  change (view_len (view_of []) =? 0) with true. cbn [negb]. rewrite private_fst. destruct Hok as (Hk & Hc & Hm & Hpub & Hpriv).
  rewrite (parses_decode_from _ _ _ (parses_private k check comment padding Hk Hc Hm)). cbn [mbind outcome_bind key_views rsa_n rsa_e].
  unfold key_list in Hk. pose proof Hk as Hk'. repeat (apply Forall_cons_1 in Hk' as [? Hk']).
  rewrite check_public_value, bool_decide_true; [done|done| |done|done].
  unfold outer_ok in Hout. destruct Hout as (_ & _ & _ & Hout & _). cbn in Hout. by apply view_ok_byte in Hout; rewrite view_bytes_of in Hout.
Qed.

(** What is accepted is an image. *)
Lemma openssh_parse_accepts bs :
  Forall is_byte bs ->
  match openssh_parse bs with
  | Ret key => exists k check comment padding, image_ok k check comment padding /\ key = key_views k /\
                 bs = openssh_image k check comment padding
  | Err _ => True
  | Fault => False
  end.
Proof.
  intros Hb. unfold openssh_parse. destruct (_ || _) eqn:Hmagic; [done|]. apply orb_false_iff in Hmagic as [Hl Hm].
  apply negb_false_iff in Hm. unfold bytes_eqb in Hm. apply bool_decide_eq_true in Hm.
  rewrite <- (ztake_zdrop (zlen k_magic) bs), Hm in Hb. apply Forall_app in Hb as [_ Hb].
  assert (bs = k_magic ++ zdrop (zlen k_magic) bs) as Hbs by (rewrite <- (ztake_zdrop (zlen k_magic) bs) at 1; by rewrite Hm).
  set (rest := zdrop _ bs) in *. pose proof (message_no_fault _ _ _ rest (Message0:=outer_message) Hb) as Hnf.
  pose proof (fun x => proj1 (message_exact _ _ _ rest x Hb (Message0:=outer_message))) as Hex.
  destruct (decode_from read_outer rest) as [o|e|]; cbn [mbind outcome_bind]; [|done|done].
  destruct (Hex o eq_refl) as [(H1 & H2 & H3 & H4 & H5) Erest]. destruct (_ || _) eqn:Hnone; [done|].
  apply orb_false_iff in Hnone as [[Hc Hk]%orb_false_iff Hopt]. apply negb_false_iff in Hc, Hk, Hopt.
  apply view_ok_eq in Hc, Hk; [|done|done]. apply Z.eqb_eq in Hopt. rewrite (proj1 (view_ok_len _ H3)) in Hopt. apply zlen_zero_inv in Hopt.
  rewrite (view_ok_eta _ H5), private_fst.
  pose proof (decodes_no_fault _ _ _ decodes_private (view_ok_byte _ H5)) as Hnf2.
  destruct (decode_from read_private _) as [key|e|] eqn:Epriv; cbn [mbind outcome_bind]; [|done|done].
  destruct (decodes_decode_from _ _ _ _ decodes_private (view_ok_byte _ H5) Epriv) as (u1 & u2 & Eu & -> & k & check & comment & padding & -> & Hkf & Hck & Hcm & ->).
  rewrite app_nil_r in Eu. cbn [key_views rsa_n rsa_e]. rewrite (view_ok_eta _ H4).
  pose proof Hkf as Hkf'. unfold key_list in Hkf'. apply Forall_cons_1 in Hkf' as [Hn [He _]%Forall_cons_1].
  rewrite check_public_value by (try done; by apply view_ok_byte). case_bool_decide as Hpub; [|done].
  exists k, check, comment, padding. fold (public_bytes k) in Hpub. split; [|split; [done|]].
  - unfold image_ok. rewrite <- Hpub, <- Eu. split_and!; try done; by apply view_ok_len.
  - rewrite Hbs. unfold openssh_image. f_equal. rewrite Erest. unfold outer_bytes, openssh_outer_of.
    cbn [ok_ciphername ok_kdfname ok_kdfoptions ok_public_blob ok_private_blob]. rewrite !view_bytes_of. by rewrite Hc, Hk, Hopt, Hpub, Eu.
Qed.

(** An image is accepted exactly when it is that of an unencrypted RSA key: the two check
    numbers agree, the public key repeats the modulus and the exponent, the padding counts
    from one, there is one key, no cipher, and nothing is left over; the views that are
    returned are the numbers of the image; nothing outside of it is read. *)
Theorem openssh_parse_exact bs :
  Forall is_byte bs ->
  openssh_parse bs <> Fault /\
  forall key, openssh_parse bs = Ret key <->
    exists k check comment padding, image_ok k check comment padding /\ key = key_views k /\ bs = openssh_image k check comment padding.
Proof.
  intros Hb. pose proof (openssh_parse_accepts bs Hb) as H. split; [by destruct (openssh_parse bs)|]. intros key. split.
  - intros E. by rewrite E in H.
  - intros (k & check & comment & padding & Hok & -> & ->). by apply openssh_parse_image.
Qed.

Definition key_example : key_fields := mk_fields [0; 187] [7] [23] [14] [17] [11].

Lemma openssh_parse_exact_witness :
  openssh_parse (openssh_image key_example 77 (cstr "me") 3) = Ret (key_views key_example) /\
  openssh_parse (openssh_image key_example 77 (cstr "me") 3 ++ [4]) = Err SSH_ERR_MALFORMED_PACKET.
Proof.
  split; [|reflexivity]. apply (openssh_parse_exact (openssh_image key_example 77 (cstr "me") 3)).
  - apply byte_ascii. reflexivity.
  - exists key_example, 77, (cstr "me"), 3%nat. split; [|done]. unfold image_ok.
    split; [repeat (apply Forall_cons_2; [apply field_ascii; by vm_compute|]); by apply Forall_nil|]. split; [by vm_compute|].
    split; [apply field_ascii; by vm_compute|]. by vm_compute.
Defined.
