(* ===== verification/OpensshConvert.v ===== *)
(** * Private keys: the conversion as a whole

    What mbedTLS promises of its large integers, and what follows for the conversion of a
    key in the format of OpenSSH to PKCS#1: whatever the text, nothing is read or written
    outside of an array, and the encoding that is returned holds the numbers of the key
    and the two exponents of the Chinese remainder theorem. *)

From S2P Require Import Prelude Buffer Packet Codec OpensshKey OpensshText OpensshPem OpensshDer OpensshRead.

(** ** Large integers

    The documented results of the functions of mbedtls/bignum.h that are used; each of
    them may report an error, for a lack of memory for instance. *)
Class MpiLaws (api : mpi_api) : Type := {
  mpi_value : mbedtls_mpi api -> Z;
  mpi_read_value bs m : Forall is_byte bs -> mbedtls_mpi_read_binary api bs = Some m -> mpi_value m = be_value bs;
  mpi_sub_value a n m : mbedtls_mpi_sub_int api a n = Some m -> mpi_value m = mpi_value a - n;
  mpi_mod_value a b m : mbedtls_mpi_mod_mpi api a b = Some m -> 0 < mpi_value b /\ mpi_value m = mpi_value a mod mpi_value b;
  mpi_size_bound m : 0 <= mpi_value m ->
    0 <= mbedtls_mpi_size api m /\ (mbedtls_mpi_size api m <> 0 -> 256 ^ (mbedtls_mpi_size api m - 1) <= mpi_value m);
  mpi_write_value m len bs : 0 <= mpi_value m -> mbedtls_mpi_write_binary api m len = Some bs ->
    Forall is_byte bs /\ zlen bs = len /\ be_value bs = mpi_value m
}.

Section laws.
Context (api : mpi_api) `{!MpiLaws api}.

(** An exponent of the Chinese remainder theorem. *)
Lemma crt_value d prime cap v :
  field_ok d -> field_ok prime -> cap <= UINT32_MAX ->
  compute_rsa_crt_exponent api (view_of d) (view_of prime) cap = Ret v ->
  exists l, v = view_of l /\ field_ok l /\ nonzero l = true /\ be_value l = be_value d mod (be_value prime - 1).
Proof.
  intros [Hd _] [Hp _] Hcap. unfold compute_rsa_crt_exponent. cbn [view_of view_data is_null orb]. fold (view_of d) (view_of prime).
  rewrite !view_bytes_of. destruct (mbedtls_mpi_read_binary api d) as [md|] eqn:E1; [|done]. cbn [mbind option_bind].
  destruct (mbedtls_mpi_read_binary api prime) as [mp|] eqn:E2; [|done]. cbn [mbind option_bind].
  destruct (mbedtls_mpi_sub_int api mp 1) as [phi|] eqn:E3; [|done]. cbn [mbind option_bind].
  destruct (mbedtls_mpi_mod_mpi api md phi) as [m|] eqn:E4; [|done]. apply mpi_read_value in E1, E2; [|done..].
  apply mpi_sub_value in E3. apply mpi_mod_value in E4 as [Hpos Hm]. rewrite E1, E3, E2 in *.
  assert (0 <= mpi_value m) as Hm0 by (rewrite Hm; apply Z.mod_pos_bound; lia).
  unfold mpi_to_der_integer_view. destruct (mpi_size_bound m Hm0) as [Hs0 Hs]. set (len := mbedtls_mpi_size api m) in *.
  destruct ((len =? 0) || (len >? cap)) eqn:Hlen; [done|]. apply orb_false_iff in Hlen as [Hl0 Hl].
  destruct (mbedtls_mpi_write_binary api m len) as [bs|] eqn:E5; [|done]. intros [= <-].
  destruct (mpi_write_value m len bs Hm0 E5) as (Hb & Hz & Hv). exists bs. split; [unfold view_of; by rewrite Hz|].
  split; [split; [done|lia]|]. split; [|by rewrite Hv, Hm]. unfold nonzero. rewrite Hv.
  assert (0 < 256 ^ (len - 1)) by (apply Z.pow_pos_nonneg; lia). specialize (Hs ltac:(lia)). apply negb_true_iff. lia.
Qed.

Lemma crt_no_fault d prime cap : compute_rsa_crt_exponent api d prime cap <> Fault.
Proof.
  unfold compute_rsa_crt_exponent, mpi_to_der_integer_view. destruct (_ || _); [done|]. destruct (_ ≫= _); [|done].
  destruct (_ || _); [done|]. by destruct (mbedtls_mpi_write_binary api _ _).
Qed.

(** ** Any text *)

(** The markers found are inside the text. *)
Lemma find_marker_inside marker data before from : find_marker marker data = Some (before, from) -> data = before ++ from.
Proof.
  revert before from. induction data as [|c data IH]; intros before from; cbn [find_marker].
  - destruct (_ >? _); [done|]. destruct (bytes_eqb _ _); [by intros [= <- <-]|done].
  - destruct (_ >? _); [done|]. destruct (bytes_eqb _ _); [by intros [= <- <-]|].
    destruct (find_marker marker data) as [[b f]|]; [|done]. intros [= <- <-]. cbn [app]. f_equal. by apply IH.
Qed.

(** What a block holds that is accepted: the bytes of the base64 text between two markers. *)
Definition block_of (bm em data bytes : list Z) : Prop :=
  exists pre start block post,
    find_marker bm data = Some (pre, start) /\
    find_marker em (tail (snd (scan_until (fun c => c =? NEWLINE) (zdrop (zlen bm) start)))) = Some (block, post) /\
    base64_bytes block = Some bytes.

Lemma decode_pem_block_any data bm em cap mem :
  0 <= cap <= zlen mem ->
  match emssh_mbedtls_decode_pem_block (Some data) (zlen data) (Some bm) (Some em) cap (Some mem) with
  | (Ret len, Some mem') => exists bytes, block_of bm em data bytes /\ zlen bytes = len /\ len <= cap /\ mem' = bytes ++ zdrop len mem
  | (Err _, Some mem') => zlen mem' = zlen mem
  | _ => False
  end.
Proof.
  intros Hc. unfold emssh_mbedtls_decode_pem_block. rewrite (bind_ret _ _ _ (Some mem) (Some mem)) by done.
  cbn [is_null]. rewrite (bind_ret _ _ _ tt (Some mem)) by done. rewrite mem_read_all. unfold block_of.
  destruct (find_marker bm data) as [[pre start]|]; [|done].
  set (body := tail _). destruct (find_marker em body) as [[block post]|] eqn:E; [|done]. destruct block as [|b block]; [done|].
  set (bl := b :: block) in *. rewrite (find_marker_inside _ _ _ _ E), decode_base64_prefix.
  pose proof (decode_base64_spec bl cap mem Hc) as H. unfold base64_result in H.
  destruct (base64_bytes bl) as [bytes|] eqn:Eb.
  - destruct (zlen bytes <=? cap) eqn:Ef; [|by destruct H as (mem' & Hm & ->)]. rewrite H.
    exists bytes. split; [by exists pre, start, bl, post|]. split; [done|]. split; [lia|done].
  - by destruct H as (e & mem' & He & Hm & ->).
Qed.

Lemma base64_bytes_byte text bytes : base64_bytes text = Some bytes -> Forall is_byte bytes.
Proof.
  unfold base64_bytes. destruct (sextets false text); [|done]. destruct (_ && _); [|done]. intros [= <-]. apply be_bytes_byte.
Qed.

(** A local array has the room it is declared with. *)
Lemma array_room size (x : Z) : 0 <= size -> 0 <= size <= zlen (replicate (Z.to_nat size) x).
Proof. intros Hs. unfold zlen. rewrite length_replicate. lia. Qed.

Lemma blob_room : 0 <= OPENSSH_BLOB_SIZE <= zlen (replicate (Z.to_nat OPENSSH_BLOB_SIZE) 0).
Proof. by apply array_room. Qed.

Lemma der_room : 0 <= DER_SIZE <= zlen (replicate (Z.to_nat DER_SIZE) 0).
Proof. by apply array_room. Qed.

(** The block in the local array. *)
Lemma local_block data bm em :
  match local_array OPENSSH_BLOB_SIZE (emssh_mbedtls_decode_pem_block (Some data) (zlen data) (Some bm) (Some em) OPENSSH_BLOB_SIZE) with
  | Ret bytes => block_of bm em data bytes
  | Err _ => True
  | Fault => False
  end.
Proof.
  unfold local_array. pose proof (decode_pem_block_any data bm em OPENSSH_BLOB_SIZE _ blob_room) as H.
  set (mem := replicate (Z.to_nat OPENSSH_BLOB_SIZE) 0) in *. clearbody mem.
  destruct (emssh_mbedtls_decode_pem_block _ _ _ _ _ _) as [[len|e|] [mem'|]]; try done.
  destruct H as (bytes & Hb & <- & _ & ->). by rewrite ztake_app.
Qed.

(** ** The conversion to DER *)

(** The numbers of [RSAPrivateKey] for a key. *)
Definition key_numbers (k : key_fields) : list Z :=
  let n := be_value (kf_n k) in let e := be_value (kf_e k) in let d := be_value (kf_d k) in
  let p := be_value (kf_p k) in let q := be_value (kf_q k) in
  [0; n; e; d; p; q; d mod (p - 1); d mod (q - 1); be_value (kf_iqmp k)].

(** The fields of the encoding, with the bytes of the two exponents. *)
Definition der_fields (k : key_fields) (dmp1 dmq1 : list Z) : list (list Z) :=
  [kf_n k; kf_e k; kf_d k; kf_p k; kf_q k; dmp1; dmq1; kf_iqmp k].

Definition crt (k : key_fields) (prime : list Z) : outcome ssh_string_view :=
  compute_rsa_crt_exponent api (view_of (kf_d k)) (view_of prime) CRT_STORAGE_SIZE.

(** The result for a key that was read. *)
Definition key_result (k : key_fields) (cap : Z) (mem : list Z) (r : outcome Z * option (list Z)) : Prop :=
  match crt k (kf_p k), crt k (kf_q k) with
  | Ret v1, Ret v2 => pkcs1_result (der_fields k (view_bytes v1) (view_bytes v2)) cap mem r
  | _, _ => exists e, r = (Err e, Some mem)
  end.

Lemma der_fields_ok k v1 v2 :
  Forall field_ok (key_list k) -> crt k (kf_p k) = Ret v1 -> crt k (kf_q k) = Ret v2 ->
  let ls := der_fields k (view_bytes v1) (view_bytes v2) in
  Forall field_ok ls /\ v1 = view_of (view_bytes v1) /\ v2 = view_of (view_bytes v2) /\ 0 :: map be_value ls = key_numbers k /\
  (forallb nonzero ls = true <-> forallb nonzero (key_list k) = true).
Proof.
  unfold key_list. intros Hk E1 E2. do 6 (apply Forall_cons_1 in Hk as [? Hk]).
  destruct (crt_value (kf_d k) (kf_p k) CRT_STORAGE_SIZE v1 ltac:(eassumption) ltac:(eassumption) ltac:(done) E1) as (l1 & -> & Hf1 & Hn1 & Hv1).
  destruct (crt_value (kf_d k) (kf_q k) CRT_STORAGE_SIZE v2 ltac:(eassumption) ltac:(eassumption) ltac:(done) E2) as (l2 & -> & Hf2 & Hn2 & Hv2).
  rewrite !view_bytes_of. unfold der_fields, key_numbers. cbn [map forallb]. rewrite Hv1, Hv2, Hn1, Hn2. split; [by repeat apply Forall_cons_2|].
  split_and!; try done; rewrite !andb_true_iff; tauto.
Qed.

(** What follows the block. *)
Definition convert_blob (blob : outcome (list Z)) (cap : Z) : OutM Z :=
  match (openssh_blob ← blob;
         key ← openssh_parse openssh_blob;
         dmp1 ← compute_rsa_crt_exponent api (rsa_d key) (rsa_p key) CRT_STORAGE_SIZE;
         dmq1 ← compute_rsa_crt_exponent api (rsa_d key) (rsa_q key) CRT_STORAGE_SIZE;
         Ret (key, dmp1, dmq1)) with
  | Err e => fail e
  | Fault => fault
  | Ret (key, dmp1, dmq1) =>
    pkcs1_private_der_encode (rsa_n key) (rsa_e key) (rsa_d key) (rsa_p key) (rsa_q key) dmp1 dmq1 (rsa_iqmp key) cap
  end.

Lemma to_der_run data cap mem :
  data <> [] ->
  emssh_mbedtls_openssh_rsa_private_to_pkcs1_der api (Some data) (zlen data) cap (Some mem) =
    convert_blob (local_array OPENSSH_BLOB_SIZE (emssh_mbedtls_decode_pem_block (Some data) (zlen data) (Some k_begin_openssh)
      (Some k_end_openssh) OPENSSH_BLOB_SIZE)) cap (Some mem).
Proof.
  intros Hne. unfold emssh_mbedtls_openssh_rsa_private_to_pkcs1_der, convert_blob.
  rewrite (bind_ret _ _ _ (Some mem) (Some mem)) by done. cbn [is_null orb].
  replace (zlen data =? 0) with false by (destruct data; [done|]; rewrite zlen_cons; pose proof (zlen_nonneg data); lia).
  by rewrite (bind_ret _ _ _ tt (Some mem)) by done.
Qed.

Lemma convert_image k check comment padding cap mem :
  image_ok k check comment padding -> 0 <= cap <= zlen mem ->
  key_result k cap mem (convert_blob (Ret (openssh_image k check comment padding)) cap (Some mem)).
Proof.
  intros Hok Hc. unfold convert_blob. cbn [mbind outcome_bind]. rewrite openssh_parse_image by done. cbn [mbind outcome_bind].
  pose proof (proj1 Hok) as Hk. unfold key_result, crt. cbn [key_views rsa_d rsa_p rsa_q rsa_n rsa_e rsa_iqmp].
  destruct (compute_rsa_crt_exponent api _ (view_of (kf_p k)) _) as [v1|e|] eqn:E1; cbn [mbind outcome_bind]; [|by eexists|by apply crt_no_fault in E1].
  destruct (compute_rsa_crt_exponent api _ (view_of (kf_q k)) _) as [v2|e|] eqn:E2; cbn [mbind outcome_bind]; [|by eexists|by apply crt_no_fault in E2].
  destruct (der_fields_ok k v1 v2 Hk E1 E2) as (Hls & H1 & H2 & _).
  pose proof (pkcs1_encode_spec (der_fields k (view_bytes v1) (view_bytes v2)) cap mem Hls eq_refl Hc) as Hspec.
  unfold pkcs1_views in Hspec. unfold der_fields at 2 in Hspec. cbn [map] in Hspec. by rewrite <- H1, <- H2 in Hspec.
Qed.

(** Whatever the text, it is refused or holds a key. *)
Lemma to_der_any data cap mem :
  0 <= cap <= zlen mem ->
  let r := emssh_mbedtls_openssh_rsa_private_to_pkcs1_der api (Some data) (zlen data) cap (Some mem) in
  (exists e, r = (Err e, Some mem)) \/
  exists k check comment padding, image_ok k check comment padding /\
    block_of k_begin_openssh k_end_openssh data (openssh_image k check comment padding) /\ key_result k cap mem r.
Proof.
  intros Hc. destruct (decide (data = [])) as [->|Hne]; [by left; eexists|]. rewrite to_der_run by done.
  pose proof (local_block data k_begin_openssh k_end_openssh) as Hblock.
  destruct (local_array OPENSSH_BLOB_SIZE _) as [bytes|e|]; [|by left; eexists|done].
  assert (Forall is_byte bytes) as Hb by (destruct Hblock as (? & ? & ? & ? & _ & _ & H); by apply base64_bytes_byte in H).
  pose proof (openssh_parse_accepts bytes Hb) as Hparse. destruct (openssh_parse bytes) as [key|e|] eqn:Ep; [| |done].
  - destruct Hparse as (k & check & comment & padding & Hok & -> & ->). right. exists k, check, comment, padding.
    split; [done|]. split; [done|]. by apply convert_image.
  - left. exists e. unfold convert_blob. cbn [mbind outcome_bind]. by rewrite Ep.
Qed.

(** The encoding of a key: its fields and the two exponents, none of which is zero. *)
Definition key_encoding (k : key_fields) (der : list Z) : Prop :=
  exists v1 v2, crt k (kf_p k) = Ret v1 /\ crt k (kf_q k) = Ret v2 /\ forallb nonzero (key_list k) = true /\
    der = pkcs1_der (der_fields k (view_bytes v1) (view_bytes v2)).

Lemma der_tlv_byte tag content :
  is_byte tag -> Forall is_byte content -> zlen content < 2 ^ 64 -> Forall is_byte (der_tlv tag content).
Proof.
  intros Ht Hc Hl. unfold der_tlv. apply Forall_cons_2; [done|]. apply Forall_app. split; [|done]. pose proof (zlen_nonneg content).
  unfold der_len. destruct (zlen content <? 128) eqn:E; [apply Forall_cons_2; [unfold is_byte; lia|by apply Forall_nil]|].
  destruct (der_len_long (zlen content) ltac:(lia)) as [Hn _]. apply Forall_cons_2; [unfold is_byte; lia|]. apply be_bytes_byte.
Qed.

Lemma der_integer_byte l : int_ok l -> Forall is_byte (der_integer l).
Proof.
  intros Hl. apply der_tlv_byte; [by vm_compute| |by apply mpint_small]. rewrite (mpint_bytes_parts l Hl). apply Forall_app. split.
  - destruct (negb _); [apply Forall_cons_2; [by vm_compute|]|]; by apply Forall_nil.
  - apply strip_zeros_byte, Hl.
Qed.

(** It is read back as the numbers of the key. *)
Lemma key_encoding_read k der :
  Forall field_ok (key_list k) -> key_encoding k der ->
  der_read_key der = Some (key_numbers k) /\ Forall is_byte der /\ der <> [].
Proof.
  intros Hk (v1 & v2 & E1 & E2 & Hnz & ->). destruct (der_fields_ok k v1 v2 Hk E1 E2) as (Hls & _ & _ & Hnum & Hiff).
  set (ls := der_fields _ _ _) in *. pose proof (fields_int_ok ls Hls (proj2 Hiff Hnz)) as Hi. split; [by rewrite der_read_key_correct, Hnum|].
  split; [|by unfold pkcs1_der, der_tlv]. pose proof (zlen_pkcs1_content ls Hi eq_refl). unfold pkcs1_der. fold (pkcs1_content ls).
  apply der_tlv_byte; [by vm_compute| |lia]. unfold pkcs1_content. apply Forall_app. split; [by apply byte_ascii|].
  apply Forall_concat, Forall_map. eapply Forall_impl; [exact der_integer_byte|exact Hi].
Qed.

Lemma key_result_cases k cap mem r :
  Forall field_ok (key_list k) -> key_result k cap mem r ->
  (exists e mem', r = (Err e, Some mem') /\ zlen mem' = zlen mem) \/
  (exists der, key_encoding k der /\ zlen der <= cap /\ r = (Ret (zlen der), Some (der ++ zdrop (zlen der) mem))).
Proof.
  intros Hk. unfold key_result. destruct (crt k (kf_p k)) as [v1|e|] eqn:E1; try by (intros [e' ->]; left; exists e', mem).
  destruct (crt k (kf_q k)) as [v2|e|] eqn:E2; try by (intros [e' ->]; left; exists e', mem).
  destruct (der_fields_ok k v1 v2 Hk E1 E2) as (_ & _ & _ & _ & Hiff). unfold pkcs1_result. cbv zeta.
  destruct (forallb nonzero (der_fields _ _ _)) eqn:Hz; [|intros ->; by left; eexists _, _]. destruct (_ <=? cap) eqn:Hc.
  - intros ->. right. eexists. split; [exists v1, v2; split_and!; try done; by apply Hiff|]. split; [lia|done].
  - intros (mem' & Hm & ->). left. by eexists _, _.
Qed.

(** What was converted: the numbers of the key in the text. *)
Definition converted (data der : list Z) : Prop :=
  exists k check comment padding, image_ok k check comment padding /\
    block_of k_begin_openssh k_end_openssh data (openssh_image k check comment padding) /\
    key_encoding k der /\ der_read_key der = Some (key_numbers k).

Lemma to_der_sound data cap mem :
  0 <= cap <= zlen mem ->
  match emssh_mbedtls_openssh_rsa_private_to_pkcs1_der api (Some data) (zlen data) cap (Some mem) with
  | (Ret len, Some mem') => exists der, converted data der /\ zlen der = len /\ len <= cap /\ Forall is_byte der /\ der <> [] /\
                              mem' = der ++ zdrop len mem
  | (Err _, Some mem') => zlen mem' = zlen mem
  | _ => False
  end.
Proof.
  intros Hc. destruct (to_der_any data cap mem Hc) as [(e & ->)|(k & check & comment & padding & Hok & Hb & Hr)]; [done|].
  destruct (key_result_cases k cap mem _ (proj1 Hok) Hr) as [(e & mem' & -> & Hm)|(der & Hd & Hl & ->)]; [done|].
  destruct (key_encoding_read k der (proj1 Hok) Hd) as (Hread & Hby & Hne). exists der. split_and!; try done. by exists k, check, comment, padding.
Qed.

(** C30: whatever the text is, the conversion of a key touches no memory outside of its
    arrays, and it reports success only for an unencrypted RSA key between the markers:
    then the bytes that it returns are the PKCS#1 encoding from which a strict reader
    gets the version, the modulus, the exponents and the primes of that key, the private
    exponent modulo each of the primes minus one, and the coefficient; nothing behind
    them is changed. *)
Theorem openssh_to_der_sound data cap mem :
  0 <= cap <= zlen mem ->
  match emssh_mbedtls_openssh_rsa_private_to_pkcs1_der api (Some data) (zlen data) cap (Some mem) with
  | (Ret len, Some mem') => exists der, converted data der /\ zlen der = len /\ len <= cap /\ Forall is_byte der /\ der <> [] /\
                              mem' = der ++ zdrop len mem
  | (Err _, Some mem') => zlen mem' = zlen mem
  | _ => False
  end.
Proof. apply to_der_sound. Qed.

(** The DER in the local array of the conversion to text. *)
Lemma local_der data :
  match local_array DER_SIZE (emssh_mbedtls_openssh_rsa_private_to_pkcs1_der api (Some data) (zlen data) DER_SIZE) with
  | Ret der => converted data der /\ Forall is_byte der /\ der <> []
  | Err _ => True
  | Fault => False
  end.
Proof.
  unfold local_array. pose proof (to_der_sound data DER_SIZE _ der_room) as H.
  destruct (emssh_mbedtls_openssh_rsa_private_to_pkcs1_der _ _ _ _ _) as [[len|e|] [mem'|]]; try done.
  destruct H as (der & Hd & <- & _ & Hb & Hne & ->). by rewrite ztake_app.
Qed.

(** C32: the text of a converted key is read back: whatever the text of the key is, the
    conversion to a PEM file touches no memory outside of its array, and when it reports
    success the text it returns, terminated and with nothing changed behind it, is one
    from which the reader of PEM blocks gets the PKCS#1 encoding of that key. *)
Theorem openssh_pem_roundtrip data cap mem :
  0 <= cap <= zlen mem ->
  match emssh_mbedtls_openssh_rsa_private_to_pkcs1_pem api (Some data) (zlen data) cap (Some mem) with
  | (Ret len, Some mem') =>
    exists der text, converted data der /\ zlen text = len /\ len + 1 <= cap /\ mem' = text ++ [0] ++ zdrop (len + 1) mem /\
      forall cap2 mem2, zlen der <= cap2 <= zlen mem2 ->
        emssh_mbedtls_decode_pem_block (Some text) len (Some rsa_begin_marker) (Some rsa_end_marker) cap2 (Some mem2) =
          (Ret (zlen der), Some (der ++ zdrop (zlen der) mem2))
  | (Err _, Some mem') => zlen mem' = zlen mem
  | _ => False
  end.
Proof.
  intros Hc. pose proof (local_der data) as Hd.
  destruct (local_array DER_SIZE (emssh_mbedtls_openssh_rsa_private_to_pkcs1_der api (Some data) (zlen data) DER_SIZE)) as [der|e|] eqn:E; [| |done].
  - destruct Hd as (Hconv & Hb & Hne). destruct (openssh_to_pem_spec api _ _ der cap mem E Hb Hc) as [[Hl ->]|(_ & mem' & Hm & ->)]; [|done].
    exists der, (pem_of der). split_and!; try done. intros cap2 mem2 Hc2. by apply decode_pem_of.
  - unfold emssh_mbedtls_openssh_rsa_private_to_pkcs1_pem. rewrite (bind_ret _ _ _ (Some mem) (Some mem)) by done. cbn [is_null].
    rewrite (bind_ret _ _ _ tt (Some mem)) by done. by rewrite E.
Qed.

(** ** A key between its markers *)
Lemma local_array_ret size (p : OutM Z) len mem' :
  p (Some (replicate (Z.to_nat size) 0)) = (Ret len, Some mem') -> local_array size p = Ret (ztake len mem').
Proof. unfold local_array. by intros ->. Qed.

Lemma local_array_err size (p : OutM Z) e mem' :
  p (Some (replicate (Z.to_nat size) 0)) = (Err e, mem') -> local_array size p = Err e.
Proof. unfold local_array. by intros ->. Qed.

Lemma to_pem_refused data n cap mem e :
  local_array DER_SIZE (emssh_mbedtls_openssh_rsa_private_to_pkcs1_der api data n DER_SIZE) = Err e ->
  emssh_mbedtls_openssh_rsa_private_to_pkcs1_pem api data n cap (Some mem) = (Err e, Some mem).
Proof.
  intros E. unfold emssh_mbedtls_openssh_rsa_private_to_pkcs1_pem. rewrite (bind_ret _ _ _ (Some mem) (Some mem)) by done. cbn [is_null].
  rewrite (bind_ret _ _ _ tt (Some mem)) by done. by rewrite E.
Qed.

Lemma to_der_file k check comment padding before eol block after cap mem :
  image_ok k check comment padding -> zlen (openssh_image k check comment padding) <= OPENSSH_BLOB_SIZE ->
  base64_bytes block = Some (openssh_image k check comment padding) ->
  no_dash before -> Forall (fun c => c <> NEWLINE) eol -> 0 <= cap <= zlen mem ->
  let data := pem_file k_begin_openssh k_end_openssh before eol block after in
  key_result k cap mem (emssh_mbedtls_openssh_rsa_private_to_pkcs1_der api (Some data) (zlen data) cap (Some mem)).
Proof.
  intros Hok Hsize Hblock Hbefore Heol Hc data. rewrite to_der_run by (unfold data, pem_file; by destruct before).
  set (image := openssh_image k check comment padding) in *. pose proof blob_room as Harr.
  set (arr := replicate (Z.to_nat OPENSSH_BLOB_SIZE) 0) in *.
  assert (emssh_mbedtls_decode_pem_block (Some data) (zlen data) (Some k_begin_openssh) (Some k_end_openssh) OPENSSH_BLOB_SIZE (Some arr)
    = (Ret (zlen image), Some (image ++ zdrop (zlen image) arr))) as E.
  { unfold data. rewrite (decode_pem_block_file _ _ _ _ _ _ image); [|by eexists|by eexists|done|done|done].
    pose proof (decode_base64_spec block OPENSSH_BLOB_SIZE arr Harr) as H. rewrite Hblock in H. cbn [base64_result] in H.
    by rewrite (proj2 (Z.leb_le _ _) Hsize) in H. }
  rewrite (local_array_ret _ _ _ _ E), ztake_app. by apply convert_image.
Qed.

(** C31: unencrypted RSA keys are converted: for the text of a key whose decoded block has
    at most 8192 bytes, between its markers, in lines of any length, with text before it
    that has no dash and any text after it, and whose exponents the arithmetic computed,
    the conversion returns its PKCS#1 encoding or reports that the array is too small for
    it.  The conversion to a PEM file has a local array of 4096 bytes for the encoding:
    when the encoding fits it, the lines of the encoding are returned, or
    SSH_ERR_BUFFER_TOO_SMALL when fewer than 38 bytes are to spare; when it does not (a key
    of 8192 bits, for instance), SSH_ERR_BUFFER_TOO_SMALL is returned whatever the capacity
    of the caller is, and nothing is written. *)
Theorem openssh_key_converted k check comment padding before eol block after der cap mem :
  image_ok k check comment padding -> zlen (openssh_image k check comment padding) <= OPENSSH_BLOB_SIZE ->
  base64_bytes block = Some (openssh_image k check comment padding) ->
  no_dash before -> Forall (fun c => c <> NEWLINE) eol -> 0 <= cap <= zlen mem -> key_encoding k der ->
  let data := pem_file k_begin_openssh k_end_openssh before eol block after in
  let r := emssh_mbedtls_openssh_rsa_private_to_pkcs1_der api (Some data) (zlen data) cap (Some mem) in
  der_read_key der = Some (key_numbers k) /\
  (if zlen der <=? cap then r = (Ret (zlen der), Some (der ++ zdrop (zlen der) mem))
   else exists mem', zlen mem' = zlen mem /\ r = (Err SSH_ERR_BUFFER_TOO_SMALL, Some mem')) /\
  (let pem := emssh_mbedtls_openssh_rsa_private_to_pkcs1_pem api (Some data) (zlen data) cap (Some mem) in
   if zlen der <=? DER_SIZE then pem_result der cap mem pem else pem = (Err SSH_ERR_BUFFER_TOO_SMALL, Some mem)).
Proof.
  intros Hok Hsize Hblock Hbefore Heol Hc Hder data r. destruct (key_encoding_read k der (proj1 Hok) Hder) as (Hread & Hb & Hne).
  split; [done|]. destruct Hder as (v1 & v2 & E1 & E2 & Hnz & Eder).
  destruct (der_fields_ok k v1 v2 (proj1 Hok) E1 E2) as (_ & _ & _ & _ & Hiff).
  assert (forall cap mem, 0 <= cap <= zlen mem -> let r := emssh_mbedtls_openssh_rsa_private_to_pkcs1_der api (Some data) (zlen data) cap (Some mem) in
    if zlen der <=? cap then r = (Ret (zlen der), Some (der ++ zdrop (zlen der) mem))
    else exists mem', zlen mem' = zlen mem /\ r = (Err SSH_ERR_BUFFER_TOO_SMALL, Some mem')) as Hrun.
  { intros cap' mem' Hc'. pose proof (to_der_file k check comment padding before eol block after cap' mem' Hok Hsize Hblock Hbefore Heol Hc') as H.
    fold data in H. unfold key_result in H. rewrite E1, E2 in H. unfold pkcs1_result in H. rewrite (proj2 Hiff Hnz) in H. by rewrite Eder. }
  split; [by apply Hrun|]. pose proof (Hrun DER_SIZE _ der_room) as H. cbv zeta in H |- *. destruct (zlen der <=? DER_SIZE).
  - apply openssh_to_pem_spec; [|done|done]. by rewrite (local_array_ret _ _ _ _ H), ztake_app.
  - destruct H as (mem' & _ & H). by apply to_pem_refused, (local_array_err _ _ _ _ H).
Qed.
End laws.

(** ** The laws can hold: unbounded integers *)
Definition z_size (m : Z) : Z := if m <=? 0 then 0 else Z.log2 m / 8 + 1.

Definition z_api : mpi_api := mk_mpi_api Z
  (fun bs => Some (be_value bs))
  (fun a n => Some (a - n))
  (fun a b => if 0 <? b then Some (a mod b) else None)
  z_size
  (fun m len => if (0 <=? len) && (m <? 256 ^ len) then Some (be_bytes (Z.to_nat len) m) else None).

#[export] Instance z_laws : MpiLaws z_api.
Proof.
  refine {| mpi_value := fun m : mbedtls_mpi z_api => (m : Z) |}; cbn [z_api mbedtls_mpi mbedtls_mpi_read_binary mbedtls_mpi_sub_int
    mbedtls_mpi_mod_mpi mbedtls_mpi_size mbedtls_mpi_write_binary].
  - by intros bs m _ [= <-].
  - by intros a n m [= <-].
  - intros a b m. destruct (0 <? b) eqn:E; [|done]. intros [= <-]. lia.
  - intros m Hm. unfold z_size. destruct (m <=? 0) eqn:E; [lia|]. pose proof (Z.log2_nonneg m).
    assert (0 <= Z.log2 m / 8) by (apply Z.div_pos; lia). split; [lia|]. intros _. rewrite Z.add_simpl_r.
    change 256 with (2 ^ 8). rewrite <- Z.pow_mul_r by lia. destruct (Z.log2_spec m ltac:(lia)) as [H1 _].
    transitivity (2 ^ Z.log2 m); [|done]. apply Z.pow_le_mono_r; [lia|]. pose proof (Z.mul_div_le (Z.log2 m) 8). lia.
  - intros m len bs Hm. destruct (_ && _) eqn:E; [|done]. intros [= <-]. split; [apply be_bytes_byte|].
    rewrite zlen_be_bytes, be_value_bytes by (rewrite Z2Nat.id; lia). split; [lia|done].
Qed.

(** A small key, its text, and the encoding. *)
Definition image_example : list Z := openssh_image key_example 77 (cstr "me") 3.
Definition text_example : list Z :=
  pem_file k_begin_openssh k_end_openssh (cstr "key:") [13] (pem_body image_example) [NEWLINE].
Definition der_example : list Z :=
  [48; 28; 2; 1; 0; 2; 2; 0; 187; 2; 1; 7; 2; 1; 23; 2; 1; 17; 2; 1; 11; 2; 1; 7; 2; 1; 3; 2; 1; 14].

Lemma openssh_to_der_sound_witness :
  exists der mem', emssh_mbedtls_openssh_rsa_private_to_pkcs1_der z_api (Some text_example) (zlen text_example) 40 (Some (replicate 40 0)) =
    (Ret 30, Some mem') /\ converted z_api text_example der /\ mem' = der ++ replicate 10 0.
Proof.
  pose proof (openssh_to_der_sound z_api text_example 40 (replicate 40 0) ltac:(by vm_compute)) as H.
  assert (emssh_mbedtls_openssh_rsa_private_to_pkcs1_der z_api (Some text_example) (zlen text_example) 40 (Some (replicate 40 0)) =
    (Ret 30, Some (der_example ++ replicate 10 0))) as E by by vm_compute.
  rewrite E in H. destruct H as (der & Hd & _ & _ & _ & _ & Hm). exists der, (der_example ++ replicate 10 0). split_and!; [done|done|exact Hm].
Defined.

Lemma openssh_pem_roundtrip_witness :
  emssh_mbedtls_openssh_rsa_private_to_pkcs1_pem z_api (Some text_example) (zlen text_example) 200 (Some (replicate 200 0)) =
    (Ret 103, Some (pem_of der_example ++ replicate 97 0)) /\
  exists der, converted z_api text_example der /\
    forall cap2 mem2, zlen der <= cap2 <= zlen mem2 ->
      emssh_mbedtls_decode_pem_block (Some (pem_of der_example)) 103 (Some rsa_begin_marker) (Some rsa_end_marker) cap2 (Some mem2) =
        (Ret (zlen der), Some (der ++ zdrop (zlen der) mem2)).
Proof.
  pose proof (openssh_pem_roundtrip z_api text_example 200 (replicate 200 0) ltac:(by vm_compute)) as H.
  assert (emssh_mbedtls_openssh_rsa_private_to_pkcs1_pem z_api (Some text_example) (zlen text_example) 200 (Some (replicate 200 0)) =
    (Ret 103, Some (pem_of der_example ++ replicate 97 0))) as E by by vm_compute.
  split; [exact E|]. rewrite E in H. destruct H as (der & text & Hd & Hl & _ & Hm & Hr). exists der. split; [done|].
  assert (pem_of der_example = text) as ->; [|done]. apply (f_equal (ztake 103)) in Hm. rewrite <- Hl in Hm at 2.
  rewrite ztake_app in Hm. rewrite <- Hm. by vm_compute.
Defined.

Lemma openssh_key_converted_witness :
  der_read_key der_example = Some [0; 187; 7; 23; 17; 11; 7; 3; 14] /\
  emssh_mbedtls_openssh_rsa_private_to_pkcs1_der z_api (Some text_example) (zlen text_example) 40 (Some (replicate 40 0)) =
    (Ret 30, Some (der_example ++ replicate 10 0)).
Proof.
  destruct (openssh_key_converted z_api key_example 77 (cstr "me") 3 (cstr "key:") [13] (pem_body image_example) [NEWLINE]
    der_example 40 (replicate 40 0)) as (H1 & H2 & _).
  - unfold image_ok. split; [repeat (apply Forall_cons_2; [apply field_ascii; by vm_compute|]); by apply Forall_nil|].
    split; [by vm_compute|]. split; [apply field_ascii; by vm_compute|]. by vm_compute.
  - by vm_compute.
  - by vm_compute.
  - apply (bool_decide_unpack _). vm_compute. exact I.
  - apply (bool_decide_unpack _). vm_compute. exact I.
  - by vm_compute.
  - exists (view_of [7]), (view_of [3]). by vm_compute.
  - split; [exact H1|exact H2].
Defined.
