(* ===== verification/MbedPsa.v ===== *)
(** * The crypto backend: what is relied on of PSA

    The keys that are alive in a state of the library, and how the functions change
    them; programs that leave them as they were; and a small library that keeps these
    promises, with toy algorithms. *)

From stdpp Require Import gmap.
From S2P Require Import Prelude Buffer Platform Packet MbedCrypto.

(** ** The promises

    Of the documentation of psa/crypto.h: the identifier of a key that is made is not
    zero, fits 32 bits and was not in use, and is zero when the function fails; a key
    lives until it is destroyed.  A destruction that fails may leave the key
    ([PSA_ERROR_NOT_PERMITTED], [PSA_ERROR_COMMUNICATION_FAILURE],
    [PSA_ERROR_STORAGE_FAILURE], [PSA_ERROR_CORRUPTION_DETECTED]): the keys that live on
    after such a failure are [stuck].  What is stored are bytes, at most as many as there
    is room for; a cipher stores no more than there is room for even when it fails. *)
Definition psa_stored (capacity : Z) (bytes : list Z) : Prop := Forall is_byte bytes /\ zlen bytes <= capacity.

Section promises.
Context {api : psa_api} (live stuck : psa_state api -> gset Z).

Definition keeps_keys {A} (f : psa_state api -> A * psa_state api) : Prop := forall s,
  live (snd (f s)) = live s /\ stuck (snd (f s)) = stuck s.

Definition makes_key (f : psa_state api -> Z * Z * psa_state api) : Prop := forall s,
  let '(status, key, s') := f s in
  stuck s' = stuck s /\
  if decide (status = PSA_SUCCESS) then 0 < key < 2 ^ 32 /\ (key ∉ live s) /\ live s' = {[key]} ∪ live s
  else key = 0 /\ live s' = live s.

(** Only a failure leaves the key. *)
Definition destroys_key (key : Z) (f : psa_state api -> Z * psa_state api) : Prop := forall s,
  let '(status, s') := f s in
  (live s' = live s ∖ {[key]} /\ stuck s' = stuck s ∖ {[key]}) \/
  (status <> PSA_SUCCESS /\ (key ∈ live s) /\ live s' = live s /\ stuck s' = {[key]} ∪ stuck s).

Definition stores (capacity : Z) (f : psa_state api -> Z * list Z * psa_state api) : Prop := forall s,
  fst (fst (f s)) = PSA_SUCCESS -> psa_stored capacity (snd (fst (f s))).

Definition stores_within {O} (capacity : Z) (f : psa_state api -> Z * list Z * O * psa_state api) : Prop := forall s,
  zlen (snd (fst (fst (f s)))) <= capacity.
End promises.

Class PsaKeys (api : psa_api) : Type := {
  live : psa_state api -> gset Z;
  stuck : psa_state api -> gset Z;
  stuck_live s : stuck s ⊆ live s;
  keys_init : keeps_keys live stuck (psa_crypto_init api);
  keys_random len : keeps_keys live stuck (psa_generate_random api len);
  keys_hash alg data cap : keeps_keys live stuck (psa_hash_compute api alg data cap) /\ stores cap (psa_hash_compute api alg data cap);
  keys_generate attributes : makes_key live stuck (psa_generate_key api attributes);
  keys_import attributes data : makes_key live stuck (psa_import_key api attributes data);
  keys_export key cap : keeps_keys live stuck (psa_export_key api key cap);
  keys_export_public key cap : keeps_keys live stuck (psa_export_public_key api key cap) /\ stores cap (psa_export_public_key api key cap);
  keys_destroy key : destroys_key live stuck key (psa_destroy_key api key);
  keys_agreement alg key peer cap : keeps_keys live stuck (psa_raw_key_agreement api alg key peer cap);
  keys_sign key alg data cap : keeps_keys live stuck (psa_sign_message api key alg data cap) /\ stores cap (psa_sign_message api key alg data cap);
  keys_verify key alg data sig : keeps_keys live stuck (psa_verify_message api key alg data sig);
  keys_mac key alg data cap : keeps_keys live stuck (psa_mac_compute api key alg data cap);
  keys_cipher_setup dir key alg : keeps_keys live stuck (psa_cipher_setup api dir key alg);
  keys_cipher_set_iv op iv : keeps_keys live stuck (psa_cipher_set_iv api op iv);
  keys_cipher_update op data cap :
    keeps_keys live stuck (psa_cipher_update api op data cap) /\ (0 <= cap -> stores_within cap (psa_cipher_update api op data cap));
  keys_cipher_finish op cap :
    keeps_keys live stuck (psa_cipher_finish api op cap) /\ (0 <= cap -> stores_within cap (psa_cipher_finish api op cap));
  keys_cipher_abort op : keeps_keys live stuck (psa_cipher_abort api op)
}.

(** The keys that are alive, besides those the library failed to destroy. *)
Definition held {api : psa_api} `{!PsaKeys api} (s : psa_state api) : gset Z := live s ∖ stuck s.

(** ** Programs and the keys they leave

    [leaves L0 L p Q]: from a state with the keys [L], [p] does not fault; when it
    returns, [Q] holds of the result and the keys, and when it fails the keys are [L0]. *)
Section leaves.
Context {S : Type} (keys : S -> gset Z).

Definition leaves (L0 L : gset Z) {A} (p : Prog S A) (Q : A -> gset Z -> Prop) : Prop :=
  forall s, keys s = L ->
  match p s with (Ret a, s') => Q a (keys s') | (Err _, s') => keys s' = L0 | (Fault, _) => False end.

Lemma leaves_ret L0 L {A} (a : A) (Q : A -> gset Z -> Prop) : Q a L -> leaves L0 L (mret a) Q.
Proof. by intros HQ s <-. Qed.

Lemma leaves_bind L0 L {A B} (p : Prog S A) (k : A -> Prog S B) Q R :
  leaves L0 L p Q -> (forall a L', Q a L' -> leaves L0 L' (k a) R) -> leaves L0 L (x ← p; k x) R.
Proof.
  intros Hp Hk s Hs. specialize (Hp s Hs). unfold mbind, prog_bind. destruct (p s) as [[a|e|] s']; [|done|done].
  by apply (Hk a _ Hp).
Qed.

Lemma leaves_conseq L0 L {A} (p : Prog S A) (Q R : A -> gset Z -> Prop) :
  leaves L0 L p Q -> (forall a L', Q a L' -> R a L') -> leaves L0 L p R.
Proof. intros Hp HQ s Hs. specialize (Hp s Hs). destruct (p s) as [[a|e|] s']; auto. Qed.

Lemma leaves_fail L {A} e (Q : A -> gset Z -> Prop) : leaves L L (fail e) Q.
Proof. by intros s Hs. Qed.

Lemma leaves_reject L c e : leaves L L (reject c e) (fun _ L' => c = false /\ L' = L).
Proof. intros s Hs. by destruct c. Qed.

Lemma leaves_status L status : leaves L L (return_status status) (fun _ L' => status = SSH_OK /\ L' = L).
Proof. intros s Hs. unfold return_status. by case_decide. Qed.

Lemma leaves_result L {A} (o : outcome A) : o <> Fault -> leaves L L (of_result o) (fun a L' => o = Ret a /\ L' = L).
Proof. intros Ho s Hs. by destruct o. Qed.
End leaves.

Section psa_leaves.
Context {api : psa_api} `{!PsaKeys api}.

Lemma keeps_held {A} (f : psa_state api -> A * psa_state api) s : keeps_keys live stuck f -> held (snd (f s)) = held s.
Proof. intros Hf. destruct (Hf s) as [Hl Hs]. unfold held. by rewrite Hl, Hs. Qed.

Lemma makes_held f s : makes_key (api:=api) live stuck f ->
  let '(status, key, s') := f s in
  if decide (status = PSA_SUCCESS) then 0 < key < 2 ^ 32 /\ (key ∉ held s) /\ held s' = {[key]} ∪ held s
  else key = 0 /\ held s' = held s.
Proof.
  intros Hf. specialize (Hf s). destruct (f s) as [[status key] s']. destruct Hf as [Hs Hf]. pose proof (stuck_live s). unfold held.
  rewrite Hs. case_decide; [|by destruct Hf as [? ->]]. destruct Hf as (? & Hfresh & ->). split_and!; [lia|lia|set_solver|set_solver].
Qed.

Lemma destroy_held key s : held (snd (psa_destroy_key api key s)) = held s ∖ {[key]}.
Proof.
  pose proof (keys_destroy key s) as H. destruct (psa_destroy_key api key s) as [a s']. cbn [snd]. unfold held.
  destruct H as [[-> ->]|(_ & _ & -> & ->)]; apply set_eq; intros x; rewrite !elem_of_difference, ?elem_of_difference, ?elem_of_union, ?elem_of_singleton;
    [destruct (decide (x = key)); naive_solver|naive_solver].
Qed.

Lemma leaves_psa L0 L {A} (f : psa_state api -> A * psa_state api) :
  keeps_keys live stuck f -> leaves held L0 L (psa api f) (fun _ L' => L' = L).
Proof. intros Hf s <-. pose proof (keeps_held f s Hf) as H. unfold psa. destruct (f s) as [a s']. exact H. Qed.

Lemma leaves_stored L0 L capacity (f : psa_state api -> Z * list Z * psa_state api) :
  keeps_keys live stuck f -> stores capacity f ->
  leaves held L0 L (psa api f) (fun r L' => L' = L /\ (fst r = PSA_SUCCESS -> psa_stored capacity (snd r))).
Proof.
  intros Hf Hst s <-. pose proof (keeps_held f s Hf) as H. specialize (Hst s). unfold psa.
  destruct (f s) as [[status bytes] s']. by split.
Qed.

Lemma leaves_within L0 L {O} capacity (f : psa_state api -> Z * list Z * O * psa_state api) :
  keeps_keys live stuck f -> stores_within capacity f ->
  leaves held L0 L (psa api f) (fun r L' => L' = L /\ zlen (snd (fst r)) <= capacity).
Proof.
  intros Hf Hst s <-. pose proof (keeps_held f s Hf) as H. specialize (Hst s). unfold psa.
  destruct (f s) as [[[status bytes] op] s']. by split.
Qed.

Lemma leaves_made L0 L (f : psa_state api -> Z * Z * psa_state api) :
  makes_key live stuck f ->
  leaves held L0 L (psa api f) (fun r L' =>
    if decide (fst r = PSA_SUCCESS) then 0 < snd r < 2 ^ 32 /\ (snd r ∉ L) /\ L' = {[snd r]} ∪ L else snd r = 0 /\ L' = L).
Proof. intros Hf s <-. pose proof (makes_held f s Hf) as H. unfold psa. by destruct (f s) as [[status key] s']. Qed.

Lemma leaves_destroy L0 L key : leaves held L0 L (psa api (psa_destroy_key api key)) (fun _ L' => L' = L ∖ {[key]}).
Proof. intros s <-. pose proof (destroy_held key s) as H. unfold psa. destruct (psa_destroy_key api key s) as [a s']. exact H. Qed.
End psa_leaves.

(** A key that is made and destroyed. *)
Lemma made_destroyed (key : Z) (L : gset Z) : key ∉ L -> ({[key]} ∪ L) ∖ {[key]} = L.
Proof. set_solver. Qed.

(** ** Blobs that are written *)
Definition room (capacity : Z) : list Z := replicate (Z.to_nat capacity) 0.

Lemma encode_emitted p bs capacity :
  emits p bs -> 0 <= capacity ->
  encode_into p (room capacity) capacity = if zlen bs <=? capacity then Ret bs else Err SSH_ERR_BUFFER_OVERFLOW.
Proof.
  intros Hp Hc. assert (zlen (room capacity) = capacity) as Hr by (unfold room, zlen; rewrite length_replicate; lia). destruct (zlen bs <=? capacity) eqn:E.
  - apply emits_encode_into; [done|lia].
  - apply (emits_encode_overflow p bs); [done|lia|lia].
Qed.

Lemma encode_rejected c e p storage capacity :
  encode_into (reject c e;; p) storage capacity = if c then Err e else encode_into p storage capacity.
Proof. by destruct c. Qed.

Lemma encode_no_fault p bs capacity : emits p bs -> 0 <= capacity -> encode_into p (room capacity) capacity <> Fault.
Proof. intros Hp Hc. rewrite (encode_emitted p bs) by done. by destruct (_ <=? _). Qed.

(** ** A library that keeps the promises

    A state holds the keys.  The key 2 cannot be destroyed: it stays, without data.  A
    hash is a sum of the bytes, a signature repeats it, a
    cipher is the exclusive or with a byte. *)
Abbreviation toy_state := (gmap Z (psa_key_attributes * list Z)).
Definition PSA_ERROR_GENERIC : Z := -132.

Definition toy_sum (data : list Z) : Z := fold_right Z.add 0 data mod 256.
Definition toy_bytes (n : Z) (b : Z) : list Z := replicate (Z.to_nat n) (b mod 256).

(** [n] bytes where there is room for them. *)
Definition toy_store (n : Z) (data : list Z) (capacity : Z) : Z * list Z :=
  if (n <=? capacity) && (0 <=? n) then (PSA_SUCCESS, toy_bytes n (toy_sum data)) else (PSA_ERROR_GENERIC, []).

(** The least identifier that is free, up to 64. *)
Fixpoint toy_fresh (n : nat) (key : Z) (s : toy_state) : option Z :=
  match n with
  | O => None
  | S n => match s !! key with None => Some key | Some _ => toy_fresh n (key + 1) s end
  end.

Definition toy_make (attributes : psa_key_attributes) (data : list Z) (s : toy_state) : Z * Z * toy_state :=
  match toy_fresh 64 1 s with
  | Some key => if zlen data =? 0 then (PSA_ERROR_GENERIC, 0, s) else (PSA_SUCCESS, key, <[key:=(attributes, data)]> s)
  | None => (PSA_ERROR_GENERIC, 0, s)
  end.

(** What is done with the data of a key. *)
Definition toy_with {A} (none : A) (key : Z) (f : psa_key_attributes -> list Z -> A) (s : toy_state) : A * toy_state :=
  (match s !! key with Some (attributes, data) => f attributes data | None => none end, s).

Definition toy_destroy (key : Z) (s : toy_state) : Z * toy_state :=
  match s !! key with
  | Some (attributes, _) => if key =? 2 then (PSA_ERROR_GENERIC, <[key:=(attributes, [])]> s) else (PSA_SUCCESS, delete key s)
  | None => (PSA_SUCCESS, s)
  end.

Definition toy_copy (capacity : Z) (data : list Z) : Z * list Z :=
  if zlen data <=? capacity then (PSA_SUCCESS, map (fun b => b mod 256) data) else (PSA_ERROR_GENERIC, []).

Definition toy_failed : Z * list Z := (PSA_ERROR_GENERIC, []).

Definition toy_psa : psa_api := mk_psa toy_state (Z * list Z)
  (fun s => (PSA_SUCCESS, s))
  (fun len s => (PSA_SUCCESS, toy_bytes len 165, s))
  (fun _ data capacity s => (toy_store 32 data capacity, s))
  (fun attributes => toy_make attributes (toy_bytes 32 9))
  toy_make
  (fun key capacity => toy_with toy_failed key (fun _ data => toy_copy capacity data))
  (fun key capacity => toy_with toy_failed key (fun _ data => toy_copy capacity data))
  toy_destroy
  (fun _ key peer capacity => toy_with toy_failed key (fun _ data => toy_store 32 (data ++ peer) capacity))
  (fun key _ data capacity => toy_with toy_failed key (fun _ _ => toy_store 64 data capacity))
  (fun key _ data signature => toy_with PSA_ERROR_GENERIC key (fun _ _ =>
     if bytes_eqb signature (toy_bytes (zlen signature) (toy_sum data)) then PSA_SUCCESS else PSA_ERROR_GENERIC))
  (fun key _ data capacity => toy_with toy_failed key (fun _ mac_key => toy_store 32 (mac_key ++ data) capacity))
  (fun _ key _ => toy_with (PSA_ERROR_GENERIC, (key, [])) key (fun _ _ => (PSA_SUCCESS, (key, []))))
  (fun operation iv s => (PSA_SUCCESS, (fst operation, iv), s))
  (fun operation data capacity s =>
     if zlen data <=? capacity then (PSA_SUCCESS, map (fun b => Z.lxor (b mod 256) 85) data, operation, s)
     else (PSA_ERROR_GENERIC, [], operation, s))
  (fun operation _ s => (PSA_SUCCESS, [], operation, s))
  (fun _ s => (PSA_SUCCESS, s)).

Lemma toy_bytes_byte n b : Forall is_byte (toy_bytes n b).
Proof. apply Forall_replicate. unfold is_byte. apply Z.mod_pos_bound. lia. Qed.

Lemma toy_store_stored n data capacity : fst (toy_store n data capacity) = PSA_SUCCESS -> psa_stored capacity (snd (toy_store n data capacity)).
Proof.
  unfold toy_store. destruct (_ && _) eqn:E; [|done]. intros _. split; [apply toy_bytes_byte|]. cbn [snd].
  unfold toy_bytes, zlen. rewrite length_replicate. lia.
Qed.

Lemma toy_copy_stored capacity data : fst (toy_copy capacity data) = PSA_SUCCESS -> psa_stored capacity (snd (toy_copy capacity data)).
Proof.
  unfold toy_copy. destruct (_ <=? _) eqn:E; [|done]. intros _. cbn [snd]. split; [|unfold zlen in *; rewrite length_map; lia].
  apply Forall_map, Forall_true. intros b. unfold is_byte. cbn. apply Z.mod_pos_bound. lia.
Qed.

Lemma toy_fresh_free n key s k : toy_fresh n key s = Some k -> s !! k = None /\ key <= k < key + Z.of_nat n.
Proof.
  revert key. induction n as [|n IH]; intros key; cbn [toy_fresh]; [done|]. destruct (s !! key) eqn:E.
  - intros H. destruct (IH _ H). split; [done|lia].
  - intros [= <-]. split; [done|lia].
Qed.

(** The keys that stay. *)
Abbreviation toy_erased := (fun p : Z * (psa_key_attributes * list Z) => p.2.2 = []).
Definition toy_stuck (s : toy_state) : gset Z := dom (filter toy_erased s).

Lemma toy_stuck_made key attributes data (s : toy_state) :
  s !! key = None -> data <> [] -> toy_stuck (<[key:=(attributes, data)]> s) = toy_stuck s.
Proof. intros Hs Hd. unfold toy_stuck. rewrite map_filter_insert_False by done. by rewrite delete_id. Qed.

Lemma toy_make_key attributes data : makes_key (api:=toy_psa) (fun s : toy_state => dom s) toy_stuck (toy_make attributes data).
Proof.
  intros s. unfold toy_make. destruct (toy_fresh 64 1 s) as [key|] eqn:E; [|done]. destruct (zlen data =? 0) eqn:Ed; [done|].
  destruct (toy_fresh_free _ _ _ _ E) as [Hfree Hk]. split.
  - apply toy_stuck_made; [done|]. by intros ->.
  - rewrite decide_True by done. split; [lia|]. split; [by apply not_elem_of_dom|]. apply dom_insert_L.
Qed.

Lemma toy_destroy_run key (s : toy_state) :
  let '(status, s') := toy_destroy key s in
  (dom s' = dom s ∖ {[key]} /\ toy_stuck s' = toy_stuck s ∖ {[key]}) \/
  (status <> PSA_SUCCESS /\ (key ∈ dom s) /\ dom s' = dom s /\ toy_stuck s' = {[key]} ∪ toy_stuck s).
Proof.
  unfold toy_destroy, toy_stuck. destruct (s !! key) as [[a d]|] eqn:E; [destruct (key =? 2)|].
  - right. split; [done|]. split; [by apply elem_of_dom|]. rewrite map_filter_insert_True, !dom_insert_L by done.
    split; [apply elem_of_dom_2 in E; set_solver|done].
  - left. by rewrite map_filter_delete, !dom_delete_L.
  - left. apply not_elem_of_dom in E. assert (key ∉ dom (filter toy_erased s)) as Hn.
    { intros Hin. apply E. revert Hin. apply dom_filter_subseteq. }
    split; [revert E|revert Hn]; clear; set_solver.
Qed.

Lemma toy_destroy_key key : destroys_key (api:=toy_psa) (fun s : toy_state => dom s) toy_stuck key (toy_destroy key).
Proof. intros s. apply toy_destroy_run. Qed.

Lemma toy_with_stores capacity key (f : psa_key_attributes -> list Z -> Z * list Z) :
  (forall a d, fst (f a d) = PSA_SUCCESS -> psa_stored capacity (snd (f a d))) ->
  stores (api:=toy_psa) capacity (toy_with toy_failed key f).
Proof. intros Hf s. unfold toy_with. cbn [fst snd]. destruct (_ !! key) as [[a d]|]; [apply Hf|done]. Qed.

#[export] Instance toy_keys : PsaKeys toy_psa.
Proof.
  refine {| live := fun s : psa_state toy_psa => dom (s : toy_state); stuck := toy_stuck |};
    try (by intros; intros s); try (intros; apply toy_make_key).
  - intros s. apply dom_filter_subseteq.
  - intros alg data cap. split; [by intros s|]. intros s. apply toy_store_stored.
  - intros key cap. split; [by intros s|]. apply toy_with_stores. intros a d. apply toy_copy_stored.
  - apply toy_destroy_key.
  - intros key alg data cap. split; [by intros s|]. apply toy_with_stores. intros a d. apply toy_store_stored.
  - intros op data cap. split; [intros s; cbn; by destruct (_ <=? _)|]. intros Hc s. cbn. destruct (_ <=? _) eqn:E; cbn [fst snd]; [|done].
    unfold zlen in *. rewrite length_map. lia.
  - intros op cap. split; [by intros s|]. by intros Hc s.
Defined.
