(* ===== verification/MbedVerify.v ===== *)
(** * The crypto backend: keys and signatures of users

    What the decoders of the backend accept, and that a signature is good only when
    mbedTLS verified it: over the data that was given, with the key in the blob. *)

From stdpp Require Import gmap.
From S2P Require Import Prelude Buffer Platform Packet Codec UserPolicy Userauth OpensshKey OpensshText OpensshDer OpensshRead MbedCrypto MbedPsa.

(** ** Fixed-width integers *)
Lemma be_bytes_zeros n m v : 0 <= v < 256 ^ Z.of_nat m -> be_bytes (n + m) v = replicate n 0 ++ be_bytes m v.
Proof.
  intros Hv. induction n as [|n IH]; [done|]. cbn [Nat.add be_bytes replicate app]. rewrite IH. f_equal.
  rewrite Z.div_small; [done|]. split; [lia|]. apply (Z.lt_le_trans _ _ _ (proj2 Hv)). apply Z.pow_le_mono_r; lia.
Qed.

(** The number of an mpint, in [n] bytes. *)
Lemma mpint_view_to_fixed_value l n :
  Forall is_byte l -> 0 < n ->
  mpint_view_to_fixed (view_of l) n =
    if be_value l <? 256 ^ n then Ret (be_bytes (Z.to_nat n) (be_value l)) else Err SSH_ERR_MALFORMED_PACKET.
Proof.
  intros Hl Hn. unfold mpint_view_to_fixed. change (is_null (view_data (view_of l))) with false. rewrite view_bytes_of.
  replace (n =? 0) with false by lia. cbn [orb view_len view_of]. fold (strip_zeros l). rewrite <- zlen_strip.
  pose proof (strip_zeros_byte l Hl) as Hs. rewrite <- (be_value_strip l). pose proof (strip_zeros_hd l) as Hhd.
  set (m := strip_zeros l) in *. pose proof (be_value_bound m Hs) as Hb. pose proof (zlen_nonneg m).
  destruct (zlen m >? n) eqn:Hc.
  - replace (be_value m <? 256 ^ n) with false; [done|]. symmetry. apply Z.ltb_ge. destruct m as [|b m]; [change (zlen (@nil Z)) with 0 in Hc; lia|].
    apply Forall_cons_1 in Hs as [Hby Hs]. specialize (Hhd b m eq_refl). rewrite be_value_cons. rewrite zlen_cons in Hc.
    pose proof (be_value_bound m Hs). unfold is_byte in Hby. assert (256 ^ n <= 256 ^ zlen m) by (apply Z.pow_le_mono_r; lia).
    assert (0 < 256 ^ zlen m) by (apply Z.pow_pos_nonneg; lia). nia.
  - replace (be_value m <? 256 ^ n) with true.
    + f_equal. replace (Z.to_nat n) with (Z.to_nat (n - zlen m) + Z.to_nat (zlen m))%nat by lia.
      rewrite be_bytes_zeros by (rewrite Z2Nat.id; lia). f_equal. replace (Z.to_nat (zlen m)) with (length m) by (unfold zlen; lia).
      symmetry. by apply be_bytes_value.
    + symmetry. apply Z.ltb_lt. apply (Z.lt_le_trans _ _ _ (proj2 Hb)). apply Z.pow_le_mono_r; lia.
Qed.

(** ** Blobs

    The names in front of the fields are constants; a field is a view. *)
Lemma ECDSA_ok : field_ok ECDSA. Proof. apply field_ascii; by vm_compute. Qed.
Lemma ED25519_ok : field_ok ED25519. Proof. apply field_ascii; by vm_compute. Qed.
Lemma NISTP256_ok : field_ok NISTP256. Proof. apply field_ascii; by vm_compute. Qed.

Ltac blob_field :=
  lazymatch goal with
  | |- parses _ (string_bytes (view_bytes _)) _ _ => apply parses_view; assumption
  | |- parses _ (string_bytes ECDSA) _ _ => apply parses_of, ECDSA_ok
  | |- parses _ (string_bytes ED25519) _ _ => apply parses_of, ED25519_ok
  | |- parses _ (string_bytes NISTP256) _ _ => apply parses_of, NISTP256_ok
  end.
Ltac parse_blob :=
  apply parses_nil_r; rewrite <- ?app_assoc;
  repeat lazymatch goal with
  | |- parses (mbind (fun _ => _) (reject _ _)) _ _ _ => apply parses_reject
  | |- parses (mbind _ remaining_read) _ _ _ => apply parses_remaining; cbn [app]
  | |- parses (mbind _ _) (_ ++ _) _ _ => eapply parses_bind; [blob_field|]
  | |- parses (mret _) [] _ _ => apply parses_ret
  end.

Lemma view_len_zero v : view_ok v -> (view_len v =? 0) = bool_decide (view_bytes v = []).
Proof.
  intros Hv. destruct (view_ok_len v Hv) as [-> _]. case_bool_decide as H; [by rewrite H|].
  apply Z.eqb_neq. intros E. by apply zlen_zero_inv in E.
Qed.

(** What the guards of a decoder say of the views it read. *)
Ltac blob_guards :=
  guards;
  repeat match goal with
  | Hv : view_ok ?v, H : view_eq ?v (Some ?s) = true |- _ => apply (view_ok_eq v s Hv) in H
  | Hv : view_ok ?v, H : (view_len ?v =? 0) = false |- _ => rewrite (view_len_zero v Hv) in H; apply bool_decide_eq_false in H
  end.

Definition filled (v : ssh_string_view) : Prop := view_ok v /\ view_bytes v <> [].

Definition ecdsa_key_bytes (q : ssh_string_view) : list Z := string_bytes ECDSA ++ string_bytes NISTP256 ++ string_bytes (view_bytes q).

#[export] Instance ecdsa_public_message : Message ecdsa_public_reads filled ecdsa_key_bytes.
Proof.
  split.
  - intros q [Hq Hne]. unfold ecdsa_public_reads, ecdsa_key_bytes. parse_blob.
    rewrite !view_eq_same, view_len_zero, bool_decide_false by done. by rewrite zlen_nil.
  - unfold ecdsa_public_reads. repeat decode_step. blob_guards. unfold filled, ecdsa_key_bytes. split_and!; try done. congruence.
Qed.

Definition ed25519_bytes (raw : ssh_string_view) : list Z := string_bytes ED25519 ++ string_bytes (view_bytes raw).

#[export] Instance ed25519_message len : Message (ed25519_reads len) (fun raw => view_ok raw /\ view_len raw = len) ed25519_bytes.
Proof.
  split.
  - intros raw [Hr Hl]. unfold ed25519_reads, ed25519_bytes. parse_blob. by rewrite !view_eq_same, Hl, Z.eqb_refl, zlen_nil.
  - unfold ed25519_reads. repeat decode_step. blob_guards. unfold ed25519_bytes. split_and!; try done. congruence.
Qed.

Definition ecdsa_signature_bytes (inner : ssh_string_view) : list Z := string_bytes ECDSA ++ string_bytes (view_bytes inner).

#[export] Instance ecdsa_signature_message : Message ecdsa_signature_reads view_ok ecdsa_signature_bytes.
Proof.
  split.
  - intros v Hv. unfold ecdsa_signature_reads, ecdsa_signature_bytes. parse_blob. by rewrite !view_eq_same, zlen_nil.
  - unfold ecdsa_signature_reads. repeat decode_step. blob_guards. unfold ecdsa_signature_bytes. split_and!; try done. congruence.
Qed.

Definition pair_ok (p : ssh_string_view * ssh_string_view) : Prop := view_ok (fst p) /\ view_ok (snd p).
Definition pair_bytes (p : ssh_string_view * ssh_string_view) : list Z := string_bytes (view_bytes (fst p)) ++ string_bytes (view_bytes (snd p)).

#[export] Instance ecdsa_inner_message : Message ecdsa_inner_reads pair_ok pair_bytes.
Proof.
  split.
  - intros [r s] [Hr Hs]. unfold ecdsa_inner_reads, pair_bytes. cbn [fst snd] in *. parse_blob. by rewrite zlen_nil.
  - unfold ecdsa_inner_reads. repeat decode_step. blob_guards. done.
Qed.

(** The names an RSA key and an RSA signature may carry. *)
Definition rsa_name (l : list Z) : Prop := l = SSH_RSA \/ l = RSA_SHA2_256 \/ l = RSA_SHA2_512.

Lemma view_is_rsa_name v : view_ok v -> view_is_rsa_algorithm v = true <-> rsa_name (view_bytes v).
Proof. intros Hv. unfold view_is_rsa_algorithm, rsa_name. rewrite !orb_true_iff, !view_ok_eq by done. tauto. Qed.

Lemma rsa_name_field l : rsa_name l -> field_ok l.
Proof. intros [->|[->| ->]]; apply field_ascii; by vm_compute. Qed.

Definition rsa_bytes (name : list Z) (p : ssh_string_view * ssh_string_view) : list Z := string_bytes name ++ pair_bytes p.

Lemma parses_rsa_public name p :
  rsa_name name -> filled (fst p) -> filled (snd p) -> parses rsa_public_reads (rsa_bytes name p) [] p.
Proof.
  intros Hn [He Hne] [Hm Hnm]. destruct p as [e n]. unfold rsa_public_reads, rsa_bytes, pair_bytes. cbn [fst snd] in *.
  apply parses_nil_r. rewrite <- !app_assoc. pose proof (rsa_name_field _ Hn) as Hf.
  eapply parses_bind; [by apply parses_of|]. eapply parses_bind; [by apply parses_view|]. eapply parses_bind; [by apply parses_view|].
  apply parses_remaining. cbn [app]. apply parses_reject; [|apply parses_ret].
  rewrite (proj2 (view_is_rsa_name _ (field_view _ Hf))) by by rewrite view_bytes_of.
  rewrite !view_len_zero, !bool_decide_false by done. by rewrite zlen_nil.
Qed.

Lemma decodes_rsa_public :
  decodes rsa_public_reads (fun p u1 u2 => u2 = [] /\ exists name, rsa_name name /\ filled (fst p) /\ filled (snd p) /\ u1 = rsa_bytes name p).
Proof.
  unfold rsa_public_reads. repeat decode_step. blob_guards. split; [done|]. eexists. split; [by apply view_is_rsa_name|].
  unfold rsa_bytes, pair_bytes, filled. by cbn [fst snd].
Qed.

Lemma parses_rsa_signature p :
  rsa_name (view_bytes (fst p)) -> view_ok (fst p) -> filled (snd p) -> parses rsa_signature_reads (pair_bytes p) [] p.
Proof.
  intros Hn Ha [Hr Hne]. destruct p as [a r]. unfold rsa_signature_reads, pair_bytes. cbn [fst snd] in *. parse_blob.
  rewrite (proj2 (view_is_rsa_name _ Ha) Hn), view_len_zero, bool_decide_false by done. by rewrite zlen_nil.
Qed.

Lemma decodes_rsa_signature :
  decodes rsa_signature_reads (fun p u1 u2 => u2 = [] /\ rsa_name (view_bytes (fst p)) /\ view_ok (fst p) /\ filled (snd p) /\ u1 = pair_bytes p).
Proof.
  unfold rsa_signature_reads. repeat decode_step. blob_guards. unfold pair_bytes, filled. cbn [fst snd]. split_and!; try done. by apply view_is_rsa_name.
Qed.

(** ** The DER of an RSA key *)
Definition rsa_public_der (n e : list Z) : list Z := der_tlv 48 (der_integer n ++ der_integer e).

Lemma rsa_der_local n e :
  field_ok n -> field_ok e ->
  local_array EMSSH_MAX_HOST_KEY_BLOB (rsa_public_key_blob_to_der (view_of e) (view_of n) EMSSH_MAX_HOST_KEY_BLOB) =
    if nonzero n && nonzero e then
      if zlen (rsa_public_der n e) <=? EMSSH_MAX_HOST_KEY_BLOB then Ret (rsa_public_der n e) else Err SSH_ERR_BUFFER_TOO_SMALL
    else Err SSH_ERR_MALFORMED_PACKET.
Proof.
  intros [Hnb Hnl] [Heb Hel]. set (cap := EMSSH_MAX_HOST_KEY_BLOB). unfold local_array. set (mem := replicate (Z.to_nat cap) 0).
  assert (zlen mem = cap) as Hmem by (unfold mem, zlen; rewrite length_replicate; done).
  unfold rsa_public_key_blob_to_der. rewrite (bind_ret _ _ _ (Some mem) (Some mem)) by done. cbn [is_null].
  rewrite (bind_ret _ _ _ tt (Some mem)) by done. rewrite !der_integer_total_len_value by done. unfold nonzero.
  destruct (be_value n =? 0) eqn:En; [done|]. cbn [mbind outcome_bind]. destruct (be_value e =? 0) eqn:Ee; [done|]. cbn [mbind outcome_bind negb andb].
  assert (int_ok n) as Hn by (split_and!; [done|done|lia]). assert (int_ok e) as He by (split_and!; [done|done|lia]).
  destruct (zlen_der_integer n Hn) as [_ Hdn]. destruct (zlen_der_integer e He) as [_ Hde]. unfold UINT32_MAX in Hdn, Hde.
  assert (u64 (zlen (der_integer n) + zlen (der_integer e)) = zlen (der_integer n ++ der_integer e)) as ->
    by (rewrite zlen_app; unfold u64; apply Z.mod_small; lia).
  set (p := (reject _ _;; _)). assert (appends cap p 0 (rsa_public_der n e) (zlen (rsa_public_der n e))) as H.
  { unfold p, rsa_public_der, der_tlv. change (48 :: ?t) with ([48] ++ t). apply (appends_checked cap 0 [48]); [change (zlen [48]) with 1; bool_lia|].
    change (0 + zlen [48]) with 1. set (content := der_integer n ++ der_integer e).
    assert (0 <= zlen content < 2 ^ 64) as Hc by (unfold content; rewrite zlen_app; lia).
    eapply appends_bind; [by apply der_put_length_appends|]. set (off := 1 + zlen (der_len (zlen content))). unfold content at 1.
    eapply appends_bind; [by apply der_put_integer_appends|].
    replace (zlen ([48] ++ _)) with (off + zlen (der_integer n) + zlen (der_integer e)); [by apply der_put_integer_appends|].
    unfold off, content. rewrite !zlen_app. change (zlen [48]) with 1. lia. }
  specialize (H [] mem eq_refl ltac:(done) ltac:(rewrite zlen_nil; lia)). cbn [app] in H. rewrite Z.add_0_l in H.
  destruct (zlen (rsa_public_der n e) <=? cap).
  - rewrite H. by rewrite ztake_app.
  - by destruct H as (f' & _ & ->).
Qed.

(** ** What is verified *)

(** The attributes and the bytes of the key, and the signature, as mbedTLS takes them. *)
Record verification : Type := mk_verification {
  vf_attributes : psa_key_attributes;
  vf_key : list Z;
  vf_signature : list Z
}.

Definition verify_attributes (type : psa_key_type) (bits : Z) (alg : psa_algorithm) : psa_key_attributes :=
  mk_attributes type bits [PSA_KEY_USAGE_VERIFY_MESSAGE] alg.

(** A 256-bit number. *)
Definition scalar (l : list Z) : list Z := be_bytes 32 (be_value l).

(** The well-formed pairs of a key blob and a signature blob for an algorithm, and what
    they stand for. *)
Inductive user_key : list Z -> list Z -> list Z -> verification -> Prop :=
| user_key_ecdsa q r s :
    field_ok q -> q <> [] -> field_ok r -> field_ok s -> zlen (string_bytes r ++ string_bytes s) <= UINT32_MAX ->
    be_value r < 256 ^ 32 -> be_value s < 256 ^ 32 ->
    user_key ECDSA (string_bytes ECDSA ++ string_bytes NISTP256 ++ string_bytes q)
      (string_bytes ECDSA ++ string_bytes (string_bytes r ++ string_bytes s))
      (mk_verification (verify_attributes (PSA_KEY_TYPE_ECC_PUBLIC_KEY PSA_ECC_FAMILY_SECP_R1) 256 (PSA_ALG_ECDSA PSA_ALG_SHA_256))
         q (scalar r ++ scalar s))
| user_key_ed25519 q raw :
    field_ok q -> zlen q = 32 -> field_ok raw -> zlen raw = 64 ->
    user_key ED25519 (string_bytes ED25519 ++ string_bytes q) (string_bytes ED25519 ++ string_bytes raw)
      (mk_verification (verify_attributes (PSA_KEY_TYPE_ECC_PUBLIC_KEY PSA_ECC_FAMILY_TWISTED_EDWARDS) 255 PSA_ALG_PURE_EDDSA) q raw)
| user_key_rsa algorithm name e n signed hash raw :
    rsa_name algorithm -> rsa_name name -> field_ok e -> field_ok n -> be_value e <> 0 -> be_value n <> 0 ->
    zlen (rsa_public_der n e) <= EMSSH_MAX_HOST_KEY_BLOB ->
    (signed = RSA_SHA2_256 /\ hash = PSA_ALG_SHA_256 \/ signed = RSA_SHA2_512 /\ hash = PSA_ALG_SHA_512) ->
    field_ok raw -> raw <> [] ->
    user_key algorithm (string_bytes name ++ string_bytes e ++ string_bytes n) (string_bytes signed ++ string_bytes raw)
      (mk_verification (verify_attributes PSA_KEY_TYPE_RSA_PUBLIC_KEY 0 (PSA_ALG_RSA_PKCS1V15_SIGN hash)) (rsa_public_der n e) raw).

(** What the code computes of the two blobs. *)
Definition user_key_of (algorithm : ssh_string_view) (blob signature : list Z) : outcome verification :=
  if view_eq algorithm (Some ECDSA) then
    q ← decode_ecdsa_p256_public_key_blob (Some blob);
    raw ← decode_ecdsa_p256_signature_blob (Some signature);
    Ret (mk_verification (verify_attributes (PSA_KEY_TYPE_ECC_PUBLIC_KEY PSA_ECC_FAMILY_SECP_R1) 256 (PSA_ALG_ECDSA PSA_ALG_SHA_256))
           (view_bytes q) raw)
  else if view_eq algorithm (Some ED25519) then
    q ← decode_ed25519_public_key_blob (Some blob);
    raw ← decode_ed25519_signature_blob (Some signature);
    Ret (mk_verification (verify_attributes (PSA_KEY_TYPE_ECC_PUBLIC_KEY PSA_ECC_FAMILY_TWISTED_EDWARDS) 255 PSA_ALG_PURE_EDDSA)
           (view_bytes q) (view_bytes raw))
  else if view_is_rsa_algorithm algorithm then
    en ← decode_rsa_public_key_blob (Some blob);
    sig ← decode_rsa_signature_blob (Some signature);
    if view_eq (fst sig) (Some SSH_RSA) then Err SSH_ERR_UNSUPPORTED else
    match rsa_signature_psa_algorithm (fst sig) with
    | None => Err SSH_ERR_INVALID_ARGUMENT
    | Some alg =>
      der ← local_array EMSSH_MAX_HOST_KEY_BLOB (rsa_public_key_blob_to_der (fst en) (snd en) EMSSH_MAX_HOST_KEY_BLOB);
      Ret (mk_verification (verify_attributes PSA_KEY_TYPE_RSA_PUBLIC_KEY 0 alg) der (view_bytes (snd sig)))
    end
  else Err SSH_ERR_INVALID_ARGUMENT.

(** The two numbers of an ECDSA signature. *)
Lemma Ret_inj {A} (a b : A) : Ret a = Ret b -> a = b.
Proof. congruence. Qed.

Lemma decode_view_of {A} (g : BufM A) l : decode_view g (view_of l) = decode_from g l.
Proof. done. Qed.

Lemma ecdsa_signature_exact sig :
  Forall is_byte sig ->
  decode_ecdsa_p256_signature_blob (Some sig) <> Fault /\
  forall raw, decode_ecdsa_p256_signature_blob (Some sig) = Ret raw <->
    exists r s, field_ok r /\ field_ok s /\ zlen (string_bytes r ++ string_bytes s) <= UINT32_MAX /\
      be_value r < 256 ^ 32 /\ be_value s < 256 ^ 32 /\
      sig = string_bytes ECDSA ++ string_bytes (string_bytes r ++ string_bytes s) /\ raw = scalar r ++ scalar s.
Proof.
  intros Hb. unfold decode_ecdsa_p256_signature_blob, decode_ptr.
  pose proof (message_no_fault _ _ _ sig (Message0:=ecdsa_signature_message) Hb) as Hnf.
  pose proof (fun v => message_exact _ _ _ sig v Hb (Message0:=ecdsa_signature_message)) as Hex.
  assert (forall r s, field_ok r -> field_ok s -> zlen (string_bytes r ++ string_bytes s) <= UINT32_MAX ->
    sig = string_bytes ECDSA ++ string_bytes (string_bytes r ++ string_bytes s) ->
    decode_from ecdsa_signature_reads sig = Ret (view_of (string_bytes r ++ string_bytes s))) as Himage.
  { intros r s [Hr _] [Hs _] Hl ->. apply Hex. unfold ecdsa_signature_bytes. rewrite view_bytes_of. split; [|done].
    apply view_ok_of; [|done]. apply Forall_app. split; by apply string_bytes_byte. }
  destruct (decode_from ecdsa_signature_reads sig) as [inner|e|] eqn:E; cbn [mbind outcome_bind]; [| |done].
  2: { split; [done|]. intros raw. split; [done|]. intros (r & s & Hr & Hs & Hl & _ & _ & Esig & _).
       by pose proof (Himage r s Hr Hs Hl Esig). }
  destruct (proj1 (Hex inner) eq_refl) as [Hi Esig]. rewrite (view_ok_eta _ Hi), decode_view_of.
  pose proof (message_no_fault _ _ _ (view_bytes inner) (Message0:=ecdsa_inner_message) (view_ok_byte _ Hi)) as Hnf2.
  pose proof (fun p => message_exact _ _ _ (view_bytes inner) p (view_ok_byte _ Hi) (Message0:=ecdsa_inner_message)) as Hex2.
  assert (forall r s, field_ok r -> field_ok s -> zlen (string_bytes r ++ string_bytes s) <= UINT32_MAX ->
    sig = string_bytes ECDSA ++ string_bytes (string_bytes r ++ string_bytes s) ->
    decode_from ecdsa_inner_reads (view_bytes inner) = Ret (view_of r, view_of s)) as Himage2.
  { intros r s Hr Hs Hl Es. pose proof (Himage r s Hr Hs Hl Es) as [= ->]. apply Hex2. unfold pair_bytes, pair_ok. cbn [fst snd].
    rewrite !view_bytes_of. split; [|done]. split; by apply field_view. }
  destruct (decode_from ecdsa_inner_reads (view_bytes inner)) as [[r s]|e|] eqn:E2; cbn [mbind outcome_bind]; [| |done].
  2: { split; [done|]. intros raw. split; [done|]. intros (r & s & Hr & Hs & Hl & _ & _ & Es & _).
       by pose proof (Himage2 r s Hr Hs Hl Es). }
  destruct (proj1 (Hex2 (r, s)) eq_refl) as [[Hr Hs] Einner]. unfold pair_bytes in Einner. cbn [fst snd] in *.
  rewrite (view_ok_eta _ Hr), (view_ok_eta _ Hs), !mpint_view_to_fixed_value by (try lia; by apply view_ok_byte).
  set (rb := view_bytes r) in *. set (sb := view_bytes s) in *. change (Z.to_nat 32) with 32%nat. fold (scalar rb) (scalar sb).
  assert (forall r' s', field_ok r' -> field_ok s' -> zlen (string_bytes r' ++ string_bytes s') <= UINT32_MAX ->
    sig = string_bytes ECDSA ++ string_bytes (string_bytes r' ++ string_bytes s') -> r' = rb /\ s' = sb) as Huniq.
  { intros r' s' Hr' Hs' Hl Es. pose proof (Himage2 r' s' Hr' Hs' Hl Es) as Hi2. apply Ret_inj, pair_equal_spec in Hi2 as [Er Eq]. unfold rb, sb. rewrite Er, Eq.
    by rewrite !view_bytes_of. }
  destruct (be_value rb <? 256 ^ 32) eqn:Hrv; cbn [mbind outcome_bind].
  2: { split; [done|]. intros raw. split; [done|]. intros (r' & s' & Hr' & Hs' & Hl & Hv & _ & Es & _).
       destruct (Huniq r' s' Hr' Hs' Hl Es) as [-> _]. lia. }
  destruct (be_value sb <? 256 ^ 32) eqn:Hsv; cbn [mbind outcome_bind].
  2: { split; [done|]. intros raw. split; [done|]. intros (r' & s' & Hr' & Hs' & Hl & _ & Hv & Es & _).
       destruct (Huniq r' s' Hr' Hs' Hl Es) as [_ ->]. lia. }
  split; [done|]. intros raw. split.
  - intros [= <-]. exists rb, sb. apply Z.ltb_lt in Hrv, Hsv. split; [by apply view_field|]. split; [by apply view_field|].
    split; [rewrite <- Einner; by apply view_ok_len|]. split; [exact Hrv|]. split; [exact Hsv|]. split; [|done].
    rewrite <- Einner. exact Esig.
  - intros (r' & s' & Hr' & Hs' & Hl & _ & _ & Es & ->). by destruct (Huniq r' s' Hr' Hs' Hl Es) as [-> ->].
Qed.

(** A decoder of one message, from a pointer. *)
Lemma decode_ptr_exact {A} (g : BufM A) ok bytes `{!Message g ok bytes} bs :
  Forall is_byte bs ->
  decode_ptr g (Some bs) <> Fault /\ forall x, decode_ptr g (Some bs) = Ret x <-> ok x /\ bs = bytes x.
Proof. intros Hb. split; [by apply (message_no_fault g ok bytes)|]. intros x. by apply (message_exact g ok bytes). Qed.

Lemma ed25519_exact len bs :
  Forall is_byte bs -> decode_ptr (ed25519_reads len) (Some bs) <> Fault /\
  forall v, decode_ptr (ed25519_reads len) (Some bs) = Ret v <-> (view_ok v /\ view_len v = len) /\ bs = ed25519_bytes v.
Proof. apply decode_ptr_exact, _. Qed.

Lemma rsa_public_exact bs :
  Forall is_byte bs -> decode_rsa_public_key_blob (Some bs) <> Fault /\
  forall p, decode_rsa_public_key_blob (Some bs) = Ret p <->
    exists name, rsa_name name /\ filled (fst p) /\ filled (snd p) /\ bs = rsa_bytes name p.
Proof.
  intros Hb. split; [by apply (decodes_no_fault _ _ _ decodes_rsa_public)|]. intros p. split.
  - intros E. destruct (decodes_decode_from _ _ _ _ decodes_rsa_public Hb E) as (u1 & u2 & -> & -> & name & Hn & He & Hm & ->).
    exists name. by rewrite app_nil_r.
  - intros (name & Hn & He & Hm & ->). by apply parses_decode_from, parses_rsa_public.
Qed.

Lemma rsa_signature_exact bs :
  Forall is_byte bs -> decode_rsa_signature_blob (Some bs) <> Fault /\
  forall p, decode_rsa_signature_blob (Some bs) = Ret p <->
    rsa_name (view_bytes (fst p)) /\ view_ok (fst p) /\ filled (snd p) /\ bs = pair_bytes p.
Proof.
  intros Hb. split; [by apply (decodes_no_fault _ _ _ decodes_rsa_signature)|]. intros p. split.
  - intros E. destruct (decodes_decode_from _ _ _ _ decodes_rsa_signature Hb E) as (u1 & u2 & -> & -> & H).
    by rewrite app_nil_r.
  - intros (Hn & Ha & Hr & ->). by apply parses_decode_from, parses_rsa_signature.
Qed.

(** The algorithm of an RSA signature. *)
Lemma rsa_signature_hash a :
  view_ok a -> rsa_name (view_bytes a) ->
  if view_eq a (Some SSH_RSA) then view_bytes a = SSH_RSA
  else exists hash, rsa_signature_psa_algorithm a = Some (PSA_ALG_RSA_PKCS1V15_SIGN hash) /\
    (view_bytes a = RSA_SHA2_256 /\ hash = PSA_ALG_SHA_256 \/ view_bytes a = RSA_SHA2_512 /\ hash = PSA_ALG_SHA_512).
Proof.
  intros Ha Hn. rewrite view_ok_eqb by done. case_bool_decide as H1; [done|]. unfold rsa_signature_psa_algorithm.
  rewrite !view_ok_eqb by done. case_bool_decide as H2; [eexists; split; [done|by left]|].
  case_bool_decide as H3; [eexists; split; [done|by right]|]. by destruct Hn as [?|[?|?]].
Qed.

Lemma rsa_signature_hash_of signed hash :
  (signed = RSA_SHA2_256 /\ hash = PSA_ALG_SHA_256 \/ signed = RSA_SHA2_512 /\ hash = PSA_ALG_SHA_512) ->
  rsa_name signed /\ view_eq (view_of signed) (Some SSH_RSA) = false /\
  rsa_signature_psa_algorithm (view_of signed) = Some (PSA_ALG_RSA_PKCS1V15_SIGN hash).
Proof. unfold rsa_name. intros [[-> ->]|[-> ->]]; split_and!; auto. Qed.

(** The RSA algorithms are none of the other two. *)
Lemma rsa_name_other l : rsa_name l -> l <> ECDSA /\ l <> ED25519.
Proof. by intros [->|[->| ->]]. Qed.
Lemma ECDSA_ED25519 : ECDSA <> ED25519.
Proof. done. Qed.

Lemma user_key_sound algorithm blob sig :
  view_ok algorithm -> Forall is_byte blob -> Forall is_byte sig ->
  match user_key_of algorithm blob sig with
  | Ret v => user_key (view_bytes algorithm) blob sig v
  | Err _ => True
  | Fault => False
  end.
Proof.
  intros Ha Hb Hs. unfold user_key_of. rewrite !view_ok_eqb by done. case_bool_decide as H1.
  { destruct (decode_ptr_exact _ _ _ (Message0:=ecdsa_public_message) blob Hb) as [Hnf Hex]. unfold decode_ecdsa_p256_public_key_blob.
    destruct (ecdsa_signature_exact sig Hs) as [Hnf2 Hex2].
    destruct (decode_ptr ecdsa_public_reads (Some blob)) as [q|e|]; cbn [mbind outcome_bind]; [|done|done].
    destruct (decode_ecdsa_p256_signature_blob (Some sig)) as [raw|e|]; cbn [mbind outcome_bind]; [|done|done].
    destruct (proj1 (Hex q) eq_refl) as [[Hq Hne] Eb]. destruct (proj1 (Hex2 raw) eq_refl) as (r & s & Hr & Hs' & Hl & Hrv & Hsv & Es & ->).
    rewrite H1, Eb, Es. by apply user_key_ecdsa; [apply view_field|..]. }
  case_bool_decide as H2.
  { destruct (ed25519_exact 32 blob Hb) as [Hnf Hex]. destruct (ed25519_exact 64 sig Hs) as [Hnf2 Hex2].
    unfold decode_ed25519_public_key_blob, decode_ed25519_signature_blob.
    destruct (decode_ptr (ed25519_reads 32) (Some blob)) as [q|e|]; cbn [mbind outcome_bind]; [|done|done].
    destruct (decode_ptr (ed25519_reads 64) (Some sig)) as [raw|e|]; cbn [mbind outcome_bind]; [|done|done].
    destruct (proj1 (Hex q) eq_refl) as [[Hq Hql] Eb]. destruct (proj1 (Hex2 raw) eq_refl) as [[Hr Hrl] Es].
    rewrite H2, Eb, Es. unfold ed25519_bytes. rewrite (proj1 (view_ok_len _ Hq)) in Hql. rewrite (proj1 (view_ok_len _ Hr)) in Hrl.
    apply user_key_ed25519; [by apply view_field|done|by apply view_field|done]. }
  destruct (view_is_rsa_algorithm algorithm) eqn:H3; [|done]. apply view_is_rsa_name in H3; [|done].
  destruct (rsa_public_exact blob Hb) as [Hnf Hex]. destruct (rsa_signature_exact sig Hs) as [Hnf2 Hex2].
  destruct (decode_rsa_public_key_blob (Some blob)) as [[e n]|err|]; cbn [mbind outcome_bind]; [|done|done].
  destruct (decode_rsa_signature_blob (Some sig)) as [[a raw]|err|]; cbn [mbind outcome_bind fst snd]; [|done|done].
  destruct (proj1 (Hex (e, n)) eq_refl) as (name & Hn & [He _] & [Hm _] & Eb).
  destruct (proj1 (Hex2 (a, raw)) eq_refl) as (Han & Hao & [Hr Hne] & Es). cbn [fst snd] in *.
  pose proof (rsa_signature_hash a Hao Han) as Hh. destruct (view_eq a (Some SSH_RSA)); [done|].
  destruct Hh as (hash & -> & Hhash). pose proof (view_field _ He) as Hef. pose proof (view_field _ Hm) as Hmf.
  rewrite (view_ok_eta _ He), (view_ok_eta _ Hm), rsa_der_local by done.
  destruct (nonzero (view_bytes n) && nonzero (view_bytes e)) eqn:Hz; [|done]. apply andb_true_iff in Hz as [Hzn Hze].
  destruct (_ <=? _) eqn:Hl; [|done]. cbn [mbind outcome_bind]. rewrite Eb, Es. unfold rsa_bytes, pair_bytes. cbn [fst snd].
  unfold nonzero in *. apply user_key_rsa with (name := name); try done; try lia. by apply view_field.
Qed.

Lemma user_key_complete algorithm blob sig v :
  view_ok algorithm -> user_key (view_bytes algorithm) blob sig v -> user_key_of algorithm blob sig = Ret v.
Proof.
  intros Ha Hk. unfold user_key_of. rewrite !view_ok_eqb by done.
  remember (view_bytes algorithm) as name0 eqn:Ename. destruct Hk as
    [q r s Hq Hne Hr Hs Hl Hrv Hsv|q raw Hq Hql Hr Hrl|alg name e n signed hash raw Halg Hn He Hm Hev Hnv Hl Hh Hr Hne].
  - rewrite bool_decide_true by done. pose proof (field_view _ Hq) as Hqv.
    assert (decode_ecdsa_p256_public_key_blob (Some (string_bytes ECDSA ++ string_bytes NISTP256 ++ string_bytes q)) = Ret (view_of q)) as ->.
    { unfold decode_ecdsa_p256_public_key_blob, decode_ptr.
      assert (string_bytes ECDSA ++ string_bytes NISTP256 ++ string_bytes q = ecdsa_key_bytes (view_of q)) as ->
        by (unfold ecdsa_key_bytes; by rewrite view_bytes_of).
      apply parses_decode_from. apply (message_parses (Message:=ecdsa_public_message)). split; [done|by rewrite view_bytes_of]. }
    cbn [mbind outcome_bind].
    assert (Forall is_byte (string_bytes ECDSA ++ string_bytes (string_bytes r ++ string_bytes s))) as Hb.
    { destruct Hr as [Hr _]. destruct Hs as [Hs _]. apply Forall_app. split; [apply string_bytes_byte, ECDSA_ok|].
      apply string_bytes_byte, Forall_app. split; by apply string_bytes_byte. }
    destruct (ecdsa_signature_exact _ Hb) as [_ Hex]. rewrite (proj2 (Hex (scalar r ++ scalar s))) by by exists r, s.
    cbn [mbind outcome_bind]. by rewrite view_bytes_of.
  - rewrite bool_decide_false, bool_decide_true by done. pose proof (field_view _ Hq) as Hqv. pose proof (field_view _ Hr) as Hrv.
    assert (forall l len, view_ok (view_of l) -> zlen l = len -> decode_ptr (ed25519_reads len) (Some (string_bytes ED25519 ++ string_bytes l)) = Ret (view_of l)) as Hd.
    { intros l len Hv Hlen. unfold decode_ptr. rewrite <- (view_bytes_of l) at 1. apply parses_decode_from.
      by apply (message_parses (Message:=ed25519_message len)). }
    unfold decode_ed25519_public_key_blob, decode_ed25519_signature_blob. rewrite !Hd by done. cbn [mbind outcome_bind].
    by rewrite !view_bytes_of.
  - destruct (rsa_name_other _ Halg) as [H1 H2]. rewrite !bool_decide_false by done. subst alg.
    rewrite (proj2 (view_is_rsa_name _ Ha) Halg). pose proof (field_view _ He) as Hev'. pose proof (field_view _ Hm) as Hmv'.
    pose proof (field_view _ Hr) as Hrv'. destruct (rsa_signature_hash_of _ _ Hh) as (Hsn & Hs1 & Hs2).
    pose proof (field_view _ (rsa_name_field _ Hsn)) as Hsv'.
    assert (forall l, be_value l <> 0 -> view_bytes (view_of l) <> []) as Hfill by (intros l Hl0; rewrite view_bytes_of; by intros ->).
    assert (decode_rsa_public_key_blob (Some (string_bytes name ++ string_bytes e ++ string_bytes n)) = Ret (view_of e, view_of n)) as ->.
    { unfold decode_rsa_public_key_blob, decode_ptr.
      assert (string_bytes name ++ string_bytes e ++ string_bytes n = rsa_bytes name (view_of e, view_of n)) as ->
        by (unfold rsa_bytes, pair_bytes; cbn [fst snd]; by rewrite !view_bytes_of).
      apply parses_decode_from, parses_rsa_public; [done|split|split]; try done; by apply Hfill. }
    cbn [mbind outcome_bind].
    assert (decode_rsa_signature_blob (Some (string_bytes signed ++ string_bytes raw)) = Ret (view_of signed, view_of raw)) as ->.
    { unfold decode_rsa_signature_blob, decode_ptr.
      assert (string_bytes signed ++ string_bytes raw = pair_bytes (view_of signed, view_of raw)) as ->
        by (unfold pair_bytes; cbn [fst snd]; by rewrite !view_bytes_of).
      apply parses_decode_from, parses_rsa_signature; cbn [fst snd]; [by rewrite view_bytes_of|done|split; [done|by rewrite view_bytes_of]]. }
    cbn [mbind outcome_bind fst snd]. rewrite Hs1, Hs2, rsa_der_local by done. unfold nonzero.
    rewrite !(proj2 (Z.eqb_neq _ _)) by done. cbn [negb andb]. rewrite (proj2 (Z.leb_le _ _) Hl). cbn [mbind outcome_bind].
    by rewrite view_bytes_of.
Qed.

Section verify.
Context (api : psa_api).

(** The library is called once the blobs are read. *)
Lemma publickey_verify_run algorithm blob data signature (s : psa_state api) :
  blob <> [] -> data <> [] -> signature <> [] ->
  mbedtls_publickey_verify api algorithm (Some blob) (Some data) (Some signature) s =
    match user_key_of algorithm blob signature with
    | Ret v => verify_with api (vf_attributes v) (vf_key v) data (vf_signature v) s
    | Err e => (Err e, s)
    | Fault => (Fault, s)
    end.
Proof.
  intros Hb Hd Hs. unfold mbedtls_publickey_verify.
  assert (forall l : list Z, l <> [] -> null_or_empty (Some l) = false) as Hn.
  { intros l Hl. unfold null_or_empty. cbn. apply Z.eqb_neq. intros E. by apply Hl, zlen_zero_inv. }
  rewrite !Hn by done. cbn [orb]. rewrite (bind_ret _ _ _ tt s) by done. unfold user_key_of.
  destruct (view_eq algorithm (Some ECDSA)).
  { unfold verify_ecdsa_p256_publickey, of_result. cbn [mbind outcome_bind prog_bind].
    destruct (decode_ecdsa_p256_public_key_blob _) as [q|e|]; [|done|done]. cbn [mbind outcome_bind prog_bind].
    by destruct (decode_ecdsa_p256_signature_blob _). }
  destruct (view_eq algorithm (Some ED25519)).
  { unfold verify_ed25519_publickey, of_result. cbn [mbind outcome_bind prog_bind].
    destruct (decode_ed25519_public_key_blob _) as [q|e|]; [|done|done]. cbn [mbind outcome_bind prog_bind].
    by destruct (decode_ed25519_signature_blob _). }
  destruct (view_is_rsa_algorithm algorithm) eqn:Ha; [|done].
  unfold verify_rsa_publickey, of_result, mbind, prog_bind, outcome_bind. rewrite Ha. cbn [negb reject mret prog_ret].
  unfold mret, prog_ret. destruct (decode_rsa_public_key_blob _) as [[e n]|err|]; [|done|done].
  destruct (decode_rsa_signature_blob _) as [[a raw]|err|]; [|done|done]. cbn [fst snd].
  destruct (view_eq a (Some SSH_RSA)); [done|]. cbn [reject mret prog_ret]. unfold mret, prog_ret.
  destruct (rsa_signature_psa_algorithm a); [|done]. by destruct (local_array _ _).
Qed.

(** mbedTLS takes the key and says that the signature is good. *)
Definition verified (v : verification) (data : list Z) (s : psa_state api) : Prop :=
  exists key s1 s2, psa_import_key api (vf_attributes v) (vf_key v) s = (PSA_SUCCESS, key, s1) /\
    psa_verify_message api key (key_algorithm (vf_attributes v)) data (vf_signature v) s1 = (PSA_SUCCESS, s2).

Lemma return_status_run {S} status (s : S) :
  return_status status s = if decide (status = SSH_OK) then (Ret tt, s) else (Err status, s).
Proof. unfold return_status. by case_decide. Qed.

Lemma verify_status_ok status : verify_status status = SSH_OK <-> status = PSA_SUCCESS.
Proof.
  unfold verify_status. destruct (Z.eqb_spec status PSA_SUCCESS); [done|]. by destruct (status =? PSA_ERROR_NOT_SUPPORTED).
Qed.

Lemma verify_with_ok v data s :
  let r := fst (verify_with api (vf_attributes v) (vf_key v) data (vf_signature v) s) in
  r <> Fault /\ (r = Ret tt <-> verified v data s).
Proof.
  unfold verify_with, verified, psa, mbind, prog_bind. destruct (psa_import_key _ _ _ s) as [[status key] s1].
  destruct (Z.eqb_spec status PSA_SUCCESS) as [->|Hne].
  - destruct (psa_verify_message _ _ _ _ _ s1) as [status2 s2] eqn:Ev.
    assert (forall s' : psa_state api, let r := fst (return_status (verify_status status2) s') in r <> Fault /\ (r = Ret tt <->
      exists k t1 t2, (PSA_SUCCESS, key, s1) = (PSA_SUCCESS, k, t1) /\
        psa_verify_message api k (key_algorithm (vf_attributes v)) data (vf_signature v) t1 = (PSA_SUCCESS, t2))) as H.
    { intros s'. rewrite return_status_run. case_decide as H; cbn [fst].
      - apply verify_status_ok in H as ->. split; [done|]. split; [intros _; by exists key, s1, s2|done].
      - split; [done|]. split; [done|]. intros (k & t1 & t2 & [= <- <-] & E). rewrite Ev in E. injection E as -> _.
        destruct H. by apply verify_status_ok. }
    destruct (negb (key =? 0)); [|apply H]. destruct (psa_destroy_key api key s2) as [? s3]. apply H.
  - assert (forall s' : psa_state api, let r := fst (return_status (verify_status status) s') in r <> Fault /\ (r = Ret tt <->
      exists k t1 t2, (status, key, s1) = (PSA_SUCCESS, k, t1) /\
        psa_verify_message api k (key_algorithm (vf_attributes v)) data (vf_signature v) t1 = (PSA_SUCCESS, t2))) as H.
    { intros s'. rewrite return_status_run. case_decide as H; cbn [fst]; [by apply verify_status_ok in H|].
      split; [done|]. split; [done|]. intros (k & t1 & t2 & [= ? _ _] & _). done. }
    unfold mret, prog_ret. destruct (negb (key =? 0)); [|apply H]. destruct (psa_destroy_key api key s1) as [? s3]. apply H.
Qed.

Lemma user_key_nonempty algorithm blob sig v : user_key algorithm blob sig v -> blob <> [] /\ sig <> [].
Proof. by intros []. Qed.

Lemma publickey_verify_ok algorithm blob data sig s :
  view_ok algorithm -> Forall is_byte blob -> Forall is_byte sig ->
  let r := fst (mbedtls_publickey_verify api algorithm (Some blob) (Some data) (Some sig) s) in
  r <> Fault /\ (r = Ret tt <-> data <> [] /\ exists v, user_key (view_bytes algorithm) blob sig v /\ verified v data s).
Proof.
  intros Ha Hb Hs. destruct (decide (blob <> [] /\ data <> [] /\ sig <> [])) as [(Hb1 & Hd1 & Hs1)|Hempty].
  - rewrite publickey_verify_run by done. pose proof (user_key_sound algorithm blob sig Ha Hb Hs) as Hsound.
    destruct (user_key_of algorithm blob sig) as [v|e|] eqn:Ev; [| |done].
    + destruct (verify_with_ok v data s) as [Hnf Hiff]. split; [exact Hnf|]. rewrite Hiff. split.
      * intros Hv. split; [done|]. by exists v.
      * intros (_ & v' & Hk & Hv). apply (user_key_complete _ _ _ _ Ha) in Hk. rewrite Ev in Hk. by injection Hk as <-.
    + cbn [fst]. split; [done|]. split; [done|]. intros (_ & v & Hk & _). apply (user_key_complete _ _ _ _ Ha) in Hk. congruence.
  - assert (null_or_empty (Some blob) || null_or_empty (Some data) || null_or_empty (Some sig) = true) as Hg.
    { unfold null_or_empty. cbn [is_null orb default from_option id]. destruct blob; [done|]. destruct data; [done|]. destruct sig; [done|]. by destruct Hempty. }
    unfold mbedtls_publickey_verify. rewrite Hg. cbn [fst reject]. split; [done|]. split; [done|].
    intros (Hd & v & Hk & _). destruct (user_key_nonempty _ _ _ _ Hk). by destruct Hempty.
Qed.

(** C26: a signature of a user is accepted exactly when it is one: for every algorithm, key,
    data and signature, the backend reports success if and only if the two blobs are well
    formed for the algorithm and mbedTLS verified the signature in the one blob over all
    of the data with the key in the other; nothing outside of them is read. *)
Theorem publickey_verify_exact algorithm blob data sig s :
  view_ok algorithm -> Forall is_byte blob -> Forall is_byte sig ->
  let r := fst (mbedtls_publickey_verify api algorithm (Some blob) (Some data) (Some sig) s) in
  r <> Fault /\ (r = Ret tt <-> data <> [] /\ exists v, user_key (view_bytes algorithm) blob sig v /\ verified v data s).
Proof. exact (publickey_verify_ok algorithm blob data sig s). Qed.
End verify.

(** A signature of the small library over three bytes, with an Ed25519 key. *)
Definition toy_key_blob : list Z := string_bytes ED25519 ++ string_bytes (replicate 32 1).
Definition toy_signature (data : list Z) : list Z := string_bytes ED25519 ++ string_bytes (toy_bytes 64 (toy_sum data)).

Lemma toy_key_blob_byte : Forall is_byte toy_key_blob.
Proof. apply Forall_app. split; apply string_bytes_byte; [apply ED25519_ok|]. apply Forall_replicate. by unfold is_byte. Qed.

Lemma toy_signature_byte data : Forall is_byte (toy_signature data).
Proof. apply Forall_app. split; apply string_bytes_byte; [apply ED25519_ok|]. apply toy_bytes_byte. Qed.

Lemma publickey_verify_exact_witness :
  (exists v, user_key ED25519 toy_key_blob (toy_signature [1; 2; 3]) v /\ verified toy_psa v [1; 2; 3] (empty : toy_state)) /\
  fst (mbedtls_publickey_verify toy_psa (view_of ED25519) (Some toy_key_blob) (Some [1; 2; 3]) (Some (toy_signature [3; 2; 2])) (empty : toy_state))
    = Err SSH_ERR_SECURITY.
Proof.
  split; [|by vm_compute].
  destruct (publickey_verify_exact toy_psa (view_of ED25519) toy_key_blob [1; 2; 3] (toy_signature [1; 2; 3]) (empty : toy_state)) as [_ H].
  - apply field_view, ED25519_ok.
  - apply toy_key_blob_byte.
  - apply toy_signature_byte.
  - destruct (proj1 H) as [_ Hv]; [by vm_compute|exact Hv].
Defined.
