(* ===== verification/MbedLogin.v ===== *)
(** * The crypto backend: logins with a key

    [ssh_userauth_evaluate_request] with the backend of mbedTLS in the server: who holds
    an accepted key and signed this request in this session is let in, and nobody else. *)

From stdpp Require Import gmap.
From S2P Require Import Prelude Buffer Platform Packet Codec UserPolicy Userauth OpensshKey OpensshText OpensshDer OpensshRead MbedCrypto MbedPsa MbedVerify.

(** ** A failure is never reported as SSH_OK *)
Definition proper_errors {S A} (p : Prog S A) : Prop := forall s, fst (p s) <> Err SSH_OK.

Lemma proper_ret {S A} (a : A) : proper_errors (S:=S) (mret a).
Proof. done. Qed.

Lemma proper_bind {S A B} (p : Prog S A) (k : A -> Prog S B) :
  proper_errors p -> (forall a, proper_errors (k a)) -> proper_errors (x ← p; k x).
Proof.
  intros Hp Hk s. specialize (Hp s). unfold mbind, prog_bind. destruct (p s) as [[a|e|] s']; [apply Hk|cbn in *; congruence|done].
Qed.

Lemma proper_reject {S} c e : e <> SSH_OK -> proper_errors (S:=S) (reject c e).
Proof. intros He s. destruct c; [cbn; congruence|done]. Qed.

Lemma proper_view : proper_errors ssh_buffer_get_string_view.
Proof.
  assert (forall n, proper_errors (load n)) as Hload.
  { intros n s. destruct s as [[[d|] cap len pos]|]; [|done|done]. unfold load. by destruct (mem_read d pos n). }
  assert (forall n, proper_errors (require_unread n)) as Hunread by (intros n s; by apply proper_reject).
  repeat first [apply proper_bind; [|intros ?] | apply proper_ret | apply Hload | apply Hunread].
  intros s. by apply proper_reject.
Qed.

Lemma proper_remaining : proper_errors remaining_read.
Proof. done. Qed.

Ltac fails :=
  unfold ecdsa_public_reads, ed25519_reads, ecdsa_signature_reads, ecdsa_inner_reads, rsa_public_reads, rsa_signature_reads;
  repeat first [apply proper_view | apply proper_remaining | apply proper_ret | by apply proper_reject | apply proper_bind; [|intros ?]].

Lemma proper_decode {A} (g : BufM A) v : proper_errors g -> decode_view g v <> Err SSH_OK.
Proof. intros Hg. apply Hg. Qed.

Lemma proper_decode_ptr {A} (g : BufM A) p : proper_errors g -> decode_ptr g p <> Err SSH_OK.
Proof. intros Hg. destruct p; [apply Hg|done]. Qed.

Lemma proper_outcome {A B} (o : outcome A) (k : A -> outcome B) :
  o <> Err SSH_OK -> (forall a, o = Ret a -> k a <> Err SSH_OK) -> (x ← o; k x) <> Err SSH_OK.
Proof. intros Ho Hk. destruct o; cbn; [by apply Hk|congruence|done]. Qed.

Lemma proper_ecdsa_signature sig : decode_ecdsa_p256_signature_blob sig <> Err SSH_OK.
Proof.
  assert (forall v n, mpint_view_to_fixed v n <> Err SSH_OK) as Hfixed by (intros; unfold mpint_view_to_fixed; by repeat case_match).
  apply proper_outcome; [apply proper_decode_ptr; fails|]. intros inner _.
  apply proper_outcome; [apply proper_decode; fails|]. intros rs _.
  apply proper_outcome; [done|]. intros r _. by apply proper_outcome.
Qed.

Lemma user_key_of_fails algorithm blob sig :
  view_ok algorithm -> Forall is_byte blob -> Forall is_byte sig -> user_key_of algorithm blob sig <> Err SSH_OK.
Proof.
  intros Ha Hb Hs. unfold user_key_of. destruct (view_eq algorithm (Some ECDSA)).
  { apply proper_outcome; [apply proper_decode_ptr; fails|]. intros q _. by apply proper_outcome; [apply proper_ecdsa_signature|]. }
  destruct (view_eq algorithm (Some ED25519)).
  { apply proper_outcome; [apply proper_decode_ptr; fails|]. intros q _. by apply proper_outcome; [apply proper_decode_ptr; fails|]. }
  destruct (view_is_rsa_algorithm algorithm); [|done].
  apply proper_outcome; [apply proper_decode_ptr; fails|]. intros [e n] Ek.
  destruct (proj1 (proj2 (rsa_public_exact blob Hb) (e, n)) Ek) as (name & _ & [He _] & [Hn _] & _). cbn [fst snd] in *.
  apply proper_outcome; [apply proper_decode_ptr; fails|]. intros [a raw] _. cbn [fst snd].
  destruct (view_eq a (Some SSH_RSA)); [done|]. destruct (rsa_signature_psa_algorithm a); [|done].
  apply proper_outcome; [|done].
  rewrite (view_ok_eta _ He), (view_ok_eta _ Hn), rsa_der_local by (by apply view_field). by repeat case_match.
Qed.

Lemma verify_with_fails api attributes key data sig : proper_errors (verify_with api attributes key data sig).
Proof.
  assert (forall A (f : psa_state api -> A * psa_state api), proper_errors (psa api f)) as Hpsa.
  { intros A f s. unfold psa. by destruct (f s). }
  unfold verify_with. apply proper_bind; [apply Hpsa|]. intros [status k].
  apply proper_bind; [case_match; [apply Hpsa|apply proper_ret]|]. intros status2.
  apply proper_bind; [case_match; [apply proper_bind; [apply Hpsa|intros; apply proper_ret]|apply proper_ret]|]. intros _ s.
  rewrite return_status_run. case_decide; cbn; congruence.
Qed.

(** ** The entry of [ssh_crypto_api_t] *)

(** At a state of the library. *)
Definition backend_verify (api : psa_api) (s : psa_state api) : publickey_verify_fn := fun algorithm blob data sig =>
  match fst (mbedtls_publickey_verify api algorithm (Some blob) (Some data) (Some sig) s) with
  | Ret _ => SSH_OK
  | Err e => e
  | Fault => SSH_ERR_PLATFORM
  end.

Lemma backend_verify_ok api s algorithm blob data sig :
  view_ok algorithm -> Forall is_byte blob -> Forall is_byte sig ->
  backend_verify api s algorithm blob data sig = SSH_OK <->
  data <> [] /\ exists v, user_key (view_bytes algorithm) blob sig v /\ verified api v data s.
Proof.
  intros Ha Hb Hs. destruct (publickey_verify_ok api algorithm blob data sig s Ha Hb Hs) as [Hnf Hiff]. rewrite <- Hiff.
  assert (fst (mbedtls_publickey_verify api algorithm (Some blob) (Some data) (Some sig) s) <> Err SSH_OK) as Hne.
  { destruct (decide (blob <> [] /\ data <> [] /\ sig <> [])) as [(H1 & H2 & H3)|Hempty].
    - rewrite publickey_verify_run by done. pose proof (user_key_of_fails algorithm blob sig Ha Hb Hs) as Hk.
      destruct (user_key_of algorithm blob sig); [apply verify_with_fails|cbn; congruence|done].
    - unfold mbedtls_publickey_verify, null_or_empty. cbn [is_null orb default from_option].
      destruct blob; [done|]. destruct data; [done|]. destruct sig; [done|]. by destruct Hempty. }
  unfold backend_verify. destruct (fst _) as [[]|e|]; [done| |done]. split; [|done]. intros ->. done.
Qed.

(** ** Logins *)

(** C4: who may log in with a key: with this backend in the server, a decoded request of
    the public-key method that carries a signature succeeds exactly when the policy, the
    list of algorithms and the key callback accept the key, and mbedTLS verified, with
    the key in the blob, a well-formed signature over the session identifier and this
    very request. *)
Theorem publickey_login_verified api s crypto server r sid :
  server_crypto server = Some crypto -> publickey_verify crypto = Some (backend_verify api s) ->
  request_ok r -> zlen (request_bytes r) <= EMSSH_MAX_USERAUTH_PAYLOAD ->
  view_bytes (method_name r) = SSH_AUTH_METHOD_PUBLICKEY -> publickey_has_signature r = true ->
  Forall is_byte sid -> 0 < zlen sid <= EMSSH_MAX_EXCHANGE_HASH ->
  ssh_userauth_evaluate_request server r (Some sid) (zlen sid) = Ret SSH_USERAUTH_DECISION_SUCCESS <->
  key_accepts server r = true /\
  exists v, user_key (view_bytes (publickey_algorithm r)) (view_bytes (publickey_blob r)) (view_bytes (publickey_signature r)) v /\
    verified api v (signed_blob sid r) s.
Proof.
  intros Hc Hv Hr Hl Hm Hsig Hsid Hsl. rewrite evaluate_decides by done. unfold auth_decision, method_is.
  rewrite decide_False by (by rewrite Hm). rewrite decide_True by done. rewrite Hsig. cbn [negb].
  assert (server_verify server = Some (backend_verify api s)) as -> by (unfold server_verify; by rewrite Hc).
  destruct Hr as (_ & _ & _ & Hf). unfold method_fields_ok, method_is in Hf. rewrite decide_False in Hf by (by rewrite Hm).
  rewrite decide_True in Hf by done. rewrite Hsig in Hf. destruct Hf as (_ & [Ha _] & [Hb _] & Hs).
  assert (view_ok (publickey_signature r)) as Hso by apply Hs.
  destruct (key_accepts server r); cbn [negb]; [|by split; [|intros []]].
  pose proof (backend_verify_ok api s (publickey_algorithm r) (view_bytes (publickey_blob r)) (signed_blob sid r)
    (view_bytes (publickey_signature r)) Ha (view_ok_byte _ Hb) (view_ok_byte _ Hso)) as Hok.
  destruct (decide (backend_verify _ _ _ _ _ _ = SSH_OK)) as [E|E].
  - split; [|done]. intros _. split; [done|]. by apply Hok.
  - split; [done|]. intros [_ Hex]. destruct E. apply Hok. split; [|done]. unfold signed_blob. by destruct sid.
Qed.

Definition toy_login_server : auth_server :=
  mk_auth_server None (Some (fun _ => true)) None EMSSH_PERMIT_ROOT_LOGIN_DEFAULT (Some (cstr "ali*"))
    (Some (mk_crypto None None (Some (backend_verify toy_psa (empty : toy_state))))) (Some (cstr "ssh-ed25519")).

Definition toy_session_id : list Z := replicate 32 7.
Definition toy_login (sig : list Z) : ssh_userauth_request :=
  demo_request SSH_AUTH_METHOD_PUBLICKEY null_view true (view_of ED25519) (view_of toy_key_blob) (view_of sig).

Lemma toy_login_ok sig : Forall is_byte sig -> 0 < zlen sig <= UINT32_MAX -> request_ok (toy_login sig).
Proof.
  intros Hs Hl. unfold request_ok, method_fields_ok, nonempty_view. rewrite decide_False by done.
  rewrite decide_True by done. cbn [publickey_has_signature toy_login demo_request].
  assert (view_ok (view_of sig)) by (apply view_ok_of; [done|lia]).
  assert (view_ok (view_of toy_key_blob)) by (apply view_ok_of; [apply toy_key_blob_byte|by vm_compute]).
  assert (view_len (view_of sig) <> 0) by (cbn [view_len view_of]; lia).
  split_and!; first [done | solve_view_ok].
Qed.

Lemma publickey_login_verified_witness :
  exists v, user_key ED25519 toy_key_blob (toy_signature (signed_blob toy_session_id (toy_login [1]))) v /\
    verified toy_psa v (signed_blob toy_session_id (toy_login [1])) (empty : toy_state).
Proof.
  set (sig := toy_signature (signed_blob toy_session_id (toy_login [1]))).
  destruct (publickey_login_verified toy_psa (empty : toy_state) (mk_crypto None None (Some (backend_verify toy_psa (empty : toy_state))))
    toy_login_server (toy_login sig) toy_session_id) as [H _]; try done.
  - apply toy_login_ok; [apply toy_signature_byte|by vm_compute].
  - apply Forall_replicate. by unfold is_byte.
  - destruct (H ltac:(vm_compute; reflexivity)) as [_ Hv]. exact Hv.
Defined.
