(* ===== verification/MbedKdf.v ===== *)
(** * The crypto backend: the keys of a session

    [mbedtls_derive_key] gives the first bytes of the key stream of RFC 4253, 7.2. *)

From stdpp Require Import gmap.
From S2P Require Import Prelude Buffer Platform Packet Codec OpensshKey OpensshDer MbedCrypto MbedPsa.

(** ** The key stream

    K1 = HASH(K, H, X, session id), and each block after it is HASH(K, H, K1, .., Kn). *)
Definition kdf_image (k h sid : list Z) (id : Z) (previous : option (list Z)) : list Z :=
  string_bytes (mpint_bytes k) ++ h ++ match previous with None => [u8 id] ++ sid | Some blocks => blocks end.

Fixpoint kdf_stream (hash : list Z -> list Z) (k h sid : list Z) (id : Z) (n : nat) : list Z :=
  match n with
  | O => []
  | S O => hash (kdf_image k h sid id None)
  | S n => let blocks := kdf_stream hash k h sid id n in blocks ++ hash (kdf_image k h sid id (Some blocks))
  end.

(** The blocks of a key, and whether what is hashed for each fits the local array. *)
Definition kdf_blocks (len : Z) : nat := Z.to_nat ((len + 31) / 32).

Definition kdf_fits (k h sid : list Z) (len : Z) : bool :=
  let base := zlen (string_bytes (mpint_bytes k)) + zlen h in
  (base + 1 + zlen sid <=? KDF_INPUT_SIZE) && ((len <=? 32) || (base + 32 * ((len - 1) / 32) <=? KDF_INPUT_SIZE)).

Record kdf_args (k h sid : list Z) : Prop := {
  kdf_secret : Forall is_byte k /\ zlen k < UINT32_MAX;
  kdf_hash : Forall is_byte h;
  kdf_session : Forall is_byte sid
}.

Section kdf.
Context {api : psa_api} (hash : list Z -> list Z).
Hypothesis hash_computed : forall data s, fst (psa_hash_compute api PSA_ALG_SHA_256 data 32 s) = (PSA_SUCCESS, hash data).
Hypothesis hash_block : forall data, Forall is_byte (hash data) /\ zlen (hash data) = 32.
Context (k h sid : list Z) (id : Z) (args : kdf_args k h sid).

Lemma emits_kdf previous :
  Forall is_byte (default [] previous) -> emits (kdf_input k h sid id previous) (kdf_image k h sid id previous).
Proof.
  destruct args as [[Hk Hkl] Hh Hs]. intros Hp. unfold kdf_input, kdf_image.
  apply emits_bind; [by apply emits_mpint|]. apply emits_bind; [by apply emits_put_bytes|]. destruct previous as [l|].
  - by apply emits_put_bytes.
  - apply emits_bind; [|by apply emits_put_bytes]. apply emits_u8. unfold is_byte, u8. apply Z.mod_pos_bound. lia.
Qed.

Lemma hash_round_run previous s :
  Forall is_byte (default [] previous) ->
  fst (ssh_kdf_hash_round api k h sid id previous s) =
    if zlen (kdf_image k h sid id previous) <=? KDF_INPUT_SIZE then Ret (hash (kdf_image k h sid id previous))
    else Err SSH_ERR_BUFFER_OVERFLOW.
Proof.
  intros Hp. unfold ssh_kdf_hash_round. fold (room KDF_INPUT_SIZE). rewrite (encode_emitted _ _ KDF_INPUT_SIZE (emits_kdf previous Hp)) by done.
  destruct (_ <=? _); [|done]. set (image := kdf_image _ _ _ _ _). unfold of_result, psa, mbind, prog_bind.
  pose proof (hash_computed image s) as Hc. destruct (psa_hash_compute _ _ _ _ s) as [[status out] s']. cbn [fst] in Hc. injection Hc as -> ->.
  by rewrite (proj2 (hash_block image)).
Qed.

Abbreviation stream := (kdf_stream hash k h sid id).
Definition block (n : nat) : list Z := hash (kdf_image k h sid id (match n with O => None | _ => Some (stream n) end)).

Lemma stream_S n : stream (S n) = stream n ++ block n.
Proof. by destruct n. Qed.

Lemma stream_bytes n : Forall is_byte (stream n) /\ zlen (stream n) = 32 * Z.of_nat n.
Proof.
  induction n as [|n [IHb IHl]]; [done|]. rewrite stream_S, zlen_app, IHl. unfold block. split.
  - apply Forall_app. split; [done|]. by apply hash_block.
  - rewrite (proj2 (hash_block _)). lia.
Qed.

Lemma block_read n take : 0 <= take <= 32 -> mem_read (block n) 0 take = Some (ztake take (block n)).
Proof.
  intros Ht. destruct (zsplit (block n) take) as (a & b & E & Ha); [unfold block; rewrite (proj2 (hash_block _)); lia|].
  rewrite E. rewrite <- Ha. pose proof (mem_read_app [] a b) as H. cbn [app] in H. change (zlen (@nil Z)) with 0 in H. by rewrite H, ztake_app.
Qed.

(** The last bytes. *)
Lemma stream_last n len :
  32 * Z.of_nat n < len <= 32 * Z.of_nat n + 32 ->
  stream n ++ ztake (len - 32 * Z.of_nat n) (block n) = ztake len (stream (kdf_blocks len)).
Proof.
  intros Hl. assert (kdf_blocks len = S n) as ->.
  { unfold kdf_blocks. assert ((len + 31) / 32 = Z.of_nat n + 1) as -> by (Z.to_euclidean_division_equations; lia). lia. }
  rewrite stream_S. destruct (stream_bytes n) as [_ Hn].
  destruct (zsplit (block n) (len - 32 * Z.of_nat n)) as (a & b & E & Ha); [unfold block; rewrite (proj2 (hash_block _)); lia|].
  rewrite E, app_assoc. replace len with (zlen (stream n ++ a)) at 2 by (rewrite zlen_app; lia).
  rewrite ztake_app. rewrite <- Ha at 1. by rewrite ztake_app.
Qed.

Lemma derive_loop_run fuel n len s :
  32 * Z.of_nat n < len -> len - 32 * Z.of_nat n <= Z.of_nat fuel ->
  fst (derive_loop api fuel k h sid id len (stream n) (block n) s) =
    if (len <=? 32 * Z.of_nat n + 32) || (zlen (string_bytes (mpint_bytes k)) + zlen h + 32 * ((len - 1) / 32) <=? KDF_INPUT_SIZE)
    then Ret (ztake len (stream (kdf_blocks len))) else Err SSH_ERR_BUFFER_OVERFLOW.
Proof.
  revert n s. induction fuel as [|fuel IH]; intros n s Hn Hf; [lia|]. cbn [derive_loop]. destruct (stream_bytes n) as [Hnb Hnl]. rewrite Hnl.
  replace (_ <? len) with true by lia. destruct (len - 32 * Z.of_nat n >? 32) eqn:Et.
  - replace (len <=? 32 * Z.of_nat n + 32) with false by lia. cbn [orb]. rewrite block_read by lia.
    assert (ztake 32 (block n) = block n) as ->.
    { pose proof (ztake_app (block n) []) as H. rewrite app_nil_r in H. unfold block in H at 1. by rewrite (proj2 (hash_block _)) in H. }
    rewrite <- stream_S. destruct (stream_bytes (S n)) as [Hsb Hsl]. rewrite Hsl. replace (32 * Z.of_nat (S n) <? len) with true by (symmetry; apply Z.ltb_lt; lia).
    unfold mbind at 1, prog_bind. pose proof (hash_round_run (Some (stream (S n))) s Hsb) as Hr.
    destruct (ssh_kdf_hash_round _ _ _ _ _ _ s) as [r s1]. cbn [fst] in Hr. subst r.
    assert (zlen (kdf_image k h sid id (Some (stream (S n)))) = zlen (string_bytes (mpint_bytes k)) + zlen h + 32 * (Z.of_nat n + 1)) as Hi
      by (unfold kdf_image; rewrite !zlen_app, Hsl; lia). rewrite Hi.
    assert (Z.of_nat n + 1 <= (len - 1) / 32) by (Z.to_euclidean_division_equations; lia).
    destruct (zlen (string_bytes (mpint_bytes k)) + zlen h + 32 * (Z.of_nat n + 1) <=? KDF_INPUT_SIZE) eqn:E1.
    + change (hash (kdf_image k h sid id (Some (stream (S n))))) with (block (S n)). rewrite IH by lia.
      rewrite Nat2Z.inj_succ. unfold Z.succ. destruct (len <=? 32 * (Z.of_nat n + 1) + 32) eqn:E2; [|done]. cbn [orb].
      assert ((len - 1) / 32 = Z.of_nat n + 1) as -> by (Z.to_euclidean_division_equations; lia). by rewrite E1.
    + replace (zlen (string_bytes (mpint_bytes k)) + zlen h + 32 * ((len - 1) / 32) <=? KDF_INPUT_SIZE) with false by lia. done.
  - replace (len <=? 32 * Z.of_nat n + 32) with true by lia. cbn [orb]. rewrite block_read by lia.
    rewrite stream_last by lia. destruct (stream_bytes (kdf_blocks len)) as [_ Hbl].
    assert (zlen (ztake len (stream (kdf_blocks len))) = len) as ->.
    { rewrite zlen_ztake by lia. rewrite Hbl. unfold kdf_blocks. rewrite Z2Nat.id by (Z.to_euclidean_division_equations; lia).
      Z.to_euclidean_division_equations; lia. }
    by rewrite Z.ltb_irrefl.
Qed.

Lemma derive_key_run algorithm len s :
  view_eq algorithm (Some CURVE25519) = true -> 0 < len ->
  fst (mbedtls_derive_key api algorithm (Some k) (Some h) (Some sid) id len s) =
    if kdf_fits k h sid len then Ret (ztake len (stream (kdf_blocks len))) else Err SSH_ERR_BUFFER_OVERFLOW.
Proof.
  intros Ha Hl. unfold mbedtls_derive_key. rewrite Ha. replace (len =? 0) with false by lia. cbn [negb is_null orb default from_option].
  rewrite (bind_ret _ _ _ tt s) by done. unfold mbind at 1, prog_bind. pose proof (hash_round_run None s ltac:(done)) as Hr.
  destruct (ssh_kdf_hash_round _ _ _ _ _ None s) as [r s1]. cbn [fst] in Hr. subst r. unfold kdf_fits.
  assert (zlen (kdf_image k h sid id None) = zlen (string_bytes (mpint_bytes k)) + zlen h + 1 + zlen sid) as ->
    by (unfold kdf_image; rewrite !zlen_app; change (zlen [u8 id]) with 1; lia).
  destruct (_ <=? KDF_INPUT_SIZE); [|done]. cbn [andb]. change (hash (kdf_image k h sid id None)) with (block 0).
  change (@nil Z) with (stream 0). rewrite derive_loop_run by lia. done.
Qed.
End kdf.

(** What the key exchange hands over, and the keys it asks for, always fit. *)
Lemma kdf_fits_bounds k h sid len :
  kdf_args k h sid -> zlen k <= EMSSH_MAX_KEX_SHARED_SECRET -> zlen h <= EMSSH_MAX_EXCHANGE_HASH ->
  zlen sid <= EMSSH_MAX_EXCHANGE_HASH -> len <= 320 -> kdf_fits k h sid len = true.
Proof.
  intros [[Hk Hkl] _ _] Hk2 Hh Hs Hl. unfold kdf_fits, KDF_INPUT_SIZE, EMSSH_MAX_KEX_SHARED_SECRET, EMSSH_MAX_EXCHANGE_HASH in *.
  rewrite zlen_string_bytes. pose proof (zlen_mpint k) as Hm.
  apply andb_true_iff. split; [lia|]. apply orb_true_iff. right. assert ((len - 1) / 32 <= 9) by (Z.to_euclidean_division_equations; lia). lia.
Qed.

(** C27: the keys of a session are those of RFC 4253: with a hash that gives 32 bytes,
    [mbedtls_derive_key] returns the first bytes of the stream K1, K2, .. of the shared
    secret, the exchange hash, the session identifier and the letter, exactly as many as
    there is room for; it fails just when what a block hashes does not fit the local
    array, and within the limits of the key exchange it always does, up to 320 bytes. *)
Theorem derive_key_exact (api : psa_api) (hash : list Z -> list Z) k h sid letter algorithm len s :
  (forall data s, fst (psa_hash_compute api PSA_ALG_SHA_256 data 32 s) = (PSA_SUCCESS, hash data)) ->
  (forall data, Forall is_byte (hash data) /\ zlen (hash data) = 32) ->
  kdf_args k h sid -> view_eq algorithm (Some CURVE25519) = true -> 0 < len ->
  fst (mbedtls_derive_key api algorithm (Some k) (Some h) (Some sid) letter len s) =
    (if kdf_fits k h sid len then Ret (ztake len (kdf_stream hash k h sid letter (kdf_blocks len))) else Err SSH_ERR_BUFFER_OVERFLOW) /\
  (zlen k <= EMSSH_MAX_KEX_SHARED_SECRET -> zlen h <= EMSSH_MAX_EXCHANGE_HASH -> zlen sid <= EMSSH_MAX_EXCHANGE_HASH ->
   len <= 320 -> kdf_fits k h sid len = true).
Proof. intros Hc Hb Ha Hal Hl. split; [by apply derive_key_run|by apply kdf_fits_bounds]. Qed.

Definition toy_hash (data : list Z) : list Z := toy_bytes 32 (toy_sum data).

(** A key of 40 bytes with the small library: two blocks, the second cut. *)
Lemma derive_key_exact_witness :
  fst (mbedtls_derive_key toy_psa (view_of CURVE25519) (Some [200; 7]) (Some [1; 2; 3]) (Some [1; 2; 3]) 65 40 (empty : toy_state)) =
    Ret (toy_bytes 32 (toy_sum [0; 0; 0; 3; 0; 200; 7; 1; 2; 3; 65; 1; 2; 3]) ++
         toy_bytes 8 (toy_sum ([0; 0; 0; 3; 0; 200; 7; 1; 2; 3] ++ toy_bytes 32 (toy_sum [0; 0; 0; 3; 0; 200; 7; 1; 2; 3; 65; 1; 2; 3])))).
Proof.
  destruct (derive_key_exact toy_psa toy_hash [200; 7] [1; 2; 3] [1; 2; 3] 65 (view_of CURVE25519) 40 (empty : toy_state)) as [-> _].
  - by intros data s.
  - intros data. split; [apply toy_bytes_byte|]. by unfold toy_hash, toy_bytes, zlen; rewrite length_replicate.
  - split; [split; [|done]|..]; repeat constructor; lia.
  - by vm_compute.
  - done.
  - by vm_compute.
Defined.
