(* ===== verification/MbedBlobs.v ===== *)
(** * The crypto backend: the blobs it writes

    The public key of mbedTLS, in DER for RSA, and the signatures become the blobs of SSH:
    whatever the library stored, nothing is read or written outside of an array. *)

From stdpp Require Import gmap.
From S2P Require Import Prelude Buffer Platform Packet Codec OpensshKey OpensshText OpensshPem OpensshDer OpensshRead OpensshConvert.
From S2P Require Import MbedCrypto MbedPsa MbedVerify.

(** ** The key of the library in DER *)

(** A field of DER: bytes inside the encoding, or a length that is not that of any. *)
Definition der_field (v : ssh_string_view) : Prop := view_ok v \/ UINT32_MAX < view_len v.

Lemma mem_read_inside (l : list Z) off n : 0 <= off -> 0 <= n -> off + n <= zlen l -> mem_read l off n = Some (ztake n (zdrop off l)).
Proof.
  intros Ho Hn Hl. destruct (zsplit l off) as (a & r & -> & Ha); [lia|]. rewrite zlen_app in Hl.
  destruct (zsplit r n) as (b & c & -> & Hb); [lia|]. rewrite <- Ha, <- Hb, mem_read_app, zdrop_app. by rewrite ztake_app.
Qed.

Lemma mem_write_inside (l : list Z) off bs :
  0 <= off -> off + zlen bs <= zlen l -> exists l', mem_write l off bs = Some l' /\ zlen l' = zlen l.
Proof.
  intros Ho Hl. pose proof (zlen_nonneg bs). unfold mem_write. replace (off <? 0) with false by lia. cbv zeta.
  rewrite zlen_ztake, zlen_zdrop by lia. replace (_ =? _) with true by lia. eexists. split; [done|].
  rewrite !zlen_app, zlen_ztake, zlen_zdrop by lia. lia.
Qed.

Lemma mem_read_byte (l : list Z) off : Forall is_byte l -> 0 <= off < zlen l -> exists b, mem_read l off 1 = Some [b] /\ is_byte b.
Proof.
  intros Hl Ho. destruct (zsplit l off) as (a & r & -> & Ha); [lia|]. rewrite zlen_app in Ho. destruct r as [|b r]; [change (zlen (@nil Z)) with 0 in Ho; lia|].
  exists b. apply Forall_app in Hl as [_ Hl]. apply Forall_cons_1 in Hl as [Hb _]. split; [|done].
  rewrite <- Ha. exact (mem_read_app a [b] r).
Qed.

Lemma der_value_range_from bytes acc :
  Forall is_byte bytes -> 0 <= acc < 2 ^ 64 -> 0 <= fold_left (fun value b => Z.lor (u64 (Z.shiftl value 8)) b) bytes acc < 2 ^ 64.
Proof.
  intros Hb. revert acc. induction Hb as [|b bytes Hby Hb IH]; intros acc Hacc; cbn [fold_left]; [done|]. apply IH.
  unfold u64. rewrite Z.shiftl_mul_pow2 by lia. replace (2 ^ 64) with (2 ^ 56 * 2 ^ 8) by done. rewrite Z.mul_mod_distr_r by lia.
  rewrite <- Z.shiftl_mul_pow2, lor_shiftl_add by (unfold is_byte in Hby; lia). unfold is_byte in Hby.
  pose proof (Z.mod_pos_bound acc (2 ^ 56) ltac:(lia)). change (2 ^ 8) with 256 in *. lia.
Qed.

Lemma der_value_range bytes : Forall is_byte bytes -> 0 <= der_value bytes < 2 ^ 64.
Proof. intros Hb. by apply der_value_range_from. Qed.

(** A length is read inside the encoding; when it does not wrap around, what it counts is
    inside as well. *)
Lemma der_get_length_inside der der_len offset :
  Forall is_byte der -> 0 <= offset -> der_len <= zlen der -> zlen der < 2 ^ 32 ->
  match der_get_length der der_len offset with
  | Ret (offset', len) => offset < offset' <= der_len /\ 0 <= len < 2 ^ 64 /\ u64 (offset' + len) <= der_len
  | Err _ => True
  | Fault => False
  end.
Proof.
  intros Hd Ho Hl Hz. unfold der_get_length. destruct (offset >=? der_len) eqn:E; [done|].
  destruct (mem_read_byte der offset Hd ltac:(lia)) as (b & -> & Hb). unfold is_byte in Hb.
  destruct (Z.land b 128 =? 0).
  - destruct (u64 (offset + 1 + b) <=? der_len) eqn:E1; [|done]. lia.
  - set (count := Z.land b 127). destruct ((count =? 0) || (count >? 8) || (count >? der_len - (offset + 1))) eqn:Ec; [done|].
    assert (0 <= count) as Hc0 by (apply Z.land_nonneg; lia).
    rewrite mem_read_inside by lia. destruct (u64 _ <=? der_len) eqn:E2; [|done].
    split; [lia|]. split; [|lia]. apply der_value_range, Forall_take, Forall_drop, Hd.
Qed.

Lemma der_get_integer_inside der der_len offset :
  Forall is_byte der -> 0 <= offset -> der_len <= zlen der -> zlen der < 2 ^ 32 ->
  match der_get_integer_view der der_len offset with
  | Ret (offset', v) => 0 <= offset' <= der_len /\ der_field v
  | Err _ => True
  | Fault => False
  end.
Proof.
  intros Hd Ho Hl Hz. unfold der_get_integer_view. destruct (offset >=? der_len) eqn:E; [done|].
  destruct (mem_read_byte der offset Hd ltac:(lia)) as (b & -> & Hb). destruct (negb (b =? 2)); [done|].
  pose proof (der_get_length_inside der der_len (offset + 1) Hd ltac:(lia) Hl Hz) as H.
  destruct (der_get_length der der_len (offset + 1)) as [[o len]|e|]; [|done|done]. destruct H as (Ho' & Hlen & Hu).
  destruct (len =? 0) eqn:E0; [done|]. split; [split; [unfold u64; apply Z.mod_pos_bound; lia|done]|].
  unfold der_field. destruct (Z_le_gt_dec (o + len) der_len) as [Hin|Hout].
  - left. exists (ztake len (zdrop o der)). assert (zlen (ztake len (zdrop o der)) = len) as Hzl by (rewrite zlen_ztake, zlen_zdrop by lia; lia).
    split; [unfold view_of; by rewrite Hzl|]. split; [by apply Forall_take, Forall_drop|]. unfold UINT32_MAX. lia.
  - right. cbn [view_len]. destruct (Z_lt_le_dec (o + len) (2 ^ 64)) as [Hs|Hs]; [|unfold UINT32_MAX; lia].
    unfold u64 in Hu. rewrite Z.mod_small in Hu by lia. lia.
Qed.

Lemma rsa_integers_inside der :
  Forall is_byte der -> zlen der < 2 ^ 32 ->
  match rsa_public_der_integers (Some der) with
  | Ret (n, e) => der_field n /\ der_field e
  | Err _ => True
  | Fault => False
  end.
Proof.
  intros Hd Hz. unfold rsa_public_der_integers. destruct der as [|tag rest] eqn:Eder; [done|]. rewrite <- Eder in *. clear Eder.
  destruct (negb (tag =? 48)); [done|].
  pose proof (der_get_length_inside der (zlen der) 1 Hd ltac:(lia) ltac:(lia) Hz) as H1.
  destruct (der_get_length der (zlen der) 1) as [[o len]|e|]; cbn [mbind outcome_bind]; [|done|done]. destruct H1 as (Ho & Hlen & Hu).
  set (last := u64 (o + len)) in *. destruct (last >? zlen der) eqn:El; [done|].
  pose proof (der_get_integer_inside der last o Hd ltac:(lia) ltac:(lia) Hz) as H2.
  destruct (der_get_integer_view der last o) as [[o1 n]|e|]; cbn [mbind outcome_bind]; [|done|done]. destruct H2 as [Ho1 Hn].
  pose proof (der_get_integer_inside der last o1 Hd ltac:(lia) ltac:(lia) Hz) as H3.
  destruct (der_get_integer_view der last o1) as [[o2 e]|err|]; cbn [mbind outcome_bind]; [|done|done]. destruct H3 as [Ho2 He].
  by destruct (negb _).
Qed.

(** ** Writers that may fail

    A writer that keeps the shape of the buffer, whatever it reports. *)
Definition writes_safely (p : BufM unit) : Prop := forall w u f cap, room_ok w u f cap ->
  match p (Some (Bf w u f cap)) with
  | (Ret _, st) => exists u' f', st = Some (Bf w u' f' cap) /\ room_ok w u' f' cap
  | (Err _, _) => True
  | (Fault, _) => False
  end.

Lemma safely_emits p bs : emits p bs -> writes_safely p.
Proof.
  intros Hp w u f cap Hr. destruct (Z_le_gt_dec (zlen w + zlen u + zlen bs) cap) as [Hf|Ho].
  - rewrite (emits_fits _ _ Hp) by done. eexists _, _. split; [done|]. unfold room_ok in *. pose proof (zlen_nonneg bs).
    rewrite zlen_app, zlen_zdrop by lia. lia.
  - by destruct (emits_overflow _ _ Hp w u f cap Hr ltac:(lia)) as (k & _ & _ & ->).
Qed.

Lemma safely_bind p q : writes_safely p -> writes_safely q -> writes_safely (p;; q).
Proof.
  intros Hp Hq w u f cap Hr. specialize (Hp w u f cap Hr). unfold mbind, prog_bind.
  destruct (p _) as [[[]|e|] st]; [|done|done]. destruct Hp as (u' & f' & -> & Hr'). by apply Hq.
Qed.

Lemma safely_fail e : writes_safely (fail e).
Proof. done. Qed.

Lemma safely_result {A} (o : outcome A) (k : A -> BufM unit) :
  o <> Fault -> (forall a, o = Ret a -> writes_safely (k a)) -> writes_safely (x ← of_result o; k x).
Proof. intros Ho Hk. destruct o; [by apply Hk|done|done]. Qed.

Lemma safely_reject c e p : (c = false -> writes_safely p) -> writes_safely (reject c e;; p).
Proof. destruct c; [done|]. intros Hp. by apply Hp. Qed.

Lemma safely_string l : Forall is_byte l -> writes_safely (ssh_buffer_put_string (Some l) (zlen l)).
Proof.
  intros Hl. apply safely_reject. intros Hu. apply safely_bind; eapply safely_emits; [apply emits_u32|by apply emits_put_bytes].
Qed.

Lemma safely_cstring l : Forall is_byte l -> writes_safely (ssh_buffer_put_cstring (Some l)).
Proof. apply safely_string. Qed.

Lemma safely_field v : der_field v -> writes_safely (ssh_buffer_put_string (view_data v) (view_len v)).
Proof.
  intros [Hv|Hv]; [eapply safely_emits, emits_view, Hv|]. apply safely_reject. intros E. lia.
Qed.

Lemma encode_safely p capacity : writes_safely p -> 0 <= capacity -> encode_into p (room capacity) capacity <> Fault.
Proof.
  intros Hp Hc. unfold encode_into, ssh_buffer_init, uninit_buffer. change (mk_ssh_buffer (Some (room capacity)) capacity 0 0) with (Bf [] [] (room capacity) capacity).
  assert (room_ok [] [] (room capacity) capacity) as Hr.
  { unfold room_ok, room. change (zlen (@nil Z)) with 0. unfold zlen. rewrite length_replicate. lia. }
  specialize (Hp [] [] (room capacity) capacity Hr). destruct (p _) as [[[]|e|] st]; [|done|done]. by destruct Hp as (u & f & -> & _).
Qed.

(** ** The blobs of the host key and of its signatures *)
Lemma safely_rsa_blob raw : Forall is_byte raw -> zlen raw < 2 ^ 32 -> writes_safely (rsa_public_der_to_ssh_blob (Some raw)).
Proof.
  intros Hr Hl. pose proof (rsa_integers_inside raw Hr Hl) as H. unfold rsa_public_der_to_ssh_blob.
  apply safely_result; [by destruct (rsa_public_der_integers _)|]. intros [n e] E. rewrite E in H. destruct H as [Hn He].
  apply safely_bind; [apply safely_cstring; by apply field_ascii|]. apply safely_bind; by apply safely_field.
Qed.

Lemma safely_hostkey_blob algorithm raw :
  Forall is_byte raw -> zlen raw < 2 ^ 32 -> writes_safely (hostkey_blob algorithm raw).
Proof.
  intros Hr Hl. unfold hostkey_blob. destruct (view_eq _ (Some ED25519)).
  { apply safely_bind; [apply safely_cstring, ED25519_ok|by apply safely_string]. }
  destruct (view_eq _ (Some ECDSA)).
  { apply safely_bind; [apply safely_cstring, ECDSA_ok|]. apply safely_bind; [apply safely_cstring, NISTP256_ok|by apply safely_string]. }
  destruct (_ || _); [by apply safely_rsa_blob|apply safely_fail].
Qed.

(** The two numbers of a signature, as mpints. *)
Definition ecdsa_inner (raw : list Z) : list Z := string_bytes (mpint_bytes (ztake 32 raw)) ++ string_bytes (mpint_bytes (zdrop 32 raw)).

Lemma ecdsa_inner_encoded raw :
  Forall is_byte raw -> zlen raw = 64 ->
  encode_into (ssh_buffer_put_mpint_positive (Some (ztake 32 raw)) 32;; ssh_buffer_put_mpint_positive (Some (zdrop 32 raw)) 32)
    (replicate 160 0) 160 = Ret (ecdsa_inner raw) /\ Forall is_byte (ecdsa_inner raw).
Proof.
  intros Hr Hl. assert (zlen (ztake 32 raw) = 32) as Ha by (rewrite zlen_ztake by lia; lia).
  assert (zlen (zdrop 32 raw) = 32) as Hb by (rewrite zlen_zdrop by lia; lia).
  assert (emits (ssh_buffer_put_mpint_positive (Some (ztake 32 raw)) 32;; ssh_buffer_put_mpint_positive (Some (zdrop 32 raw)) 32) (ecdsa_inner raw)) as He.
  { apply emits_bind.
    - rewrite <- Ha at 2. apply emits_mpint; [by apply Forall_take|by rewrite Ha].
    - rewrite <- Hb at 2. apply emits_mpint; [by apply Forall_drop|by rewrite Hb]. }
  split; [|apply (emits_bytes _ _ He)]. change (replicate 160 0) with (room 160). rewrite (encode_emitted _ _ 160 He) by done.
  pose proof (zlen_mpint (ztake 32 raw)). pose proof (zlen_mpint (zdrop 32 raw)).
  assert (zlen (ecdsa_inner raw) <= 160) as Hi by (unfold ecdsa_inner; rewrite zlen_app, !zlen_string_bytes; lia).
  by rewrite (proj2 (Z.leb_le _ _) Hi).
Qed.

Lemma safely_ecdsa_signature raw : Forall is_byte raw -> writes_safely (put_ssh_ecdsa_signature_blob raw).
Proof.
  intros Hr w u f cap Hroom. unfold put_ssh_ecdsa_signature_blob. cbn [is_null orb]. destruct (zlen raw =? 64) eqn:E; [|done].
  rewrite (bind_ret _ _ _ tt (Some (Bf w u f cap))) by done. destruct (ecdsa_inner_encoded raw Hr ltac:(lia)) as [-> Hb].
  unfold of_result. unfold mbind at 1, prog_bind. by apply safely_string.
Qed.

Lemma safely_signature algorithm alg blob raw :
  view_ok algorithm -> sign_algorithm algorithm = Some (alg, blob) -> Forall is_byte raw -> writes_safely (blob raw).
Proof.
  intros Ha Hs Hr. unfold sign_algorithm in Hs. destruct (view_eq _ (Some ED25519)).
  { injection Hs as <- <-. apply safely_bind; [apply safely_cstring, ED25519_ok|by apply safely_string]. }
  destruct (view_eq _ (Some ECDSA)).
  { injection Hs as <- <-. apply safely_bind; [apply safely_cstring, ECDSA_ok|by apply safely_ecdsa_signature]. }
  destruct (_ || _); [|done]. destruct (rsa_signature_psa_algorithm algorithm); [|done]. injection Hs as <- <-.
  apply safely_bind; [eapply safely_emits, emits_view, Ha|by apply safely_string].
Qed.

(** *** The round trip of a signature

    What was written around a raw signature of 64 bytes is what the verification reads
    from it. *)
Lemma ecdsa_scalars raw :
  Forall is_byte raw -> zlen raw = 64 -> scalar (mpint_bytes (ztake 32 raw)) ++ scalar (mpint_bytes (zdrop 32 raw)) = raw.
Proof.
  intros Hr Hl. unfold scalar. rewrite !mpint_bytes_value.
  assert (forall l, Forall is_byte l -> zlen l = 32 -> be_bytes 32 (be_value l) = l) as Hs.
  { intros l Hb Hz. replace 32%nat with (length l) by (unfold zlen in Hz; lia). by apply be_bytes_value. }
  rewrite !Hs; [apply take_drop|by apply Forall_drop| |by apply Forall_take|].
  - rewrite zlen_zdrop by lia. lia.
  - rewrite zlen_ztake by lia. lia.
Qed.

Lemma mpint_field l : Forall is_byte l -> zlen l = 32 -> field_ok (mpint_bytes l) /\ be_value (mpint_bytes l) < 256 ^ 32.
Proof.
  intros Hb Hz. pose proof (zlen_mpint l). split; [split; [|unfold UINT32_MAX; lia]|].
  - pose proof (strip_zeros_byte l Hb) as Hs. unfold mpint_bytes. destruct (strip_zeros l); [done|]. case_bool; [done|].
    by apply Forall_cons_2; [unfold is_byte|].
  - rewrite mpint_bytes_value, <- Hz. by apply be_value_bound.
Qed.

Definition ecdsa_blob (raw : list Z) : list Z := string_bytes ECDSA ++ string_bytes (ecdsa_inner raw).

Lemma zlen_ecdsa_inner raw : zlen raw = 64 -> zlen (ecdsa_inner raw) <= 74.
Proof.
  intros Hl. pose proof (zlen_mpint (ztake 32 raw)) as H1. pose proof (zlen_mpint (zdrop 32 raw)) as H2.
  unfold ecdsa_inner. rewrite zlen_app, !zlen_string_bytes. rewrite zlen_ztake in H1 by lia. rewrite zlen_zdrop in H2 by lia. lia.
Qed.

Lemma ecdsa_blob_encoded raw :
  Forall is_byte raw -> zlen raw = 64 ->
  encode_into (ssh_buffer_put_cstring (Some ECDSA);; put_ssh_ecdsa_signature_blob raw) (room EMSSH_MAX_SIGNATURE) EMSSH_MAX_SIGNATURE =
    Ret (ecdsa_blob raw).
Proof.
  intros Hr Hl. destruct (ecdsa_inner_encoded raw Hr Hl) as [Hin Hib]. pose proof (zlen_ecdsa_inner raw Hl) as Hil.
  assert (emits (ssh_buffer_put_cstring (Some ECDSA);; ssh_buffer_put_string (Some (ecdsa_inner raw)) (zlen (ecdsa_inner raw))) (ecdsa_blob raw)) as He.
  { apply emits_bind; [apply emits_cstring; [apply ECDSA_ok|by vm_compute]|]. apply emits_string; [done|unfold UINT32_MAX; lia]. }
  assert (zlen (ecdsa_blob raw) <= EMSSH_MAX_SIGNATURE) as Hbl.
  { unfold ecdsa_blob. rewrite zlen_app, !zlen_string_bytes. change (zlen ECDSA) with 19. unfold EMSSH_MAX_SIGNATURE. lia. }
  assert (encode_into (ssh_buffer_put_cstring (Some ECDSA);; put_ssh_ecdsa_signature_blob raw) (room EMSSH_MAX_SIGNATURE) EMSSH_MAX_SIGNATURE =
    encode_into (ssh_buffer_put_cstring (Some ECDSA);; ssh_buffer_put_string (Some (ecdsa_inner raw)) (zlen (ecdsa_inner raw)))
      (room EMSSH_MAX_SIGNATURE) EMSSH_MAX_SIGNATURE) as ->.
  2: { rewrite (encode_emitted _ _ _ He) by done. by rewrite (proj2 (Z.leb_le _ _) Hbl). }
  unfold encode_into. set (st := ssh_buffer_init _ _ _). unfold mbind, prog_bind.
  pose proof (safely_cstring ECDSA (proj1 ECDSA_ok) [] [] (room EMSSH_MAX_SIGNATURE) EMSSH_MAX_SIGNATURE) as Hc.
  change (Some (Bf [] [] (room EMSSH_MAX_SIGNATURE) EMSSH_MAX_SIGNATURE)) with st in Hc.
  destruct (ssh_buffer_put_cstring (Some ECDSA) st) as [[[]|e|] st']; [|done|done].
  destruct Hc as (u & f & -> & _); [by unfold room_ok; vm_compute|]. unfold put_ssh_ecdsa_signature_blob. cbn [is_null orb].
  rewrite Hl. rewrite (bind_ret _ _ _ tt (Some (Bf [] u f EMSSH_MAX_SIGNATURE))) by done. by rewrite Hin.
Qed.

(** C29: an ECDSA signature survives its encoding: for every 64 bytes that the library
    signs with, the blob that the server sends fits the array for a signature, and the
    decoder of the verification gets the same 64 bytes back from it, leading zeros of the
    two numbers and bits that would make them negative included; [ecdsa_blob] is that blob. *)
Theorem ecdsa_signature_roundtrip raw :
  Forall is_byte raw -> zlen raw = 64 ->
  encode_into (ssh_buffer_put_cstring (Some ECDSA);; put_ssh_ecdsa_signature_blob raw) (room EMSSH_MAX_SIGNATURE) EMSSH_MAX_SIGNATURE =
    Ret (ecdsa_blob raw) /\
  decode_ecdsa_p256_signature_blob (Some (ecdsa_blob raw)) = Ret raw.
Proof.
  intros Hr Hl. destruct (ecdsa_inner_encoded raw Hr Hl) as [_ Hib]. pose proof (zlen_ecdsa_inner raw Hl) as Hil.
  split; [by apply ecdsa_blob_encoded|]. destruct (ecdsa_signature_exact (ecdsa_blob raw)) as [_ Hex].
  { apply Forall_app. split; apply string_bytes_byte; [apply ECDSA_ok|done]. }
  apply Hex. exists (mpint_bytes (ztake 32 raw)), (mpint_bytes (zdrop 32 raw)).
  destruct (mpint_field (ztake 32 raw)) as [F1 V1]; [by apply Forall_take|rewrite zlen_ztake by lia; lia|].
  destruct (mpint_field (zdrop 32 raw)) as [F2 V2]; [by apply Forall_drop|rewrite zlen_zdrop by lia; lia|].
  split; [exact F1|]. split; [exact F2|]. split; [unfold ecdsa_inner in Hil; unfold UINT32_MAX; lia|].
  split; [exact V1|]. split; [exact V2|]. split; [done|]. by rewrite ecdsa_scalars.
Qed.

(** Leading zeros in the first number, the sign bit in the second. *)
Lemma ecdsa_signature_roundtrip_witness :
  let raw := [0; 1] ++ replicate 62 200 in
  encode_into (ssh_buffer_put_cstring (Some ECDSA);; put_ssh_ecdsa_signature_blob raw) (room EMSSH_MAX_SIGNATURE) EMSSH_MAX_SIGNATURE =
    Ret (ecdsa_blob raw) /\
  decode_ecdsa_p256_signature_blob (Some (ecdsa_blob raw)) = Ret raw.
Proof.
  apply (ecdsa_signature_roundtrip ([0; 1] ++ replicate 62 200)); [|by vm_compute].
  repeat constructor; lia.
Defined.
