(* ===== verification/MbedKeys.v ===== *)
(** * The crypto backend: the life of keys

    Whatever the operations of the backend are called with, in whatever order, the only
    key of mbedTLS that is alive behind them is the host key the context owns, and no
    operation reads or writes outside of an array. *)

From stdpp Require Import gmap.
From S2P Require Import Prelude Buffer Platform Packet Codec OpensshKey OpensshText OpensshPem OpensshDer OpensshRead OpensshConvert.
From S2P Require Import MbedCrypto MbedPsa MbedVerify MbedBlobs MbedKdf.

Section keys.
Context {api : psa_api} `{!PsaKeys api}.

(** ** Operations on the library alone

    [neutral p R]: the keys are the same in the end, and [R] holds of the result;
    [quiet p R] if [p] cannot fail either. *)
Definition quiet {A} (p : Prog (psa_state api) A) (R : A -> Prop) : Prop :=
  forall L0 L, leaves held L0 L p (fun a L' => L' = L /\ R a).
Definition neutral {A} (p : Prog (psa_state api) A) (R : A -> Prop) : Prop :=
  forall L, leaves held L L p (fun a L' => L' = L /\ R a).

Lemma quiet_neutral {A} (p : Prog (psa_state api) A) R : quiet p R -> neutral p R.
Proof. intros Hp L. apply Hp. Qed.

Lemma quiet_bind {A B} (p : Prog (psa_state api) A) (k : A -> Prog (psa_state api) B) R Q :
  quiet p R -> (forall a, R a -> quiet (k a) Q) -> quiet (x ← p; k x) Q.
Proof. intros Hp Hk L0 L. eapply leaves_bind; [apply Hp|]. intros a L' [-> Ha]. by apply Hk. Qed.

(** What is known of the result does not matter. *)
Lemma quiet_any {A} (p : Prog (psa_state api) A) (R : A -> Prop) L0 L : quiet p R -> leaves held L0 L p (fun _ L' => L' = L /\ True).
Proof. intros Hp. eapply leaves_conseq; [apply Hp|]. by intros a L' [-> _]. Qed.

Lemma neutral_bind {A B} (p : Prog (psa_state api) A) (k : A -> Prog (psa_state api) B) R Q :
  neutral p R -> (forall a, R a -> neutral (k a) Q) -> neutral (x ← p; k x) Q.
Proof. intros Hp Hk L. eapply leaves_bind; [apply Hp|]. intros a L' [-> Ha]. by apply Hk. Qed.

Lemma quiet_ret {A} (a : A) (R : A -> Prop) : R a -> quiet (mret a) R.
Proof. intros Ha L0 L. by apply leaves_ret. Qed.

Lemma quiet_psa {A} (f : psa_state api -> A * psa_state api) : keeps_keys live stuck f -> quiet (psa api f) (fun _ => True).
Proof. intros Hf L0 L. eapply leaves_conseq; [by apply leaves_psa|]. by intros a L' ->. Qed.

Lemma quiet_stored capacity (f : psa_state api -> Z * list Z * psa_state api) :
  keeps_keys live stuck f /\ stores capacity f -> quiet (psa api f) (fun r => fst r = PSA_SUCCESS -> psa_stored capacity (snd r)).
Proof. intros [Hf Hs] L0 L. by apply leaves_stored. Qed.

Lemma neutral_fail {A} e (R : A -> Prop) : neutral (fail e) R.
Proof. intros L. apply leaves_fail. Qed.

Lemma neutral_reject c e : neutral (reject c e) (fun _ => c = false).
Proof. intros L. eapply leaves_conseq; [apply leaves_reject|]. by intros ? L' [? ->]. Qed.

Lemma neutral_status status : neutral (return_status status) (fun _ => status = SSH_OK).
Proof. intros L. eapply leaves_conseq; [apply leaves_status|]. by intros ? L' [? ->]. Qed.

Lemma neutral_result {A} (o : outcome A) : o <> Fault -> neutral (of_result o) (fun a => o = Ret a).
Proof. intros Ho L. eapply leaves_conseq; [by apply leaves_result|]. by intros ? L' [? ->]. Qed.

Lemma neutral_conseq {A} (p : Prog (psa_state api) A) (R Q : A -> Prop) : neutral p R -> (forall a, R a -> Q a) -> neutral p Q.
Proof. intros Hp HQ L. eapply leaves_conseq; [apply Hp|]. intros a L' [-> Ha]. auto. Qed.

(** The calls that leave the keys alone. *)
Ltac keeps := solve [auto using keys_init, keys_random, keys_verify, keys_mac, keys_agreement, keys_export, keys_cipher_setup,
  keys_cipher_set_iv, keys_cipher_abort].
Ltac quiet_call :=
  lazymatch goal with
  | |- quiet (psa _ (psa_hash_compute _ _ _ _)) _ => apply quiet_stored, keys_hash
  | |- quiet (psa _ (psa_export_public_key _ _ _)) _ => apply quiet_stored, keys_export_public
  | |- quiet (psa _ (psa_sign_message _ _ _ _ _)) _ => apply quiet_stored, keys_sign
  | |- quiet (psa _ _) _ => apply quiet_psa; keeps
  | |- quiet (mret _) _ => by apply (quiet_ret _ (fun _ => True))
  | |- quiet (if ?c then _ else _) _ => destruct c; quiet_call
  end.

Ltac neutral_step :=
  lazymatch goal with
  | |- neutral (mbind _ (reject _ _)) _ => eapply neutral_bind; [apply neutral_reject|intros ? ?]
  | |- neutral (mbind _ (return_status _)) _ => eapply neutral_bind; [apply neutral_status|intros ? ?]
  | |- neutral (mbind _ (psa _ _)) _ => eapply neutral_bind; [apply quiet_neutral; quiet_call|intros ? ?]
  | |- neutral (mret _) _ => by apply quiet_neutral, (quiet_ret _ (fun _ => True))
  | |- neutral (fail _) _ => apply neutral_fail
  | |- neutral (match ?x with (_, _) => _ end) _ => destruct x
  end.

(** With a key in use. *)
Ltac used_step :=
  lazymatch goal with
  | |- leaves _ _ _ (mbind _ (psa _ (psa_destroy_key _ _))) _ =>
      eapply leaves_bind; [apply leaves_destroy|intros ? ? ->; rewrite made_destroyed by done]
  | |- leaves _ _ ({[_]} ∪ _) (mbind _ _) _ => eapply leaves_bind; [eapply quiet_any; quiet_call|intros ? ? [-> ?]]
  | |- leaves _ _ _ (match ?x with (_, _) => _ end) _ => destruct x
  end.

(** How a call that makes a key is judged. *)
Definition judges (status_of : Z -> ssh_status) : Prop := forall status, status_of status = SSH_OK <-> status = PSA_SUCCESS.

Lemma judges_ok : judges psa_ok.
Proof. intros status. unfold psa_ok. by destruct (Z.eqb_spec status PSA_SUCCESS). Qed.

Lemma judges_ok_or_unsupported : judges psa_ok_or_unsupported.
Proof. intros status. unfold psa_ok_or_unsupported. destruct (Z.eqb_spec status PSA_SUCCESS); [done|]. by destruct (_ =? _). Qed.

(** A key that is made, and what is done with it. *)
Lemma made_key {A} L (f : psa_state api -> Z * Z * psa_state api) (status_of : Z -> ssh_status) (k : Z -> Prog (psa_state api) A) Q :
  makes_key live stuck f -> judges status_of ->
  (forall key, 0 < key < 2 ^ 32 -> key ∉ L -> leaves held L ({[key]} ∪ L) (k key) Q) ->
  leaves held L L (r ← psa api f; let '(status, key) := r in return_status (status_of status);; k key) Q.
Proof.
  intros Hf Hs Hk. eapply leaves_bind; [by apply leaves_made|]. intros [status key] L'. cbn [fst snd].
  case_decide as E; intros H s Hl; unfold mbind, prog_bind; rewrite return_status_run.
  - destruct H as (Hkey & Hfresh & ->). rewrite decide_True by (by apply Hs). by apply Hk.
  - destruct H as [_ ->]. rewrite decide_False by (by intros ?%Hs). done.
Qed.

(** *** The entries *)
Lemma rng_neutral len : neutral (mbedtls_rng_fill api len) (fun _ => True).
Proof. unfold mbedtls_rng_fill. repeat neutral_step. Qed.

(** After the key is destroyed. *)
Lemma neutral_leaves {A} (p : Prog (psa_state api) A) (R : A -> Prop) L : neutral p R -> leaves held L L p (fun a L' => L' = L /\ R a).
Proof. intros Hp. apply Hp. Qed.

Ltac neutral_rest := apply (neutral_leaves _ (fun _ => True)); repeat neutral_step.

Lemma kex_generate_neutral algorithm public_cap private_cap :
  neutral (mbedtls_kex_generate_keypair api algorithm public_cap private_cap) (fun _ => True).
Proof.
  unfold mbedtls_kex_generate_keypair. neutral_step. intros L. apply made_key; [apply keys_generate|apply judges_ok_or_unsupported|].
  intros key _ Hkey. repeat used_step. neutral_rest.
Qed.

(** An import is the state before and the new key. *)
Lemma import_x25519_leaves L private_key :
  leaves held L L (import_x25519_private_key api private_key) (fun key L' => (key ∉ L) /\ L' = {[key]} ∪ L).
Proof.
  unfold import_x25519_private_key. eapply leaves_bind; [apply leaves_reject|]. intros _ L' [_ ->].
  apply made_key; [apply keys_import|apply judges_ok|]. intros key _ Hkey. by apply leaves_ret.
Qed.

Lemma import_transient_leaves L type usage alg key_data :
  leaves held L L (import_transient_key api type usage alg key_data) (fun key L' => (key ∉ L) /\ L' = {[key]} ∪ L).
Proof.
  unfold import_transient_key. apply made_key; [apply keys_import|apply judges_ok|]. intros key _ Hkey. by apply leaves_ret.
Qed.

Lemma shared_secret_neutral algorithm private_key peer cap :
  neutral (mbedtls_kex_compute_shared_secret api algorithm private_key peer cap) (fun _ => True).
Proof.
  unfold mbedtls_kex_compute_shared_secret. neutral_step. intros L.
  eapply leaves_bind; [apply import_x25519_leaves|]. intros key L' [Hkey ->]. repeat used_step. neutral_rest.
Qed.

Lemma hash_exchange_neutral algorithm data cap : neutral (mbedtls_hash_exchange api algorithm data cap) (fun _ => True).
Proof. unfold mbedtls_hash_exchange. repeat neutral_step. Qed.

(** *** Signatures of users *)
Lemma verify_with_neutral attributes key_data data signature :
  neutral (verify_with api attributes key_data data signature) (fun _ => True).
Proof.
  unfold verify_with. intros L. eapply leaves_bind; [apply leaves_made, keys_import|]. intros [status key] L'. cbn [fst snd].
  case_decide as E.
  - intros (Hkey & Hfresh & ->). repeat used_step. replace (negb (key =? 0)) with true by lia.
    eapply leaves_bind; [eapply leaves_bind; [apply leaves_destroy|]|].
    { intros _ L' ->. rewrite made_destroyed by done. by apply (leaves_ret _ _ _ _ (fun _ L' => L' = L)). }
    intros _ L' ->. apply (neutral_leaves _ (fun _ => True)). eapply neutral_conseq; [apply neutral_status|done].
  - intros [-> ->]. rewrite (proj2 (Z.eqb_neq _ _) E). cbn [Z.eqb negb].
    eapply leaves_bind; [by apply (leaves_ret _ _ _ _ (fun a L' => L' = L))|]. intros st L' ->.
    eapply leaves_bind; [by apply (leaves_ret _ _ _ _ (fun a L' => L' = L))|]. intros _ L' ->.
    apply (neutral_leaves _ (fun _ => True)). eapply neutral_conseq; [apply neutral_status|done].
Qed.

Definition bytes_given (p : option (list Z)) : Prop := Forall is_byte (default [] p).

Lemma verify_neutral algorithm blob data signature :
  view_ok algorithm -> bytes_given blob -> bytes_given signature ->
  neutral (mbedtls_publickey_verify api algorithm blob data signature) (fun _ => True).
Proof.
  intros Ha Hb Hs L s Hl. destruct (null_or_empty blob || null_or_empty data || null_or_empty signature) eqn:E.
  - unfold mbedtls_publickey_verify. by rewrite E.
  - apply orb_false_iff in E as [[Eb Ed]%orb_false_iff Es].
    assert (forall p, null_or_empty p = false -> exists l, p = Some l /\ l <> []) as Hn.
    { intros [[|b l]|]; [done| |done]. intros _. by exists (b :: l). }
    destruct (Hn _ Eb) as (b & -> & Hb1). destruct (Hn _ Ed) as (d & -> & Hd1). destruct (Hn _ Es) as (sig & -> & Hs1).
    rewrite publickey_verify_run by done. pose proof (user_key_sound algorithm b sig Ha Hb Hs) as Hsound.
    destruct (user_key_of algorithm b sig) as [v|e|]; [|done|done]. by apply verify_with_neutral.
Qed.

(** *** Keys of a session and packets *)
Definition round_ok (out : list Z) : Prop := Forall is_byte out /\ zlen out = 32.

Lemma hash_round_neutral k h sid id previous :
  Forall is_byte k -> zlen k < UINT32_MAX -> Forall is_byte h -> Forall is_byte sid -> Forall is_byte (default [] previous) ->
  neutral (ssh_kdf_hash_round api k h sid id previous) round_ok.
Proof.
  intros Hk Hkl Hh Hs Hp. unfold ssh_kdf_hash_round. eapply neutral_bind; [apply neutral_result|intros input _].
  - apply (encode_safely _ KDF_INPUT_SIZE); [|done]. eapply safely_emits. by apply (emits_kdf k h sid id).
  - eapply neutral_bind; [apply quiet_neutral; quiet_call|]. intros [status out] Hout. cbn [fst snd] in Hout.
    eapply neutral_bind; [apply neutral_reject|]. intros ? Hc. apply negb_false_iff, andb_true_iff in Hc as [Hc Hl].
    apply quiet_neutral, quiet_ret. destruct Hout as [Hb _]; [lia|]. split; [done|lia].
Qed.
Lemma derive_loop_neutral fuel k h sid id capacity out round :
  Forall is_byte k -> zlen k < UINT32_MAX -> Forall is_byte h -> Forall is_byte sid -> Forall is_byte out -> round_ok round ->
  capacity - zlen out <= Z.of_nat fuel ->
  neutral (derive_loop api fuel k h sid id capacity out round) (fun _ => True).
Proof.
  intros Hk Hkl Hh Hs. revert out round. induction fuel as [|fuel IH]; intros out round Ho Hr Hf; cbn [derive_loop];
    destruct (zlen out <? capacity) eqn:E; try neutral_step; [lia|].
  set (take := capacity - zlen out). set (n := if take >? 32 then 32 else take).
  assert (0 < n <= 32 /\ n <= take) as [Hn Hnt] by (unfold n, take; destruct (_ >? 32) eqn:E2; lia). destruct Hr as [Hrb Hrl].
  rewrite mem_read_inside by lia. change (zdrop 0 round) with round.
  assert (Forall is_byte (out ++ ztake n round)) as Hout by (apply Forall_app; split; [done|by apply Forall_take]).
  assert (zlen (out ++ ztake n round) = zlen out + n) as Hl by (rewrite zlen_app, zlen_ztake by lia; lia).
  destruct (zlen (out ++ ztake n round) <? capacity); [|by apply quiet_neutral, (quiet_ret _ (fun _ => True))]. eapply neutral_bind; [by apply (hash_round_neutral k h sid id)|].
  intros round' Hr'. apply IH; [done|done|]. rewrite Hl. lia.
Qed.

Lemma derive_key_neutral algorithm k h sid id capacity :
  bytes_given k -> zlen (default [] k) < UINT32_MAX -> bytes_given h -> bytes_given sid ->
  neutral (mbedtls_derive_key api algorithm k h sid id capacity) (fun _ => True).
Proof.
  intros Hk Hkl Hh Hs. unfold mbedtls_derive_key. neutral_step.
  eapply neutral_bind; [by apply hash_round_neutral|]. intros round Hr. apply derive_loop_neutral; try done.
  change (zlen (@nil Z)) with 0. lia.
Qed.

(** The array of a caller: as long as its length says, at least. *)
Definition given (p : option (list Z)) (len : Z) : Prop := 0 <= len /\ (is_null p = false -> len <= zlen (default [] p)).

Lemma zlen_array size : 0 <= size -> zlen (array size) = size.
Proof. intros Hs. unfold array, zlen. rewrite length_replicate. lia. Qed.

Lemma read_given p len : given p len -> is_null p && negb (len =? 0) = false -> exists bs, read_ptr p len = Some bs /\ zlen bs = len.
Proof.
  intros [Hl Hp] Hn. destruct p as [l|]; cbn [read_ptr is_null andb] in *.
  - specialize (Hp eq_refl). cbn [default from_option] in Hp. unfold id in Hp. rewrite mem_read_inside by lia. eexists. split; [done|].
    rewrite zlen_ztake, zlen_zdrop by lia. lia.
  - apply negb_false_iff, Z.eqb_eq in Hn as ->. by exists [].
Qed.

Lemma quiet_memory {A} (access : option A) (R : A -> Prop) : (exists a, access = Some a /\ R a) -> quiet (in_memory api access) R.
Proof. intros (a & -> & Ha). by apply quiet_ret. Qed.

(** What is written has room. *)
Lemma quiet_write size (l bs : list Z) off :
  0 <= off -> zlen l = size -> off + zlen bs <= size -> quiet (in_memory api (mem_write l off bs)) (fun l' => zlen l' = size).
Proof. intros Ho Hl Hb. apply quiet_memory. destruct (mem_write_inside l off bs) as (l' & E & El); [lia|lia|]. exists l'. split; [done|lia]. Qed.

Lemma quiet_within {O} capacity (f : psa_state api -> Z * list Z * O * psa_state api) :
  keeps_keys live stuck f -> stores_within capacity f -> quiet (psa api f) (fun r => zlen (snd (fst r)) <= capacity).
Proof. intros Hf Hs L0 L. by apply leaves_within. Qed.

(** The array [output] takes what the two calls store. *)
Lemma cipher_calls_quiet direction key_id iv data data_len :
  given data data_len -> is_null data && negb (data_len =? 0) = false ->
  quiet (cipher_calls api direction key_id iv data data_len) (fun r => zlen (snd (fst (fst r))) = CIPHER_OUTPUT_SIZE).
Proof.
  intros Hd Hn. unfold cipher_calls. eapply quiet_bind; [quiet_call|]. intros [status op] _.
  eapply quiet_bind; [quiet_call|]. clear status op. intros [status op] _.
  eapply (quiet_bind _ _ (fun r => zlen (snd (fst r)) <= CIPHER_OUTPUT_SIZE)).
  { destruct (status =? PSA_SUCCESS); [|by apply quiet_ret]. destruct (read_given _ _ Hd Hn) as (bs & -> & _).
    eapply quiet_bind; [by apply (quiet_memory _ (fun _ => True)); exists bs|]. intros input _.
    apply quiet_within; [apply keys_cipher_update|by apply keys_cipher_update]. }
  clear status op. intros [[status update] op] Hu. cbn [fst snd] in Hu. pose proof (zlen_nonneg update).
  eapply quiet_bind; [apply (quiet_write CIPHER_OUTPUT_SIZE); [lia|by apply zlen_array|lia]|]. intros output Hout.
  eapply (quiet_bind _ _ (fun r => zlen (snd (fst r)) <= CIPHER_OUTPUT_SIZE - zlen update)).
  { destruct (status =? PSA_SUCCESS); [|apply quiet_ret; change (zlen (snd (fst (status, @nil Z, op)))) with 0; lia].
    apply quiet_within; [apply keys_cipher_finish|apply keys_cipher_finish; lia]. }
  clear status op. intros [[status finish] op] Hf. cbn [fst snd] in Hf.
  eapply quiet_bind; [apply (quiet_write CIPHER_OUTPUT_SIZE); [lia|done|lia]|]. intros output' Hout'.
  eapply quiet_bind; [quiet_call|]. intros ? _. by apply quiet_ret.
Qed.

Lemma cipher_neutral algorithm key iv direction data data_len :
  given data data_len -> neutral (mbedtls_cipher_crypt api algorithm key iv direction data data_len) (fun _ => True).
Proof.
  intros Hd. unfold mbedtls_cipher_crypt. eapply neutral_bind; [apply neutral_reject|intros ? Hc].
  apply orb_false_iff in Hc as [[_ Hn]%orb_false_iff Hsize]. intros L.
  eapply leaves_bind; [apply import_transient_leaves|]. intros key_id L' [Hkey ->].
  eapply leaves_bind; [by apply cipher_calls_quiet|]. intros [[[status output] output_len] finish_len] L' [-> Hout]. cbn [fst snd] in Hout.
  used_step. apply (neutral_leaves _ (fun _ => True)). eapply neutral_bind; [apply neutral_reject|intros ? _]. destruct Hd as [Hl Hd].
  assert (mem_read output 0 data_len = Some (ztake data_len output)) as -> by (apply mem_read_inside; lia).
  eapply neutral_bind; [by apply quiet_neutral, (quiet_memory _ (fun bs => zlen bs <= data_len)); eexists; split; [done|rewrite zlen_ztake by lia; lia]|].
  intros bs Hbs. apply quiet_neutral, quiet_memory. destruct (mem_write_inside (default [] data) 0 bs) as (l' & -> & _); [lia| |by exists l'].
  cbn beta in Hbs. destruct data as [l|]; [specialize (Hd eq_refl); lia|]. apply negb_false_iff, Z.eqb_eq in Hn as ->. change (zlen (default [] None)) with 0. lia.
Qed.

(** Neither does the array [input] overflow, because [data_len] is checked. *)
Lemma mac_input_quiet sequence data data_len :
  given data data_len -> is_null data = false -> data_len <= EMSSH_MAX_PACKET_SIZE + 4 ->
  quiet (mac_input api sequence data data_len) (fun input => zlen input = MAC_INPUT_SIZE).
Proof.
  intros Hd Hn Hl. unfold mac_input. eapply quiet_bind; [apply (quiet_write MAC_INPUT_SIZE); [lia|by apply zlen_array|by vm_compute]|].
  intros input Hi. destruct (read_given _ _ Hd) as (bs & -> & Hbs); [by rewrite Hn|].
  eapply quiet_bind; [by apply (quiet_memory _ (fun x => x = bs)); exists bs|]. intros ? ->.
  apply quiet_write; [lia|done|]. unfold MAC_INPUT_SIZE. lia.
Qed.

Lemma mac_neutral algorithm key sequence data data_len cap :
  given data data_len -> neutral (mbedtls_mac_compute api algorithm key sequence data data_len cap) (fun _ => True).
Proof.
  intros Hd. unfold mbedtls_mac_compute. eapply neutral_bind; [apply neutral_reject|intros ? Hc].
  apply orb_false_iff in Hc as [[_ Hn]%orb_false_iff Hsize]. destruct (Hd) as [Hl _].
  eapply neutral_bind; [apply quiet_neutral, mac_input_quiet; [done|done|lia]|]. intros input Hi. intros L.
  eapply leaves_bind; [apply import_transient_leaves|]. intros key_id L' [Hkey ->].
  assert (mem_read input 0 (data_len + 4) = Some (ztake (data_len + 4) input)) as -> by (apply mem_read_inside; unfold MAC_INPUT_SIZE in Hi; lia).
  eapply leaves_bind; [by apply (quiet_memory _ (fun _ => True)); eexists|]. intros message L' [-> _]. repeat used_step. neutral_rest.
Qed.

(** Data that does not fit is refused before the library is called. *)
Lemma cipher_refuses algorithm key iv direction data data_len s :
  EMSSH_MAX_PACKET_SIZE + 4 < data_len ->
  mbedtls_cipher_crypt api algorithm key iv direction data data_len s = (Err SSH_ERR_INVALID_ARGUMENT, s).
Proof.
  intros Hl. unfold mbedtls_cipher_crypt. rewrite (bind_err _ _ s SSH_ERR_INVALID_ARGUMENT s); [done|].
  apply reject_true. replace (data_len >? CIPHER_OUTPUT_SIZE) with true by (unfold CIPHER_OUTPUT_SIZE; lia). by rewrite orb_true_r.
Qed.

Lemma mac_refuses algorithm key sequence data data_len cap s :
  EMSSH_MAX_PACKET_SIZE + 4 < data_len ->
  mbedtls_mac_compute api algorithm key sequence data data_len cap s = (Err SSH_ERR_INVALID_ARGUMENT, s).
Proof.
  intros Hl. unfold mbedtls_mac_compute. rewrite (bind_err _ _ s SSH_ERR_INVALID_ARGUMENT s); [done|].
  apply reject_true. replace (data_len >? _) with true by lia. by rewrite orb_true_r.
Qed.

(** ** Operations on the context

    [life base st]: the keys are those of [base] and, when the context owns one, its
    host key. *)
Definition life (base : gset Z) (st : ssh_mbedtls_crypto * psa_state api) : Prop :=
  let '(ctx, s) := st in
  if owns_hostkey ctx then 0 < hostkey_id ctx < 2 ^ 32 /\ (hostkey_id ctx ∉ base) /\ held s = {[hostkey_id ctx]} ∪ base
  else hostkey_id ctx = 0 /\ held s = base.

(** From [P] to [Q], or to [life] when it fails. *)
Definition lives (base : gset Z) {A} (P : ssh_mbedtls_crypto * psa_state api -> Prop)
    (p : Prog (ssh_mbedtls_crypto * psa_state api) A) (Q : A -> ssh_mbedtls_crypto * psa_state api -> Prop) : Prop :=
  forall st, P st ->
  match p st with (Ret a, st') => Q a st' | (Err _, st') => life base st' | (Fault, _) => False end.

Definition lives_on (base : gset Z) {A} (p : Prog (ssh_mbedtls_crypto * psa_state api) A) (R : A -> Prop) : Prop :=
  lives base (life base) p (fun a st => life base st /\ R a).

Section lives.
Context (base : gset Z).
Abbreviation MbedProg := (Prog (ssh_mbedtls_crypto * psa_state api)).

Lemma lives_bind {A B} P (p : MbedProg A) (k : A -> MbedProg B) Q R :
  lives base P p Q -> (forall a, lives base (Q a) (k a) R) -> lives base P (x ← p; k x) R.
Proof.
  intros Hp Hk st Hst. specialize (Hp st Hst). unfold mbind, prog_bind. destruct (p st) as [[a|e|] st']; [|done|done].
  by apply (Hk a).
Qed.

Lemma on_bind {A B} (p : MbedProg A) (k : A -> MbedProg B) R Q :
  lives_on base p R -> (forall a, R a -> lives_on base (k a) Q) -> lives_on base (x ← p; k x) Q.
Proof. intros Hp Hk. eapply lives_bind; [apply Hp|]. intros a st [Hst Ha]. by apply Hk. Qed.

Lemma on_psa_life {A} (p : Prog (psa_state api) A) R : neutral p R -> lives_on base (on_psa api p) R.
Proof.
  intros Hp [ctx s] Hst. unfold on_psa. specialize (Hp (held s) s eq_refl).
  assert (forall s', held s' = held s -> life base (ctx, s')) as Hkeep by (intros s' E; unfold life in *; by rewrite E).
  destruct (p s) as [[a|e|] s']; [|by apply Hkeep|done]. destruct Hp as [E Ha]. split; [by apply Hkeep|done].
Qed.

Lemma on_ret {A} (a : A) (R : A -> Prop) : R a -> lives_on base (mret a) R.
Proof. by intros Ha st Hst. Qed.
Lemma on_fail {A} e (R : A -> Prop) : lives_on base (fail e) R.
Proof. by intros st Hst. Qed.
Lemma on_reject c e : lives_on base (reject c e) (fun _ => c = false).
Proof. intros st Hst. by destruct c. Qed.
Lemma on_status status : lives_on base (return_status status) (fun _ => status = SSH_OK).
Proof. intros st Hst. rewrite return_status_run. by case_decide. Qed.
Lemma on_result {A} (o : outcome A) : o <> Fault -> lives_on base (of_result o) (fun _ => True).
Proof. intros Ho st Hst. by destruct o. Qed.
Lemma on_ctx : lives_on base (get_ctx api) (fun _ => True).
Proof. by intros st Hst. Qed.
Lemma on_initialized : lives_on base (require_initialized api) (fun _ => True).
Proof. intros [ctx s] Hst. unfold require_initialized, get_ctx, mbind, prog_bind. cbn [fst]. by destruct (mbed_initialized ctx). Qed.

(** After the host key is gone. *)
Definition unowned (st : ssh_mbedtls_crypto * psa_state api) : Prop :=
  hostkey_id (fst st) = 0 /\ owns_hostkey (fst st) = false /\ held (snd st) = base.

Lemma unowned_life st : unowned st -> life base st.
Proof. destruct st as [ctx s]. intros (H1 & H2 & H3). unfold life. cbn [fst snd] in *. by rewrite H2. Qed.

Lemma destroy_lives : lives base (life base) (destroy_owned_hostkey api) (fun _ => unowned).
Proof.
  intros [ctx s] Hst. unfold destroy_owned_hostkey, get_ctx, set_ctx, on_psa, psa, mbind, prog_bind. cbn [fst snd].
  unfold life in Hst. destruct (owns_hostkey ctx) eqn:Eo; cbn [andb].
  - destruct Hst as (Hk & Hfresh & Hl). replace (negb (hostkey_id ctx =? 0)) with true by lia.
    pose proof (destroy_held (hostkey_id ctx) s) as Hd. destruct (psa_destroy_key api (hostkey_id ctx) s) as [a s']. cbn [snd] in Hd.
    split; [done|]. split; [done|]. cbn [snd]. rewrite Hd, Hl. by apply made_destroyed.
  - destruct Hst as [Hk Hl]. done.
Qed.

Lemma replace_life f status_of : makes_key live stuck f -> judges status_of -> lives_on base (replace_hostkey api f status_of) (fun _ => True).
Proof.
  intros Hf Hs. unfold replace_hostkey. eapply lives_bind; [apply destroy_lives|]. intros _ [ctx s] (Hk & Ho & Hl). cbn [fst snd] in *.
  unfold on_psa, psa, mbind, prog_bind. pose proof (makes_held f s Hf) as Hm. destruct (f s) as [[status key] s']. rewrite return_status_run. case_decide as E.
  - destruct Hm as (Hkey & Hfresh & Hlive). rewrite decide_True by (by apply Hs). unfold set_hostkey, get_ctx, set_ctx, mbind, prog_bind.
    cbn [fst snd]. split; [|done]. unfold life. cbn [owns_hostkey hostkey_id].
    assert (u32 key = key) as -> by (unfold u32; apply Z.mod_small; lia). rewrite Hlive. rewrite Hl in *. done.
  - destruct Hm as [_ Hsame]. rewrite decide_False by (by intros ?%Hs). change (life base (ctx, s')). unfold life. rewrite Ho, Hsame. done.
Qed.
End lives.
End keys.
