(* ===== verification/MbedLife.v ===== *)
(** * The crypto backend: sessions of operations

    Every operation of the backend, in any order, from [ssh_mbedtls_crypto_init] to
    [ssh_mbedtls_crypto_free]; a further [ssh_mbedtls_crypto_init] on the context that is
    in use is one of them. *)

From stdpp Require Import gmap.
From S2P Require Import Prelude Buffer Platform Packet Codec OpensshKey OpensshText OpensshPem OpensshDer OpensshRead OpensshConvert.
From S2P Require Import MbedCrypto MbedPsa MbedVerify MbedBlobs MbedKdf MbedKeys.

(** ** The operations *)
Inductive mbed_op : Type :=
| OpGenerateEd25519
| OpGenerateEcdsa
| OpGenerate (algorithm : ssh_string_view)
| OpImportEd25519 (key : option (list Z))
| OpImportEcdsa (key : option (list Z))
| OpImportAuto (algorithm : ssh_string_view) (data : option (list Z))
| OpExportHostkey (capacity : Z)
| OpExport (algorithm : ssh_string_view) (capacity : Z)
| OpPublic (algorithm : ssh_string_view) (capacity : Z)
| OpSign (algorithm : ssh_string_view) (exchange_hash : option (list Z)) (capacity : Z)
| OpVerify (algorithm : ssh_string_view) (blob data signature : option (list Z))
| OpRng (len : Z)
| OpKexGenerate (algorithm : ssh_string_view) (public_capacity private_capacity : Z)
| OpSharedSecret (algorithm : ssh_string_view) (private_key peer : option (list Z)) (capacity : Z)
| OpHashExchange (algorithm : ssh_string_view) (data : option (list Z)) (capacity : Z)
| OpDeriveKey (algorithm : ssh_string_view) (secret exchange_hash session_id : option (list Z)) (letter capacity : Z)
| OpCipher (algorithm : ssh_string_view) (key iv : option (list Z)) (direction : ssh_cipher_direction) (data : option (list Z)) (data_len : Z)
| OpMac (algorithm : ssh_string_view) (key : option (list Z)) (sequence : Z) (data : option (list Z)) (data_len capacity : Z)
| OpProbe (verify_publickey : bool)
| OpRestart
| OpInit.

(** What the callers pass: bytes, views, sizes of arrays. *)
Definition op_ok (op : mbed_op) : Prop :=
  match op with
  | OpPublic _ capacity => 0 <= capacity
  | OpSign algorithm _ capacity => view_ok algorithm /\ 0 <= capacity
  | OpVerify algorithm blob _ signature => view_ok algorithm /\ bytes_given blob /\ bytes_given signature
  | OpDeriveKey _ k h sid _ _ => bytes_given k /\ zlen (default [] k) < UINT32_MAX /\ bytes_given h /\ bytes_given sid
  | OpCipher _ _ _ _ data data_len | OpMac _ _ _ data data_len _ => given data data_len
  | _ => True
  end.

Section life.
Context (api : psa_api) `{!PsaKeys api} (mpi : mpi_api) `{!MpiLaws mpi}.
Abbreviation MbedProg := (Prog (ssh_mbedtls_crypto * psa_state api)).

Definition discard {A} (p : MbedProg A) : MbedProg unit := p;; mret tt.

Definition mbed_step (op : mbed_op) : MbedProg unit :=
  match op with
  | OpGenerateEd25519 => ssh_mbedtls_crypto_generate_ed25519_hostkey api
  | OpGenerateEcdsa => ssh_mbedtls_crypto_generate_ecdsa_p256_hostkey api
  | OpGenerate algorithm => mbedtls_hostkey_generate api algorithm
  | OpImportEd25519 key => ssh_mbedtls_crypto_import_ed25519_hostkey api key
  | OpImportEcdsa key => ssh_mbedtls_crypto_import_ecdsa_p256_hostkey api key
  | OpImportAuto algorithm data => mbedtls_hostkey_import_private_auto api mpi algorithm data
  | OpExportHostkey capacity => discard (ssh_mbedtls_crypto_export_hostkey_private api capacity)
  | OpExport algorithm capacity => discard (mbedtls_hostkey_export_private api algorithm capacity)
  | OpPublic algorithm capacity => discard (mbedtls_hostkey_public api algorithm capacity)
  | OpSign algorithm exchange_hash capacity => discard (mbedtls_hostkey_sign api algorithm exchange_hash capacity)
  | OpVerify algorithm blob data signature => on_psa api (mbedtls_publickey_verify api algorithm blob data signature)
  | OpRng len => discard (on_psa api (mbedtls_rng_fill api len))
  | OpKexGenerate algorithm c1 c2 => discard (on_psa api (mbedtls_kex_generate_keypair api algorithm c1 c2))
  | OpSharedSecret algorithm key peer capacity => discard (on_psa api (mbedtls_kex_compute_shared_secret api algorithm key peer capacity))
  | OpHashExchange algorithm data capacity => discard (on_psa api (mbedtls_hash_exchange api algorithm data capacity))
  | OpDeriveKey algorithm k h sid letter capacity => discard (on_psa api (mbedtls_derive_key api algorithm k h sid letter capacity))
  | OpCipher algorithm key iv direction data n => discard (on_psa api (mbedtls_cipher_crypt api algorithm key iv direction data n))
  | OpMac algorithm key sequence data n capacity => discard (on_psa api (mbedtls_mac_compute api algorithm key sequence data n capacity))
  | OpProbe verify_publickey => on_psa api (probe_ed25519_support api verify_publickey)
  | OpRestart => ssh_mbedtls_crypto_free api;; ssh_mbedtls_crypto_init api
  | OpInit => ssh_mbedtls_crypto_init api
  end.

(** A failed operation does not end the session; [None] is an access outside of an array. *)
Fixpoint mbed_run (ops : list mbed_op) (st : ssh_mbedtls_crypto * psa_state api) : option (ssh_mbedtls_crypto * psa_state api) :=
  match ops with
  | [] => Some st
  | op :: ops => match mbed_step op st with (Fault, _) => None | (_, st') => mbed_run ops st' end
  end.

(** The host key of the context, when it owns one. *)
Definition host_keys (ctx : ssh_mbedtls_crypto) : gset Z := if owns_hostkey ctx then {[hostkey_id ctx]} else ∅.

Definition is_init (op : mbed_op) : bool := match op with OpInit => true | _ => false end.

(** [ssh_mbedtls_crypto_init] clears the context without a look at it: the host keys that
    contexts in use owned then. *)
Fixpoint forgotten (ops : list mbed_op) (st : ssh_mbedtls_crypto * psa_state api) : gset Z :=
  match ops with
  | [] => ∅
  | op :: ops => (if is_init op then host_keys (fst st) else ∅) ∪ forgotten ops (snd (mbed_step op st))
  end.

(** ** Each operation keeps the account of the keys *)
Section base.
Context (base : gset Z).
Abbreviation T := (fun _ => True).

Lemma on_discard {A} (p : MbedProg A) R : lives_on base p R -> lives_on base (discard p) T.
Proof. intros Hp. eapply on_bind; [exact Hp|]. intros a _. by apply on_ret. Qed.

Lemma on_call {A} (p : Prog (psa_state api) A) R : neutral p R -> lives_on base (discard (on_psa api p)) T.
Proof. intros Hp. eapply on_discard. by apply on_psa_life. Qed.

Lemma generate_ed25519_life : lives_on base (ssh_mbedtls_crypto_generate_ed25519_hostkey api) T.
Proof.
  eapply on_bind; [apply on_initialized|intros _ _]. apply replace_life; [apply keys_generate|apply judges_ok_or_unsupported].
Qed.

Lemma generate_ecdsa_life : lives_on base (ssh_mbedtls_crypto_generate_ecdsa_p256_hostkey api) T.
Proof. eapply on_bind; [apply on_initialized|intros _ _]. apply replace_life; [apply keys_generate|apply judges_ok]. Qed.

Lemma generate_life algorithm : lives_on base (mbedtls_hostkey_generate api algorithm) T.
Proof.
  eapply on_bind; [apply on_reject|intros ? _]. destruct (view_eq _ _); [apply generate_ecdsa_life|].
  destruct (view_eq _ _); [apply generate_ed25519_life|apply on_fail].
Qed.

Lemma import_life family bits usage alg key : lives_on base (import_hostkey api family bits usage alg key) T.
Proof.
  eapply on_bind; [apply on_initialized|intros _ _]. eapply on_bind; [apply on_reject|intros ? _].
  apply replace_life; [apply keys_import|apply judges_ok_or_unsupported].
Qed.

Lemma import_rsa_life der : lives_on base (import_rsa_hostkey_der api der) T.
Proof.
  eapply on_bind; [apply on_initialized|intros _ _]. eapply on_bind; [apply on_reject|intros ? _].
  apply replace_life; [apply keys_import|apply judges_ok_or_unsupported].
Qed.

(** The three places where the key may be are inside of the data. *)
Lemma rsa_hostkey_der_no_fault data : rsa_hostkey_der mpi (Some data) <> Fault.
Proof.
  assert (forall bm em, local_array DER_SIZE (decode_pem_block (Some data) (zlen data) (Some bm) (Some em) DER_SIZE) <> Fault) as Hpem.
  { intros bm em. unfold local_array. pose proof (decode_pem_block_any data bm em DER_SIZE _ der_room) as H.
    unfold decode_pem_block. by destruct (emssh_mbedtls_decode_pem_block _ _ _ _ _ _) as [[len|e|] [mem|]]. }
  assert (forall a b : outcome (list Z), a <> Fault -> b <> Fault -> or_else a b <> Fault) as Hor.
  { intros a b Ha Hb. destruct a as [?|[]|]; try done. }
  unfold rsa_hostkey_der. cbn [default from_option]. apply Hor; [apply Hor|]; [apply Hpem| |apply Hpem].
  pose proof (local_der mpi data) as H. unfold id. by destruct (local_array _ _).
Qed.

Lemma import_auto_life algorithm data : lives_on base (mbedtls_hostkey_import_private_auto api mpi algorithm data) T.
Proof.
  eapply on_bind; [apply on_reject|intros ? Hd]. destruct (view_eq _ _); [apply import_life|].
  destruct (view_eq _ _); [apply import_life|]. destruct (view_is_rsa_algorithm algorithm); [|apply on_fail].
  unfold import_rsa_hostkey_auto. rewrite Hd. eapply on_bind; [apply on_reject|intros _ _].
  destruct data as [l|]; [|done]. pose proof (rsa_hostkey_der_no_fault l) as Hnf.
  destruct (rsa_hostkey_der mpi (Some l)) as [der|e|]; [apply import_rsa_life| |done].
  destruct e; try apply on_fail. apply import_rsa_life.
Qed.

(** What the library stored becomes a blob. *)
Lemma export_life capacity : lives_on base (ssh_mbedtls_crypto_export_hostkey_private api capacity) T.
Proof.
  eapply on_bind; [apply on_initialized|intros _ _]. eapply on_bind; [apply on_ctx|intros ctx _].
  eapply on_bind; [apply on_reject|intros ? _].
  eapply on_bind; [apply on_psa_life, quiet_neutral, quiet_psa, keys_export|]. intros [status key] _.
  eapply on_bind; [apply on_status|intros ? _]. by apply on_ret.
Qed.

Lemma export_auto_life algorithm capacity : lives_on base (mbedtls_hostkey_export_private api algorithm capacity) T.
Proof. unfold mbedtls_hostkey_export_private. destruct (_ || _); [apply export_life|apply on_fail]. Qed.

Lemma public_life algorithm capacity : 0 <= capacity -> lives_on base (mbedtls_hostkey_public api algorithm capacity) T.
Proof.
  intros Hc. eapply on_bind; [apply on_ctx|intros ctx _]. eapply on_bind; [apply on_reject|intros ? _].
  eapply on_bind; [apply on_psa_life, quiet_neutral, quiet_stored, keys_export_public|]. intros [status raw] Hraw. cbn [fst snd] in Hraw.
  eapply on_bind; [apply on_status|intros ? Hs]. apply judges_ok_or_unsupported in Hs. destruct (Hraw Hs) as [Hb Hl].
  apply on_result, encode_safely; [|done]. apply safely_hostkey_blob; [done|]. unfold EMSSH_MAX_HOST_KEY_BLOB in Hl. lia.
Qed.

Lemma sign_life algorithm hash capacity :
  view_ok algorithm -> 0 <= capacity -> lives_on base (mbedtls_hostkey_sign api algorithm hash capacity) T.
Proof.
  intros Ha Hc. eapply on_bind; [apply on_ctx|intros ctx _]. eapply on_bind; [apply on_reject|intros ? _].
  destruct (sign_algorithm algorithm) as [[alg blob]|] eqn:E; [|apply on_fail].
  eapply on_bind; [apply on_psa_life, quiet_neutral, quiet_stored, keys_sign|]. intros [status raw] Hraw. cbn [fst snd] in Hraw.
  eapply on_bind; [apply on_status|intros ? Hs]. apply judges_ok_or_unsupported in Hs. destruct (Hraw Hs) as [Hb Hl].
  apply on_result, encode_safely; [|done]. by eapply safely_signature.
Qed.

(** *** The ends of a session *)
Lemma free_run st : life base st -> exists s', ssh_mbedtls_crypto_free api st = (Ret tt, (zero_mbed, s')) /\ held s' = base.
Proof.
  intros Hst. pose proof (destroy_lives base st Hst) as H. unfold ssh_mbedtls_crypto_free, mbind, prog_bind.
  assert (forall e st', destroy_owned_hostkey api st <> (Err e, st')) as Hne.
  { intros e st'. destruct st as [ctx s]. unfold destroy_owned_hostkey, get_ctx, on_psa, psa, set_ctx, mbind, prog_bind. cbn [fst snd].
    destruct (_ && _); [|done]. by destruct (psa_destroy_key api _ _). }
  destruct (destroy_owned_hostkey api st) as [[[]|e|] [ctx s]]; [|by destruct (Hne e (ctx, s))|done].
  exists s. split; [done|]. apply H.
Qed.

Lemma init_run ctx s : held s = base -> let r := ssh_mbedtls_crypto_init api (ctx, s) in fst r <> Fault /\ unowned base (snd r).
Proof.
  intros Hl. unfold ssh_mbedtls_crypto_init, set_ctx, on_psa, psa, mbind, prog_bind. cbn [fst snd].
  pose proof (keeps_held _ s keys_init) as Hk. destruct (psa_crypto_init api s) as [status s']. cbn [snd] in Hk. rewrite return_status_run.
  by case_decide; rewrite <- Hl, <- Hk.
Qed.

Lemma restart_life : lives_on base (ssh_mbedtls_crypto_free api;; ssh_mbedtls_crypto_init api) T.
Proof.
  intros st Hst. destruct (free_run st Hst) as (s' & E & Hl). rewrite (bind_ret _ _ _ tt (zero_mbed, s')) by done.
  destruct (init_run zero_mbed s' Hl) as [Hnf Hu]. apply unowned_life in Hu.
  by destruct (ssh_mbedtls_crypto_init api (zero_mbed, s')) as [[[]|e|] st'].
Qed.
End base.

(** The probe has a context of its own. *)
Lemma freeing_life base {A} (p : MbedProg A) R st :
  lives_on base p R -> life base st ->
  match freeing api p st with (Ret _, st') => life base st' | (Err _, st') => held (snd st') = base | (Fault, _) => False end.
Proof.
  intros Hp Hst. specialize (Hp st Hst). unfold freeing. destruct (p st) as [[a|e|] st']; [apply Hp| |done].
  destruct (free_run base st' Hp) as (s' & E & Hl). by rewrite (bind_ret _ _ _ tt (zero_mbed, s')).
Qed.

(** What was signed is a blob of bytes, so the verification is safe with it. *)
Lemma encoded_bytes q bs capacity out : emits q bs -> 0 <= capacity -> encode_into q (room capacity) capacity = Ret out -> Forall is_byte out.
Proof.
  intros Hq Hc. rewrite (encode_emitted q bs) by done. destruct (_ <=? _); [|done]. intros [= <-]. apply (emits_bytes _ _ Hq).
Qed.

Definition ed25519_blob (raw : list Z) : BufM unit := ssh_buffer_put_cstring (Some ED25519);; ssh_buffer_put_string (Some raw) (zlen raw).

Lemma emits_ed25519 raw : Forall is_byte raw -> zlen raw <= UINT32_MAX -> emits (ed25519_blob raw) (string_bytes ED25519 ++ string_bytes raw).
Proof. intros Hr Hl. apply emits_bind; [apply emits_cstring; [apply ED25519_ok|by vm_compute]|by apply emits_string]. Qed.

Lemma on_encoded base raw capacity :
  Forall is_byte raw -> zlen raw <= UINT32_MAX -> 0 <= capacity ->
  lives_on (api:=api) base (of_result (encode_into (ed25519_blob raw) (room capacity) capacity)) (Forall is_byte).
Proof.
  intros Hr Hl Hc st Hst. pose proof (fun out => encoded_bytes _ _ capacity out (emits_ed25519 raw Hr Hl) Hc) as H.
  pose proof (encode_no_fault _ _ capacity (emits_ed25519 raw Hr Hl) Hc) as Hnf. unfold of_result.
  destruct (encode_into _ _ _) as [out|e|]; [|done|done]. split; [done|]. by apply H.
Qed.

Lemma probe_signing_life base verify_publickey hash :
  lives_on base
    (blob ← mbedtls_hostkey_public api (view_of ED25519) EMSSH_MAX_HOST_KEY_BLOB;
     signature ← mbedtls_hostkey_sign api (view_of ED25519) (Some hash) EMSSH_MAX_SIGNATURE;
     if verify_publickey : bool
     then on_psa api (mbedtls_publickey_verify api (view_of ED25519) (Some blob) (Some hash) (Some signature))
     else mret tt) (fun _ => True).
Proof.
  assert (view_eq (view_of ED25519) (Some ED25519) = true) as He by (by vm_compute).
  eapply (on_bind _ _ _ (Forall is_byte)).
  { eapply on_bind; [apply on_ctx|intros ctx _]. eapply on_bind; [apply on_reject|intros ? _].
    eapply on_bind; [apply on_psa_life, quiet_neutral, quiet_stored, keys_export_public|]. intros [status raw] Hraw. cbn [fst snd] in Hraw.
    eapply on_bind; [apply on_status|intros ? Hs]. apply judges_ok_or_unsupported in Hs. destruct (Hraw Hs) as [Hb Hl].
    unfold hostkey_blob. rewrite He. apply (on_encoded base raw EMSSH_MAX_HOST_KEY_BLOB); [done| |done].
    unfold EMSSH_MAX_HOST_KEY_BLOB in Hl. unfold UINT32_MAX. lia. }
  intros blob Hblob. eapply (on_bind _ _ _ (Forall is_byte)).
  { eapply on_bind; [apply on_ctx|intros ctx _]. eapply on_bind; [apply on_reject|intros ? _]. unfold sign_algorithm. rewrite He.
    eapply on_bind; [apply on_psa_life, quiet_neutral, quiet_stored, keys_sign|]. intros [status raw] Hraw. cbn [fst snd] in Hraw.
    eapply on_bind; [apply on_status|intros ? Hs]. apply judges_ok_or_unsupported in Hs. destruct (Hraw Hs) as [Hb Hl].
    apply (on_encoded base raw EMSSH_MAX_SIGNATURE); [done| |done]. unfold EMSSH_MAX_SIGNATURE in Hl. unfold UINT32_MAX. lia. }
  intros signature Hsig. destruct verify_publickey; [|by apply on_ret]. apply on_psa_life, verify_neutral; [|done|done].
  apply field_view, ED25519_ok.
Qed.

Lemma probe_neutral verify_publickey : neutral (probe_ed25519_support api verify_publickey) (fun _ => True).
Proof.
  intros L s Hs. unfold probe_ed25519_support, with_probe. set (hash := replicate 32 _). cbv zeta.
  unfold mbind, prog_bind at 1. destruct (init_run L zero_mbed s Hs) as [Hnf Hu].
  destruct (ssh_mbedtls_crypto_init api (zero_mbed, s)) as [[[]|e|] [c1 s1]]; [|apply Hu|done]. cbn [snd] in Hu. apply unowned_life in Hu.
  unfold prog_bind at 1. pose proof (freeing_life L _ _ (c1, s1) (generate_ed25519_life L) Hu) as H1.
  destruct (freeing _ _ (c1, s1)) as [[[]|e|] [c2 s2]]; [|done|done].
  unfold prog_bind at 1. pose proof (freeing_life L _ _ (c2, s2) (probe_signing_life L verify_publickey hash) H1) as H2.
  unfold mbind in H2. destruct (freeing _ _ (c2, s2)) as [[[]|e|] [c3 s3]]; [|done|done].
  destruct (free_run L (c3, s3) H2) as (s4 & -> & Hl). done.
Qed.

Lemma step_life base op : op_ok op -> is_init op = false -> lives_on base (mbed_step op) (fun _ => True).
Proof.
  destruct op; cbn [op_ok mbed_step]; intros Hop Hinit.
  - apply generate_ed25519_life.
  - apply generate_ecdsa_life.
  - apply generate_life.
  - apply import_life.
  - apply import_life.
  - apply import_auto_life.
  - eapply on_discard, export_life.
  - eapply on_discard, export_auto_life.
  - eapply on_discard. by apply public_life.
  - eapply on_discard. apply sign_life; apply Hop.
  - apply on_psa_life, verify_neutral; apply Hop.
  - eapply on_call, rng_neutral.
  - eapply on_call, kex_generate_neutral.
  - eapply on_call, shared_secret_neutral.
  - eapply on_call, hash_exchange_neutral.
  - eapply on_call, derive_key_neutral; apply Hop.
  - by eapply on_call, cipher_neutral.
  - by eapply on_call, mac_neutral.
  - apply on_psa_life, probe_neutral.
  - apply restart_life.
  - done.
Qed.

Lemma host_keys_unowned ctx s base : life base (ctx, s) -> held s = host_keys ctx ∪ base.
Proof. unfold life, host_keys. destruct (owns_hostkey ctx); [intros (_ & _ & ->); done|intros [_ ->]; set_solver]. Qed.

Lemma run_life base ops st :
  Forall op_ok ops -> life base st -> exists st', mbed_run ops st = Some st' /\ life (forgotten ops st ∪ base) st'.
Proof.
  intros Hops. revert base st. induction Hops as [|op ops Hop Hops IH]; intros base st Hst; cbn [mbed_run forgotten].
  { exists st. by rewrite union_empty_l_L. }
  assert (fst (mbed_step op st) <> Fault /\ life ((if is_init op then host_keys (fst st) else ∅) ∪ base) (snd (mbed_step op st))) as [Hnf Hl].
  { destruct (is_init op) eqn:Hne.
    - destruct op; try done. destruct st as [ctx s]. destruct (init_run (host_keys ctx ∪ base) ctx s (host_keys_unowned _ _ _ Hst)) as [? Hu]. split; [done|].
      by apply unowned_life in Hu.
    - pose proof (step_life base op Hop Hne st Hst) as H. rewrite union_empty_l_L. destruct (mbed_step op st) as [[a|e|] st']; [|done|done]. split; [done|apply H]. }
  destruct (IH _ _ Hl) as (st' & Hrun & Hl'). exists st'. split; [by destruct (mbed_step op st) as [[a|e|] ?]|].
  replace (_ ∪ _ ∪ base) with (forgotten ops (snd (mbed_step op st)) ∪ ((if is_init op then host_keys (fst st) else ∅) ∪ base)); [done|].
  set_solver.
Qed.

(** The account from the first [ssh_mbedtls_crypto_init] to [ssh_mbedtls_crypto_free]. *)
Lemma session_account ops ctx0 (s : psa_state api) :
  Forall op_ok ops ->
  let r := ssh_mbedtls_crypto_init api (ctx0, s) in
  fst r <> Fault /\
  exists ctx s1 s2, mbed_run ops (snd r) = Some (ctx, s1) /\
    life (forgotten ops (snd r) ∪ held s) (ctx, s1) /\
    ssh_mbedtls_crypto_free api (ctx, s1) = (Ret tt, (zero_mbed, s2)) /\ held s2 = forgotten ops (snd r) ∪ held s.
Proof.
  intros Hops. destruct (init_run (held s) ctx0 s eq_refl) as [Hnf Hu]. destruct (ssh_mbedtls_crypto_init api (ctx0, s)) as [o st].
  split; [done|]. cbn [snd]. destruct (run_life (held s) ops st Hops (unowned_life _ _ Hu)) as ([ctx s1] & Hrun & Hl).
  destruct (free_run _ (ctx, s1) Hl) as (s2 & Hf & Hl2). by exists ctx, s1, s2.
Qed.
End life.

(** A library whose destructions succeed has no stuck key. *)
Definition destroys (api : psa_api) : Prop := forall key s, fst (psa_destroy_key api key s) = PSA_SUCCESS.

Lemma destroys_keys (api : psa_api) (K : PsaKeys api) : destroys api -> exists K' : PsaKeys api, forall s, @held api K' s = @live api K s.
Proof.
  intros Hd. unshelve refine (ex_intro _ (@Build_PsaKeys api live (fun _ => ∅) _ _ _ _ _ _ _ _ _ _ _ _ _ _ _ _ _ _) _).
  - intros s. set_solver.
  - intros. intros s. split; [apply keys_init|done].
  - intros. intros s. split; [apply keys_random|done].
  - intros. split; [intros s; split; [apply keys_hash|done]|apply keys_hash].
  - intros. intros s. pose proof (keys_generate attributes s) as H. destruct (psa_generate_key api attributes s) as [[status key] s']. by destruct H.
  - intros. intros s. pose proof (keys_import attributes data s) as H. destruct (psa_import_key api attributes data s) as [[status key] s']. by destruct H.
  - intros. intros s. split; [apply keys_export|done].
  - intros. split; [intros s; split; [apply keys_export_public|done]|apply keys_export_public].
  - intros. intros s. pose proof (keys_destroy key s) as H. specialize (Hd key s). destruct (psa_destroy_key api key s) as [status s']. left.
      destruct H as [[-> _]|[H _]]; [|done]. split; [done|set_solver].
  - intros. intros s. split; [apply keys_agreement|done].
  - intros. split; [intros s; split; [apply keys_sign|done]|apply keys_sign].
  - intros. intros s. split; [apply keys_verify|done].
  - intros. intros s. split; [apply keys_mac|done].
  - intros. intros s. split; [apply keys_cipher_setup|done].
  - intros. intros s. split; [apply keys_cipher_set_iv|done].
  - intros. split; [intros s; split; [apply keys_cipher_update|done]|apply keys_cipher_update].
  - intros. split; [intros s; split; [apply keys_cipher_finish|done]|apply keys_cipher_finish].
  - intros. intros s. split; [apply keys_cipher_abort|done].
  - intros s. unfold held. cbn. set_solver.
Qed.

(** C28: keys do not leak, and the backend never leaves its arrays: after
    [ssh_mbedtls_crypto_init], whatever operations are called with whatever arguments in
    whatever order, failures, restarts and further calls of [ssh_mbedtls_crypto_init]
    included, no operation reads or writes outside of an array (the local arrays of the
    cipher and of the MAC are memory that is written).  The keys of the library that are
    alive, besides those that it failed to destroy, are then those of before, the host
    key of the context when it owns one, which is a new key, and the host keys that
    contexts owned when [ssh_mbedtls_crypto_init] was called on them without a free, which
    forgets them; after [ssh_mbedtls_crypto_free] the host key is gone too.  When the
    destructions of the library succeed, that is every key that is alive. *)
Theorem keys_never_leak (api : psa_api) (K : PsaKeys api) (mpi : mpi_api) (M : MpiLaws mpi) ops ctx0 (s : psa_state api) :
  Forall op_ok ops ->
  let r := ssh_mbedtls_crypto_init api (ctx0, s) in
  let lost := forgotten api mpi ops (snd r) in
  fst r <> Fault /\
  exists ctx s1 s2, mbed_run api mpi ops (snd r) = Some (ctx, s1) /\
    held s1 = host_keys ctx ∪ (lost ∪ held s) /\
    (if owns_hostkey ctx then 0 < hostkey_id ctx < 2 ^ 32 /\ (hostkey_id ctx ∉ lost ∪ held s) else hostkey_id ctx = 0) /\
    ssh_mbedtls_crypto_free api (ctx, s1) = (Ret tt, (zero_mbed, s2)) /\ held s2 = lost ∪ held s /\
    (destroys api -> live s1 = host_keys ctx ∪ (lost ∪ live s) /\ live s2 = lost ∪ live s).
Proof.
  intros Hops r lost. destruct (session_account api mpi ops ctx0 s Hops) as (Hnf & ctx & s1 & s2 & Hrun & Hl & Hf & Hl2).
  split; [done|]. exists ctx, s1, s2. split_and!; try done; [by apply host_keys_unowned| |].
  - unfold life in Hl. destruct (owns_hostkey ctx); [by destruct Hl as (? & ? & _)|apply Hl].
  - intros Hd. destruct (destroys_keys api K Hd) as (K' & HK').
    destruct (session_account api mpi ops ctx0 s Hops) as (_ & ctx' & s1' & s2' & Hrun' & Hl' & Hf' & Hl2').
    fold r in Hrun, Hrun'. rewrite Hrun in Hrun'. injection Hrun' as <- <-. rewrite Hf in Hf'. injection Hf' as <-.
    rewrite <- !HK'. split; [by apply host_keys_unowned|done].
Qed.

(** A host key is made and forgotten, another is made, used, replaced and exported; the
    probe runs, and its key is one that the library fails to destroy. *)
Definition toy_ops : list mbed_op :=
  [OpGenerate (view_of ECDSA); OpPublic (view_of ECDSA) 512; OpProbe true; OpInit; OpImportEd25519 (Some [7; 8]);
   OpSign (view_of ED25519) (Some [1; 2; 3]) 512; OpMac (view_of HMAC_SHA2_256) (Some [1]) 5 (Some [2; 3]) 2 32;
   OpCipher (view_of AES128_CTR) (Some (replicate 16 3)) (Some (replicate 16 4)) SSH_CIPHER_ENCRYPT (Some [2; 3]) 2; OpExportHostkey 1].

Definition toy_end : option (ssh_mbedtls_crypto * psa_state toy_psa) :=
  mbed_run toy_psa z_api toy_ops (snd (ssh_mbedtls_crypto_init toy_psa (zero_mbed, empty : toy_state))).

Lemma keys_never_leak_witness :
  exists ctx s1, toy_end = Some (ctx, s1) /\ hostkey_id ctx = 3 /\ stuck s1 = {[2]} /\
    held s1 = {[3]} ∪ ({[1]} ∪ held (empty : psa_state toy_psa)).
Proof.
  assert (Forall op_ok toy_ops) as Hops.
  { repeat apply Forall_cons_2; try (apply Forall_nil); cbn [op_ok]; try done. split; [apply field_view, ED25519_ok|done]. }
  destruct (keys_never_leak toy_psa toy_keys z_api _ toy_ops zero_mbed (empty : toy_state) Hops) as (_ & ctx & s1 & s2 & Hrun & Hheld & _).
  assert (option_map (fun st => (hostkey_id (fst st), owns_hostkey (fst st), bool_decide (toy_stuck (snd st) = {[2]}))) toy_end = Some (3, true, true))
    as Hend by (by vm_compute).
  assert (toy_end = Some (ctx, s1)) as Hrun' by exact Hrun. rewrite Hrun' in Hend. injection Hend as Hkey Howns Hstuck. apply bool_decide_eq_true_1 in Hstuck.
  lazymatch type of Hheld with held _ = _ ∪ (?lost ∪ _) =>
    assert (lost = {[1]}) as Hlost by (apply (bool_decide_unpack _); by vm_compute) end.
  exists ctx, s1. split_and!; [exact Hrun'|exact Hkey|exact Hstuck|]. unfold host_keys in Hheld. rewrite Howns, Hkey, Hlost in Hheld. exact Hheld.
Defined.
